(* ===== verification/_CoqProject ===== *)
-Q . S2P
Prelude.v
GoStr.v
Path.v
GoFloat.v
Entities.v
Json.v
Eval.v
Schema.v
JobMaster.v
JobMasterFacts.v
JobMasterRuns.v
Executors.v
ExecutorsFacts.v
Messager.v
Seccomp.v
Sandbox.v
SandboxFacts.v
TaskManager.v
TaskManagerFacts.v
KubeRM.v
KubeRMFacts.v
JobManager.v
JobManagerFacts.v
Cache.v
Policy.v
X402.v
Auth.v
AuthFacts.v
Ldap.v
Oidc.v
Store.v
StoreFacts.v
ApiRuns.v
ApiRunsFacts.v
Flows.v
FlowsFacts.v
Routes.v
Defs.v
DefsFacts.v
Client.v
Discovery.v
Kube.v
Controller.v
ControllerFacts.v
Runtime.v
RuntimeFacts.v
Config.v
ConfigFacts.v
ClientFacts.v
Notifier.v
Wallet.v
WalletFacts.v
Mqtt.v
Signing.v
SigningFacts.v
Console.v
Import.v
ConsoleFacts.v
Repl.v
GoTime.v
JsonFacts.v
Reflect.v
Sql.v
Migrate.v
Knowledge.v
Locks.v
GoDuration.v
Llm.v
Mcp.v
A2A.v
AllInOne.v
Process.v
Postgres.v
ApiServer.v
Slots.v
NodeYaml.v
Remote.v
ToolServers.v
MapRunner.v
Startup.v
