(* ===== verification/Prelude.v ===== *)
(** * Flowgent: a verification library

    Flowgent runs agent flows: directed graphs whose nodes are LLM agents,
    tools, conditions, committees, human gates, sandboxed scripts and so on.
    A job master (one per run) walks the graph and hands ready nodes, as
    execution plans, to a resource manager; that executes them in-process or
    publishes them to task managers, whose slot workers call the executor of
    the node's kind and publish the outcome; sandbox nodes are written to a
    shared volume and triggered on sandbox managers, which run them under a
    seccomp filter or in a container.

    ** Files and the code they model

    - [Prelude]: errors as a sum with its notation, machine integers, maps
      kept with an order, the order of [range] over a Go map (a parameter),
      tactics and hints.  [GoStr], [Path], [GoFloat], [Json]: the parts of the
      Go runtime the code uses (strings, strconv, path/filepath, float64 by
      the IEEE operations of the Standard Library, encoding/json).
    - [Entities]: pkg/model/pkg/entities and pkg/model/pkg/sandbox.go, the
      records with the fields the modelled code reads or writes.  A pointer or
      map compared with nil is an [option].
    - [Eval], [Schema]: pkg/common/pkg/utils/eval.go (templates and
      conditions) and schema.go (JSON schema validation).
    - [JobMaster]: core/pkg/engine/jobmanager/jobmaster.go, the whole of the
      run's state and of [Execute]; the run store, the resource manager, the
      context and the clock are the class [JobMasterEnv].  [JobMasterFacts]
      and [JobMasterRuns] hold its theorems.
    - [Executors], [ExecutorsFacts]: core/pkg/engine/executor, every executor
      but the sandbox's, and the router, over the class [ExecEnv] (LLM, agent
      and memory store, knowledge search, tools, approvals).
    - [Messager]: messager/pkg/messager.go and standalone.go, topics and the
      in-memory messager.
    - [Seccomp]: sandbox/pkg/seccomp, the filter program with an interpreter
      of the BPF instructions it uses, the policy resolution, the hand-over
      to the child process and the notifier.
    - [Sandbox], [SandboxFacts]: core/pkg/engine/executor/sandbox.go and
      sandbox/pkg/sandboxmanager.go; the volume is a map from paths to
      contents, processes and broker are the class [SandboxHost].
    - [TaskManager], [TaskManagerFacts]: core/pkg/engine/taskmanager (router,
      direct execution, slot worker, heartbeats) and
      resourcemanager/standalone.go.
    - [JobManager], [JobManagerFacts]: core/pkg/engine/jobmanager/
      jobmanager.go (poller, claims, submission), the in-memory lock of
      core/pkg/lock/lock.go as an instance of the lock interface, and the retry
      policy of jobmaster.go.
    - [KubeRM], [KubeRMFacts]: resourcemanager/kubernetes.go:
      scaling of the two deployments, persistence of the counters, routing of
      results and [Schedule]; the loop of ticks; the cluster is a state whose
      calls may fail.
    - [Slots]: the workers and the channel of a sandbox manager, as a step
      relation.
    - [Cache]: cache/pkg/memory.go.  [Locks]: lock/pg.go,
      redis.go and cache/pkg/redis.go over an interface of lease servers
      ([LeaseServer]) that each server's commands discharge.
    - [Policy], [X402]: core/pkg/client: the
      spending policies and their ledger, the HTTP client that pays.
      [Remote]: the facilitator's other requests, and LDAP connections.
    - [Wallet], [WalletFacts]: wallet/pkg, the daemon, its secret
      stores, keys and receipts.  [Signing], [SigningFacts]: a sign client, the
      network and the daemon composed.
    - [Auth], [AuthFacts], [Ldap], [Oidc]: api/pkg/auth.
    - [Store], [StoreFacts]: the SQLite stores of runs, approvals and flows
      over tables of typed rows, a table being a list of rows behind the
      class [Row].  [Postgres]: those of PostgreSQL, compared
      up to the order of rows.  [Knowledge]: search and
      memory.  [GoTime], [JsonFacts], [Reflect], [Sql]:
      utils/reflect.go and the generic stores over rows of
      columns.  [Migrate]: store/pkg/migrate.go.
    - [ApiRuns], [Flows], [Defs] with their Facts, [Routes]: api/pkg/handler
      and the routes of server.go; a handler takes and returns the tables.
    - [Client], [ClientFacts]: core/pkg/client/flowgent_client.go.
    - [Discovery], [Kube], [Controller], [ControllerFacts]:
      engine/discovery, controller/pkg/controller.go and the schedule trigger.
    - [Runtime], [RuntimeFacts]: cmd/pkg/jobmanager.go, the deployment objects,
      and the way from a trigger to a job master.
    - [Config], [ConfigFacts], [GoDuration]: config/pkg/config and
      utils/unitduration.go.
    - [Notifier]: notifier/pkg, with the copy of the senders in its channel
      package.
    - [Mqtt]: messager/pkg/mqtt.go, helper.go and instrumented.go.
    - [Console], [Import], [ConsoleFacts], [Repl]: console/pkg.
    - [Llm], [Mcp]: core/pkg/llm and core/pkg/mcp.  [A2A]: a2a/pkg.
    - [AllInOne], [Process], [ApiServer]: cmd/pkg/allinone.go, main.go and the
      commands; api/pkg/apiserver.go, store/pkg/store.go, tracing and logging.
    - [NodeYaml]: the YAML forms of model/pkg/entities/dag.go and flow.go.
    - [MapRunner]: core/pkg/engine/executor/map.go, the goroutines of a map
      node as a step relation.  [ToolServers]: the SonarQube and GitHub tool
      servers of usecase/.  [Startup]: the choice of the resource manager, the
      start of the services, the end of the all-in-one
      process, telemetry counters and span identifiers.

    Stateful code passes its state explicitly; code that calls services
    threads a world [W] through a class of operations, so that a theorem
    holds for every implementation.  Errors are their texts; panics are the
    values [Panic] of [call].  Concurrency appears as sequences of events in
    any order (heartbeats, the resource manager, result routing); the job
    master's loop is sequential, as in the code.

    ** What the theorems show

    - Runs: the loop ends for every flow and environment; the final status
      tells the truth about the nodes; a node is dispatched at most once and
      after its dependencies; an acyclic flow whose nodes succeed completes;
      a cyclic or dangling one stays RUNNING; conditions skip exactly the
      other branch; what the input of a node is.
    - Claims: job managers that share a lawful lock and keep their leases
      never execute one run twice; what a poll dispatches; how a late holder
      of the in-memory lock breaks this; bounds of retries.
    - Expressions and schemas: templates and conditions evaluate as the
      denotation of their parts; validation accepts exactly the values that
      conform to the specification of the schema.
    - Executors: an agent's output conforms to its schema after a bounded
      number of calls; the supervisor's and the committee's decisions; JSON
      extraction; the scope of conditions; the human gate does not pause.
    - Messaging: work queues do not mix; shared subscriptions take turns.
    - Sandbox: the verdict of the filter for every system call; the child
      installs the very program of the policy; which connections pass; script
      paths stay in the workspace; only allowed scripts run, confined;
      results are published at most once; the subscription precedes the
      trigger; script output cannot forge the report.
    - Resource management: replica counts and scale requests stay in bounds
      through any interleaving and any failing calls; counters balance; a
      fail-over continues with the persisted counters; results reach exactly
      the waiting plan; what the run sees of a local and of a remote task;
      heartbeats and leases.
    - Controller: exactly one of the replicas that see the same peers owns a
      flow; a tick deletes only deployments nobody needs, and collects idle
      ones after the window; after a dispatch without failures a flow's
      namespace holds what its job manager needs; the labels one process
      writes are those another looks for; a run triggered at the API server
      is dispatched by the job manager the next tick makes.
    - API: what a trigger and a webhook create; the definitions in memory are
      those of the store; every sequence of requests keeps the tables well
      typed; pages cover a table; every client method reaches its handler,
      with the names it was given.
    - Access and payments: a request passes only with a valid token or on an
      anonymous path; logins are sound; a payment is made only when the policy
      allows the intent, and is recorded.
    - Stores: a struct that is saved by reflection comes back; both backends
      of the run store answer alike after any commands; a script is applied
      once; a search finds exactly the matching entries.
    - Locks on servers: at most one holder while leases last, whatever the
      interleaving of processes, through one interface.
    - Wallets: a key that is created signs for its address; a request gets the
      signature made for it, over a network that repeats and reorders.
    - LLM providers: the request goes to the provider the name stands for.
    - MQTT: what is subscribed is subscribed again after a reconnection.
    - Console: what is exported and imported again is the same.
    - All in one: a schedule that fires is run, with the flow that was stored.
    - Map nodes: whatever the interleaving, each item's output is in its slot.
    - Tool servers: which issues are handed over, which changes pushed.
    - Slots and scaling: triggers are served with the slots there are, and all
      of them; idle deployments go to their minimum.
    - Cache, configuration and notifications: hits are what was last set;
      which setting wins; who is notified.

    ** Bounds and fuel

    Few definitions take fuel, and each has enough by a theorem or by
    construction: [Execute] gets one iteration more than the graph has nodes
    (theorem [Execute_terminates]: every iteration that goes on settles a
    node); the BPF interpreter gets the length of the program, whose jumps go
    forward ([buildBPF_verdict] evaluates every input); the JSON parser gets
    one more than the length of its input, which every nested value shortens;
    printing a float64 tries at most the 17 digits that determine it, from an
    estimate of its decimal exponent at most five below it; a duration is read
    with the length of its text, which every part shortens.  A step relation
    needs none: [slots_serve_all] bounds the own steps of a manager by three
    for each trigger.
    The attempts of an agent and of the publications are the code's own
    bounds.

    ** Not modelled

    What serves, connects or waits in a process (HTTP servers, signals, the
    terminal of the console, flag parsing); the clients and libraries of the
    vendors (LLMs, MCP, MQTT, Redis, PostgreSQL, SQLite, Kubernetes, JWT,
    OpenTelemetry, viper), which are classes or arguments; the decoding of
    YAML, and of JSON into structs where a model takes the decoded value; the
    system calls that install a filter and answer the seccomp notifier; the
    environment of scripts; the Swagger page.  The runner and the mock
    services of tests/ are a test harness.  Of Kubernetes' own controllers
    nothing is assumed but that the calls do what they are documented to do.
    The lines of the implementation no definition is mapped to are imports,
    declarations of commands and their flags, log statements, constructors
    that copy their arguments, and interfaces. *)

From stdpp Require Export base tactics list strings gmap fin_maps sorting pretty.
From Stdlib Require Export ZArith Lia.
From Stdlib Require Import Ascii.

(** ** Scope and notations *)

Declare Scope flowgent_scope.
Delimit Scope flowgent_scope with flowgent.

(** Go functions that return [(value, error)]: an error is its text. *)
Inductive res (A : Type) : Type :=
| Ok (a : A)
| Err (msg : string).
Arguments Ok {A} a.
Arguments Err {A} msg.

Definition res_bind {A B : Type} (r : res A) (k : A -> res B) : res B :=
  match r with
  | Ok a => k a
  | Err e => Err e
  end.

Notation "'let?' x := e 'in' k" := (res_bind e (fun x => k))
  (at level 200, x pattern, e at level 100, k at level 200, right associativity)
  : flowgent_scope.
Open Scope flowgent_scope.

Definition is_ok {A : Type} (r : res A) : bool :=
  match r with
  | Ok _ => true
  | Err _ => false
  end.

(** Every element, in order, up to the first error. *)
Fixpoint each {A B : Type} (f : A -> res B) (l : list A) : res (list B) :=
  match l with
  | [] => Ok []
  | a :: l => let? b := f a in let? bs := each f l in Ok (b :: bs)
  end.

Lemma each_is_ok {A B} (f : A -> res B) l : is_ok (each f l) = forallb (fun a => is_ok (f a)) l.
Proof.
  induction l as [|a l IH]; [done|]. cbn. destruct (f a) as [b|e]; [|done]. cbn. rewrite <- IH. by destruct (each f l).
Qed.
Lemma each_map {A B} (f : A -> res B) (g : A -> B) l : (forall a, a ∈ l -> f a = Ok (g a)) -> each f l = Ok (map g l).
Proof.
  induction l as [|a l IH]; [done|]. intros Hf. cbn. rewrite (Hf a) by (by left). cbn.
  rewrite IH by (intros b Hb; apply Hf; by right). done.
Qed.
Lemma each_fails {A B} (f : A -> res B) l a : a ∈ l -> is_ok (f a) = false -> is_ok (each f l) = false.
Proof.
  intros Ha Hf. rewrite each_is_ok. apply not_true_iff_false. rewrite forallb_forall. intros Hall.
  rewrite (Hall a) in Hf by (by apply list_elem_of_In). done.
Qed.

(** ** Machine integers

    A Go [int]/[int64] is an integer in [[-2^63, 2^63)], a [uint64] one in
    [[0, 2^64)], an [int32] one in [[-2^31, 2^31)]; arithmetic wraps. *)

Definition wrap_u (w z : Z) : Z := (z mod 2 ^ w)%Z.
Definition wrap_s (w z : Z) : Z :=
  let u := (z mod 2 ^ w)%Z in
  if (u <? 2 ^ (w - 1))%Z then u else (u - 2 ^ w)%Z.

Definition u64 : Z -> Z := wrap_u 64.
Definition i64 : Z -> Z := wrap_s 64.
Definition i32 : Z -> Z := wrap_s 32.

(** ** Go maps kept with an order

    A Go map whose values are nested dynamic data is an association list with
    distinct keys; [range] visits it in list order.  A theorem about every
    such list is a theorem about every iteration order of the runtime. *)

Section GoMap.
Context {A : Type}.

Fixpoint mget (k : string) (m : list (string * A)) : option A :=
  match m with
  | [] => None
  | (k', v) :: m' => if String.eqb k k' then Some v else mget k m'
  end.

Fixpoint mset (k : string) (v : A) (m : list (string * A)) : list (string * A) :=
  match m with
  | [] => [(k, v)]
  | (k', v') :: m' =>
      if String.eqb k k' then (k, v) :: m' else (k', v') :: mset k v m'
  end.

Definition mhas (k : string) (m : list (string * A)) : bool :=
  match mget k m with Some _ => true | None => false end.

(** [for k, v := range src { dst[k] = v }] *)
Definition mputs (src dst : list (string * A)) : list (string * A) :=
  fold_left (fun acc kv => mset kv.1 kv.2 acc) src dst.

Lemma mget_mset (k k' : string) (v : A) m :
  mget k (mset k' v m) = if String.eqb k k' then Some v else mget k m.
Proof.
  induction m as [|[k0 v0] m IH]; simpl.
  - by destruct (String.eqb_spec k k').
  - destruct (String.eqb_spec k' k0) as [->|Hne]; simpl.
    + by destruct (String.eqb_spec k k0).
    + destruct (String.eqb_spec k k0) as [->|Hne'].
      * by destruct (String.eqb_spec k0 k').
      * by rewrite IH.
Qed.

Lemma mget_mset_eq k (v : A) m : mget k (mset k v m) = Some v.
Proof. by rewrite mget_mset, String.eqb_refl. Qed.

Lemma mget_mset_ne k k' (v : A) m : k <> k' -> mget k (mset k' v m) = mget k m.
Proof. intros ?. rewrite mget_mset. by destruct (String.eqb_spec k k'). Qed.

Lemma mget_None (k : string) (m : list (string * A)) :
  mget k m = None <-> k ∉ m.*1.
Proof.
  induction m as [|[k0 v0] m IH]; simpl; [set_solver|].
  destruct (String.eqb_spec k k0) as [->|Hne]; [set_solver|].
  rewrite IH. set_solver.
Qed.

Lemma mget_Some_elem (k : string) (v : A) m : mget k m = Some v -> (k, v) ∈ m.
Proof.
  induction m as [|[k0 v0] m IH]; simpl; [done|].
  destruct (String.eqb_spec k k0) as [->|Hne]; [intros [= ->]; set_solver|].
  intros H. apply IH in H. set_solver.
Qed.

Lemma mget_NoDup (k : string) (v : A) m :
  NoDup m.*1 -> (k, v) ∈ m -> mget k m = Some v.
Proof.
  induction m as [|[k0 v0] m IH]; simpl; intros Hnd Hin; [set_solver|].
  apply NoDup_cons in Hnd as [Hni Hnd].
  apply elem_of_cons in Hin as [[= -> ->]|Hin]; [by rewrite String.eqb_refl|].
  destruct (String.eqb_spec k k0) as [->|Hne]; [|by apply IH].
  exfalso. apply Hni. apply list_elem_of_fmap. by exists (k0, v).
Qed.

Lemma mget_Permutation k (m1 m2 : list (string * A)) :
  NoDup m1.*1 -> m1 ≡ₚ m2 -> mget k m1 = mget k m2.
Proof.
  intros Hnd Hp.
  destruct (mget k m1) as [v|] eqn:H1.
  - symmetry. apply mget_NoDup; [by rewrite <- Hp|].
    rewrite <- Hp. by apply mget_Some_elem.
  - symmetry. apply mget_None. apply mget_None in H1. by rewrite <- Hp.
Qed.

End GoMap.

(** ** Ranging over a map whose order is not observable in its type

    [range] over a [map[string]A] visits the entries in an order the runtime
    picks.  Where a result depends on it, the order is this class's. *)
Class RangeOrder := {
  range_of : forall {A : Type}, gmap string A -> list (string * A);
  range_of_perm : forall {A : Type} (m : gmap string A), range_of m ≡ₚ map_to_list m;
}.

Definition canonical_order : RangeOrder.
Proof. refine {| range_of := fun A m => map_to_list m |}. intros. reflexivity. Defined.

Lemma range_of_elem `{RangeOrder} {A} (m : gmap string A) k v :
  (k, v) ∈ range_of m <-> m !! k = Some v.
Proof. rewrite range_of_perm. by rewrite elem_of_map_to_list. Qed.

Lemma range_of_NoDup `{RangeOrder} {A} (m : gmap string A) : NoDup (range_of m).*1.
Proof. rewrite range_of_perm. apply NoDup_fst_map_to_list. Qed.

(** ** Tactics and hints *)

Create HintDb flowgent.

(** Split the hypotheses that are conjunctions, existentials or equalities
    of constructors. *)
Ltac crush_hyps :=
  repeat match goal with
  | H : _ /\ _ |- _ => destruct H
  | H : exists _, _ |- _ => destruct H
  | H : Some _ = Some _ |- _ => injection H as H
  | H : Ok _ = Ok _ |- _ => injection H as H
  | H : (_, _) = (_, _) |- _ => injection H as ?; subst
  | H : Some _ = None |- _ => discriminate H
  | H : None = Some _ |- _ => discriminate H
  | H : Ok _ = Err _ |- _ => discriminate H
  | H : Err _ = Ok _ |- _ => discriminate H
  end.

(** Case analysis on the innermost [match] of the goal or of a hypothesis. *)
Ltac split_match :=
  match goal with
  | |- context [match ?x with _ => _ end] => destruct x eqn:?
  end.
Ltac split_match_in H :=
  match type of H with
  | context [match ?x with _ => _ end] => destruct x eqn:?
  end.

(** Linear arithmetic with division. *)
Ltac dlia := Z.to_euclidean_division_equations; lia.

(** ** Lists *)

Lemma length_remove_lt {A} (P : A -> Prop) `{forall x, Decision (P x)} (l : list A) x :
  x ∈ l -> P x -> length (filter (fun y => ~ P y) l) < length l.
Proof.
  induction l as [|y l IH]; intros Hin HP; [set_solver|].
  rewrite filter_cons. apply elem_of_cons in Hin as [->|Hin].
  - rewrite decide_False by tauto. simpl.
    pose proof (length_filter (fun y => ~ P y) l). lia.
  - case_decide; simpl; specialize (IH Hin HP); lia.
Qed.

Lemma NoDup_map_filter {A B} (f : A -> B) (g : A -> bool) l : NoDup (map f l) -> NoDup (map f (List.filter g l)).
Proof.
  induction l as [|s l IH]; [done|]. cbn [map List.filter]. intros [Hni Hnd]%NoDup_cons.
  destruct (g s); [|by apply IH]. cbn [map]. apply NoDup_cons. split; [|by apply IH].
  intros (s' & Es & Hs')%list_elem_of_fmap. apply Hni. rewrite Es. apply list_elem_of_fmap_2.
  apply list_elem_of_In in Hs'. apply filter_In in Hs' as [Hs' _]. by apply list_elem_of_In.
Qed.

(** Fewer elements satisfy a stronger test. *)
Lemma length_filter_mono {A} (P Q : A -> Prop)
    `{forall x, Decision (P x)} `{forall x, Decision (Q x)} (l : list A) :
  (forall x, x ∈ l -> P x -> Q x) -> length (filter P l) <= length (filter Q l).
Proof.
  induction l as [|x l IH]; intros HPQ; [done|].
  rewrite !filter_cons.
  assert (length (filter P l) <= length (filter Q l)) by (apply IH; set_solver).
  repeat case_decide; simpl; try lia.
  exfalso. set_solver.
Qed.

Lemma length_filter_strict {A} (P Q : A -> Prop)
    `{forall x, Decision (P x)} `{forall x, Decision (Q x)} (l : list A) x :
  (forall y, y ∈ l -> P y -> Q y) -> x ∈ l -> Q x -> ~ P x ->
  length (filter P l) < length (filter Q l).
Proof.
  induction l as [|y l IH]; intros HPQ Hin HQ HnP; [set_solver|].
  rewrite !filter_cons. apply elem_of_cons in Hin as [->|Hin].
  - rewrite decide_False by done. rewrite decide_True by done. simpl.
    assert (length (filter P l) <= length (filter Q l)); [|lia].
    apply length_filter_mono. set_solver.
  - assert (length (filter P l) < length (filter Q l)) by (apply IH; set_solver).
    repeat case_decide; simpl; try lia. exfalso. set_solver.
Qed.


#[export] Hint Resolve mget_Some_elem range_of_NoDup : flowgent.
