(* ===== verification/GoStr.v ===== *)
(** * Go strings

    The functions of Go's [strings] and [strconv] packages that the program
    uses, on strings as byte sequences.  Case mapping ([ToLower],
    [EqualFold]) and white space ([TrimSpace]) are those of ASCII: on bytes
    above 127 the Go functions decode UTF-8 and map more characters.  An
    [Index] that Go reports as [-1] is [None]. *)

From S2P Require Export Prelude.
From Stdlib Require Import Ascii.

Local Open Scope string_scope.
#[global] Arguments String.append !_ _ / : simpl nomatch.

Fixpoint sdrop (n : nat) (s : string) : string :=
  match n, s with
  | O, _ => s
  | S n', String _ s' => sdrop n' s'
  | S _, EmptyString => EmptyString
  end.

Fixpoint stake (n : nat) (s : string) : string :=
  match n, s with
  | O, _ => EmptyString
  | S n', String c s' => String c (stake n' s')
  | S _, EmptyString => EmptyString
  end.

Fixpoint HasPrefix (s p : string) {struct p} : bool :=
  match p, s with
  | EmptyString, _ => true
  | String a p', String b s' => Ascii.eqb a b && HasPrefix s' p'
  | String _ _, EmptyString => false
  end.

Definition HasSuffix (s p : string) : bool :=
  (String.length p <=? String.length s)%nat &&
  String.eqb (sdrop (String.length s - String.length p) s) p.

Fixpoint Index (s sub : string) : option nat :=
  if HasPrefix s sub then Some 0
  else match s with
       | EmptyString => None
       | String _ s' => S <$> Index s' sub
       end.

Definition Contains (s sub : string) : bool :=
  match Index s sub with Some _ => true | None => false end.

Fixpoint IndexByte (s : string) (c : ascii) : option nat :=
  match s with
  | EmptyString => None
  | String c' s' => if Ascii.eqb c' c then Some 0 else S <$> IndexByte s' c
  end.

Fixpoint LastIndexByte (s : string) (c : ascii) : option nat :=
  match s with
  | EmptyString => None
  | String c' s' =>
      match LastIndexByte s' c with
      | Some i => Some (S i)
      | None => if Ascii.eqb c' c then Some 0 else None
      end
  end.

Definition TrimPrefix (s p : string) : string :=
  if HasPrefix s p then sdrop (String.length p) s else s.

Definition TrimSuffix (s p : string) : string :=
  if HasSuffix s p then stake (String.length s - String.length p) s else s.

Definition CutPrefix (s p : string) : option string :=
  if HasPrefix s p then Some (sdrop (String.length p) s) else None.

Definition is_space (c : ascii) : bool :=
  let n := nat_of_ascii c in ((9 <=? n) && (n <=? 13))%nat || (n =? 32)%nat.

Fixpoint TrimLeft (s : string) : string :=
  match s with
  | String c s' => if is_space c then TrimLeft s' else s
  | EmptyString => EmptyString
  end.

Fixpoint TrimRight (s : string) : string :=
  match s with
  | EmptyString => EmptyString
  | String c s' =>
      match TrimRight s' with
      | EmptyString => if is_space c then EmptyString else String c EmptyString
      | s'' => String c s''
      end
  end.

Definition TrimSpace (s : string) : string := TrimRight (TrimLeft s).

(** [strings.SplitN(s, sep, 2)] for a non-empty [sep]. *)
Definition SplitN2 (s sep : string) : list string :=
  match Index s sep with
  | Some i => [stake i s; sdrop (i + String.length sep) s]
  | None => [s]
  end.

(** [strings.ReplaceAll(s, old, new)] for a non-empty [old]: the counter
    [skip] runs over the rest of an occurrence already replaced. *)
Fixpoint replace_go (old new s : string) (skip : nat) : string :=
  match s with
  | EmptyString => EmptyString
  | String c s' =>
      match skip with
      | S k => replace_go old new s' k
      | O =>
          if HasPrefix s old
          then new +:+ replace_go old new s' (String.length old - 1)
          else String c (replace_go old new s' 0)
      end
  end.

Definition ReplaceAll (s old new : string) : string := replace_go old new s 0.

Definition lower_ascii (c : ascii) : ascii :=
  let n := nat_of_ascii c in
  if ((65 <=? n) && (n <=? 90))%nat then ascii_of_nat (n + 32) else c.

Fixpoint ToLower (s : string) : string :=
  match s with
  | EmptyString => EmptyString
  | String c s' => String (lower_ascii c) (ToLower s')
  end.

Definition EqualFold (s t : string) : bool := String.eqb (ToLower s) (ToLower t).

Definition upper_ascii (c : ascii) : ascii :=
  let n := N_of_ascii c in if ((97 <=? n) && (n <=? 122))%N then ascii_of_N (n - 32) else c.
Fixpoint ToUpper (s : string) : string :=
  match s with EmptyString => EmptyString | String c s' => String (upper_ascii c) (ToUpper s') end.

(** [strings.Split] at a character *)
Fixpoint SplitByte (c : ascii) (s : string) : list string :=
  match s with
  | EmptyString => [""]
  | String x s =>
      match SplitByte c s with
      | w :: ws => if Ascii.eqb x c then "" :: w :: ws else String x w :: ws
      | [] => [""]
      end
  end.

(** [strings.Join] *)
Fixpoint Join (l : list string) (sep : string) : string :=
  match l with
  | [] => ""
  | [s] => s
  | s :: l' => s +:+ sep +:+ Join l' sep
  end.

(** The double-quote character, and [%q] of a string that needs no escape. *)
Definition dquote : string := String (ascii_of_nat 34) EmptyString.
Definition Quote (s : string) : string := dquote +:+ s +:+ dquote.

(** [strconv.Itoa] and [%d] *)
Definition Itoa (z : Z) : string := pretty z.
Lemma Itoa_inj (a b : Z) : Itoa a = Itoa b -> a = b.
Proof. unfold Itoa. intros E. by apply (inj pretty) in E. Qed.

Definition digit_val (c : ascii) : option Z :=
  let n := nat_of_ascii c in
  if ((48 <=? n) && (n <=? 57))%nat then Some (Z.of_nat (n - 48)) else None.

Fixpoint digits_val (s : string) (acc : Z) : option Z :=
  match s with
  | EmptyString => Some acc
  | String c s' =>
      match digit_val c with
      | Some d => digits_val s' (acc * 10 + d)%Z
      | None => None
      end
  end.

Definition in_i64 (z : Z) : bool := ((- 2 ^ 63 <=? z) && (z <? 2 ^ 63))%Z.

(** [strconv.Atoi]: an optional sign and at least one decimal digit, in the
    range of [int]. *)
Definition Atoi (s : string) : option Z :=
  let '(neg, body) :=
    match s with
    | String c s' =>
        if Ascii.eqb c "-" then (true, s')
        else if Ascii.eqb c "+" then (false, s') else (false, s)
    | EmptyString => (false, s)
    end in
  match body with
  | EmptyString => None
  | _ =>
      match digits_val body 0 with
      | Some v =>
          let z := if neg : bool then (- v)%Z else v in
          if in_i64 z then Some z else None
      | None => None
      end
  end.

(** No byte of [s] is [c]. *)
Fixpoint no_char (c : ascii) (s : string) : bool :=
  match s with
  | EmptyString => true
  | String c' s' => negb (Ascii.eqb c' c) && no_char c s'
  end.

(** ** Lemmas *)

Lemma append_nil_r s : s +:+ "" = s.
Proof. induction s; simpl; congruence. Qed.

Lemma append_assoc s t u : (s +:+ t) +:+ u = s +:+ t +:+ u.
Proof. induction s; simpl; congruence. Qed.

Lemma length_append s t :
  String.length (s +:+ t) = String.length s + String.length t.
Proof. induction s; simpl; congruence. Qed.

Lemma HasPrefix_append p s : HasPrefix (p +:+ s) p = true.
Proof. induction p as [|c p IH]; simpl; [done|]. by rewrite Ascii.eqb_refl. Qed.

Lemma HasPrefix_inv p s : HasPrefix s p = true -> exists t, s = p +:+ t.
Proof.
  revert s. induction p as [|c p IH]; simpl; intros s; [by exists s|].
  destruct s as [|c' s]; [done|].
  intros [->%Ascii.eqb_eq H]%andb_true_iff. apply IH in H as [t ->]. by exists t.
Qed.

Lemma sdrop_append p s : sdrop (String.length p) (p +:+ s) = s.
Proof. induction p as [|c p IH]; simpl; [by destruct s|done]. Qed.

Lemma stake_append p s : stake (String.length p) (p +:+ s) = p.
Proof. induction p as [|c p IH]; simpl; [by destruct s|congruence]. Qed.

Lemma sdrop_length s : sdrop (String.length s) s = "".
Proof. by induction s. Qed.

Lemma stake_all s : stake (String.length s) s = s.
Proof. induction s; simpl; congruence. Qed.

Lemma stake_sdrop n s : stake n s +:+ sdrop n s = s.
Proof. revert s. induction n as [|n IH]; intros [|c s]; simpl; by rewrite ?IH. Qed.

Lemma HasSuffix_append s t : HasSuffix (s +:+ t) t = true.
Proof.
  unfold HasSuffix. rewrite length_append.
  replace (String.length s + String.length t - String.length t) with (String.length s) by lia.
  rewrite sdrop_append, String.eqb_refl, andb_true_r.
  apply Nat.leb_le. lia.
Qed.

Lemma HasSuffix_inv s t : HasSuffix s t = true -> exists u, s = u +:+ t.
Proof.
  unfold HasSuffix. intros [_ H]%andb_true_iff. apply String.eqb_eq in H.
  exists (stake (String.length s - String.length t) s).
  rewrite <- H at 2. by rewrite stake_sdrop.
Qed.

Lemma append_inj_l s t u : s +:+ t = s +:+ u -> t = u.
Proof. induction s; simpl; [done|]. intros [= ?]. auto. Qed.

Lemma IndexByte_append c p t :
  no_char c p = true -> IndexByte (p +:+ String c t) c = Some (String.length p).
Proof.
  induction p as [|c' p IH]; simpl; intros H.
  - by rewrite Ascii.eqb_refl.
  - apply andb_true_iff in H as [Hc H]. apply negb_true_iff in Hc.
    by rewrite Hc, IH.
Qed.
Lemma IndexByte_none c p : no_char c p = true -> IndexByte p c = None.
Proof.
  induction p as [|c' p IH]; simpl; intros H; [done|].
  apply andb_true_iff in H as [Hc H]. apply negb_true_iff in Hc. by rewrite Hc, IH.
Qed.

Lemma no_char_append c s t : no_char c (s +:+ t) = no_char c s && no_char c t.
Proof. induction s; simpl; [done|]. by rewrite IHs, andb_assoc. Qed.

(** The first occurrence of a text whose first byte is not in [p]. *)
Lemma Index_skip c p sub t :
  no_char c p = true ->
  Index (p +:+ String c sub +:+ t) (String c sub) = Some (String.length p).
Proof.
  induction p as [|c' p IH]; intros H.
  - change ("" +:+ String c sub +:+ t) with (String c (sub +:+ t)).
    cbn [Index HasPrefix]. by rewrite Ascii.eqb_refl, HasPrefix_append.
  - simpl in H. apply andb_true_iff in H as [Hc H]. apply negb_true_iff in Hc.
    change (String c' p +:+ String c sub +:+ t) with (String c' (p +:+ String c sub +:+ t)).
    cbn [Index HasPrefix]. rewrite Ascii.eqb_sym, Hc. cbn [andb]. by rewrite IH.
Qed.

Lemma Index_none c p sub : no_char c p = true -> Index p (String c sub) = None.
Proof.
  induction p as [|c' p IH]; intros H; [done|].
  simpl in H. apply andb_true_iff in H as [Hc H]. apply negb_true_iff in Hc.
  cbn [Index HasPrefix]. rewrite Ascii.eqb_sym, Hc. cbn [andb]. by rewrite IH.
Qed.

Lemma ToLower_idemp s : ToLower (ToLower s) = ToLower s.
Proof.
  induction s as [|c s IH]; simpl; [done|]. rewrite IH. f_equal.
  destruct c as [[] [] [] [] [] [] [] []]; reflexivity.
Qed.

Lemma EqualFold_refl s : EqualFold s s = true.
Proof. apply String.eqb_refl. Qed.

Lemma EqualFold_sym s t : EqualFold s t = EqualFold t s.
Proof. unfold EqualFold. apply String.eqb_sym. Qed.

(** ** Trimming *)

(** No white space at either end. *)
Definition trimmed (s : string) : bool :=
  String.eqb (TrimLeft s) s && String.eqb (TrimRight s) s.

Lemma TrimRight_append s v : TrimRight v = v -> v <> "" -> TrimRight (s +:+ v) = s +:+ v.
Proof.
  intros Hv Hne. induction s as [|c s IH]; [done|].
  change (String c s +:+ v) with (String c (s +:+ v)). cbn [TrimRight]. rewrite IH.
  destruct (s +:+ v) eqn:E; [|done].
  apply (f_equal String.length) in E. rewrite length_append in E.
  destruct v; simpl in E; [done|lia].
Qed.

Lemma trimmed_TrimSpace s : trimmed s = true -> TrimSpace s = s.
Proof.
  unfold trimmed, TrimSpace. intros [Hl%String.eqb_eq Hr%String.eqb_eq]%andb_true_iff.
  by rewrite Hl.
Qed.

Lemma TrimSpace_id c s v :
  is_space c = false -> TrimRight v = v -> v <> "" ->
  TrimSpace (String c s +:+ v) = String c s +:+ v.
Proof.
  intros Hc Hv Hne. unfold TrimSpace.
  change (String c s +:+ v) with (String c (s +:+ v)) at 1. cbn [TrimLeft]. rewrite Hc.
  change (String c (s +:+ v)) with (String c s +:+ v). by apply TrimRight_append.
Qed.

Lemma Contains_append p sub t : Contains (p +:+ sub +:+ t) sub = true.
Proof.
  unfold Contains. induction p as [|c p IH].
  - change ("" +:+ sub +:+ t) with (sub +:+ t).
    pose proof (HasPrefix_append sub t) as H.
    destruct (sub +:+ t); cbn [Index]; by rewrite H.
  - change (String c p +:+ sub +:+ t) with (String c (p +:+ sub +:+ t)).
    cbn [Index]. destruct (HasPrefix (String c (p +:+ sub +:+ t)) sub); [done|].
    by destruct (Index (p +:+ sub +:+ t) sub).
Qed.

Lemma HasSuffix_last s v c :
  v <> "" -> HasSuffix (s +:+ v) (String c "") = true -> HasSuffix v (String c "") = true.
Proof.
  intros Hv [u Hu]%HasSuffix_inv. revert u Hu.
  induction s as [|c' s IH]; intros u Hu.
  - simpl in Hu. rewrite Hu. apply HasSuffix_append.
  - destruct u as [|c'' u]; simpl in Hu; injection Hu as _ Hu; [|by eapply IH].
    apply (f_equal String.length) in Hu. rewrite length_append in Hu.
    destruct v; simpl in Hu; [done|lia].
Qed.

(** [Itoa] is read back by [Atoi]. *)
Lemma digit_val_pretty n : (n < 10)%N -> digit_val (pretty_N_char n) = Some (Z.of_N n).
Proof.
  intros H.
  destruct n as [|p]; [done|]. do 4 (destruct p as [p|p|]; try done); lia.
Qed.

Lemma digits_val_pretty n s : digits_val (pretty_N_go n s) 0 = digits_val s (Z.of_N n).
Proof.
  revert s. induction (N.lt_wf_0 n) as [n _ IH]; intros s.
  assert (n = 0 \/ 0 < n)%N as [->|Hn] by lia; [by rewrite pretty_N_go_0|].
  rewrite pretty_N_go_step by done. rewrite IH by (by apply N.div_lt). cbn [digits_val].
  rewrite digit_val_pretty by (by apply N.mod_lt). f_equal.
  rewrite (N.div_mod n 10) at 3 by done. lia.
Qed.

Lemma pretty_N_digits n : exists c r, pretty n = String c r /\ Ascii.eqb c "-" = false /\ Ascii.eqb c "+" = false /\
  digits_val (pretty n) 0 = Some (Z.of_N n).
Proof.
  assert (Hd : digits_val (pretty n) 0 = Some (Z.of_N n)).
  { unfold pretty, pretty_N. case_decide; [by subst|]. by rewrite digits_val_pretty. }
  destruct (pretty n) as [|c r] eqn:E.
  { exfalso. unfold pretty, pretty_N in E. case_decide; [done|].
    assert (Hlen : forall n s, String.length s <= String.length (pretty_N_go n s)).
    { clear. intros n. induction (N.lt_wf_0 n) as [n _ IH]; intros s.
      assert (n = 0 \/ 0 < n)%N as [->|Hn] by lia; [by rewrite pretty_N_go_0|].
      rewrite pretty_N_go_step by done. etrans; [|by apply IH, N.div_lt]. simpl. lia. }
    rewrite pretty_N_go_step in E by lia. pose proof (Hlen (n `div` 10)%N (String (pretty_N_char (n `mod` 10)) "")) as H'.
    rewrite E in H'. cbn in H'. lia. }
  exists c, r. split; [done|].
  assert (Hc : exists x, digit_val c = Some x).
  { cbn in Hd. destruct (digit_val c); [by eexists|done]. }
  destruct Hc as [x Hc]. split_and!; [| |done].
  - destruct (Ascii.eqb_spec c "-") as [->|]; [done|done].
  - destruct (Ascii.eqb_spec c "+") as [->|]; [done|done].
Qed.

Lemma Atoi_Itoa z : in_i64 z = true -> Atoi (Itoa z) = Some z.
Proof.
  intros Hz. unfold Itoa, pretty, pretty_Z. destruct z as [|p|p].
  - done.
  - destruct (pretty_N_digits (N.pos p)) as (c & r & E & H1 & H2 & Hd).
    change (pretty p) with (pretty (N.pos p)). unfold Atoi. rewrite E in *. rewrite H1, H2. 
    cbv beta iota zeta. rewrite Hd. cbn [Z.of_N]. by rewrite Hz.
  - destruct (pretty_N_digits (N.pos p)) as (c & r & E & H1 & H2 & Hd).
    change (pretty p) with (pretty (N.pos p)). unfold Atoi. cbn [String.append]. 
    change (Ascii.eqb "-" "-") with true. cbv beta iota zeta. rewrite E in *. rewrite Hd. cbv beta iota zeta. change (- Z.of_N (N.pos p))%Z with (Z.neg p). by rewrite Hz.
Qed.
