(* ===== verification/Path.v ===== *)
(** * Slash-separated paths

    Splitting at slashes, and [path/filepath] on Unix: [Clean] works on the
    list of components, kept as a stack. *)

From S2P Require Export Prelude GoStr.
From Stdlib Require Import Ascii.

Local Open Scope string_scope.

(** [strings.Split(s, "/")] *)
Fixpoint split_slash (s : string) : list string :=
  match s with
  | EmptyString => [""]
  | String c s' =>
      if Ascii.eqb c "/" then "" :: split_slash s'
      else match split_slash s' with
           | p :: ps => String c p :: ps
           | [] => [String c ""]
           end
  end.

(** One component of [Clean]: empty and ["."] components vanish, [".."]
    drops the last kept component; at the top it stays in a relative path
    and vanishes in a rooted one. *)
Definition clean_step (rooted : bool) (stack : list string) (c : string) : list string :=
  if String.eqb c "" || String.eqb c "." then stack
  else if String.eqb c ".." then
    match stack with
    | [] => if rooted then [] else [".."]
    | top :: below => if String.eqb top ".." then ".." :: stack else below
    end
  else c :: stack.

(** The components of the cleaned path, the last one first. *)
Definition clean_stack (p : string) : list string :=
  fold_left (clean_step (HasPrefix p "/")) (split_slash p) [].

Definition render (rooted : bool) (stack : list string) : string :=
  let body := Join (rev stack) "/" in
  if rooted then "/" +:+ body else if String.eqb body "" then "." else body.

(** [filepath.Clean] *)
Definition Clean (p : string) : string := render (HasPrefix p "/") (clean_stack p).

(** [filepath.Join]: leading empty elements are skipped. *)
Fixpoint PathJoin (elems : list string) : string :=
  match elems with
  | [] => ""
  | e :: rest => if String.eqb e "" then PathJoin rest else Clean (Join elems "/")
  end.

(** ** Levels *)

Definition level (s : string) : bool := no_char "/" s.

Lemma split_slash_append p s :
  level p = true -> split_slash (p +:+ "/" +:+ s) = p :: split_slash s.
Proof.
  unfold level. induction p as [|c p IH]; intros Hp; [done|].
  simpl in Hp. apply andb_true_iff in Hp as [Hc Hp]. apply negb_true_iff in Hc.
  change (String c p +:+ "/" +:+ s) with (String c (p +:+ "/" +:+ s)).
  cbn [split_slash]. by rewrite Hc, IH.
Qed.

Lemma split_slash_level p : level p = true -> split_slash p = [p].
Proof.
  unfold level. induction p as [|c p IH]; intros Hp; [done|].
  simpl in Hp. apply andb_true_iff in Hp as [Hc Hp]. apply negb_true_iff in Hc.
  cbn [split_slash]. by rewrite Hc, IH.
Qed.


(** ** Joining levels *)

Lemma split_slash_nonempty s : split_slash s <> [].
Proof.
  induction s as [|c s IH]; [done|]. cbn [split_slash].
  destruct (Ascii.eqb c "/"); [done|]. by destruct (split_slash s).
Qed.

Lemma split_slash_snoc s p :
  split_slash (s +:+ "/" +:+ p) = (split_slash s ++ split_slash p)%list.
Proof.
  induction s as [|c s IH]; [done|].
  change (String c s +:+ "/" +:+ p) with (String c (s +:+ "/" +:+ p)). cbn [split_slash].
  rewrite IH. destruct (Ascii.eqb c "/"); [done|].
  pose proof (split_slash_nonempty s). by destruct (split_slash s).
Qed.

Lemma split_slash_Join s segs :
  forallb level segs = true -> split_slash (Join (s :: segs) "/") = (split_slash s ++ segs)%list.
Proof.
  revert s. induction segs as [|p segs IH]; intros s Hl; cbn [Join]; [by rewrite app_nil_r|].
  cbn [forallb] in Hl. apply andb_true_iff in Hl as [Hp Hl].
  change (match segs with [] => p | _ => p +:+ "/" +:+ Join segs "/" end) with (Join (p :: segs) "/").
  rewrite split_slash_snoc, IH, (split_slash_level p) by done. done.
Qed.

(** A component that names an entry of a directory. *)
Definition plain (c : string) : bool :=
  negb (String.eqb c "") && negb (String.eqb c ".") && negb (String.eqb c "..") && level c.

Lemma clean_plain rooted stack c : plain c = true -> clean_step rooted stack c = c :: stack.
Proof.
  unfold plain, clean_step. rewrite !andb_true_iff, !negb_true_iff. by intros [[[-> ->] ->] _].
Qed.

(** Components other than [".."] only grow the stack, by those that are not
    empty or ["."]. *)
Lemma clean_grow rooted segs : forall stack,
  ~ ".." ∈ segs ->
  fold_left (clean_step rooted) segs stack =
  (rev (List.filter (fun c => negb (String.eqb c "" || String.eqb c ".")) segs) ++ stack)%list.
Proof.
  induction segs as [|c segs IH]; intros stack Hs; [done|].
  apply not_elem_of_cons in Hs as [Hc Hs]. cbn [fold_left List.filter]. rewrite IH by done.
  unfold clean_step. destruct (String.eqb c "" || String.eqb c "."); [done|].
  destruct (String.eqb_spec c ".."); [done|]. cbn [negb rev]. by rewrite <- app_assoc.
Qed.

(** Joining slash-free segments other than [".."] below a directory keeps
    the directory's components and appends the segments. *)
Lemma clean_stack_PathJoin ws segs :
  ws <> "" -> forallb level segs = true -> ~ ".." ∈ segs ->
  PathJoin (ws :: segs) =
  render (HasPrefix ws "/")
    (rev (List.filter (fun c => negb (String.eqb c "" || String.eqb c ".")) segs) ++ clean_stack ws).
Proof.
  intros Hws Hl Hd. cbn [PathJoin]. destruct (String.eqb_spec ws ""); [done|].
  unfold Clean, clean_stack.
  assert (HasPrefix (Join (ws :: segs) "/") "/" = HasPrefix ws "/") as ->.
  { destruct ws as [|c ws]; [done|]. cbn [Join]. by destruct segs. }
  rewrite split_slash_Join, fold_left_app, clean_grow by done. done.
Qed.
