(* ===== verification/GoFloat.v ===== *)
(** * Go float64

    IEEE 754 binary64 with the Standard Library's executable specification
    floats ([SpecFloat]: no axiom, arithmetic by integers), the conversions
    of Go ([float64(i)], [int64(f)]), [strconv.ParseFloat] on decimal
    literals (hexadecimal literals are not covered) and the shortest decimal
    text that [fmt]'s [%v] prints. *)

From S2P Require Export Prelude GoStr.
From Stdlib Require Import Ascii.
From Stdlib Require Export SpecFloat.

Local Open Scope Z_scope.

Abbreviation f64 := spec_float.
Definition f64_prec : Z := 53.
Definition f64_emax : Z := 1024.

Definition f64_mul : f64 -> f64 -> f64 := SFmul f64_prec f64_emax.
Definition f64_div : f64 -> f64 -> f64 := SFdiv f64_prec f64_emax.
Definition f64_eqb : f64 -> f64 -> bool := SFeqb.
Definition f64_ltb : f64 -> f64 -> bool := SFltb.
Definition f64_leb : f64 -> f64 -> bool := SFleb.

Definition f64_is_nan (f : f64) : bool :=
  match f with S754_nan => true | _ => false end.

(** [float64(z)] of an integer: rounded to nearest even. *)
Definition f64_of_Z (z : Z) : f64 := binary_normalize f64_prec f64_emax z 0 false.

(** The integer part of a finite float, towards zero. *)
Definition f64_trunc (f : f64) : option Z :=
  match f with
  | S754_zero _ => Some 0
  | S754_finite s m e =>
      let a := if 0 <=? e then Zpos m * 2 ^ e else Zpos m / 2 ^ (- e) in
      Some (if s : bool then - a else a)
  | _ => None
  end.

(** [int64(f)].  Go leaves the result of an out-of-range conversion to the
    implementation; amd64 yields the least integer, which is used here. *)
Definition f64_to_i64 (f : f64) : Z :=
  match f64_trunc f with
  | Some z => if in_i64 z then z else - 2 ^ 63
  | None => - 2 ^ 63
  end.

(** The float nearest to [m * 10 ^ e10]. *)
Definition f64_of_dec (neg : bool) (m e10 : Z) : f64 :=
  match m with
  | Zpos p =>
      if 0 <=? e10 then
        let f := binary_normalize f64_prec f64_emax (Zpos p * 10 ^ e10) 0 false in
        if neg then SFopp f else f
      else
        let '(mz, ez, lz) :=
          SFdiv_core_binary f64_prec f64_emax (Zpos p) 0 (10 ^ (- e10)) 0 in
        binary_round_aux f64_prec f64_emax neg mz ez lz
  | _ => S754_zero neg
  end.

(** ** strconv.ParseFloat *)

(** Decimal digits from the front of a text: the value, their number, the
    rest. *)
Fixpoint scan_digits (s : string) (acc : Z) (n : nat) : Z * nat * string :=
  match s with
  | String c s' =>
      match digit_val c with
      | Some d => scan_digits s' (acc * 10 + d) (S n)
      | None => (acc, n, s)
      end
  | EmptyString => (acc, n, s)
  end.

Definition scan_sign (s : string) : bool * string :=
  match s with
  | String c s' =>
      if Ascii.eqb c "-" then (true, s')
      else if Ascii.eqb c "+" then (false, s') else (false, s)
  | EmptyString => (false, s)
  end.

(** The exponent part: nothing, or [e], a sign and at least one digit. *)
Definition scan_exponent (s : string) : option Z :=
  match s with
  | EmptyString => Some 0
  | String c s' =>
      if Ascii.eqb (lower_ascii c) "e" then
        let '(neg, s1) := scan_sign s' in
        let '(v, n, rest) := scan_digits s1 0 0 in
        match n, rest with
        | S _, EmptyString => Some (if neg : bool then - v else v)
        | _, _ => None
        end
      else None
  end.

(** [strconv.ParseFloat(s, 64)]; [None] is an error (bad syntax, or a finite
    literal out of range). *)
Definition ParseFloat (s : string) : option f64 :=
  let '(neg, body) := scan_sign s in
  let low := ToLower body in
  if String.eqb low "inf" || String.eqb low "infinity" then Some (S754_infinity neg)
  else if String.eqb low "nan" then (if String.eqb s body then Some S754_nan else None)
  else
    let '(iv, ni, r1) := scan_digits body 0 0 in
    let '(mv, nf, r2) :=
      match r1 with
      | String c r => if Ascii.eqb c "." then scan_digits r iv 0 else (iv, 0%nat, r1)
      | EmptyString => (iv, 0%nat, r1)
      end in
    if (ni + nf =? 0)%nat then None
    else
      match scan_exponent r2 with
      | None => None
      | Some e =>
          if mv =? 0 then Some (S754_zero neg)
          else
            let e10 := e - Z.of_nat nf in
            let top := e10 + Z.of_nat (ni + nf) in
            if 400 <? e10 then None
            else if top <? -400 then Some (S754_zero neg)
            else
              match f64_of_dec neg mv e10 with
              | S754_infinity _ => None
              | f => Some f
              end
      end.

(** ** Shortest decimal text *)

(** [k] with [10^k <= num/den < 10^(k+1)], from an estimate below it. *)
Fixpoint dec_exponent (fuel : nat) (num den k : Z) : Z :=
  match fuel with
  | O => k
  | S f =>
      let up := k + 1 in
      let ge := if 0 <=? up then den * 10 ^ up <=? num else den <=? num * 10 ^ (- up) in
      if ge then dec_exponent f num den up else k
  end.

Definition scaled_floor (num den e : Z) : Z * Z * Z :=
  let n := if 0 <=? e then num * 10 ^ e else num in
  let d := if 0 <=? e then den else den * 10 ^ (- e) in
  (n / d, n mod d, d).

(** The shortest digit string [d] and exponent [e] with [d * 10^e] reading
    back as the float: [n] digits are tried, then one more. *)
Fixpoint shortest (fuel : nat) (f : f64) (num den k : Z) (n : Z) : Z * Z :=
  match fuel with
  | O => (num / den, 0)
  | S fu =>
      let e := n - 1 - k in
      let '(q, r, d) := scaled_floor num den e in
      let near := if d <? 2 * r then q + 1 else q in
      let far := if d <? 2 * r then q else q + 1 in
      if f64_eqb (f64_of_dec false near (- e)) f then (near, - e)
      else if f64_eqb (f64_of_dec false far (- e)) f then (far, - e)
      else shortest fu f num den k (n + 1)
  end.

Fixpoint strip_zeros (fuel : nat) (d e : Z) : Z * Z :=
  match fuel with
  | O => (d, e)
  | S fu => if d mod 10 =? 0 then strip_zeros fu (d / 10) (e + 1) else (d, e)
  end.

Fixpoint zeros (n : nat) : string :=
  match n with O => "" | S k => String "0" (zeros k) end.

(** [d * 10^e] in [%g] style with Go's thresholds: exponent form below
    [1e-4] and from [1e21]. *)
Definition format_dec (d e : Z) : string :=
  let ds := Itoa d in
  let nd := Z.of_nat (String.length ds) in
  let x := nd + e - 1 in
  if (x <? -4) || (21 <=? x) then
    let ex := Z.abs x in
    stake 1 ds +:+ (if nd =? 1 then "" else "." +:+ sdrop 1 ds) +:+ "e" +:+
    (if x <? 0 then "-" else "+") +:+ (if ex <? 10 then "0" else "") +:+ Itoa ex
  else if 0 <=? e then ds +:+ zeros (Z.to_nat e)
  else if 0 <=? x then
    stake (Z.to_nat (x + 1)) ds +:+ "." +:+ sdrop (Z.to_nat (x + 1)) ds
  else "0." +:+ zeros (Z.to_nat (- x - 1)) +:+ ds.

Definition FormatFloat (f : f64) : string :=
  match f with
  | S754_nan => "NaN"
  | S754_infinity s => if s : bool then "-Inf" else "+Inf"
  | S754_zero s => if s : bool then "-0" else "0"
  | S754_finite s m e =>
      let num := if 0 <=? e then Zpos m * 2 ^ e else Zpos m in
      let den := if 0 <=? e then 1 else 2 ^ (- e) in
      let est := (Z.log2 num - Z.log2 den - 1) * 30103 / 100000 - 1 in
      let k := dec_exponent 5 num den est in
      let '(d, e1) := shortest 17 (S754_finite false m e) num den k 1 in
      let '(d, e1) := strip_zeros 20 d e1 in
      (if s : bool then "-" else "") +:+ format_dec d e1
  end.

Example ParseFloat_ok :
  FormatFloat <$> ParseFloat "0.8" = Some "0.8" /\
  FormatFloat <$> ParseFloat "-12.50" = Some "-12.5" /\
  FormatFloat <$> ParseFloat "1e21" = Some "1e+21" /\
  FormatFloat <$> ParseFloat "100000000000000000000" = Some "100000000000000000000" /\
  FormatFloat <$> ParseFloat "0.00001" = Some "1e-05" /\
  FormatFloat <$> ParseFloat "5e-324" = Some "5e-324" /\
  FormatFloat <$> ParseFloat "1.7976931348623157e308" = Some "1.7976931348623157e+308" /\
  ParseFloat "1e400" = None /\ ParseFloat "1.2.3" = None /\ ParseFloat "" = None.
Proof. by vm_compute. Qed.

Example f64_third : FormatFloat (f64_div (f64_of_Z 2) (f64_of_Z 3)) = "0.6666666666666666".
Proof. reflexivity. Qed.
