(* ===== verification/Entities.v ===== *)
(** * Data model

    The dynamic values the engine passes around ([any]) and the records of
    [pkg/model/pkg/entities] and [pkg/model/pkg/sandbox.go].  A pointer that
    the code tests against [nil] is an [option]; so is a map the code tests
    against [nil]. *)

From S2P Require Export Prelude GoStr GoFloat.

Local Open Scope string_scope.

(** ** Dynamic values *)

(** A Go [any] as JSON, YAML and the executors produce it. *)
#[universes(template=no)]
Inductive any : Type :=
| VNil
| VBool (b : bool)
| VInt (z : Z)
| VFloat (f : f64)
| VStr (s : string)
| VList (l : list any)
| VMap (m : list (string * any)).

Abbreviation gomap := (list (string * any)).
Abbreviation scope_t := (list (string * gomap)).

Section AnyInd.
Variable P : any -> Prop.
Hypothesis Hnil : P VNil.
Hypothesis Hbool : forall b, P (VBool b).
Hypothesis Hint : forall z, P (VInt z).
Hypothesis Hfloat : forall f, P (VFloat f).
Hypothesis Hstr : forall s, P (VStr s).
Hypothesis Hlist : forall l, Forall P l -> P (VList l).
Hypothesis Hmap : forall m, Forall (fun kv => P kv.2) m -> P (VMap m).

Fixpoint any_nested_ind (v : any) : P v :=
  match v with
  | VNil => Hnil
  | VBool b => Hbool b
  | VInt z => Hint z
  | VFloat f => Hfloat f
  | VStr s => Hstr s
  | VList l =>
      Hlist l ((fix go (l : list any) : Forall P l :=
        match l with
        | [] => Forall_nil_2 P
        | x :: l' => Forall_cons_2 P x l' (any_nested_ind x) (go l')
        end) l)
  | VMap m =>
      Hmap m ((fix go (m : gomap) : Forall (fun kv => P kv.2) m :=
        match m with
        | [] => Forall_nil_2 _
        | kv :: m' => Forall_cons_2 _ kv m' (any_nested_ind kv.2) (go m')
        end) m)
  end.
End AnyInd.

(** Sorting the keys of a printed map. *)
Fixpoint insert_key {A} (k : string) (v : A) (m : list (string * A)) : list (string * A) :=
  match m with
  | [] => [(k, v)]
  | (k', v') :: m' =>
      if String.leb k k' then (k, v) :: m else (k', v') :: insert_key k v m'
  end.
Definition sort_keys {A} (m : list (string * A)) : list (string * A) :=
  fold_right (fun kv acc => insert_key kv.1 kv.2 acc) [] m.

(** [fmt.Sprintf("%v", v)] *)
Fixpoint Sprint (v : any) : string :=
  match v with
  | VNil => "<nil>"
  | VBool true => "true"
  | VBool false => "false"
  | VInt z => Itoa z
  | VFloat f => FormatFloat f
  | VStr s => s
  | VList l => "[" +:+ Join (map Sprint l) " " +:+ "]"
  | VMap m =>
      "map[" +:+
      Join (map (fun kv => kv.1 +:+ ":" +:+ kv.2)
                (sort_keys (map (fun kv => (kv.1, Sprint kv.2)) m))) " " +:+ "]"
  end.

(** Type assertions [v.(T)]. *)
Definition as_str (v : any) : option string := match v with VStr s => Some s | _ => None end.
Definition as_bool (v : any) : option bool := match v with VBool b => Some b | _ => None end.
Definition as_list (v : any) : option (list any) := match v with VList l => Some l | _ => None end.
Definition as_map (v : any) : option gomap := match v with VMap m => Some m | _ => None end.

(** [m[k]] on a [map[string]any]: the zero value [nil] when absent. *)
Definition mlookup (k : string) (m : gomap) : any := default VNil (mget k m).

(** ** Node kinds and task types *)

Inductive NodeType :=
| AgentNode | ToolNode | SkillNode | MapNode | AgentFlowNode | ConditionNode
| CommitteeNode | HumanNode | SupervisorNode | SandboxNode | JoinNode | NoopNode
| OtherNode (name : string).

(** The string constants behind [NodeType]; the empty string is the zero value. *)
Definition NodeType_string (t : NodeType) : string :=
  match t with
  | AgentNode => "agent" | ToolNode => "tool" | SkillNode => "skill"
  | MapNode => "map" | AgentFlowNode => "agentflow" | ConditionNode => "condition"
  | CommitteeNode => "committee" | HumanNode => "human"
  | SupervisorNode => "supervisor" | SandboxNode => "sandbox"
  | JoinNode => "join" | NoopNode => "noop" | OtherNode s => s
  end.

Inductive TaskType :=
| TaskAgent | TaskCondition | TaskTool | TaskSkill | TaskSupervisor | TaskSubflow
| TaskCommittee | TaskMap | TaskJoin | TaskHuman | TaskSandbox | TaskNoop.

#[export] Instance TaskType_eq_dec : EqDecision TaskType.
Proof. solve_decision. Defined.
#[export] Instance NodeType_eq_dec : EqDecision NodeType.
Proof. solve_decision. Defined.

Inductive TaskStatus :=
| TaskPending | Running | Success | Failed | WaitingHuman | Skipped | TaskRetrying.

(** The constants of [RunStatus], and any other text the API or the store puts
    there. *)
Inductive RunStatus :=
| RunPending | RunRunning | RunCompleted | RunFailed | RunPaused | RunCancelled
| RunOther (s : string).

#[export] Instance TaskStatus_eq_dec : EqDecision TaskStatus.
Proof. solve_decision. Defined.
#[export] Instance RunStatus_eq_dec : EqDecision RunStatus.
Proof. solve_decision. Defined.

Definition RunStatus_string (s : RunStatus) : string :=
  match s with
  | RunPending => "PENDING" | RunRunning => "RUNNING" | RunCompleted => "COMPLETED"
  | RunFailed => "FAILED" | RunPaused => "PAUSED" | RunCancelled => "CANCELLED"
  | RunOther s => s
  end.
Definition TaskStatus_string (s : TaskStatus) : string :=
  match s with
  | TaskPending => "PENDING" | Running => "RUNNING" | Success => "SUCCESS"
  | Failed => "FAILED" | WaitingHuman => "WAITING_HUMAN" | Skipped => "SKIPPED"
  | TaskRetrying => "RETRYING"
  end.

(** ** Sandbox policies (pkg/model/pkg/sandbox.go) *)

Record SandboxResources := { sr_CPU : string; sr_Memory : string }.

Record NetworkPolicy := {
  np_Mode : string;
  np_Allowed : list string;
  np_Denied : list string;
}.

Record SandboxPolicy := {
  sp_Network : NetworkPolicy;
  sp_AllowedRuntimes : list string;
  sp_BannedCommands : list string;
  sp_DefaultTimeout : string;
  sp_MaxTimeout : string;
  sp_DefaultResources : option SandboxResources;
  sp_MaxResources : option SandboxResources;
}.

Definition EffectiveNetworkPolicy (global flowOverride nodeOverride : option NetworkPolicy)
    : NetworkPolicy :=
  match nodeOverride, flowOverride, global with
  | Some p, _, _ => p
  | None, Some p, _ => p
  | None, None, Some p => p
  | None, None, None => {| np_Mode := "none"; np_Allowed := []; np_Denied := [] |}
  end.

Definition EffectiveTimeout (globalDefault globalMax flowTimeout nodeTimeout : string) : string :=
  if negb (String.eqb nodeTimeout "") then nodeTimeout
  else if negb (String.eqb flowTimeout "") then flowTimeout
  else if negb (String.eqb globalDefault "") then globalDefault
  else "120s".

Definition EffectiveResources (globalDefault globalMax flowRes nodeRes : option SandboxResources)
    : SandboxResources :=
  match nodeRes, flowRes, globalDefault with
  | Some r, _, _ => r
  | None, Some r, _ => r
  | None, None, Some r => r
  | None, None, None => {| sr_CPU := "500m"; sr_Memory := "256Mi" |}
  end.

(** ** Nodes, edges, flows (entities/dag.go, flow.go) *)

(** Durations are nanoseconds; [Factor] is a float64. *)
Record NodeRetryPolicy := {
  nrp_Max : Z;
  nrp_Initial : Z;
  nrp_MaxDelay : Z;
  nrp_Factor : f64;
}.

Record HumanApprovalConfig := {
  hac_Timeout : Z;
  hac_OnApprove : string;
  hac_OnReject : string;
}.

Record SupervisorConfig := {
  sc_MaxRetries : Z;
  sc_MaxNodes : Z;
  sc_MaxInjections : Z;
  sc_AllowedActions : list string;
}.

#[universes(template=no)]
Inductive Node := mkNode {
  n_ID : string;
  n_Kind : NodeType;
  n_Type : NodeType;
  n_Solution : string;
  n_Agent : string;
  n_Skill : string;
  n_Tool : string;
  n_Source : string;
  n_Expression : string;
  n_Instruction : string;
  n_Strategy : option gomap;
  n_Input : option gomap;
  n_Retry : option NodeRetryPolicy;
  n_Node : option Node;
  n_Concurrency : Z;
  n_Approval : option HumanApprovalConfig;
  n_SupervisorConfig : option SupervisorConfig;
  n_AgentFlowID : string;
  n_OutputSchema : option gomap;
  n_Runtime : string;
  n_Script : string;
  n_Timeout : string;
  n_Resources : option SandboxResources;
  n_NetworkPolicy : option NetworkPolicy;
  n_Workspace : string;
  n_Args : option gomap;
}.

Record Edge := { e_From : string; e_To : string; e_Condition : option bool }.

Record TriggerDef := {
  td_Type : string;
  td_Cron : string;
  td_Provider : string;
  td_Events : list string;
}.

Record FlowInfo := {
  f_ID : string;
  f_Namespace : string;
  f_Description : string;
  f_Kind : string;
  f_Vars : gomap;
  f_Nodes : list Node;
  f_Edges : list Edge;
  f_Triggers : list TriggerDef;
  f_Priority : string;
  f_K8sNamespace : string;
}.

(** ** Plans and tasks (entities/task.go) *)

#[universes(template=no)]
Inductive NodeSpec := mkNodeSpec {
  s_ID : string;
  s_Kind : NodeType;
  s_Type : NodeType;
  s_Solution : string;
  s_Agent : string;
  s_Skill : string;
  s_AgentFlowID : string;
  s_Tool : string;
  s_Source : string;
  s_Expression : string;
  s_Instruction : string;
  s_Strategy : option gomap;
  s_Concurrency : Z;
  s_Retry : option NodeRetryPolicy;
  s_Approval : option HumanApprovalConfig;
  s_SupervisorConfig : option SupervisorConfig;
  s_ChildNode : option NodeSpec;
  s_RawInput : option gomap;
  s_Args : option gomap;
  s_OutputSchema : option gomap;
  s_Runtime : string;
  s_Script : string;
  s_ScriptPath : string;
  s_Timeout : string;
  s_Resources : option SandboxResources;
  s_NetworkPolicy : option NetworkPolicy;
  s_Workspace : string;
}.

(** [TaskResult]: [Output] is [nil] or a map; an empty [Error] is success. *)
Record TaskResult := { tr_Output : option gomap; tr_Error : string }.

(** [Input] is [nil] until the plan is scheduled. *)
Record ExecutionPlan := {
  p_PlanID : string;
  p_AgentFlowRunID : string;
  p_AgentFlowDefinitionID : string;
  p_Namespace : string;
  p_TaskID : string;
  p_TaskType : TaskType;
  p_NodeID : string;
  p_State : TaskStatus;
  p_RetryCount : Z;
  p_MaxRetries : Z;
  p_Input : option gomap;
  p_Result : option TaskResult;
  p_NodeSpec : NodeSpec;
  p_CreatedAt : Z;
  p_FinishedAt : option Z;
}.

Record TaskRunInfo := {
  t_ID : string;
  t_AgentFlowRunID : string;
  t_NodeID : string;
  t_Status : TaskStatus;
  t_Input : option gomap;
  t_Output : option gomap;
  t_Error : string;
  t_MaxRetries : Z;
  t_ExecID : string;
  t_FinishedAt : option Z;
}.

Record TriggerInfo := { ti_Type : string; ti_Source : string; ti_Payload : gomap }.

(** A run (entities/flowrun.go). *)
Record FlowRunInfo := {
  r_ID : string;
  r_Namespace : string;
  r_AgentFlowID : string;
  r_Version : Z;
  r_Status : RunStatus;
  r_Vars : gomap;
  r_Error : string;
  r_Trigger : TriggerInfo;
  r_StartedAt : option Z;
  r_FinishedAt : option Z;
  r_K8sNamespace : string;
  r_Priority : string;
}.

(** An agent persona (entities/agent.go). *)
Record AgentInfo := {
  a_Name : string;
  a_Model : string;
  a_Soul : string;
  a_Instruction : string;
  a_OutputSchema : option gomap;
  a_Temperature : option f64;
  a_MaxTokens : Z;
}.

(** A human approval gate (entities/approval.go); times are nanoseconds. *)
Record ApprovalInfo := {
  ap_ID : string;
  ap_TaskRunID : string;
  ap_AgentFlowRunID : string;
  ap_Token : string;
  ap_Status : string;
  ap_Approved : option bool;
  ap_Comment : string;
  ap_Timeout : Z;
  ap_ExpiresAt : option Z;
  ap_ResolvedAt : option Z;
}.

(** The memory of a (flow, node) pair (entities/memory.go). *)
Record MemoryInfo := {
  m_FlowID : string;
  m_NodeID : string;
  m_Content : string;
  m_Metadata : gomap;
}.

(** A knowledge base entry (entities/knowledge.go). *)
Record KnowledgeEntry := {
  k_Title : string;
  k_Content : string;
  k_ContentType : string;
  k_Source : string;
  k_SourceRef : string;
  k_Tags : list string;
  k_Namespace : string;
}.

(** [NodeSpecFromNode]: the plan's copy of a node, its [Kind] defaulting to
    its [Type], with the child node converted as well. *)
Fixpoint NodeSpecFromNode (n : Node) : NodeSpec :=
  {| s_ID := n_ID n;
     s_Kind := match n_Kind n with OtherNode "" => n_Type n | k => k end;
     s_Type := n_Type n;
     s_Solution := n_Solution n;
     s_Agent := n_Agent n;
     s_Skill := n_Skill n;
     s_AgentFlowID := n_AgentFlowID n;
     s_Tool := n_Tool n;
     s_Source := n_Source n;
     s_Expression := n_Expression n;
     s_Instruction := n_Instruction n;
     s_Strategy := n_Strategy n;
     s_Concurrency := n_Concurrency n;
     s_Retry := n_Retry n;
     s_Approval := n_Approval n;
     s_SupervisorConfig := n_SupervisorConfig n;
     s_ChildNode := match n_Node n with Some c => Some (NodeSpecFromNode c) | None => None end;
     s_RawInput := n_Input n;
     s_Args := n_Args n;
     s_OutputSchema := n_OutputSchema n;
     s_Runtime := n_Runtime n;
     s_Script := n_Script n;
     s_ScriptPath := "";
     s_Timeout := n_Timeout n;
     s_Resources := n_Resources n;
     s_NetworkPolicy := n_NetworkPolicy n;
     s_Workspace := n_Workspace n |}.

(** A page of results (entities/base.go): [NewPage]. *)
Definition TotalPages (totalCount size : Z) : Z :=
  let q := Z.quot totalCount size in
  if (Z.rem totalCount size =? 0)%Z then q else (q + 1)%Z.
