(* ===== verification/Json.v ===== *)
(** * encoding/json

    What the executors use of Go's JSON package on dynamic values: the
    compact and the indented text of a value, and reading an object from a
    text.  Texts are bytes; the encoder is given valid UTF-8 without the line
    separators U+2028 and U+2029.  Only the success of reading is modelled:
    the text of a syntax error belongs to the runtime. *)

From S2P Require Export Entities.
From Stdlib Require Import Ascii.

Local Open Scope string_scope.

(** ** Encoding *)

(** [json.Marshal] fails on infinities and NaN. *)
Fixpoint json_ok (v : any) : bool :=
  match v with
  | VFloat f => match f with S754_infinity _ | S754_nan => false | _ => true end
  | VList l => forallb json_ok l
  | VMap m => forallb (fun kv => json_ok kv.2) m
  | _ => true
  end.

Definition hex_digit (n : nat) : string :=
  String (ascii_of_nat (if Nat.ltb n 10 then 48 + n else 87 + n)) "".

Definition escape_byte (c : ascii) : string :=
  let n := nat_of_ascii c in
  if Ascii.eqb c "034" then "\" +:+ dquote
  else if Ascii.eqb c "\" then "\\"
  else if Nat.eqb n 10 then "\n"
  else if Nat.eqb n 13 then "\r"
  else if Nat.eqb n 9 then "\t"
  else if Nat.eqb n 8 then "\b"
  else if Nat.eqb n 12 then "\f"
  else if Nat.ltb n 32 || Ascii.eqb c "<" || Ascii.eqb c ">" || Ascii.eqb c "&" then
    "\u00" +:+ hex_digit (n / 16) +:+ hex_digit (n mod 16)
  else String c "".

Fixpoint escape (s : string) : string :=
  match s with
  | EmptyString => ""
  | String c s' => escape_byte c +:+ escape s'
  end.

Definition json_string (s : string) : string := Quote (escape s).

(** The shortest digits, in exponent form below [1e-6] and from [1e21]. *)
Definition json_float (f : f64) : string :=
  let t := FormatFloat f in
  let small := f64_leb (f64_of_dec false 1 (-6)) f || f64_leb f (f64_of_dec true 1 (-6)) in
  match Index t "e-05", Index t "e-06", Index t "e-0" with
  | Some i, _, _ | None, Some i, _ =>
      if small then
        let digits := TrimPrefix (stake i t) "-" in
        let z := if HasSuffix t "5" then "0.0000" else "0.00000" in
        (if HasPrefix t "-" then "-" else "") +:+ z +:+ ReplaceAll digits "." ""
      else t
  | None, None, Some i => stake (i + 2) t +:+ sdrop (i + 3) t
  | None, None, None => t
  end.

Fixpoint Marshal (v : any) : string :=
  match v with
  | VNil => "null"
  | VBool b => if b then "true" else "false"
  | VInt z => Itoa z
  | VFloat f => json_float f
  | VStr s => json_string s
  | VList l => "[" +:+ Join (map Marshal l) "," +:+ "]"
  | VMap m =>
      "{" +:+ Join (map (fun kv => json_string kv.1 +:+ ":" +:+ kv.2)
                      (sort_keys (map (fun kv => (kv.1, Marshal kv.2)) m))) "," +:+ "}"
  end.

Definition newline : string := String (ascii_of_nat 10) "".

(** [json.MarshalIndent(v, "", "  ")]; [pre] is the indentation so far. *)
Fixpoint MarshalIndent (pre : string) (v : any) : string :=
  let inner := pre +:+ "  " in
  let sep := "," +:+ newline +:+ inner in
  match v with
  | VList (_ :: _ as l) =>
      "[" +:+ newline +:+ inner +:+ Join (map (MarshalIndent inner) l) sep +:+
      newline +:+ pre +:+ "]"
  | VMap (_ :: _ as m) =>
      "{" +:+ newline +:+ inner +:+
      Join (map (fun kv => json_string kv.1 +:+ ": " +:+ kv.2)
              (sort_keys (map (fun kv => (kv.1, MarshalIndent inner kv.2)) m))) sep +:+
      newline +:+ pre +:+ "}"
  | _ => Marshal v
  end.

(** ** Decoding *)

Definition json_space (c : ascii) : bool :=
  Ascii.eqb c " " || Ascii.eqb c "009" || Ascii.eqb c "010" || Ascii.eqb c "013".
Fixpoint skip_ws (s : string) : string :=
  match s with
  | String c s' => if json_space c then skip_ws s' else s
  | EmptyString => s
  end.

Definition hex_val (c : ascii) : option Z :=
  let n := Z.of_nat (nat_of_ascii c) in
  if (48 <=? n)%Z && (n <=? 57)%Z then Some (n - 48)%Z
  else if (97 <=? n)%Z && (n <=? 102)%Z then Some (n - 87)%Z
  else if (65 <=? n)%Z && (n <=? 70)%Z then Some (n - 55)%Z
  else None.
Definition hex4 (a b c d : ascii) : option Z :=
  match hex_val a, hex_val b, hex_val c, hex_val d with
  | Some a, Some b, Some c, Some d => Some (((a * 16 + b) * 16 + c) * 16 + d)%Z
  | _, _, _, _ => None
  end.

(** The UTF-8 bytes of a code point. *)
Definition utf8 (r : Z) : string :=
  let byte z := String (ascii_of_nat (Z.to_nat z)) "" in
  let cont k := byte (128 + Z.land (Z.shiftr r k) 63)%Z in
  if (r <? 128)%Z then byte r
  else if (r <? 2048)%Z then byte (192 + Z.shiftr r 6)%Z +:+ cont 0%Z
  else if (r <? 65536)%Z then byte (224 + Z.shiftr r 12)%Z +:+ cont 6%Z +:+ cont 0%Z
  else byte (240 + Z.shiftr r 18)%Z +:+ cont 12%Z +:+ cont 6%Z +:+ cont 0%Z.

Definition is_high (r : Z) : bool := (55296 <=? r)%Z && (r <? 56320)%Z.
Definition is_low (r : Z) : bool := (56320 <=? r)%Z && (r <? 57344)%Z.

Definition simple_escape (c : ascii) : option string :=
  if Ascii.eqb c "034" then Some dquote
  else if Ascii.eqb c "\" then Some "\"
  else if Ascii.eqb c "/" then Some "/"
  else if Ascii.eqb c "b" then Some (String "008" "")
  else if Ascii.eqb c "f" then Some (String "012" "")
  else if Ascii.eqb c "n" then Some newline
  else if Ascii.eqb c "r" then Some (String "013" "")
  else if Ascii.eqb c "t" then Some (String "009" "")
  else None.

(** The body of a string literal up to its closing quote. *)
Fixpoint parse_string (s : string) : option (string * string) :=
  let cons t r := match r with Some (t', rest) => Some (t +:+ t', rest) | None => None end in
  match s with
  | EmptyString => None
  | String c s1 =>
      if Ascii.eqb c "034" then Some ("", s1)
      else if Nat.ltb (nat_of_ascii c) 32 then None
      else if negb (Ascii.eqb c "\") then cons (String c "") (parse_string s1)
      else match s1 with
        | EmptyString => None
        | String e s2 =>
            if negb (Ascii.eqb e "u") then
              match simple_escape e with
              | Some t => cons t (parse_string s2)
              | None => None
              end
            else match s2 with
              | String a (String b (String d (String h s3))) =>
                  match hex4 a b d h with
                  | None => None
                  | Some r =>
                      let single :=
                        cons (utf8 (if is_high r || is_low r then 65533 else r)%Z)
                          (parse_string s3) in
                      match s3 with
                      | String x (String y (String a' (String b' (String d' (String h' s4))))) =>
                          match hex4 a' b' d' h' with
                          | Some r2 =>
                              if Ascii.eqb x "\" && Ascii.eqb y "u" && is_high r && is_low r2
                              then cons (utf8 ((r - 55296) * 1024 + (r2 - 56320) + 65536)%Z)
                                     (parse_string s4)
                              else single
                          | None => single
                          end
                      | _ => single
                      end
                  end
              | _ => None
              end
        end
  end.

Fixpoint span_digits (s : string) : string * string :=
  match s with
  | String c s' =>
      match digit_val c with
      | Some _ => let (d, r) := span_digits s' in (String c d, r)
      | None => ("", s)
      end
  | EmptyString => ("", s)
  end.

(** A JSON number at the head of [s]: no leading zeros, no bare point. *)
Definition parse_number (s : string) : option (any * string) :=
  let (sign, s1) := match s with
                    | String c s' => if Ascii.eqb c "-" then ("-", s') else ("", s)
                    | EmptyString => ("", s)
                    end in
  let (ip, s2) := span_digits s1 in
  let int_ok := negb (String.eqb ip "") && (String.eqb ip "0" || negb (HasPrefix ip "0")) in
  let '(fp, s3, frac_ok) :=
    match s2 with
    | String c r => if Ascii.eqb c "." then
                      let (d, r') := span_digits r in ("." +:+ d, r', negb (String.eqb d ""))
                    else ("", s2, true)
    | EmptyString => ("", s2, true)
    end in
  let '(ep, s4, exp_ok) :=
    match s3 with
    | String c r =>
        if Ascii.eqb (lower_ascii c) "e" then
          let (sg, r1) := match r with
                          | String x r' => if Ascii.eqb x "-" || Ascii.eqb x "+"
                                           then (String x "", r') else ("", r)
                          | EmptyString => ("", r)
                          end in
          let (d, r2) := span_digits r1 in ("e" +:+ sg +:+ d, r2, negb (String.eqb d ""))
        else ("", s3, true)
    | EmptyString => ("", s3, true)
    end in
  if int_ok && frac_ok && exp_ok then
    match ParseFloat (sign +:+ ip +:+ fp +:+ ep) with
    | Some f => Some (VFloat f, s4)
    | None => None
    end
  else None.

(** A value at the head of [s]; numbers are float64, the last of equal keys
    wins. *)
Fixpoint parse_value (fuel : nat) (s0 : string) : option (any * string) :=
  match fuel with
  | O => None
  | S fuel =>
      let s := skip_ws s0 in
      match s with
      | EmptyString => None
      | String c s1 =>
          if Ascii.eqb c "034" then
            match parse_string s1 with Some (t, r) => Some (VStr t, r) | None => None end
          else if Ascii.eqb c "{" then
            (fix members (n : nat) (first : bool) (m : gomap) (s : string) :=
               match n with
               | O => None
               | S n =>
                   match skip_ws s with
                   | EmptyString => None
                   | String c r =>
                       if Ascii.eqb c "}" && first then Some (VMap m, r)
                       else if negb (Ascii.eqb c "034") then None
                       else match parse_string r with
                         | None => None
                         | Some (k, r1) =>
                             match CutPrefix (skip_ws r1) ":" with
                             | None => None
                             | Some r2 =>
                                 match parse_value fuel r2 with
                                 | None => None
                                 | Some (v, r3) =>
                                     match skip_ws r3 with
                                     | EmptyString => None
                                     | String d r4 =>
                                         if Ascii.eqb d "}" then Some (VMap (mset k v m), r4)
                                         else if Ascii.eqb d "," then
                                           members n false (mset k v m) r4
                                         else None
                                     end
                                 end
                             end
                         end
                   end
               end) fuel true [] s1
          else if Ascii.eqb c "[" then
            match CutPrefix (skip_ws s1) "]" with
            | Some r => Some (VList [], r)
            | None =>
                (fix elems (n : nat) (l : list any) (s : string) :=
                   match n with
                   | O => None
                   | S n =>
                       match parse_value fuel s with
                       | None => None
                       | Some (v, r) =>
                           match skip_ws r with
                           | EmptyString => None
                           | String d r' =>
                               if Ascii.eqb d "]" then Some (VList (l ++ [v])%list, r')
                               else if Ascii.eqb d "," then elems n (l ++ [v])%list r'
                               else None
                           end
                       end
                   end) fuel [] s1
            end
          else match CutPrefix s "null", CutPrefix s "true", CutPrefix s "false" with
            | Some r, _, _ => Some (VNil, r)
            | None, Some r, _ => Some (VBool true, r)
            | None, None, Some r => Some (VBool false, r)
            | None, None, None => parse_number s
            end
      end
  end.

(** [json.Unmarshal([]byte(s), &v)] with [v] an [any]. *)
Definition Unmarshal (s : string) : option any :=
  match parse_value (S (String.length s)) s with
  | Some (v, r) => if String.eqb (skip_ws r) "" then Some v else None
  | None => None
  end.

(** ... and with [v] a [map[string]any]: [null] leaves the map [nil]
    ([Some None]); other values that are no objects are an error. *)
Definition UnmarshalObject (s : string) : option (option gomap) :=
  match Unmarshal s with
  | Some (VMap m) => Some (Some m)
  | Some VNil => Some None
  | _ => None
  end.

Example Marshal_ex :
  Marshal (VMap [("b", VList [VInt 1; VNil; VBool true]); ("a", VStr "x<y")])
  = "{" +:+ dquote +:+ "a" +:+ dquote +:+ ":" +:+ dquote +:+ "x\u003cy" +:+ dquote +:+ "," +:+
    dquote +:+ "b" +:+ dquote +:+ ":[1,null,true]}".
Proof. reflexivity. Qed.

Example json_float_ex :
  map (fun s => json_float <$> ParseFloat s) ["1e-5"; "1.25e-6"; "-1e-7"; "0.5"; "1e21"; "1e-10"]
  = [Some "0.00001"; Some "0.00000125"; Some "-1e-7"; Some "0.5"; Some "1e+21"; Some "1e-10"].
Proof. vm_compute. reflexivity. Qed.

Example Unmarshal_ex :
  Unmarshal (" [1, {" +:+ dquote +:+ "k\u00e9" +:+ dquote +:+ " : -2.5e1}, [], null]") =
  Some (VList [VFloat (f64_of_Z 1);
               VMap [("k" +:+ utf8 233, VFloat (f64_of_Z (-25)))]; VList []; VNil]) /\
  map (fun s => is_ok (match Unmarshal s with Some _ => Ok tt | None => Err "" end))
    ["{"; "01"; "1."; "[1,]"; "{}"; "tru"; "nullx"; "0.0"] =
  [false; false; false; false; true; false; false; true].
Proof. vm_compute. split; reflexivity. Qed.

(** ** Decoding into a field of a struct

    The new value, and whether the JSON value fits; a null leaves the field. *)

Definition dec_string (v : any) (old : string) : string * bool :=
  match v with VStr s => (s, true) | VNil => (old, true) | _ => (old, false) end.
Definition dec_bool (v : any) (old : bool) : bool * bool :=
  match v with VBool b => (b, true) | VNil => (old, true) | _ => (old, false) end.
Definition dec_int (v : any) (old : Z) : Z * bool :=
  match v with
  | VInt z => (z, true)
  | VFloat f => match Atoi (json_float f) with Some z => (z, true) | None => (old, false) end
  | VNil => (old, true)
  | _ => (old, false)
  end.

(** Each element of a list is decoded from the zero value [z]. *)
Definition dec_list {T} (z : T) (dec : any -> T -> T * bool) (v : any) (old : list T) : list T * bool :=
  match v with
  | VList l => let r := map (fun x => dec x z) l in (map fst r, forallb snd r)
  | VNil => ([], true)
  | _ => (old, false)
  end.

(** A field: its name, what is written for it ([None] when [omitempty] leaves
    it out), and how a value is put into it. *)
Record json_field (T : Type) := {
  jf_name : string; jf_get : T -> option any; jf_set : any -> T -> T * bool;
}.
Arguments jf_name {T}. Arguments jf_get {T}. Arguments jf_set {T}.

Section Struct.
Context {T : Type} (fields : list (json_field T)).

(** A struct is written in the order of its fields. *)
Definition struct_enc (x : T) : any :=
  VMap (omap (fun f => match jf_get f x with Some v => Some (jf_name f, v) | None => None end) fields).

(** Names match in any case; unknown ones are ignored; a value that does not
    fit leaves its field, and the others are still read. *)
Definition struct_put (acc : T * bool) (kv : string * any) : T * bool :=
  match List.find (fun f => EqualFold kv.1 (jf_name f)) fields with
  | Some f => let (x, ok) := jf_set f kv.2 acc.1 in (x, acc.2 && ok)
  | None => acc
  end.
Definition struct_dec (v : any) (x : T) : T * bool :=
  match v with
  | VNil => (x, true)
  | VMap m => fold_left struct_put m (x, true)
  | _ => (x, false)
  end.

(** When no two names are the same in lower case, what was written for [x] is
    read field by field. *)
Definition put_field (x : T) (acc : T * bool) (f : json_field T) : T * bool :=
  match jf_get f x with
  | Some v => let (y, ok) := jf_set f v acc.1 in (y, acc.2 && ok)
  | None => acc
  end.

Lemma find_field f : NoDup (map (fun f => ToLower (jf_name f)) fields) -> f ∈ fields ->
  List.find (fun g => EqualFold (jf_name f) (jf_name g)) fields = Some f.
Proof.
  induction fields as [|g l IH]; cbn; [by intros _ ?%not_elem_of_nil|]. intros [Hn Hnd]%NoDup_cons Hf.
  unfold EqualFold at 1. destruct (String.eqb_spec (ToLower (jf_name f)) (ToLower (jf_name g))) as [E|E];
    apply elem_of_cons in Hf as [->|Hf]; [done| |done|by apply IH].
  exfalso. apply Hn. rewrite <- E. apply list_elem_of_fmap. by exists f.
Qed.

Lemma struct_dec_enc (x z : T) : NoDup (map (fun f => ToLower (jf_name f)) fields) ->
  struct_dec (struct_enc x) z = fold_left (put_field x) fields (z, true).
Proof.
  intros Hnd. unfold struct_dec, struct_enc. generalize (z, true) as acc.
  assert (Hsub : forall f, f ∈ fields -> f ∈ fields) by done. revert Hsub. generalize fields at 1 3 4 as l.
  induction l as [|f l IH]; intros Hsub acc; [done|]. cbn [omap list_omap fold_left].
  assert (Hl : forall g, g ∈ l -> g ∈ fields) by (intros g Hg; apply Hsub; by constructor).
  unfold put_field at 2. destruct (jf_get f x) as [v|]; [|by apply IH].
  cbn [fold_left]. rewrite <- IH by done. f_equal. unfold struct_put. cbn [fst snd].
  by rewrite find_field by (done || apply Hsub; constructor).
Qed.
End Struct.

Lemma dec_list_enc {T} (z : T) dec (enc : T -> any) (l old : list T) :
  (forall x, dec (enc x) z = (x, true)) -> dec_list z dec (VList (map enc l)) old = (l, true).
Proof.
  intros H. unfold dec_list. rewrite map_map. f_equal.
  - rewrite map_map. induction l as [|x l IH]; [done|]. cbn. by rewrite H, IH.
  - induction l as [|x l IH]; [done|]. cbn. by rewrite H, IH.
Qed.
