(* ===== verification/Eval.v ===== *)
(** * Expressions

    [pkg/common/pkg/utils/eval.go]: the [${node.field}] references of flow
    definitions ([Resolve]) and the conditions of condition nodes
    ([EvalCondition]). *)

From S2P Require Export Entities.
From Stdlib Require Import Ascii.

Local Open Scope string_scope.

(** ** References *)

(** The text that replaces a match of the regular expression
    [\$\{([^}]+)\}]; [path] is its group. *)
Definition resolve_match (scope : scope_t) (path : string) : string :=
  let m := "${" +:+ path +:+ "}" in
  match SplitN2 path "." with
  | [p0] =>
      match mget p0 scope with
      | Some node => Sprint (VMap node)
      | None => m
      end
  | p0 :: field :: _ =>
      match mget p0 scope with
      | Some node =>
          match mget field node with
          | Some val => Sprint val
          | None => m
          end
      | None => m
      end
  | [] => m
  end.

(** The path of a match starting at the head of [s]: [${], at least one
    byte other than the closing brace, and that brace. *)
Definition match_ref (s : string) : option string :=
  match CutPrefix s "${" with
  | Some r =>
      match IndexByte r "}" with
      | Some (S _ as j) => Some (stake j r)
      | _ => None
      end
  | None => None
  end.

(** [re.ReplaceAllStringFunc]: leftmost matches, not overlapping; [skip]
    counts the bytes of the current match still to be passed over. *)
Fixpoint replace_refs (scope : scope_t) (s : string) (skip : nat) : string :=
  match s with
  | EmptyString => EmptyString
  | String c s' =>
      match skip with
      | S k => replace_refs scope s' k
      | O =>
          match match_ref s with
          | Some path =>
              resolve_match scope path +:+ replace_refs scope s' (String.length path + 2)
          | None => String c (replace_refs scope s' 0)
          end
      end
  end.

Definition Resolve (v : any) (scope : scope_t) : any :=
  match v with
  | VStr s => if Contains s "${" then VStr (replace_refs scope s 0) else v
  | _ => v
  end.

(** ** Conditions *)

(** The operator at the head of a comparison, tried in the code's order,
    and the right-hand side after it. *)
Fixpoint cut_operator (ops : list string) (rest : string) : option (string * string) :=
  match ops with
  | [] => None
  | o :: ops' =>
      match CutPrefix rest (o +:+ " ") with
      | Some after => Some (o, after)
      | None =>
          match CutPrefix rest o with
          | Some after => Some (o, after)
          | None => cut_operator ops' rest
          end
      end
  end.

Definition operators : list string := [">="; "<="; "!="; "=="; ">"; "<"].

Definition compare_floats (op : string) (l r : f64) : option bool :=
  if String.eqb op ">" then Some (f64_ltb r l)
  else if String.eqb op "<" then Some (f64_ltb l r)
  else if String.eqb op ">=" then Some (f64_leb r l)
  else if String.eqb op "<=" then Some (f64_leb l r)
  else if String.eqb op "==" then Some (f64_eqb l r)
  else if String.eqb op "!=" then Some (negb (f64_eqb l r))
  else None.

Definition compare_texts (op lhs rhs : string) : bool :=
  if String.eqb op "==" then String.eqb lhs rhs
  else if String.eqb op "!=" then negb (String.eqb lhs rhs)
  else false.

Definition compare_values (op lhs rhs : string) : bool :=
  match ParseFloat lhs, ParseFloat rhs with
  | Some l, Some r =>
      match compare_floats op l r with
      | Some b => b
      | None => compare_texts op lhs rhs
      end
  | _, _ => compare_texts op lhs rhs
  end.

(** [${node.field == value}]: the comparison inside the braces. *)
Definition eval_inner (inner : string) (scope : scope_t) : bool :=
  match Index inner " == " with
  | Some (S _ as i) =>
      let path := TrimSpace (stake i inner) in
      let rhs := TrimSpace (sdrop (i + 4) inner) in
      String.eqb (Sprint (Resolve (VStr ("${" +:+ path +:+ "}")) scope)) rhs
  | _ =>
      match Index inner " != " with
      | Some (S _ as i) =>
          let path := TrimSpace (stake i inner) in
          let rhs := TrimSpace (sdrop (i + 4) inner) in
          negb (String.eqb (Sprint (Resolve (VStr ("${" +:+ path +:+ "}")) scope)) rhs)
      | _ => false
      end
  end.

(** [${node.field} OP value]: the comparison after the closing brace at
    [endBrace]. *)
Definition eval_outer (expr : string) (endBrace : nat) (scope : scope_t) : bool :=
  let pathExpr := stake (endBrace + 1) expr in
  let rest := TrimSpace (sdrop (endBrace + 1) expr) in
  let lhs := Sprint (Resolve (VStr pathExpr) scope) in
  match cut_operator operators rest with
  | None => false
  | Some (op, rhs) => compare_values op lhs rhs
  end.

Definition eval_simple (expr : string) (scope : scope_t) : bool :=
  if HasPrefix expr "${" && HasSuffix expr "}" then
    match Resolve (VStr expr) scope with
    | VBool b => b
    | VStr s => String.eqb s "true"
    | _ => false
    end
  else EqualFold expr "true".

Definition EvalCondition (expr0 : string) (scope : scope_t) : bool :=
  let expr := TrimSpace expr0 in
  if String.eqb expr "" then false
  else if String.eqb expr "true" then true
  else if String.eqb expr "false" then false
  else if HasPrefix expr "${" && HasSuffix expr "}" && Contains expr " " then
    eval_inner (sdrop 2 (stake (String.length expr - 1) expr)) scope
  else if HasPrefix expr "${" && Contains expr " " then
    match Index expr "}" with
    | Some (S _ as e) => eval_outer expr e scope
    | _ => eval_simple expr scope
    end
  else eval_simple expr scope.

(** ** Specification: templates

    A template is a text of literals without a dollar sign and of
    references. *)

Inductive segment :=
| Lit (s : string)
| Ref (path : string).

Definition render (g : segment) : string :=
  match g with
  | Lit s => s
  | Ref p => "${" +:+ p +:+ "}"
  end.
Definition render_all (gs : list segment) : string := Join (map render gs) "".

Definition seg_ok (g : segment) : bool :=
  match g with
  | Lit s => no_char "$" s
  | Ref p => no_char "}" p && negb (String.eqb p "")
  end.

Definition expand (scope : scope_t) (g : segment) : string :=
  match g with
  | Lit s => s
  | Ref p => resolve_match scope p
  end.

(** ** Lemmas *)

Lemma render_all_cons g gs : render_all (g :: gs) = render g +:+ render_all gs.
Proof. destruct gs; simpl; [by rewrite append_nil_r|done]. Qed.

Lemma match_ref_render p t :
  no_char "}" p = true -> p <> "" -> match_ref ("${" +:+ p +:+ "}" +:+ t) = Some p.
Proof.
  intros Hp Hne. unfold match_ref, CutPrefix.
  change ("${" +:+ p +:+ "}" +:+ t) with ("${" +:+ (p +:+ String "}" t)).
  rewrite HasPrefix_append.
  change (String.length "${") with 2. change (sdrop 2 ("${" +:+ (p +:+ String "}" t)))
    with (p +:+ String "}" t).
  rewrite IndexByte_append by done.
  destruct p as [|c p]; [done|].
  change (String.length (String c p)) with (S (String.length p)).
  cbv iota beta. f_equal.
  change (S (String.length p)) with (String.length (String c p)). apply stake_append.
Qed.

Lemma match_ref_nodollar c s : c <> "$"%char -> match_ref (String c s) = None.
Proof.
  intros Hc. unfold match_ref, CutPrefix. cbn [HasPrefix].
  by rewrite Ascii.eqb_sym, (proj2 (Ascii.eqb_neq c "$")).
Qed.

Lemma replace_refs_skip scope u t n :
  String.length u = n -> replace_refs scope (u +:+ t) n = replace_refs scope t 0.
Proof.
  revert n. induction u as [|c u IH]; simpl; intros n <-; [by destruct t|].
  by apply IH.
Qed.

Lemma replace_refs_lit scope s t :
  no_char "$" s = true -> replace_refs scope (s +:+ t) 0 = s +:+ replace_refs scope t 0.
Proof.
  induction s as [|c s IH]; intros H; [by destruct t|].
  simpl in H. apply andb_true_iff in H as [Hc H].
  apply negb_true_iff, Ascii.eqb_neq in Hc.
  change (String c s +:+ t) with (String c (s +:+ t)).
  cbn [replace_refs]. rewrite match_ref_nodollar by done. by rewrite IH.
Qed.

Lemma replace_refs_ref scope p t :
  no_char "}" p = true -> p <> "" ->
  replace_refs scope ("${" +:+ p +:+ "}" +:+ t) 0 =
  resolve_match scope p +:+ replace_refs scope t 0.
Proof.
  intros Hp Hne.
  pose proof (match_ref_render p t Hp Hne) as Hm.
  assert ("${" +:+ p +:+ "}" +:+ t = String "$" (("{" +:+ p +:+ "}") +:+ t)) as E
    by (simpl; by rewrite append_assoc).
  rewrite E in *. cbn [replace_refs]. rewrite Hm. f_equal.
  apply replace_refs_skip. simpl. rewrite length_append. simpl. lia.
Qed.

(** The reference syntax is resolved segment by segment. *)
Lemma replace_refs_template scope gs :
  forallb seg_ok gs = true ->
  replace_refs scope (render_all gs) 0 = Join (map (expand scope) gs) "".
Proof.
  induction gs as [|g gs IH]; intros H; [done|].
  simpl in H. apply andb_true_iff in H as [Hg H]. specialize (IH H).
  rewrite render_all_cons.
  assert (Join (map (expand scope) (g :: gs)) "" =
          expand scope g +:+ Join (map (expand scope) gs) "") as ->.
  { destruct gs; simpl; [by rewrite append_nil_r|done]. }
  rewrite <- IH. destruct g as [s|p]; simpl in Hg |- *.
  - by apply replace_refs_lit.
  - apply andb_true_iff in Hg as [Hp Hne]. apply negb_true_iff, String.eqb_neq in Hne.
    rewrite <- replace_refs_ref by done. by rewrite !append_assoc.
Qed.

Lemma replace_refs_nodollar scope s :
  Contains s "${" = false -> replace_refs scope s 0 = s.
Proof.
  unfold Contains. induction s as [|c s IH]; intros H; [done|].
  cbn [Index] in H. destruct (HasPrefix (String c s) "${") eqn:Hp; [done|].
  cbn [replace_refs]. unfold match_ref, CutPrefix. rewrite Hp, IH; [done|].
  by destruct (Index s "${").
Qed.

Lemma Resolve_str s scope : Resolve (VStr s) scope = VStr (replace_refs scope s 0).
Proof.
  simpl. destruct (Contains s "${") eqn:E; [done|]. by rewrite replace_refs_nodollar.
Qed.

Lemma Resolve_path scope path :
  no_char "}" path = true -> path <> "" ->
  Resolve (VStr ("${" +:+ path +:+ "}")) scope = VStr (resolve_match scope path).
Proof.
  intros Hp Hne. rewrite Resolve_str.
  rewrite <- (append_nil_r "}"), replace_refs_ref by done. simpl. by rewrite append_nil_r.
Qed.

Definition path_ok (path : string) : bool :=
  no_char "}" path && no_char " " path && negb (String.eqb path "") && trimmed path.

Lemma path_ok_spec path :
  path_ok path = true ->
  no_char "}" path = true /\ no_char " " path = true /\ path <> "" /\ trimmed path = true.
Proof.
  unfold path_ok. intros [[[H1 H2]%andb_true_iff H3]%andb_true_iff H4]%andb_true_iff.
  apply negb_true_iff, String.eqb_neq in H3. done.
Qed.

(** An expression that starts with a reference is none of the literals. *)
Lemma EvalCondition_ref r scope :
  let expr := String "$" r in
  TrimSpace expr = expr ->
  EvalCondition expr scope =
  (if HasPrefix expr "${" && HasSuffix expr "}" && Contains expr " " then
    eval_inner (sdrop 2 (stake (String.length expr - 1) expr)) scope
  else if HasPrefix expr "${" && Contains expr " " then
    match Index expr "}" with
    | Some (S _ as e) => eval_outer expr e scope
    | _ => eval_simple expr scope
    end
  else eval_simple expr scope).
Proof. intros expr E. unfold EvalCondition. by rewrite !E. Qed.

(** ** Properties *)



(** A condition [${path == value}] holds exactly when the printed value
    of the path is the text of the right-hand side. *)
Theorem EvalCondition_inner path v scope :
  path_ok path = true -> trimmed v = true ->
  EvalCondition ("${" +:+ path +:+ " == " +:+ v +:+ "}") scope =
  String.eqb (resolve_match scope path) v.
Proof.
  intros (Hb & Hs & Hne & Ht)%path_ok_spec Hv.
  set (A := "{" +:+ path +:+ " == " +:+ v).
  assert ("${" +:+ path +:+ " == " +:+ v +:+ "}" = String "$" A +:+ "}") as E.
  { unfold A. simpl. by rewrite !append_assoc. }
  assert (TrimSpace (String "$" (A +:+ "}")) = String "$" (A +:+ "}")) as ET
    by (by apply TrimSpace_id).
  rewrite E. change (String "$" A +:+ "}") with (String "$" (A +:+ "}")).
  rewrite EvalCondition_ref by done. cbv zeta.
  change (String "$" (A +:+ "}")) with (String "$" A +:+ "}").
  rewrite HasSuffix_append.
  assert (HasPrefix (String "$" A +:+ "}") "${" = true) as -> by done.
  assert (Contains (String "$" A +:+ "}") " " = true) as ->.
  { rewrite <- E. change (" == " +:+ v +:+ "}") with (" " +:+ ("== " +:+ v +:+ "}")).
    rewrite <- append_assoc. apply Contains_append. }
  cbn [andb].
  replace (String.length (String "$" A +:+ "}") - 1) with (String.length (String "$" A))
    by (rewrite length_append; simpl; lia).
  rewrite stake_append. change (sdrop 2 (String "$" A)) with (path +:+ " == " +:+ v).
  unfold eval_inner.
  change (path +:+ " == " +:+ v) with (path +:+ String " " "== " +:+ v).
  rewrite Index_skip by done.
  destruct (String.length path) as [|n] eqn:El; [by destruct path|].
  rewrite <- El, stake_append.
  replace (String.length path + 4) with (String.length (path +:+ " == "))
    by (by rewrite length_append).
  replace (path +:+ " == " +:+ v) with ((path +:+ " == ") +:+ v) by apply append_assoc.
  rewrite sdrop_append, !trimmed_TrimSpace by done.
  by rewrite Resolve_path.
Qed.

Example EvalCondition_inner_witness :
  EvalCondition "${committee.decision == true}" [("committee", [("decision", VBool true)])]
  = true.
Proof.
  exact (EvalCondition_inner "committee.decision" "true"
           [("committee", [("decision", VBool true)])] eq_refl eq_refl).
Defined.

Lemma cut_operator_ok op v :
  op ∈ operators -> cut_operator operators (op +:+ " " +:+ v) = Some (op, v).
Proof.
  unfold operators. intros H.
  repeat (apply elem_of_cons in H as [->|H]; [reflexivity|]). set_solver.
Qed.

Lemma operator_head op : op ∈ operators -> exists c o, op = String c o /\ is_space c = false.
Proof.
  unfold operators. intros H.
  repeat (apply elem_of_cons in H as [->|H]; [by do 2 eexists|]). set_solver.
Qed.

(** A condition [${path} OP value] compares the printed value of the
    path with the right-hand side: as floats when both are numbers, as texts
    otherwise, for each of the six operators. *)
Theorem EvalCondition_outer path op v scope :
  path_ok path = true -> op ∈ operators ->
  trimmed v = true -> v <> "" -> HasSuffix v "}" = false ->
  EvalCondition ("${" +:+ path +:+ "} " +:+ op +:+ " " +:+ v) scope =
  compare_values op (resolve_match scope path) v.
Proof.
  intros (Hb & Hs & Hne & Ht)%path_ok_spec Hop Hv Hvne Hsuf.
  pose proof (proj2 (proj1 (andb_true_iff _ _) Hv)) as Hr. apply String.eqb_eq in Hr.
  set (A := "{" +:+ path +:+ "} " +:+ op +:+ " ").
  assert ("${" +:+ path +:+ "} " +:+ op +:+ " " +:+ v = String "$" A +:+ v) as E.
  { unfold A. change ("${" +:+ path) with ("$" +:+ "{" +:+ path).
    change (String "$" ?x +:+ ?y) with ("$" +:+ (x +:+ y)).
    by rewrite !append_assoc. }
  assert (TrimSpace (String "$" (A +:+ v)) = String "$" (A +:+ v)) as ET
    by exact (TrimSpace_id "$" A v eq_refl Hr Hvne).
  rewrite E. change (String "$" A +:+ v) with (String "$" (A +:+ v)).
  rewrite EvalCondition_ref by done. cbv zeta.
  change (String "$" (A +:+ v)) with (String "$" A +:+ v).
  assert (HasSuffix (String "$" A +:+ v) "}" = false) as ->.
  { apply not_true_is_false. intros Hx%HasSuffix_last; congruence. }
  assert (HasPrefix (String "$" A +:+ v) "${" = true) as -> by done.
  rewrite <- E.
  assert (Contains ("${" +:+ path +:+ "} " +:+ op +:+ " " +:+ v) " " = true) as ->.
  { change ("} " +:+ op +:+ " " +:+ v) with ("}" +:+ (" " +:+ (op +:+ " " +:+ v))).
    rewrite <- !append_assoc, append_assoc. apply Contains_append. }
  cbn [andb].
  assert ("${" +:+ path +:+ "} " +:+ op +:+ " " +:+ v =
          ("${" +:+ path) +:+ String "}" "" +:+ (" " +:+ op +:+ " " +:+ v)) as E2
    by (by rewrite append_assoc).
  rewrite E2, Index_skip by (by rewrite no_char_append, Hb).
  rewrite length_append. change (String.length "${") with 2.
  change (2 + String.length path) with (S (S (String.length path))). cbv iota.
  unfold eval_outer.
  replace (S (S (String.length path)) + 1) with (String.length (("${" +:+ path) +:+ "}"))
    by (rewrite !length_append; simpl; lia).
  replace (("${" +:+ path) +:+ "}" +:+ " " +:+ op +:+ " " +:+ v)
    with ((("${" +:+ path) +:+ "}") +:+ (" " +:+ op +:+ " " +:+ v)) by apply append_assoc.
  rewrite stake_append, sdrop_append.
  assert (TrimSpace (" " +:+ op +:+ " " +:+ v) = op +:+ " " +:+ v) as ->.
  { destruct (operator_head op Hop) as (c & o & -> & Hc).
    change (TrimSpace (String " " (String c o +:+ " " +:+ v)) = String c o +:+ " " +:+ v).
    unfold TrimSpace. cbn [TrimLeft].
    change (is_space " ") with true. cbv iota.
    change (TrimSpace (String c o +:+ " " +:+ v) = String c o +:+ " " +:+ v).
    rewrite <- append_assoc. change (String c o +:+ " ") with (String c (o +:+ " ")).
    by apply TrimSpace_id. }
  rewrite cut_operator_ok by done.
  by rewrite append_assoc, Resolve_path.
Qed.

Example EvalCondition_outer_witness :
  EvalCondition "${A.score} > 0.8" [("A", [("score", VFloat (f64_of_dec false 85 (-2)))])]
  = true.
Proof.
  refine (EvalCondition_outer "A.score" ">" "0.8"
            [("A", [("score", VFloat (f64_of_dec false 85 (-2)))])] _ _ _ _ _).
  - reflexivity.
  - unfold operators. set_solver.
  - reflexivity.
  - discriminate.
  - reflexivity.
Defined.
