(* ===== verification/Schema.v ===== *)
(** * JSON Schema validation

    [pkg/common/pkg/utils/schema.go]: the validation of an executor's input
    and output, and its specification [conforms], which does not depend on
    the order in which the runtime ranges over ["properties"]. *)

From S2P Require Export Entities.

Local Open Scope string_scope.

(** [fmt.Sprintf("%T", v)] *)
Definition TypeName (v : any) : string :=
  match v with
  | VNil => "<nil>"
  | VBool _ => "bool"
  | VInt _ => "int"
  | VFloat _ => "float64"
  | VStr _ => "string"
  | VList _ => "[]interface {}"
  | VMap _ => "map[string]interface {}"
  end.

Definition ok_or (b : bool) (msg : string) : res unit := if b then Ok tt else Err msg.

Definition checkType (expected : string) (value : any) (path : string) : res unit :=
  match value with
  | VNil =>
      ok_or (String.eqb expected "null") (path +:+ ": expected " +:+ expected +:+ ", got null")
  | _ =>
      let got := path +:+ ": expected " +:+ expected +:+ ", got " +:+ TypeName value in
      if String.eqb expected "object" then
        ok_or (match value with VMap _ => true | _ => false end) got
      else if String.eqb expected "array" then
        ok_or (match value with VList _ => true | _ => false end) got
      else if String.eqb expected "string" then
        ok_or (match value with VStr _ => true | _ => false end) got
      else if String.eqb expected "number" then
        ok_or (match value with VFloat _ | VInt _ => true | _ => false end) got
      else if String.eqb expected "boolean" then
        ok_or (match value with VBool _ => true | _ => false end) got
      else if String.eqb expected "integer" then
        match value with
        | VInt _ => Ok tt
        | VFloat f =>
            ok_or (f64_eqb f (f64_of_Z (f64_to_i64 f)))
                  (path +:+ ": expected integer, got float")
        | _ => Err got
        end
      else Ok tt
  end.

(** The loop over ["required"]: entries that are no strings are skipped. *)
Fixpoint check_required (required : list any) (m : gomap) (path : string) : res unit :=
  match required with
  | [] => Ok tt
  | VStr key :: rs =>
      if mhas key m then check_required rs m path
      else Err (path +:+ "." +:+ key +:+ ": required field missing")
  | _ :: rs => check_required rs m path
  end.

(** [if x, ok := schema[k].(...); ok { ... }] with a recursive call in the
    continuation. *)
Section WithField.
Context {A B : Type} (f : A -> B) (d : B).
Fixpoint with_field (k : string) (m : list (string * A)) : B :=
  match m with
  | [] => d
  | (k', v) :: m' => if String.eqb k k' then f v else with_field k m'
  end.
End WithField.

Lemma with_field_mget {A B} (f : A -> B) d k m :
  with_field f d k m = match mget k m with Some v => f v | None => d end.
Proof. induction m as [|[k' v] m IH]; simpl; [done|]. by destruct (String.eqb k k'). Qed.

(** [for i, x := range l { if err := f(i, x); err != nil { return err } }] *)
Section EachErr.
Context {A : Type} (f : nat -> A -> res unit).
Fixpoint each_err (i : nat) (l : list A) : res unit :=
  match l with
  | [] => Ok tt
  | x :: l' => let? _ := f i x in each_err (S i) l'
  end.
End EachErr.

Lemma each_err_ok {A} (f : nat -> A -> res unit) l : forall i,
  is_ok (each_err f i l) = true <-> forall j x, l !! j = Some x -> is_ok (f (i + j) x) = true.
Proof.
  induction l as [|x l IH]; intros i; simpl; [by split|].
  destruct (f i x) as [[]|e] eqn:E; simpl; [rewrite IH; split|split; [done|]].
  - intros H [|j] y Hj; simpl in Hj; [injection Hj as <-; by rewrite Nat.add_0_r, E|].
    rewrite Nat.add_succ_r. apply (H j y Hj).
  - intros H j y Hj. rewrite Nat.add_succ_l, <- Nat.add_succ_r. by apply (H (S j)).
  - intros H. specialize (H 0 x eq_refl). rewrite Nat.add_0_r, E in H. done.
Qed.

(** [validateNode], with [validateObject] and [validateArray] in place: the
    three recurse through one another.  A schema that is no map does not
    reach it: the code asserts the type first. *)
Fixpoint validateNode (schema value : any) (path : string) : res unit :=
  match schema with
  | VMap fields =>
      let required (m : gomap) :=
        match mlookup "required" fields with
        | VList rs => check_required rs m path
        | _ => Ok tt
        end in
      let validateObject :=
        match value with
        | VMap m =>
            let? _ :=
              with_field
                (fun v =>
                   match v with
                   | VMap props =>
                       each_err
                         (fun _ kv =>
                            let '(key, raw) := kv in
                            match raw with
                            | VMap _ =>
                                match mget key m with
                                | Some child => validateNode raw child (path +:+ "." +:+ key)
                                | None => Ok tt
                                end
                            | _ => Ok tt
                            end) 0 props
                   | _ => Ok tt
                   end) (Ok tt) "properties" fields in
            required m
        | _ => Err (path +:+ ": expected object")
        end in
      let validateArray :=
        match value with
        | VList arr =>
            with_field
              (fun itemSchema =>
                 match itemSchema with
                 | VMap _ =>
                     each_err
                       (fun i item =>
                          validateNode itemSchema item (path +:+ "[" +:+ Itoa (Z.of_nat i) +:+ "]"))
                       0 arr
                 | _ => Ok tt
                 end) (Ok tt) "items" fields
        | _ => Err (path +:+ ": expected array")
        end in
      let? _ := (match mlookup "type" fields with
                 | VStr t => checkType t value path
                 | _ => Ok tt
                 end) in
      match mlookup "type" fields with
      | VStr "object" => validateObject
      | VStr "array" => validateArray
      | _ =>
          match mlookup "required" fields with
          | VList _ =>
              match value with
              | VMap m => required m
              | _ => Err (path +:+ ": expected object for required check")
              end
          | _ => Ok tt
          end
      end
  | _ => Ok tt
  end.

Definition ValidateJSONSchema (schema : option gomap) (value : any) : res unit :=
  match schema with
  | None => Ok tt
  | Some s => validateNode (VMap s) value "$"
  end.

(** ** Specification *)

(** The JSON type named [t] has [v]; other names constrain nothing but
    [null]. *)
Definition has_type (t : string) (v : any) : Prop :=
  match v with
  | VNil => t = "null"
  | VBool _ => t ∉ ["object"; "array"; "string"; "number"; "integer"]
  | VInt _ => t ∉ ["object"; "array"; "string"; "boolean"]
  | VFloat f =>
      (t ∉ ["object"; "array"; "string"; "boolean"]) /\
      (t = "integer" -> f64_eqb f (f64_of_Z (f64_to_i64 f)) = true)
  | VStr _ => t ∉ ["object"; "array"; "number"; "integer"; "boolean"]
  | VList _ => t ∉ ["object"; "string"; "number"; "integer"; "boolean"]
  | VMap _ => t ∉ ["array"; "string"; "number"; "integer"; "boolean"]
  end.

Definition has_required (fields m : gomap) : Prop :=
  forall rs key, mlookup "required" fields = VList rs -> VStr key ∈ rs -> is_Some (mget key m).

Inductive conforms : gomap -> any -> Prop :=
| conforms_object fields m :
    mlookup "type" fields = VStr "object" ->
    (forall props key s child,
        mlookup "properties" fields = VMap props -> (key, VMap s) ∈ props ->
        mget key m = Some child -> conforms s child) ->
    has_required fields m ->
    conforms fields (VMap m)
| conforms_array fields l :
    mlookup "type" fields = VStr "array" ->
    (forall s x, mlookup "items" fields = VMap s -> x ∈ l -> conforms s x) ->
    conforms fields (VList l)
| conforms_plain fields v :
    mlookup "type" fields <> VStr "object" -> mlookup "type" fields <> VStr "array" ->
    (forall t, mlookup "type" fields = VStr t -> has_type t v) ->
    (forall rs, mlookup "required" fields = VList rs ->
       exists m, v = VMap m /\ has_required fields m) ->
    conforms fields v.

(** ** Lemmas *)

Lemma ok_or_ok b msg : is_ok (ok_or b msg) = true <-> b = true.
Proof. by destruct b. Qed.

Lemma notin_cons (t x : string) l : t ∉ x :: l <-> t <> x /\ t ∉ l.
Proof. by rewrite not_elem_of_cons. Qed.

Lemma notin_nil (t : string) : t ∉ [] <-> True.
Proof. split; [done|]. intros _. apply not_elem_of_nil. Qed.

Lemma checkType_ok t v p : is_ok (checkType t v p) = true <-> has_type t v.
Proof.
  destruct v; simpl; rewrite ?ok_or_ok; [by rewrite String.eqb_eq|..];
    rewrite ?notin_cons, ?notin_nil;
    repeat (match goal with |- context [String.eqb t ?x] => destruct (String.eqb_spec t x) as [->|] end);
    rewrite ?ok_or_ok; simpl;
    (split; intros H; simpl in *; intuition (try congruence)).
Qed.

Lemma check_required_ok rs m p :
  is_ok (check_required rs m p) = true <-> forall key, VStr key ∈ rs -> is_Some (mget key m).
Proof.
  induction rs as [|r rs IH]; simpl.
  - split; [|done]. intros _ key H. by apply elem_of_nil in H.
  - assert (forall k, VStr k ∈ r :: rs <-> VStr k = r \/ VStr k ∈ rs) as Hc
      by (intros; apply elem_of_cons).
    destruct r as [| | | |key| |]; simpl; try (rewrite IH; setoid_rewrite Hc; naive_solver).
    unfold mhas. destruct (mget key m) as [v|] eqn:E.
    + rewrite IH. setoid_rewrite Hc. naive_solver.
    + split; [done|]. intros H. destruct (H key ltac:(by left)). congruence.
Qed.

Lemma each_err_forall {A} (f : nat -> A -> res unit) (P : A -> Prop) l :
  (forall i x, x ∈ l -> is_ok (f i x) = true <-> P x) ->
  is_ok (each_err f 0 l) = true <-> forall x, x ∈ l -> P x.
Proof.
  intros Hf. rewrite each_err_ok. split.
  - intros H x Hx. apply list_elem_of_lookup in Hx as Hx'. destruct Hx' as [j Hj].
    apply (Hf (0 + j)); [done|]. by apply H.
  - intros H j x Hj. apply list_elem_of_lookup_2 in Hj as Hx. apply Hf; [done|]. by apply H.
Qed.

Lemma bind_ok (r : res unit) (k : unit -> res unit) :
  is_ok (res_bind r k) = true <-> is_ok r = true /\ is_ok (k tt) = true.
Proof. destruct r as [[]|]; simpl; [tauto|]. split; [done|]. by intros [? _]. Qed.

(** What [validateNode] owes for one schema, at every value and path. *)
Definition schema_sound (schema : any) : Prop :=
  forall fields v p, schema = VMap fields ->
    is_ok (validateNode schema v p) = true <-> conforms fields v.

Section Step.
Context (fields : gomap).
Hypothesis Hitems : forall k sub, (k, sub) ∈ fields -> schema_sound sub.
Hypothesis Hprops : forall k props key raw,
  (k, VMap props) ∈ fields -> (key, raw) ∈ props -> schema_sound raw.

Lemma validate_required v p :
  is_ok (match mlookup "required" fields with
         | VList _ => match v with
                       | VMap m =>
                           match mlookup "required" fields with
                           | VList rs => check_required rs m p
                           | _ => Ok tt
                           end
                       | _ => Err (p +:+ ": expected object for required check")
                       end
         | _ => Ok tt
         end) = true <->
  (forall rs, mlookup "required" fields = VList rs ->
     exists m, v = VMap m /\ has_required fields m).
Proof.
  unfold has_required. destruct (mlookup "required" fields) as [| | | | |rs|]; try done.
  destruct v as [| | | | | |m]; try (split; [done|]; intros H; by destruct (H rs eq_refl) as (? & ? & _)).
  rewrite check_required_ok. split.
  - intros H rs' [= <-]. exists m. split; [done|]. by intros rs' key [= <-]; apply H.
  - intros H key. destruct (H rs eq_refl) as (m' & [= <-] & Hr). by apply Hr.
Qed.

Lemma mlookup_VMap_elem k (m s : gomap) : mlookup k m = VMap s -> (k, VMap s) ∈ m.
Proof. unfold mlookup. destruct (mget k m) eqn:E; simpl; [|done]. intros ->. by apply mget_Some_elem. Qed.

Lemma validate_properties m p :
  is_ok (with_field
    (fun v => match v with
              | VMap props =>
                  each_err (fun _ kv =>
                    let '(key, raw) := kv in
                    match raw with
                    | VMap _ => match mget key m with
                                | Some child => validateNode raw child (p +:+ "." +:+ key)
                                | None => Ok tt
                                end
                    | _ => Ok tt
                    end) 0 props
              | _ => Ok tt
              end) (Ok tt) "properties" fields) = true <->
  (forall props key s child,
     mlookup "properties" fields = VMap props -> (key, VMap s) ∈ props ->
     mget key m = Some child -> conforms s child).
Proof.
  rewrite with_field_mget. unfold mlookup at 1.
  destruct (mget "properties" fields) as [v|] eqn:E; simpl; [|by split].
  destruct v as [| | | | | |props]; try by split.
  apply mget_Some_elem in E.
  rewrite (each_err_forall _ (fun kv => forall s child,
             kv.2 = VMap s -> mget kv.1 m = Some child -> conforms s child)).
  - split.
    + intros H props' key s child [= <-] Hin Hm. by apply (H (key, VMap s) Hin s child).
    + intros H [key raw] Hin s child Hr Hm. simpl in *. subst raw.
      by apply (H props key s child eq_refl Hin).
  - intros _ [key raw] Hin. simpl. specialize (Hprops _ _ _ _ E Hin).
    destruct raw as [| | | | | |s]; try by split.
    destruct (mget key m) as [child|]; [|by split].
    rewrite (Hprops s) by done. naive_solver.
Qed.

Lemma validate_items (l : list any) p :
  is_ok (with_field
    (fun sch => match sch with
                | VMap _ => each_err (fun i item =>
                     validateNode sch item (p +:+ "[" +:+ Itoa (Z.of_nat i) +:+ "]")) 0 l
                | _ => Ok tt
                end) (Ok tt) "items" fields) = true <->
  (forall s x, mlookup "items" fields = VMap s -> x ∈ l -> conforms s x).
Proof.
  rewrite with_field_mget. unfold mlookup.
  destruct (mget "items" fields) as [v|] eqn:E; simpl; [|by split].
  destruct v as [| | | | | |s]; try by split.
  apply mget_Some_elem in E. specialize (Hitems _ _ E).
  rewrite (each_err_forall _ (fun x => conforms s x)); [naive_solver|].
  intros i x Hx. by apply Hitems.
Qed.

(** The two types the validation treats apart, by comparisons. *)
Lemma type_cases {A} (v : any) (o a d : A) :
  match v with VStr "object" => o | VStr "array" => a | _ => d end =
  match v with
  | VStr t => if String.eqb t "object" then o else if String.eqb t "array" then a else d
  | _ => d
  end.
Proof.
  destruct v as [|b|z|f|t|l|m]; try reflexivity.
  destruct (String.eqb_spec t "object") as [->|Ho]; [done|].
  destruct (String.eqb_spec t "array") as [->|Ha]; [done|].
  repeat (case_match; try reflexivity); subst; done.
Qed.

Lemma conforms_inv v :
  conforms fields v <->
  match mlookup "type" fields with
  | VStr "object" =>
      exists m, v = VMap m /\
        (forall props key s child,
           mlookup "properties" fields = VMap props -> (key, VMap s) ∈ props ->
           mget key m = Some child -> conforms s child) /\ has_required fields m
  | VStr "array" =>
      exists l, v = VList l /\
        (forall s x, mlookup "items" fields = VMap s -> x ∈ l -> conforms s x)
  | _ =>
      (forall t, mlookup "type" fields = VStr t -> has_type t v) /\
      (forall rs, mlookup "required" fields = VList rs ->
         exists m, v = VMap m /\ has_required fields m)
  end.
Proof.
  rewrite type_cases. split.
  - intros H. inversion H as [? m Ht Hp Hr|? l Ht Hi|? ? Hn1 Hn2 Ht Hr]; subst.
    + rewrite Ht. cbn. eauto.
    + rewrite Ht. cbn. eauto.
    + destruct (mlookup "type" fields) as [| | | |t| |]; try done.
      destruct (String.eqb_spec t "object") as [->|]; [done|]. by destruct (String.eqb_spec t "array") as [->|].
  - destruct (mlookup "type" fields) as [| | | |t| |] eqn:Et;
      try (intros [Ht Hr]; apply conforms_plain; rewrite ?Et; try done; congruence).
    destruct (String.eqb_spec t "object") as [->|No]; [intros (m & -> & Hp & Hr); by apply conforms_object|].
    destruct (String.eqb_spec t "array") as [->|Na]; [intros (l & -> & Hi); by apply conforms_array|].
    intros [Ht Hr]. apply conforms_plain; rewrite ?Et; try done; congruence.
Qed.
End Step.

Lemma has_required_check fields m p :
  is_ok (match mlookup "required" fields with
         | VList rs => check_required rs m p
         | _ => Ok tt
         end) = true <-> has_required fields m.
Proof.
  unfold has_required. destruct (mlookup "required" fields) as [| | | | |rs|]; try by split.
  rewrite check_required_ok. naive_solver.
Qed.

Lemma any_is_str v s : v = VStr s \/ v <> VStr s.
Proof.
  destruct v as [| | | |s'| |]; try (by right).
  destruct (String.eqb_spec s' s); [left|right]; congruence.
Qed.

Lemma type_switch {A} t (a b c : A) :
  t <> VStr "object" -> t <> VStr "array" ->
  match t with VStr "object" => a | VStr "array" => b | _ => c end = c.
Proof. intros H1 H2. destruct t; try done. repeat case_match; subst; congruence. Qed.

Lemma schema_sound_step fields :
  (forall k sub, (k, sub) ∈ fields -> schema_sound sub) ->
  (forall k props key raw, (k, VMap props) ∈ fields -> (key, raw) ∈ props -> schema_sound raw) ->
  schema_sound (VMap fields).
Proof.
  intros Hi Hp fs v p [= <-]. rewrite conforms_inv. cbn [validateNode].
  rewrite bind_ok.
  assert (is_ok (match mlookup "type" fields with VStr t => checkType t v p | _ => Ok tt end) = true
          <-> (forall t, mlookup "type" fields = VStr t -> has_type t v)) as ->.
  { destruct (mlookup "type" fields); try by split. rewrite checkType_ok. naive_solver. }
  destruct (any_is_str (mlookup "type" fields) "object") as [Et|Et]; [rewrite !Et|].
  - destruct v as [| | | | | |m]; try (split; [by intros [_ ?]|by intros (? & ? & _)]).
    rewrite bind_ok, (validate_properties _ Hp m p), has_required_check.
    split; [naive_solver|]. intros (m' & [= <-] & H). split; [|done].
    intros t [= <-]. simpl. set_solver.
  - destruct (any_is_str (mlookup "type" fields) "array") as [Ea|Ea]; [rewrite !Ea|].
    + destruct v as [| | | | |l|]; try (split; [by intros [_ ?]|by intros (? & ? & _)]).
      rewrite (validate_items _ Hi l p). split; [naive_solver|].
      intros (l' & [= <-] & H). split; [|done]. intros t [= <-]. simpl. set_solver.
    + rewrite !type_switch by done. by rewrite (validate_required fields v p).
Qed.

(** Induction on a schema: a property of the sub-schemas of its fields and
    of its properties carries over to it. *)
Lemma schema_ind (Q : any -> Prop) :
  (forall v, as_map v = None -> Q v) ->
  (forall fields,
     (forall k sub, (k, sub) ∈ fields -> Q sub) ->
     (forall k props key raw, (k, VMap props) ∈ fields -> (key, raw) ∈ props -> Q raw) ->
     Q (VMap fields)) ->
  forall schema, Q schema.
Proof.
  intros Hn Hs schema.
  enough (Q schema /\ forall m, schema = VMap m -> forall kv, kv ∈ m -> Q kv.2) by tauto.
  induction schema as [| | | | | |m IH] using any_nested_ind; try (by split; [apply Hn|]).
  rewrite Forall_forall in IH. split.
  - apply Hs.
    + intros k sub Hin. apply (IH (k, sub) Hin).
    + intros k props key raw Hin Hraw.
      by apply (proj2 (IH (k, VMap props) Hin) props eq_refl (key, raw)).
  - intros m' [= <-] kv Hin. apply (IH kv Hin).
Qed.

Lemma schema_sound_all schema : schema_sound schema.
Proof.
  induction schema as [v Hv|fields Hi Hp] using schema_ind; [|by apply schema_sound_step].
  intros fields v' p ->. done.
Qed.

Lemma ValidateJSONSchema_conforms fields v :
  is_ok (ValidateJSONSchema (Some fields) v) = true <-> conforms fields v.
Proof. exact (schema_sound_all (VMap fields) fields v "$" eq_refl). Qed.

Lemma checkType_prefix t v p e : checkType t v p = Err e -> HasPrefix e p = true.
Proof.
  unfold checkType, ok_or. intros H.
  repeat (case_match; try discriminate; simplify_eq); apply HasPrefix_append.
Qed.

Lemma check_required_prefix rs m p e : check_required rs m p = Err e -> HasPrefix e p = true.
Proof.
  induction rs as [|[] rs IH]; simpl; intros H; try done; try by apply IH.
  case_match; [by apply IH|]. simplify_eq. apply HasPrefix_append.
Qed.

Lemma each_err_Err {A} (f : nat -> A -> res unit) l e : forall i,
  each_err f i l = Err e -> exists j x, x ∈ l /\ f j x = Err e.
Proof.
  induction l as [|x l IH]; intros i; simpl; [done|].
  destruct (f i x) as [[]|e'] eqn:E; simpl; intros H.
  - destruct (IH _ H) as (j & y & Hy & Hf). exists j, y. split; [by right|done].
  - simplify_eq. exists i, x. split; [by left|done].
Qed.

Lemma HasPrefix_weaken e p q : HasPrefix e (p +:+ q) = true -> HasPrefix e p = true.
Proof.
  intros [u ->]%HasPrefix_inv. rewrite append_assoc. apply HasPrefix_append.
Qed.

Lemma bind_Err (r : res unit) (k : unit -> res unit) e :
  res_bind r k = Err e -> r = Err e \/ k tt = Err e.
Proof. destruct r as [[]|]; simpl; [by right|by left]. Qed.

Lemma validateNode_prefix schema : forall v p e,
  validateNode schema v p = Err e -> HasPrefix e p = true.
Proof.
  induction schema as [s Hs|fields Hi Hp] using schema_ind; intros v p e H; [by destruct s|].
  cbn [validateNode] in H. apply bind_Err in H as [H|H].
  { case_match; try done. by eapply checkType_prefix. }
  assert (forall m, match mlookup "required" fields with
           | VList rs => check_required rs m p | _ => Ok tt end = Err e ->
           HasPrefix e p = true) as Hr.
  { intros m Hm. case_match; try done. by eapply check_required_prefix. }
  destruct (any_is_str (mlookup "type" fields) "object") as [Et|Et]; [rewrite Et in H|].
  - destruct v as [| | | | | |m]; try (injection H as <-; apply HasPrefix_append).
    apply bind_Err in H as [H|H]; [|by eapply Hr].
    clear Hr. rewrite with_field_mget in H.
    destruct (mget "properties" fields) as [[| | | | | |props]|] eqn:Eg; try done.
    apply mget_Some_elem in Eg.
    apply each_err_Err in H as (j & [key raw] & Hin & Hf).
    do 2 (case_match; try done; subst).
    eapply HasPrefix_weaken, Hp; eauto.
  - destruct (any_is_str (mlookup "type" fields) "array") as [Ea|Ea]; [rewrite Ea in H|].
    + destruct v as [| | | | |l|]; try (injection H as <-; apply HasPrefix_append).
      rewrite with_field_mget in H.
      destruct (mget "items" fields) as [[| | | | | |items]|] eqn:Eg; try done.
      apply mget_Some_elem in Eg.
      apply each_err_Err in H as (j & x & Hin & Hf). eapply HasPrefix_weaken, Hi; eauto.
    + rewrite type_switch in H by done.
      destruct (mlookup "required" fields) eqn:Er; try done.
      destruct v; try (injection H as <-; apply HasPrefix_append). by eapply Hr.
Qed.

(** ** Properties *)

