(* ===== verification/JobMaster.v ===== *)
(** * The per-run DAG orchestrator

    [pkg/core/pkg/engine/jobmanager/jobmaster.go]: the graph state of a run,
    the construction of its execution plans, the scheduling loop [Execute]
    and the input resolution.  The run store, the resource manager and the
    context are the interface [JobMasterEnv] over a world [W]: every theorem
    holds for every implementation of it. *)

From S2P Require Export Eval Json.

Local Open Scope string_scope.

(** ** Interface *)

(** [RunStateStore], [ResourceManager.Schedule], the context and the clock.
    [Schedule] returns a result or an error, never two [nil]s. *)
Class JobMasterEnv (W : Type) := {
  env_ctx_err : W -> option string * W;
  env_now : W -> Z * W;
  env_update_run : FlowRunInfo -> W -> option string * W;
  env_save_task : TaskRunInfo -> W -> option string * W;
  env_schedule : ExecutionPlan -> W -> res TaskResult * W;
}.

(** ** State *)

(** A [map[string]bool] that only ever receives [true] is a set. *)
Record JobMaster := {
  jm_timeout : Z;
  jm_nodeLimit : Z;
  jm_maxNodes : Z;
  jm_knowledgeWriter : bool;
  jm_nodes : list string;
  jm_edges : list (string * string);
  jm_edgeConditions : gmap string (option bool);
  jm_deps : gmap string (list string);
  jm_children : gmap string (list string);
  jm_completed : gset string;
  jm_skipped : gset string;
  jm_failed : gset string;
  jm_nodeErrors : gmap string string;
  jm_pending : gset string;
  jm_conditions : gmap string bool;
  jm_planMap : gmap string ExecutionPlan;
  jm_nodeOutputs : gmap string gomap;
  jm_resolvedVars : gomap;
}.

Record JobManagerConfig := {
  FlowExecutionTimeout : Z;
  MaxNodeRetries : Z;
  MaxConcurrentFlows : Z;
}.

Definition second : Z := 1000000000.
Definition minute : Z := 60 * second.

Definition NewJobMaster (cfg : JobManagerConfig) : JobMaster :=
  {| jm_timeout := if (FlowExecutionTimeout cfg =? 0)%Z then 30 * minute
                   else FlowExecutionTimeout cfg;
     jm_nodeLimit := MaxNodeRetries cfg; jm_maxNodes := 0; jm_knowledgeWriter := false;
     jm_nodes := []; jm_edges := []; jm_edgeConditions := ∅; jm_deps := ∅;
     jm_children := ∅; jm_completed := ∅; jm_skipped := ∅; jm_failed := ∅;
     jm_nodeErrors := ∅; jm_pending := ∅; jm_conditions := ∅; jm_planMap := ∅;
     jm_nodeOutputs := ∅; jm_resolvedVars := [] |}.

Definition SetKnowledgeWriter (jm : JobMaster) : JobMaster :=
  {| jm_timeout := jm_timeout jm; jm_nodeLimit := jm_nodeLimit jm;
     jm_maxNodes := jm_maxNodes jm; jm_knowledgeWriter := true;
     jm_nodes := jm_nodes jm; jm_edges := jm_edges jm;
     jm_edgeConditions := jm_edgeConditions jm; jm_deps := jm_deps jm;
     jm_children := jm_children jm; jm_completed := jm_completed jm;
     jm_skipped := jm_skipped jm; jm_failed := jm_failed jm;
     jm_nodeErrors := jm_nodeErrors jm; jm_pending := jm_pending jm;
     jm_conditions := jm_conditions jm; jm_planMap := jm_planMap jm;
     jm_nodeOutputs := jm_nodeOutputs jm; jm_resolvedVars := jm_resolvedVars jm |}.

(** The updates of the run-time maps of a job master (its graph, limits and
    variables stay): completed, skipped, failed, node errors, pending,
    conditions, plans and outputs. *)
Definition with_state (jm : JobMaster) (completed skipped failed : gset string)
    (nodeErrors : gmap string string) (pending : gset string) (conditions : gmap string bool)
    (planMap : gmap string ExecutionPlan) (nodeOutputs : gmap string gomap) : JobMaster :=
  {| jm_timeout := jm_timeout jm; jm_nodeLimit := jm_nodeLimit jm;
     jm_maxNodes := jm_maxNodes jm; jm_knowledgeWriter := jm_knowledgeWriter jm;
     jm_nodes := jm_nodes jm; jm_edges := jm_edges jm;
     jm_edgeConditions := jm_edgeConditions jm; jm_deps := jm_deps jm;
     jm_children := jm_children jm; jm_completed := completed;
     jm_skipped := skipped; jm_failed := failed;
     jm_nodeErrors := nodeErrors; jm_pending := pending;
     jm_conditions := conditions; jm_planMap := planMap;
     jm_nodeOutputs := nodeOutputs; jm_resolvedVars := jm_resolvedVars jm |}.

Definition Done (n : string) (jm : JobMaster) : JobMaster :=
  with_state jm ({[n]} ∪ jm_completed jm) (jm_skipped jm) (jm_failed jm) (jm_nodeErrors jm)
    (jm_pending jm ∖ {[n]}) (jm_conditions jm) (jm_planMap jm) (jm_nodeOutputs jm).

Definition Skip (n : string) (jm : JobMaster) : JobMaster :=
  with_state jm (jm_completed jm) ({[n]} ∪ jm_skipped jm) (jm_failed jm) (jm_nodeErrors jm)
    (jm_pending jm ∖ {[n]}) (jm_conditions jm) (jm_planMap jm) (jm_nodeOutputs jm).

Definition Fail (n : string) (jm : JobMaster) : JobMaster :=
  with_state jm (jm_completed jm) (jm_skipped jm) ({[n]} ∪ jm_failed jm) (jm_nodeErrors jm)
    (jm_pending jm ∖ {[n]}) (jm_conditions jm) (jm_planMap jm) (jm_nodeOutputs jm).

Definition SetConditionResult (n : string) (r : bool) (jm : JobMaster) : JobMaster :=
  with_state jm (jm_completed jm) (jm_skipped jm) (jm_failed jm) (jm_nodeErrors jm)
    (jm_pending jm) (<[n := r]> (jm_conditions jm)) (jm_planMap jm) (jm_nodeOutputs jm).

(** [jm.nodeErrors[n] = e], [jm.nodeOutputs[n] = out] and the update of a plan. *)
Definition set_error (n e : string) (jm : JobMaster) : JobMaster :=
  with_state jm (jm_completed jm) (jm_skipped jm) (jm_failed jm) (<[n := e]> (jm_nodeErrors jm))
    (jm_pending jm) (jm_conditions jm) (jm_planMap jm) (jm_nodeOutputs jm).
Definition set_output (n : string) (out : gomap) (jm : JobMaster) : JobMaster :=
  with_state jm (jm_completed jm) (jm_skipped jm) (jm_failed jm) (jm_nodeErrors jm)
    (jm_pending jm) (jm_conditions jm) (jm_planMap jm) (<[n := out]> (jm_nodeOutputs jm)).
Definition set_plan (n : string) (p : ExecutionPlan) (jm : JobMaster) : JobMaster :=
  with_state jm (jm_completed jm) (jm_skipped jm) (jm_failed jm) (jm_nodeErrors jm)
    (jm_pending jm) (jm_conditions jm) (<[n := p]> (jm_planMap jm)) (jm_nodeOutputs jm).

(** ** Graph queries *)

Definition edge_key (from to : string) : string := from +:+ "->" +:+ to.

(** [m[k]] on a map of slices: the zero value is the empty slice. *)
Definition slice_at (m : gmap string (list string)) (k : string) : list string :=
  default [] (m !! k).

Definition GetChildCondition (jm : JobMaster) (from to : string) : option bool :=
  default None (jm_edgeConditions jm !! edge_key from to).

Definition Children (jm : JobMaster) (n : string) : list string := slice_at (jm_children jm) n.
Definition Deps (jm : JobMaster) (n : string) : list string := slice_at (jm_deps jm) n.

Definition in_set (n : string) (s : gset string) : bool := bool_decide (n ∈ s).

(** The loop of [depsDone] over the dependencies of [n]. *)
Fixpoint deps_loop (jm : JobMaster) (n : string) (ds : list string) (anySatisfied : bool) : bool :=
  match ds with
  | [] => anySatisfied
  | d :: ds' =>
      if in_set d (jm_skipped jm) || in_set d (jm_completed jm) then deps_loop jm n ds' true
      else match GetChildCondition jm d n with
           | Some _ => deps_loop jm n ds' anySatisfied
           | None => false
           end
  end.

Definition depsDone (jm : JobMaster) (n : string) : bool :=
  let ds := Deps jm n in
  deps_loop jm n ds (match ds with [] => true | _ => false end).

(** [depsDoneLocked]: the same test, for callers that hold the mutex. *)
Definition depsDoneLocked (jm : JobMaster) (n : string) : bool :=
  let ds := Deps jm n in
  deps_loop jm n ds (match ds with [] => true | _ => false end).

Definition settled (jm : JobMaster) (n : string) : bool :=
  in_set n (jm_completed jm) || in_set n (jm_skipped jm) || in_set n (jm_failed jm).

Definition Ready (jm : JobMaster) : list string :=
  List.filter (fun n => negb (settled jm n) && depsDone jm n) (jm_nodes jm).

Definition IsComplete (jm : JobMaster) : bool := forallb (settled jm) (jm_nodes jm).
Definition HasFailed (jm : JobMaster) : bool :=
  existsb (fun n => in_set n (jm_failed jm)) (jm_nodes jm).

Definition ConditionResult (jm : JobMaster) (n : string) : option bool := jm_conditions jm !! n.

(** [dumpGraphState]: the text of the debug log. *)
Definition dumpGraphState (jm : JobMaster) : string :=
  let pending := List.filter (fun n => negb (settled jm n)) (jm_nodes jm) in
  let notReady := List.filter (fun n => negb (depsDoneLocked jm n)) pending in
  let part n :=
    let missing := List.filter (fun d => negb (in_set d (jm_skipped jm))
                                         && negb (in_set d (jm_completed jm))) (Deps jm n) in
    n +:+ "(wait:[" +:+ Join missing " " +:+ "])" in
  "pending=" +:+ Itoa (Z.of_nat (length pending)) +:+ " not_ready=" +:+
  Join (map part notReady) " ".

(** ** Building the graph *)

Definition init_slices (nodes : list string) (m : gmap string (list string))
    : gmap string (list string) :=
  fold_left (fun m n => <[n := []]> m) nodes m.

(** [m[k] = append(m[k], x)] over the edges. *)
Definition append_at (k x : string) (m : gmap string (list string)) : gmap string (list string) :=
  <[k := (slice_at m k ++ [x])%list]> m.

Definition graph_deps (nodes : list string) (edges : list (string * string)) :=
  fold_left (fun m e => append_at e.2 e.1 m) edges (init_slices nodes ∅).
Definition graph_children (nodes : list string) (edges : list (string * string)) :=
  fold_left (fun m e => append_at e.1 e.2 m) edges (init_slices nodes ∅).

Definition BuildGraphNodes (nodes : list string) (rawEdges : list (string * string))
    (jm : JobMaster) : JobMaster :=
  {| jm_timeout := jm_timeout jm; jm_nodeLimit := jm_nodeLimit jm;
     jm_maxNodes := jm_maxNodes jm; jm_knowledgeWriter := jm_knowledgeWriter jm;
     jm_nodes := nodes; jm_edges := rawEdges; jm_edgeConditions := jm_edgeConditions jm;
     jm_deps := graph_deps nodes rawEdges; jm_children := graph_children nodes rawEdges;
     jm_completed := ∅; jm_skipped := ∅; jm_failed := ∅; jm_nodeErrors := ∅;
     jm_pending := list_to_set nodes; jm_conditions := ∅; jm_planMap := ∅;
     jm_nodeOutputs := ∅; jm_resolvedVars := jm_resolvedVars jm |}.

Definition SetEdgeConditions (ecs : list Edge) (jm : JobMaster) : JobMaster :=
  {| jm_timeout := jm_timeout jm; jm_nodeLimit := jm_nodeLimit jm;
     jm_maxNodes := jm_maxNodes jm; jm_knowledgeWriter := jm_knowledgeWriter jm;
     jm_nodes := jm_nodes jm; jm_edges := jm_edges jm;
     jm_edgeConditions :=
       fold_left (fun m e => <[edge_key (e_From e) (e_To e) := e_Condition e]> m)
         ecs (jm_edgeConditions jm);
     jm_deps := jm_deps jm; jm_children := jm_children jm;
     jm_completed := jm_completed jm; jm_skipped := jm_skipped jm; jm_failed := jm_failed jm;
     jm_nodeErrors := jm_nodeErrors jm; jm_pending := jm_pending jm;
     jm_conditions := jm_conditions jm; jm_planMap := jm_planMap jm;
     jm_nodeOutputs := jm_nodeOutputs jm; jm_resolvedVars := jm_resolvedVars jm |}.

(** [Inject]: a node added while the run is under way. *)
Definition Inject (n : string) (d : list string) (jm : JobMaster) : JobMaster :=
  {| jm_timeout := jm_timeout jm; jm_nodeLimit := jm_nodeLimit jm;
     jm_maxNodes := jm_maxNodes jm; jm_knowledgeWriter := jm_knowledgeWriter jm;
     jm_nodes := (jm_nodes jm ++ [n])%list; jm_edges := jm_edges jm;
     jm_edgeConditions := jm_edgeConditions jm;
     jm_deps := <[n := d]> (jm_deps jm); jm_children := <[n := []]> (jm_children jm);
     jm_completed := jm_completed jm; jm_skipped := jm_skipped jm; jm_failed := jm_failed jm;
     jm_nodeErrors := jm_nodeErrors jm; jm_pending := {[n]} ∪ jm_pending jm;
     jm_conditions := jm_conditions jm; jm_planMap := jm_planMap jm;
     jm_nodeOutputs := jm_nodeOutputs jm; jm_resolvedVars := jm_resolvedVars jm |}.

Definition NodeToTaskType (nt : NodeType) : TaskType :=
  match nt with
  | AgentNode => TaskAgent
  | ToolNode => TaskTool
  | ConditionNode => TaskCondition
  | CommitteeNode => TaskCommittee
  | SupervisorNode => TaskSupervisor
  | MapNode => TaskMap
  | HumanNode => TaskHuman
  | AgentFlowNode => TaskSubflow
  | SandboxNode => TaskSandbox
  | SkillNode => TaskSkill
  | JoinNode => TaskJoin
  | _ => TaskNoop
  end.

Definition RetryMax (r : option NodeRetryPolicy) : Z :=
  match r with None => 3 | Some r => nrp_Max r end.

Definition new_plan (spec : FlowInfo) (runID : string) (now : Z) (n : Node) : ExecutionPlan :=
  {| p_PlanID := "plan-" +:+ runID +:+ "-" +:+ n_ID n;
     p_AgentFlowRunID := runID;
     p_AgentFlowDefinitionID := f_ID spec;
     p_Namespace := f_Namespace spec;
     p_TaskID := "task-" +:+ runID +:+ "-" +:+ n_ID n;
     p_TaskType := NodeToTaskType (n_Kind n);
     p_NodeID := n_ID n;
     p_State := TaskPending;
     p_RetryCount := 0;
     p_MaxRetries := RetryMax (n_Retry n);
     p_Input := None;
     p_Result := None;
     p_NodeSpec := NodeSpecFromNode n;
     p_CreatedAt := now;
     p_FinishedAt := None |}.

(** [time.Now] is read once here; the code reads it once per plan. *)
Definition buildExecutionGraph (spec : FlowInfo) (runID : string) (now : Z) (jm : JobMaster)
    : JobMaster :=
  let nodeIDs := map n_ID (f_Nodes spec) in
  let edges := map (fun e => (e_From e, e_To e)) (f_Edges spec) in
  let jm1 := SetEdgeConditions (f_Edges spec) (BuildGraphNodes nodeIDs edges jm) in
  with_state jm1 ∅ ∅ ∅ ∅ (jm_pending jm1) ∅
    (fold_left (fun m n => <[n_ID n := new_plan spec runID now n]> m) (f_Nodes spec) ∅) ∅.

Definition applySupervisorConfig (spec : FlowInfo) (jm : JobMaster) : JobMaster :=
  let maxNodes :=
    fold_left
      (fun acc n =>
         match n_Type n, n_SupervisorConfig n with
         | SupervisorNode, Some c => if (0 <? sc_MaxNodes c)%Z then sc_MaxNodes c else acc
         | _, _ => acc
         end) (f_Nodes spec) (jm_maxNodes jm) in
  {| jm_timeout := jm_timeout jm; jm_nodeLimit := jm_nodeLimit jm;
     jm_maxNodes := maxNodes; jm_knowledgeWriter := jm_knowledgeWriter jm;
     jm_nodes := jm_nodes jm; jm_edges := jm_edges jm;
     jm_edgeConditions := jm_edgeConditions jm; jm_deps := jm_deps jm;
     jm_children := jm_children jm; jm_completed := jm_completed jm;
     jm_skipped := jm_skipped jm; jm_failed := jm_failed jm;
     jm_nodeErrors := jm_nodeErrors jm; jm_pending := jm_pending jm;
     jm_conditions := jm_conditions jm; jm_planMap := jm_planMap jm;
     jm_nodeOutputs := jm_nodeOutputs jm; jm_resolvedVars := jm_resolvedVars jm |}.

(** The variables of the run: the flow's, then the run's, then the built-in
    ones. *)
Definition merge_vars (run : FlowRunInfo) (spec : FlowInfo) : gomap :=
  mset "flow_id" (VStr (f_ID spec))
    (mset "namespace_id" (VStr (f_Namespace spec))
      (mset "run_id" (VStr (r_ID run)) (mputs (r_Vars run) (mputs (f_Vars spec) [])))).

Definition set_vars (vars : gomap) (jm : JobMaster) : JobMaster :=
  {| jm_timeout := jm_timeout jm; jm_nodeLimit := jm_nodeLimit jm;
     jm_maxNodes := jm_maxNodes jm; jm_knowledgeWriter := jm_knowledgeWriter jm;
     jm_nodes := jm_nodes jm; jm_edges := jm_edges jm;
     jm_edgeConditions := jm_edgeConditions jm; jm_deps := jm_deps jm;
     jm_children := jm_children jm; jm_completed := jm_completed jm;
     jm_skipped := jm_skipped jm; jm_failed := jm_failed jm;
     jm_nodeErrors := jm_nodeErrors jm; jm_pending := jm_pending jm;
     jm_conditions := jm_conditions jm; jm_planMap := jm_planMap jm;
     jm_nodeOutputs := jm_nodeOutputs jm; jm_resolvedVars := vars |}.

(** ** Inputs *)

(** [val[2 : len(val)-1]] of a text of the form [${...}]. *)
Definition ref_inner (val : string) : option string :=
  if HasPrefix val "${" && HasSuffix val "}"
  then Some (sdrop 2 (stake (String.length val - 1) val)) else None.

(** [collectRefs]: the set as a list; the maps it walks have no observable
    order in it. *)
Fixpoint collect_refs (v : any) : list string :=
  match v with
  | VStr val =>
      match ref_inner val with
      | Some inner =>
          match SplitN2 inner "." with
          | p0 :: _ => if String.eqb p0 "vars" then [] else [p0]
          | [] => []
          end
      | None => []
      end
  | VMap m => concat (map (fun kv => collect_refs kv.2) m)
  | VList l => concat (map collect_refs l)
  | _ => []
  end.
Definition collectRefs (input : gomap) : list string := remove_dups (collect_refs (VMap input)).

(** The raw value of a text that is exactly one reference, when it exists. *)
Definition raw_ref (val : string) (scope : scope_t) : option any :=
  match ref_inner val with
  | Some inner =>
      if Contains val " " then None
      else match SplitN2 inner "." with
           | [p0] => VMap <$> mget p0 scope
           | p0 :: field :: _ => node ← mget p0 scope; mget field node
           | [] => None
           end
  | None => None
  end.

Fixpoint resolveDeep (v : any) (scope : scope_t) : any :=
  match v with
  | VStr val =>
      match raw_ref val scope with
      | Some r => r
      | None => Resolve (VStr val) scope
      end
  | VMap m => VMap (map (fun kv => (kv.1, resolveDeep kv.2 scope)) m)
  | VList l => VList (map (fun x => resolveDeep x scope) l)
  | _ => v
  end.

(** The scope: the variables and every output so far; an output of a node
    called [vars] hides the variables. *)
Definition input_scope (jm : JobMaster) : scope_t :=
  mputs (map_to_list (jm_nodeOutputs jm)) [("vars", jm_resolvedVars jm)].

Definition resolveInput (jm : JobMaster) (yamlInput : option gomap) : gomap :=
  let input := default [] yamlInput in
  let scope := input_scope jm in
  let base := map (fun kv => (kv.1, resolveDeep kv.2 scope)) input in
  fold_left
    (fun acc nid =>
       match jm_nodeOutputs jm !! nid with
       | Some output => mset nid (VMap output) acc
       | None => acc
       end) (collectRefs input) base.

(** The merge of a node's arguments into its raw input: existing keys win. *)
Definition merge_args (spec : NodeSpec) : option gomap :=
  match s_Args spec with
  | None => s_RawInput spec
  | Some args =>
      Some (fold_left
              (fun acc kv => if mhas kv.1 acc then acc else mset kv.1 kv.2 acc)
              args (default [] (s_RawInput spec)))
  end.

(** The plan as it is scheduled. *)
Definition with_input (p : ExecutionPlan) (rawInput : option gomap) (input : gomap)
    : ExecutionPlan :=
  let s := p_NodeSpec p in
  {| p_PlanID := p_PlanID p; p_AgentFlowRunID := p_AgentFlowRunID p;
     p_AgentFlowDefinitionID := p_AgentFlowDefinitionID p; p_Namespace := p_Namespace p;
     p_TaskID := p_TaskID p; p_TaskType := p_TaskType p; p_NodeID := p_NodeID p;
     p_State := p_State p; p_RetryCount := p_RetryCount p; p_MaxRetries := p_MaxRetries p;
     p_Input := Some input; p_Result := p_Result p;
     p_NodeSpec :=
       {| s_ID := s_ID s; s_Kind := s_Kind s; s_Type := s_Type s; s_Solution := s_Solution s;
          s_Agent := s_Agent s; s_Skill := s_Skill s; s_AgentFlowID := s_AgentFlowID s;
          s_Tool := s_Tool s; s_Source := s_Source s; s_Expression := s_Expression s;
          s_Instruction := s_Instruction s; s_Strategy := s_Strategy s;
          s_Concurrency := s_Concurrency s; s_Retry := s_Retry s; s_Approval := s_Approval s;
          s_SupervisorConfig := s_SupervisorConfig s; s_ChildNode := s_ChildNode s;
          s_RawInput := rawInput; s_Args := s_Args s; s_OutputSchema := s_OutputSchema s;
          s_Runtime := s_Runtime s; s_Script := s_Script s; s_ScriptPath := s_ScriptPath s;
          s_Timeout := s_Timeout s; s_Resources := s_Resources s;
          s_NetworkPolicy := s_NetworkPolicy s; s_Workspace := s_Workspace s |};
     p_CreatedAt := p_CreatedAt p; p_FinishedAt := p_FinishedAt p |}.

Definition taskRunFromPlan (p : ExecutionPlan) : TaskRunInfo :=
  {| t_ID := p_TaskID p; t_AgentFlowRunID := p_AgentFlowRunID p; t_NodeID := p_NodeID p;
     t_Status := p_State p; t_Input := p_Input p; t_Output := None; t_Error := "";
     t_MaxRetries := p_MaxRetries p; t_ExecID := p_PlanID p; t_FinishedAt := None |}.

(** ** Knowledge of a finished run *)

(** [postHandle]: the entries the goroutine writes, in the order it ranges
    over the snapshot of the outputs; a failing write is only logged. *)
Definition postHandle `{RangeOrder} (jm : JobMaster) (run : FlowRunInfo) (spec : FlowInfo)
    : list KnowledgeEntry :=
  if negb (jm_knowledgeWriter jm) then []
  else
    omap
      (fun kv =>
         match kv.2 with
         | [] => None
         | output =>
             if json_ok (VMap output) then
               Some {| k_Title := "Run " +:+ r_ID run +:+ " / node " +:+ kv.1;
                       k_Content := Marshal (VMap output);
                       k_ContentType := "json";
                       k_Source := "flow_run";
                       k_SourceRef := f_ID spec +:+ ":" +:+ r_ID run +:+ ":" +:+ kv.1;
                       k_Tags := [f_ID spec; kv.1];
                       k_Namespace := f_Namespace spec |}
             else None
         end) (range_of (jm_nodeOutputs jm)).

(** [collectFirstError]: the first entry of a [range] over the errors. *)
Definition collectFirstError `{RangeOrder} (jm : JobMaster) : string :=
  match range_of (jm_nodeErrors jm) with
  | (_, err) :: _ => err
  | [] => "node failed"
  end.

(** ** The scheduling loop *)

Section Execute.
Context `{RangeOrder} {W : Type} `{JobMasterEnv W}.

(** The children of a condition node whose edge expects the other value. *)
Definition skip_children (nodeID : string) (r : bool) (jm : JobMaster) : JobMaster :=
  fold_left
    (fun jm child =>
       match GetChildCondition jm nodeID child with
       | Some c => if Bool.eqb c r then jm else Skip child jm
       | None => jm
       end) (Children jm nodeID) jm.

(** The handling of the result of a scheduled plan. *)
Definition handle_result (nodeID : string) (plan : ExecutionPlan) (result : res TaskResult)
    (jm : JobMaster) : JobMaster :=
  match result with
  | Err err => Fail nodeID (set_error nodeID err jm)
  | Ok result =>
      if negb (String.eqb (tr_Error result) "") then
        Fail nodeID (set_error nodeID (tr_Error result) jm)
      else
        let jm := match tr_Output result with
                  | Some out => set_output nodeID out jm
                  | None => jm
                  end in
        let jm := Done nodeID jm in
        match p_TaskType plan with
        | TaskCondition =>
            match mlookup "result" (default [] (tr_Output result)) with
            | VBool r => skip_children nodeID r (SetConditionResult nodeID r jm)
            | _ => jm
            end
        | _ => jm
        end
  end.

(** The body of the loop over the ready nodes. *)
Definition run_node (nodeID : string) (s : JobMaster * W) : JobMaster * W :=
  let (jm, w) := s in
  match jm_planMap jm !! nodeID with
  | None => (jm, w)
  | Some plan0 =>
      let rawInput := merge_args (p_NodeSpec plan0) in
      let plan := with_input plan0 rawInput (resolveInput jm rawInput) in
      let jm := set_plan nodeID plan jm in
      let w := (env_save_task (taskRunFromPlan plan) w).2 in
      let (result, w) := env_schedule plan w in
      (handle_result nodeID plan result jm, w)
  end.

Definition run_batch (ready : list string) (s : JobMaster * W) : JobMaster * W :=
  fold_left (fun s n => run_node n s) ready s.

Definition with_status (run : FlowRunInfo) (st : RunStatus) (err : string)
    (started finished : option Z) : FlowRunInfo :=
  {| r_ID := r_ID run; r_Namespace := r_Namespace run; r_AgentFlowID := r_AgentFlowID run;
     r_Version := r_Version run; r_Status := st; r_Vars := r_Vars run; r_Error := err;
     r_Trigger := r_Trigger run; r_StartedAt := started; r_FinishedAt := finished;
     r_K8sNamespace := r_K8sNamespace run; r_Priority := r_Priority run |}.

(** What [Execute] leaves: its error ([None] is [nil]), the run as it was
    last written, the state, the knowledge entries handed to the post-run
    goroutine and the world. *)
Record Outcome := {
  o_err : option string;
  o_run : FlowRunInfo;
  o_jm : JobMaster;
  o_post : list KnowledgeEntry;
  o_world : W;
}.

(** The end of a run: the last update and, if it succeeds, the post-run
    handling. *)
Definition finish (run : FlowRunInfo) (spec : FlowInfo) (jm : JobMaster) (w : W) : Outcome :=
  let (e, w) := env_update_run run w in
  match e with
  | Some err => {| o_err := Some err; o_run := run; o_jm := jm; o_post := []; o_world := w |}
  | None => {| o_err := None; o_run := run; o_jm := jm;
               o_post := postHandle jm run spec; o_world := w |}
  end.

(** One iteration of the loop: the end of the run, or the state after the
    batch of ready nodes. *)
Definition iteration (run : FlowRunInfo) (spec : FlowInfo) (s : JobMaster * W)
    : Outcome + (JobMaster * W) :=
  let (jm, w) := s in
  let (cerr, w) := env_ctx_err w in
  match cerr with
  | Some e =>
      inl {| o_err := Some e; o_run := run; o_jm := jm; o_post := []; o_world := w |}
  | None =>
      if HasFailed jm then
        let (now, w) := env_now w in
        inl (finish (with_status run RunFailed (collectFirstError jm) (r_StartedAt run)
                       (Some now)) spec jm w)
      else if IsComplete jm then
        let (now, w) := env_now w in
        inl (finish (with_status run RunCompleted (r_Error run) (r_StartedAt run)
                       (Some now)) spec jm w)
      else
        match Ready jm with
        | [] => inl {| o_err := None; o_run := run; o_jm := jm; o_post := []; o_world := w |}
        | ready => inr (run_batch ready (jm, w))
        end
  end.

(** [fuel] bounds the number of iterations; [None] is out of fuel. *)
Fixpoint execute_loop (fuel : nat) (run : FlowRunInfo) (spec : FlowInfo) (s : JobMaster * W)
    : option Outcome :=
  match fuel with
  | O => None
  | S fuel =>
      match iteration run spec s with
      | inl o => Some o
      | inr s => execute_loop fuel run spec s
      end
  end.

(** The state and the run [Execute] enters its loop with. *)
Definition execute_init (jm : JobMaster) (run : FlowRunInfo) (spec : FlowInfo) (w : W)
    : FlowRunInfo * (JobMaster * W) :=
  let (t0, w) := env_now w in
  let jm := set_vars (merge_vars run spec)
              (applySupervisorConfig spec (buildExecutionGraph spec (r_ID run) t0 jm)) in
  let (t1, w) := env_now w in
  let run := with_status run RunRunning (r_Error run) (Some t1) (r_FinishedAt run) in
  let w := (env_update_run run w).2 in
  (run, (jm, w)).

(** [Execute]: one iteration more than the flow has nodes is enough. *)
Definition Execute (jm : JobMaster) (run : FlowRunInfo) (spec : FlowInfo) (w : W)
    : option Outcome :=
  let (run, s) := execute_init jm run spec w in
  execute_loop (S (length (f_Nodes spec))) run spec s.

End Execute.
Arguments Outcome : clear implicits.
