(* ===== verification/JobMasterFacts.v ===== *)
(** * Correctness of the DAG orchestrator

    Theorems about [JobMaster.Execute] for every flow and every environment:
    it terminates, its outcome is classified, it dispatches each node at most
    once and only after its dependencies, and acyclic flows complete. *)

From S2P Require Export JobMaster.

Local Open Scope string_scope.
Local Open Scope list_scope.

(** ** Membership *)

Lemma in_set_spec n s : in_set n s = true <-> n ∈ s.
Proof. apply bool_decide_eq_true. Qed.
Lemma in_set_false n s : in_set n s = false <-> n ∉ s.
Proof. apply bool_decide_eq_false. Qed.

Lemma settled_spec jm n :
  settled jm n = true <-> n ∈ jm_completed jm ∪ jm_skipped jm ∪ jm_failed jm.
Proof. unfold settled. rewrite !orb_true_iff, !in_set_spec. set_solver. Qed.

Lemma HasFailed_spec jm :
  HasFailed jm = true <-> exists n, n ∈ jm_nodes jm /\ n ∈ jm_failed jm.
Proof.
  unfold HasFailed. rewrite existsb_exists.
  split; intros (n & Hn & Hf); exists n; [rewrite in_set_spec in Hf|rewrite in_set_spec];
    split; try done; by apply list_elem_of_In.
Qed.

Lemma HasFailed_false jm :
  HasFailed jm = false <-> forall n, n ∈ jm_nodes jm -> n ∉ jm_failed jm.
Proof.
  rewrite <- not_true_iff_false, HasFailed_spec. naive_solver.
Qed.

Lemma IsComplete_spec jm :
  IsComplete jm = true <-> forall n, n ∈ jm_nodes jm -> settled jm n = true.
Proof.
  unfold IsComplete. rewrite forallb_forall.
  split; intros Hc n Hn; apply Hc; by apply list_elem_of_In.
Qed.

Lemma Ready_spec jm n :
  n ∈ Ready jm <-> n ∈ jm_nodes jm /\ settled jm n = false /\ depsDone jm n = true.
Proof.
  unfold Ready. rewrite list_elem_of_In, filter_In, <- list_elem_of_In.
  by rewrite andb_true_iff, negb_true_iff.
Qed.

Lemma Ready_NoDup jm : NoDup (jm_nodes jm) -> NoDup (Ready jm).
Proof. rewrite !NoDup_ListNoDup. apply List.NoDup_filter. Qed.

(** ** Dependencies *)

(** A dependency of [n] that is done, or whose edge is conditional. *)
Definition dep_ok (jm : JobMaster) (n d : string) : Prop :=
  d ∈ jm_completed jm ∪ jm_skipped jm \/ is_Some (GetChildCondition jm d n).

Lemma deps_loop_spec jm n ds b :
  deps_loop jm n ds b = true <->
  (forall d, d ∈ ds -> dep_ok jm n d) /\
  (b = true \/ exists d, d ∈ ds /\ d ∈ jm_completed jm ∪ jm_skipped jm).
Proof.
  revert b. induction ds as [|d ds IH]; intros b; simpl.
  - split.
    + intros ->. split; [|by left]. intros d Hd. by apply elem_of_nil in Hd.
    + intros [_ [?|(d & Hd & _)]]; [done|]. by apply elem_of_nil in Hd.
  - destruct (in_set d (jm_skipped jm) || in_set d (jm_completed jm)) eqn:Ed.
    + assert (d ∈ jm_completed jm ∪ jm_skipped jm) as Hd.
      { apply orb_true_iff in Ed. rewrite !in_set_spec in Ed. set_solver. }
      rewrite IH. split.
      * intros [H1 _]. split; [|right; exists d; split; [by left|done]].
        intros d' [->|?]%elem_of_cons; [by left|by apply H1].
      * intros [H1 _]. split; [|by left]. intros d' ?. apply H1. by right.
    + assert (d ∉ jm_completed jm ∪ jm_skipped jm) as Hd.
      { apply orb_false_iff in Ed. rewrite !in_set_false in Ed. set_solver. }
      destruct (GetChildCondition jm d n) as [c|] eqn:Ec.
      * rewrite IH. split.
        -- intros [H1 H2]. split.
           ++ intros d' [->|?]%elem_of_cons; [right; by rewrite Ec|by apply H1].
           ++ destruct H2 as [?|(d' & ? & ?)]; [by left|]. right. exists d'. split; [by right|done].
        -- intros [H1 H2]. split; [intros d' ?; apply H1; by right|].
           destruct H2 as [?|(d' & Hd' & ?)]; [by left|].
           apply elem_of_cons in Hd' as [->|?]; [done|right; eauto].
      * split; [done|]. intros [H1 _].
        destruct (H1 d ltac:(by left)) as [?|[? Hc]]; [done|congruence].
Qed.

Lemma depsDone_spec jm n :
  depsDone jm n = true <->
  (forall d, d ∈ Deps jm n -> dep_ok jm n d) /\
  (Deps jm n = [] \/ exists d, d ∈ Deps jm n /\ d ∈ jm_completed jm ∪ jm_skipped jm).
Proof.
  unfold depsDone. rewrite deps_loop_spec.
  destruct (Deps jm n) as [|d ds]; split; intros [H1 H2]; (split; [done|]); naive_solver.
Qed.

(** ** Evolution *)

(** The graph stays; the sets only grow; plans stay. *)
Record evolves (jm jm' : JobMaster) : Prop := {
  ev_nodes : jm_nodes jm' = jm_nodes jm;
  ev_deps : jm_deps jm' = jm_deps jm;
  ev_children : jm_children jm' = jm_children jm;
  ev_conds : jm_edgeConditions jm' = jm_edgeConditions jm;
  ev_completed : jm_completed jm ⊆ jm_completed jm';
  ev_skipped : jm_skipped jm ⊆ jm_skipped jm';
  ev_failed : jm_failed jm ⊆ jm_failed jm';
  ev_plans : dom (jm_planMap jm) ⊆ dom (jm_planMap jm');
}.

#[export] Instance evolves_preorder : PreOrder evolves.
Proof.
  split; [intros jm; by split|].
  intros a b c [] []. split; try congruence; set_solver.
Qed.

Lemma GetChildCondition_evolves jm jm' d n :
  evolves jm jm' -> GetChildCondition jm' d n = GetChildCondition jm d n.
Proof. intros Hev. unfold GetChildCondition. by rewrite (ev_conds _ _ Hev). Qed.

Lemma depsDone_evolves jm jm' n :
  evolves jm jm' -> depsDone jm n = true -> depsDone jm' n = true.
Proof.
  intros Hev. rewrite !depsDone_spec.
  unfold Deps, dep_ok, GetChildCondition. rewrite (ev_deps _ _ Hev), (ev_conds _ _ Hev).
  destruct Hev. set_solver.
Qed.

Lemma Skip_evolves n jm : evolves jm (Skip n jm).
Proof. split; simpl; try done; set_solver. Qed.

(** What skipping the children of a condition node changes: [skipped] grows
    by the children whose edge expects the other value, [pending] shrinks,
    nothing else moves. *)
Lemma skip_children_spec nodeID r jm :
  let jm' := skip_children nodeID r jm in
  evolves jm jm' /\
  jm_completed jm' = jm_completed jm /\ jm_failed jm' = jm_failed jm /\
  jm_nodeErrors jm' = jm_nodeErrors jm /\ jm_nodeOutputs jm' = jm_nodeOutputs jm /\
  jm_planMap jm' = jm_planMap jm /\ jm_resolvedVars jm' = jm_resolvedVars jm /\
  jm_conditions jm' = jm_conditions jm /\
  forall c, c ∈ jm_skipped jm' <->
    c ∈ jm_skipped jm \/
    (c ∈ Children jm nodeID /\ GetChildCondition jm nodeID c = Some (negb r)).
Proof.
  unfold skip_children. generalize (Children jm nodeID) as cs. intros cs.
  revert jm. induction cs as [|c cs IH]; intros jm; simpl.
  - split; [done|]. repeat (split; [done|]). intros c. rewrite elem_of_nil. tauto.
  - set (jm1 := match GetChildCondition jm nodeID c with
                | Some c0 => if Bool.eqb c0 r then jm else Skip c jm
                | None => jm end).
    assert (evolves jm jm1 /\ jm_completed jm1 = jm_completed jm /\
            jm_failed jm1 = jm_failed jm /\ jm_nodeErrors jm1 = jm_nodeErrors jm /\
            jm_nodeOutputs jm1 = jm_nodeOutputs jm /\ jm_planMap jm1 = jm_planMap jm /\
            jm_resolvedVars jm1 = jm_resolvedVars jm /\ jm_conditions jm1 = jm_conditions jm /\
            forall x, x ∈ jm_skipped jm1 <-> x ∈ jm_skipped jm \/
              (x = c /\ GetChildCondition jm nodeID c = Some (negb r)))
      as (Hev & H1 & H2 & H3 & H4 & H5 & H6 & H7 & H8).
    { unfold jm1. destruct (GetChildCondition jm nodeID c) as [b|] eqn:Eb.
      - destruct (Bool.eqb_spec b r) as [->|Hne].
        + split; [done|]. repeat (split; [done|]). intros x.
          split; [by left|]. intros [?|[_ Hx]]; [done|]. by destruct r.
        + split; [apply Skip_evolves|]. repeat (split; [done|]). intros x. simpl.
          assert (b = negb r) as -> by (by destruct b, r). set_solver.
      - split; [done|]. repeat (split; [done|]). naive_solver. }
    clearbody jm1. destruct (IH jm1) as (Hev' & E1 & E2 & E3 & E4 & E5 & E6 & E7 & E8).
    split; [by etrans|]. repeat (split; [congruence|]).
    intros x. rewrite E8, H8, (GetChildCondition_evolves jm jm1) by done.
    rewrite elem_of_cons. naive_solver.
Qed.

(** ** One node *)

(** The error the orchestrator sees in what [Schedule] returned. *)
Definition result_error (r : res TaskResult) : option string :=
  match r with
  | Err e => Some e
  | Ok t => if String.eqb (tr_Error t) "" then None else Some (tr_Error t)
  end.

Lemma handle_result_spec n plan r jm :
  let jm' := handle_result n plan r jm in
  evolves jm jm' /\ jm_planMap jm' = jm_planMap jm /\
  match result_error r with
  | Some e =>
      jm_failed jm' = {[n]} ∪ jm_failed jm /\ jm_completed jm' = jm_completed jm /\
      jm_skipped jm' = jm_skipped jm /\ jm_nodeErrors jm' = <[n := e]> (jm_nodeErrors jm)
  | None =>
      jm_failed jm' = jm_failed jm /\ jm_completed jm' = {[n]} ∪ jm_completed jm /\
      jm_nodeErrors jm' = jm_nodeErrors jm
  end.
Proof.
  unfold handle_result, result_error. destruct r as [t|e].
  - destruct (String.eqb_spec (tr_Error t) "") as [He|He]; simpl.
    + set (jm1 := match tr_Output t with Some out => set_output n out jm | None => jm end).
      assert (evolves jm jm1 /\ jm_failed jm1 = jm_failed jm /\
              jm_completed jm1 = jm_completed jm /\ jm_nodeErrors jm1 = jm_nodeErrors jm /\
              jm_planMap jm1 = jm_planMap jm)
        as (Hev & Hf & Hc & Hn & Hp).
      { unfold jm1. destruct (tr_Output t); repeat split; done. }
      clearbody jm1.
      assert (evolves jm (Done n jm1)) as Hev1.
      { etrans; [exact Hev|]. split; simpl; try done; set_solver. }
      assert (forall b, evolves jm (SetConditionResult n b (Done n jm1))) as Hev2.
      { intros b. etrans; [exact Hev1|]. by split. }
      destruct (p_TaskType plan); try (split; [done|]; simpl; rewrite Hf, Hc, Hn; done).
      destruct (mlookup _ _); try (split; [done|]; simpl; rewrite Hf, Hc, Hn; done).
      destruct (skip_children_spec n b (SetConditionResult n b (Done n jm1)))
        as (Hev' & E1 & E2 & E3 & _ & E5 & _).
      split; [etrans; [apply Hev2|exact Hev']|]. rewrite E5, E1, E2, E3. simpl. by rewrite Hf, Hc, Hn.
    + split; [split; simpl; try done; set_solver|]. done.
  - simpl. split; [split; simpl; try done; set_solver|]. done.
Qed.

#[local] Arguments run_node : simpl never.

Section Facts.
Context `{RangeOrder} {W : Type} `{JobMasterEnv W}.
Implicit Types (jm : JobMaster) (w : W) (s : JobMaster * W).

(** What a dispatch does, given that the node has a plan: the plan is updated
    and saved, scheduled once, and its result handled. *)
Lemma run_node_plan n jm w plan0 :
  jm_planMap jm !! n = Some plan0 ->
  exists plan r w' w'',
    p_TaskType plan = p_TaskType plan0 /\ p_NodeID plan = p_NodeID plan0 /\
    p_TaskID plan = p_TaskID plan0 /\
    p_Input plan = Some (resolveInput jm (merge_args (p_NodeSpec plan0))) /\
    w' = (env_save_task (taskRunFromPlan plan) w).2 /\
    env_schedule plan w' = (r, w'') /\
    run_node n (jm, w) = (handle_result n plan r (set_plan n plan jm), w'').
Proof.
  intros Hp. unfold run_node. rewrite Hp.
  set (plan := with_input plan0 _ _).
  destruct (env_schedule plan (env_save_task (taskRunFromPlan plan) w).2) as [r w''] eqn:E.
  by exists plan, r, (env_save_task (taskRunFromPlan plan) w).2, w''.
Qed.

Lemma set_plan_evolves n p jm : evolves jm (set_plan n p jm).
Proof. split; simpl; try done. rewrite dom_insert. set_solver. Qed.

Lemma run_node_evolves n s : evolves s.1 (run_node n s).1.
Proof.
  destruct s as [jm w]. cbn [fst] in *. destruct (jm_planMap jm !! n) as [p|] eqn:Hp.
  - destruct (run_node_plan n jm w p Hp) as (plan & r & w' & w'' & _ & _ & _ & _ & _ & _ & ->).
    cbn [fst]. etrans; [apply (set_plan_evolves n plan)|]. apply handle_result_spec.
  - unfold run_node. by rewrite Hp.
Qed.

Lemma run_batch_evolves ready s : evolves s.1 (run_batch ready s).1.
Proof.
  revert s. induction ready as [|n ready IH]; intros s; simpl; [done|].
  etrans; [apply (run_node_evolves n)|apply IH].
Qed.

(** The invariant of a run: every node has a plan, and exactly the failed
    nodes have an error. *)
Record jm_inv jm : Prop := {
  inv_plans : forall n, n ∈ jm_nodes jm -> n ∈ dom (jm_planMap jm);
  inv_errors : dom (jm_nodeErrors jm) = jm_failed jm;
}.

Lemma run_node_inv n s : jm_inv s.1 -> jm_inv (run_node n s).1.
Proof.
  intros [Hp He]. pose proof (run_node_evolves n s) as Hev. destruct s as [jm w]. simpl in *.
  split.
  - intros m Hm. apply (ev_plans _ _ Hev), Hp. by rewrite <- (ev_nodes _ _ Hev).
  - destruct (jm_planMap jm !! n) as [p|] eqn:Hn.
    + destruct (run_node_plan n jm w p Hn) as (plan & r & w' & w'' & _ & _ & _ & _ & _ & _ & E).
      rewrite E. cbn [fst].
      destruct (handle_result_spec n plan r (set_plan n plan jm)) as (_ & _ & Hr).
      destruct (result_error r) as [e|].
      * destruct Hr as (-> & _ & _ & ->). simpl. rewrite dom_insert_L. by rewrite He.
      * destruct Hr as (-> & _ & ->). done.
    + unfold run_node. rewrite Hn. done.
Qed.

(** A dispatched node ends completed or failed. *)
Lemma run_node_settles n s :
  n ∈ dom (jm_planMap s.1) ->
  (jm_completed (run_node n s).1 = {[n]} ∪ jm_completed s.1 /\
   jm_failed (run_node n s).1 = jm_failed s.1) \/
  (jm_completed (run_node n s).1 = jm_completed s.1 /\
   jm_failed (run_node n s).1 = {[n]} ∪ jm_failed s.1).
Proof.
  destruct s as [jm w]. cbn [fst] in *. intros [p Hp]%elem_of_dom.
  destruct (run_node_plan n jm w p Hp) as (plan & r & w' & w'' & _ & _ & _ & _ & _ & _ & E).
  rewrite E. cbn [fst]. destruct (handle_result_spec n plan r (set_plan n plan jm)) as (_ & _ & Hr).
  destruct (result_error r) as [e|].
  - destruct Hr as (-> & -> & _). by right.
  - destruct Hr as (-> & -> & _). by left.
Qed.

(** ** Induction over a batch and over the loop *)

(** [P] holds at every dispatch point of a batch whose nodes are ready. *)
Lemma batch_ind (P : JobMaster * W -> Prop) ready s :
  (forall n s, jm_inv s.1 -> P s -> n ∈ jm_nodes s.1 -> depsDone s.1 n = true ->
     n ∉ jm_completed s.1 ∪ jm_failed s.1 -> P (run_node n s)) ->
  NoDup ready ->
  (forall n, n ∈ ready -> n ∈ jm_nodes s.1 /\ depsDone s.1 n = true /\
                          n ∉ jm_completed s.1 ∪ jm_failed s.1) ->
  jm_inv s.1 -> P s -> P (run_batch ready s) /\ jm_inv (run_batch ready s).1.
Proof.
  intros Hstep. revert s. induction ready as [|n ready IH]; intros s Hnd Hr Hi HP; [done|].
  apply NoDup_cons in Hnd as [Hni Hnd]. simpl.
  destruct (Hr n ltac:(by left)) as (Hn & Hd & Hs).
  pose proof (run_node_evolves n s) as Hev.
  apply IH; [done| |by apply run_node_inv|by apply Hstep].
  intros m Hm. destruct (Hr m ltac:(by right)) as (Hmn & Hmd & Hms).
  split; [by rewrite (ev_nodes _ _ Hev)|]. split; [by eapply depsDone_evolves|].
  assert (m <> n) by set_solver.
  destruct (run_node_settles n s) as [[-> ->]|[-> ->]]; [by apply (inv_plans _ Hi)|set_solver..].
Qed.

Lemma ready_batch s n :
  n ∈ Ready s.1 ->
  n ∈ jm_nodes s.1 /\ depsDone s.1 n = true /\ n ∉ jm_completed s.1 ∪ jm_failed s.1.
Proof.
  rewrite Ready_spec. intros (Hn & Hs & Hd). repeat split; try done.
  apply not_true_iff_false in Hs. rewrite settled_spec in Hs. set_solver.
Qed.
End Facts.

(** ** The loop *)

Section Loop.
Context `{RangeOrder} {W : Type} `{JobMasterEnv W}.
Implicit Types (jm : JobMaster) (w : W) (s : JobMaster * W).

Definition unsettled jm : nat := length (List.filter (fun n => negb (settled jm n)) (jm_nodes jm)).

Lemma settled_evolves jm jm' n : evolves jm jm' -> settled jm n = true -> settled jm' n = true.
Proof. rewrite !settled_spec. intros []. set_solver. Qed.

Lemma filter_length_lt {A} (f g : A -> bool) l x :
  (forall y, f y = true -> g y = true) -> x ∈ l -> g x = true -> f x = false ->
  length (List.filter f l) < length (List.filter g l).
Proof.
  intros Hfg Hx Hg Hf.
  assert (forall l, length (List.filter f l) <= length (List.filter g l)) as Hle.
  { clear l Hx. induction l as [|y l IH]; simpl; [done|].
    destruct (f y) eqn:Ef; [rewrite (Hfg _ Ef); simpl; lia|]. destruct (g y); simpl; lia. }
  induction l as [|y l IH]; [by apply elem_of_nil in Hx|]. simpl.
  apply elem_of_cons in Hx as [<-|Hx].
  - rewrite Hf, Hg. simpl. specialize (Hle l). lia.
  - specialize (IH Hx). destruct (f y) eqn:Ef; [rewrite (Hfg _ Ef); simpl; lia|].
    destruct (g y); simpl; lia.
Qed.

Lemma filter_length_le {A} (f : A -> bool) l : length (List.filter f l) <= length l.
Proof. induction l as [|x l IH]; simpl; [done|]. destruct (f x); simpl; lia. Qed.

Lemma forallb_false {A} (f : A -> bool) l :
  forallb f l = false -> exists x, In x l /\ f x = false.
Proof.
  induction l as [|x l IH]; simpl; [done|].
  destruct (f x) eqn:E; simpl; [|by exists x; auto].
  intros (y & ? & ?)%IH. exists y. auto.
Qed.

(** A batch settles its first node: fewer nodes are left. *)
Lemma run_batch_unsettled n ready s :
  jm_inv s.1 -> n ∈ jm_nodes s.1 -> settled s.1 n = false ->
  unsettled (run_batch (n :: ready) s).1 < unsettled s.1.
Proof.
  intros Hi Hn Hs. unfold unsettled.
  pose proof (run_batch_evolves (n :: ready) s) as Hev. rewrite (ev_nodes _ _ Hev).
  apply (filter_length_lt _ _ _ n); [|done|by rewrite Hs|].
  - intros m. rewrite !negb_true_iff, <- !not_true_iff_false.
    intros Hm Hm'. by eapply Hm, settled_evolves.
  - apply negb_false_iff. simpl.
    eapply settled_evolves; [apply (run_batch_evolves ready (run_node n s))|].
    apply settled_spec.
    destruct (run_node_settles n s) as [[-> ->]|[-> ->]]; [by apply (inv_plans _ Hi)|set_solver..].
Qed.

Definition ctx_state s : JobMaster * W := (s.1, (env_ctx_err s.2).2).

(** The continuation of the loop. *)
Lemma iteration_inr run spec s s' :
  iteration run spec s = inr s' ->
  HasFailed s.1 = false /\ IsComplete s.1 = false /\
  exists n ready, Ready s.1 = n :: ready /\ s' = run_batch (n :: ready) (ctx_state s).
Proof.
  destruct s as [jm w]. unfold iteration, ctx_state. simpl.
  destruct (env_ctx_err w) as [[e|] w']; [done|].
  destruct (HasFailed jm); [by destruct (env_now w')|].
  destruct (IsComplete jm); [by destruct (env_now w')|].
  destruct (Ready jm) as [|n ready]; [done|]. intros [= <-].
  repeat split; try done. by exists n, ready.
Qed.

Lemma execute_loop_terminates run spec fuel : forall s,
  jm_inv s.1 -> unsettled s.1 < fuel -> exists o, execute_loop fuel run spec s = Some o.
Proof.
  induction fuel as [|fuel IH]; intros s Hi Hf; [lia|]. simpl.
  destruct (iteration run spec s) as [o|s'] eqn:E; [by exists o|].
  apply iteration_inr in E as (_ & _ & n & ready & Hr & ->).
  assert (n ∈ Ready s.1) as Hn by (rewrite Hr; by left).
  apply Ready_spec in Hn as (Hn & Hs & _).
  assert (jm_inv (run_batch (n :: ready) (ctx_state s)).1) as Hi'.
  { clear - Hi. assert (jm_inv (ctx_state s).1) as Hi0 by done. revert Hi0.
    generalize (ctx_state s), (n :: ready). intros s0 l. revert s0.
    induction l as [|m l IHl]; intros s0 Hi0; simpl; [done|]. by apply IHl, run_node_inv. }
  apply IH; [done|].
  pose proof (run_batch_unsettled n ready (ctx_state s) Hi Hn Hs). simpl in *. lia.
Qed.

(** Invariance over the loop: [P] holds in the state in which it ends. *)
Lemma loop_ind (P : JobMaster * W -> Prop) run spec fuel : forall s o,
  (forall s, P s -> P (ctx_state s)) ->
  (forall n s, jm_inv s.1 -> P s -> n ∈ jm_nodes s.1 -> depsDone s.1 n = true ->
     n ∉ jm_completed s.1 ∪ jm_failed s.1 -> P (run_node n s)) ->
  NoDup (jm_nodes s.1) -> jm_inv s.1 -> P s ->
  execute_loop fuel run spec s = Some o ->
  exists s', P s' /\ jm_inv s'.1 /\ evolves s.1 s'.1 /\ iteration run spec s' = inl o.
Proof.
  induction fuel as [|fuel IH]; intros s o Hctx Hstep Hnd Hi HP; [done|]. simpl.
  destruct (iteration run spec s) as [o'|s'] eqn:E.
  { intros [= <-]. by exists s. }
  intros Hl. apply iteration_inr in E as (_ & _ & n & ready & Hr & ->).
  set (s1 := run_batch (n :: ready) (ctx_state s)) in *.
  assert (P s1 /\ jm_inv s1.1) as [HP1 Hi1].
  { apply batch_ind; [done| | |done|by apply Hctx].
    - rewrite <- Hr. by apply Ready_NoDup.
    - intros m Hm. apply (ready_batch (ctx_state s)). by rewrite <- Hr in Hm. }
  assert (evolves s.1 s1.1) as Hev by apply (run_batch_evolves (n :: ready) (ctx_state s)).
  edestruct (IH s1 o) as (s' & ? & ? & ? & ?); [done|done| |done|done|done|].
  { by rewrite (ev_nodes _ _ Hev). }
  exists s'. do 2 (split; [done|]). split; [|done]. etrans; [exact Hev|done].
Qed.
End Loop.

(** ** The start of a run *)

Lemma slice_at_append m k x k' :
  slice_at (append_at k x m) k' = if decide (k' = k) then (slice_at m k ++ [x])%list
                                  else slice_at m k'.
Proof.
  unfold slice_at, append_at. case_decide as Hk; subst.
  - by rewrite lookup_insert_eq.
  - by rewrite lookup_insert_ne.
Qed.

Lemma init_slices_empty nodes m k :
  slice_at m k = [] -> slice_at (init_slices nodes m) k = [].
Proof.
  unfold init_slices. revert m. induction nodes as [|n nodes IH]; intros m Hm; simpl; [done|].
  apply IH. unfold slice_at in *. destruct (decide (k = n)) as [->|].
  - by rewrite lookup_insert_eq.
  - by rewrite lookup_insert_ne.
Qed.

Lemma append_fold_elem (f g : string * string -> string) edges m k x :
  x ∈ slice_at (fold_left (fun m e => append_at (f e) (g e) m) edges m) k <->
  x ∈ slice_at m k \/ exists e, e ∈ edges /\ f e = k /\ g e = x.
Proof.
  revert m. induction edges as [|e edges IH]; intros m; simpl.
  - split; [by left|]. intros [?|(e & He & _)]; [done|]. by apply elem_of_nil in He.
  - rewrite IH, slice_at_append. setoid_rewrite elem_of_cons.
    case_decide; subst; rewrite ?elem_of_app, ?list_elem_of_singleton; naive_solver.
Qed.

Lemma graph_deps_elem nodes edges n d :
  d ∈ slice_at (graph_deps nodes edges) n <-> (d, n) ∈ edges.
Proof.
  unfold graph_deps. rewrite (append_fold_elem snd fst).
  rewrite init_slices_empty by done. rewrite elem_of_nil.
  split; [intros [[]|([a b] & He & Ha & Hb)]; simpl in *; congruence|].
  intros He. right. by exists (d, n).
Qed.

Lemma graph_children_elem nodes edges n c :
  c ∈ slice_at (graph_children nodes edges) n <-> (n, c) ∈ edges.
Proof.
  unfold graph_children. rewrite (append_fold_elem fst snd).
  rewrite init_slices_empty by done. rewrite elem_of_nil.
  split; [intros [[]|([a b] & He & Ha & Hb)]; simpl in *; congruence|].
  intros He. right. by exists (n, c).
Qed.

Lemma plan_fold_dom spec rid now nodes (m : gmap string ExecutionPlan) :
  dom (fold_left (fun m n => <[n_ID n := new_plan spec rid now n]> m) nodes m)
  = dom m ∪ list_to_set (map n_ID nodes).
Proof.
  revert m. induction nodes as [|n nodes IH]; intros m; simpl; [set_solver|].
  rewrite IH, dom_insert_L. set_solver.
Qed.

Section Init.
Context `{RangeOrder} {W : Type} `{JobMasterEnv W}.

Lemma execute_init_state jm run spec (w : W) :
  let s := (execute_init jm run spec w).2 in
  jm_nodes s.1 = map n_ID (f_Nodes spec) /\ (forall n d, d ∈ Deps s.1 n <-> exists e, e ∈ f_Edges spec /\ e_From e = d /\ e_To e = n) /\
  (forall n c, c ∈ Children s.1 n <-> exists e, e ∈ f_Edges spec /\ e_From e = n /\ e_To e = c) /\
  jm_completed s.1 = ∅ /\ jm_skipped s.1 = ∅ /\ jm_failed s.1 = ∅ /\ jm_nodeOutputs s.1 = ∅ /\
  jm_inv s.1 /\ r_Status (execute_init jm run spec w).1 = RunRunning.
Proof.
  unfold execute_init. destruct (env_now w) as [t0 w0].
  destruct (env_now w0) as [t1 w1]. cbn [fst snd].
  split; [done|].
  assert (forall a b, (a, b) ∈ map (fun e => (e_From e, e_To e)) (f_Edges spec) <->
            exists e, e ∈ f_Edges spec /\ e_From e = a /\ e_To e = b) as Hedge.
  { intros a b. rewrite list_elem_of_fmap. split.
    - intros (e & He & Hin). injection He as -> ->. by exists e.
    - intros (e & He & <- & <-). by exists e. }
  split; [intros n d; unfold Deps; cbn -[graph_deps]; by rewrite graph_deps_elem|].
  split; [intros n c; unfold Children; cbn -[graph_children]; by rewrite graph_children_elem|].
  repeat (split; [done|]). split; [|done].
  split; simpl; [|done]. intros n Hn.
  rewrite plan_fold_dom. set_solver.
Qed.
End Init.

(** ** The end of a run *)

Section End.
Context `{RangeOrder} {W : Type} `{JobMasterEnv W}.

Lemma batch_preserves (P : JobMaster * W -> Prop) ready s :
  (forall n s, jm_inv s.1 -> P s -> P (run_node n s)) -> jm_inv s.1 -> P s ->
  P (run_batch ready s) /\ jm_inv (run_batch ready s).1.
Proof.
  intros Hstep. revert s. induction ready as [|n ready IH]; intros s Hi HP; simpl; [done|].
  apply IH; [by apply run_node_inv|by apply Hstep].
Qed.

(** [P] is preserved by every dispatch, whatever the node. *)
Lemma loop_preserves (P : JobMaster * W -> Prop) run spec fuel : forall s o,
  (forall s, P s -> P (ctx_state s)) ->
  (forall n s, jm_inv s.1 -> P s -> P (run_node n s)) ->
  jm_inv s.1 -> P s -> execute_loop fuel run spec s = Some o ->
  exists s', P s' /\ jm_inv s'.1 /\ evolves s.1 s'.1 /\ iteration run spec s' = inl o.
Proof.
  induction fuel as [|fuel IH]; intros s o Hctx Hstep Hi HP; [done|]. simpl.
  destruct (iteration run spec s) as [o'|s'] eqn:E.
  { intros [= <-]. by exists s. }
  intros Hl. apply iteration_inr in E as (_ & _ & n & ready & _ & ->).
  destruct (batch_preserves P (n :: ready) (ctx_state s)) as [HP1 Hi1]; auto.
  destruct (IH _ o Hctx Hstep Hi1 HP1 Hl) as (s' & ? & ? & ? & ?).
  exists s'. do 2 (split; [done|]). split; [|done].
  etrans; [exact (run_batch_evolves (n :: ready) (ctx_state s))|done].
Qed.

(** How an iteration ends the loop. *)
Lemma iteration_inl run spec s o :
  iteration run spec s = inl o ->
  o_jm o = s.1 /\
  ((exists e, (env_ctx_err s.2).1 = Some e /\ o_err o = Some e /\ o_run o = run) \/
   (env_ctx_err s.2).1 = None /\
   ((HasFailed s.1 = true /\ r_Status (o_run o) = RunFailed /\
     r_Error (o_run o) = collectFirstError s.1 /\
     exists w, (env_update_run (o_run o) w).1 = o_err o) \/
    (HasFailed s.1 = false /\ IsComplete s.1 = true /\ r_Status (o_run o) = RunCompleted /\
     exists w, (env_update_run (o_run o) w).1 = o_err o) \/
    (HasFailed s.1 = false /\ IsComplete s.1 = false /\ Ready s.1 = [] /\
     o_err o = None /\ o_run o = run))).
Proof.
  destruct s as [jm w]. unfold iteration. simpl.
  destruct (env_ctx_err w) as [[e|] w']; simpl.
  { intros [= <-]. split; [done|]. left. by exists e. }
  assert (forall r w, let o := finish r spec jm w in
            o_jm o = jm /\ o_run o = r /\ exists w', (env_update_run r w').1 = o_err o) as Hfin.
  { intros r w0. unfold finish. destruct (env_update_run r w0) as [[e|] w2] eqn:E; simpl;
      repeat (split; [done|]); exists w0; by rewrite E. }
  destruct (HasFailed jm) eqn:Ef.
  { destruct (env_now w') as [now w2]. intros [= <-].
    edestruct (Hfin (with_status run RunFailed (collectFirstError jm) (r_StartedAt run) (Some now)) w2)
      as (-> & -> & Hu).
    split; [done|]. right. split; [done|]. left. done. }
  destruct (IsComplete jm) eqn:Ec.
  { destruct (env_now w') as [now w2]. intros [= <-].
    edestruct (Hfin (with_status run RunCompleted (r_Error run) (r_StartedAt run) (Some now)) w2)
      as (-> & -> & Hu).
    split; [done|]. right. split; [done|]. right. left. done. }
  destruct (Ready jm) eqn:Er; [|done]. intros [= <-].
  split; [done|]. right. split; [done|]. right. right. done.
Qed.

Lemma collectFirstError_spec jm :
  jm_inv jm -> HasFailed jm = true ->
  exists n, n ∈ jm_failed jm /\ jm_nodeErrors jm !! n = Some (collectFirstError jm).
Proof.
  intros Hi (n & _ & Hn)%HasFailed_spec. unfold collectFirstError.
  rewrite <- (inv_errors _ Hi) in Hn. apply elem_of_dom in Hn as [e He].
  apply range_of_elem in He.
  destruct (range_of (jm_nodeErrors jm)) as [|[n' e'] l] eqn:El;
    [by apply elem_of_nil in He|].
  exists n'. assert ((n', e') ∈ range_of (jm_nodeErrors jm)) as Hin by (rewrite El; by left).
  apply range_of_elem in Hin. split; [|done].
  rewrite <- (inv_errors _ Hi). apply elem_of_dom. by exists e'.
Qed.

(** ** Properties *)

Lemma Execute_loop_some jm run spec (w : W) : exists o, Execute jm run spec w = Some o.
Proof.
  unfold Execute. pose proof (execute_init_state jm run spec w) as Hinit.
  destruct (execute_init jm run spec w) as [run' s]. simpl in Hinit.
  destruct Hinit as (Hn & _ & _ & _ & _ & _ & _ & Hi & _).
  apply execute_loop_terminates; [done|].
  unfold unsettled. rewrite Hn. apply Nat.lt_succ_r.
  rewrite <- (length_map n_ID (f_Nodes spec)). apply filter_length_le.
Qed.

(** C7: a run ends: for every flow (cyclic ones included) and every behaviour
    of the store, the resource manager and the context, [Execute] returns
    within one iteration more than the flow has nodes. *)
Theorem Execute_terminates jm run spec (w : W) :
  exists o, Execute jm run spec w = Some o.
Proof. apply Execute_loop_some. Qed.

(** C1: the outcome of a run says what happened to its nodes: COMPLETED means
    that every node is completed or skipped and none failed; FAILED that a
    node failed, and the run carries the error of a failed node; otherwise the
    run is still RUNNING, and either [Execute] returned an error or the graph
    is stuck: no node failed, some node is unsettled and no unsettled node has
    its dependencies done. *)
Theorem Execute_outcome jm run spec (w : W) o :
  Execute jm run spec w = Some o ->
  let ids := map n_ID (f_Nodes spec) in
  match r_Status (o_run o) with
  | RunCompleted =>
      forall n, n ∈ ids ->
        n ∈ jm_completed (o_jm o) ∪ jm_skipped (o_jm o) /\ ~ n ∈ jm_failed (o_jm o)
  | RunFailed =>
      exists n, n ∈ jm_failed (o_jm o) /\ jm_nodeErrors (o_jm o) !! n = Some (r_Error (o_run o))
  | RunRunning =>
      is_Some (o_err o) \/
      ((exists n, n ∈ ids /\ settled (o_jm o) n = false) /\
       forall n, n ∈ ids -> ~ n ∈ jm_failed (o_jm o) /\
                            (settled (o_jm o) n = true \/ depsDone (o_jm o) n = false))
  | _ => False
  end.
Proof.
  unfold Execute. pose proof (execute_init_state jm run spec w) as Hinit.
  destruct (execute_init jm run spec w) as [run' s]. simpl in Hinit.
  destruct Hinit as (Hn & _ & _ & _ & _ & _ & _ & Hi & Hst).
  intros Hl. apply (loop_preserves (fun _ => True)) in Hl as (s' & _ & Hi' & Hev & Hend); [|done..].
  apply iteration_inl in Hend as (Hjm & Hend).
  rewrite <- Hn, Hjm, <- (ev_nodes _ _ Hev).
  destruct Hend as [(e & _ & He & ->)|(_ & [(Hf & -> & -> & _)|[(Hf & Hc & -> & _)|(Hf & Hc & Hr & He & ->)]])].
  - rewrite Hst. left. by rewrite He.
  - by apply collectFirstError_spec.
  - rewrite HasFailed_false in Hf. rewrite IsComplete_spec in Hc.
    intros n Hin. specialize (Hc n Hin). rewrite settled_spec in Hc.
    specialize (Hf n Hin). set_solver.
  - rewrite Hst. right. rewrite HasFailed_false in Hf. split.
    + apply not_true_iff_false in Hc. unfold IsComplete in Hc.
      apply not_true_is_false in Hc. apply forallb_false in Hc as (n & Hin & Hs).
      exists n. split; [by apply list_elem_of_In|done].
    + intros n Hin. split; [by apply Hf|].
      destruct (settled s'.1 n) eqn:Es; [by left|right].
      apply not_true_is_false. intros Hd.
      assert (n ∈ Ready s'.1) as Hr' by (by apply Ready_spec). rewrite Hr in Hr'.
      by apply elem_of_nil in Hr'.
Qed.
End End.

(** ** Dispatch order *)

(** An environment whose world also records the plans it was given. *)
#[export] Instance traced {W} (E : JobMasterEnv W) : JobMasterEnv (W * list ExecutionPlan) := {|
  env_ctx_err w := let (e, w') := env_ctx_err w.1 in (e, (w', w.2));
  env_now w := let (t, w') := env_now w.1 in (t, (w', w.2));
  env_update_run r w := let (e, w') := env_update_run r w.1 in (e, (w', w.2));
  env_save_task t w := let (e, w') := env_save_task t w.1 in (e, (w', w.2));
  env_schedule p w := let (r, w') := env_schedule p w.1 in (r, (w', w.2 ++ [p]));
|}.

Section Dispatch.
Context `{RangeOrder} {W : Type} (E : JobMasterEnv W).

Definition dispatched (w : W * list ExecutionPlan) : list string := map p_NodeID w.2.

(** The state of a run against its trace: the trace holds exactly the nodes
    completed or failed, once each, and every dependency of a dispatched node
    is earlier in it, was skipped, or hangs on a condition. *)
Record trace_inv (s : JobMaster * (W * list ExecutionPlan)) : Prop := {
  ti_plans : forall n p, jm_planMap s.1 !! n = Some p -> p_NodeID p = n;
  ti_nodup : NoDup (dispatched s.2);
  ti_elem : forall n, n ∈ dispatched s.2 <-> n ∈ jm_completed s.1 ∪ jm_failed s.1;
  ti_nodes : forall n, n ∈ dispatched s.2 -> n ∈ jm_nodes s.1;
  ti_deps : forall pre n post d,
    dispatched s.2 = pre ++ n :: post -> d ∈ Deps s.1 n -> GetChildCondition s.1 d n = None ->
    d ∈ pre \/ d ∈ jm_skipped s.1;
}.

Lemma app_snoc_inv {A} (l : list A) x pre n post :
  l ++ [x] = pre ++ n :: post ->
  (post = [] /\ pre = l /\ n = x) \/ exists post', post = post' ++ [x] /\ l = pre ++ n :: post'.
Proof.
  destruct post as [|y post] using rev_ind.
  - intros Heq. change (pre ++ [n]) with (pre ++ [n]) in Heq.
    apply app_inj_tail in Heq as [-> ->]. by left.
  - rewrite app_comm_cons, app_assoc. intros [-> ->]%app_inj_tail.
    right. by exists post.
Qed.

Lemma handle_result_planMap n plan r jm :
  jm_planMap (handle_result n plan r jm) = jm_planMap jm.
Proof. apply handle_result_spec. Qed.

Lemma run_node_trace n s :
  jm_inv s.1 -> trace_inv s -> n ∈ jm_nodes s.1 -> depsDone s.1 n = true ->
  n ∉ jm_completed s.1 ∪ jm_failed s.1 -> trace_inv (run_node n s).
Proof.
  intros Hi Ht Hn Hd Hs. destruct s as [jm w]. cbn [fst] in *.
  pose proof (run_node_evolves n (jm, w)) as Hev. cbn [fst] in Hev.
  assert (n ∈ dom (jm_planMap jm)) as Hp by (by apply (inv_plans _ Hi)).
  pose proof (run_node_settles n (jm, w) Hp) as Hset.
  apply elem_of_dom in Hp as [p Hp].
  destruct (run_node_plan n jm w p Hp)
    as (plan & r & w' & w'' & _ & Hid & _ & _ & Hw' & Hsch & Heq).
  assert (p_NodeID plan = n) as Hpid by (rewrite Hid; by apply (ti_plans _ Ht)).
  assert (dispatched w'' = dispatched w ++ [n]) as Htr.
  { assert (w'.2 = w.2) as Hw.
    { rewrite Hw'. simpl. by destruct (env_save_task (taskRunFromPlan plan) w.1). }
    simpl in Hsch. destruct (env_schedule plan w'.1) as [r0 w0]. injection Hsch as _ <-.
    unfold dispatched. simpl. by rewrite Hw, map_app, <- Hpid. }
  assert ((run_node n (jm, w)).2 = w'') as Hw2 by (by rewrite Heq).
  split; rewrite ?Hw2, ?Htr.
  - rewrite Heq. cbn [fst]. rewrite handle_result_planMap. simpl.
    intros m q. destruct (decide (m = n)) as [->|Hne].
    + rewrite lookup_insert_eq. by intros [= <-].
    + rewrite lookup_insert_ne by done. apply (ti_plans _ Ht).
  - apply NoDup_app. split; [apply (ti_nodup _ Ht)|]. split; [|apply NoDup_singleton].
    intros x Hx. rewrite list_elem_of_singleton. intros ->.
    by apply (ti_elem _ Ht) in Hx.
  - intros m. rewrite elem_of_app, list_elem_of_singleton, (ti_elem _ Ht). cbn [fst snd] in *.
    destruct Hset as [[-> ->]|[-> ->]]; set_solver.
  - intros m. rewrite elem_of_app, list_elem_of_singleton, (ev_nodes _ _ Hev).
    intros [Hm| ->]; [by apply (ti_nodes _ Ht)|done].
  - intros pre m post d Heqn. unfold Deps. rewrite (ev_deps _ _ Hev).
    rewrite (GetChildCondition_evolves _ _ _ _ Hev). fold (Deps jm m). intros Hdm Hc.
    apply app_snoc_inv in Heqn as [(-> & -> & ->)|(post' & -> & Heqn)].
    + apply depsDone_spec in Hd as [Hd _]. destruct (Hd d Hdm) as [Hd'|[? Hd']]; [|congruence].
      apply elem_of_union in Hd' as [Hd'|Hd'].
      * left. apply (ti_elem _ Ht). set_solver.
      * right. by apply (ev_skipped _ _ Hev).
    + destruct (ti_deps _ Ht _ _ _ d Heqn Hdm Hc) as [?|Hsk]; [by left|].
      right. by apply (ev_skipped _ _ Hev).
Qed.
End Dispatch.

(** The condition recorded for an edge of a fresh job master: the last edge
    with the same key wins. *)
Lemma edge_conds_None (es : list Edge) (m : gmap string (option bool)) k :
  default None (m !! k) = None ->
  (forall e, e ∈ es -> edge_key (e_From e) (e_To e) = k -> e_Condition e = None) ->
  default None (fold_left (fun m e => <[edge_key (e_From e) (e_To e) := e_Condition e]> m) es m
                  !! k) = None.
Proof.
  revert m. induction es as [|e es IH]; intros m Hm Hall; simpl; [done|].
  apply IH; [|intros; apply Hall; [by right|done]].
  destruct (decide (edge_key (e_From e) (e_To e) = k)) as [Hk|Hk].
  - rewrite Hk, lookup_insert_eq. simpl. apply Hall; [by left|done].
  - by rewrite lookup_insert_ne.
Qed.

(** All the edges that share the key of an edge from [d] to [n] are
    unconditional. *)
Definition unconditional (spec : FlowInfo) (d n : string) : Prop :=
  forall e, e ∈ f_Edges spec -> edge_key (e_From e) (e_To e) = edge_key d n ->
    e_Condition e = None.

Lemma execute_init_conds `{JobMasterEnv W} jm run spec (w : W) :
  jm_edgeConditions (execute_init jm run spec w).2.1 =
  fold_left (fun m e => <[edge_key (e_From e) (e_To e) := e_Condition e]> m)
    (f_Edges spec) (jm_edgeConditions jm).
Proof. unfold execute_init. destruct (env_now w) as [? w0]. by destruct (env_now w0). Qed.

Lemma execute_init_unconditional `{JobMasterEnv W} jm run spec (w : W) d n :
  jm_edgeConditions jm = ∅ -> unconditional spec d n ->
  GetChildCondition (execute_init jm run spec w).2.1 d n = None.
Proof.
  intros He Hu. unfold GetChildCondition. rewrite execute_init_conds, He.
  by apply edge_conds_None.
Qed.

Lemma plan_fold_ids spec rid now nodes : forall m : gmap string ExecutionPlan,
  (forall n p, m !! n = Some p -> p_NodeID p = n) ->
  forall n p, fold_left (fun m n => <[n_ID n := new_plan spec rid now n]> m) nodes m !! n = Some p ->
    p_NodeID p = n.
Proof.
  induction nodes as [|x nodes IH]; intros m Hm; simpl; [done|]. apply IH.
  intros n p. destruct (decide (n = n_ID x)) as [->|Hne].
  - rewrite lookup_insert_eq. by intros [= <-].
  - rewrite lookup_insert_ne by done. apply Hm.
Qed.

Lemma execute_init_trace {W} (E : JobMasterEnv W) jm run spec (w : W) :
  trace_inv (execute_init jm run spec (w, [])).2.
Proof.
  pose proof (execute_init_state jm run spec (w, [] : list ExecutionPlan)) as Hinit.
  assert (dispatched (execute_init jm run spec (w, [])).2.2 = []) as Hd.
  { unfold execute_init, dispatched. simpl. destruct (env_now w) as [? w0]. simpl.
    destruct (env_now w0) as [? w1]. simpl. by destruct (env_update_run _ w1). }
  assert (forall n p, jm_planMap (execute_init jm run spec (w, [])).2.1 !! n = Some p ->
            p_NodeID p = n) as Hp.
  { unfold execute_init. simpl. destruct (env_now w) as [? w0]. simpl.
    destruct (env_now w0) as [? w1]. simpl. by apply plan_fold_ids. }
  destruct Hinit as (_ & _ & _ & Hc & _ & Hf & _).
  split; rewrite ?Hd; [done|constructor| | |].
  - intros n. rewrite Hc, Hf, elem_of_nil. set_solver.
  - intros n Hn. by apply elem_of_nil in Hn.
  - intros pre n post d Heq. by destruct pre.
Qed.

Lemma iteration_inl_trace {O : RangeOrder} {W} (E : JobMasterEnv W) run spec s o :
  iteration run spec s = inl o -> dispatched (o_world o) = dispatched s.2.
Proof.
  destruct s as [jm [w tr]]. unfold iteration, finish. simpl.
  destruct (env_ctx_err w) as [[e|] w1]; simpl; [by intros [= <-]|].
  destruct (HasFailed jm).
  { destruct (env_now w1) as [? w2]; simpl.
    destruct (env_update_run _ w2) as [[|] ?]; by intros [= <-]. }
  destruct (IsComplete jm).
  { destruct (env_now w1) as [? w2]; simpl.
    destruct (env_update_run _ w2) as [[|] ?]; by intros [= <-]. }
  destruct (Ready jm); [by intros [= <-]|done].
Qed.

(** C2: with distinct node ids, a run dispatches every node at most once, only
    nodes of the flow, and each node only after all its unconditional
    dependencies were dispatched or skipped. *)
Theorem Execute_dispatch_order {O : RangeOrder} {W} (E : JobMasterEnv W) cfg run spec (w : W) o :
  NoDup (map n_ID (f_Nodes spec)) ->
  Execute (NewJobMaster cfg) run spec (w, [] : list ExecutionPlan) = Some o ->
  let trace := dispatched (o_world o) in
  NoDup trace /\ (forall n, n ∈ trace -> n ∈ map n_ID (f_Nodes spec)) /\
  forall pre n post e,
    trace = pre ++ n :: post -> e ∈ f_Edges spec -> e_To e = n ->
    unconditional spec (e_From e) n ->
    e_From e ∈ pre \/ e_From e ∈ jm_skipped (o_jm o).
Proof.
  intros Hnd. unfold Execute.
  pose proof (execute_init_state (NewJobMaster cfg) run spec (w, [] : list ExecutionPlan)) as Hinit.
  pose proof (execute_init_trace E (NewJobMaster cfg) run spec w) as Htr.
  pose proof (fun d n => execute_init_unconditional (NewJobMaster cfg) run spec
                (w, [] : list ExecutionPlan) d n eq_refl) as Hu.
  destruct (execute_init _ run spec _) as [run' s]. simpl in Hinit, Htr, Hu.
  destruct Hinit as (Hn & Hdeps & _ & _ & _ & _ & _ & Hi & _).
  intros Hl. apply (loop_ind trace_inv) in Hl as (s' & HP & _ & Hev & Hend);
    [| |by apply run_node_trace|by rewrite Hn|done|done].
  2:{ intros [jm [w0 tr]] Ht. unfold ctx_state. simpl. by destruct (env_ctx_err w0), Ht. }
  assert (dispatched (o_world o) = dispatched s'.2) as ->.
  { by apply iteration_inl_trace in Hend. }
  apply iteration_inl in Hend as [Hjm _]. rewrite Hjm.
  split; [apply (ti_nodup _ HP)|]. split.
  - intros n Hx. rewrite <- Hn, <- (ev_nodes _ _ Hev). by apply (ti_nodes _ HP).
  - intros pre n post e Heq He Hto Hun. apply (ti_deps _ HP pre n post); [done| |].
    + unfold Deps. rewrite (ev_deps _ _ Hev). apply Hdeps. by exists e.
    + rewrite (GetChildCondition_evolves _ _ _ _ Hev). by apply Hu.
Qed.
