(* ===== verification/JobMasterRuns.v ===== *)
(** * Runs in a well-behaved environment

    Which flows complete when every node succeeds, which flows get stuck,
    what a condition node does to its children, and what a node receives as
    its input. *)

From S2P Require Export JobMasterFacts.

Local Open Scope string_scope.
Local Open Scope list_scope.

(** ** A well-behaved environment *)

(** The context stays live, the store accepts the runs, and every scheduled
    plan succeeds. *)
Class GoodEnv (W : Type) `{JobMasterEnv W} := {
  good_ctx : forall w : W, (env_ctx_err w).1 = None;
  good_update : forall r (w : W), (env_update_run r w).1 = None;
  good_schedule : forall p (w : W), result_error (env_schedule p w).1 = None;
}.

Lemma run_node_good `{GoodEnv W} n (s : JobMaster * W) :
  jm_failed s.1 = ∅ -> jm_failed (run_node n s).1 = ∅.
Proof.
  destruct s as [jm w]. cbn [fst]. intros Hf.
  destruct (jm_planMap jm !! n) as [p|] eqn:Hp; [|unfold run_node; by rewrite Hp].
  destruct (run_node_plan n jm w p Hp) as (plan & r & w' & w'' & _ & _ & _ & _ & _ & Hs & ->).
  cbn [fst]. destruct (handle_result_spec n plan r (set_plan n plan jm)) as (_ & _ & Hr).
  pose proof (good_schedule plan w') as Hg. rewrite Hs in Hg. cbn [fst] in Hg. rewrite Hg in Hr.
  by destruct Hr as (-> & _).
Qed.

(** In such an environment no node fails, and a run that is not COMPLETED is
    stuck. *)
Lemma good_outcome {O : RangeOrder} `{GoodEnv W} run spec fuel (s : JobMaster * W) o :
  jm_inv s.1 -> jm_failed s.1 = ∅ -> execute_loop fuel run spec s = Some o ->
  exists s' : JobMaster * W, jm_failed s'.1 = ∅ /\ evolves s.1 s'.1 /\ o_jm o = s'.1 /\ o_err o = None /\
    ((r_Status (o_run o) = RunCompleted /\ IsComplete s'.1 = true) \/
     (o_run o = run /\ IsComplete s'.1 = false /\ Ready s'.1 = [])).
Proof.
  intros Hi Hf Hl.
  apply (loop_preserves (fun s : JobMaster * W => jm_failed s.1 = ∅)) in Hl as (s' & Hf' & _ & Hev & Hend);
    [|done|intros; by apply run_node_good|done|done].
  exists s'. apply iteration_inl in Hend as (-> & Hend).
  destruct Hend as [(e & He & _)|(_ & [(Hfl & _)|[(_ & Hc & Hst & w & Hw)|(_ & Hc & Hr & He & Hst)]])].
  - by rewrite good_ctx in He.
  - apply HasFailed_spec in Hfl as (n & _ & Hn). set_solver.
  - rewrite good_update in Hw. do 4 (split; [done|]). by left.
  - do 4 (split; [done|]). by right.
Qed.

(** ** Acyclic flows *)

(** [rank] orders the nodes of a flow along its edges, whose sources are all
    nodes of the flow. *)
Definition acyclic (spec : FlowInfo) (rank : string -> nat) : Prop :=
  forall e, e ∈ f_Edges spec ->
    e_From e ∈ map n_ID (f_Nodes spec) /\ rank (e_From e) < rank (e_To e).

(** In an acyclic graph an unsettled node of least rank is ready. *)
Lemma least_unsettled_ready jm (rank : string -> nat) n :
  (forall m d, d ∈ Deps jm m -> d ∈ jm_nodes jm /\ rank d < rank m) ->
  jm_failed jm = ∅ -> n ∈ jm_nodes jm -> settled jm n = false -> exists m, m ∈ Ready jm.
Proof.
  intros Hac Hf. remember (rank n) as r eqn:Er. revert n Er.
  induction (lt_wf r) as [r _ IH]. intros n -> Hn Hs.
  destruct (depsDone jm n) eqn:Hd; [exists n; by apply Ready_spec|].
  assert (exists d, d ∈ Deps jm n /\ settled jm d = false) as (d & Hdin & Hds).
  { destruct (decide (Exists (fun d => settled jm d = false) (Deps jm n))) as [Hex|Hex].
    { apply Exists_exists in Hex. naive_solver. }
    exfalso. apply not_true_iff_false in Hd. apply Hd, depsDone_spec.
    assert (forall d, d ∈ Deps jm n -> d ∈ jm_completed jm ∪ jm_skipped jm) as Hall.
    { intros d Hin. destruct (settled jm d) eqn:Es.
      - apply settled_spec in Es. set_solver.
      - exfalso. apply Hex, Exists_exists. by exists d. }
    split; [intros d Hin; left; by apply Hall|].
    destruct (Deps jm n) as [|d ds]; [by left|right]. exists d. split; [by left|].
    apply Hall. by left. }
  destruct (Hac n d Hdin) as [Hdn Hlt]. by apply (IH (rank d) Hlt d).
Qed.

(** C3: an acyclic flow whose edges leave nodes of the flow completes when
    every node succeeds, conditions included: [Execute] returns without error
    and the run is COMPLETED. *)
Theorem Execute_acyclic_completes {O : RangeOrder} `{GoodEnv W} jm run spec rank (w : W) :
  acyclic spec rank ->
  exists o, Execute jm run spec w = Some o /\ o_err o = None /\
    r_Status (o_run o) = RunCompleted.
Proof.
  intros Hac. destruct (Execute_loop_some jm run spec w) as [o Ho]. exists o. split; [done|].
  revert Ho. unfold Execute. pose proof (execute_init_state jm run spec w) as Hinit.
  destruct (execute_init jm run spec w) as [run' s]. simpl in Hinit.
  destruct Hinit as (Hn & Hdeps & _ & _ & _ & Hf & _ & Hi & _).
  intros Hl. apply good_outcome in Hl as (s' & Hf' & Hev & _ & He & Hend); [|done..].
  split; [done|]. destruct Hend as [[? _]|(_ & Hc & Hr)]; [done|exfalso].
  apply forallb_false in Hc as (n & Hin & Hs). apply list_elem_of_In in Hin.
  destruct (least_unsettled_ready s'.1 rank n) as [m Hm]; [|done..|].
  - intros m d. unfold Deps. rewrite (ev_deps _ _ Hev). fold (Deps s.1 m).
    rewrite Hdeps. intros (e & He' & <- & <-).
    rewrite (ev_nodes _ _ Hev), Hn. by apply Hac.
  - rewrite Hr in Hm. by apply elem_of_nil in Hm.
Qed.

(** ** Condition nodes *)

(** The value a plan's result gives to a condition node. *)
Definition condition_value (plan : ExecutionPlan) (r : res TaskResult) : option bool :=
  match p_TaskType plan, r with
  | TaskCondition, Ok t =>
      match mlookup "result" (default [] (tr_Output t)) with VBool b => Some b | _ => None end
  | _, _ => None
  end.

Lemma handle_result_skipped n plan r jm c :
  result_error r = None ->
  c ∈ jm_skipped (handle_result n plan r jm) <->
  c ∈ jm_skipped jm \/
  exists b, condition_value plan r = Some b /\ c ∈ Children jm n /\
            GetChildCondition jm n c = Some (negb b).
Proof.
  unfold result_error, handle_result, condition_value. destruct r as [t|e]; [|done].
  destruct (String.eqb (tr_Error t) ""); [|done]. intros _. simpl.
  set (jm1 := match tr_Output t with Some out => set_output n out jm | None => jm end).
  assert (jm_skipped jm1 = jm_skipped jm /\ jm_children jm1 = jm_children jm /\
          jm_edgeConditions jm1 = jm_edgeConditions jm) as (Hs & Hc & He)
    by (unfold jm1; by destruct (tr_Output t)).
  assert (forall b, c ∈ jm_skipped (skip_children n b (SetConditionResult n b (Done n jm1))) <->
            c ∈ jm_skipped jm \/ c ∈ Children jm n /\ GetChildCondition jm n c = Some (negb b)) as Hsk.
  { intros b. destruct (skip_children_spec n b (SetConditionResult n b (Done n jm1)))
      as (_ & _ & _ & _ & _ & _ & _ & _ & Hspec).
    rewrite Hspec. unfold Children, GetChildCondition. simpl. by rewrite Hs, Hc, He. }
  destruct (p_TaskType plan); simpl; rewrite ?Hs; try naive_solver.
  destruct (mlookup "result" _) eqn:Em; simpl; rewrite ?Hs; try naive_solver.
Qed.

(** C20: dispatching a condition node whose result is the truth value [b]
    skips exactly the children whose edge expects the other value (on top of
    the nodes skipped before), marks the node completed and records [b]; with
    an error, or without a truth value, nothing is skipped. *)
Theorem condition_skips_children `{JobMasterEnv W} n jm (w w'' : W) plan0 plan r :
  jm_planMap jm !! n = Some plan0 ->
  plan = with_input plan0 (merge_args (p_NodeSpec plan0))
           (resolveInput jm (merge_args (p_NodeSpec plan0))) ->
  env_schedule plan (env_save_task (taskRunFromPlan plan) w).2 = (r, w'') ->
  let jm' := (run_node n (jm, w)).1 in
  match result_error r, condition_value plan r with
  | None, Some b =>
      n ∈ jm_completed jm' /\
      forall c, c ∈ jm_skipped jm' <->
        c ∈ jm_skipped jm \/ (c ∈ Children jm n /\ GetChildCondition jm n c = Some (negb b))
  | _, _ => jm_skipped jm' = jm_skipped jm
  end.
Proof.
  intros Hp -> Hs. unfold run_node. rewrite Hp. cbv zeta. rewrite Hs. cbn [fst].
  set (plan := with_input plan0 _ _) in *.
  pose proof (fun c => handle_result_skipped n plan r (set_plan n plan jm) c) as Hsk.
  destruct (handle_result_spec n plan r (set_plan n plan jm)) as (_ & _ & Hr).
  destruct (result_error r) as [e|] eqn:Ee; [by destruct Hr as (_ & _ & -> & _)|].
  destruct Hr as (_ & Hc & _).
  destruct (condition_value plan r) as [b|] eqn:Eb.
  - split; [rewrite Hc; set_solver|]. intros c. rewrite Hsk by done. naive_solver.
  - apply set_eq. intros c. rewrite Hsk by done. naive_solver.
Qed.

Lemma run_node_skipped `{JobMasterEnv W} n (s : JobMaster * W) c :
  c ∈ jm_skipped (run_node n s).1 ->
  c ∈ jm_skipped s.1 \/ is_Some (GetChildCondition s.1 n c).
Proof.
  destruct s as [jm w]. cbn [fst].
  destruct (jm_planMap jm !! n) as [p|] eqn:Hp; [|unfold run_node; rewrite Hp; by left].
  destruct (run_node_plan n jm w p Hp) as (plan & r & w' & w'' & _ & _ & _ & _ & _ & _ & ->).
  cbn [fst]. destruct (result_error r) as [e|] eqn:Ee.
  - destruct (handle_result_spec n plan r (set_plan n plan jm)) as (_ & _ & Hr).
    rewrite Ee in Hr. destruct Hr as (_ & _ & -> & _). by left.
  - rewrite handle_result_skipped by done. simpl.
    intros [?|(b & _ & _ & Hb)]; [by left|right]. unfold GetChildCondition in *. simpl in Hb.
    rewrite Hb. by eexists.
Qed.

(** ** Flows that get stuck *)

(** [stuck spec c]: every node of [c] waits for a node of [c] or for a node
    the flow does not have (a cycle, or an edge with an unknown source). *)
Definition stuck (spec : FlowInfo) (c : list string) : Prop :=
  forall n, n ∈ c -> n ∈ map n_ID (f_Nodes spec) /\
    exists e, e ∈ f_Edges spec /\ e_To e = n /\
      (e_From e ∈ c \/ ~ e_From e ∈ map n_ID (f_Nodes spec)).

(** A flow without conditional edges that has a cycle, or a node behind an
    edge from an unknown node, never finishes, even when every node succeeds:
    [Execute] returns no error and leaves the run RUNNING. *)
Theorem Execute_stuck_running {O : RangeOrder} `{GoodEnv W} cfg run spec (w : W) c n0 :
  NoDup (map n_ID (f_Nodes spec)) ->
  (forall e, e ∈ f_Edges spec -> e_Condition e = None) ->
  stuck spec c -> n0 ∈ c ->
  exists o, Execute (NewJobMaster cfg) run spec w = Some o /\ o_err o = None /\
    r_Status (o_run o) = RunRunning /\ settled (o_jm o) n0 = false.
Proof.
  intros Hnd Hun Hst Hn0.
  destruct (Execute_loop_some (NewJobMaster cfg) run spec w) as [o Ho]. exists o. split; [done|].
  revert Ho. unfold Execute.
  pose proof (execute_init_state (NewJobMaster cfg) run spec w) as Hinit.
  assert (forall d n, GetChildCondition (execute_init (NewJobMaster cfg) run spec w).2.1 d n = None)
    as Hcond.
  { intros d n. apply execute_init_unconditional; [done|]. intros e He _. by apply Hun. }
  destruct (execute_init _ run spec w) as [run' s]. simpl in Hinit, Hcond.
  destruct Hinit as (Hn & Hdeps & _ & Hc0 & Hs0 & Hf & _ & Hi & Hrun). intros Hl.
  pose proof Hl as Hl'. apply good_outcome in Hl' as (s1 & _ & _ & Hjm1 & He & Hend); [|done..].
  apply (loop_ind (fun s' : JobMaster * W => evolves s.1 s'.1 /\ jm_skipped s'.1 = ∅ /\
           forall n, n ∈ jm_completed s'.1 ∪ jm_failed s'.1 -> n ∈ jm_nodes s.1 /\ ~ n ∈ c)) in Hl
    as (s' & (Hev & Hs' & Hc') & _ & _ & Hend'); [|done| |by rewrite Hn|done|].
  - split; [done|]. apply iteration_inl in Hend' as [Hjm _].
    assert (s1.1 = s'.1) as E1 by congruence. rewrite Hjm.
    assert (settled s'.1 n0 = false) as Hset.
    { apply not_true_is_false. intros Hx%settled_spec. rewrite Hs' in Hx.
      destruct (Hc' n0) as [_ Hnc]; [set_solver|done]. }
    split; [|done]. destruct Hend as [[_ Hcm]|(-> & _)]; [exfalso|done].
    rewrite E1, IsComplete_spec in Hcm. rewrite Hcm in Hset; [done|].
    rewrite (ev_nodes _ _ Hev), Hn. by apply Hst.
  - intros n s' Hi' (Hev & Hs' & Hc') Hin Hd Hnew.
    assert (evolves s.1 (run_node n s').1) as Hev' by (etrans; [exact Hev|apply run_node_evolves]).
    split; [done|].
    assert (forall d m, GetChildCondition s'.1 d m = None) as Hcond'.
    { intros d m. by rewrite (GetChildCondition_evolves _ _ _ _ Hev). }
    split.
    + apply set_eq. intros x. split; [|set_solver].
      intros [Hx|Hx]%run_node_skipped; [by rewrite Hs' in Hx|]. rewrite Hcond' in Hx. by destruct Hx.
    + assert (n ∈ jm_nodes s.1 /\ ~ n ∈ c) as Hn'.
      { rewrite <- (ev_nodes _ _ Hev). split; [done|]. intros Hnc.
        destruct (Hst n Hnc) as (_ & e & He' & Hto & Hfrom).
        apply depsDone_spec in Hd as [Hd _].
        destruct (Hd (e_From e)) as [Hdone|Hsome].
        - unfold Deps. rewrite (ev_deps _ _ Hev). apply Hdeps. by exists e.
        - destruct (Hc' (e_From e)) as [Hin' Hni]; [set_solver|].
          rewrite Hn in Hin'. naive_solver.
        - rewrite Hcond' in Hsome. by destruct Hsome. }
      intros x. destruct (run_node_settles n s') as [[-> ->]|[-> ->]];
        [by apply (inv_plans _ Hi')|..]; intros Hx;
        (destruct (decide (x = n)) as [->|Hne]; [done|apply Hc'; set_solver]).
  - split; [done|]. split; [done|]. intros n. rewrite Hc0, Hf. set_solver.
Qed.

(** ** Inputs *)

Lemma mputs_lookup {A} (src dst : list (string * A)) k :
  NoDup src.*1 ->
  mget k (mputs src dst) = match mget k src with Some v => Some v | None => mget k dst end.
Proof.
  unfold mputs. revert dst. induction src as [|[k0 v0] src IH]; intros dst Hnd; simpl; [done|].
  apply NoDup_cons in Hnd as [Hni Hnd]. rewrite IH by done. simpl.
  rewrite mget_mset. destruct (String.eqb_spec k k0) as [->|Hne]; [|done].
  apply mget_None in Hni. simpl in Hni. by rewrite Hni.
Qed.

Lemma mget_map_to_list {A} (m : gmap string A) k : mget k (map_to_list m) = m !! k.
Proof.
  destruct (m !! k) as [v|] eqn:E.
  - apply mget_NoDup; [apply NoDup_fst_map_to_list|]. by apply elem_of_map_to_list.
  - apply mget_None. intros Hin. apply list_elem_of_fmap in Hin as ([k' v] & -> & Hin).
    apply elem_of_map_to_list in Hin. simpl in E. congruence.
Qed.

Lemma mget_map_snd (f : any -> any) k (m : gomap) :
  mget k (map (fun kv => (kv.1, f kv.2)) m) = f <$> mget k m.
Proof. induction m as [|[k' v] m IH]; simpl; [done|]. by destruct (String.eqb k k'). Qed.

Lemma inject_outputs (outputs : gmap string gomap) refs k : forall acc,
  mget k (fold_left (fun acc nid => match outputs !! nid with
                                    | Some output => mset nid (VMap output) acc
                                    | None => acc end) refs acc) =
  if decide (k ∈ refs) then
    match outputs !! k with Some o => Some (VMap o) | None => mget k acc end
  else mget k acc.
Proof.
  induction refs as [|r refs IH]; intros acc; simpl; [done|].
  rewrite IH. assert (forall o, mget k (mset r o acc) = if decide (k = r) then Some o else mget k acc) as Hms.
  { intros o. rewrite mget_mset. by destruct (String.eqb_spec k r), (decide (k = r)). }
  destruct (decide (k = r)) as [->|Hne].
  - rewrite (decide_True (P := r ∈ r :: refs)) by (by left).
    destruct (outputs !! r) as [o|] eqn:Eo.
    + rewrite Hms. by destruct (decide (r ∈ refs)).
    + by destruct (decide (r ∈ refs)).
  - destruct (decide (k ∈ refs)) as [Hin|Hni].
    + rewrite (decide_True (P := k ∈ r :: refs)) by (by right).
      destruct (outputs !! k); [done|]. destruct (outputs !! r); [by rewrite Hms|done].
    + rewrite (decide_False (P := k ∈ r :: refs)) by set_solver.
      destruct (outputs !! r); [by rewrite Hms|done].
Qed.

(** The input of a node holds, under each key of its YAML input, the
    resolved value, and besides, whole, the output of each node it refers to;
    no other key.  References are looked up among the run's variables (under
    ["vars"]) and the outputs of all nodes that have one, whether or not they
    are dependencies. *)
Theorem resolveInput_lookup jm input k :
  mget k (resolveInput jm (Some input)) =
  (if decide (k ∈ collectRefs input) then
     match jm_nodeOutputs jm !! k with
     | Some out => Some (VMap out)
     | None => (fun v => resolveDeep v (input_scope jm)) <$> mget k input
     end
   else (fun v => resolveDeep v (input_scope jm)) <$> mget k input) /\
  forall nid, mget nid (input_scope jm) =
    match jm_nodeOutputs jm !! nid with
    | Some out => Some out
    | None => if decide (nid = "vars") then Some (jm_resolvedVars jm) else None
    end.
Proof.
  unfold resolveInput. rewrite inject_outputs. simpl.
  pose proof (mget_map_snd (fun v => resolveDeep v (input_scope jm)) k input) as Hm.
  simpl in Hm. rewrite Hm. split; [done|].
  intros nid. unfold input_scope. rewrite mputs_lookup by apply NoDup_fst_map_to_list.
  rewrite mget_map_to_list. destruct (jm_nodeOutputs jm !! nid); [done|]. simpl.
  destruct (String.eqb_spec nid "vars"); by case_decide.
Qed.

(** ** A concrete run *)

(** A node, an edge and a flow with the given ids, and an environment in which
    every node succeeds with [{result: true}]; the world counts the plans. *)
Definition demo_node (id : string) (k : NodeType) : Node :=
  mkNode id k k "" "" "" "" "" "" "" None None None None 0 None None "" None "" "" "" None None
    "" None.
Definition demo_edge (a b : string) (c : option bool) : Edge :=
  {| e_From := a; e_To := b; e_Condition := c |}.
Definition demo_flow (nodes : list Node) (edges : list Edge) : FlowInfo :=
  {| f_ID := "flow"; f_Namespace := "ns"; f_Description := ""; f_Kind := ""; f_Vars := [];
     f_Nodes := nodes; f_Edges := edges; f_Triggers := []; f_Priority := "normal";
     f_K8sNamespace := "" |}.
Definition demo_run : FlowRunInfo :=
  {| r_ID := "run"; r_Namespace := "ns"; r_AgentFlowID := "flow"; r_Version := 1;
     r_Status := RunPending; r_Vars := []; r_Error := "";
     r_Trigger := {| ti_Type := "manual"; ti_Source := ""; ti_Payload := [] |};
     r_StartedAt := None; r_FinishedAt := None; r_K8sNamespace := ""; r_Priority := "" |}.
Definition demo_cfg : JobManagerConfig :=
  {| FlowExecutionTimeout := 0; MaxNodeRetries := 3; MaxConcurrentFlows := 10 |}.

#[local] Instance demo_env : JobMasterEnv nat := {|
  env_ctx_err w := (None, w);
  env_now w := (Z.of_nat w, w);
  env_update_run _ w := (None, w);
  env_save_task _ w := (None, w);
  env_schedule _ w := (Ok {| tr_Output := Some [("result", VBool true)]; tr_Error := "" |}, S w);
|}.
#[local] Instance demo_good : GoodEnv nat.
Proof. by split. Defined.
#[local] Instance demo_order : RangeOrder := canonical_order.

(** A gate with a true and a false branch. *)
Definition gate_flow : FlowInfo :=
  demo_flow [demo_node "gate" ConditionNode; demo_node "yes" AgentNode; demo_node "no" AgentNode]
    [demo_edge "gate" "yes" (Some true); demo_edge "gate" "no" (Some false)].

(** Two nodes that wait for each other. *)
Definition cycle_flow : FlowInfo :=
  demo_flow [demo_node "a" AgentNode; demo_node "b" AgentNode]
    [demo_edge "a" "b" None; demo_edge "b" "a" None].

Example gate_run :
  option_map (fun o => (r_Status (o_run o), elements (jm_skipped (o_jm o)), o_world o))
    (Execute (NewJobMaster demo_cfg) demo_run gate_flow 0) = Some (RunCompleted, ["no"], 2).
Proof. vm_compute. reflexivity. Qed.

Example Execute_outcome_witness :
  exists o, Execute (NewJobMaster demo_cfg) demo_run gate_flow 0 = Some o /\
    match r_Status (o_run o) with
    | RunCompleted => "no" ∈ jm_completed (o_jm o) ∪ jm_skipped (o_jm o)
    | RunFailed => exists n, n ∈ jm_failed (o_jm o)
    | _ => True
    end.
Proof.
  destruct (Execute_loop_some (NewJobMaster demo_cfg) demo_run gate_flow 0) as [o Ho].
  exists o. split; [exact Ho|].
  pose proof (Execute_outcome (NewJobMaster demo_cfg) demo_run gate_flow 0 o Ho) as Hout.
  cbv zeta in Hout. destruct (r_Status (o_run o)); try exact I.
  - apply (Hout "no"). right. right. by left.
  - destruct Hout as (n & Hn & _). by exists n.
Defined.

Definition line_flow : FlowInfo :=
  demo_flow [demo_node "b" AgentNode; demo_node "a" AgentNode] [demo_edge "a" "b" None].

Example line_run :
  option_map (fun o => dispatched (o_world o))
    (Execute (NewJobMaster demo_cfg) demo_run line_flow (0, [] : list ExecutionPlan))
  = Some ["a"; "b"].
Proof. vm_compute. reflexivity. Qed.

Example Execute_dispatch_order_witness :
  exists o, Execute (NewJobMaster demo_cfg) demo_run line_flow (0, [] : list ExecutionPlan) = Some o /\
            dispatched (o_world o) = ["a"; "b"] /\ NoDup (dispatched (o_world o)).
Proof.
  destruct (Execute_loop_some (NewJobMaster demo_cfg) demo_run line_flow
              (0, [] : list ExecutionPlan)) as [o Ho].
  exists o. split; [exact Ho|]. split.
  - pose proof line_run as Hrun. rewrite Ho in Hrun. injection Hrun. done.
  - refine (proj1 (Execute_dispatch_order demo_env demo_cfg demo_run line_flow 0 o _ Ho)).
    apply NoDup_ListNoDup. simpl. repeat constructor; simpl; intuition congruence.
Defined.

Example Execute_acyclic_completes_witness :
  exists o, Execute (NewJobMaster demo_cfg) demo_run gate_flow 0 = Some o /\ o_err o = None /\
    r_Status (o_run o) = RunCompleted.
Proof.
  apply (Execute_acyclic_completes _ _ gate_flow (fun n => if String.eqb n "gate" then 0 else 1)).
  intros e He. simpl in He.
  repeat (apply elem_of_cons in He as [->|He]; [split; [set_solver|simpl; lia]|]).
  by apply elem_of_nil in He.
Defined.

Example Execute_stuck_running_witness :
  exists o, Execute (NewJobMaster demo_cfg) demo_run cycle_flow 0 = Some o /\ o_err o = None /\
    r_Status (o_run o) = RunRunning /\ settled (o_jm o) "a" = false.
Proof.
  apply (Execute_stuck_running demo_cfg demo_run cycle_flow 0 ["a"; "b"] "a").
  - apply NoDup_ListNoDup. simpl. repeat constructor; simpl; intuition congruence.
  - intros e He. simpl in He. repeat (apply elem_of_cons in He as [->|He]; [done|]).
    by apply elem_of_nil in He.
  - intros n Hn. split; [simpl; set_solver|].
    repeat (apply elem_of_cons in Hn as [->|Hn]); [| |by apply elem_of_nil in Hn].
    + exists (demo_edge "b" "a" None). simpl. set_solver.
    + exists (demo_edge "a" "b" None). simpl. set_solver.
  - by left.
Defined.

Definition gate_state : JobMaster * nat := (execute_init (NewJobMaster demo_cfg) demo_run gate_flow 0).2.

Example condition_skips_children_witness :
  "no" ∈ jm_skipped (run_node "gate" gate_state).1 <->
  "no" ∈ jm_skipped gate_state.1 \/
  ("no" ∈ Children gate_state.1 "gate" /\
   GetChildCondition gate_state.1 "gate" "no" = Some false).
Proof.
  exact (proj2 (condition_skips_children "gate" gate_state.1 gate_state.2 (S gate_state.2)
    (new_plan gate_flow "run" 0 (demo_node "gate" ConditionNode)) _
    (Ok {| tr_Output := Some [("result", VBool true)]; tr_Error := "" |})
    eq_refl eq_refl eq_refl) "no").
Defined.
