(* ===== verification/Executors.v ===== *)
(** * Task executors

    [pkg/core/pkg/engine/executor]: what a task manager does with a plan, by
    task type.  The LLM, the agent and memory stores, the knowledge search,
    the tools and the approval store are the interface [ExecEnv] over a
    world [W]. *)

From S2P Require Export Eval Json Schema.
From Stdlib Require Import Ascii.

Local Open Scope string_scope.

(** ** Interface *)

(** Errors the code drops are dropped here: a failed [GetMemory] reads as no
    memory.  [env_json_err] is the text of [json.Unmarshal]'s error on an
    input it refuses. *)
Class ExecEnv (W : Type) := {
  env_get_agent : string -> string -> W -> res (option AgentInfo) * W;
  env_generate : string -> string -> string -> f64 -> Z -> W -> res string * W;
  env_get_memory : string -> string -> W -> option MemoryInfo * W;
  env_upsert_memory : MemoryInfo -> W -> W;
  env_search_knowledge : string -> string -> Z -> W -> res (list KnowledgeEntry) * W;
  env_call_tool : string -> string -> gomap -> W -> res (option gomap) * W;
  env_create_approval : ApprovalInfo -> W -> res string * W;
  env_json_err : string -> string;
}.

(** A call that returns, or panics. *)
Inductive call (A : Type) : Type :=
| Ret (a : A)
| Panic (msg : string).
Arguments Ret {A} a.
Arguments Panic {A} msg.

(** [TaskExecutor.Execute(ctx, plan, scope)]: a result (never [nil] without an
    error) or an error. *)
Definition TaskExecutor (W : Type) : Type :=
  ExecutionPlan -> scope_t -> W -> call (res TaskResult) * W.

Definition ok_result (out : option gomap) : res TaskResult :=
  Ok {| tr_Output := out; tr_Error := "" |}.

(** ** Helpers *)

Definition nl : string := newline.

Definition formatPlanInput (p : ExecutionPlan) : string :=
  match p_Input p with
  | None => "null"
  | Some m => if json_ok (VMap m) then Marshal (VMap m) else ""
  end.

Definition truncate (s : string) (maxLen : nat) : string :=
  if Nat.leb (String.length s) maxLen then s else stake maxLen s +:+ "...".

(** [extractJSON]. *)
Definition extractJSON (s : string) : string :=
  let s := TrimSpace (TrimSuffix (TrimPrefix (TrimPrefix s "```json") "```") "```") in
  match IndexByte s "{", LastIndexByte s "}" with
  | Some start, Some e =>
      if Nat.leb e start then s else stake (e + 1 - start) (sdrop start s)
  | _, _ => s
  end.

(** [fmtFrac]: the digits of a fraction without trailing zeros. *)
Fixpoint fmt_frac (prec : nat) (v : Z) (print : bool) (acc : string) : string * Z :=
  match prec with
  | O => (if print then "." +:+ acc else acc, v)
  | S prec =>
      let digit := Z.rem v 10 in
      let print := print || negb (digit =? 0)%Z in
      fmt_frac prec (Z.quot v 10) print (if print then Itoa digit +:+ acc else acc)
  end.

(** [time.Duration.String]. *)
Definition Duration_String (d : Z) : string :=
  let u := Z.abs d in
  let sign := if (d <? 0)%Z then "-" else "" in
  if (u =? 0)%Z then "0s"
  else if (u <? 1000)%Z then sign +:+ Itoa u +:+ "ns"
  else if (u <? 1000000)%Z then
    let (f, v) := fmt_frac 3 u false "" in
    sign +:+ Itoa v +:+ f +:+ String "194" (String "181" "") +:+ "s"
  else if (u <? 1000000000)%Z then
    let (f, v) := fmt_frac 6 u false "" in sign +:+ Itoa v +:+ f +:+ "ms"
  else
    let (f, v) := fmt_frac 9 u false "" in
    let secs := Z.rem v 60 in
    let mins := Z.quot v 60 in
    let hours := Z.quot mins 60 in
    sign +:+
    (if (0 <? mins)%Z then
       (if (0 <? hours)%Z then Itoa hours +:+ "h" else "") +:+ Itoa (Z.rem mins 60) +:+ "m"
     else "") +:+ Itoa secs +:+ f +:+ "s".

Example Duration_String_ex :
  map Duration_String [86400000000000; 1500000000; 90000000000; 1500000; 0]%Z =
  ["24h0m0s"; "1.5s"; "1m30s"; "1.5ms"; "0s"].
Proof. reflexivity. Qed.

(** ** Condition, committee, join, noop and the stubs *)

Section Pure.
Context {W : Type}.

(** The scope of a condition: the slot worker's, and on top level the maps of
    ["input"] under names it does not have. *)
Definition merged_scope (scope : scope_t) : scope_t :=
  match mget "input" scope with
  | Some inputScope =>
      fold_left
        (fun merged kv =>
           match kv.2 with
           | VMap mv => if mhas kv.1 merged then merged else mset kv.1 mv merged
           | _ => merged
           end) inputScope scope
  | None => scope
  end.

Definition ConditionExecute : TaskExecutor W := fun plan scope w =>
  let expr := s_Expression (p_NodeSpec plan) in
  let expr := if String.eqb expr "" then "${input.result == true}" else expr in
  (Ret (ok_result (Some [("result", VBool (EvalCondition expr (merged_scope scope)))])), w).

(** A vote that approves: a map whose ["decision"] is [true]. *)
Definition approves (v : any) : bool :=
  match v with
  | VMap m => match mlookup "decision" m with VBool b => b | _ => false end
  | _ => false
  end.

Definition approve_count (votes : list any) : Z :=
  Z.of_nat (length (List.filter approves votes)).

Definition decide_votes (decisionType : string) (approveCount totalCount : Z) : bool :=
  if String.eqb decisionType "majority" then (Z.quot totalCount 2 <? approveCount)%Z
  else if String.eqb decisionType "unanimous" then (approveCount =? totalCount)%Z
  else if String.eqb decisionType "any" then (1 <=? approveCount)%Z
  else if String.eqb decisionType "majority_strict" then
    (Z.quot (totalCount * 2) 3 <=? approveCount)%Z
  else (Z.quot totalCount 2 <? approveCount)%Z.

Definition input_list (k : string) (plan : ExecutionPlan) : list any :=
  match mlookup k (default [] (p_Input plan)) with VList l => l | _ => [] end.

Definition CommitteeExecute : TaskExecutor W := fun plan scope w =>
  let decisionType :=
    match mlookup "type" (default [] (s_Strategy (p_NodeSpec plan))) with
    | VStr t => t
    | _ => "majority"
    end in
  let votes := input_list "votes" plan in
  let approveCount := approve_count votes in
  let totalCount := Z.of_nat (length votes) in
  let approved := decide_votes decisionType approveCount totalCount in
  let confidence :=
    if (0 <? totalCount)%Z then f64_div (f64_of_Z approveCount) (f64_of_Z totalCount)
    else S754_zero false in
  (Ret (ok_result (Some [("decision", VBool approved); ("confidence", VFloat confidence);
                         ("approve", VInt approveCount); ("total", VInt totalCount);
                         ("strategy", VStr decisionType)])), w).

Definition JoinExecute : TaskExecutor W := fun plan scope w =>
  let results := input_list "results" plan in
  (Ret (ok_result (Some [("results", VList results);
                         ("count", VInt (Z.of_nat (length results)))])), w).

Definition NoopExecute : TaskExecutor W := fun plan scope w =>
  (Ret (ok_result (Some (mputs (default [] (p_Input plan)) [("result", VBool true)]))), w).

Definition SkillExecute : TaskExecutor W := fun plan scope w =>
  (Ret (ok_result (Some [("status", VStr "dispatched");
                         ("skill", VStr (s_Skill (p_NodeSpec plan)))])), w).

Definition SubflowExecute : TaskExecutor W := fun plan scope w =>
  (Ret (ok_result (Some [("status", VStr "dispatched")])), w).

Definition MapExecute : TaskExecutor W := fun plan scope w =>
  (Ret (ok_result (Some [("status", VStr "dispatched")])), w).
End Pure.

(** ** Tools and humans *)

Section Effects.
Context {W : Type} `{ExecEnv W}.

Definition ToolExecute : TaskExecutor W := fun plan scope w =>
  let input := default [] (p_Input plan) in
  let toolName := match mlookup "action" input with VStr a => a | _ => "call" end in
  let inputCopy := List.filter (fun kv => negb (String.eqb kv.1 "action")) input in
  let (r, w) := env_call_tool (s_Tool (p_NodeSpec plan)) toolName inputCopy w in
  (Ret (match r with
        | Err e => Err e
        | Ok out => ok_result out
        end), w).

Definition resolveAction (action : string) : string :=
  if String.eqb action "continue" || String.eqb action "abort" || String.eqb action "skip"
  then action else "continue".

Definition day : Z := 86400000000000.

Definition HumanExecute : TaskExecutor W := fun plan scope w =>
  let cfg := s_Approval (p_NodeSpec plan) in
  let timeout := match cfg with
                 | Some c => if (0 <? hac_Timeout c)%Z then hac_Timeout c else day
                 | None => day
                 end in
  let approval :=
    {| ap_ID := ""; ap_TaskRunID := p_TaskID plan; ap_AgentFlowRunID := "";
       ap_Token := ""; ap_Status := "PENDING"; ap_Approved := None; ap_Comment := ""; ap_Timeout := timeout;
       ap_ExpiresAt := None; ap_ResolvedAt := None |} in
  let (r, w) := env_create_approval approval w in
  match r with
  | Err e => (Ret (Err ("create human approval: " +:+ e)), w)
  | Ok token =>
      let onApprove := match cfg with Some c => hac_OnApprove c | None => "continue" end in
      let onReject := match cfg with Some c => hac_OnReject c | None => "continue" end in
      (Ret (ok_result (Some [("approval_token", VStr token);
                             ("timeout", VStr (Duration_String timeout));
                             ("status", VStr "WAITING_HUMAN");
                             ("on_approve", VStr (resolveAction onApprove));
                             ("on_reject", VStr (resolveAction onReject))])), w)
  end.

(** ** Supervisor *)

Definition json_block (schema : gomap) : string :=
  nl +:+ nl +:+ "You MUST output a valid JSON object matching this schema:" +:+ nl +:+
  "```json" +:+ nl +:+ (if json_ok (VMap schema) then MarshalIndent "" (VMap schema) else "") +:+
  nl +:+ "```" +:+ nl +:+ "Output ONLY the JSON, no other text.".

(** The prompt of a plan under an instruction and an output schema. *)
Definition with_instruction (instruction prompt : string) : string :=
  if String.eqb instruction "" then prompt else instruction +:+ nl +:+ nl +:+ prompt.
Definition with_schema (schema : option gomap) (prompt : string) : string :=
  match schema with Some s => prompt +:+ json_block s | None => prompt end.

Definition first_nonempty (a b : string) : string := if String.eqb a "" then b else a.
Definition first_some {A} (a b : option A) : option A := match a with Some _ => a | None => b end.

(** [fmt.Sprintf("%v", []string)] *)
Definition print_strings (l : list string) : string := "[" +:+ Join l " " +:+ "]".

Definition allowed_action (cfg : option SupervisorConfig) (action : string) : bool :=
  match cfg with
  | Some c =>
      match sc_AllowedActions c with
      | [] => true
      | l => existsb (String.eqb action) l
      end
  | None => true
  end.

(** What the supervisor makes of the LLM's answer.  [json.Unmarshal] of
    [null] leaves a [nil] map, and assigning into it panics. *)
Definition supervisor_decide (cfg : option SupervisorConfig) (resp : string)
    : call (res TaskResult) :=
  let jsonStr := extractJSON resp in
  match UnmarshalObject jsonStr with
  | None =>
      Ret (Err ("supervisor output invalid JSON: " +:+ env_json_err jsonStr +:+ " (raw: " +:+
                stake 200 resp +:+ ")"))
  | Some decision =>
      let action := match mlookup "action" (default [] decision) with VStr a => a | _ => "" end in
      let fixed :=
        if String.eqb action "" then
          match decision with
          | None => None
          | Some m => Some ("continue", Some (mset "action" (VStr "continue") m))
          end
        else Some (action, decision) in
      match fixed with
      | None => Panic "assignment to entry in nil map"
      | Some (action, decision) =>
          if allowed_action cfg action then Ret (ok_result decision)
          else Ret (Err ("supervisor action " +:+ Quote action +:+ " not in allowed_actions: " +:+
                         print_strings (match cfg with Some c => sc_AllowedActions c | None => [] end)))
      end
  end.

Definition supervisor_temperature : f64 := f64_of_dec false 2 (-1).

Definition SupervisorExecute (namespace : string) : TaskExecutor W := fun plan scope w =>
  let spec := p_NodeSpec plan in
  let (ar, w) := env_get_agent namespace (s_Agent spec) w in
  match ar with
  | Err e => (Ret (Err ("supervisor agent not found " +:+ Quote (s_Agent spec) +:+ ": " +:+ e)), w)
  | Ok None => (Ret (Err ("supervisor agent not found: " +:+ s_Agent spec)), w)
  | Ok (Some agent) =>
      let instruction := first_nonempty (s_Instruction spec) (a_Instruction agent) in
      let schema := first_some (s_OutputSchema spec) (a_OutputSchema agent) in
      let prompt := with_schema schema (with_instruction instruction (formatPlanInput plan)) in
      let (resp, w) := env_generate (a_Soul agent) prompt (a_Model agent)
                         supervisor_temperature (a_MaxTokens agent) w in
      match resp with
      | Err e => (Ret (Err ("supervisor LLM call failed: " +:+ e)), w)
      | Ok resp => (supervisor_decide (s_SupervisorConfig spec) resp, w)
      end
  end.

(** ** Agent *)

Record AgentExecutor := {
  ae_namespace : string;
  ae_memStore : bool;
  ae_knowledge : bool;
  ae_maxRetries : nat;
}.

Definition NewAgentExecutor (namespace : string) : AgentExecutor :=
  {| ae_namespace := namespace; ae_memStore := false; ae_knowledge := false; ae_maxRetries := 3 |}.

Definition formatKnowledgeContext (entries : list KnowledgeEntry) : string :=
  "[Relevant cross-workflow knowledge:]" +:+ nl +:+
  Join (map (fun e => "- " +:+ k_Title e +:+ ": " +:+ truncate (k_Content e) 300) entries) nl.

Definition upsertMemory (e : AgentExecutor) (flowID nodeID prompt response : string)
    (attempt : Z) (errMsg : string) (w : W) : W :=
  if ae_memStore e then
    let (existing, w) := env_get_memory flowID nodeID w in
    let entry := truncate ("attempt=" +:+ Itoa attempt +:+ " prompt=" +:+ truncate prompt 300 +:+
                           " response=" +:+ truncate response 300) 2000 in
    let entry := if String.eqb errMsg "" then entry else entry +:+ " error=" +:+ errMsg in
    let content := match existing with
                   | Some m => m_Content m +:+ nl +:+ entry
                   | None => entry
                   end in
    env_upsert_memory
      {| m_FlowID := flowID; m_NodeID := nodeID; m_Content := content;
         m_Metadata := [("retry_count", VInt attempt); ("last_error", VStr errMsg)] |} w
  else w.

(** The settings of the retry loop that do not change. *)
Record AgentCall := {
  ac_flow : string;
  ac_node : string;
  ac_soul : string;
  ac_model : string;
  ac_temperature : f64;
  ac_max_tokens : Z;
  ac_schema : option gomap;
}.

(** The attempts: [budget] are still allowed, [attempt] is the next one's
    number, [lastErr] the previous one's error. *)
Fixpoint agent_loop (e : AgentExecutor) (c : AgentCall) (budget : nat) (attempt : Z)
    (userPrompt lastErr : string) (w : W) : res TaskResult * W :=
  match budget with
  | O => (Err lastErr, w)
  | S budget =>
      let remember prompt resp err w :=
        upsertMemory e (ac_flow c) (ac_node c) prompt resp attempt err w in
      let more := negb (Nat.eqb budget 0) in
      let (r, w) := env_generate (ac_soul c) userPrompt (ac_model c) (ac_temperature c)
                      (ac_max_tokens c) w in
      match r with
      | Err err =>
          let lastErr := "LLM call failed: " +:+ err in
          agent_loop e c budget (attempt + 1) userPrompt lastErr (remember userPrompt "" lastErr w)
      | Ok resp =>
          let jsonStr := extractJSON resp in
          match UnmarshalObject jsonStr with
          | None =>
              let err := env_json_err jsonStr in
              let lastErr := "agent output JSON: " +:+ err in
              let w := remember userPrompt resp lastErr w in
              let userPrompt :=
                if more then
                  userPrompt +:+ nl +:+ nl +:+
                  "Your previous output was not valid JSON. Output ONLY a valid JSON object. Error: "
                  +:+ err
                else userPrompt in
              agent_loop e c budget (attempt + 1) userPrompt lastErr w
          | Some out =>
              let valid := match ac_schema c with
                           | Some s => ValidateJSONSchema (Some s) (VMap (default [] out))
                           | None => Ok tt
                           end in
              match valid with
              | Err err =>
                  let lastErr := "schema validation failed: " +:+ err in
                  let w := remember userPrompt resp lastErr w in
                  let userPrompt :=
                    if more then
                      userPrompt +:+ nl +:+ nl +:+ "Output did not match schema. Fix it. Schema: " +:+
                      Sprint (VMap (default [] (ac_schema c))) +:+ nl +:+ "Error: " +:+ err
                    else userPrompt in
                  agent_loop e c budget (attempt + 1) userPrompt lastErr w
              | Ok _ => (ok_result out, remember userPrompt resp "" w)
              end
          end
      end
  end.

Definition default_temperature : f64 := f64_of_dec false 3 (-1).

Definition AgentExecute (e : AgentExecutor) : TaskExecutor W := fun plan scope w =>
  let spec := p_NodeSpec plan in
  let (ar, w) := env_get_agent (ae_namespace e) (s_Agent spec) w in
  match ar with
  | Err err => (Ret (Err ("agent not found " +:+ Quote (s_Agent spec) +:+ ": " +:+ err)), w)
  | Ok None => (Ret (Err ("agent not found: " +:+ s_Agent spec)), w)
  | Ok (Some agent) =>
      let flow := p_AgentFlowDefinitionID plan in
      let node := p_NodeID plan in
      let (prior, w) := if ae_memStore e then env_get_memory flow node w else (None, w) in
      let prompt :=
        formatPlanInput plan +:+
        match prior with
        | Some m =>
            if String.eqb (m_Content m) "" then ""
            else nl +:+ nl +:+ "[Prior executions of this node (flow=" +:+ flow +:+ ", node=" +:+
                 node +:+ "):]" +:+ nl +:+ truncate (m_Content m) 500
        | None => ""
        end in
      let instruction := first_nonempty (s_Instruction spec) (a_Instruction agent) in
      let prompt := with_instruction instruction prompt in
      let (soul, w) :=
        if ae_knowledge e then
          let query := truncate (instruction +:+ " " +:+ prompt) 512 in
          let (r, w) := env_search_knowledge (ae_namespace e) query 5 w in
          match r with
          | Ok ((_ :: _) as entries) =>
              (formatKnowledgeContext entries +:+ nl +:+ nl +:+ a_Soul agent, w)
          | _ => (a_Soul agent, w)
          end
        else (a_Soul agent, w) in
      let schema := first_some (s_OutputSchema spec) (a_OutputSchema agent) in
      let c := {| ac_flow := flow; ac_node := node; ac_soul := soul; ac_model := a_Model agent;
                  ac_temperature := default default_temperature (a_Temperature agent);
                  ac_max_tokens := a_MaxTokens agent; ac_schema := schema |} in
      let (r, w) := agent_loop e c (S (ae_maxRetries e)) 0 (with_schema schema prompt) "" w in
      (Ret r, w)
  end.

(** ** Router *)

(** [TaskExecutorRouter]: the executors by task type. *)
Definition Router : Type := list (TaskType * TaskExecutor W).

Fixpoint router_get (t : TaskType) (r : Router) : option (TaskExecutor W) :=
  match r with
  | [] => None
  | (t', e) :: r' => if decide (t = t') then Some e else router_get t r'
  end.

(** [Register]: a later registration replaces an earlier one. *)
Definition Register (t : TaskType) (e : TaskExecutor W) (r : Router) : Router := (t, e) :: r.

Definition TaskType_string (t : TaskType) : string :=
  match t with
  | TaskAgent => "agent" | TaskCondition => "condition" | TaskTool => "tool"
  | TaskSkill => "skill" | TaskSupervisor => "supervisor" | TaskSubflow => "subflow"
  | TaskCommittee => "committee" | TaskMap => "map" | TaskJoin => "join"
  | TaskHuman => "human" | TaskSandbox => "sandbox" | TaskNoop => "noop"
  end.

Definition RouterExecute (r : Router) : TaskExecutor W := fun plan scope w =>
  match router_get (p_TaskType plan) r with
  | None =>
      (Ret (Err ("no executor registered for task type " +:+
                 Quote (TaskType_string (p_TaskType plan)))), w)
  | Some e => e plan scope w
  end.
End Effects.
Arguments Router : clear implicits.
