(* ===== verification/ExecutorsFacts.v ===== *)
(** * Correctness of the task executors

    The output of an agent conforms to its schema after boundedly many LLM
    calls, a supervisor's action is an allowed one, a committee decides by
    its votes, the JSON in an LLM's answer is found, and what a condition
    node sees. *)

From S2P Require Export Executors JobMasterRuns.
From Stdlib Require Import Ascii.

Local Open Scope string_scope.

#[local] Arguments ValidateJSONSchema : simpl never.
#[local] Arguments UnmarshalObject : simpl never.
#[local] Arguments extractJSON : simpl never.

(** ** Counting the calls of the LLM *)

#[export] Instance counted {W} (E : ExecEnv W) : ExecEnv (W * nat) := {|
  env_get_agent ns a w := let (r, w') := env_get_agent ns a w.1 in (r, (w', w.2));
  env_generate s p m t k w := let (r, w') := env_generate s p m t k w.1 in (r, (w', S w.2));
  env_get_memory f n w := let (r, w') := env_get_memory f n w.1 in (r, (w', w.2));
  env_upsert_memory m w := (env_upsert_memory m w.1, w.2);
  env_search_knowledge ns q k w :=
    let (r, w') := env_search_knowledge ns q k w.1 in (r, (w', w.2));
  env_call_tool a b i w := let (r, w') := env_call_tool a b i w.1 in (r, (w', w.2));
  env_create_approval a w := let (r, w') := env_create_approval a w.1 in (r, (w', w.2));
  env_json_err := env_json_err (W := W);
|}.

Section Agent.
Context {W : Type} (E : ExecEnv W).

Lemma upsertMemory_count e f n p r a err (w : W * nat) :
  (upsertMemory e f n p r a err w).2 = w.2.
Proof.
  unfold upsertMemory. destruct (ae_memStore e); [|done]. simpl.
  by destruct (env_get_memory f n w.1).
Qed.

(** The output of an agent: an object that conforms to the schema. *)
Definition agent_output (schema : option gomap) (t : TaskResult) : Prop :=
  tr_Error t = "" /\
  forall fields, schema = Some fields -> conforms fields (VMap (default [] (tr_Output t))).

Lemma agent_loop_sound e c budget : forall attempt prompt lastErr (w : W * nat) r w',
  agent_loop e c budget attempt prompt lastErr w = (r, w') ->
  w'.2 <= w.2 + budget /\ forall t, r = Ok t -> agent_output (ac_schema c) t.
Proof.
  induction budget as [|budget IH]; intros attempt prompt lastErr w r w'; cbn [agent_loop].
  { intros [= <- <-]. split; [lia|done]. }
  simpl. destruct (env_generate _ _ _ _ _ w.1) as [g w1].
  assert (forall a p l p0 r0 err0, agent_loop e c budget a p l
            (upsertMemory e (ac_flow c) (ac_node c) p0 r0 attempt err0 (w1, S w.2)) = (r, w') ->
          w'.2 <= w.2 + S budget /\ forall t, r = Ok t -> agent_output (ac_schema c) t) as Hrec.
  { intros a p l p0 r0 err0 Hl. apply IH in Hl as [Hc Ht]. rewrite upsertMemory_count in Hc.
    simpl in Hc. split; [lia|done]. }
  destruct g as [resp|err]; [|apply Hrec].
  destruct (UnmarshalObject (extractJSON resp)) as [out|]; [|apply Hrec].
  destruct (ac_schema c) as [s|] eqn:Es.
  - destruct (ValidateJSONSchema (Some s) (VMap (default [] out))) as [[]|err] eqn:Ev; [|apply Hrec].
    intros [= <- <-]. rewrite upsertMemory_count. simpl. split; [lia|].
    intros t [= <-]. split; [done|]. intros fields [= <-].
    apply ValidateJSONSchema_conforms. cbn [tr_Output]. by rewrite Ev.
  - intros [= <- <-]. rewrite upsertMemory_count. simpl. split; [lia|].
    intros t [= <-]. by split.
Qed.

#[local] Arguments agent_loop : simpl never.

(** C19: an agent node never panics, asks the LLM at most [maxRetries + 1]
    times, and when it succeeds its output conforms to the node's output
    schema, or to the agent's when the node has none. *)
Theorem AgentExecute_valid e plan scope (w : W) r w' n :
  AgentExecute e plan scope (w, 0) = (r, (w', n)) ->
  n <= S (ae_maxRetries e) /\ (forall msg, r <> Panic msg) /\
  forall t, r = Ret (Ok t) ->
    exists agent,
      (env_get_agent (ae_namespace e) (s_Agent (p_NodeSpec plan)) w).1 = Ok (Some agent) /\
      agent_output (first_some (s_OutputSchema (p_NodeSpec plan)) (a_OutputSchema agent)) t.
Proof.
  unfold AgentExecute. simpl.
  destruct (env_get_agent _ _ w) as [[[agent|]|err] w1]; simpl;
    try (intros [= <- <- <-]; by repeat split; [lia|..]).
  set (m := if ae_memStore e then _ else _).
  assert (m.2.2 = 0) as Hm
    by (unfold m; destruct (ae_memStore e); [by destruct (env_get_memory _ _ w1)|done]).
  clearbody m. destruct m as [prior w2]. simpl in Hm.
  match goal with |- context [match ?p with pair _ _ => _ end] => set (k := p) end.
  assert (k.2.2 = 0) as Hk.
  { unfold k. destruct (ae_knowledge e); [|done].
    destruct (env_search_knowledge _ _ _ w2.1) as [[[|x l]|?] w3]; done. }
  clearbody k. destruct k as [soul w3]. simpl in Hk.
  match goal with |- context [agent_loop e ?c ?b ?a ?p ?l w3] =>
    destruct (agent_loop e c b a p l w3) as [r0 w4] eqn:El end.
  intros [= <- ->]. apply agent_loop_sound in El as [Hc Ht]. simpl in Hc, Ht.
  split; [lia|]. split; [done|]. intros t [= ->]. exists agent. split; [done|]. by apply Ht.
Qed.
End Agent.

(** ** Supervisor *)

Section Supervisor.
Context {W : Type} `{ExecEnv W}.

(** The supervisor's answer: a result is the object in the LLM's answer
    (with ["continue"] for a missing action), its action is not empty and is
    an allowed one when the node restricts them; an error means that the
    answer holds no JSON object or a forbidden action; the JSON value [null]
    makes the executor panic. *)
Theorem supervisor_decide_spec cfg resp :
  match supervisor_decide (W := W) cfg resp with
  | Ret (Ok t) =>
      exists m a, tr_Error t = "" /\ tr_Output t = Some m /\ mlookup "action" m = VStr a /\ a <> "" /\
        (forall c, cfg = Some c -> sc_AllowedActions c = [] \/ a ∈ sc_AllowedActions c) /\
        exists m0, UnmarshalObject (extractJSON resp) = Some (Some m0) /\
          (m = m0 \/ m = mset "action" (VStr "continue") m0)
  | Ret (Err _) =>
      UnmarshalObject (extractJSON resp) = None \/
      exists m0 c, UnmarshalObject (extractJSON resp) = Some (Some m0) /\ cfg = Some c /\
        ~ (match mlookup "action" m0 with VStr (String x y) => String x y | _ => "continue" end)
            ∈ sc_AllowedActions c
  | Panic _ => UnmarshalObject (extractJSON resp) = Some None
  end.
Proof.
  assert (forall a, allowed_action cfg a = true ->
            forall c, cfg = Some c -> sc_AllowedActions c = [] \/ a ∈ sc_AllowedActions c) as Hok.
  { intros a Ha c ->. unfold allowed_action in Ha.
    destruct (sc_AllowedActions c) as [|x l]; [by left|right].
    apply existsb_exists in Ha as (y & Hy & ->%String.eqb_eq). by apply list_elem_of_In. }
  assert (forall a, allowed_action cfg a = false ->
            exists c, cfg = Some c /\ ~ a ∈ sc_AllowedActions c) as Hno.
  { intros a Ha. destruct cfg as [c|]; [|done]. exists c. split; [done|].
    unfold allowed_action in Ha. destruct (sc_AllowedActions c) as [|x l] eqn:El; [done|]. intros Hin.
    apply not_true_iff_false in Ha. apply Ha, existsb_exists.
    exists a. rewrite String.eqb_refl. split; [by apply list_elem_of_In|done]. }
  unfold supervisor_decide. cbv zeta.
  destruct (UnmarshalObject (extractJSON resp)) as [[m|]|]; [|done|by left].
  change (default [] (Some m)) with m. set (a := match mlookup "action" m with VStr a => a | _ => "" end).
  destruct (String.eqb_spec a "") as [Ea|Ea].
  - assert (match mlookup "action" m with VStr (String x y) => String x y | _ => "continue" end
            = "continue") as Hc.
    { subst a. destruct (mlookup "action" m) as [| | | |s| |]; try done. simpl in Ea. by rewrite Ea. }
    cbv iota beta. destruct (allowed_action cfg "continue") eqn:Eal; cbv iota beta.
    + exists (mset "action" (VStr "continue") m), "continue".
      unfold mlookup. rewrite mget_mset_eq. split_and!; [done|done|done|done|by apply Hok|].
      exists m. split; [done|by right].
    + right. destruct (Hno _ Eal) as (c & -> & Hn). exists m, c. by rewrite Hc.
  - assert (exists x y, mlookup "action" m = VStr (String x y) /\ a = String x y) as (x & y & Hm & Hxy).
    { subst a. destruct (mlookup "action" m) as [| | | |s| |]; try done.
      destruct s as [|x y]; [done|]. by exists x, y. }
    cbv iota beta. destruct (allowed_action cfg a) eqn:Eal; cbv iota beta.
    + exists m, a. rewrite Hm, Hxy. split_and!; [done|done|done|done| |].
      * rewrite <- Hxy. by apply Hok.
      * exists m. split; [done|by left].
    + right. destruct (Hno _ Eal) as (c & -> & Hn). exists m, c. rewrite Hm. by rewrite Hxy in Hn.
Qed.
End Supervisor.

(** ** Finding the JSON of an answer *)

(** [core] with text before it that has no opening brace and text after it
    that has no closing brace. *)
Definition framed (core s : string) : Prop :=
  exists pre post, s = pre +:+ core +:+ post /\ no_char "{" pre = true /\ no_char "}" post = true.

Lemma no_char_HasPrefix_split c pre core p :
  no_char c p = true -> HasPrefix (pre +:+ String c core) p = true -> HasPrefix pre p = true.
Proof.
  revert pre. induction p as [|x p IH]; intros pre Hp Hpre; [by destruct pre|].
  simpl in Hp. apply andb_true_iff in Hp as [Hx Hp]. destruct pre as [|y pre]; simpl in Hpre.
  - apply andb_true_iff in Hpre as [He _]. apply Ascii.eqb_eq in He. subst.
    by rewrite Ascii.eqb_refl in Hx.
  - apply andb_true_iff in Hpre as [He Hpre]. simpl. rewrite He. by apply IH.
Qed.

Lemma append_split (u p a q : string) :
  u +:+ p = a +:+ q ->
  (exists k, u = a +:+ k /\ q = k +:+ p) \/ (exists c k, a = u +:+ String c k /\ p = String c k +:+ q).
Proof.
  revert a. induction u as [|x u IH]; intros a Heq.
  - destruct a as [|c a]; [left; by exists ""|right; by exists c, a].
  - destruct a as [|c a]; simpl in Heq; [left; exists (String x u); by subst|].
    injection Heq as -> Heq. destruct (IH a Heq) as [(k & -> & ->)|(c' & k & -> & ->)];
      [left; by exists k|right; by exists c', k].
Qed.

Lemma LastIndexByte_none c t : no_char c t = true -> LastIndexByte t c = None.
Proof.
  induction t as [|x t IH]; intros Ht; simpl; [done|].
  simpl in Ht. apply andb_true_iff in Ht as [Hx%negb_true_iff Ht]. by rewrite Hx, IH.
Qed.

Lemma LastIndexByte_no_char c p t :
  no_char c t = true -> LastIndexByte (p +:+ String c t) c = Some (String.length p).
Proof.
  intros Ht. induction p as [|x p IH]; simpl; [|by rewrite IH].
  by rewrite LastIndexByte_none, Ascii.eqb_refl.
Qed.

Lemma TrimRight_app a q :
  TrimRight (a +:+ q) = if String.eqb (TrimRight q) "" then TrimRight a else a +:+ TrimRight q.
Proof.
  induction a as [|c a IH]; simpl.
  - by destruct (String.eqb_spec (TrimRight q) "") as [->|].
  - rewrite IH. destruct (String.eqb (TrimRight q) "") eqn:E; [done|].
    apply String.eqb_neq in E. destruct (a +:+ TrimRight q) eqn:Ea; [|done].
    exfalso. apply E. by destruct a, (TrimRight q).
Qed.

Lemma TrimRight_no_char c s : no_char c s = true -> no_char c (TrimRight s) = true.
Proof.
  induction s as [|x s IH]; intros Hs; simpl; [done|].
  simpl in Hs. apply andb_true_iff in Hs as [Hx Hs]. specialize (IH Hs).
  destruct (TrimRight s); simpl in *; [destruct (is_space x); simpl; by rewrite ?Hx|by rewrite Hx, IH].
Qed.

Section Framed.
Context (body : string).
Let core : string := "{" +:+ body +:+ "}".

Lemma framed_TrimPrefix s p :
  no_char "{" p = true -> framed core s -> framed core (TrimPrefix s p).
Proof.
  intros Hp (pre & post & -> & Hpre & Hpost). unfold TrimPrefix.
  destruct (HasPrefix (pre +:+ core +:+ post) p) eqn:E; [|by exists pre, post].
  apply (no_char_HasPrefix_split "{" pre) in E as [pre' ->]%HasPrefix_inv; [|done].
  rewrite append_assoc, sdrop_append. rewrite no_char_append in Hpre.
  apply andb_true_iff in Hpre as [_ Hpre]. by exists pre', post.
Qed.

Lemma framed_TrimSuffix s p :
  no_char "}" p = true -> framed core s -> framed core (TrimSuffix s p).
Proof.
  intros Hp (pre & post & -> & Hpre & Hpost). unfold TrimSuffix.
  destruct (HasSuffix (pre +:+ core +:+ post) p) eqn:E; [|by exists pre, post].
  apply HasSuffix_inv in E as [u Hu]. rewrite Hu, length_append.
  replace (String.length u + String.length p - String.length p) with (String.length u) by lia.
  rewrite stake_append.
  assert (u +:+ p = (pre +:+ "{" +:+ body) +:+ String "}" post) as Heq.
  { rewrite <- Hu. unfold core. rewrite !append_assoc. done. }
  change (String "}" post) with ("}" +:+ post) in Heq. rewrite <- append_assoc in Heq.
  apply append_split in Heq as [(k & -> & ->)|(c & k & Ha & ->)].
  - rewrite no_char_append in Hpost. apply andb_true_iff in Hpost as [Hk _].
    exists pre, k. unfold core. by rewrite !append_assoc.
  - exfalso. change (String c k +:+ post) with ((String c k) +:+ post) in Hp.
    rewrite no_char_append in Hp. apply andb_true_iff in Hp as [Hp _].
    assert (HasSuffix (u +:+ String c k) "}" = true) as Hs by (rewrite <- Ha; apply HasSuffix_append).
    apply HasSuffix_last in Hs; [|done]. apply HasSuffix_inv in Hs as [v Hv].
    rewrite Hv, no_char_append in Hp. by apply andb_true_iff in Hp as [_ Hp].
Qed.

Lemma framed_TrimSpace s : framed core s -> framed core (TrimSpace s).
Proof.
  intros (pre & post & -> & Hpre & Hpost). unfold TrimSpace.
  assert (exists pre', TrimLeft (pre +:+ core +:+ post) = pre' +:+ core +:+ post /\
                       no_char "{" pre' = true) as (pre' & -> & Hpre').
  { clear Hpost. induction pre as [|c pre IH]; [by exists ""|].
    simpl in Hpre. apply andb_true_iff in Hpre as [Hc Hpre].
    change (String c pre +:+ core +:+ post) with (String c (pre +:+ core +:+ post)).
    cbn [TrimLeft]. destruct (is_space c); [by apply IH|].
    exists (String c pre). simpl. by rewrite Hc. }
  exists pre', (TrimRight post). split; [|split; [done|by apply TrimRight_no_char]].
  rewrite <- append_assoc, TrimRight_app, append_assoc.
  destruct (String.eqb_spec (TrimRight post) "") as [->|]; [|done].
  rewrite append_nil_r. unfold core.
  rewrite <- !append_assoc. by apply TrimRight_append.
Qed.

(** Whatever an LLM writes around it (a preamble without an opening
    brace, a code fence, a closing remark without a closing brace), the
    object in its answer is found: from the first opening to the last closing
    brace. *)
Theorem extractJSON_framed pre post :
  no_char "{" pre = true -> no_char "}" post = true ->
  extractJSON (pre +:+ "{" +:+ body +:+ "}" +:+ post) = "{" +:+ body +:+ "}".
Proof.
  intros Hpre Hpost.
  assert (framed core (pre +:+ "{" +:+ body +:+ "}" +:+ post)) as Hf.
  { exists pre, post. unfold core. by rewrite !append_assoc. }
  unfold extractJSON.
  apply (framed_TrimPrefix _ "```json" eq_refl), (framed_TrimPrefix _ "```" eq_refl),
    (framed_TrimSuffix _ "```" eq_refl), framed_TrimSpace in Hf.
  destruct Hf as (a & b & -> & Ha & Hb). fold core.
  assert (a +:+ core +:+ b = a +:+ String "{" (body +:+ "}" +:+ b)) as E1
    by (unfold core; by rewrite !append_assoc).
  assert (a +:+ core +:+ b = (a +:+ "{" +:+ body) +:+ String "}" b) as E2
    by (unfold core; rewrite !append_assoc; done).
  rewrite E1 at 1. rewrite IndexByte_append by done.
  rewrite E2 at 1. rewrite LastIndexByte_no_char by done.
  rewrite !length_append. change (String.length "{") with 1.
  rewrite (proj2 (Nat.leb_gt _ _)) by lia.
  replace (String.length a + (1 + String.length body) + 1 - String.length a)
    with (String.length core) by (unfold core; rewrite !length_append; simpl; lia).
  by rewrite sdrop_append, stake_append.
Qed.
End Framed.

Example extractJSON_framed_witness :
  extractJSON ("```json" +:+ nl +:+ "{x: {y}}" +:+ nl +:+ "``` done") = "{x: {y}}".
Proof.
  exact (extractJSON_framed "x: {y}" ("```json" +:+ nl) (nl +:+ "``` done") eq_refl eq_refl).
Defined.

(** ** Committee *)

(** What a strategy asks of the votes. *)
Definition committee_spec (strategy : string) (votes : list any) : Prop :=
  if String.eqb strategy "unanimous" then forall v, v ∈ votes -> approves v = true
  else if String.eqb strategy "any" then exists v, v ∈ votes /\ approves v = true
  else if String.eqb strategy "majority_strict" then
    2 * length votes < 3 * (length (List.filter approves votes) + 1)
  else length votes < 2 * length (List.filter approves votes).

Lemma filter_all {A} (f : A -> bool) l :
  length (List.filter f l) = length l <-> forall x, x ∈ l -> f x = true.
Proof.
  induction l as [|x l IH]; simpl.
  - split; [|done]. intros _ x Hx. by apply elem_of_nil in Hx.
  - setoid_rewrite elem_of_cons. pose proof (filter_length_le f l).
    destruct (f x) eqn:E; simpl; [|split; [lia|intros Hall; rewrite Hall in E by (by left); done]].
    split; [intros Hl y [->|Hy]; [done|apply IH; [lia|done]]|].
    intros Hall. f_equal. apply IH. auto.
Qed.

Lemma filter_some {A} (f : A -> bool) l :
  1 <= length (List.filter f l) <-> exists x, x ∈ l /\ f x = true.
Proof.
  induction l as [|x l IH]; simpl.
  - split; [lia|]. intros (x & Hx & _). by apply elem_of_nil in Hx.
  - setoid_rewrite elem_of_cons. destruct (f x) eqn:E; simpl.
    + split; [intros _; exists x; auto|lia].
    + rewrite IH. split; [intros (y & ? & ?); eauto|intros (y & [->|?] & ?); [congruence|eauto]].
Qed.

Lemma decide_votes_spec strategy votes :
  decide_votes strategy (approve_count votes) (Z.of_nat (length votes)) = true <->
  committee_spec strategy votes.
Proof.
  unfold decide_votes, approve_count, committee_spec.
  set (a := length (List.filter approves votes)). set (n := length votes).
  assert ((Z.quot (Z.of_nat n) 2 <? Z.of_nat a)%Z = true <-> n < 2 * a) as Hmaj.
  { rewrite Z.quot_div_nonneg by lia. rewrite Z.ltb_lt. split; intros Hx.
    - pose proof (Z.mod_pos_bound (Z.of_nat n) 2). pose proof (Z.div_mod (Z.of_nat n) 2). lia.
    - apply Z.div_lt_upper_bound; lia. }
  destruct (String.eqb_spec strategy "majority") as [->|_]; [exact Hmaj|].
  destruct (String.eqb_spec strategy "unanimous") as [->|_].
  { rewrite Z.eqb_eq, <- filter_all. fold a n. lia. }
  destruct (String.eqb_spec strategy "any") as [->|_].
  { rewrite Z.leb_le, <- filter_some. fold a. lia. }
  destruct (String.eqb_spec strategy "majority_strict") as [->|_]; [|exact Hmaj].
  rewrite Z.quot_div_nonneg by lia. rewrite Z.leb_le. split; intros Hx.
  - pose proof (Z.mod_pos_bound (Z.of_nat n * 2) 3). pose proof (Z.div_mod (Z.of_nat n * 2) 3). lia.
  - apply Z.lt_succ_r, Z.div_lt_upper_bound; lia.
Qed.

(** A committee's decision, by its strategy (majority when none is
    named): majority means more than half of the votes approve, unanimous all
    of them, any at least one, and majority_strict at least two thirds rounded
    down; a vote that is no map with a true ["decision"] does not approve.
    The output also reports the exact counts. *)
Theorem CommitteeExecute_decision {W} plan scope (w : W) :
  exists out,
    CommitteeExecute plan scope w = (Ret (Ok {| tr_Output := Some out; tr_Error := "" |}), w) /\
    let votes := input_list "votes" plan in
    let strategy := match mlookup "type" (default [] (s_Strategy (p_NodeSpec plan))) with
                    | VStr t => t | _ => "majority" end in
    (mlookup "decision" out = VBool true <-> committee_spec strategy votes) /\
    mlookup "approve" out = VInt (Z.of_nat (length (List.filter approves votes))) /\
    mlookup "total" out = VInt (Z.of_nat (length votes)).
Proof.
  unfold CommitteeExecute, ok_result. eexists. split; [reflexivity|]. cbv zeta.
  split; [|done]. rewrite <- decide_votes_spec.
  change (VBool (decide_votes (match mlookup "type" (default [] (s_Strategy (p_NodeSpec plan))) with
                    | VStr t => t | _ => "majority" end) (approve_count (input_list "votes" plan))
                  (Z.of_nat (length (input_list "votes" plan)))) = VBool true <->
          decide_votes (match mlookup "type" (default [] (s_Strategy (p_NodeSpec plan))) with
                    | VStr t => t | _ => "majority" end) (approve_count (input_list "votes" plan))
                  (Z.of_nat (length (input_list "votes" plan))) = true).
  destruct (decide_votes _ _ _); split; congruence.
Qed.

(** ** Conditions *)

Lemma merged_scope_lookup input k :
  NoDup input.*1 ->
  mget k (merged_scope [("input", input)]) =
  if String.eqb k "input" then Some input
  else match mget k input with Some (VMap m) => Some m | _ => None end.
Proof.
  intros Hnd. unfold merged_scope. simpl.
  assert (forall acc : scope_t,
    mget k (fold_left (fun merged kv => match kv.2 with
              | VMap mv => if mhas kv.1 merged then merged else mset kv.1 mv merged
              | _ => merged end) input acc) =
    match mget k acc with
    | Some m => Some m
    | None => match mget k input with Some (VMap m) => Some m | _ => None end
    end) as Hf.
  { induction input as [|[k0 v0] input IH]; intros acc; simpl; [by destruct (mget k acc)|].
    apply NoDup_cons in Hnd as [Hni Hnd]. rewrite IH by done. simpl.
    assert (k = k0 -> mget k input = None) as Hk.
    { intros ->. by apply mget_None. }
    destruct (String.eqb_spec k k0) as [->|Hne].
    - rewrite Hk by done. destruct v0; try (by destruct (mget k0 acc)).
      unfold mhas. destruct (mget k0 acc) as [m'|] eqn:Em; [by rewrite Em|].
      by rewrite mget_mset_eq.
    - destruct v0; try done. unfold mhas. destruct (mget k0 acc); [done|].
      by rewrite mget_mset_ne. }
  rewrite Hf. simpl. by destruct (String.eqb_spec k "input").
Qed.

(** A condition node evaluates its expression (by default, whether
    [input.result] is true) in a scope that holds its input under ["input"]
    and, under its own name, every map of the input (the outputs of the nodes
    it refers to). *)
Theorem ConditionExecute_scope {W} plan input (w : W) :
  NoDup input.*1 ->
  exists scope,
    ConditionExecute plan [("input", input)] w =
      (Ret (Ok {| tr_Output := Some [("result", VBool (EvalCondition
         (if String.eqb (s_Expression (p_NodeSpec plan)) "" then "${input.result == true}"
          else s_Expression (p_NodeSpec plan)) scope))];
         tr_Error := "" |}), w) /\
    forall k, mget k scope =
      if String.eqb k "input" then Some input
      else match mget k input with Some (VMap m) => Some m | _ => None end.
Proof.
  intros Hnd. exists (merged_scope [("input", input)]). split; [done|].
  intros k. by apply merged_scope_lookup.
Qed.

(** ** Human gates *)

(** A human node does not hold the run: once the approval record exists
    the executor returns a result without error at once, so that the
    orchestrator marks the node completed, whatever the person decides later;
    only a failing approval store fails it. *)
Theorem HumanExecute_no_pause `{ExecEnv W} plan scope (w : W) token w' n jm :
  (forall a, env_create_approval a w = (Ok token, w')) ->
  exists t, HumanExecute plan scope w = (Ret (Ok t), w') /\
    mlookup "status" (default [] (tr_Output t)) = VStr "WAITING_HUMAN" /\
    mlookup "approval_token" (default [] (tr_Output t)) = VStr token /\
    n ∈ jm_completed (handle_result n plan (Ok t) jm).
Proof.
  intros Ha. unfold HumanExecute. rewrite Ha. eexists. split; [reflexivity|].
  split; [done|]. split; [done|].
  match goal with |- _ ∈ jm_completed (handle_result _ _ ?r _) =>
    destruct (handle_result_spec n plan r jm) as (_ & _ & Hr) end.
  simpl result_error in Hr. destruct Hr as (_ & -> & _). set_solver.
Qed.

(** ** A concrete environment *)

(** One agent, whose schema asks for ["ok"]; the LLM answers in prose first
    and with the object when asked again. *)
Definition demo_schema : gomap :=
  [("type", VStr "object"); ("required", VList [VStr "ok"])].
Definition demo_agent : AgentInfo :=
  {| a_Name := "agent"; a_Model := "m"; a_Soul := ""; a_Instruction := "answer";
     a_OutputSchema := Some demo_schema; a_Temperature := None; a_MaxTokens := 0 |}.
Definition demo_answer : string := "Sure: {" +:+ Quote "ok" +:+ ": true}".

#[local] Instance demo_exec : ExecEnv unit := {|
  env_get_agent _ _ w := (Ok (Some demo_agent), w);
  env_generate _ p _ _ _ w :=
    (Ok (if Contains p "not valid JSON" then demo_answer else "Sure!"), w);
  env_get_memory _ _ w := (None, w);
  env_upsert_memory _ w := w;
  env_search_knowledge _ _ _ w := (Ok [], w);
  env_call_tool _ _ _ w := (Ok None, w);
  env_create_approval _ w := (Ok "token", w);
  env_json_err _ := "invalid character";
|}.

Definition demo_plan (k : NodeType) : ExecutionPlan :=
  with_input (new_plan gate_flow "run" 0 (demo_node "n" k)) None [].

Definition demo_agent_run :=
  AgentExecute (NewAgentExecutor "ns") (demo_plan AgentNode) [] (tt, 0).

Example AgentExecute_valid_witness :
  demo_agent_run = (Ret (Ok {| tr_Output := Some [("ok", VBool true)]; tr_Error := "" |}), (tt, 2)) /\
  2 <= 4.
Proof.
  assert (demo_agent_run =
            (Ret (Ok {| tr_Output := Some [("ok", VBool true)]; tr_Error := "" |}), (tt, 2))) as Hrun
    by (vm_compute; reflexivity).
  split; [exact Hrun|].
  exact (proj1 (AgentExecute_valid demo_exec (NewAgentExecutor "ns") (demo_plan AgentNode) [] tt
                  _ tt 2 Hrun)).
Defined.

Example ConditionExecute_scope_witness :
  exists scope,
    ConditionExecute (demo_plan ConditionNode) [("input", [("A", VMap [("score", VInt 1)])])] tt =
      (Ret (Ok {| tr_Output := Some [("result",
         VBool (EvalCondition "${input.result == true}" scope))]; tr_Error := "" |}), tt) /\
    forall k, mget k scope =
      if String.eqb k "input" then Some [("A", VMap [("score", VInt 1)])]
      else match mget k [("A", VMap [("score", VInt 1)])] with Some (VMap m) => Some m | _ => None end.
Proof.
  apply (ConditionExecute_scope (demo_plan ConditionNode) [("A", VMap [("score", VInt 1)])] tt).
  apply NoDup_singleton.
Defined.

Example HumanExecute_no_pause_witness :
  exists t, HumanExecute (demo_plan HumanNode) [] tt = (Ret (Ok t), tt) /\
    mlookup "status" (default [] (tr_Output t)) = VStr "WAITING_HUMAN" /\
    mlookup "approval_token" (default [] (tr_Output t)) = VStr "token" /\
    "n" ∈ jm_completed (handle_result "n" (demo_plan HumanNode) (Ok t) gate_state.1).
Proof.
  apply (HumanExecute_no_pause (demo_plan HumanNode) [] tt "token" tt "n" gate_state.1).
  intros a. reflexivity.
Defined.
