(* ===== verification/Messager.v ===== *)
(** * Messaging

    [pkg/messager/pkg]: the topic builders of [messager.go] and the in-memory
    messager of [standalone.go], with its wildcards and shared
    subscriptions.  A handler is a value of a type [H]; publishing returns the
    handlers it calls, in the order it calls them. *)

From S2P Require Export GoStr Path.
From Stdlib Require Import Ascii.

Local Open Scope string_scope.

(** ** Topics *)

Definition TopicPrefix : string := "flowgent/v1".

(** [flowgent/v1/{ns}/flows/{flow}/runs/{run}/{a}/{b}] *)
Definition run_topic (ns flow run a b : string) : string :=
  TopicPrefix +:+ "/" +:+ ns +:+ "/flows/" +:+ flow +:+ "/runs/" +:+ run +:+ "/" +:+ a +:+ "/" +:+ b.
Definition shared_topic (group a b : string) : string :=
  "$share/" +:+ group +:+ "/" +:+ run_topic "+" "+" "+" a b.

Definition ExecPlansTopic (ns flow run : string) := run_topic ns flow run "exec" "plans".
Definition SharedExecPlans := shared_topic "tm-pool" "exec" "plans".
Definition ExecResultsTopic (ns flow run : string) := run_topic ns flow run "exec" "results".
Definition SandboxTriggerTopic (ns flow run : string) := run_topic ns flow run "sandbox" "trigger".
Definition SharedSandboxTrigger := shared_topic "sandbox-pool" "sandbox" "trigger".
Definition SandboxResultTopic (ns flow run : string) := run_topic ns flow run "sandbox" "result".
Definition NotifyEventTopic (ns flow run : string) := run_topic ns flow run "notify" "event".
Definition SharedNotifyEvent := shared_topic "notify-pool" "notify" "event".
Definition NotifyResultTopic (ns flow run : string) := run_topic ns flow run "notify" "result".
Definition NotifyQueueWildcard := shared_topic "notify-pool" "notify" "event".
Definition SignRequestTopic (ns flow run : string) := run_topic ns flow run "sign" "request".
Definition SharedSignRequest := shared_topic "wallet-pool" "sign" "request".
Definition SignResponseTopic (ns flow run : string) := run_topic ns flow run "sign" "response".
Definition SignResponseSubscription (ns flow run : string) :=
  TopicPrefix +:+ "/" +:+ ns +:+ "/flows/" +:+ flow +:+ "/runs/" +:+ run +:+ "/sign/response".
Definition HeartbeatTopic (tmID : string) := TopicPrefix +:+ "/heartbeat/" +:+ tmID.
Definition HeartbeatWildcard := TopicPrefix +:+ "/heartbeat/+".
Definition CtrlJMCreateTopic (ns flow : string) :=
  TopicPrefix +:+ "/" +:+ ns +:+ "/flows/" +:+ flow +:+ "/ctrl/jm/create".
Definition NotifyPodWSTopic (pod ws : string) :=
  TopicPrefix +:+ "/notify/pod/" +:+ pod +:+ "/ws/" +:+ ws.
Definition NotifyPodWSWildcard (pod : string) := TopicPrefix +:+ "/notify/pod/" +:+ pod +:+ "/ws/+".
Definition CtrlFlowUpdatedTopic (ns flow : string) :=
  TopicPrefix +:+ "/" +:+ ns +:+ "/flows/" +:+ flow +:+ "/ctrl/flow/updated".
Definition CtrlFlowDeletedTopic (ns flow : string) :=
  TopicPrefix +:+ "/" +:+ ns +:+ "/flows/" +:+ flow +:+ "/ctrl/flow/deleted".
Definition CtrlRunCreatedTopic (ns flow run : string) :=
  TopicPrefix +:+ "/" +:+ ns +:+ "/flows/" +:+ flow +:+ "/runs/" +:+ run +:+ "/ctrl/run/created".
Definition CtrlRunStatusTopic (ns flow run : string) :=
  TopicPrefix +:+ "/" +:+ ns +:+ "/flows/" +:+ flow +:+ "/runs/" +:+ run +:+ "/ctrl/run/status".
Definition SharedCtrlEvents := "$share/ctrl-pool/" +:+ TopicPrefix +:+ "/+/flows/+/ctrl/#".

(** ** Matching *)

Definition splitTopic (topic : string) : list string :=
  if String.eqb topic "" then [] else split_slash topic.

Definition isSharedTopic (topic : string) : bool :=
  Nat.ltb 7 (String.length topic) && String.eqb (stake 7 topic) "$share/".

(** [$share/{group}/rest] becomes [rest]. *)
Definition stripSharePrefix (topic : string) : string :=
  if isSharedTopic topic then
    match IndexByte (sdrop 7 topic) "/" with
    | Some i => sdrop (7 + i + 1) topic
    | None => topic
    end
  else topic.

Fixpoint match_parts (subParts pubParts : list string) : bool :=
  match subParts, pubParts with
  | [], [] => true
  | sp :: ss, pp :: ps => (String.eqb sp "+" || String.eqb sp pp) && match_parts ss ps
  | _, _ => false
  end.

Definition topicMatch (subPattern : string) (pubParts : list string) : bool :=
  match_parts (splitTopic subPattern) pubParts.

(** ** The in-memory messager *)

Section Local.
Context {H : Type} `{RangeOrder}.

Record LocalMessager := {
  lm_subs : gmap string (list H);
  lm_next : gmap string nat;
}.

Definition NewLocalMessager : LocalMessager := {| lm_subs := ∅; lm_next := ∅ |}.

Definition Subscribe (q : LocalMessager) (topic : string) (h : H) : LocalMessager :=
  {| lm_subs := <[topic := (default [] (lm_subs q !! topic) ++ [h])%list]> (lm_subs q);
     lm_next := lm_next q |}.

(** The handlers of one subscription: all of them, or the next one in turn of
    a shared one. *)
Definition take_handlers (sub : string) (hs : list H) (next : gmap string nat)
    : list H * gmap string nat :=
  match hs with
  | [] => ([], next)
  | _ =>
      if isSharedTopic sub then
        let idx := default 0 (next !! sub) mod length hs in
        (match hs !! idx with Some h => [h] | None => [] end, <[sub := S idx]> next)
      else (hs, next)
  end.

Definition match_step (topicParts : list string) (acc : list H * gmap string nat)
    (e : string * list H) : list H * gmap string nat :=
  let (handlers, next) := acc in
  let (sub, hs) := e in
  if topicMatch (stripSharePrefix sub) topicParts then
    let (l, next) := take_handlers sub hs next in ((handlers ++ l)%list, next)
  else (handlers, next).

(** [matchHandlersLocked]: ranges over the subscriptions. *)
Definition matchHandlersLocked (q : LocalMessager) (topic : string) : list H * LocalMessager :=
  let (handlers, next) :=
    fold_left (match_step (splitTopic topic)) (range_of (lm_subs q)) ([], lm_next q) in
  (handlers, {| lm_subs := lm_subs q; lm_next := next |}).

Definition Publish (q : LocalMessager) (topic : string) : list H * LocalMessager :=
  matchHandlersLocked q topic.
End Local.
Arguments LocalMessager : clear implicits.

(** ** Lemmas: topics as lists of levels *)

Lemma splitTopic_run ns flow run a b :
  level ns = true -> level flow = true -> level run = true -> level a = true -> level b = true ->
  splitTopic (run_topic ns flow run a b) =
  ["flowgent"; "v1"; ns; "flows"; flow; "runs"; run; a; b].
Proof.
  intros Hns Hf Hr Ha Hb. unfold run_topic, TopicPrefix.
  change (splitTopic ("flowgent/v1" +:+ ?t)) with (split_slash ("flowgent" +:+ "/" +:+ "v1" +:+ t)).
  change ("/flows/" +:+ ?t) with ("/" +:+ "flows" +:+ "/" +:+ t).
  change ("/runs/" +:+ ?t) with ("/" +:+ "runs" +:+ "/" +:+ t).
  rewrite !split_slash_append, split_slash_level by done. done.
Qed.

Lemma stripSharePrefix_shared group rest :
  level group = true -> rest <> "" ->
  stripSharePrefix ("$share/" +:+ group +:+ "/" +:+ rest) = rest.
Proof.
  intros Hg Hr. unfold stripSharePrefix, isSharedTopic.
  assert (Nat.ltb 7 (String.length ("$share/" +:+ group +:+ "/" +:+ rest)) = true) as ->.
  { rewrite !length_append. apply Nat.ltb_lt. simpl. destruct rest; [done|simpl; lia]. }
  change (stake 7 ("$share/" +:+ group +:+ "/" +:+ rest)) with (stake (String.length "$share/") ("$share/" +:+ (group +:+ "/" +:+ rest))).
  rewrite stake_append, String.eqb_refl. cbn [andb].
  change (sdrop 7 ("$share/" +:+ group +:+ "/" +:+ rest)) with (group +:+ "/" +:+ rest).
  assert (IndexByte (group +:+ "/" +:+ rest) "/" = Some (String.length group)) as ->.
  { clear Hr. unfold level in Hg. induction group as [|c group IH]; [done|].
    simpl in Hg. apply andb_true_iff in Hg as [Hc Hg]. apply negb_true_iff in Hc.
    change (String c group +:+ "/" +:+ rest) with (String c (group +:+ "/" +:+ rest)).
    cbn [IndexByte]. by rewrite Hc, IH. }
  replace ("$share/" +:+ group +:+ "/" +:+ rest) with (("$share/" +:+ group +:+ "/") +:+ rest)
    by (by rewrite !append_assoc).
  replace (7 + String.length group + 1) with (String.length ("$share/" +:+ group +:+ "/"))
    by (rewrite !length_append; simpl; lia).
  apply sdrop_append.
Qed.

(** The work queues: the group that shares a queue and the last two levels of
    its topic. *)
Definition queues : list (string * string * string) :=
  [("tm-pool", "exec", "plans"); ("sandbox-pool", "sandbox", "trigger");
   ("notify-pool", "notify", "event"); ("wallet-pool", "sign", "request")].

Definition queue_sub (c : string * string * string) : string := shared_topic c.1.1 c.1.2 c.2.
Definition queue_topic (c : string * string * string) (ns flow run : string) : string :=
  run_topic ns flow run c.1.2 c.2.

Lemma shared_match group a b ns flow run a' b' :
  level group = true -> level a = true -> level b = true -> a <> "+" -> b <> "+" ->
  level ns = true -> level flow = true -> level run = true -> level a' = true -> level b' = true ->
  topicMatch (stripSharePrefix (shared_topic group a b)) (splitTopic (run_topic ns flow run a' b'))
  = String.eqb a a' && String.eqb b b'.
Proof.
  intros. unfold shared_topic. rewrite stripSharePrefix_shared by done.
  unfold topicMatch. rewrite !splitTopic_run by done. cbn [match_parts].
  rewrite !String.eqb_refl. cbn [orb andb].
  destruct (String.eqb_spec a "+"), (String.eqb_spec b "+"); try done.
  by rewrite andb_true_r.
Qed.

(** In the in-memory messager the work queues do not mix: a message
    published for a run (ids without a slash) is matched by the shared
    subscription of its own queue and by that of no other queue; results and
    responses reach no work queue.  The controllers' shared subscription,
    whose pattern ends in a multi-level wildcard, matches no control topic. *)
Theorem queue_routing ns flow run :
  level ns = true -> level flow = true -> level run = true ->
  (forall c c', c ∈ queues -> c' ∈ queues ->
     topicMatch (stripSharePrefix (queue_sub c)) (splitTopic (queue_topic c' ns flow run)) = true
     <-> c = c') /\
  (forall c t, c ∈ queues ->
     t ∈ [ExecResultsTopic ns flow run; SandboxResultTopic ns flow run;
          NotifyResultTopic ns flow run; SignResponseTopic ns flow run] ->
     topicMatch (stripSharePrefix (queue_sub c)) (splitTopic t) = false) /\
  (forall t, t ∈ [CtrlFlowUpdatedTopic ns flow; CtrlFlowDeletedTopic ns flow;
                  CtrlRunCreatedTopic ns flow run; CtrlRunStatusTopic ns flow run] ->
     topicMatch (stripSharePrefix SharedCtrlEvents) (splitTopic t) = false).
Proof.
  intros Hns Hf Hr. split_and!.
  - intros c c' Hc Hc'. unfold queues in *.
    repeat (apply elem_of_cons in Hc as [->|Hc]); [..|by apply elem_of_nil in Hc];
      repeat (apply elem_of_cons in Hc' as [->|Hc']); try (by apply elem_of_nil in Hc');
      unfold queue_sub, queue_topic; cbn [fst snd]; rewrite shared_match by done;
      vm_compute; split; congruence.
  - intros c t Hc Ht. unfold queues in *.
    repeat (apply elem_of_cons in Hc as [->|Hc]); [..|by apply elem_of_nil in Hc];
      repeat (apply elem_of_cons in Ht as [->|Ht]); try (by apply elem_of_nil in Ht);
      unfold queue_sub, ExecResultsTopic, SandboxResultTopic, NotifyResultTopic, SignResponseTopic;
      cbn [fst snd]; rewrite shared_match by done; reflexivity.
  - assert (stripSharePrefix SharedCtrlEvents = TopicPrefix +:+ "/+/flows/+/ctrl/#") as -> by done.
    assert (forall p q, splitTopic (TopicPrefix +:+ "/" +:+ ns +:+ "/flows/" +:+ flow +:+ "/" +:+ p +:+ "/" +:+ q)
              = "flowgent" :: "v1" :: ns :: "flows" :: flow :: split_slash (p +:+ "/" +:+ q)) as Hsp.
    { intros p q. unfold TopicPrefix.
      change (splitTopic ("flowgent/v1" +:+ ?t)) with (split_slash ("flowgent" +:+ "/" +:+ "v1" +:+ t)).
      change ("/flows/" +:+ ?t) with ("/" +:+ "flows" +:+ "/" +:+ t).
      do 5 rewrite split_slash_append by done. done. }
    intros t Ht. repeat (apply elem_of_cons in Ht as [->|Ht]); try (by apply elem_of_nil in Ht).
    + unfold CtrlFlowUpdatedTopic.
      change ("/ctrl/flow/updated") with ("/" +:+ "ctrl" +:+ "/" +:+ "flow/updated").
      unfold topicMatch. rewrite Hsp. cbn. by rewrite ?andb_false_r.
    + unfold CtrlFlowDeletedTopic.
      change ("/ctrl/flow/deleted") with ("/" +:+ "ctrl" +:+ "/" +:+ "flow/deleted").
      unfold topicMatch. rewrite Hsp. cbn. by rewrite ?andb_false_r.
    + unfold CtrlRunCreatedTopic.
      change ("/runs/" +:+ run +:+ "/ctrl/run/created")
        with ("/" +:+ "runs" +:+ "/" +:+ (run +:+ "/" +:+ "ctrl/run/created")).
      unfold topicMatch. rewrite Hsp, split_slash_append, split_slash_append by done.
      cbn. by rewrite ?andb_false_r.
    + unfold CtrlRunStatusTopic.
      change ("/runs/" +:+ run +:+ "/ctrl/run/status")
        with ("/" +:+ "runs" +:+ "/" +:+ (run +:+ "/" +:+ "ctrl/run/status")).
      unfold topicMatch. rewrite Hsp, split_slash_append, split_slash_append by done.
      cbn. by rewrite ?andb_false_r.
Qed.

Example queue_routing_witness :
  topicMatch (stripSharePrefix SharedExecPlans) (splitTopic (ExecPlansTopic "ns" "f" "r")) = true.
Proof.
  apply (proj1 (queue_routing "ns" "f" "r" eq_refl eq_refl eq_refl)
           ("tm-pool", "exec", "plans") ("tm-pool", "exec", "plans")); [by left|by left|reflexivity].
Defined.

(** ** Delivery *)

#[local] Arguments match_step : simpl never.

Section Delivery.
Context {H : Type} `{RangeOrder}.
Implicit Types (q : LocalMessager H).

(** What one subscription contributes to a publication: nothing when it does
    not match, its next handler in turn when it is shared, else all. *)
Definition contribution (next : gmap string nat) (topic : string) (e : string * list H) : list H :=
  if topicMatch (stripSharePrefix e.1) (splitTopic topic)
  then (take_handlers e.1 e.2 next).1 else [].

Definition next_after (next : gmap string nat) (topic : string) (e : string * list H) : gmap string nat :=
  if topicMatch (stripSharePrefix e.1) (splitTopic topic)
  then (take_handlers e.1 e.2 next).2 else next.

Lemma next_after_other next topic e k :
  k <> e.1 -> next_after next topic e !! k = next !! k.
Proof.
  intros Hk. unfold next_after, take_handlers. destruct e as [sub hs]. simpl in *.
  destruct (topicMatch _ _); [|done]. destruct hs as [|h hs]; [done|].
  destruct (isSharedTopic sub); [|done]. simpl. by rewrite lookup_insert_ne.
Qed.

Lemma contribution_ext next next' topic e :
  next !! e.1 = next' !! e.1 -> contribution next topic e = contribution next' topic e.
Proof.
  intros Heq. unfold contribution, take_handlers. destruct e as [sub hs]. simpl in *.
  destruct (topicMatch _ _); [|done]. destruct hs as [|h hs]; [done|].
  destruct (isSharedTopic sub); [|done]. by rewrite Heq.
Qed.

Lemma match_fold topic (es : list (string * list H)) : forall hs0 next,
  NoDup es.*1 ->
  let r := fold_left (match_step (splitTopic topic)) es (hs0, next) in
  r.1 = (hs0 ++ concat (map (contribution next topic) es))%list /\
  (forall k, ~ k ∈ es.*1 -> r.2 !! k = next !! k) /\
  (forall e, e ∈ es -> r.2 !! e.1 = next_after next topic e !! e.1).
Proof.
  induction es as [|e es IH]; intros hs0 next Hnd; simpl.
  - split; [by rewrite app_nil_r|]. split; [done|]. intros e He. by apply elem_of_nil in He.
  - apply NoDup_cons in Hnd as [Hni Hnd].
    assert (match_step (splitTopic topic) (hs0, next) e =
            ((hs0 ++ contribution next topic e)%list, next_after next topic e)) as ->.
    { unfold match_step, contribution, next_after. destruct e as [sub hs]. simpl.
      destruct (topicMatch _ _); [|by rewrite app_nil_r].
      by destruct (take_handlers sub hs next). }
    destruct (IH (hs0 ++ contribution next topic e)%list (next_after next topic e) Hnd)
      as (H1 & H2 & H3).
    assert (forall e', e' ∈ es -> e'.1 <> e.1) as Hne.
    { intros e' He' Heq. apply Hni. rewrite <- Heq. apply list_elem_of_fmap. by exists e'. }
    split; [|split].
    + rewrite H1, <- app_assoc. f_equal. f_equal.
      clear -Hne. induction es as [|e' es IH]; simpl; [done|]. f_equal.
      * apply contribution_ext, next_after_other. apply Hne. by left.
      * apply IH. intros; apply Hne. by right.
    + intros k Hk. rewrite H2 by set_solver. apply next_after_other. set_solver.
    + intros e' [->|He']%elem_of_cons; [by rewrite H2|].
      rewrite H3 by done. specialize (Hne e' He').
      unfold next_after at 1 3. unfold take_handlers. destruct e' as [sub hs]. simpl in *.
      destruct (topicMatch _ _); [|by apply next_after_other].
      destruct hs as [|h hs]; [by apply next_after_other|].
      destruct (isSharedTopic sub); [|by apply next_after_other]. simpl.
      rewrite !lookup_insert_eq. by rewrite next_after_other.
Qed.

(** [n] publications to the same topic: the handlers of each. *)
Fixpoint publish_n (n : nat) (q : LocalMessager H) (topic : string) : list (list H) * LocalMessager H :=
  match n with
  | O => ([], q)
  | S n => let (hs, q) := Publish q topic in
           let (l, q) := publish_n n q topic in (hs :: l, q)
  end.

Lemma Publish_subs q topic : lm_subs (Publish q topic).2 = lm_subs q.
Proof.
  unfold Publish, matchHandlersLocked. by destruct (fold_left _ _ _).
Qed.

Lemma Publish_next q topic sub hs :
  lm_subs q !! sub = Some hs -> hs <> [] -> isSharedTopic sub = true ->
  topicMatch (stripSharePrefix sub) (splitTopic topic) = true ->
  let idx := default 0 (lm_next q !! sub) mod length hs in
  default 0 (lm_next (Publish q topic).2 !! sub) = S idx /\
  exists h a b, hs !! idx = Some h /\ (Publish q topic).1 = (a ++ h :: b)%list.
Proof.
  intros Hs Hne Hsh Hm idx. unfold Publish, matchHandlersLocked.
  pose proof (match_fold topic (range_of (lm_subs q)) [] (lm_next q) (range_of_NoDup _)) as Hf.
  destruct (fold_left _ _ _) as [handlers next]. simpl in Hf |- *.
  destruct Hf as (-> & _ & Hnext). apply range_of_elem in Hs as Hin.
  pose proof (Hnext (sub, hs) Hin) as Hn. simpl in Hn. rewrite Hn.
  assert (exists h, hs !! idx = Some h) as [h Hh].
  { apply lookup_lt_is_Some. apply Nat.mod_upper_bound. by destruct hs. }
  assert (take_handlers sub hs (lm_next q) = ([h], <[sub := S idx]> (lm_next q))) as Ht.
  { unfold take_handlers. destruct hs as [|h0 hs]; [done|]. rewrite Hsh. fold idx. by rewrite Hh. }
  split.
  - unfold next_after. simpl. rewrite Hm, Ht. simpl. by rewrite lookup_insert_eq.
  - apply list_elem_of_split in Hin as (l1 & l2 & ->).
    rewrite map_app. simpl. rewrite concat_app. simpl.
    assert (contribution (lm_next q) topic (sub, hs) = [h]) as ->.
    { unfold contribution. simpl. by rewrite Hm, Ht. }
    exists h, (concat (map (contribution (lm_next q) topic) l1)),
      (concat (map (contribution (lm_next q) topic) l2)). done.
Qed.

(** Publications to a topic take the handlers of a matching shared
    subscription in turn: from position [i], the [k]-th of them calls the
    handler at [(i + k) mod n] of its [n] handlers. *)
Theorem publish_round_robin q topic sub hs n k l :
  lm_subs q !! sub = Some hs -> hs <> [] -> isSharedTopic sub = true ->
  topicMatch (stripSharePrefix sub) (splitTopic topic) = true ->
  (publish_n n q topic).1 !! k = Some l ->
  exists h, hs !! ((default 0 (lm_next q !! sub) + k) mod length hs) = Some h /\ h ∈ l.
Proof.
  intros Hs Hne Hsh Hm. revert q k Hs. induction n as [|n IH]; intros q k Hs Hk; [done|].
  simpl in Hk. destruct (Publish_next q topic sub hs Hs Hne Hsh Hm) as (Hn & h & a & b & Hh & Hp).
  pose proof (Publish_subs q topic) as Hsub.
  destruct (Publish q topic) as [hs1 q1]. simpl in *. subst hs1.
  specialize (IH q1). destruct (publish_n n q1 topic) as [l1 q2]. simpl in *.
  destruct k as [|k]; simpl in Hk.
  - injection Hk as <-. exists h. rewrite Nat.add_0_r. split; [done|]. set_solver.
  - destruct (IH k) as (h' & Hh' & Hl'); [by rewrite Hsub|done|].
    exists h'. split; [|done]. rewrite Hn in Hh'.
    assert (length hs <> 0) by (by destruct hs).
    rewrite <- Nat.Div0.add_mod_idemp_l.
    by replace (default 0 (lm_next q !! sub) mod length hs + S k)
      with (S (default 0 (lm_next q !! sub) mod length hs) + k) by lia.
Qed.
End Delivery.

Definition two_workers : LocalMessager nat :=
  Subscribe (Subscribe NewLocalMessager SharedExecPlans 1) SharedExecPlans 2.

Example publish_round_robin_witness :
  exists h, [1; 2] !! ((0 + 2) mod 2) = Some h /\ h ∈ [1].
Proof.
  refine (publish_round_robin (H0 := canonical_order) two_workers (ExecPlansTopic "n" "f" "r")
            SharedExecPlans [1; 2] 3 2 [1] _ _ _ _ _);
    [vm_compute; reflexivity|discriminate|vm_compute; reflexivity..].
Defined.
