(* ===== verification/Seccomp.v ===== *)
(** * Seccomp filters of the sandbox

    [pkg/sandbox/pkg/seccomp]: the filter program of [bpf.go] on an
    interpreter of classic BPF, its construction from a network policy
    ([seccomp.go]), the hand-over to the child process ([exec.go]) and the
    verdict of the notifier ([notifier.go]).  Instructions hold 16-, 8-, 8-
    and 32-bit fields; bytes are integers below 256. *)

From S2P Require Export Entities Path.
From Stdlib Require Import Ascii.

Local Open Scope string_scope.
Local Open Scope Z_scope.

(** ** Instructions *)

(** [unix.SockFilter]. *)
Record SockFilter := { sf_Code : Z; sf_Jt : Z; sf_Jf : Z; sf_K : Z }.

Definition BPF_LD : Z := 0.
Definition BPF_W : Z := 0.
Definition BPF_ABS : Z := 32.
Definition BPF_JMP : Z := 5.
Definition BPF_JA : Z := 0.
Definition BPF_JEQ : Z := 16.
Definition BPF_K : Z := 0.
Definition BPF_RET : Z := 6.
Definition SECCOMP_RET_ERRNO : Z := 327680.
Definition SECCOMP_RET_USER_NOTIF : Z := 2143289344.
Definition SECCOMP_RET_ALLOW : Z := 2147418112.
Definition EPERM : Z := 1.

Definition sysSocket : Z := 41.
Definition sysConnect : Z := 42.
Definition sysSendto : Z := 44.
Definition sysSendmsg : Z := 46.
Definition sysSendmmsg : Z := 307.
Definition sysBpf : Z := 321.
Definition sysInitModule : Z := 175.
Definition sysKexecLoad : Z := 246.
Definition sysPerfEventOpen : Z := 298.

Definition offNr : Z := 0.
Definition offArg1 : Z := 24.
Definition sockTypeArg : Z := offArg1.
Definition nrSock : Z := 41.
Definition sysSockRaw : Z := 3.

Definition ld (offset : Z) : SockFilter :=
  {| sf_Code := Z.lor BPF_LD (Z.lor BPF_W BPF_ABS); sf_Jt := 0; sf_Jf := 0; sf_K := offset |}.
Definition jeq (value jt jf : Z) : SockFilter :=
  {| sf_Code := Z.lor BPF_JMP (Z.lor BPF_JEQ BPF_K); sf_Jt := jt; sf_Jf := jf; sf_K := value |}.
Definition ja (jumps : Z) : SockFilter :=
  {| sf_Code := Z.lor BPF_JMP BPF_JA; sf_Jt := 0; sf_Jf := 0; sf_K := jumps |}.
Definition ret (v : Z) : SockFilter :=
  {| sf_Code := Z.lor BPF_RET BPF_K; sf_Jt := 0; sf_Jf := 0; sf_K := v |}.
Definition retErrno (errno : Z) : SockFilter := ret (Z.lor SECCOMP_RET_ERRNO errno).
Definition retUserNotif : SockFilter := ret SECCOMP_RET_USER_NOTIF.
Definition retAllow : SockFilter := ret SECCOMP_RET_ALLOW.

(** ** The program *)

Definition loadNr : list SockFilter := [ld offNr].
Definition ldArg (offset : Z) : list SockFilter := [ld offset].
Definition jeqKill (nr : Z) : list SockFilter := [jeq nr 1 0; ja 1; retErrno EPERM].
Definition jeqNotif (nr : Z) : list SockFilter := [jeq nr 1 0; ja 1; retUserNotif].
Definition jeq2 (v : Z) : list SockFilter := [jeq v 1 0].

Definition use_notif (mode : string) : bool :=
  String.eqb mode "allowlist" || String.eqb mode "denylist".

Definition block_all (nrs : list Z) : list SockFilter :=
  concat (map (fun nr => loadNr ++ jeqKill nr)%list nrs).

Definition buildBPF (mode : string) : list SockFilter :=
  (block_all [sysBpf; sysInitModule; sysKexecLoad; sysPerfEventOpen] ++
   loadNr ++ jeq2 nrSock ++ [ja 5] ++
   ldArg sockTypeArg ++ jeqKill sysSockRaw ++ [retAllow] ++
   (if use_notif mode then loadNr ++ jeqNotif sysConnect
    else block_all [sysConnect; sysSendto; sysSendmsg; sysSendmmsg]) ++
   [retAllow])%list.

(** ** The kernel's interpreter

    The part of classic BPF the program uses: absolute 32-bit loads from the
    seccomp data, equality jumps, unconditional jumps and returns.  [None] is
    a program the kernel would not accept.  Jumps only go forward, so that the
    length of the program bounds the number of steps. *)

(** The 32-bit word of the seccomp data at an offset. *)
Definition seccomp_data : Type := Z -> Z.

Fixpoint bpf_run (fuel : nat) (prog : list SockFilter) (data : seccomp_data) (acc : Z)
    : option Z :=
  match fuel, prog with
  | S fuel, i :: rest =>
      let code := sf_Code i in
      if code =? 32 then bpf_run fuel rest data (data (sf_K i))
      else if code =? 21 then
        bpf_run fuel (drop (Z.to_nat (if acc =? sf_K i then sf_Jt i else sf_Jf i)) rest) data acc
      else if code =? 5 then bpf_run fuel (drop (Z.to_nat (sf_K i)) rest) data acc
      else if code =? 6 then Some (sf_K i)
      else None
  | _, _ => None
  end.

Definition bpf_exec (prog : list SockFilter) (data : seccomp_data) : option Z :=
  bpf_run (length prog) prog data 0.

(** ** Filters *)

Record ipPort := { ip_addr : list Z; ip_port : Z }.

#[export] Instance ipPort_eq_dec : EqDecision ipPort.
Proof. solve_decision. Defined.

Record Filter := {
  fl_fprog : list SockFilter;
  fl_allowlist : list ipPort;
  fl_denylist : list ipPort;
  fl_mode : string;
}.

(** The name server ([net.LookupIP]) and the URL parser of the runtime
    ([url.Parse]: scheme and host). *)
Class Resolver := {
  lookup_ip : string -> res (list (list Z));
  url_parse : string -> res (string * string);
}.

(** [net.SplitHostPort] *)
Definition addr_err {A} (addr why : string) : res A :=
  Err (if String.eqb addr "" then why else "address " +:+ addr +:+ ": " +:+ why).

Definition missing_port : string := "missing port in address".
Definition too_many_colons : string := "too many colons in address".

Definition has_byte (s : string) (c : ascii) : bool :=
  match IndexByte s c with Some _ => true | None => false end.

Definition split_brackets (hp host : string) (i j k : nat) : res (string * string) :=
  if has_byte (sdrop j hp) "[" then addr_err hp "unexpected '[' in address"
  else if has_byte (sdrop k hp) "]" then addr_err hp "unexpected ']' in address"
  else Ok (host, sdrop (i + 1) hp).

Definition SplitHostPort (hp : string) : res (string * string) :=
  match LastIndexByte hp ":" with
  | None => addr_err hp missing_port
  | Some i =>
      if HasPrefix hp "[" then
        match IndexByte hp "]" with
        | None => addr_err hp "missing ']' in address"
        | Some e =>
            if Nat.eqb (e + 1) (String.length hp) then addr_err hp missing_port
            else if Nat.eqb (e + 1) i then split_brackets hp (stake (e - 1) (sdrop 1 hp)) i 1 (e + 1)
            else if HasPrefix (sdrop (e + 1) hp) ":" then addr_err hp too_many_colons
            else addr_err hp missing_port
        end
      else
        let host := stake i hp in
        if has_byte host ":" then addr_err hp too_many_colons
        else split_brackets hp host i 0 0
  end.

(** [strings.Trim(s, "[]")] *)
Definition bracket (c : ascii) : bool := Ascii.eqb c "[" || Ascii.eqb c "]".
Fixpoint trim_brackets_left (s : string) : string :=
  match s with
  | String c s' => if bracket c then trim_brackets_left s' else s
  | "" => ""
  end.
Fixpoint trim_brackets_right (s : string) : string :=
  match s with
  | String c s' =>
      let t := trim_brackets_right s' in
      if String.eqb t "" && bracket c then "" else String c t
  | "" => ""
  end.
Definition trim_brackets (s : string) : string := trim_brackets_right (trim_brackets_left s).

Definition splitPolicyEntry `{Resolver} (entry : string) : res (string * string) :=
  let raw := TrimSpace entry in
  if String.eqb raw "" then Err "seccomp: empty network policy entry"
  else
    let invalid {A} (e : string) : res A :=
      Err ("seccomp: invalid " +:+ Quote entry +:+ ": " +:+ e) in
    let split (hostPort defaultPort : string) :=
      match SplitHostPort hostPort with
      | Ok hp => Ok hp
      | Err e =>
          if Contains e missing_port then Ok (trim_brackets hostPort, defaultPort) else invalid e
      end in
    if Contains raw "://" then
      match url_parse raw with
      | Err e => invalid e
      | Ok (scheme, host) => split host (if String.eqb scheme "http" then "80" else "443")
      end
    else split raw "443".

Example split_ex : SplitHostPort "[::1]:80" = Ok ("::1", "80").
Proof. reflexivity. Qed.
Example split_ex2 : SplitHostPort "api.example.com:8443" = Ok ("api.example.com", "8443").
Proof. reflexivity. Qed.

(** [ip.To4]: an address of four bytes, or a mapped one of sixteen. *)
Definition to4 (ip : list Z) : option (list Z) :=
  if Nat.eqb (length ip) 4 then Some ip
  else if Nat.eqb (length ip) 16 && forallb (Z.eqb 0) (take 10 ip) &&
          forallb (Z.eqb 255) (take 2 (drop 10 ip)) then Some (drop 12 ip)
  else None.

Fixpoint resolveEntries `{Resolver} (entries : list string) : res (list ipPort) :=
  match entries with
  | [] => Ok []
  | entry :: rest =>
      let? (host, ps) := splitPolicyEntry entry in
      match Atoi ps with
      | Some port =>
          if (1 <=? port) && (port <=? 65535) then
            match lookup_ip host with
            | Err e => Err ("seccomp: resolve " +:+ Quote host +:+ ": " +:+ e)
            | Ok ips =>
                let? l := resolveEntries rest in
                Ok (omap (fun ip => ip4 ← to4 ip; Some {| ip_addr := ip4; ip_port := port |}) ips
                    ++ l)%list
            end
          else Err ("seccomp: invalid port in " +:+ Quote entry)
      | None => Err ("seccomp: invalid port in " +:+ Quote entry)
      end
  end.

Definition BuildFilter `{Resolver} (policy : option NetworkPolicy) : res Filter :=
  match policy with
  | None => Ok {| fl_fprog := []; fl_allowlist := []; fl_denylist := []; fl_mode := "none" |}
  | Some p =>
      let mode := if String.eqb (np_Mode p) "" then "none" else np_Mode p in
      let filter allow deny :=
        {| fl_fprog := buildBPF mode; fl_allowlist := allow; fl_denylist := deny;
           fl_mode := mode |} in
      if String.eqb mode "none" then Ok (filter [] [])
      else if String.eqb mode "allowlist" then
        let? l := resolveEntries (np_Allowed p) in Ok (filter l [])
      else if String.eqb mode "denylist" then
        let? l := resolveEntries (np_Denied p) in Ok (filter [] l)
      else Err ("seccomp: unknown mode " +:+ Quote mode)
  end.

Definition NeedsNotifier (f : Filter) : bool := use_notif (fl_mode f).

(** ** Notifier *)

Record Notifier := { nt_allowlist : list ipPort; nt_denylist : list ipPort }.

(** [checkTarget] on the address read from the child ([None]: a null pointer,
    unreadable memory or no IPv4 address); the second component is the error
    number. *)
Definition checkTarget (n : Notifier) (target : option ipPort) : bool * Z :=
  match target with
  | None => (false, EPERM)
  | Some t =>
      if ip_port t =? 53 then (true, 0)
      else match nt_allowlist n, nt_denylist n with
        | _ :: _, _ => if decide (t ∈ nt_allowlist n) then (true, 0) else (false, EPERM)
        | [], _ :: _ => if decide (t ∈ nt_denylist n) then (false, EPERM) else (true, 0)
        | [], [] => (false, EPERM)
        end
  end.

(** [readSockaddr] on the 16 bytes of a [sockaddr_in]. *)
Definition readSockaddr (raw : list Z) : option ipPort :=
  match raw with
  | f0 :: f1 :: p0 :: p1 :: a :: b :: c :: d :: _ =>
      if Nat.eqb (length raw) 16 && (f0 + 256 * f1 =? 2)
      then Some {| ip_addr := [a; b; c; d]; ip_port := 256 * p0 + p1 |} else None
  | _ => None
  end.

(** The loop of [Start], on the sequence of events it meets: a request
    ([target] as [checkTarget] reads it, and whether sending the answer works,
    finds the caller gone, or fails), an interrupted or failed receive, or
    [Close].  The answers it sends are the result. *)
Record seccompNotifResp := { rsp_ID : Z; rsp_Val : Z; rsp_Error : Z; rsp_Flags : Z }.

Inductive SendResult := SendOk | SendENOENT | SendErr.
Inductive NotifEvent :=
| Request (id : Z) (target : option ipPort) (sent : SendResult)
| RecvEINTR | RecvErr | ClosedEvent.

Definition FLAG_CONTINUE : Z := 1.

Definition answer (n : Notifier) (id : Z) (target : option ipPort) : seccompNotifResp :=
  let (allow, errno) := checkTarget n target in
  if allow then {| rsp_ID := id; rsp_Val := 0; rsp_Error := 0; rsp_Flags := FLAG_CONTINUE |}
  else {| rsp_ID := id; rsp_Val := 0; rsp_Error := - errno; rsp_Flags := 0 |}.

Fixpoint Notifier_Start (n : Notifier) (events : list NotifEvent) : list seccompNotifResp :=
  match events with
  | [] | ClosedEvent :: _ | RecvErr :: _ => []
  | RecvEINTR :: rest => Notifier_Start n rest
  | Request id target sent :: rest =>
      answer n id target ::
        match sent with SendErr => [] | _ => Notifier_Start n rest end
  end.

(** ** Handing the program to the child *)

(** [MarshalFilter]: eight little-endian bytes per instruction. *)
Definition insn_bytes (i : SockFilter) : list Z :=
  [Z.land (sf_Code i) 255; Z.land (Z.shiftr (sf_Code i) 8) 255; sf_Jt i; sf_Jf i;
   Z.land (sf_K i) 255; Z.land (Z.shiftr (sf_K i) 8) 255;
   Z.land (Z.shiftr (sf_K i) 16) 255; Z.land (Z.shiftr (sf_K i) 24) 255].

(** The decoding loop of [ChildMain]; bytes left over are dropped. *)
Fixpoint decode_insns (flat : list Z) : list SockFilter :=
  match flat with
  | c0 :: c1 :: jt :: jf :: k0 :: k1 :: k2 :: k3 :: rest =>
      {| sf_Code := Z.lor c0 (Z.shiftl c1 8); sf_Jt := jt; sf_Jf := jf;
         sf_K := Z.lor k0 (Z.lor (Z.shiftl k1 8) (Z.lor (Z.shiftl k2 16) (Z.shiftl k3 24))) |}
        :: decode_insns rest
  | _ => []
  end.

(** [base64.StdEncoding]. *)
Definition b64_char (v : Z) : ascii :=
  ascii_of_nat (Z.to_nat
    (if v <? 26 then 65 + v else if v <? 52 then 71 + v else if v <? 62 then v - 4
     else if v =? 62 then 43 else 47)).

Definition b64_val (c : ascii) : option Z :=
  let n := Z.of_nat (nat_of_ascii c) in
  if (65 <=? n) && (n <=? 90) then Some (n - 65)
  else if (97 <=? n) && (n <=? 122) then Some (n - 71)
  else if (48 <=? n) && (n <=? 57) then Some (n + 4)
  else if n =? 43 then Some 62
  else if n =? 47 then Some 63
  else None.

Fixpoint b64_encode (l : list Z) : string :=
  match l with
  | [] => ""
  | [a] => String (b64_char (a / 4)) (String (b64_char (a mod 4 * 16)) "==")
  | [a; b] =>
      String (b64_char (a / 4)) (String (b64_char (a mod 4 * 16 + b / 16))
        (String (b64_char (b mod 16 * 4)) "="))
  | a :: b :: c :: l' =>
      String (b64_char (a / 4)) (String (b64_char (a mod 4 * 16 + b / 16))
        (String (b64_char (b mod 16 * 4 + c / 64)) (String (b64_char (c mod 64)) (b64_encode l'))))
  end.

Fixpoint b64_decode (s : string) : option (list Z) :=
  match s with
  | "" => Some []
  | String x (String y (String z (String t s'))) =>
      v0 ← b64_val x; v1 ← b64_val y;
      match b64_val z, b64_val t with
      | Some v2, Some v3 =>
          l ← b64_decode s';
          Some (v0 * 4 + v1 / 16 :: v1 mod 16 * 16 + v2 / 4 :: v2 mod 4 * 64 + v3 :: l)
      | Some v2, None =>
          if String.eqb (String t s') "=" then Some [v0 * 4 + v1 / 16; v1 mod 16 * 16 + v2 / 4]
          else None
      | None, _ =>
          if String.eqb (String z (String t s')) "==" then Some [v0 * 4 + v1 / 16] else None
      end
  | _ => None
  end.

Definition MarshalFilter (f : Filter) : string :=
  match fl_fprog f with
  | [] => ""
  | prog => b64_encode (concat (map insn_bytes prog))
  end.

Definition ip_String (ip : list Z) : string := Join (map Itoa ip) ".".

(** [MarshalAllowlist]: the allowlist as JSON (never the denylist). *)
Definition MarshalAllowlist (f : Filter) : string :=
  match fl_allowlist f with
  | [] => ""
  | l =>
      "[" +:+ Join (map (fun e => "{" +:+ Quote "ip" +:+ ":" +:+ Quote (ip_String (ip_addr e)) +:+
                                  "," +:+ Quote "port" +:+ ":" +:+ Itoa (ip_port e) +:+ "}") l) ","
      +:+ "]"
  end.

(** The command [ScriptCmd] prepares: the script itself, or this executable
    as the sandbox child; and the notifier the parent will run. *)
Inductive ScriptCommand :=
| DirectCmd (prog scriptFile : string)
| ChildCmd (args : list string) (notifier : option Notifier).

Definition extForRuntime (runtime : string) : string :=
  if String.eqb runtime "python3" then "py"
  else if String.eqb runtime "node" then "js" else "sh".

Definition script_file (scriptPath runtime : string) : string :=
  PathJoin [scriptPath; "script." +:+ extForRuntime runtime].

Definition directCmd (scriptPath runtime : string) : ScriptCommand :=
  DirectCmd (if String.eqb runtime "python3" then "python3"
             else if String.eqb runtime "node" then "node" else "bash")
            (script_file scriptPath runtime).

Definition nonempty {A} (l : list A) : bool := match l with [] => false | _ => true end.

(** [ScriptCmd] of a filter that exists; a failing socket pair, the only
    error of the function, is left out. *)
Definition ScriptCmd (f : Filter) (scriptPath runtime : string) : ScriptCommand :=
  if String.eqb (fl_mode f) "none" && negb (nonempty (fl_allowlist f)) &&
     negb (nonempty (fl_denylist f))
  then directCmd scriptPath runtime
  else
    ChildCmd
      (["sandbox-child"; "--filter=" +:+ MarshalFilter f; "--mode=" +:+ fl_mode f;
        "--script=" +:+ scriptPath; "--runtime=" +:+ runtime] ++
       (if nonempty (fl_allowlist f) then ["--allowlist=" +:+ MarshalAllowlist f] else []) ++
       (if nonempty (fl_denylist f) then ["--denylist=" +:+ MarshalAllowlist f] else []))%list
      (if NeedsNotifier f
       then Some {| nt_allowlist := fl_allowlist f; nt_denylist := fl_denylist f |} else None).

(** [flagArg] over the arguments of the process. *)
Fixpoint flagArg (args : list string) (name : string) : string :=
  let prefix := "--" +:+ name +:+ "=" in
  match args with
  | [] => ""
  | a :: args' =>
      if Nat.ltb (String.length prefix) (String.length a) &&
         String.eqb (stake (String.length prefix) a) prefix
      then sdrop (String.length prefix) a
      else flagArg args' name
  end.

(** What [ChildMain] installs before it executes the script: the program and
    whether it asks for a notifier. *)
Record Installed := { in_prog : list SockFilter; in_notify : bool; in_script : string }.

Definition ChildMain (args : list string) : res Installed :=
  let filterB64 := flagArg args "filter" in
  let mode := flagArg args "mode" in
  let scriptPath := flagArg args "script" in
  let runtime := flagArg args "runtime" in
  if String.eqb filterB64 "" || String.eqb scriptPath "" then
    Err "seccomp-child: --filter and --script are required"
  else
    match b64_decode filterB64 with
    | None => Err "seccomp-child: decode filter: illegal base64 data"
    | Some flat =>
        match decode_insns flat with
        | [] => Err "seccomp-child: empty filter"
        | insns => Ok {| in_prog := insns; in_notify := use_notif mode;
                         in_script := script_file scriptPath runtime |}
        end
    end.

(** ** The verdict of the program *)

(** What the program should answer for a system call number and the type
    argument of [socket]. *)
Definition verdict (mode : string) (nr ty : Z) : Z :=
  let errno := Z.lor SECCOMP_RET_ERRNO EPERM in
  if decide (nr ∈ [sysBpf; sysInitModule; sysKexecLoad; sysPerfEventOpen]) then errno
  else if nr =? sysSocket then (if ty =? sysSockRaw then errno else SECCOMP_RET_ALLOW)
  else if use_notif mode then
    (if nr =? sysConnect then SECCOMP_RET_USER_NOTIF else SECCOMP_RET_ALLOW)
  else if decide (nr ∈ [sysConnect; sysSendto; sysSendmsg; sysSendmmsg]) then errno
  else SECCOMP_RET_ALLOW.

Section Run.
Context (data : seccomp_data).

Lemma run_ld f k rest acc : bpf_run (S f) (ld k :: rest) data acc = bpf_run f rest data (data k).
Proof. reflexivity. Qed.

Lemma run_jeq f v jt jf rest acc :
  bpf_run (S f) (jeq v jt jf :: rest) data acc =
  bpf_run f (drop (Z.to_nat (if acc =? v then jt else jf)) rest) data acc.
Proof. reflexivity. Qed.

Lemma run_ja f k rest acc :
  bpf_run (S f) (ja k :: rest) data acc = bpf_run f (drop (Z.to_nat k) rest) data acc.
Proof. reflexivity. Qed.

Lemma run_ret f v rest acc : bpf_run (S f) (ret v :: rest) data acc = Some v.
Proof. reflexivity. Qed.

(** A load, test and answer block: the answer, or the rest after three
    steps. *)
Lemma run_test f off k v rest acc :
  bpf_run (S (S (S f))) (ld off :: jeq k 1 0 :: ja 1 :: ret v :: rest) data acc =
  if data off =? k then Some v else bpf_run f rest data (data off).
Proof. rewrite run_ld, run_jeq. by destruct (data off =? k). Qed.

Lemma run_socket f rest acc :
  bpf_run (S (S (S (S (S (S (S f)))))))
    (loadNr ++ jeq2 nrSock ++ [ja 5] ++ ldArg sockTypeArg ++ jeqKill sysSockRaw ++
     [retAllow] ++ rest)%list data acc =
  if data 0 =? nrSock then
    (if data sockTypeArg =? sysSockRaw then Some (Z.lor SECCOMP_RET_ERRNO EPERM)
     else Some SECCOMP_RET_ALLOW)
  else bpf_run (S (S (S (S f)))) rest data (data 0).
Proof.
  unfold loadNr, ldArg, jeq2, jeqKill. cbn [app]. rewrite run_ld, run_jeq.
  destruct (data offNr =? nrSock) eqn:E; unfold offNr in E; rewrite E; [|done].
  change (Z.to_nat 1) with 1%nat. cbn [drop]. unfold retErrno. rewrite run_test.
  by destruct (data sockTypeArg =? sysSockRaw).
Qed.

Lemma run_block_all nrs f rest acc :
  bpf_run (3 * length nrs + f) (block_all nrs ++ rest)%list data acc =
  if decide (data offNr ∈ nrs) then Some (Z.lor SECCOMP_RET_ERRNO EPERM)
  else bpf_run f rest data (match nrs with [] => acc | _ => data offNr end).
Proof.
  revert acc. induction nrs as [|nr nrs IH]; intros acc.
  - rewrite decide_False; [done|apply not_elem_of_nil].
  - replace (3 * length (nr :: nrs) + f)%nat with (S (S (S (3 * length nrs + f)))) by (cbn; lia).
    change (block_all (nr :: nrs) ++ rest)%list
      with (ld offNr :: jeq nr 1 0 :: ja 1 :: retErrno EPERM :: (block_all nrs ++ rest))%list.
    unfold retErrno. rewrite run_test. destruct (Z.eqb_spec (data offNr) nr) as [->|Hne].
    + by rewrite decide_True; [|left].
    + rewrite IH. destruct (decide (data offNr ∈ nrs)), (decide (data offNr ∈ nr :: nrs));
        [done|set_solver|set_solver|by destruct nrs].
Qed.
End Run.

(** C29: the filter program, run on any system call, gives the verdict of its
    table: the four privileged calls fail with EPERM, [socket] only for the
    bare raw type, and the network calls fail (no network) or, for [connect]
    with a list, go to the notifier; everything else is allowed. *)
Theorem buildBPF_verdict mode data :
  bpf_exec (buildBPF mode) data = Some (verdict mode (data offNr) (data sockTypeArg)).
Proof.
  unfold bpf_exec, buildBPF, verdict. change sysSocket with nrSock.
  match goal with |- bpf_run ?n _ _ _ = _ =>
    replace n with (3 * 4 + S (S (S (S (S (S (S (if use_notif mode then 10 else 22))))))))%nat
      by (by destruct (use_notif mode)) end.
  rewrite (run_block_all data [sysBpf; sysInitModule; sysKexecLoad; sysPerfEventOpen]).
  destruct (decide _); [done|].
  rewrite run_socket. change (data 0) with (data offNr).
  destruct (data offNr =? nrSock); [by destruct (data sockTypeArg =? sysSockRaw)|].
  destruct (use_notif mode).
  - unfold loadNr, jeqNotif, retUserNotif. cbn [app]. rewrite run_test.
    by destruct (data offNr =? sysConnect).
  - change (S (S (S (S 22)))) with (3 * length [sysConnect; sysSendto; sysSendmsg; sysSendmmsg] + 14)%nat.
    rewrite run_block_all. by destruct (decide _).
Qed.

(** ** The hand-over to the child *)

Definition byte_range (z : Z) : bool := (0 <=? z) && (z <? 256).
Definition insn_ok (i : SockFilter) : bool :=
  (0 <=? sf_Code i) && (sf_Code i <? 2 ^ 16) && byte_range (sf_Jt i) && byte_range (sf_Jf i) &&
  (0 <=? sf_K i) && (sf_K i <? 2 ^ 32).

Lemma byte_split z n : 0 <= n -> 
  Z.lor (Z.land z (Z.ones n)) (Z.shiftl (Z.shiftr z n) n) = z.
Proof.
  intros Hn. apply Z.bits_inj'. intros m Hm. rewrite Z.lor_spec, Z.land_spec.
  destruct (Z.ltb_spec m n).
  - by rewrite Z.ones_spec_low, Z.shiftl_spec_low, orb_false_r, andb_true_r by lia.
  - rewrite Z.ones_spec_high, Z.shiftl_spec, Z.shiftr_spec, andb_false_r by lia. simpl. f_equal. lia.
Qed.

Lemma land_255_small z : 0 <= z < 256 -> Z.land z 255 = z.
Proof. intros H. change 255 with (Z.ones 8). rewrite Z.land_ones by lia. by apply Z.mod_small. Qed.

Lemma decode_insn_bytes i rest :
  insn_ok i = true -> decode_insns (insn_bytes i ++ rest) = i :: decode_insns rest.
Proof.
  unfold insn_ok, byte_range. rewrite !andb_true_iff, !Z.leb_le, !Z.ltb_lt. intros H.
  destruct i as [c jt jf k]. cbn [sf_Code sf_Jt sf_Jf sf_K] in H.
  unfold insn_bytes. cbn [app decode_insns sf_Code sf_Jt sf_Jf sf_K]. f_equal. f_equal.
  - rewrite (land_255_small (Z.shiftr c 8)).
    + by apply (byte_split c 8).
    + rewrite Z.shiftr_div_pow2 by lia.
      split; [apply Z.div_pos; lia|apply Z.div_lt_upper_bound; lia].
  - rewrite (land_255_small (Z.shiftr k 24)).
    2: { rewrite Z.shiftr_div_pow2 by lia.
         split; [apply Z.div_pos; lia|apply Z.div_lt_upper_bound; lia]. }
    transitivity (Z.lor (Z.land k 255) (Z.shiftl (Z.lor (Z.land (Z.shiftr k 8) 255)
      (Z.shiftl (Z.lor (Z.land (Z.shiftr (Z.shiftr k 8) 8) 255)
        (Z.shiftl (Z.shiftr (Z.shiftr (Z.shiftr k 8) 8) 8) 8)) 8)) 8)).
    + rewrite !Z.shiftl_lor, !Z.shiftr_shiftr, !Z.shiftl_shiftl by lia. done.
    + change 255 with (Z.ones 8). by rewrite !byte_split by lia.
Qed.

Lemma decode_concat prog :
  forallb insn_ok prog = true -> decode_insns (concat (map insn_bytes prog)) = prog.
Proof.
  induction prog as [|i prog IH]; [done|]. cbn [forallb map concat].
  rewrite andb_true_iff. intros [Hi Hp]. by rewrite decode_insn_bytes, IH.
Qed.

Lemma insn_bytes_range i : insn_ok i = true -> forallb byte_range (insn_bytes i) = true.
Proof.
  intros H. unfold insn_ok in H. rewrite !andb_true_iff in H.
  assert (forall z, byte_range (Z.land z 255) = true) as Hl.
  { intros z. change 255 with (Z.ones 8). rewrite Z.land_ones by lia. unfold byte_range.
    pose proof (Z.mod_pos_bound z (2 ^ 8)). rewrite andb_true_iff, Z.leb_le, Z.ltb_lt. lia. }
  unfold insn_bytes. cbn [forallb]. rewrite !Hl. by destruct H as (((((_ & _) & ->) & ->) & _) & _).
Qed.

Lemma b64_char_spec v : 0 <= v < 64 -> b64_val (b64_char v) = Some v.
Proof.
  intros H. assert (forallb (fun n => match b64_val (b64_char (Z.of_nat n)) with
    | Some w => w =? Z.of_nat n | None => false end) (List.seq 0 64) = true) as Hall by reflexivity.
  rewrite forallb_forall in Hall. specialize (Hall (Z.to_nat v)).
  rewrite Z2Nat.id in Hall by lia. destruct (b64_val (b64_char v)) as [w|].
  - f_equal. apply Z.eqb_eq, Hall, in_seq. lia.
  - discriminate Hall. apply in_seq. lia.
Qed.

Lemma b64_roundtrip : forall l, forallb byte_range l = true -> b64_decode (b64_encode l) = Some l.
Proof.
  fix IH 1. intros l Hl. 
  destruct l as [|a [|b [|c l]]]; cbn [forallb] in Hl; unfold byte_range in Hl;
    rewrite ?andb_true_iff, ?Z.leb_le, ?Z.ltb_lt in Hl; [done|..]; cbn [b64_encode b64_decode].
  - rewrite !b64_char_spec by (Z.to_euclidean_division_equations; lia). cbn.
    repeat f_equal. Z.to_euclidean_division_equations; lia.
  - rewrite !b64_char_spec by (Z.to_euclidean_division_equations; lia). cbn.
    repeat f_equal; Z.to_euclidean_division_equations; lia.
  - rewrite !b64_char_spec by (Z.to_euclidean_division_equations; lia). cbn [mbind option_bind].
    rewrite IH by tauto. cbn [mbind option_bind].
    repeat f_equal; Z.to_euclidean_division_equations; lia.
Qed.

Lemma stake_HasPrefix p a : String.eqb (stake (String.length p) a) p = HasPrefix a p.
Proof.
  revert a. induction p as [|c p IH]; intros a; [done|].
  destruct a as [|d a]; [done|]. cbn [String.length stake String.eqb HasPrefix].
  by rewrite IH, Ascii.eqb_sym.
Qed.

Lemma flagArg_skip a args name :
  HasPrefix a ("--" +:+ name +:+ "=") = false -> flagArg (a :: args) name = flagArg args name.
Proof. intros H. cbn [flagArg]. by rewrite stake_HasPrefix, H, andb_false_r. Qed.

Lemma flagArg_here v args name :
  flagArg (("--" +:+ name +:+ "=" +:+ v) :: args) name =
  if String.eqb v "" then flagArg args name else v.
Proof.
  cbn [flagArg].
  replace ("--" +:+ name +:+ "=" +:+ v) with (("--" +:+ name +:+ "=") +:+ v)
    by (by rewrite !append_assoc).
  generalize ("--" +:+ name +:+ "="). intros P.
  rewrite stake_append, String.eqb_refl, andb_true_r, sdrop_append, length_append.
  destruct v as [|c v].
  - change (String.length "") with 0%nat. rewrite Nat.add_0_r. by rewrite Nat.ltb_irrefl.
  - change (String.length (String c v)) with (S (String.length v)).
    destruct (Nat.ltb_spec (String.length P) (String.length P + S (String.length v))); [done|lia].
Qed.

Lemma MarshalFilter_decodes f :
  fl_fprog f <> [] -> forallb insn_ok (fl_fprog f) = true ->
  String.eqb (MarshalFilter f) "" = false /\
  exists flat, b64_decode (MarshalFilter f) = Some flat /\ decode_insns flat = fl_fprog f.
Proof.
  intros Hne Hok. unfold MarshalFilter. destruct (fl_fprog f) as [|i prog] eqn:E; [done|].
  assert (forallb byte_range (concat (map insn_bytes (i :: prog))) = true) as Hb.
  { clear -Hok. induction (i :: prog) as [|j l IH]; [done|]. cbn [forallb map concat] in *.
    apply andb_true_iff in Hok as [Hj Hl].
    by rewrite forallb_app, insn_bytes_range, IH. }
  pose proof (b64_roundtrip _ Hb) as Hr. pose proof (decode_concat _ Hok) as Hd. split.
  - apply String.eqb_neq. intros Heq. rewrite Heq in Hr.
    change (Some [] = Some (concat (map insn_bytes (i :: prog)))) in Hr.
    apply (inj Some) in Hr. by rewrite <- Hr in Hd.
  - eauto.
Qed.

Lemma buildBPF_ok mode : buildBPF mode <> [] /\ forallb insn_ok (buildBPF mode) = true.
Proof. unfold buildBPF. destruct (use_notif mode); split; [done|reflexivity|done|reflexivity]. Qed.

Section Policies.
Context `{Resolver}.

(** The entries a list policy resolves to, and the filter built from them. *)
Lemma BuildFilter_cases policy f :
  BuildFilter policy = Ok f ->
  (fl_mode f = "none" /\ fl_allowlist f = [] /\ fl_denylist f = []) \/
  (exists p, policy = Some p /\ fl_fprog f = buildBPF (fl_mode f) /\ fl_mode f = np_Mode p /\
     ((np_Mode p = "allowlist" /\ resolveEntries (np_Allowed p) = Ok (fl_allowlist f) /\
       fl_denylist f = []) \/
      (np_Mode p = "denylist" /\ resolveEntries (np_Denied p) = Ok (fl_denylist f) /\
       fl_allowlist f = []))).
Proof.
  unfold BuildFilter. destruct policy as [p|]; [|intros [= <-]; by left].
  destruct (String.eqb_spec (np_Mode p) "") as [Hm|Hm]; [intros [= <-]; by left|].
  destruct (String.eqb_spec (np_Mode p) "none") as [->|_]; [intros [= <-]; by left|].
  destruct (String.eqb_spec (np_Mode p) "allowlist") as [Ha|_].
  - destruct (resolveEntries (np_Allowed p)) as [l|e] eqn:E; [|done]. intros [= <-].
    right. exists p. split_and!; try done. left. by split_and!.
  - destruct (String.eqb_spec (np_Mode p) "denylist") as [Hd|_]; [|done].
    destruct (resolveEntries (np_Denied p)) as [l|e] eqn:E; [|done]. intros [= <-].
    right. exists p. split_and!; try done. right. by split_and!.
Qed.

(** C28: a script is confined exactly under a list policy: then the child
    process, started with the arguments [ScriptCmd] builds, decodes and
    installs the very program [buildBPF] made for the mode, asks for a
    notifier, and the parent serves it with the resolved lists; without a
    policy, or with mode none, the script runs unfiltered. *)
Theorem ScriptCmd_confines policy f scriptPath runtime exe :
  BuildFilter policy = Ok f -> scriptPath <> "" -> HasPrefix exe "--" = false ->
  if use_notif (fl_mode f) then
    exists args, ScriptCmd f scriptPath runtime =
      ChildCmd args (Some {| nt_allowlist := fl_allowlist f; nt_denylist := fl_denylist f |}) /\
    ChildMain (exe :: args) =
      Ok {| in_prog := buildBPF (fl_mode f); in_notify := true;
            in_script := script_file scriptPath runtime |}
  else ScriptCmd f scriptPath runtime = directCmd scriptPath runtime.
Proof.
  intros Hf Hsp Hexe.
  destruct (BuildFilter_cases policy f Hf)
    as [(Hm & Ha & Hd)|(p & -> & Hprog & Hmode & Hcase)].
  { unfold ScriptCmd. by rewrite Hm, Ha, Hd. }
  assert (use_notif (fl_mode f) = true /\ String.eqb (fl_mode f) "none" = false /\
          String.eqb (fl_mode f) "" = false) as (Hn & Hnone & Hemp).
  { rewrite Hmode. by destruct Hcase as [(-> & _)|(-> & _)]. }
  rewrite Hn. unfold ScriptCmd, NeedsNotifier. rewrite Hnone, Hn. cbn [andb].
  eexists. split; [reflexivity|].
  destruct (buildBPF_ok (fl_mode f)) as [Hne Hok]. rewrite <- Hprog in Hne, Hok.
  destruct (MarshalFilter_decodes f Hne Hok) as (Hmf & flat & Hdec & Hins).
  assert (forall name, HasPrefix exe ("--" +:+ name) = false) as Hx.
  { intros name. clear -Hexe. destruct exe as [|c [|d exe]]; try done; cbn [HasPrefix String.append] in *.
    by destruct (Ascii.eqb "-" c), (Ascii.eqb "-" d). }
  assert (forall tl, flagArg (("--runtime=" +:+ runtime) :: tl) "runtime" =
    if String.eqb runtime "" then flagArg tl "runtime" else runtime) as Hrt
    by (intros tl; apply (flagArg_here runtime tl "runtime")).
  unfold ChildMain. cbn [app].
  assert (forall name tl, flagArg (exe :: "sandbox-child" :: tl) name = flagArg tl name) as Hskip.
  { intros name tl. rewrite flagArg_skip by apply Hx. by apply flagArg_skip. }
  rewrite !Hskip.
  rewrite (flagArg_here (MarshalFilter f) _ "filter" : flagArg (("--filter=" +:+ _) :: _) "filter" = _), Hmf.
  rewrite !(flagArg_skip ("--filter=" +:+ _)) by done.
  rewrite (flagArg_here (fl_mode f) _ "mode" : flagArg (("--mode=" +:+ _) :: _) "mode" = _), Hemp.
  rewrite !(flagArg_skip ("--mode=" +:+ _)) by done.
  rewrite (flagArg_here scriptPath _ "script" : flagArg (("--script=" +:+ _) :: _) "script" = _).
  rewrite !(flagArg_skip ("--script=" +:+ _)) by done. rewrite Hrt, Hmf.
  apply String.eqb_neq in Hsp as Hspb. rewrite Hspb. cbn [orb]. rewrite Hspb, Hdec, Hins, Hprog, Hn.
  destruct (buildBPF (fl_mode f)) eqn:E; [by rewrite <- Hprog in E|].
  do 2 f_equal. destruct (String.eqb_spec runtime "") as [->|]; [|done].
  f_equal. 
  by destruct (nonempty (fl_allowlist f)), (nonempty (fl_denylist f)).
Qed.

(** Under a list policy a connection is let through exactly when its
    IPv4 target has port 53, or is one of the resolved allowed targets, or,
    with a denylist that resolved to something, is not one of the denied
    ones. *)
Theorem connect_decision p f target :
  BuildFilter (Some p) = Ok f -> use_notif (fl_mode f) = true ->
  exists l, resolveEntries (if String.eqb (np_Mode p) "allowlist" then np_Allowed p else np_Denied p) = Ok l /\
  ((checkTarget {| nt_allowlist := fl_allowlist f; nt_denylist := fl_denylist f |} target).1 = true <->
   exists t, target = Some t /\
     (ip_port t = 53 \/
      if String.eqb (np_Mode p) "allowlist" then t ∈ l else l <> [] /\ ~ t ∈ l)).
Proof.
  intros Hf Hn. destruct (BuildFilter_cases _ f Hf)
    as [(Hm & _)|(p' & [= <-] & _ & _ & Hcase)]; [by rewrite Hm in Hn|].
  unfold checkTarget. cbn [nt_allowlist nt_denylist].
  destruct Hcase as [(-> & Hl & ->)|(-> & Hl & ->)]; cbn [String.eqb Ascii.eqb Bool.eqb];
    eexists; (split; [exact Hl|]); (destruct target as [t|]; [|split; [done|by intros (? & ? & _)]]);
    (destruct (Z.eqb_spec (ip_port t) 53) as [Hp|Hp]; [split; [eauto|done]|]).
  - destruct (fl_allowlist f) as [|a l]; [|destruct (decide (t ∈ a :: l))]; cbn [fst];
      (split; [try done; eauto|intros (? & [= <-] & [?|Hin]); try done]).
    by apply elem_of_nil in Hin.
  - destruct (fl_denylist f) as [|a l]; [|destruct (decide (t ∈ a :: l))]; cbn [fst];
      (split; [first [done|intros _; exists t; split; [done|right; split; [done|assumption]]]
              |intros (? & [= <-] & [?|[? ?]]); done]).
Qed.
End Policies.

Definition demo_resolver : Resolver :=
  {| lookup_ip := fun _ => Ok [[1; 1; 1; 1]]; url_parse := fun _ => Err "parse" |}.
Definition demo_policy : NetworkPolicy :=
  {| np_Mode := "allowlist"; np_Allowed := ["api.example.com:8443"]; np_Denied := [] |}.
Definition demo_filter : Filter :=
  {| fl_fprog := buildBPF "allowlist"; fl_allowlist := [{| ip_addr := [1; 1; 1; 1]; ip_port := 8443 |}];
     fl_denylist := []; fl_mode := "allowlist" |}.

Example ScriptCmd_confines_witness :
  exists args n, ScriptCmd demo_filter "/ws" "bash" = ChildCmd args n.
Proof.
  destruct (ScriptCmd_confines (H := demo_resolver) (Some demo_policy) demo_filter "/ws" "bash" "/bin/flowgent")
    as (args & Hs & _); [vm_compute; reflexivity|discriminate|reflexivity|eauto].
Defined.

Example connect_decision_witness :
  (checkTarget {| nt_allowlist := fl_allowlist demo_filter; nt_denylist := [] |}
     (Some {| ip_addr := [1; 1; 1; 1]; ip_port := 8443 |})).1 = true.
Proof.
  destruct (connect_decision (H := demo_resolver) demo_policy demo_filter
    (Some {| ip_addr := [1; 1; 1; 1]; ip_port := 8443 |})) as (l & Hl & Hiff);
    [vm_compute; reflexivity|reflexivity|].
  apply Hiff. eexists. split; [reflexivity|]. right.
  vm_compute in Hl. injection Hl as <-. by left.
Defined.
