(* ===== verification/Sandbox.v ===== *)
(** * The sandbox: executor and manager

    [pkg/core/pkg/engine/executor/sandbox.go], which writes a script to the
    shared volume and triggers it, and [pkg/sandbox/pkg/sandboxmanager.go],
    which checks and runs it.  The volume is a map from paths to contents;
    failing writes, the processes and the message broker are parameters. *)

From S2P Require Export Executors Messager Seccomp.
From Stdlib Require Import Ascii.

Local Open Scope string_scope.
Local Open Scope list_scope.

(** ** Data *)

(** [model.SandboxTrigger]; [Env] in the order the code ranges over it. *)
Record SandboxTrigger := {
  st_Namespace : string;
  st_FlowID : string;
  st_RunID : string;
  st_PlanID : string;
  st_ScriptPath : string;
  st_Runtime : string;
  st_Timeout : string;
  st_Resources : option SandboxResources;
  st_NetworkPolicy : option NetworkPolicy;
  st_Workspace : string;
  st_SpanID : string;
  st_Env : list (string * string);
}.

Abbreviation volume := (gmap string string).

(** [json.Marshal] of a result: empty fields are omitted, and a value JSON
    cannot hold gives no bytes. *)
Definition marshal_result (r : TaskResult) : string :=
  let v := VMap ((match tr_Output r with
                  | Some ((_ :: _) as m) => [("output", VMap m)]
                  | _ => []
                  end) ++
                 (if String.eqb (tr_Error r) "" then [] else [("error", VStr (tr_Error r))])) in
  if json_ok v then Marshal v else "".

Definition error_result (e : string) : TaskResult := {| tr_Output := None; tr_Error := e |}.

(** ** The executor's side *)

Definition sanitize (s : string) : string :=
  let s := TrimSpace s in
  if String.eqb s "" then "default"
  else ReplaceAll (ReplaceAll (ReplaceAll s "/" "_") "\" "_") ".." "_".

Definition buildPath (workspace : string) (plan : ExecutionPlan) : string :=
  PathJoin [workspace; sanitize (p_Namespace plan); sanitize (p_AgentFlowDefinitionID plan);
            sanitize (p_AgentFlowRunID plan); sanitize (p_PlanID plan)].

(** What the executor meets while it waits, before its deadline: a result
    message, or a tick at which the result file reads as [file]. *)
Inductive WaitEvent :=
| ResultArrived (r : TaskResult)
| Tick (file : option TaskResult).

(** The volume, the messager and the clock as the executor uses them.
    [sx_wait] gives the events up to the ten minutes' deadline and the result
    file at that time. *)
Class SandboxEnv (W : Type) := {
  sx_mkdir : string -> W -> option string * W;
  sx_write : string -> string -> W -> option string * W;
  sx_copy : string -> string -> W -> option string * W;
  sx_credentials : string -> string -> W -> list (string * string);
  sx_span : W -> string;
  sx_subscribe : string -> W -> option string * W;
  sx_publish : string -> string -> SandboxTrigger -> W -> option string * W;
  sx_wait : string -> string -> W -> (list WaitEvent * option TaskResult) * W;
}.

Record SandboxExecutor := {
  sx_policy : option SandboxPolicy;
  sx_workspace : string;
}.

Section Executor.
Context {W : Type} `{SandboxEnv W}.

(** An operation that fails, or the rest. *)
Definition try {A} (step : option string * W) (wrap : string -> string)
    (k : W -> res A * W) : res A * W :=
  match step with
  | (Some e, w) => (Err (wrap e), w)
  | (None, w) => k w
  end.

Definition writeScript (dir : string) (spec : NodeSpec) (w : W) : option string * W :=
  match sx_mkdir dir w with
  | (Some e, w) => (Some e, w)
  | (None, w) =>
      match sx_write (PathJoin [dir; "script." +:+ extForRuntime (s_Runtime spec)]) (s_Script spec) w with
      | (Some e, w) => (Some e, w)
      | (None, w) => (None, (sx_write (PathJoin [dir; "status"]) "PENDING" w).2)
      end
  end.

Definition writeInput (dir : string) (input : gomap) (w : W) : option string * W :=
  match sx_mkdir dir w with
  | (Some e, w) => (Some e, w)
  | (None, w) =>
      if json_ok (VMap input)
      then sx_write (PathJoin [dir; "input.json"]) (MarshalIndent "" (VMap input)) w
      else (Some "json: unsupported value", w)
  end.

Definition snapshotOriginals (dir : string) (spec : NodeSpec) (w : W) : option string * W :=
  let origDir := PathJoin [dir; "original"] in
  match sx_mkdir origDir w with
  | (Some e, w) => (Some e, w)
  | (None, w) => sx_copy (s_Workspace spec) (origDir +:+ "/workspace") w
  end.

(** The waiting loop of [Execute]. *)
Fixpoint wait_loop (events : list WaitEvent) (final : option TaskResult) : TaskResult :=
  match events with
  | [] => match final with Some r => r | None => error_result "sandbox execution timeout" end
  | ResultArrived r :: _ => r
  | Tick (Some r) :: _ => r
  | Tick None :: rest => wait_loop rest final
  end.

Definition make_trigger (plan : ExecutionPlan) (dir : string) (policy : option NetworkPolicy)
    (span : string) (env : list (string * string)) : SandboxTrigger :=
  let spec := p_NodeSpec plan in
  {| st_Namespace := p_Namespace plan; st_FlowID := p_AgentFlowDefinitionID plan;
     st_RunID := p_AgentFlowRunID plan; st_PlanID := p_PlanID plan; st_ScriptPath := dir;
     st_Runtime := s_Runtime spec; st_Timeout := s_Timeout spec; st_Resources := s_Resources spec;
     st_NetworkPolicy := policy; st_Workspace := s_Workspace spec; st_SpanID := span;
     st_Env := env |}.

Definition SandboxExecute (e : SandboxExecutor) : TaskExecutor W := fun plan scope w =>
  let spec := p_NodeSpec plan in
  let policy := match sx_policy e, s_NetworkPolicy spec with
                | Some p, None => Some (sp_Network p)
                | _, np => np
                end in
  let span := sx_span w in
  let dir := buildPath (sx_workspace e) plan in
  let (r, w) :=
    try (writeScript dir spec w) (fun err => "sandbox write script: " +:+ err) (fun w =>
    try (match p_Input plan with Some i => writeInput dir i w | None => (None, w) end)
        (fun err => "sandbox write input: " +:+ err) (fun w =>
    try (if String.eqb (s_Workspace spec) "" then (None, w) else snapshotOriginals dir spec w)
        (fun err => "sandbox snapshot: " +:+ err) (fun w =>
    let env := sx_credentials (p_Namespace plan) (p_AgentFlowDefinitionID plan) w in
    let trigger := make_trigger plan dir policy span env in
    let result_topic :=
      SandboxResultTopic (p_Namespace plan) (p_AgentFlowDefinitionID plan) (p_AgentFlowRunID plan) in
    let trigger_topic :=
      SandboxTriggerTopic (p_Namespace plan) (p_AgentFlowDefinitionID plan) (p_AgentFlowRunID plan) in
    try (sx_subscribe result_topic w) (fun err => "sandbox subscribe: " +:+ err) (fun w =>
    try (sx_publish trigger_topic (p_PlanID plan) trigger w)
        (fun err => "sandbox publish: " +:+ err) (fun w =>
    let '((events, final), w) := sx_wait result_topic dir w in
    (Ok (wait_loop events final), w)))))) in
  (Ret r, w).
End Executor.

(** ** The manager's side *)

Record FlowgentSandboxManager := {
  sm_ID : string;
  sm_policy : SandboxPolicy;
  sm_image : string;
  sm_workspace : string;
  sm_distributed : bool;
  sm_slots : Z;
  sm_namespaceID : string;
  sm_flowID : string;
}.

Definition default_policy : SandboxPolicy :=
  {| sp_Network := {| np_Mode := "none"; np_Allowed := []; np_Denied := [] |};
     sp_AllowedRuntimes := ["python3"; "bash"; "node"]; sp_BannedCommands := [];
     sp_DefaultTimeout := "120s"; sp_MaxTimeout := "600s";
     sp_DefaultResources := Some {| sr_CPU := "500m"; sr_Memory := "256Mi" |};
     sp_MaxResources := None |}.

Definition NewFlowgentSandboxManager (tempDir id image workspace : string)
    (policy : option SandboxPolicy) : FlowgentSandboxManager :=
  {| sm_ID := id; sm_policy := default default_policy policy; sm_image := image;
     sm_workspace := if String.eqb workspace "" then tempDir else workspace;
     sm_distributed := false; sm_slots := 1; sm_namespaceID := ""; sm_flowID := "" |}.

Definition SetSlots (slots : Z) (w : FlowgentSandboxManager) : FlowgentSandboxManager :=
  {| sm_ID := sm_ID w; sm_policy := sm_policy w; sm_image := sm_image w;
     sm_workspace := sm_workspace w; sm_distributed := sm_distributed w;
     sm_slots := if (slots <=? 0)%Z then 1%Z else slots;
     sm_namespaceID := sm_namespaceID w; sm_flowID := sm_flowID w |}.

Definition SetScope (ns flow : string) (w : FlowgentSandboxManager) : FlowgentSandboxManager :=
  {| sm_ID := sm_ID w; sm_policy := sm_policy w; sm_image := sm_image w;
     sm_workspace := sm_workspace w; sm_distributed := sm_distributed w;
     sm_slots := sm_slots w; sm_namespaceID := ns; sm_flowID := flow |}.

(** [sanitizeShareGroup] on UTF-8 text: one dash for each character that is
    not allowed, so none for a continuation byte. *)
Definition share_char (c : ascii) : bool :=
  let n := nat_of_ascii c in
  (Nat.leb 97 n && Nat.leb n 122) || (Nat.leb 65 n && Nat.leb n 90) ||
  (Nat.leb 48 n && Nat.leb n 57) || Ascii.eqb c "-" || Ascii.eqb c "_".

Definition continuation (c : ascii) : bool :=
  let n := nat_of_ascii c in Nat.leb 128 n && Nat.leb n 191.

Fixpoint map_share (s : string) : string :=
  match s with
  | "" => ""
  | String c s' =>
      if share_char c then String c (map_share s')
      else if continuation c then map_share s'
      else String "-"%char (map_share s')
  end.

Definition sanitizeShareGroup (v : string) : string :=
  let v := TrimSpace v in if String.eqb v "" then "default" else map_share v.

Definition subscriptionTopic (w : FlowgentSandboxManager) : string :=
  let scoped := negb (String.eqb (sm_namespaceID w) "") && negb (String.eqb (sm_flowID w) "") in
  let filter :=
    if scoped then run_topic (sm_namespaceID w) (sm_flowID w) "+" "sandbox" "trigger"
    else run_topic "+" "+" "+" "sandbox" "trigger" in
  let group :=
    if scoped then "sandbox-pool-" +:+ sanitizeShareGroup (sm_namespaceID w) +:+ "-" +:+
                   sanitizeShareGroup (sm_flowID w)
    else "sandbox-pool" in
  if sm_distributed w then "$share/" +:+ group +:+ "/" +:+ filter else filter.

Definition isRuntimeAllowed (w : FlowgentSandboxManager) (r : string) : bool :=
  match sp_AllowedRuntimes (sm_policy w) with
  | [] => true
  | l => existsb (String.eqb r) l
  end.

(** [checkBanned]: the first banned pattern the script contains. *)
Fixpoint first_banned (patterns : list string) (lower : string) : string :=
  match patterns with
  | [] => ""
  | p :: rest => if Contains lower (ToLower p) then p else first_banned rest lower
  end.

Definition checkBanned (w : FlowgentSandboxManager) (script : string) : string :=
  first_banned (sp_BannedCommands (sm_policy w)) (ToLower script).

(** [tryParseJSON] and what it feeds. *)
Fixpoint split_lines (s : string) : list string :=
  match s with
  | "" => [""]
  | String c s' =>
      if Ascii.eqb c (ascii_of_nat 10) then "" :: split_lines s'
      else match split_lines s' with
           | p :: ps => String c p :: ps
           | [] => [String c ""]
           end
  end.

Definition parseJSONObject (s : string) : option gomap :=
  if HasPrefix s "{" then
    match UnmarshalObject s with
    | Some v => Some (default [] v)
    | None => None
    end
  else None.

Fixpoint first_object (lines : list string) : option gomap :=
  match lines with
  | [] => None
  | l :: rest =>
      let line := TrimSpace l in
      if String.eqb line "" then first_object rest
      else match parseJSONObject line with
           | Some v => Some v
           | None => first_object rest
           end
  end.

Definition tryParseJSON (s : string) : option gomap :=
  let s := TrimSpace s in
  if String.eqb s "" then None
  else match parseJSONObject s with
       | Some v => Some v
       | None => first_object (rev (split_lines s))
       end.

Definition add_missing (output : gomap) (kv : string * any) : gomap :=
  if mhas kv.1 output then output else mset kv.1 kv.2 output.

Definition attachParsedOutput (output : gomap) (stdout : string) : gomap :=
  match tryParseJSON stdout with
  | None => output
  | Some parsed => fold_left add_missing parsed (mset "parsed" (VMap parsed) output)
  end.

(** ** Running scripts *)

(** A finished process: the error of waiting for it, its exit code (-1 when
    unknown) and its output. *)
Record Exited := { ex_err : option string; ex_code : Z; ex_stdout : string; ex_stderr : string }.

Class SandboxHost := {
  write_error : string -> option string;
  parse_duration : string -> option Z;
  run_start : ScriptCommand -> option string;
  run_handshake : ScriptCommand -> option string;
  run_exit : ScriptCommand -> Exited;
  run_docker : list string -> Exited;
  container_name : string;
  publish_outcome : nat -> option string;
  wait_cancelled : nat -> option string;
}.

(** How a script was run. *)
Inductive Launched :=
| InProcess (cmd : ScriptCommand)
| InDocker (args : list string).

Record Ran := { ran_runtime : string; ran_script : string; ran_as : Launched }.

Record SbWorld := {
  sb_files : volume;
  sb_ran : list Ran;
  sb_published : list (string * string * TaskResult);
}.

Section Manager.
Context `{SandboxHost} `{Resolver}.
Implicit Types (m : FlowgentSandboxManager) (w : SbWorld).

(** [os.WriteFile] *)
Definition write_file (path content : string) (w : SbWorld) : option string * SbWorld :=
  match write_error path with
  | Some e => (Some e, w)
  | None => (None, {| sb_files := <[path := content]> (sb_files w); sb_ran := sb_ran w;
                      sb_published := sb_published w |})
  end.

Definition launched (r : Ran) (w : SbWorld) : SbWorld :=
  {| sb_files := sb_files w; sb_ran := sb_ran w ++ [r]; sb_published := sb_published w |}.

(** [writeResultFile] and the status file after it; write errors are
    ignored. *)
Definition finish_files (scriptPath : string) (r : TaskResult) (status : string) (w : SbWorld) : SbWorld :=
  let w := (write_file (PathJoin [scriptPath; "result.json"]) (marshal_result r) w).2 in
  (write_file (PathJoin [scriptPath; "status"]) status w).2.

Definition cmd_notifier (c : ScriptCommand) : option Notifier :=
  match c with ChildCmd _ n => n | DirectCmd _ _ => None end.

Definition executeInProcess (scriptPath script runtime : string) (netPolicy : NetworkPolicy)
    (timeout : Z) (w : SbWorld) : TaskResult * SbWorld :=
  match write_file (script_file scriptPath runtime) script w with
  | (Some e, w) => (error_result ("write script: " +:+ e), w)
  | (None, w) =>
      match BuildFilter (Some netPolicy) with
      | Err e => (error_result ("seccomp build: " +:+ e), w)
      | Ok filter =>
          let cmd := ScriptCmd filter scriptPath runtime in
          match run_start cmd with
          | Some e => (error_result ("start script: " +:+ e), w)
          | None =>
              let w := launched {| ran_runtime := runtime; ran_script := script;
                                   ran_as := InProcess cmd |} w in
              match cmd_notifier cmd, run_handshake cmd with
              | Some _, Some e => (error_result ("seccomp notifier handshake" +:+ e), w)
              | _, _ =>
                  let x := run_exit cmd in
                  match ex_err x with
                  | Some e =>
                      let r := {| tr_Output := Some [("exit_code", VInt (ex_code x));
                                    ("stdout", VStr (ex_stdout x)); ("stderr", VStr (ex_stderr x));
                                    ("runtime", VStr runtime);
                                    ("timeout", VStr (Duration_String timeout))];
                                  tr_Error := "script failed: " +:+ e |} in
                      (r, finish_files scriptPath r "FAILED" w)
                  | None =>
                      let output := [("exit_code", VInt 0); ("stdout", VStr (ex_stdout x));
                                     ("stderr", VStr (ex_stderr x)); ("runtime", VStr runtime)] in
                      let r := {| tr_Output := Some (attachParsedOutput output (ex_stdout x));
                                  tr_Error := "" |} in
                      (r, finish_files scriptPath r "SUCCESS" w)
                  end
              end
          end
      end
  end.

(** The arguments of [docker run]; every network mode gives no network. *)
Definition docker_args (m : FlowgentSandboxManager) (scriptPath runtime workspace : string)
    (env : list (string * string)) : list string :=
  ["run"; "--rm"; "--name"; container_name; "--memory=256Mi"; "--cpus=1.0"; "--network=none";
   "-v"; scriptPath +:+ ":/sandbox:rw"; "--workdir"; "/sandbox"] ++
  (if String.eqb workspace "" then [] else ["-v"; workspace +:+ ":/workspace:rw"]) ++
  concat (map (fun kv => ["-e"; kv.1 +:+ "=" +:+ kv.2]) env) ++
  [sm_image m; runtime; "/sandbox/script." +:+ extForRuntime runtime].

Definition executeInDocker (m : FlowgentSandboxManager) (scriptPath script runtime workspace : string)
    (env : list (string * string)) (w : SbWorld) : TaskResult * SbWorld :=
  match write_file (script_file scriptPath runtime) script w with
  | (Some e, w) => (error_result ("write script: " +:+ e), w)
  | (None, w) =>
      let args := docker_args m scriptPath runtime workspace env in
      let w := launched {| ran_runtime := runtime; ran_script := script;
                           ran_as := InDocker args |} w in
      let x := run_docker args in
      match ex_err x with
      | Some e =>
          let r := {| tr_Output := Some [("stdout", VStr (ex_stdout x)); ("stderr", VStr (ex_stderr x))];
                      tr_Error := "docker sandbox failed: " +:+ e |} in
          (r, finish_files scriptPath r "FAILED" w)
      | None =>
          let output := [("stdout", VStr (ex_stdout x)); ("stderr", VStr (ex_stderr x));
                         ("runtime", VStr runtime)] in
          let r := {| tr_Output := Some (attachParsedOutput output (ex_stdout x));
                      tr_Error := "" |} in
          (r, finish_files scriptPath r "SUCCESS" w)
      end
  end.

Definition sandbox_execute (m : FlowgentSandboxManager) (t : SandboxTrigger) (script : string)
    (w : SbWorld) : TaskResult * SbWorld :=
  let runtime := if String.eqb (st_Runtime t) "" then "bash" else st_Runtime t in
  if negb (isRuntimeAllowed m runtime) then
    (error_result ("runtime " +:+ Quote runtime +:+ " not allowed"), w)
  else
    let banned := checkBanned m script in
    if negb (String.eqb banned "") then (error_result ("banned pattern: " +:+ Quote banned), w)
    else
      let timeout := if String.eqb (st_Timeout t) "" then sp_DefaultTimeout (sm_policy m)
                     else st_Timeout t in
      let d := default 120000000000%Z (parse_duration timeout) in
      let netPolicy := default (sp_Network (sm_policy m)) (st_NetworkPolicy t) in
      if negb (String.eqb (sm_image m) "") then
        executeInDocker m (st_ScriptPath t) script runtime (st_Workspace t) (st_Env t) w
      else executeInProcess (st_ScriptPath t) script runtime netPolicy d w.

(** [publishResult]: [budget] attempts remain, [attempt] is the next. *)
Fixpoint publish_loop (budget attempt : nat) (topic planID : string) (r : TaskResult)
    (lastErr : string) (w : SbWorld) : option string * SbWorld :=
  match budget with
  | O => (Some lastErr, w)
  | S budget =>
      match publish_outcome attempt with
      | None => (None, {| sb_files := sb_files w; sb_ran := sb_ran w;
                          sb_published := sb_published w ++ [(topic, planID, r)] |})
      | Some err =>
          match wait_cancelled attempt with
          | Some e => (Some e, w)
          | None => publish_loop budget (S attempt) topic planID r err w
          end
      end
  end.

Definition publishResult (t : SandboxTrigger) (r : TaskResult) (w : SbWorld) : option string * SbWorld :=
  let ns := if String.eqb (st_Namespace t) "" then "default" else st_Namespace t in
  publish_loop 5 1 (SandboxResultTopic ns (st_FlowID t) (st_RunID t)) (st_PlanID t) r "" w.

(** [readScriptFromVolume]; the error of a missing file. *)
Definition readScriptFromVolume (t : SandboxTrigger) (w : SbWorld) : res string :=
  let path := script_file (st_ScriptPath t) (st_Runtime t) in
  match sb_files w !! path with
  | Some s => Ok s
  | None => Err ("open " +:+ path +:+ ": no such file or directory")
  end.

(** [handleTrigger] on a decoded payload ([None]: not JSON). *)
Definition handleTrigger (m : FlowgentSandboxManager) (payload : option SandboxTrigger) (w : SbWorld)
    : SbWorld :=
  match payload with
  | None => w
  | Some t =>
      match readScriptFromVolume t w with
      | Err e => (publishResult t (error_result ("read script: " +:+ e)) w).2
      | Ok script =>
          let w := (write_file (PathJoin [st_ScriptPath t; "status"]) "RUNNING" w).2 in
          let (r, w) := sandbox_execute m t script w in
          (publishResult t r w).2
      end
  end.
End Manager.
