(* ===== verification/SandboxFacts.v ===== *)
(** * Properties of the sandbox

    Where scripts are written, which scripts run and how they are confined,
    and what is published about them. *)

From S2P Require Export Sandbox.
From Stdlib Require Import Ascii.

Local Open Scope string_scope.
Local Open Scope list_scope.

(** ** Paths *)

Lemma replace_go_no_char c old new s k :
  no_char c new = true -> no_char c s = true -> no_char c (replace_go old new s k) = true.
Proof.
  intros Hn. revert k. induction s as [|d s IH]; intros k Hs; [done|].
  cbn [no_char] in Hs. apply andb_true_iff in Hs as [Hd Hs].
  cbn [replace_go]. destruct k as [|k]; [|by apply IH].
  destruct (HasPrefix _ _).
  - by rewrite no_char_append, Hn, IH.
  - cbn [no_char]. by rewrite Hd, IH.
Qed.

Lemma replace_go_removes c new s :
  no_char c new = true -> no_char c (replace_go (String c "") new s 0) = true.
Proof.
  intros Hn. induction s as [|d s IH]; [done|]. cbn [replace_go HasPrefix].
  destruct (Ascii.eqb_spec c d) as [->|Hne]; cbn [andb].
  - change (String.length (String d "") - 1) with 0. by rewrite no_char_append, Hn, IH.
  - cbn [no_char]. rewrite IH, andb_true_r. apply negb_true_iff, Ascii.eqb_neq. congruence.
Qed.

Lemma replace_go_nonempty old new s :
  new <> "" -> s <> "" -> replace_go old new s 0 <> "".
Proof.
  intros Hn Hs. destruct s as [|c s]; [done|]. cbn [replace_go].
  destruct (HasPrefix _ _); [|done]. by destruct new.
Qed.

Lemma replace_dotdot s : replace_go ".." "_" s 0 <> "..".
Proof.
  destruct s as [|a s]; [done|]. cbn [replace_go].
  destruct (HasPrefix (String a s) "..") eqn:Hp; [done|]. intros [= -> Heq].
  destruct s as [|b s]; [done|]. cbn [replace_go] in Heq.
  destruct (HasPrefix (String b s) "..") eqn:Hp2; [done|]. injection Heq as -> _.
  discriminate Hp.
Qed.

Lemma sanitize_segment s : sanitize s <> "" /\ sanitize s <> ".." /\ level (sanitize s) = true.
Proof.
  unfold sanitize. destruct (String.eqb_spec (TrimSpace s) "") as [_|Hne]; [done|].
  unfold ReplaceAll, level. split_and!.
  - by repeat (apply replace_go_nonempty; [done|]).
  - apply replace_dotdot.
  - do 2 (apply replace_go_no_char; [done|]). by apply replace_go_removes.
Qed.

Definition plan_segments (plan : ExecutionPlan) : list string :=
  [sanitize (p_Namespace plan); sanitize (p_AgentFlowDefinitionID plan);
   sanitize (p_AgentFlowRunID plan); sanitize (p_PlanID plan)].

(** Whatever the ids of a plan, its script directory is the workspace
    directory extended by ordinary entries: the cleaned components of the
    workspace, then the sanitized ids (those that are not a single dot), none
    of which is empty, a parent reference or contains a slash. *)
Theorem buildPath_contained workspace plan :
  workspace <> "" ->
  let kept := List.filter (fun c => negb (String.eqb c ".")) (plan_segments plan) in
  buildPath workspace plan = render (HasPrefix workspace "/") (rev kept ++ clean_stack workspace) /\
  Forall (fun c => plain c = true) kept.
Proof.
  intros Hws kept.
  assert (forall c, c ∈ plan_segments plan -> c <> "" /\ c <> ".." /\ level c = true) as Hseg.
  { intros c Hc. unfold plan_segments in Hc.
    repeat (apply elem_of_cons in Hc as [->|Hc]; [apply sanitize_segment|]).
    by apply elem_of_nil in Hc. }
  split.
  - unfold buildPath. fold (plan_segments plan). rewrite clean_stack_PathJoin; [|done|..].
    + do 3 f_equal. unfold kept. apply filter_ext_in. intros c Hc%list_elem_of_In.
      destruct (Hseg c Hc) as (Hne & _). by apply String.eqb_neq in Hne as ->.
    + apply forallb_forall. intros c Hc%list_elem_of_In. by apply Hseg.
    + intros Hdd. by destruct (Hseg _ Hdd) as (_ & ? & _).
  - apply Forall_forall. intros c Hc. unfold kept in Hc.
    apply list_elem_of_In, filter_In in Hc as [Hin%list_elem_of_In Hdot].
    destruct (Hseg c Hin) as (Hne & Hdd & Hl). unfold plain.
    apply String.eqb_neq in Hne as ->. apply String.eqb_neq in Hdd as ->. by rewrite Hdot, Hl.
Qed.

(** ** The executor's protocol *)

Inductive SxOp :=
| OpMkdir (p : string)
| OpWrite (p content : string)
| OpCopy (src dst : string)
| OpSubscribe (topic : string)
| OpPublish (topic id : string) (t : SandboxTrigger).

Section Protocol.
Context (fails : SxOp -> option string) (creds : list (string * string)) (span : string)
        (waiting : list WaitEvent * option TaskResult).

(** The world as the log of the operations, any of which may fail. *)
#[local] Instance log_env : SandboxEnv (list SxOp) :=
  let log op w := (fails op, w ++ [op]) in
  {| sx_mkdir p w := log (OpMkdir p) w; sx_write p c w := log (OpWrite p c) w;
     sx_copy a b w := log (OpCopy a b) w; sx_credentials _ _ _ := creds; sx_span _ := span;
     sx_subscribe t w := log (OpSubscribe t) w; sx_publish t id tr w := log (OpPublish t id tr) w;
     sx_wait _ _ w := (waiting, w) |}.

Definition silent (w : list SxOp) : Prop := forall topic id t, ~ OpPublish topic id t ∈ w.

Lemma silent_app l1 l2 : silent l1 -> silent l2 -> silent (l1 ++ l2).
Proof. intros H1 H2 topic id t [Hin|Hin]%elem_of_app; [by eapply H1|by eapply H2]. Qed.

Lemma silent_nil : silent [].
Proof. intros ? ? ?. apply not_elem_of_nil. Qed.

Lemma silent_cons op l :
  (forall topic id t, op <> OpPublish topic id t) -> silent l -> silent (op :: l).
Proof. intros Hop Hl topic id t [Heq|Hin]%elem_of_cons; [by eapply Hop|by eapply Hl]. Qed.

Local Ltac silent := repeat (apply silent_cons; [done|]); apply silent_nil.

(** The steps before the subscription add silent operations to the log. *)
Lemma writeScript_log dir spec w :
  exists l, writeScript dir spec w = ((writeScript dir spec w).1, w ++ l) /\ silent l /\
    ((writeScript dir spec w).1 = None ->
     OpWrite (script_file dir (s_Runtime spec)) (s_Script spec) ∈ l).
Proof.
  unfold writeScript, script_file. cbn [sx_mkdir sx_write log_env].
  destruct (fails (OpMkdir dir)).
  { eexists. split; [reflexivity|]. split; [silent|done]. }
  destruct (fails (OpWrite _ _)); rewrite <- ?app_assoc.
  - eexists. split; [reflexivity|]. split; [silent|done].
  - eexists. split; [reflexivity|]. cbn [app].
    split; [silent|]. intros _. set_solver.
Qed.

Lemma writeInput_log dir i w :
  exists l, writeInput dir i w = ((writeInput dir i w).1, w ++ l) /\ silent l.
Proof.
  unfold writeInput. cbn [sx_mkdir sx_write log_env].
  destruct (fails (OpMkdir dir)); [|destruct (json_ok _)]; rewrite <- ?app_assoc;
    eexists; (split; [reflexivity|]); silent.
Qed.

Lemma snapshot_log dir spec w :
  exists l, snapshotOriginals dir spec w = ((snapshotOriginals dir spec w).1, w ++ l) /\ silent l.
Proof.
  unfold snapshotOriginals. cbn [sx_mkdir sx_copy log_env].
  destruct (fails (OpMkdir _)); rewrite <- ?app_assoc; eexists; (split; [reflexivity|]); silent.
Qed.

Lemma nothing_log (w : list SxOp) : exists l, (@None string, w) = (None, w ++ l) /\ silent l.
Proof. exists []. by rewrite app_nil_r; split; [|apply silent_nil]. Qed.

(** The executor publishes a trigger at most once, as its last operation,
    immediately after it subscribed to the run's result topic and after the
    script was written where the trigger says; when an earlier step fails, the
    task fails and nothing is published. *)
Theorem SandboxExecute_protocol e plan scope r w :
  SandboxExecute e plan scope [] = (Ret r, w) ->
  let dir := buildPath (sx_workspace e) plan in
  let topic f := f (p_Namespace plan) (p_AgentFlowDefinitionID plan) (p_AgentFlowRunID plan) in
  (is_ok r = false /\ silent w) \/
  (exists pre t, w = pre ++ [OpSubscribe (topic SandboxResultTopic);
                             OpPublish (topic SandboxTriggerTopic) (p_PlanID plan) t] /\
     silent pre /\ st_ScriptPath t = dir /\ st_PlanID t = p_PlanID plan /\
     OpWrite (script_file dir (s_Runtime (p_NodeSpec plan))) (s_Script (p_NodeSpec plan)) ∈ pre).
Proof.
  intros Hex dir topic. unfold SandboxExecute in Hex. fold dir in Hex.
  destruct (writeScript_log dir (p_NodeSpec plan) []) as (l1 & E1 & S1 & Hw).
  rewrite E1 in Hex. revert Hex. unfold try at 1.
  destruct (writeScript dir (p_NodeSpec plan) []).1 as [err|];
    [intros [= <- <-]; by left|cbn [app]; specialize (Hw eq_refl)].
  assert (exists e2 l2, (match p_Input plan with Some i => writeInput dir i l1 | None => (None, l1) end)
            = (e2, l1 ++ l2) /\ silent l2) as (e2 & l2 & -> & S2).
  { destruct (p_Input plan) as [i|]; [|eexists; apply nothing_log].
    destruct (writeInput_log dir i l1) as (l & -> & ?). eauto. }
  unfold try at 1. destruct e2 as [err|]; [intros [= <- <-]; left; by eauto using silent_app|].
  assert (exists e3 l3, (if String.eqb (s_Workspace (p_NodeSpec plan)) "" then (None, l1 ++ l2)
             else snapshotOriginals dir (p_NodeSpec plan) (l1 ++ l2))
            = (e3, (l1 ++ l2) ++ l3) /\ silent l3) as (e3 & l3 & -> & S3).
  { destruct (String.eqb _ _); [eexists; apply nothing_log|].
    destruct (snapshot_log dir (p_NodeSpec plan) (l1 ++ l2)) as (l & -> & ?). eauto. }
  unfold try at 1. destruct e3 as [err|]; [intros [= <- <-]; left; by eauto using silent_app|].
  set (pre := (l1 ++ l2) ++ l3).
  assert (silent pre) as Hpre by (by repeat apply silent_app).
  cbn [sx_subscribe sx_publish sx_wait sx_credentials sx_span log_env]. unfold try at 1.
  destruct (fails (OpSubscribe _)).
  { intros [= <- <-]. left. split; [done|]. apply silent_app; [done|silent]. }
  unfold try. intros Hex. right. exists pre. eexists.
  split; [|split; [done|split; [|split; [|unfold pre; set_solver]]]].
  - destruct (fails (OpPublish _ _ _)); [|destruct waiting]; injection Hex as <- <-;
      rewrite <- app_assoc; reflexivity.
  - reflexivity.
  - reflexivity.
Qed.
End Protocol.

(** ** The manager *)

Lemma mget_add_missing k output kv :
  mget k (add_missing output kv) =
  match mget k output with
  | Some v => Some v
  | None => if String.eqb k kv.1 then Some kv.2 else None
  end.
Proof.
  unfold add_missing, mhas. destruct (mget kv.1 output) as [v|] eqn:E.
  - destruct (mget k output) eqn:Ek; [done|]. destruct (String.eqb_spec k kv.1); [congruence|done].
  - rewrite mget_mset. destruct (String.eqb_spec k kv.1) as [->|]; [by rewrite E|].
    by destruct (mget k output).
Qed.

Lemma mget_add_all k (parsed output : gomap) :
  mget k (fold_left add_missing parsed output) =
  match mget k output with Some v => Some v | None => mget k parsed end.
Proof.
  revert output. induction parsed as [|[k' v'] parsed IH]; intros output; cbn [fold_left].
  - by destruct (mget k output).
  - rewrite IH, mget_add_missing. cbn [fst snd mget]. destruct (mget k output); [done|].
    by destruct (String.eqb k k').
Qed.

(** The output of a successful script shows the object it printed under
    its own keys, but cannot forge what the manager reports: a key the
    manager set keeps the manager's value. *)
Theorem attachParsedOutput_lookup output stdout parsed k :
  tryParseJSON stdout = Some parsed ->
  mget k (attachParsedOutput output stdout) =
  if String.eqb k "parsed" then Some (VMap parsed)
  else match mget k output with Some v => Some v | None => mget k parsed end.
Proof.
  intros Hp. unfold attachParsedOutput. rewrite Hp, mget_add_all, mget_mset.
  by destruct (String.eqb k "parsed").
Qed.

Lemma first_banned_clean patterns lower :
  ~ "" ∈ patterns -> first_banned patterns lower = "" ->
  forall p, p ∈ patterns -> Contains lower (ToLower p) = false.
Proof.
  induction patterns as [|q patterns IH]; intros Hne Hb p Hp; [by apply elem_of_nil in Hp|].
  apply not_elem_of_cons in Hne as [Hq Hne]. cbn [first_banned] in Hb.
  destruct (Contains lower (ToLower q)) eqn:E; [congruence|].
  apply elem_of_cons in Hp as [->|Hp]; [done|by apply IH].
Qed.

Section Manager.
Context `{SandboxHost} `{Resolver}.
Implicit Types (m : FlowgentSandboxManager) (w : SbWorld).

Lemma write_file_ran path c w : sb_ran (write_file path c w).2 = sb_ran w.
Proof. unfold write_file. by destruct (write_error path). Qed.
Lemma write_file_published path c w : sb_published (write_file path c w).2 = sb_published w.
Proof. unfold write_file. by destruct (write_error path). Qed.
Lemma finish_files_ran p r st w : sb_ran (finish_files p r st w) = sb_ran w.
Proof. unfold finish_files. by rewrite !write_file_ran. Qed.
Lemma finish_files_published p r st w : sb_published (finish_files p r st w) = sb_published w.
Proof. unfold finish_files. by rewrite !write_file_published. Qed.

Lemma publish_loop_frame n a topic id r le w :
  sb_ran (publish_loop n a topic id r le w).2 = sb_ran w /\
  sb_files (publish_loop n a topic id r le w).2 = sb_files w.
Proof.
  revert a le. induction n as [|n IH]; intros a le; [done|]. cbn [publish_loop].
  destruct (publish_outcome a); [|done]. by destruct (wait_cancelled a).
Qed.

Lemma publishResult_ran t r w : sb_ran (publishResult t r w).2 = sb_ran w.
Proof. apply publish_loop_frame. Qed.

(** How a script of a trigger may be launched: in a container without
    network when an image is configured, else by the command the filter of
    the policy in force prescribes. *)
Definition confined m (t : SandboxTrigger) (r : Ran) : Prop :=
  match ran_as r with
  | InDocker args => sm_image m <> "" /\ "--network=none" ∈ args
  | InProcess cmd =>
      sm_image m = "" /\
      exists f, BuildFilter (Some (default (sp_Network (sm_policy m)) (st_NetworkPolicy t))) = Ok f /\
                cmd = ScriptCmd f (st_ScriptPath t) (ran_runtime r)
  end.

Lemma executeInDocker_ran m p script rt ws env w :
  exists l, sb_ran (executeInDocker m p script rt ws env w).2 = sb_ran w ++ l /\
    forall r, r ∈ l -> l = [r] /\ r = {| ran_runtime := rt; ran_script := script;
                                    ran_as := InDocker (docker_args m p rt ws env) |}.
Proof.
  unfold executeInDocker. pose proof (write_file_ran (script_file p rt) script w) as Hw.
  destruct (write_file _ _ w) as [[e|] w1]; cbn [snd] in *.
  - exists []. rewrite Hw, app_nil_r. split; [done|]. by intros r Hr%elem_of_nil.
  - eexists [_]. split; [|intros r Hr%list_elem_of_singleton; subst; done].
    destruct (ex_err _); cbn [snd]; rewrite finish_files_ran; unfold launched; cbn [sb_ran];
      by rewrite Hw.
Qed.

Lemma executeInProcess_ran p script rt np d w :
  exists l, sb_ran (executeInProcess p script rt np d w).2 = sb_ran w ++ l /\
    forall r, r ∈ l -> l = [r] /\ exists f, BuildFilter (Some np) = Ok f /\
      r = {| ran_runtime := rt; ran_script := script; ran_as := InProcess (ScriptCmd f p rt) |}.
Proof.
  unfold executeInProcess. pose proof (write_file_ran (script_file p rt) script w) as Hw.
  assert (forall w', sb_ran w' = sb_ran w -> exists l, sb_ran w' = sb_ran w ++ l /\
    forall r, r ∈ l -> l = [r] /\ exists f, BuildFilter (Some np) = Ok f /\
      r = {| ran_runtime := rt; ran_script := script; ran_as := InProcess (ScriptCmd f p rt) |}) as Hnone.
  { intros w' ->. exists []. rewrite app_nil_r. split; [done|]. by intros r Hr%elem_of_nil. }
  destruct (write_file _ _ w) as [[e|] w1]; cbn [snd] in *; [by apply Hnone|].
  destruct (BuildFilter (Some np)) as [f|e] eqn:Hf; [|by apply Hnone].
  destruct (run_start _); [by apply Hnone|].
  eexists [_]. split; [|intros r Hr%list_elem_of_singleton; subst; eauto].
  set (W1 := launched _ _). assert (sb_ran W1 = sb_ran w ++ [{| ran_runtime := rt; ran_script := script;
    ran_as := InProcess (ScriptCmd f p rt) |}]) as HW by (unfold W1, launched; cbn [sb_ran]; by rewrite Hw).
  destruct (cmd_notifier _) as [n|]; [destruct (run_handshake _); [done|]|];
    destruct (ex_err _); cbn [snd]; by rewrite finish_files_ran.
Qed.

(** A trigger launches at most one script, namely the one the volume held
    for it; its runtime is an allowed one, no banned pattern occurs in it
    (unless an empty pattern is configured), and it runs without network in a
    container, or under the filter of the policy in force. *)
Theorem handleTrigger_guards m t w :
  exists l, sb_ran (handleTrigger m (Some t) w) = sb_ran w ++ l /\
  forall r, r ∈ l ->
    l = [r] /\
    sb_files w !! script_file (st_ScriptPath t) (st_Runtime t) = Some (ran_script r) /\
    isRuntimeAllowed m (ran_runtime r) = true /\
    (~ "" ∈ sp_BannedCommands (sm_policy m) ->
     forall p, p ∈ sp_BannedCommands (sm_policy m) ->
       Contains (ToLower (ran_script r)) (ToLower p) = false) /\
    confined m t r.
Proof.
  assert (forall w', sb_ran w' = sb_ran w -> exists l, sb_ran w' = sb_ran w ++ l /\
    forall r, r ∈ l -> l = [r] /\
    sb_files w !! script_file (st_ScriptPath t) (st_Runtime t) = Some (ran_script r) /\
    isRuntimeAllowed m (ran_runtime r) = true /\
    (~ "" ∈ sp_BannedCommands (sm_policy m) ->
     forall p, p ∈ sp_BannedCommands (sm_policy m) ->
       Contains (ToLower (ran_script r)) (ToLower p) = false) /\ confined m t r) as Hnone.
  { intros w' ->. exists []. rewrite app_nil_r. split; [done|]. by intros r Hr%elem_of_nil. }
  cbn [handleTrigger]. unfold readScriptFromVolume.
  destruct (sb_files w !! _) as [script|] eqn:Hs; [|apply Hnone, publishResult_ran].
  destruct (sandbox_execute m t script _) as [res w2] eqn:Hex. rewrite publishResult_ran.
  set (w1 := (write_file _ _ w).2) in Hex.
  assert (sb_ran w1 = sb_ran w) as Hw1 by apply write_file_ran. rewrite <- Hw1 in Hnone |- *.
  unfold sandbox_execute in Hex. set (rt := if String.eqb (st_Runtime t) "" then _ else _) in Hex.
  destruct (isRuntimeAllowed m rt) eqn:Hal; [|injection Hex as _ <-; by apply Hnone].
  cbn [negb] in Hex. destruct (String.eqb_spec (checkBanned m script) "") as [Hb|_];
    [|injection Hex as _ <-; by apply Hnone]. cbn [negb] in Hex.
  assert (~ "" ∈ sp_BannedCommands (sm_policy m) ->
     forall p, p ∈ sp_BannedCommands (sm_policy m) -> Contains (ToLower script) (ToLower p) = false)
    as Hban by (intros Hne; by apply first_banned_clean).
  destruct (String.eqb_spec (sm_image m) "") as [Hi|Hi]; cbn [negb] in Hex.
  - match type of Hex with executeInProcess ?a ?b ?c ?d ?e ?f = _ =>
      destruct (executeInProcess_ran a b c d e f) as (l & Hl & Hr); rewrite Hex in Hl end.
    exists l. split; [done|]. intros r Hin. destruct (Hr r Hin) as (-> & f & Hf & ->).
    split_and!; try done. cbn. eauto.
  - match type of Hex with executeInDocker ?a ?b ?c ?d ?e ?f ?g = _ =>
      destruct (executeInDocker_ran a b c d e f g) as (l & Hl & Hr); rewrite Hex in Hl end.
    exists l. split; [done|]. intros r Hin. destruct (Hr r Hin) as (-> & ->).
    split_and!; try done. cbn. split; [done|]. do 6 (apply elem_of_cons; right). by left.
Qed.
End Manager.

Section Publishing.
Context `{SandboxHost} `{Resolver}.
Implicit Types (m : FlowgentSandboxManager) (w : SbWorld).

(** Two entries of a directory whose names end differently. *)
Lemma Join_snoc l c : exists u, Join (l ++ [c]) "/" = u +:+ c.
Proof.
  induction l as [|a l [u IH]]; [by exists ""|].
  exists (a +:+ "/" +:+ u). cbn [app Join]. rewrite IH.
  destruct l; cbn [app]; by rewrite !append_assoc.
Qed.

Lemma entry_suffix dir name x :
  plain (name +:+ x) = true -> HasSuffix (PathJoin [dir; name +:+ x]) x = true.
Proof.
  intros Hp. assert (exists u, PathJoin [dir; name +:+ x] = u +:+ x) as [u ->];
    [|apply HasSuffix_append].
  assert (forall rooted st, exists u, render rooted ((name +:+ x) :: st) = u +:+ x) as Hr.
  { intros rooted st. unfold render. cbn [rev].
    destruct (Join_snoc (rev st) (name +:+ x)) as [u ->]. destruct rooted.
    - exists ("/" +:+ u +:+ name). by rewrite !append_assoc.
    - destruct (String.eqb_spec (u +:+ name +:+ x) "") as [He|_].
      + destruct u; [|done]. change (name +:+ x = "") in He. by rewrite He in Hp.
      + exists (u +:+ name). by rewrite !append_assoc. }
  assert (level (name +:+ x) = true) as Hl.
  { unfold plain in Hp. by apply andb_true_iff in Hp as [_ ?]. }
  destruct (decide (dir = "")) as [->|Hd].
  - cbn [PathJoin String.eqb]. destruct (String.eqb_spec (name +:+ x) "") as [He|_]; [by rewrite He in Hp|].
    cbn [Join]. unfold Clean, clean_stack. rewrite split_slash_level by done. cbn [fold_left].
    rewrite clean_plain by done. apply Hr.
  - cbn [PathJoin]. apply String.eqb_neq in Hd as ->. unfold Clean, clean_stack.
    rewrite split_slash_Join, fold_left_app by (cbn [forallb]; by rewrite Hl).
    cbn [fold_left]. rewrite clean_plain by done. apply Hr.
Qed.

Lemma entry_paths_differ dir : PathJoin [dir; "result.json"] <> PathJoin [dir; "status"].
Proof.
  intros Heq.
  pose proof (entry_suffix dir "result.jso" "n" eq_refl) as H1.
  pose proof (entry_suffix dir "statu" "s" eq_refl) as H2.
  change ("result.jso" +:+ "n") with "result.json" in H1. change ("statu" +:+ "s") with "status" in H2.
  rewrite Heq in H1. unfold HasSuffix in *.
  apply andb_true_iff in H1 as [_ H1%String.eqb_eq], H2 as [_ H2%String.eqb_eq].
  change (String.length "n") with (String.length "s") in H1. congruence.
Qed.

(** The first of [n] attempts from [a] that the broker accepts, with no
    cancellation before it. *)
Definition accepted_at (a n k : nat) : Prop :=
  a <= k < a + n /\ publish_outcome k = None /\
  forall j, a <= j < k -> publish_outcome j <> None /\ wait_cancelled j = None.

Lemma publish_loop_spec n a topic id r le w :
  let (e, w') := publish_loop n a topic id r le w in
  match e with
  | None => sb_published w' = sb_published w ++ [(topic, id, r)] /\ exists k, accepted_at a n k
  | Some _ => sb_published w' = sb_published w /\ forall k, ~ accepted_at a n k
  end.
Proof.
  revert a le. induction n as [|n IH]; intros a le; cbn [publish_loop].
  - split; [done|]. intros k (Hk & _). lia.
  - destruct (publish_outcome a) as [err|] eqn:Ho.
    + destruct (wait_cancelled a) as [e|] eqn:Hc.
      * split; [done|]. intros k (Hk & Hok & Hj). destruct (decide (k = a)) as [->|]; [congruence|].
        destruct (Hj a) as [_ ?]; [lia|congruence].
      * specialize (IH (S a) err). destruct (publish_loop n (S a) topic id r err w) as [[e|] w'].
        -- destruct IH as [-> Hno]. split; [done|]. intros k (Hk & Hok & Hj). apply (Hno k).
           destruct (decide (k = a)) as [->|]; [congruence|].
           split; [lia|]. split; [done|]. intros j Hjk. apply Hj. lia.
        -- destruct IH as [-> (k & Hk & Hok & Hj)]. split; [done|]. exists k. split; [lia|].
           split; [done|]. intros j Hjk. destruct (decide (j = a)) as [->|]; [by rewrite Ho|].
           apply Hj. lia.
    + split; [done|]. exists a. split; [lia|]. split; [done|]. lia.
Qed.

(** The result file of a directory shows a result. *)
Definition result_on_volume (dir : string) (r : TaskResult) w : Prop :=
  write_error (PathJoin [dir; "result.json"]) = None ->
  sb_files w !! PathJoin [dir; "result.json"] = Some (marshal_result r).

Lemma write_file_lookup p c w q :
  sb_files (write_file p c w).2 !! q =
  if decide (q = p /\ write_error p = None) then Some c else sb_files w !! q.
Proof.
  unfold write_file. destruct (write_error p) eqn:E; cbn [snd sb_files].
  - rewrite decide_False by naive_solver. done.
  - destruct (decide (q = p)) as [->|].
    + by rewrite lookup_insert_eq, decide_True.
    + rewrite lookup_insert_ne, decide_False by naive_solver. done.
Qed.

Lemma finish_files_result dir r st w : result_on_volume dir r (finish_files dir r st w).
Proof.
  intros Hok. unfold finish_files. rewrite !write_file_lookup.
  rewrite decide_False, decide_True; [done|done|].
  intros [Heq _]. by apply (entry_paths_differ dir) in Heq.
Qed.

Lemma sandbox_execute_frame m t script w :
  sb_published (sandbox_execute m t script w).2 = sb_published w /\
  (tr_Output (sandbox_execute m t script w).1 <> None ->
   result_on_volume (st_ScriptPath t) (sandbox_execute m t script w).1 (sandbox_execute m t script w).2).
Proof.
  unfold sandbox_execute. destruct (isRuntimeAllowed _ _); [|done].
  destruct (String.eqb (checkBanned m script) ""); [|done]. cbn [negb].
  set (rt := if String.eqb (st_Runtime t) "" then _ else _).
  pose proof (write_file_published (script_file (st_ScriptPath t) rt) script w) as Hw.
  destruct (String.eqb (sm_image m) ""); cbn [negb].
  - unfold executeInProcess. destruct (write_file _ script w) as [[e|] w1]; cbn [fst snd] in *; [done|].
    destruct (BuildFilter _); [|done]. destruct (run_start _); [done|].
    destruct (cmd_notifier _); [destruct (run_handshake _); [done|]|];
      (destruct (ex_err _); cbn [fst snd]; rewrite finish_files_published;
       (split; [done|]); intros _; apply finish_files_result).
  - unfold executeInDocker. destruct (write_file _ script w) as [[e|] w1]; cbn [fst snd] in *; [done|].
    destruct (ex_err _); cbn [fst snd]; rewrite finish_files_published;
      (split; [done|]); intros _; apply finish_files_result.
Qed.

(** A decoded trigger gets at most one result, on the result topic of its
    run (namespace default when it has none) and under its plan id, exactly
    when one of five attempts is accepted before a cancellation; a result with
    output is also the one in the script directory's result file. *)
Theorem handleTrigger_publishes m t w :
  exists r, let w' := handleTrigger m (Some t) w in
  (forall k, accepted_at 1 5 k ->
     sb_published w' = sb_published w ++
       [(SandboxResultTopic (if String.eqb (st_Namespace t) "" then "default" else st_Namespace t)
           (st_FlowID t) (st_RunID t), st_PlanID t, r)]) /\
  ((forall k, ~ accepted_at 1 5 k) -> sb_published w' = sb_published w) /\
  (tr_Output r <> None -> result_on_volume (st_ScriptPath t) r w').
Proof.
  assert (forall r w0, sb_published w0 = sb_published w ->
    (tr_Output r <> None -> result_on_volume (st_ScriptPath t) r w0) ->
    let w' := (publishResult t r w0).2 in
    (forall k, accepted_at 1 5 k -> sb_published w' = sb_published w ++
       [(SandboxResultTopic (if String.eqb (st_Namespace t) "" then "default" else st_Namespace t)
           (st_FlowID t) (st_RunID t), st_PlanID t, r)]) /\
    ((forall k, ~ accepted_at 1 5 k) -> sb_published w' = sb_published w) /\
    (tr_Output r <> None -> result_on_volume (st_ScriptPath t) r w')) as Hpub.
  { intros r w0 Hw0 Hvol w'. unfold w', publishResult.
    set (topic := SandboxResultTopic _ _ _).
    pose proof (publish_loop_spec 5 1 topic (st_PlanID t) r "" w0) as Hspec.
    destruct (publish_loop_frame 5 1 topic (st_PlanID t) r "" w0) as [_ Hfiles].
    destruct (publish_loop 5 1 topic (st_PlanID t) r "" w0) as [e w1]. cbn [snd] in *.
    unfold result_on_volume in *. rewrite Hfiles, <- Hw0.
    destruct e as [e|]; destruct Hspec as [-> Hk]; split_and!; try done.
    - intros k Hacc. by destruct (Hk k).
    - intros Hno. destruct Hk as [k Hk]. by destruct (Hno k). }
  cbn [handleTrigger]. destruct (readScriptFromVolume t w) as [script|e].
  2: { eexists. by apply Hpub. }
  destruct (sandbox_execute m t script _) as [r w1] eqn:Hex. exists r.
  apply Hpub; rewrite (surjective_pairing (sandbox_execute m t script _)) in Hex;
    injection Hex as <- <-.
  - rewrite (proj1 (sandbox_execute_frame _ _ _ _)). apply write_file_published.
  - apply sandbox_execute_frame.
Qed.
End Publishing.

(** ** Witnesses *)

Definition sandbox_spec : NodeSpec :=
  NodeSpecFromNode (mkNode "s" SandboxNode SandboxNode "" "" "" "" "" "" "" None None None None 0
    None None "" None "python3" "print(1)" "" None None "" None).

Definition sandbox_plan : ExecutionPlan :=
  {| p_PlanID := "plan/1"; p_AgentFlowRunID := "run"; p_AgentFlowDefinitionID := "..";
     p_Namespace := "team/../a"; p_TaskID := "t"; p_TaskType := TaskSandbox; p_NodeID := "s";
     p_State := TaskPending; p_RetryCount := 0; p_MaxRetries := 0; p_Input := None;
     p_Result := None; p_NodeSpec := sandbox_spec; p_CreatedAt := 0; p_FinishedAt := None |}.

Example buildPath_contained_witness :
  buildPath "/var/flowgent" sandbox_plan = "/var/flowgent/team___a/_/run/plan_1" /\
  buildPath "/var/flowgent" sandbox_plan =
    render true (rev (List.filter (fun c => negb (String.eqb c ".")) (plan_segments sandbox_plan))
                 ++ clean_stack "/var/flowgent").
Proof.
  split; [vm_compute; reflexivity|].
  apply (buildPath_contained "/var/flowgent" sandbox_plan). discriminate.
Defined.

Example attachParsedOutput_lookup_witness :
  mget "exit_code" (attachParsedOutput [("exit_code", VInt 0)]
    ("log" +:+ newline +:+ "{" +:+ Quote "exit_code" +:+ ": 7}")) = Some (VInt 0).
Proof.
  etransitivity; [apply (attachParsedOutput_lookup _ _ [("exit_code", VFloat (f64_of_Z 7))])|];
    vm_compute; reflexivity.
Defined.

Definition sandbox_log :=
  SandboxExecute (H := log_env (fun _ => None) [] "span" ([], None))
    {| sx_policy := None; sx_workspace := "/ws" |} sandbox_plan [] [].

Example SandboxExecute_protocol_witness :
  exists pre op, sandbox_log.2 = pre ++ [OpSubscribe (SandboxResultTopic "team/../a" ".." "run"); op].
Proof.
  destruct (SandboxExecute_protocol (fun _ => None) [] "span" ([], None)
    {| sx_policy := None; sx_workspace := "/ws" |} sandbox_plan []
    (Ok (error_result "sandbox execution timeout")) sandbox_log.2) as [[Hf _]|(pre & t & Hw & _)];
    [vm_compute; reflexivity|discriminate Hf|].
  exists pre. eexists. exact Hw.
Defined.
