(* ===== verification/TaskManager.v ===== *)
(** * Task managers and the standalone resource manager

    [pkg/core/pkg/engine/taskmanager]: the executors a task manager registers,
    the plans it executes directly ([ExecutePlan]) or from the queue (the slot
    worker), the heartbeat monitor; and
    [pkg/core/pkg/engine/resourcemanager/standalone.go]. *)

From S2P Require Export Executors Sandbox JobMaster.

Local Open Scope string_scope.
Local Open Scope list_scope.

(** ** Interface *)

(** The clock, the task store (its errors are dropped) and the queue. *)
Class TMEnv (W : Type) := {
  tm_now : W -> Z * W;
  tm_save : TaskRunInfo -> W -> W;
  tm_publish : string -> ExecutionPlan -> W -> option string * W;
  tm_cancelled : W -> bool;
}.

(** ** The router of a task manager *)

Record TaskManagerConfig := {
  tc_ID : string;
  tc_SlotCount : Z;
  tc_Namespace : string;
  tc_SandboxPolicy : option SandboxPolicy;
  tc_SandboxWorkspace : string;
}.

Section TaskManager.
Context {W : Type} `{ExecEnv W} `{SandboxEnv W} `{TMEnv W}.

(** The agent executor has the knowledge search, and no memory store. *)
Definition tm_agent (cfg : TaskManagerConfig) : AgentExecutor :=
  {| ae_namespace := tc_Namespace cfg; ae_memStore := false; ae_knowledge := true;
     ae_maxRetries := ae_maxRetries (NewAgentExecutor (tc_Namespace cfg)) |}.

(** The registrations of [NewTaskManager], in its order. *)
Definition tm_router (cfg : TaskManagerConfig) : Router W :=
  let r := Register TaskAgent (AgentExecute (tm_agent cfg)) [] in
  let r := Register TaskCondition ConditionExecute r in
  let r := Register TaskTool ToolExecute r in
  let r := Register TaskSupervisor (SupervisorExecute (tc_Namespace cfg)) r in
  let r := Register TaskCommittee CommitteeExecute r in
  let r := Register TaskMap MapExecute r in
  let r := Register TaskJoin JoinExecute r in
  let r := Register TaskSubflow SubflowExecute r in
  let r := Register TaskHuman HumanExecute r in
  let r := Register TaskNoop NoopExecute r in
  let r := Register TaskSkill SkillExecute r in
  Register TaskSandbox
    (SandboxExecute {| sx_policy := tc_SandboxPolicy cfg; sx_workspace := tc_SandboxWorkspace cfg |}) r.

(** The ids of the slot workers of [NewTaskManager]. *)
Definition slot_count (cfg : TaskManagerConfig) : Z :=
  if (tc_SlotCount cfg <=? 0)%Z then 4%Z else tc_SlotCount cfg.
Definition slot_ids (cfg : TaskManagerConfig) : list string :=
  map (fun i => tc_ID cfg +:+ "-slot-" +:+ Itoa (Z.of_nat i))
      (List.seq 0 (Z.to_nat (slot_count cfg))).

(** The scope of a plan: its input (a [nil] map reads as an empty one). *)
Definition plan_scope (plan : ExecutionPlan) : scope_t := [("input", default [] (p_Input plan))].

(** ** Executing a plan directly *)

Definition finished_task (task : TaskRunInfo) (plan : ExecutionPlan) (r : TaskResult) (now : Z)
    : TaskRunInfo :=
  {| t_ID := t_ID task; t_AgentFlowRunID := t_AgentFlowRunID task; t_NodeID := t_NodeID task;
     t_Status := if String.eqb (tr_Error r) "" then Success else Failed;
     t_Input := p_Input plan; t_Output := tr_Output r; t_Error := tr_Error r;
     t_MaxRetries := t_MaxRetries task; t_ExecID := t_ExecID task; t_FinishedAt := Some now |}.

(** [ExecutePlan]: the result, and the task as the caller sees it after. *)
Definition ExecutePlan (router : Router W) (plan : ExecutionPlan) (task : TaskRunInfo) (w : W)
    : call (res (TaskResult * TaskRunInfo)) * W :=
  let (c, w) := RouterExecute router plan (plan_scope plan) w in
  match c with
  | Panic m => (Panic m, w)
  | Ret (Err e) => (Ret (Err e), w)
  | Ret (Ok r) =>
      let (now, w) := tm_now w in
      let task := finished_task task plan r now in
      (Ret (Ok (r, task)), tm_save task w)
  end.

(** ** The slot worker *)

Definition with_outcome (plan : ExecutionPlan) (st : TaskStatus) (r : TaskResult) (fin : option Z)
    : ExecutionPlan :=
  {| p_PlanID := p_PlanID plan; p_AgentFlowRunID := p_AgentFlowRunID plan;
     p_AgentFlowDefinitionID := p_AgentFlowDefinitionID plan; p_Namespace := p_Namespace plan;
     p_TaskID := p_TaskID plan; p_TaskType := p_TaskType plan; p_NodeID := p_NodeID plan;
     p_State := st; p_RetryCount := p_RetryCount plan; p_MaxRetries := p_MaxRetries plan;
     p_Input := p_Input plan; p_Result := Some r; p_NodeSpec := p_NodeSpec plan;
     p_CreatedAt := p_CreatedAt plan; p_FinishedAt := fin |}.

(** What becomes of a plan: failed by an error or by the error of its result,
    or successful at this time. *)
Definition plan_outcome (plan : ExecutionPlan) (r : res TaskResult) (w : W) : ExecutionPlan * W :=
  match r with
  | Err e => (with_outcome plan Failed (error_result e) (p_FinishedAt plan), w)
  | Ok t =>
      if negb (String.eqb (tr_Error t) "") then (with_outcome plan Failed t (p_FinishedAt plan), w)
      else let (now, w) := tm_now w in (with_outcome plan Success t (Some now), w)
  end.

Definition planResultOutput (r : option TaskResult) : option gomap :=
  match r with Some t => tr_Output t | None => None end.
Definition planResultError (r : option TaskResult) : string :=
  match r with Some t => tr_Error t | None => "" end.

Definition slot_task (plan : ExecutionPlan) : TaskRunInfo :=
  {| t_ID := p_TaskID plan; t_AgentFlowRunID := p_AgentFlowRunID plan; t_NodeID := p_NodeID plan;
     t_Status := p_State plan; t_Input := p_Input plan; t_Output := planResultOutput (p_Result plan);
     t_Error := planResultError (p_Result plan); t_MaxRetries := 0; t_ExecID := p_PlanID plan;
     t_FinishedAt := None |}.

(** [emitDownstream]: up to five attempts to publish the status of a plan
    (the message carries the plan's ids, state, output and error). *)
Fixpoint emit_loop (budget : nat) (topic : string) (plan : ExecutionPlan) (w : W) : bool * W :=
  match budget with
  | O => (false, w)
  | S budget =>
      match tm_publish topic plan w with
      | (None, w) => (true, w)
      | (Some _, w) => if tm_cancelled w then (false, w) else emit_loop budget topic plan w
      end
  end.

Definition emitDownstream (plan : ExecutionPlan) (w : W) : bool * W :=
  emit_loop 5 (ExecResultsTopic (p_Namespace plan) (p_AgentFlowDefinitionID plan)
                 (p_AgentFlowRunID plan)) plan w.

(** The handler of the slot worker on a decoded plan: the plan it publishes
    and whether the queue took it. *)
Definition slot_handler (router : Router W) (plan : ExecutionPlan) (w : W)
    : call (ExecutionPlan * bool) * W :=
  let (c, w) := RouterExecute router plan (plan_scope plan) w in
  match c with
  | Panic m => (Panic m, w)
  | Ret r =>
      let (plan, w) := plan_outcome plan r w in
      let w := tm_save (slot_task plan) w in
      let (sent, w) := emitDownstream plan w in
      (Ret (plan, sent), w)
  end.

(** ** The standalone resource manager *)

Record StandaloneResourceManager := { sr_poolSize : Z; sr_busy : Z }.

Definition NewStandaloneResourceManager (poolSize : Z) : StandaloneResourceManager :=
  {| sr_poolSize := if (poolSize <=? 0)%Z then 10%Z else poolSize; sr_busy := 0 |}.

Definition AvailableSlots (s : StandaloneResourceManager) : Z := (sr_poolSize s - sr_busy s)%Z.

Definition local_task (plan : ExecutionPlan) : TaskRunInfo :=
  {| t_ID := ""; t_AgentFlowRunID := p_AgentFlowRunID plan; t_NodeID := p_NodeID plan;
     t_Status := TaskPending; t_Input := None; t_Output := None; t_Error := ""; t_MaxRetries := 0;
     t_ExecID := p_PlanID plan; t_FinishedAt := None |}.

(** [Schedule], as one step of its caller: the slot is taken and given back
    within the call. *)
Definition StandaloneSchedule (s : StandaloneResourceManager) (router : Router W)
    (plan : ExecutionPlan) (w : W) : call (res TaskResult) * W :=
  if (sr_busy s <? sr_poolSize s)%Z then
    match ExecutePlan router plan (local_task plan) w with
    | (Panic m, w) => (Panic m, w)
    | (Ret (Err e), w) => (Ret (Ok (error_result e)), w)
    | (Ret (Ok (_, task)), w) => (Ret (Ok {| tr_Output := t_Output task; tr_Error := "" |}), w)
    end
  else
    (Ret (Err ("INSUFFICIENT_RESOURCES: all " +:+ Itoa (sr_poolSize s) +:+
               " local slots occupied")), w).
End TaskManager.

(** ** Heartbeats *)

Record TMState := { ts_TMID : string; ts_LastBeat : Z; ts_Capacity : Z; ts_Load : Z; ts_IsAlive : bool }.

Record HeartbeatMonitor := { hm_activeTMs : gmap string TMState; hm_leaseTimeout : Z }.

Definition defaultLeaseTimeout : Z := 15 * second.

Definition NewHeartbeatMonitor (leaseTimeout : Z) : HeartbeatMonitor :=
  {| hm_activeTMs := ∅;
     hm_leaseTimeout := if (leaseTimeout <=? 0)%Z then defaultLeaseTimeout else leaseTimeout |}.

Definition with_beat (s : TMState) (last : Z) (alive : bool) : TMState :=
  {| ts_TMID := ts_TMID s; ts_LastBeat := last; ts_Capacity := ts_Capacity s;
     ts_Load := ts_Load s; ts_IsAlive := alive |}.

Definition recordBeat (tmID : string) (timestamp : Z) (hm : HeartbeatMonitor) : HeartbeatMonitor :=
  let s := match hm_activeTMs hm !! tmID with
           | Some s => s
           | None => {| ts_TMID := tmID; ts_LastBeat := 0; ts_Capacity := 0; ts_Load := 0;
                        ts_IsAlive := true |}
           end in
  {| hm_activeTMs := <[tmID := with_beat s timestamp true]> (hm_activeTMs hm);
     hm_leaseTimeout := hm_leaseTimeout hm |}.

Definition lease_over (hm : HeartbeatMonitor) (now : Z) (s : TMState) : bool :=
  (hm_leaseTimeout hm <? now - ts_LastBeat s)%Z.

Definition detectExpired (now : Z) (hm : HeartbeatMonitor) : HeartbeatMonitor :=
  {| hm_activeTMs := (fun s => if ts_IsAlive s && lease_over hm now s
                               then with_beat s (ts_LastBeat s) false else s) <$> hm_activeTMs hm;
     hm_leaseTimeout := hm_leaseTimeout hm |}.

Definition ActiveTMs `{RangeOrder} (hm : HeartbeatMonitor) : list TMState :=
  List.filter ts_IsAlive (map snd (range_of (hm_activeTMs hm))).

Definition ExpiredTMs `{RangeOrder} (now : Z) (hm : HeartbeatMonitor) : list string :=
  map fst (List.filter (fun e => lease_over hm now e.2) (range_of (hm_activeTMs hm))).
