(* ===== verification/TaskManagerFacts.v ===== *)
(** * Properties of task managers

    What the two ways of executing a plan report about a failed task, and
    which task managers the heartbeat monitor believes alive. *)

From S2P Require Export TaskManager JobMasterFacts.

Local Open Scope string_scope.
Local Open Scope list_scope.

(** ** Outcomes *)

Section Outcomes.
Context {W : Type} `{TMEnv W}.

(** The outcome of a plan, executed by a task manager that returns [r],
    as the two ways of scheduling report it.  From the queue, the plan is
    published as failed exactly when [r] is an error or carries one.  The
    standalone resource manager reports an error of the executor, but drops
    the error that a result carries: such a node counts as completed. *)
Theorem schedule_outcomes s (router : Router W) plan (w w1 : W) r n jm :
  (sr_busy s < sr_poolSize s)%Z ->
  RouterExecute router plan (plan_scope plan) w = (Ret r, w1) ->
  (exists p sent w2, slot_handler router plan w = (Ret (p, sent), w2) /\
     (p_State p = Failed <-> r = Err "" \/ result_error r <> None) /\
     (p_State p = Success <-> exists t, r = Ok t /\ tr_Error t = "" /\ p_Result p = Some t)) /\
  (exists r2 w2, StandaloneSchedule s router plan w = (Ret (Ok r2), w2) /\
     match r with
     | Err e => tr_Error r2 = e
     | Ok t => r2 = {| tr_Output := tr_Output t; tr_Error := "" |} /\
               n ∈ jm_completed (handle_result n plan (Ok r2) jm)
     end).
Proof.
  intros Hb Hr. split.
  - unfold slot_handler, plan_outcome. rewrite Hr. destruct r as [t|e].
    + cbn [result_error]. destruct (String.eqb_spec (tr_Error t) "") as [He|He]; cbn [negb].
      * destruct (tm_now w1) as [now w2]. destruct (emitDownstream _ _) as [sent w3].
        do 3 eexists. split; [reflexivity|]. cbn. split; [|naive_solver].
        split; [done|]. by intros [?|?].
      * destruct (emitDownstream _ _) as [sent w3]. do 3 eexists. split; [reflexivity|]. cbn.
        split; [naive_solver|]. split; [done|]. intros (t' & [= <-] & ? & _). done.
    + destruct (emitDownstream _ _) as [sent w3]. do 3 eexists. split; [reflexivity|]. cbn.
      split; [split; [by right|done]|]. split; [done|]. by intros (? & ? & _).
  - unfold StandaloneSchedule, ExecutePlan. apply Z.ltb_lt in Hb as ->. rewrite Hr.
    destruct r as [t|e]; [|by eauto]. destruct (tm_now w1) as [now w2].
    do 2 eexists. split; [reflexivity|]. cbn [t_Output finished_task]. split; [done|].
    match goal with |- _ ∈ jm_completed (handle_result n plan ?r jm) =>
      destruct (handle_result_spec n plan r jm) as (_ & _ & Hspec) end.
    cbn [result_error tr_Error String.eqb] in Hspec. destruct Hspec as (_ & -> & _). set_solver.
Qed.
End Outcomes.

(** ** Heartbeats *)

Inductive hb_event :=
| Beat (tmID : string) (timestamp : Z)
| Sweep (now : Z).

Definition hb_step (hm : HeartbeatMonitor) (e : hb_event) : HeartbeatMonitor :=
  match e with
  | Beat id ts => recordBeat id ts hm
  | Sweep now => detectExpired now hm
  end.

Definition hb_run (evs : list hb_event) (hm : HeartbeatMonitor) : HeartbeatMonitor :=
  fold_left hb_step evs hm.

(** The timestamp of the last beat of a task manager. *)
Definition last_beat (id : string) (evs : list hb_event) : option Z :=
  fold_left (fun acc e => match e with
                          | Beat id' ts => if String.eqb id id' then Some ts else acc
                          | Sweep _ => acc
                          end) evs None.

(** What the monitor knows after some events: the last beats, and that a
    task manager is held dead only because of a sweep its lease did not
    reach. *)
Definition hb_inv (lease : Z) (evs : list hb_event) (hm : HeartbeatMonitor) : Prop :=
  hm_leaseTimeout hm = lease /\
  (forall id, ts_LastBeat <$> hm_activeTMs hm !! id = last_beat id evs) /\
  (forall id s, hm_activeTMs hm !! id = Some s -> ts_IsAlive s = false ->
     exists t, Sweep t ∈ evs /\ (lease < t - ts_LastBeat s)%Z).

Lemma hb_inv_step lease evs hm e : hb_inv lease evs hm -> hb_inv lease (evs ++ [e]) (hb_step hm e).
Proof.
  intros (Hl & Hlast & Hdead). unfold hb_inv, last_beat in *. destruct e as [id ts|now]; cbn [hb_step].
  - split; [done|]. cbn [hm_activeTMs recordBeat]. split.
    + intros id'. rewrite fold_left_app. cbn [fold_left].
      destruct (String.eqb_spec id' id) as [->|Hne].
      * by rewrite lookup_insert_eq.
      * by rewrite lookup_insert_ne, Hlast.
    + intros id' s Hs Ha. destruct (decide (id' = id)) as [->|Hne].
      * rewrite lookup_insert_eq in Hs. injection Hs as <-. done.
      * rewrite lookup_insert_ne in Hs by done. destruct (Hdead id' s Hs Ha) as (t & Ht & ?).
        exists t. split; [set_solver|done].
  - split; [done|]. cbn [hm_activeTMs detectExpired]. split.
    + intros id. rewrite fold_left_app. cbn [fold_left]. rewrite <- Hlast, lookup_fmap.
      destruct (hm_activeTMs hm !! id) as [s|]; [|done]. cbn.
      by destruct (ts_IsAlive s && lease_over hm now s).
    + intros id s Hs Ha. rewrite lookup_fmap in Hs.
      destruct (hm_activeTMs hm !! id) as [s0|] eqn:E; [|done]. cbn in Hs. injection Hs as <-.
      destruct (ts_IsAlive s0) eqn:Ea; cbn [andb] in Ha |- *.
      * unfold lease_over in *. destruct (Z.ltb_spec (hm_leaseTimeout hm) (now - ts_LastBeat s0));
          [|congruence]. exists now. cbn. split; [set_solver|lia].
      * destruct (Hdead id s0 E Ea) as (t & Ht & ?). exists t. split; [set_solver|done].
Qed.

Lemma hb_inv_run lease evs :
  hb_inv (hm_leaseTimeout (NewHeartbeatMonitor lease)) evs (hb_run evs (NewHeartbeatMonitor lease)).
Proof.
  induction evs as [|e evs IH] using rev_ind.
  - split_and!; [done|..].
    + intros id. cbn. by rewrite lookup_empty.
    + intros id s Hs. cbn in Hs. by rewrite lookup_empty in Hs.
  - unfold hb_run. rewrite fold_left_app. by apply hb_inv_step.
Qed.

(** After a sweep, later than all before it, the monitor holds a task
    manager alive exactly when its last beat lies within the lease, and lists
    exactly the others it knows as expired; beats revive a task manager, and
    one that never beat is unknown. *)
Theorem heartbeat_liveness `{RangeOrder} lease evs now :
  (forall t, Sweep t ∈ evs -> (t <= now)%Z) ->
  let hm := hb_run (evs ++ [Sweep now]) (NewHeartbeatMonitor lease) in
  forall id,
    match last_beat id evs with
    | None => hm_activeTMs hm !! id = None
    | Some ts =>
        exists s, hm_activeTMs hm !! id = Some s /\ ts_LastBeat s = ts /\
          (ts_IsAlive s = true <-> (now - ts <= hm_leaseTimeout hm)%Z) /\
          (id ∈ ExpiredTMs now hm <-> ts_IsAlive s = false)
    end.
Proof.
  intros Hle hm id. unfold hm, hb_run. rewrite fold_left_app. cbn [fold_left hb_step].
  fold (hb_run evs (NewHeartbeatMonitor lease)).
  destruct (hb_inv_run lease evs) as (Hl & Hlast & Hdead).
  set (hm0 := hb_run evs (NewHeartbeatMonitor lease)) in *.
  specialize (Hlast id). cbn [detectExpired hm_activeTMs hm_leaseTimeout].
  destruct (hm_activeTMs hm0 !! id) as [s0|] eqn:E; cbn in Hlast; rewrite <- Hlast.
  2: { by rewrite lookup_fmap, E. }
  set (s := if ts_IsAlive s0 && lease_over hm0 now s0 then with_beat s0 (ts_LastBeat s0) false else s0).
  assert (hm_activeTMs (detectExpired now hm0) !! id = Some s) as Hs
    by (cbn [detectExpired hm_activeTMs]; by rewrite lookup_fmap, E).
  assert (ts_LastBeat s = ts_LastBeat s0) as HLB
    by (unfold s; by destruct (ts_IsAlive s0 && lease_over hm0 now s0)).
  assert (ts_IsAlive s = true <-> (now - ts_LastBeat s0 <= hm_leaseTimeout hm0)%Z) as Halive.
  { unfold s. destruct (ts_IsAlive s0) eqn:Ea; cbn [andb].
    - unfold lease_over. destruct (Z.ltb_spec (hm_leaseTimeout hm0) (now - ts_LastBeat s0)); cbn.
      + split; [done|lia].
      + rewrite Ea. split; [lia|done].
    - rewrite Ea. split; [done|]. intros Hnow. destruct (Hdead id s0 E Ea) as (t & Ht & ?).
      specialize (Hle t Ht). rewrite Hl in Hnow. lia. }
  exists s. split; [exact Hs|]. split; [done|]. split; [exact Halive|].
  unfold ExpiredTMs. rewrite list_elem_of_In, in_map_iff.
  assert (lease_over (detectExpired now hm0) now s = true <-> ts_IsAlive s = false) as Hlo.
  { unfold lease_over. cbn [hm_leaseTimeout detectExpired]. rewrite HLB, Z.ltb_lt.
    rewrite <- not_true_iff_false, Halive. lia. }
  split.
  - intros ([id' s'] & Hid & Hin). cbn in Hid. subst id'. apply filter_In in Hin as [Hin Hov].
    apply list_elem_of_In, range_of_elem in Hin. rewrite Hs in Hin. injection Hin as <-. by apply Hlo.
  - intros Ha. exists (id, s). split; [done|]. apply filter_In. split; [|by apply Hlo].
    by apply list_elem_of_In, range_of_elem.
Qed.

(** ** Witnesses *)

#[local] Instance demo_tm : TMEnv unit := {|
  tm_now w := (0%Z, w); tm_save _ w := w; tm_publish _ _ w := (None, w); tm_cancelled _ := false |}.

Definition failing_router : Router unit :=
  Register TaskNoop (fun _ _ w => (Ret (Ok (error_result "script failed")), w)) [].

Definition noop_spec : NodeSpec :=
  NodeSpecFromNode (mkNode "n" NoopNode NoopNode "" "" "" "" "" "" "" None None None None 0
    None None "" None "" "" "" None None "" None).
Definition noop_plan : ExecutionPlan :=
  {| p_PlanID := "p"; p_AgentFlowRunID := "r"; p_AgentFlowDefinitionID := "f"; p_Namespace := "ns";
     p_TaskID := "t"; p_TaskType := TaskNoop; p_NodeID := "n"; p_State := TaskPending;
     p_RetryCount := 0; p_MaxRetries := 0; p_Input := None; p_Result := None;
     p_NodeSpec := noop_spec; p_CreatedAt := 0; p_FinishedAt := None |}.
Definition fresh_jm : JobMaster :=
  NewJobMaster {| FlowExecutionTimeout := 0; MaxNodeRetries := 0; MaxConcurrentFlows := 0 |}.

Example schedule_outcomes_witness :
  (exists p sent w2, slot_handler failing_router noop_plan tt = (Ret (p, sent), w2) /\
     p_State p = Failed) /\
  (exists r2 w2, StandaloneSchedule (NewStandaloneResourceManager 0) failing_router noop_plan tt
                 = (Ret (Ok r2), w2) /\ tr_Error r2 = "").
Proof.
  destruct (schedule_outcomes (NewStandaloneResourceManager 0) failing_router noop_plan tt tt
    (Ok (error_result "script failed")) "n" fresh_jm)
    as [(p & sent & w2 & Hs & Hf & _) (r2 & w3 & Hr & -> & _)]; [reflexivity|reflexivity|].
  split; [|eauto]. exists p, sent, w2. split; [exact Hs|]. apply Hf. right. discriminate.
Defined.

Example heartbeat_liveness_witness :
  exists s, hm_activeTMs (hb_run ([Beat "tm" 0; Sweep 10; Beat "tm" 12] ++ [Sweep 20])
                                  (NewHeartbeatMonitor 9)) !! "tm" = Some s /\ ts_IsAlive s = true.
Proof.
  destruct (heartbeat_liveness (H := canonical_order) 9 [Beat "tm" 0; Sweep 10; Beat "tm" 12] 20)
    with (id := "tm") as (s & Hs & _ & Ha & _).
  - intros t Ht. repeat (apply elem_of_cons in Ht as [Ht|Ht]; [first [discriminate Ht|injection Ht as ->; lia]|]).
    by apply elem_of_nil in Ht.
  - exists s. split; [exact Hs|]. apply Ha. vm_compute. discriminate.
Defined.
