(* ===== verification/KubeRM.v ===== *)
(** * The Kubernetes resource manager

    [pkg/core/pkg/engine/resourcemanager/kubernetes.go]: scaling of the task
    manager and sandbox deployments, the persistence of its counters, and the
    dispatch of plans through the queue.  The code has one copy of the scaling
    functions for each deployment; here they are one definition over the kind
    of deployment.  Replica counts are 32-bit, pending counters 64-bit
    integers. *)

From S2P Require Export TaskManager.

Local Open Scope string_scope.
Local Open Scope list_scope.
Local Open Scope Z_scope.

(** ** Configuration *)

Record ResourceManagerConfig := {
  rc_SlotsPerTM : Z;
  rc_MinTMs : Z;
  rc_MaxTMs : Z;
  rc_IdleTimeout : Z;
  rc_PlanTimeout : Z;
  rc_K8sNamespace : string;
  rc_K8sDeploymentName : string;
  rc_SandboxEnabled : bool;
  rc_SandboxDeploymentName : string;
  rc_SandboxMinReplicas : Z;
  rc_SandboxMaxReplicas : Z;
  rc_SandboxSlotsPerPod : Z;
}.

Definition or_default (d : Z) (v : Z) : Z := if v <=? 0 then d else v.
Definition or_string (d v : string) : string := if String.eqb v "" then d else v.

(** The defaults [NewKubernetesResourceManager] fills in. *)
Definition normalise (c : ResourceManagerConfig) : ResourceManagerConfig :=
  let sbMin := Z.max 0 (rc_SandboxMinReplicas c) in
  let sbMax := or_default 10 (rc_SandboxMaxReplicas c) in
  {| rc_SlotsPerTM := or_default 4 (rc_SlotsPerTM c);
     rc_MinTMs := Z.max 0 (rc_MinTMs c);
     rc_MaxTMs := or_default 10 (rc_MaxTMs c);
     rc_IdleTimeout := or_default (5 * minute) (rc_IdleTimeout c);
     rc_PlanTimeout := or_default (12 * minute) (rc_PlanTimeout c);
     rc_K8sNamespace := or_string "default" (rc_K8sNamespace c);
     rc_K8sDeploymentName := or_string "flowgent-taskmanager" (rc_K8sDeploymentName c);
     rc_SandboxEnabled := rc_SandboxEnabled c;
     rc_SandboxDeploymentName := or_string "flowgent-sandbox" (rc_SandboxDeploymentName c);
     rc_SandboxMinReplicas := sbMin;
     rc_SandboxMaxReplicas := if sbMax <? sbMin then sbMin else sbMax;
     rc_SandboxSlotsPerPod := or_default 4 (rc_SandboxSlotsPerPod c) |}.

(** The two deployments. *)
Inductive Kind := TM | SB.

#[export] Instance Kind_eq_dec : EqDecision Kind.
Proof. solve_decision. Defined.

Definition kmin (c : ResourceManagerConfig) (k : Kind) : Z :=
  match k with TM => rc_MinTMs c | SB => rc_SandboxMinReplicas c end.
Definition kmax (c : ResourceManagerConfig) (k : Kind) : Z :=
  match k with TM => rc_MaxTMs c | SB => rc_SandboxMaxReplicas c end.
Definition kslots (c : ResourceManagerConfig) (k : Kind) : Z :=
  match k with TM => rc_SlotsPerTM c | SB => rc_SandboxSlotsPerPod c end.

(** ** State *)

(** The counters of the manager; [lastActivity] is [None] for the zero
    time. *)
Record RM := {
  rm_cfg : ResourceManagerConfig;
  rm_current : Kind -> Z;
  rm_pending : Kind -> Z;
  rm_lastActivity : option Z;
}.

Definition upd {A} (f : Kind -> A) (k : Kind) (v : A) : Kind -> A :=
  fun k' => if decide (k = k') then v else f k'.

Definition set_current (k : Kind) (v : Z) (s : RM) : RM :=
  {| rm_cfg := rm_cfg s; rm_current := upd (rm_current s) k v; rm_pending := rm_pending s;
     rm_lastActivity := rm_lastActivity s |}.
Definition add_pending (k : Kind) (d : Z) (s : RM) : RM :=
  {| rm_cfg := rm_cfg s; rm_current := rm_current s;
     rm_pending := upd (rm_pending s) k (i64 (rm_pending s k + d));
     rm_lastActivity := rm_lastActivity s |}.
Definition touch (now : Z) (s : RM) : RM :=
  {| rm_cfg := rm_cfg s; rm_current := rm_current s; rm_pending := rm_pending s;
     rm_lastActivity := Some now |}.

(** The cluster: the replicas each deployment asks for ([None]: no such
    deployment), the scale requests it accepted, and a count of the calls,
    by which a call may fail. *)
Record Cluster := {
  cl_dep : Kind -> option Z;
  cl_scales : list (Kind * Z);
  cl_calls : nat;
}.

Class KubeAPI := { api_err : nat -> option string }.

(** ** Calls to the cluster *)

Inductive api_result (A : Type) : Type :=
| ApiOk (a : A)
| ApiNotFound
| ApiErr (e : string).
Arguments ApiOk {A} a.
Arguments ApiNotFound {A}.
Arguments ApiErr {A} e.

Section Calls.
Context `{KubeAPI}.

Definition tick (cl : Cluster) : Cluster :=
  {| cl_dep := cl_dep cl; cl_scales := cl_scales cl; cl_calls := S (cl_calls cl) |}.

Definition get_dep (k : Kind) (cl : Cluster) : api_result Z * Cluster :=
  (match api_err (cl_calls cl) with
   | Some e => ApiErr e
   | None => match cl_dep cl k with Some n => ApiOk n | None => ApiNotFound end
   end, tick cl).

Definition create_dep (k : Kind) (replicas : Z) (cl : Cluster) : option string * Cluster :=
  match api_err (cl_calls cl) with
  | Some e => (Some e, tick cl)
  | None => (None, {| cl_dep := upd (cl_dep cl) k (Some replicas); cl_scales := cl_scales cl;
                      cl_calls := S (cl_calls cl) |})
  end.

Definition update_scale (k : Kind) (replicas : Z) (cl : Cluster) : api_result unit * Cluster :=
  match api_err (cl_calls cl), cl_dep cl k with
  | Some e, _ => (ApiErr e, tick cl)
  | None, None => (ApiNotFound, tick cl)
  | None, Some _ =>
      (ApiOk tt, {| cl_dep := upd (cl_dep cl) k (Some replicas);
                    cl_scales := cl_scales cl ++ [(k, replicas)]; cl_calls := S (cl_calls cl) |})
  end.

(** [scaleDeployment] and [scaleSandboxDeployment]: scaling a missing
    deployment to zero is no error. *)
Definition scaleDeployment (k : Kind) (replicas : Z) (cl : Cluster) : option string * Cluster :=
  match update_scale k replicas cl with
  | (ApiOk _, cl) => (None, cl)
  | (ApiNotFound, cl) => (if replicas =? 0 then None else Some "scale: not found", cl)
  | (ApiErr e, cl) => (Some ("scale: " +:+ e), cl)
  end.

(** [ensureDeployment] and [ensureSandboxDeployment]: create the deployment
    with the minimum of replicas when it is missing. *)
Definition ensureDeployment (c : ResourceManagerConfig) (k : Kind) (cl : Cluster)
    : option string * Cluster :=
  match get_dep k cl with
  | (ApiOk _, cl) => (None, cl)
  | (ApiErr e, cl) => (Some e, cl)
  | (ApiNotFound, cl) =>
      match create_dep k (i32 (kmin c k)) cl with
      | (Some e, cl) => (Some ("create deployment: " +:+ e), cl)
      | (None, cl) => (None, cl)
      end
  end.

(** ** Scaling *)

Definition desired (min max slots pending : Z) : Z :=
  if pending <=? 0 then min
  else
    let needed := Z.quot (i64 (i64 (pending + slots) - 1)) slots in
    let needed := if needed <? min then min else needed in
    if max <? needed then max else needed.

(** [desiredTMCount] and [desiredSandboxCount]. *)
Definition desiredCount (c : ResourceManagerConfig) (k : Kind) (pending : Z) : Z :=
  match k with
  | TM => desired (rc_MinTMs c) (rc_MaxTMs c) (rc_SlotsPerTM c) pending
  | SB => if rc_SandboxEnabled c
          then desired (rc_SandboxMinReplicas c) (rc_SandboxMaxReplicas c) (rc_SandboxSlotsPerPod c) pending
          else 0
  end.

(** One observation of the waiting loop: what the deployment shows, and what
    ends the wait after it, if anything. *)
Inductive Observed := Available (n : Z) | Missing | GetFailed (e : string).
Inductive Waiting := NextTick | Cancelled (e : string) | DeadlineOver.

(** [waitForReadyTaskManagers] and [waitForReadySandbox] on the observations
    up to the deadline of two minutes. *)
Fixpoint poll_ready (target : Z) (obs : list (Observed * Waiting)) : option string :=
  match obs with
  | [] => Some "deployment not ready"
  | (o, wt) :: rest =>
      match o with
      | GetFailed e => Some ("wait for deployment: " +:+ e)
      | Available n =>
          if target <=? n then None
          else match wt with
               | NextTick => poll_ready target rest
               | Cancelled e => Some e
               | DeadlineOver => Some "available replicas < target"
               end
      | Missing =>
          match wt with
          | NextTick => poll_ready target rest
          | Cancelled e => Some e
          | DeadlineOver => Some "deployment not ready"
          end
      end
  end.

Definition waitForReady (target : Z) (obs : list (Observed * Waiting)) : option string :=
  if target <=? 0 then None else poll_ready target obs.

(** [ensureTaskManagerCapacity] and [ensureSandboxCapacity]; the boolean says
    whether the state is persisted. *)
Definition ensureCapacity (k : Kind) (obs : list (Observed * Waiting)) (s : RM) (cl : Cluster)
    : option string * bool * RM * Cluster :=
  let target := desiredCount (rm_cfg s) k (rm_pending s k) in
  if target <=? 0 then (None, false, s, cl)
  else
    match ensureDeployment (rm_cfg s) k cl with
    | (Some e, cl) => (Some e, false, s, cl)
    | (None, cl) =>
        let (r, cl) := get_dep k cl in
        let currentReplicas := match r with ApiOk n => n | _ => 0 end in
        if currentReplicas <? i32 target then
          match scaleDeployment k (i32 target) cl with
          | (Some e, cl) => (Some e, false, s, cl)
          | (None, cl) => (waitForReady (i32 target) obs, true, set_current k (i32 target) s, cl)
          end
        else if rm_current s k <? i32 target then
          (waitForReady (i32 target) obs, true, set_current k currentReplicas s, cl)
        else (waitForReady (i32 target) obs, false, s, cl)
    end.

(** [time.Since(lastActivity)]; the zero time is further away than any
    timeout. *)
Definition idle_for (s : RM) (now : Z) : Z :=
  match rm_lastActivity s with Some t => now - t | None => 2 ^ 63 - 1 end.

(** [reconcileTM] and [reconcileSandbox]. *)
Definition reconcile_kind (k : Kind) (now : Z) (obs : list (Observed * Waiting)) (s : RM) (cl : Cluster)
    : bool * RM * Cluster :=
  let current := rm_current s k in
  let pending := rm_pending s k in
  if i64 (current * kslots (rm_cfg s) k) <? pending then
    if current <? desiredCount (rm_cfg s) k pending then
      let '(_, persisted, s, cl) := ensureCapacity k obs s cl in (persisted, s, cl)
    else (false, s, cl)
  else if (rc_IdleTimeout (rm_cfg s) <? idle_for s now) && (kmin (rm_cfg s) k <? current) then
    let target := if current - 1 <? kmin (rm_cfg s) k then kmin (rm_cfg s) k else current - 1 in
    match scaleDeployment k (i32 target) cl with
    | (Some _, cl) => (false, s, cl)
    | (None, cl) => (true, set_current k (i32 target) s, cl)
    end
  else (false, s, cl).

Definition reconcile (now : Z) (obs : Kind -> list (Observed * Waiting)) (s : RM) (cl : Cluster)
    : RM * Cluster :=
  let '(_, s, cl) := reconcile_kind TM now (obs TM) s cl in
  if rc_SandboxEnabled (rm_cfg s) then
    let '(_, s, cl) := reconcile_kind SB now (obs SB) s cl in (s, cl)
  else (s, cl).

(** [Shutdown]: both deployments back to their minimum; errors are logged. *)
Definition Shutdown (s : RM) (cl : Cluster) : Cluster :=
  let cl := (scaleDeployment TM (i32 (rc_MinTMs (rm_cfg s))) cl).2 in
  if rc_SandboxEnabled (rm_cfg s)
  then (scaleDeployment SB (i32 (rc_SandboxMinReplicas (rm_cfg s))) cl).2 else cl.
End Calls.

(** ** Persistence *)

Record RMState := {
  rs_CurrentTMs : Z;
  rs_SlotsPerTM : Z;
  rs_MinTMs : Z;
  rs_MaxTMs : Z;
  rs_PendingPlans : Z;
  rs_LastActivity : option Z;
  rs_SandboxReplicas : Z;
  rs_SandboxPendingTriggers : Z;
}.

Definition cacheKey (namespace deployName : string) : string :=
  "flowgent:rm:" +:+ namespace +:+ ":" +:+ deployName.

(** The state [persist] writes to the cache. *)
Definition persist (s : RM) : string * RMState :=
  (cacheKey (rc_K8sNamespace (rm_cfg s)) (rc_K8sDeploymentName (rm_cfg s)),
   {| rs_CurrentTMs := rm_current s TM; rs_SlotsPerTM := rc_SlotsPerTM (rm_cfg s);
      rs_MinTMs := rc_MinTMs (rm_cfg s); rs_MaxTMs := rc_MaxTMs (rm_cfg s);
      rs_PendingPlans := rm_pending s TM; rs_LastActivity := rm_lastActivity s;
      rs_SandboxReplicas := rm_current s SB; rs_SandboxPendingTriggers := rm_pending s SB |}).

(** [restore] from what the cache still holds. *)
Definition restore (cached : option RMState) (s : RM) : RM :=
  match cached with
  | None => s
  | Some st =>
      {| rm_cfg := rm_cfg s;
         rm_current := fun k => match k with TM => rs_CurrentTMs st | SB => rs_SandboxReplicas st end;
         rm_pending := fun k => match k with TM => rs_PendingPlans st
                                           | SB => rs_SandboxPendingTriggers st end;
         rm_lastActivity := match rs_LastActivity st with Some t => Some t
                                                       | None => rm_lastActivity s end |}
  end.

(** The manager before it restores anything. *)
Definition fresh_rm (cfg : ResourceManagerConfig) : RM :=
  let c := normalise cfg in
  {| rm_cfg := c; rm_current := fun k => i32 (kmin c k); rm_pending := fun _ => 0;
     rm_lastActivity := None |}.

(** [NewKubernetesResourceManager]: restores, then brings the deployments
    with a positive minimum to it (errors are logged). *)
Definition initial_scale `{KubeAPI} (c : ResourceManagerConfig) (k : Kind) (cl : Cluster) : Cluster :=
  (scaleDeployment k (i32 (kmin c k)) (ensureDeployment c k cl).2).2.

Definition NewKubernetesResourceManager `{KubeAPI} (cfg : ResourceManagerConfig)
    (cached : option RMState) (cl : Cluster) : RM * Cluster :=
  let s := restore cached (fresh_rm cfg) in
  let c := rm_cfg s in
  let cl := if 0 <? rc_MinTMs c then initial_scale c TM cl else cl in
  let cl := if rc_SandboxEnabled c && (0 <? rc_SandboxMinReplicas c)
            then initial_scale c SB cl else cl in
  (s, cl).

(** [TrackSandboxTrigger] and [CompleteSandboxTrigger]. *)
Definition TrackSandboxTrigger (now : Z) (s : RM) : RM := touch now (add_pending SB 1 s).
Definition CompleteSandboxTrigger (s : RM) : RM := add_pending SB (-1) s.

(** ** Routing of results *)

(** [execResult]: the status of a plan as the manager reads it; the error the
    slot worker sends is not among its fields. *)
Record execResult := {
  er_PlanID : string;
  er_AgentFlowRunID : string;
  er_NodeID : string;
  er_State : string;
  er_Output : option gomap;
}.

(** [runResults] (which waiting channel belongs to a run and a node), the runs
    subscribed to, and what each channel, of capacity one, received. *)
Record Routing := {
  ro_results : gmap string (gmap string nat);
  ro_subscribed : list string;
  ro_received : gmap nat execResult;
}.

Definition node_chans (r : Routing) (runID : string) : gmap string nat :=
  default ∅ (ro_results r !! runID).

(** The registration in [Schedule]: the first one of a run subscribes. *)
Definition register (runID nodeID : string) (ch : nat) (r : Routing) : Routing :=
  {| ro_results := <[runID := <[nodeID := ch]> (node_chans r runID)]> (ro_results r);
     ro_subscribed := match ro_results r !! runID with
                      | None => ro_subscribed r ++ [runID]
                      | Some _ => ro_subscribed r
                      end;
     ro_received := ro_received r |}.

(** [delete(s.runResults[runID], nodeID)]: on a failed publication and on a
    timeout. *)
Definition unregister (runID nodeID : string) (r : Routing) : Routing :=
  {| ro_results := <[runID := delete nodeID (node_chans r runID)]> (ro_results r);
     ro_subscribed := ro_subscribed r; ro_received := ro_received r |}.

(** The handler of the subscription of a run. *)
Definition on_result (runID : string) (er : execResult) (r : Routing) : Routing :=
  match node_chans r runID !! er_NodeID er with
  | None => r
  | Some ch =>
      let r := unregister runID (er_NodeID er) r in
      {| ro_results := ro_results r; ro_subscribed := ro_subscribed r;
         ro_received := match ro_received r !! ch with
                        | None => <[ch := er]> (ro_received r)
                        | Some _ => ro_received r
                        end |}
  end.

(** What [Schedule] returns once its channel received a result. *)
Definition result_of (plan : ExecutionPlan) (er : execResult) : res TaskResult :=
  if String.eqb (er_State er) "FAILED" then Err ("plan " +:+ p_PlanID plan +:+ " failed")
  else Ok {| tr_Output := er_Output er; tr_Error := "" |}.

(** The status message of a slot worker, as the manager decodes it. *)
Definition status_message (plan : ExecutionPlan) : execResult :=
  {| er_PlanID := p_PlanID plan; er_AgentFlowRunID := p_AgentFlowRunID plan;
     er_NodeID := p_NodeID plan; er_State := TaskStatus_string (p_State plan);
     er_Output := planResultOutput (p_Result plan) |}.

(** ** Scheduling a plan *)

(** What [Schedule] meets after it published: the result, or the timeout. *)
Inductive Awaited := GotResult (er : execResult) | TimedOut.

Section Schedule.
Context `{KubeAPI}.

(** [Schedule] (with a queue), from its admission to its result.  The pending
    counters count it while it runs; the waits for capacity observe [obs]; the
    publication may fail; the wait ends as [awaited] says. *)
Definition KubeSchedule (plan : ExecutionPlan) (now : Z) (ch : nat)
    (obs : Kind -> list (Observed * Waiting)) (published : option string) (awaited : Awaited)
    (s : RM) (cl : Cluster) (r : Routing) : res TaskResult * RM * Cluster * Routing :=
  let s := touch now (add_pending TM 1 s) in
  let '(e, _, s, cl) := ensureCapacity TM (obs TM) s cl in
  match e with
  | Some e => (Err ("kubernetes rm capacity: " +:+ e), add_pending TM (-1) s, cl, r)
  | None =>
      let sb := bool_decide (p_TaskType plan = TaskSandbox) && rc_SandboxEnabled (rm_cfg s) in
      let finish (s : RM) : RM :=
        add_pending TM (-1) (if sb then add_pending SB (-1) s else s) in
      let s := if sb then add_pending SB 1 s else s in
      let '(e, _, s, cl) := if sb then ensureCapacity SB (obs SB) s cl else (None, false, s, cl) in
      match e with
      | Some e => (Err ("kubernetes rm sandbox capacity: " +:+ e), finish s, cl, r)
      | None =>
          let run := p_AgentFlowRunID plan in
          let r := register run (p_NodeID plan) ch r in
          match published with
          | Some e => (Err ("kubernetes rm publish: " +:+ e), finish s, cl,
                       unregister run (p_NodeID plan) r)
          | None =>
              match awaited with
              | TimedOut =>
                  (Err ("kubernetes rm: plan " +:+ p_PlanID plan +:+
                        " timed out waiting for TM result"), finish s, cl,
                   unregister run (p_NodeID plan) r)
              | GotResult er =>
                  (result_of plan er, finish s, cl, on_result run er r)
              end
          end
      end
  end.
End Schedule.
