(* ===== verification/KubeRMFacts.v ===== *)
(** * Properties of the Kubernetes resource manager

    Bounds of the scaling, the accounting of pending plans, fail-over from the
    cache, routing of results, and what a run sees of a remote task. *)

From S2P Require Export KubeRM TaskManagerFacts.

Local Open Scope string_scope.
Local Open Scope list_scope.
Local Open Scope Z_scope.

Lemma wrap_s_small w z : 0 < w -> - 2 ^ (w - 1) <= z < 2 ^ (w - 1) -> wrap_s w z = z.
Proof.
  intros Hw Hz. unfold wrap_s. assert (2 ^ w = 2 * 2 ^ (w - 1)) as E.
  { rewrite <- Z.pow_succ_r by lia. f_equal. lia. }
  destruct (Z.ltb_spec z 0).
  - assert (z mod 2 ^ w = z + 2 ^ w) as ->.
    { symmetry. apply (Z.mod_unique _ _ (-1)); lia. }
    destruct (Z.ltb_spec (z + 2 ^ w) (2 ^ (w - 1))); lia.
  - rewrite Z.mod_small by lia. destruct (Z.ltb_spec z (2 ^ (w - 1))); lia.
Qed.

Lemma i64_small z : - 2 ^ 63 <= z < 2 ^ 63 -> i64 z = z.
Proof. by apply (wrap_s_small 64). Qed.
Lemma i32_small z : - 2 ^ 31 <= z < 2 ^ 31 -> i32 z = z.
Proof. by apply (wrap_s_small 32). Qed.

Lemma wrap_s_congr w z : 0 < w -> exists q, wrap_s w z = z + q * 2 ^ w.
Proof.
  intros Hw. unfold wrap_s. pose proof (Z.div_mod z (2 ^ w) ltac:(lia)) as E.
  destruct (_ <? _); [exists (- (z / 2 ^ w))|exists (- (z / 2 ^ w) - 1)]; lia.
Qed.

Lemma wrap_s_range w z : 0 < w -> - 2 ^ (w - 1) <= wrap_s w z < 2 ^ (w - 1).
Proof.
  intros Hw. unfold wrap_s. assert (2 ^ w = 2 * 2 ^ (w - 1)) as E.
  { rewrite <- Z.pow_succ_r by lia. f_equal. lia. }
  pose proof (Z.mod_pos_bound z (2 ^ w) ltac:(lia)).
  destruct (Z.ltb_spec (z mod 2 ^ w) (2 ^ (w - 1))); lia.
Qed.

(** Adding and taking back within the width is the identity. *)
Lemma i64_cancel z : - 2 ^ 63 <= z < 2 ^ 63 -> i64 (i64 (z + 1) + -1) = z.
Proof.
  intros Hz. unfold i64.
  destruct (wrap_s_congr 64 (z + 1) ltac:(lia)) as [q ->].
  destruct (wrap_s_congr 64 (z + 1 + q * 2 ^ 64 + -1) ltac:(lia)) as [q' E].
  pose proof (wrap_s_range 64 (z + 1 + q * 2 ^ 64 + -1) ltac:(lia)) as R.
  rewrite E in *. change (2 ^ (64 - 1)) with (2 ^ 63) in R. lia.
Qed.

(** ** Replica counts *)

(** For a configuration with room between its bounds and a pending count
    far from the width of its counter, the desired number of replicas stays
    within the bounds, has a slot for every pending plan unless it is the
    maximum, and is no larger than needed above the minimum. *)
Theorem desired_spec min max slots pending :
  0 <= min <= max -> 0 < slots < 2 ^ 31 -> pending < 2 ^ 62 ->
  let n := desired min max slots pending in
  min <= n <= max /\ (pending <= n * slots \/ n = max) /\ (n = min \/ (n - 1) * slots < pending).
Proof.
  intros Hm Hs Hp n. unfold n, desired. destruct (Z.leb_spec pending 0) as [H0|H0]; [nia|].
  rewrite (i64_small (pending + slots)), i64_small by lia.
  rewrite Z.quot_div_nonneg by lia.
  pose proof (Z.div_mod (pending + slots - 1) slots ltac:(lia)) as E.
  pose proof (Z.mod_pos_bound (pending + slots - 1) slots ltac:(lia)) as R.
  set (q := (pending + slots - 1) / slots) in *.
  assert (pending <= q * slots) by nia. assert ((q - 1) * slots < pending) by nia.
  destruct (Z.ltb_spec q min); [destruct (Z.ltb_spec max min)|destruct (Z.ltb_spec max q)]; nia.
Qed.

Example desired_spec_witness : 1 <= desired 1 10 4 9 <= 10 /\ desired 1 10 4 9 = 3.
Proof.
  split; [|reflexivity]. apply (desired_spec 1 10 4 9); lia.
Defined.

(** ** Scaling requests stay in bounds *)

(** The events of a manager: a plan or a sandbox task arrives or leaves
    (plans arrive concurrently, so that arrivals and departures interleave
    freely), the ticker fires, the manager shuts down. *)
Inductive rm_event :=
| PlanStart (now : Z) (obs : list (Observed * Waiting))
| SandboxStart (obs : list (Observed * Waiting))
| PlanEnd (k : Kind)
| TrackEvent (now : Z)
| TickEvent (now : Z) (obs : Kind -> list (Observed * Waiting))
| ShutdownEvent.

Section Scaling.
Context `{KubeAPI}.

Definition rm_step (st : RM * Cluster) (e : rm_event) : RM * Cluster :=
  let (s, cl) := st in
  match e with
  | PlanStart now obs =>
      let '(_, _, s, cl) := ensureCapacity TM obs (touch now (add_pending TM 1 s)) cl in (s, cl)
  | SandboxStart obs => let '(_, _, s, cl) := ensureCapacity SB obs (add_pending SB 1 s) cl in (s, cl)
  | PlanEnd k => (add_pending k (-1) s, cl)
  | TrackEvent now => (TrackSandboxTrigger now s, cl)
  | TickEvent now obs => reconcile now obs s cl
  | ShutdownEvent => (s, Shutdown s cl)
  end.

Definition good_cfg (c : ResourceManagerConfig) : Prop :=
  forall k, 0 <= kmin c k <= kmax c k /\ kmax c k < 2 ^ 31.

Definition in_bounds (c : ResourceManagerConfig) (k : Kind) (n : Z) : Prop :=
  kmin c k <= n <= kmax c k.

Definition cl_ok (c : ResourceManagerConfig) (cl : Cluster) : Prop :=
  (forall k n, cl_dep cl k = Some n -> in_bounds c k n) /\
  (forall k n, (k, n) ∈ cl_scales cl -> in_bounds c k n).

Definition rm_ok (c : ResourceManagerConfig) (s : RM) : Prop :=
  rm_cfg s = c /\ forall k, in_bounds c k (rm_current s k).

Context (c : ResourceManagerConfig) (Hc : good_cfg c).

Lemma i32_bounds k n : in_bounds c k n -> i32 n = n.
Proof. intros Hn. destruct (Hc k). unfold in_bounds in Hn. apply i32_small. lia. Qed.

Lemma min_bounds k : in_bounds c k (kmin c k).
Proof. destruct (Hc k). unfold in_bounds. lia. Qed.

Lemma desired_bounds k p : 0 < desiredCount c k p -> in_bounds c k (desiredCount c k p).
Proof.
  assert (forall min max slots, min <= max -> min <= desired min max slots p <= max) as Hd.
  { intros min max slots Hm. unfold desired. destruct (p <=? 0); [lia|].
    match goal with |- context [Z.quot ?a ?b] => generalize (Z.quot a b) end. intros q.
    destruct (Z.ltb_spec q min), (Z.ltb_spec max q), (Z.ltb_spec max min); lia. }
  destruct (Hc k) as [Hk _]. unfold in_bounds. intros Hp. destruct k; cbn in *; [apply Hd; lia|].
  destruct (rc_SandboxEnabled c); [apply Hd; lia|lia].
Qed.

Lemma tick_ok cl : cl_ok c cl -> cl_ok c (tick cl).
Proof. done. Qed.

Lemma dep_ok cl k n l :
  cl_ok c cl -> in_bounds c k n -> (forall p, p ∈ l -> p ∈ cl_scales cl \/ p = (k, n)) ->
  cl_ok c {| cl_dep := upd (cl_dep cl) k (Some n); cl_scales := l; cl_calls := S (cl_calls cl) |}.
Proof.
  intros [Hd Hs] Hn Hl. split; cbn [cl_dep cl_scales].
  - intros k' n'. unfold upd. destruct (decide (k = k')) as [->|]; [by intros [= <-]|apply Hd].
  - intros k' n' [Hin|[= -> ->]]%Hl; [by apply Hs|done].
Qed.

Lemma scaleDeployment_ok k n cl : cl_ok c cl -> in_bounds c k n -> cl_ok c (scaleDeployment k n cl).2.
Proof.
  intros Hcl Hn. unfold scaleDeployment, update_scale.
  destruct (api_err _); [done|]. destruct (cl_dep cl k); [|done]. apply dep_ok; [done..|].
  intros p [?|?%list_elem_of_singleton]%elem_of_app; auto.
Qed.

Lemma ensureDeployment_ok k cl : cl_ok c cl -> cl_ok c (ensureDeployment c k cl).2.
Proof.
  intros Hcl. unfold ensureDeployment, get_dep, create_dep.
  destruct (api_err (cl_calls cl)); [done|]. destruct (cl_dep cl k); [done|].
  destruct (api_err (cl_calls (tick cl))); [done|]. cbn [snd].
  rewrite (i32_bounds k) by apply min_bounds.
  apply dep_ok; [done|apply min_bounds|auto].
Qed.

Lemma set_current_ok k n s : rm_ok c s -> in_bounds c k n -> rm_ok c (set_current k n s).
Proof.
  intros [Hs Hcur] Hn. split; [done|]. intros k'. cbn. unfold upd. by destruct (decide (k = k')) as [->|].
Qed.

Lemma ensureCapacity_ok k obs s cl :
  rm_ok c s -> cl_ok c cl ->
  rm_ok c (ensureCapacity k obs s cl).1.2 /\ cl_ok c (ensureCapacity k obs s cl).2.
Proof.
  intros Hs Hcl. unfold ensureCapacity. destruct (Hs) as [-> Hcur].
  set (target := desiredCount c k (rm_pending s k)).
  destruct (Z.leb_spec target 0); [done|].
  assert (in_bounds c k target) as Ht by (apply desired_bounds; unfold target in *; lia).
  rewrite !(i32_bounds k target Ht).
  pose proof (ensureDeployment_ok k cl Hcl) as Hcl1.
  destruct (ensureDeployment c k cl) as [[e|] cl1]; [done|]. cbn [snd] in Hcl1.
  destruct (get_dep k cl1) as [r cl2] eqn:Hg. unfold get_dep in Hg. injection Hg as Hr <-.
  set (cr := match r with ApiOk n => n | _ => 0 end).
  destruct (Z.ltb_spec cr target).
  - pose proof (scaleDeployment_ok k target (tick cl1) Hcl1 Ht) as Hcl3.
    destruct (scaleDeployment k target (tick cl1)) as [[e|] cl3]; [done|].
    split; [by apply set_current_ok|done].
  - destruct (rm_current s k <? target); [|done]. split; [|done].
    apply set_current_ok; [done|]. unfold cr in *. destruct r as [n| |e]; [|lia..].
    destruct (api_err (cl_calls cl1)); [done|]. destruct (cl_dep cl1 k) as [n'|] eqn:E; [|done].
    assert (n' = n) as <- by congruence. destruct Hcl1 as [Hd _]. by apply Hd.
Qed.

Lemma reconcile_kind_ok k now obs s cl :
  rm_ok c s -> cl_ok c cl ->
  rm_ok c (reconcile_kind k now obs s cl).1.2 /\ cl_ok c (reconcile_kind k now obs s cl).2.
Proof.
  intros Hs Hcl. unfold reconcile_kind.
  destruct (i64 _ <? _).
  - destruct (_ <? _); [|done]. pose proof (ensureCapacity_ok k obs s cl Hs Hcl) as Hok.
    by destruct (ensureCapacity k obs s cl) as [[[e b] s1] cl1].
  - destruct (Hs) as [Hcfg Hcur]. rewrite Hcfg.
    destruct (Z.ltb_spec (kmin c k) (rm_current s k)); rewrite ?andb_false_r; [|done].
    destruct (_ && _); [|done].
    set (t := if rm_current s k - 1 <? kmin c k then kmin c k else rm_current s k - 1).
    assert (in_bounds c k t) as Ht.
    { specialize (Hcur k). unfold in_bounds in *. unfold t.
      destruct (Z.ltb_spec (rm_current s k - 1) (kmin c k)); lia. }
    rewrite !(i32_bounds k t Ht). pose proof (scaleDeployment_ok k t cl Hcl Ht) as Hcl1.
    destruct (scaleDeployment k t cl) as [[e|] cl1]; [done|]. split; [by apply set_current_ok|done].
Qed.

Lemma rm_step_ok st e :
  rm_ok c st.1 -> cl_ok c st.2 -> rm_ok c (rm_step st e).1 /\ cl_ok c (rm_step st e).2.
Proof.
  destruct st as [s cl]. cbn [fst snd]. intros Hs Hcl. destruct e; cbn [rm_step].
  - pose proof (ensureCapacity_ok TM obs (touch now (add_pending TM 1 s)) cl Hs Hcl) as Hok.
    by destruct (ensureCapacity _ _ _ _) as [[[e b] s1] cl1].
  - pose proof (ensureCapacity_ok SB obs (add_pending SB 1 s) cl Hs Hcl) as Hok.
    by destruct (ensureCapacity _ _ _ _) as [[[e b] s1] cl1].
  - done.
  - done.
  - unfold reconcile. pose proof (reconcile_kind_ok TM now (obs TM) s cl Hs Hcl) as [Hs1 Hcl1].
    destruct (reconcile_kind TM _ _ _ _) as [[b s1] cl1]. cbn [fst snd] in *.
    destruct (rc_SandboxEnabled _); [|done].
    pose proof (reconcile_kind_ok SB now (obs SB) s1 cl1 Hs1 Hcl1) as Hok.
    by destruct (reconcile_kind SB _ _ _ _) as [[b2 s2] cl2].
  - split; [done|]. unfold Shutdown. destruct (Hs) as [-> _]. cbn [snd].
    change (rc_MinTMs c) with (kmin c TM). change (rc_SandboxMinReplicas c) with (kmin c SB).
    rewrite !(i32_bounds _ _ (min_bounds _)).
    destruct (rc_SandboxEnabled c); repeat apply scaleDeployment_ok; try done; apply min_bounds.
Qed.
End Scaling.

Definition no_cluster : Cluster := {| cl_dep := fun _ => None; cl_scales := []; cl_calls := 0 |}.


Definition no_faults : KubeAPI := {| api_err := fun _ => None |}.
Definition demo_rm_cfg : ResourceManagerConfig :=
  {| rc_SlotsPerTM := 2; rc_MinTMs := 1; rc_MaxTMs := 3; rc_IdleTimeout := 100; rc_PlanTimeout := 0;
     rc_K8sNamespace := ""; rc_K8sDeploymentName := ""; rc_SandboxEnabled := true;
     rc_SandboxDeploymentName := ""; rc_SandboxMinReplicas := 0; rc_SandboxMaxReplicas := 0;
     rc_SandboxSlotsPerPod := 0 |}.
Definition ready : list (Observed * Waiting) := [(Available 9, NextTick)].
Definition demo_events : list rm_event :=
  [PlanStart 1 ready; PlanStart 2 ready; PlanStart 3 ready; SandboxStart ready;
   PlanEnd TM; PlanEnd TM; PlanEnd TM; PlanEnd SB; TickEvent 200 (fun _ => ready)].


(** ** Pending counters *)

Lemma i64_absorb x d : i64 (i64 x + d) = i64 (x + d).
Proof.
  unfold i64. destruct (wrap_s_congr 64 x ltac:(lia)) as [q ->]. unfold wrap_s.
  replace (x + q * 2 ^ 64 + d) with (x + d + q * 2 ^ 64) by lia. by rewrite Z.mod_add by lia.
Qed.

Lemma i64_idem x : i64 (i64 x) = i64 x.
Proof. pose proof (i64_absorb x 0) as E. by rewrite !Z.add_0_r in E. Qed.

Definition arrivals (k : Kind) (e : rm_event) : Z :=
  match e, k with
  | PlanStart _ _, TM => 1
  | SandboxStart _, SB => 1
  | TrackEvent _, SB => 1
  | PlanEnd k', _ => if decide (k = k') then -1 else 0
  | _, _ => 0
  end.
Definition balance (k : Kind) (evs : list rm_event) : Z := foldr (fun e n => arrivals k e + n) 0 evs.

Section Pending.
Context `{KubeAPI}.

Lemma ensureCapacity_pending k obs s cl : rm_pending (ensureCapacity k obs s cl).1.2 = rm_pending s.
Proof.
  unfold ensureCapacity. destruct (_ <=? 0); [done|].
  destruct (ensureDeployment _ _ _) as [[e|] cl1]; [done|]. destruct (get_dep k cl1) as [r cl2].
  destruct (_ <? _); [by destruct (scaleDeployment _ _ _) as [[e|] cl3]|].
  by destruct (_ <? _).
Qed.

Lemma reconcile_pending now obs s cl : rm_pending (reconcile now obs s cl).1 = rm_pending s.
Proof.
  assert (forall k o s cl, rm_pending (reconcile_kind k now o s cl).1.2 = rm_pending s) as Hk.
  { intros k o s0 cl0. unfold reconcile_kind. destruct (_ <? _).
    - destruct (_ <? _); [|done]. pose proof (ensureCapacity_pending k o s0 cl0) as Hp.
      by destruct (ensureCapacity k o s0 cl0) as [[[e b] s1] cl1].
    - destruct (_ && _); [|done]. by destruct (scaleDeployment _ _ _) as [[e|] cl1]. }
  unfold reconcile. pose proof (Hk TM (obs TM) s cl) as H1.
  destruct (reconcile_kind TM now (obs TM) s cl) as [[b s1] cl1]. cbn in H1.
  destruct (rc_SandboxEnabled (rm_cfg s1)); [|done]. pose proof (Hk SB (obs SB) s1 cl1) as H2.
  destruct (reconcile_kind SB now (obs SB) s1 cl1) as [[b2 s2] cl2]. cbn in *. congruence.
Qed.

Lemma rm_step_pending st e k :
  i64 (rm_pending st.1 k) = rm_pending st.1 k ->
  rm_pending (rm_step st e).1 k = i64 (rm_pending st.1 k + arrivals k e).
Proof.
  destruct st as [s cl]. cbn [fst]. intros Hr.
  assert (rm_pending s k = i64 (rm_pending s k + 0)) as H0 by (by rewrite Z.add_0_r).
  destruct e; cbn [rm_step fst arrivals].
  - pose proof (ensureCapacity_pending TM obs (touch now (add_pending TM 1 s)) cl) as Hp.
    destruct (ensureCapacity _ _ _ _) as [[[e b] s1] cl1]. cbn in *. rewrite Hp. by destruct k.
  - pose proof (ensureCapacity_pending SB obs (add_pending SB 1 s) cl) as Hp.
    destruct (ensureCapacity _ _ _ _) as [[[e b] s1] cl1]. cbn in *. rewrite Hp. by destruct k.
  - by destruct k0, k.
  - by destruct k.
  - by rewrite reconcile_pending.
  - done.
Qed.

Lemma rm_run_pending evs st k :
  i64 (rm_pending st.1 k) = rm_pending st.1 k ->
  rm_pending (fold_left rm_step evs st).1 k = i64 (rm_pending st.1 k + balance k evs).
Proof.
  revert st. induction evs as [|e evs IH]; intros st Hr; cbn [fold_left balance foldr].
  - by rewrite Z.add_0_r.
  - pose proof (rm_step_pending st e k Hr) as Hs. rewrite IH, Hs.
    + rewrite i64_absorb. f_equal. unfold balance. lia.
    + rewrite Hs. apply i64_idem.
Qed.

(** The pending counters are exact but for a fail-over: whatever the
    interleaving, they are what the manager restored from the cache plus the
    arrivals minus the departures.  So a fresh manager counts the plans in
    flight, while one that restored a count keeps it for ever, although the
    plans it stands for were in flight in another process. *)
Theorem pending_accounting cfg cached cl evs k :
  let st0 := NewKubernetesResourceManager cfg cached cl in
  let p0 := match cached, k with
            | Some st, TM => rs_PendingPlans st
            | Some st, SB => rs_SandboxPendingTriggers st
            | None, _ => 0
            end in
  - 2 ^ 63 <= p0 < 2 ^ 63 -> - 2 ^ 63 <= p0 + balance k evs < 2 ^ 63 ->
  rm_pending (fold_left rm_step evs st0).1 k = p0 + balance k evs.
Proof.
  intros st0 p0 H0 H1.
  assert (rm_pending st0.1 k = p0) as Hp by (by destruct cached, k).
  rewrite rm_run_pending, Hp; [by apply i64_small|]. rewrite Hp. by apply i64_small.
Qed.

(** After a fail-over the new manager, under the same configuration,
    looks in the cache where the old one wrote and continues with its
    replica counts, pending counts and idle clock. *)
Theorem failover_restores cfg s :
  rm_cfg s = normalise cfg ->
  let s' := restore (Some (persist s).2) (fresh_rm cfg) in
  (persist s').1 = (persist s).1 /\ rm_lastActivity s' = rm_lastActivity s /\
  forall k, rm_current s' k = rm_current s k /\ rm_pending s' k = rm_pending s k.
Proof.
  intros Hc s'. unfold s', persist, restore, fresh_rm. cbn. rewrite Hc. split; [done|].
  split; [by destruct (rm_lastActivity s)|]. by intros [].
Qed.

(** ** A scheduled plan *)

Lemma node_chans_unregister run node r run' :
  node_chans (unregister run node r) run' =
  if decide (run' = run) then delete node (node_chans r run) else node_chans r run'.
Proof.
  unfold node_chans at 1, unregister. cbn [ro_results]. destruct (decide (run' = run)) as [->|].
  - by rewrite lookup_insert_eq.
  - by rewrite lookup_insert_ne.
Qed.

Lemma node_chans_register run node ch r run' :
  node_chans (register run node ch r) run' =
  if decide (run' = run) then <[node := ch]> (node_chans r run) else node_chans r run'.
Proof.
  unfold node_chans at 1, register. cbn [ro_results]. destruct (decide (run' = run)) as [->|].
  - by rewrite lookup_insert_eq.
  - by rewrite lookup_insert_ne.
Qed.

Lemma unregister_clears run node r : node_chans (unregister run node r) run !! node = None.
Proof. rewrite node_chans_unregister, decide_True by done. apply lookup_delete_eq. Qed.

Lemma on_result_clears run er r : node_chans (on_result run er r) run !! er_NodeID er = None.
Proof.
  unfold on_result. destruct (node_chans r run !! er_NodeID er) eqn:E; [|done].
  apply (unregister_clears run (er_NodeID er) r).
Qed.

(** A call of [Schedule] leaves no trace in the pending counters,
    whatever it returns, and its channel is no longer registered afterwards,
    provided the result it got is one for its node. *)
Theorem KubeSchedule_clean plan now ch obs published awaited s cl r :
  (forall k, - 2 ^ 63 <= rm_pending s k < 2 ^ 63) ->
  (forall er, awaited = GotResult er -> er_NodeID er = p_NodeID plan) ->
  node_chans r (p_AgentFlowRunID plan) !! p_NodeID plan = None ->
  let '(_, s', _, r') := KubeSchedule plan now ch obs published awaited s cl r in
  (forall k, rm_pending s' k = rm_pending s k) /\
  node_chans r' (p_AgentFlowRunID plan) !! p_NodeID plan = None.
Proof.
  intros Hr Her Hno. unfold KubeSchedule.
  pose proof (ensureCapacity_pending TM (obs TM) (touch now (add_pending TM 1 s)) cl) as Hp1.
  destruct (ensureCapacity TM _ _ _) as [[[e1 b1] s1] cl1]. cbn [fst snd] in Hp1.
  destruct e1 as [e1|].
  { split; [|done]. intros k. cbn. rewrite Hp1. destruct k; cbn; [by apply i64_cancel|done]. }
  set (sb := bool_decide _ && _).
  assert (exists e2 b2 s2 cl2,
    (if sb then ensureCapacity SB (obs SB) (if sb then add_pending SB 1 s1 else s1) cl1
     else (None, false, if sb then add_pending SB 1 s1 else s1, cl1)) = (e2, b2, s2, cl2) /\
    rm_pending s2 = rm_pending (if sb then add_pending SB 1 s1 else s1)) as (e2 & b2 & s2 & cl2 & -> & Hp2).
  { destruct sb; [|by eauto 10].
    pose proof (ensureCapacity_pending SB (obs SB) (add_pending SB 1 s1) cl1) as Hp2.
    destruct (ensureCapacity SB _ _ _) as [[[e2 b2] s2] cl2]. eauto 10. }
  set (fin := add_pending TM (-1) (if sb then add_pending SB (-1) s2 else s2)).
  assert (forall k, rm_pending fin k = rm_pending s k) as Hfin.
  { intros k. unfold fin. destruct sb, k; cbn in *; rewrite Hp2; cbn; rewrite Hp1; cbn;
      by first [apply i64_cancel|done]. }
  pose proof unregister_clears as Hun.
  destruct e2 as [e2|]; [done|]. destruct published; [done|].
  destruct awaited as [er|]; [|done]. split; [done|].
  rewrite <- (Her er eq_refl). apply on_result_clears.
Qed.

(** What a run sees of a task executed by a remote slot worker: the node
    completes with the task's output when the task succeeded, and fails
    otherwise, with a message that no longer says why. *)
Theorem remote_outcome {W} `{TMEnv W} (router : Router W) plan w w1 w2 r p sent jm :
  RouterExecute router plan (plan_scope plan) w = (Ret r, w1) ->
  slot_handler router plan w = (Ret (p, sent), w2) ->
  er_NodeID (status_message p) = p_NodeID plan /\
  let n := p_NodeID plan in
  let jm' := handle_result n plan (result_of plan (status_message p)) jm in
  match r with
  | Ok t =>
      if String.eqb (tr_Error t) ""
      then result_of plan (status_message p) = Ok {| tr_Output := tr_Output t; tr_Error := "" |} /\
           n ∈ jm_completed jm'
      else jm_nodeErrors jm' !! n = Some ("plan " +:+ p_PlanID plan +:+ " failed") /\ n ∈ jm_failed jm'
  | Err _ =>
      jm_nodeErrors jm' !! n = Some ("plan " +:+ p_PlanID plan +:+ " failed") /\ n ∈ jm_failed jm'
  end.
Proof.
  intros Hr Hs. unfold slot_handler in Hs. rewrite Hr in Hs.
  destruct (plan_outcome plan r w1) as [p0 w3] eqn:Ho.
  destruct (emitDownstream _ _) as [sent0 w4]. injection Hs as -> _ _.
  assert (result_of plan (status_message p) = Err ("plan " +:+ p_PlanID plan +:+ " failed") ->
    jm_nodeErrors (handle_result (p_NodeID plan) plan (result_of plan (status_message p)) jm)
      !! p_NodeID plan = Some ("plan " +:+ p_PlanID plan +:+ " failed") /\
    p_NodeID plan ∈ jm_failed (handle_result (p_NodeID plan) plan (result_of plan (status_message p)) jm))
    as Hfail.
  { intros ->. cbn. rewrite lookup_insert_eq. split; [done|set_solver]. }
  unfold plan_outcome in Ho. destruct r as [t|e].
  - destruct (String.eqb (tr_Error t) "") eqn:He; cbn [negb] in Ho.
    + destruct (tm_now w1) as [now w5]. injection Ho as <- _. split; [done|]. cbn zeta.
      assert (result_of plan (status_message (with_outcome plan Success t (Some now)))
              = Ok {| tr_Output := tr_Output t; tr_Error := "" |}) as -> by done.
      split; [done|].
      match goal with |- _ ∈ jm_completed (handle_result ?n plan ?x jm) =>
        destruct (handle_result_spec n plan x jm) as (_ & _ & Hspec) end.
      cbn [result_error tr_Error String.eqb] in Hspec. destruct Hspec as (_ & -> & _). set_solver.
    + injection Ho as <- _. split; [done|]. by apply Hfail.
  - injection Ho as <- _. split; [done|]. by apply Hfail.
Qed.
End Pending.

(** ** Routing *)

Inductive ro_event :=
| RoRegister (run node : string) (ch : nat)
| RoUnregister (run node : string)
| RoResult (run : string) (er : execResult).

Definition ro_step (r : Routing) (e : ro_event) : Routing :=
  match e with
  | RoRegister run node ch => register run node ch r
  | RoUnregister run node => unregister run node r
  | RoResult run er => on_result run er r
  end.

Definition no_routing : Routing := {| ro_results := ∅; ro_subscribed := []; ro_received := ∅ |}.
Definition ro_run (evs : list ro_event) : Routing := fold_left ro_step evs no_routing.

(** An event about a node of a run. *)
Definition touches (run node : string) (e : ro_event) : Prop :=
  match e with
  | RoRegister r n _ | RoUnregister r n => r = run /\ n = node
  | RoResult r er => r = run /\ er_NodeID er = node
  end.

(** A channel registered for a node, with nothing about the node since. *)
Definition open_chan (evs : list ro_event) (run node : string) (ch : nat) : Prop :=
  exists e1 e2, evs = e1 ++ RoRegister run node ch :: e2 /\ Forall (fun e => ~ touches run node e) e2.

(** A result that arrived at an open channel. *)
Definition delivered (evs : list ro_event) (ch : nat) (er : execResult) : Prop :=
  exists run e1 e2, evs = e1 ++ RoResult run er :: e2 /\ open_chan e1 run (er_NodeID er) ch.

Definition channels (evs : list ro_event) : list nat :=
  omap (fun e => match e with RoRegister _ _ ch => Some ch | _ => None end) evs.

Lemma snoc_split {A} (l l1 l2 : list A) e x :
  l ++ [e] = l1 ++ x :: l2 <->
  (l2 = [] /\ x = e /\ l = l1) \/ exists l2', l2 = l2' ++ [e] /\ l = l1 ++ x :: l2'.
Proof.
  split.
  - destruct l2 as [|y l2' _] using rev_ind; intros E.
    + apply app_inj_tail in E as [-> ->]. by left.
    + rewrite app_comm_cons, app_assoc in E. apply app_inj_tail in E as [-> ->]. right. by exists l2'.
  - intros [(-> & -> & ->)|(l2' & -> & ->)]; [done|]. by rewrite <- app_assoc.
Qed.

Lemma open_snoc evs e run node ch :
  open_chan (evs ++ [e]) run node ch <->
  e = RoRegister run node ch \/ (open_chan evs run node ch /\ ~ touches run node e).
Proof.
  unfold open_chan. split.
  - intros (e1 & e2 & E & Hq). apply snoc_split in E as [(-> & -> & ->)|(e2' & -> & ->)]; [by left|].
    apply Forall_app in Hq as [Hq He]. rewrite Forall_singleton in He. right. split; [|exact He]. eauto.
  - intros [->|[(e1 & e2 & -> & Hq) He]]; [by exists evs, []|].
    exists e1, (e2 ++ [e]). split; [by rewrite <- app_assoc|]. apply Forall_app. split; [done|].
    by apply Forall_singleton.
Qed.

Lemma delivered_snoc evs e ch er :
  delivered (evs ++ [e]) ch er <->
  delivered evs ch er \/ exists run, e = RoResult run er /\ open_chan evs run (er_NodeID er) ch.
Proof.
  unfold delivered. split.
  - intros (run & e1 & e2 & E & Ho). apply snoc_split in E as [(-> & <- & ->)|(e2' & -> & ->)]; eauto 10.
  - intros [(run & e1 & e2 & -> & Ho)|(run & -> & Ho)].
    + exists run, e1, (e2 ++ [e]). split; [by rewrite <- app_assoc|done].
    + by exists run, evs, [].
Qed.

Lemma open_channel evs run node ch : open_chan evs run node ch -> ch ∈ channels evs.
Proof.
  intros (e1 & e2 & -> & _). unfold channels. rewrite omap_app. cbn. set_solver.
Qed.

Lemma delivered_channel evs ch er : delivered evs ch er -> ch ∈ channels evs.
Proof.
  intros (run & e1 & e2 & -> & Ho%open_channel). unfold channels in *. rewrite omap_app. set_solver.
Qed.

Lemma channels_snoc evs e : NoDup (channels (evs ++ [e])) ->
  NoDup (channels evs) /\ forall run node ch, e = RoRegister run node ch -> ~ ch ∈ channels evs.
Proof.
  unfold channels. rewrite omap_app. intros (Hnd & Hdis & _)%NoDup_app. split; [done|].
  intros run node ch -> Hin. apply (Hdis ch Hin). cbn. set_solver.
Qed.

(** A channel is open for one node, and not once it received a result. *)
Lemma open_unique evs ch run node run' node' :
  NoDup (channels evs) -> open_chan evs run node ch -> open_chan evs run' node' ch ->
  run = run' /\ node = node'.
Proof.
  induction evs as [|e evs IH] using rev_ind; intros Hnd.
  - by intros ([] & ? & ? & _).
  - apply channels_snoc in Hnd as [Hnd Hfresh]. rewrite !open_snoc.
    intros [->|[Ho He]] [E|[Ho' He']].
    + by injection E as -> ->.
    + apply open_channel in Ho'. by destruct (Hfresh _ _ _ eq_refl Ho').
    + subst e. apply open_channel in Ho. by destruct (Hfresh _ _ _ eq_refl Ho).
    + by apply IH.
Qed.

Lemma open_not_delivered evs ch run node er :
  NoDup (channels evs) -> open_chan evs run node ch -> ~ delivered evs ch er.
Proof.
  induction evs as [|e evs IH] using rev_ind; intros Hnd.
  - by intros ([] & ? & ? & _).
  - apply channels_snoc in Hnd as [Hnd Hfresh]. rewrite open_snoc, delivered_snoc.
    intros [->|[Ho He]] [Hd|(run' & E & Ho')].
    + apply delivered_channel in Hd. by destruct (Hfresh _ _ _ eq_refl Hd).
    + done.
    + by apply IH in Hd.
    + subst e. destruct (open_unique evs ch run node run' (er_NodeID er)) as [-> ->]; [done..|].
      by apply He.
Qed.

(** The registrations after a step, and what a step delivers. *)
Lemma ro_step_lookup r e run node ch :
  node_chans (ro_step r e) run !! node = Some ch <->
  e = RoRegister run node ch \/ (node_chans r run !! node = Some ch /\ ~ touches run node e).
Proof.
  assert (forall run' node',
    node_chans (unregister run' node' r) run !! node = Some ch <->
    node_chans r run !! node = Some ch /\ ~ (run' = run /\ node' = node)) as Hun.
  { intros run' node'. rewrite node_chans_unregister. destruct (decide (run = run')) as [->|].
    - destruct (decide (node = node')) as [->|].
      + rewrite lookup_delete_eq. naive_solver.
      + rewrite lookup_delete_ne by done. naive_solver.
    - naive_solver. }
  destruct e as [run' node' ch'|run' node'|run' er]; cbn [ro_step touches].
  - rewrite node_chans_register. destruct (decide (run = run')) as [->|]; [|naive_solver].
    destruct (decide (node = node')) as [->|].
    + rewrite lookup_insert_eq. naive_solver.
    + rewrite lookup_insert_ne by done. naive_solver.
  - rewrite Hun. naive_solver.
  - unfold on_result. destruct (node_chans r run' !! er_NodeID er) as [c|] eqn:E.
    + etransitivity; [apply Hun|]. naive_solver.
    + split; [|naive_solver]. intros Hc. right. split; [done|]. intros [-> <-]. congruence.
Qed.

Lemma ro_step_received r e ch er :
  ro_received (ro_step r e) !! ch = Some er <->
  ro_received r !! ch = Some er \/
  (ro_received r !! ch = None /\ exists run, e = RoResult run er /\
     node_chans r run !! er_NodeID er = Some ch).
Proof.
  destruct e as [run' node' ch'|run' node'|run' er']; cbn [ro_step].
  - cbn. naive_solver.
  - cbn. naive_solver.
  - unfold on_result. destruct (node_chans r run' !! er_NodeID er') as [c|] eqn:E; [|naive_solver].
    cbn [ro_received unregister]. destruct (ro_received r !! c) as [er0|] eqn:Ec.
    + split; [by left|]. intros [?|(Hn & run & [= <- <-] & Hc)]; [done|]. congruence.
    + destruct (decide (ch = c)) as [->|Hne].
      * rewrite lookup_insert_eq. naive_solver.
      * rewrite lookup_insert_ne by done. naive_solver.
Qed.

Lemma ro_run_snoc evs e : ro_run (evs ++ [e]) = ro_step (ro_run evs) e.
Proof. unfold ro_run. by rewrite fold_left_app. Qed.

Lemma ro_run_open evs run node ch :
  node_chans (ro_run evs) run !! node = Some ch <-> open_chan evs run node ch.
Proof.
  revert run node ch. induction evs as [|e evs IH] using rev_ind; intros run node ch.
  - split; [done|]. by intros ([] & ? & ? & _).
  - by rewrite ro_run_snoc, ro_step_lookup, IH, open_snoc.
Qed.

(** C25: results reach exactly the plans waiting for them: if every call of
    [Schedule] brings a channel of its own, a channel receives a result
    precisely when the result arrived for its run and node while it was
    registered and nothing had happened about the node since; all other
    results are dropped. *)
Theorem results_routed evs ch er :
  NoDup (channels evs) -> ro_received (ro_run evs) !! ch = Some er <-> delivered evs ch er.
Proof.
  revert ch er. induction evs as [|e evs IH] using rev_ind; intros ch er Hnd.
  - split; [done|]. by intros (? & [] & ? & ? & _).
  - apply channels_snoc in Hnd as [Hnd _]. rewrite ro_run_snoc, ro_step_received, delivered_snoc, IH by done.
    split.
    + intros [?|(_ & run & -> & Hc)]; [by left|]. right. exists run. split; [done|]. by apply ro_run_open.
    + intros [?|(run & -> & Ho)]; [by left|]. right. split; [|exists run; split; [done|by apply ro_run_open]].
      destruct (ro_received (ro_run evs) !! ch) as [er'|] eqn:E; [|done].
      apply IH in E; [|done]. by apply (open_not_delivered evs ch run (er_NodeID er)) in E.
Qed.

(** ** Witnesses *)

Definition demo_status (node state : string) : execResult :=
  {| er_PlanID := "p"; er_AgentFlowRunID := "r"; er_NodeID := node; er_State := state; er_Output := None |}.

Example results_routed_witness :
  ro_received (ro_run [RoRegister "r" "a" 1; RoRegister "r" "b" 2; RoResult "r" (demo_status "b" "SUCCESS");
                       RoResult "r" (demo_status "b" "FAILED")]) !! 2%nat
  = Some (demo_status "b" "SUCCESS").
Proof.
  apply results_routed; [apply (bool_decide_unpack _); vm_compute; exact I|].
  exists "r", [RoRegister "r" "a" 1; RoRegister "r" "b" 2], [RoResult "r" (demo_status "b" "FAILED")].
  split; [reflexivity|]. exists [RoRegister "r" "a" 1], []. split; [reflexivity|constructor].
Defined.

Example pending_accounting_witness :
  rm_pending (fold_left (rm_step (H := no_faults)) [PlanStart 1 ready; PlanEnd TM]
    (NewKubernetesResourceManager (H := no_faults) demo_rm_cfg
       (Some {| rs_CurrentTMs := 2; rs_SlotsPerTM := 2; rs_MinTMs := 1; rs_MaxTMs := 3;
                rs_PendingPlans := 5; rs_LastActivity := None; rs_SandboxReplicas := 0;
                rs_SandboxPendingTriggers := 0 |}) no_cluster)).1 TM = 5.
Proof.
  apply (pending_accounting (H := no_faults) demo_rm_cfg
    (Some {| rs_CurrentTMs := 2; rs_SlotsPerTM := 2; rs_MinTMs := 1; rs_MaxTMs := 3;
             rs_PendingPlans := 5; rs_LastActivity := None; rs_SandboxReplicas := 0;
             rs_SandboxPendingTriggers := 0 |}) no_cluster [PlanStart 1 ready; PlanEnd TM] TM); (split; [vm_compute; discriminate|reflexivity]).
Defined.

Example failover_restores_witness :
  rm_current (restore (Some (persist (set_current TM 3 (fresh_rm demo_rm_cfg))).2) (fresh_rm demo_rm_cfg)) TM = 3.
Proof.
  apply (failover_restores demo_rm_cfg (set_current TM 3 (fresh_rm demo_rm_cfg))). reflexivity.
Defined.

Example KubeSchedule_clean_witness :
  let '(_, s', _, _) := KubeSchedule (H := no_faults) noop_plan 1 0 (fun _ => ready) None
      (GotResult (demo_status "n" "SUCCESS")) (fresh_rm demo_rm_cfg) no_cluster no_routing in
  rm_pending s' TM = 0.
Proof.
  pose proof (KubeSchedule_clean (H := no_faults) noop_plan 1 0 (fun _ => ready) None
    (GotResult (demo_status "n" "SUCCESS")) (fresh_rm demo_rm_cfg) no_cluster no_routing) as Hc.
  destruct (KubeSchedule _ _ _ _ _ _ _ _ _) as [[[res s'] cl'] r'].
  destruct Hc as [Hp _]; [cbn; lia|by intros er [= <-]|reflexivity|]. apply (Hp TM).
Defined.

Example remote_outcome_witness :
  "n" ∈ jm_failed (handle_result "n" noop_plan
    (result_of noop_plan (status_message (with_outcome noop_plan Failed (error_result "script failed") None)))
    fresh_jm).
Proof.
  apply (remote_outcome (H0 := demo_tm) failing_router noop_plan tt tt tt
    (Ok (error_result "script failed"))
    (with_outcome noop_plan Failed (error_result "script failed") None) true fresh_jm);
    vm_compute; reflexivity.
Defined.

(** * The scaling loop of the Kubernetes resource manager

    [pkg/core/pkg/engine/resourcemanager/kubernetes.go]: the ticker that runs
    [reconcile] ([KubeRM]), the sandboxes' copies of the task managers'
    operations, and where the cluster's address comes from.  With no work the
    loop takes both deployments down to their minimum, one replica a tick. *)

(** ** The loop *)

Definition second : Z := 1000000000.

(** The period: a twentieth of the idle time, between 15 seconds and a
    minute. *)
Definition scaling_interval (idleTimeout : Z) : Z :=
  let interval := Z.quot idleTimeout 20 in
  let interval := if interval <? 15 * second then 15 * second else interval in
  if 60 * second <? interval then 60 * second else interval.

(** A tick of the loop: when, and what waiting for replicas observes. *)
Definition loop_tick : Type := (Z * (Kind -> list (Observed * Waiting)))%type.

(** [scalingLoop], on the ticks before the context is done. *)
Definition scalingLoop `{KubeAPI} (ticks : list loop_tick) (st : RM * Cluster) : RM * Cluster :=
  fold_left (fun st t => reconcile t.1 t.2 st.1 st.2) ticks st.

(** The copies for sandboxes. *)
Definition ensureSandboxCapacity `{KubeAPI} := ensureCapacity SB.
Definition reconcileSandbox `{KubeAPI} := reconcile_kind SB.

Definition rm_Validate (namespace : string) : option string :=
  if String.eqb namespace "" then Some "kubernetes rm: K8s namespace is required" else None.

(** [buildRESTConfig]: a file that is named, the pod's own account, the file
    of the user. *)
Inductive RestConfig := FromFile (path : string) | InCluster.

Definition buildRESTConfig (kubeconfigPath serviceHost home : string) (exists_ : string -> bool) : res RestConfig :=
  if negb (String.eqb kubeconfigPath "") then Ok (FromFile kubeconfigPath)
  else if negb (String.eqb serviceHost "") then Ok InCluster
  else
    let p := PathJoin [home; ".kube"; "config"] in
    if negb (String.eqb home "") && exists_ p then Ok (FromFile p)
    else Err "no kubeconfig found: set KUBECONFIG or ensure in-cluster config".

(** The secret whose keys become variables of the pods; it may be missing. *)
Definition rm_credentialEnvFrom (secret : string) : list (string * bool) :=
  if String.eqb secret "" then [] else [(secret, true)].

Lemma scaling_interval_bounds idle : 15 * second <= scaling_interval idle <= 60 * second.
Proof.
  unfold scaling_interval, second. destruct (Z.ltb_spec (Z.quot idle 20) (15 * 1000000000)).
  - destruct (Z.ltb_spec (60 * 1000000000) (15 * 1000000000)); lia.
  - destruct (Z.ltb_spec (60 * 1000000000) (Z.quot idle 20)); lia.
Qed.

(** ** Idle deployments *)

Section Idle.
Existing Instance no_faults.

Lemma upd_eq {A} (f : Kind -> A) k v : upd f k v k = v.
Proof. unfold upd. by rewrite decide_True. Qed.
Lemma upd_ne {A} (f : Kind -> A) k k' v : k <> k' -> upd f k v k' = f k'.
Proof. intros Hk. unfold upd. by rewrite decide_False. Qed.

(** Settings that fit the width of replica counts. *)
Definition fits (c : ResourceManagerConfig) (k : Kind) : Prop := 0 <= kmin c k /\ 0 <= kslots c k < 2 ^ 31.

(** A kind at rest: nothing pending, a deployment, replicas above the
    minimum. *)
Record at_rest (s : RM) (cl : Cluster) (k : Kind) : Prop := {
  rest_fits : fits (rm_cfg s) k;
  rest_current : kmin (rm_cfg s) k <= rm_current s k < 2 ^ 31;
  rest_pending : rm_pending s k <= 0;
  rest_dep : is_Some (cl_dep cl k);
}.

Definition one_less (min current : Z) : Z := if min <? current then current - 1 else current.

(** What a tick leaves of one kind, and of the other. *)
Record lowered (k : Kind) (s : RM) (cl : Cluster) (s' : RM) (cl' : Cluster) : Prop := {
  low_cfg : rm_cfg s' = rm_cfg s;
  low_pending : rm_pending s' = rm_pending s;
  low_activity : rm_lastActivity s' = rm_lastActivity s;
  low_current : rm_current s' k = one_less (kmin (rm_cfg s) k) (rm_current s k);
  low_dep : cl_dep cl' k = if kmin (rm_cfg s) k <? rm_current s k then Some (rm_current s k - 1) else cl_dep cl k;
  low_other : forall k', k <> k' -> rm_current s' k' = rm_current s k' /\ cl_dep cl' k' = cl_dep cl k';
}.

Lemma reconcile_idle k now obs s cl :
  at_rest s cl k -> rc_IdleTimeout (rm_cfg s) < idle_for s now ->
  exists p s' cl', reconcile_kind k now obs s cl = (p, s', cl') /\ lowered k s cl s' cl'.
Proof.
  intros [[Hm Hsl] Hc Hp [n Hd]] Hidle. unfold reconcile_kind. rewrite i64_small by nia.
  destruct (Z.ltb_spec (rm_current s k * kslots (rm_cfg s) k) (rm_pending s k)); [nia|].
  rewrite (proj2 (Z.ltb_lt _ _) Hidle). cbn [andb].
  destruct (Z.ltb_spec (kmin (rm_cfg s) k) (rm_current s k)) as [Hlt|Hge].
  - destruct (Z.ltb_spec (rm_current s k - 1) (kmin (rm_cfg s) k)); [lia|].
    rewrite i32_small by lia. unfold scaleDeployment, update_scale. cbn [api_err no_faults]. rewrite Hd.
    do 3 eexists. split; [reflexivity|]. constructor; cbn [set_current rm_cfg rm_pending rm_lastActivity rm_current cl_dep]; try done.
    + rewrite upd_eq. unfold one_less. by rewrite (proj2 (Z.ltb_lt _ _) Hlt).
    + rewrite upd_eq. by rewrite (proj2 (Z.ltb_lt _ _) Hlt).
    + intros k' Hk. by rewrite !upd_ne.
  - exists false, s, cl. split; [done|]. assert (E : (kmin (rm_cfg s) k <? rm_current s k) = false) by (by apply Z.ltb_ge).
    constructor; try done; unfold one_less; by rewrite E.
Qed.

Lemma lowered_rest k s cl s' cl' : lowered k s cl s' cl' -> (forall k', at_rest s cl k' -> at_rest s' cl' k').
Proof.
  intros [Hcfg Hpend _ Hcur Hdep Ho] k' [Hf Hc Hp Hd]. destruct (decide (k = k')) as [<-|Hk].
  - constructor; rewrite ?Hcfg, ?Hpend; try done.
    + rewrite Hcur. unfold one_less. destruct (Z.ltb_spec (kmin (rm_cfg s) k) (rm_current s k)); lia.
    + rewrite Hdep. by destruct (Z.ltb _ _).
  - destruct (Ho k' Hk) as [E1 E2]. constructor; rewrite ?Hcfg, ?Hpend, ?E1, ?E2; done.
Qed.

(** The kinds the manager scales. *)
Definition scaled (c : ResourceManagerConfig) (k : Kind) : Prop := k = TM \/ rc_SandboxEnabled c = true.

Lemma reconcile_lowers now obs s cl :
  (forall k, scaled (rm_cfg s) k -> at_rest s cl k) -> rc_IdleTimeout (rm_cfg s) < idle_for s now ->
  forall s' cl', reconcile now obs s cl = (s', cl') ->
  rm_cfg s' = rm_cfg s /\ rm_lastActivity s' = rm_lastActivity s /\
  forall k, scaled (rm_cfg s) k -> at_rest s' cl' k /\
    rm_current s' k = one_less (kmin (rm_cfg s) k) (rm_current s k) /\
    cl_dep cl' k = if kmin (rm_cfg s) k <? rm_current s k then Some (rm_current s k - 1) else cl_dep cl k.
Proof.
  intros Hr Hidle s' cl'. unfold reconcile.
  destruct (reconcile_idle TM now (obs TM) s cl (Hr TM (or_introl eq_refl)) Hidle) as (p & s1 & cl1 & -> & H1).
  pose proof (lowered_rest _ _ _ _ _ H1) as Hr1. destruct H1 as [E1 E2 E3 E4 E5 E6].
  destruct (rc_SandboxEnabled (rm_cfg s1)) eqn:Esb; rewrite E1 in Esb.
  - assert (Hsb : at_rest s1 cl1 SB) by (apply Hr1, Hr; by right).
    destruct (reconcile_idle SB now (obs SB) s1 cl1 Hsb) as (p2 & s2 & cl2 & -> & H2).
    { unfold idle_for in *. by rewrite E1, E3. }
    pose proof (lowered_rest _ _ _ _ _ H2) as Hr2. destruct H2 as [F1 F2 F3 F4 F5 F6].
    intros [= <- <-]. split_and!; [congruence..|]. intros k Hk. split; [by apply Hr2, Hr1, Hr|].
    destruct k; [destruct (F6 TM ltac:(done)) as [-> ->]; done|].
    destruct (E6 SB ltac:(done)) as [G1 G2]. by rewrite F4, F5, E1, G1, G2.
  - intros [= <- <-]. split_and!; [done..|]. intros k Hk. split; [by apply Hr1, Hr|].
    destruct k; [done|]. destruct Hk; congruence.
Qed.

(** C22: idle deployments go down to their minimum. From a manager with nothing
    pending, on a cluster that answers, every tick past the idle time takes
    one replica off each deployment that has more than its minimum; after as
    many ticks as there are replicas above it, the manager counts exactly the
    minimum, and a deployment that was above asks the cluster for it. *)
Theorem idle_scales_to_minimum ticks s cl :
  (forall k, scaled (rm_cfg s) k -> at_rest s cl k) ->
  Forall (fun t : loop_tick => rc_IdleTimeout (rm_cfg s) < idle_for s t.1) ticks ->
  let st := scalingLoop ticks (s, cl) in
  forall k, scaled (rm_cfg s) k ->
  let m := kmin (rm_cfg s) k in
  rm_current st.1 k = Z.max m (rm_current s k - Z.of_nat (length ticks)) /\
  (m < rm_current s k -> ticks <> [] -> cl_dep st.2 k = Some (rm_current st.1 k)) /\
  (rm_current s k - m <= Z.of_nat (length ticks) -> rm_current st.1 k = m).
Proof.
  intros Hr Ht st k Hk m.
  assert (Hmain : rm_current st.1 k = Z.max m (rm_current s k - Z.of_nat (length ticks)) /\
                  (m < rm_current s k \/ cl_dep cl k = Some (rm_current s k) -> ticks <> [] ->
                   cl_dep st.2 k = Some (rm_current st.1 k))).
  2: { destruct Hmain as [E D]. split_and!; [done|auto|]. pose proof (rest_current _ _ _ (Hr k Hk)). lia. }
  subst st m. revert s cl Hr Ht Hk. induction ticks as [|[now obs] ticks IH]; intros s cl Hr Ht Hk.
  - cbn. pose proof (rest_current _ _ _ (Hr k Hk)). split; [lia|done].
  - apply Forall_cons in Ht as [Hnow Ht]. cbn [fst] in Hnow. unfold scalingLoop. cbn [fold_left fst snd].
    destruct (reconcile now obs s cl) as [s1 cl1] eqn:E1. fold (scalingLoop ticks (s1, cl1)).
    destruct (reconcile_lowers now obs s cl Hr Hnow s1 cl1 E1) as (Hcfg & Hact & Hks).
    destruct (IH s1 cl1) as [IHc IHd].
    { intros k' Hk'. rewrite Hcfg in Hk'. by apply Hks. }
    { rewrite Hcfg. unfold idle_for in *. by rewrite Hact. }
    { by rewrite Hcfg. }
    destruct (Hks k Hk) as (_ & Hc1 & Hd1). rewrite Hcfg in IHc, IHd. unfold one_less in Hc1.
    pose proof (rest_current _ _ _ (Hr k Hk)) as Hge. cbn [length].
    destruct (Z.ltb_spec (kmin (rm_cfg s) k) (rm_current s k)) as [Hlt|Hle].
    + split; [rewrite IHc, Hc1; lia|]. intros _ _.
      destruct ticks as [|t ticks]; [cbn; by rewrite Hd1, Hc1|]. apply IHd; [|done]. right. by rewrite Hd1, Hc1.
    + split; [rewrite IHc, Hc1; lia|]. intros [Hlt|Hdep] _; [lia|].
      destruct ticks as [|t ticks]; [cbn; by rewrite Hd1, Hdep, Hc1|]. apply IHd; [|done]. right. by rewrite Hd1, Hdep, Hc1.
Qed.

(** *** Three task managers at night *)

Definition night_rm : RM :=
  {| rm_cfg := normalise demo_rm_cfg; rm_current := fun k => match k with TM => 3 | SB => 0 end; rm_pending := fun _ => 0;
     rm_lastActivity := Some 0 |}.
Definition ready_obs : Kind -> list (Observed * Waiting) := fun _ => ready.
Definition night_cluster : Cluster := {| cl_dep := fun k => match k with TM => Some 3 | SB => Some 0 end; cl_scales := []; cl_calls := 0 |}.

Lemma idle_scales_to_minimum_witness :
  let st := scalingLoop [(1000, ready_obs); (2000, ready_obs); (3000, ready_obs)] (night_rm, night_cluster) in
  rm_current st.1 TM = 1 /\ cl_dep st.2 TM = Some 1.
Proof.
  destruct (idle_scales_to_minimum [(1000, ready_obs); (2000, ready_obs); (3000, ready_obs)] night_rm night_cluster) with (k := TM)
    as (E & D & _).
  - intros [|] _; constructor; cbn; try lia; try (eexists; reflexivity); split; cbn; lia.
  - repeat (apply Forall_cons; split; [vm_compute; reflexivity|]). apply Forall_nil. done.
  - by left.
  - split; [exact E|]. rewrite D; [f_equal; exact E|vm_compute; reflexivity|discriminate].
Defined.
End Idle.
