(* ===== verification/JobManager.v ===== *)
(** * Job manager: claiming runs, and retries

    [pkg/core/pkg/engine/jobmanager/jobmanager.go] (the poller, the claim of a
    run under a distributed lock, [Submit]), the in-memory lock of
    [pkg/core/pkg/lock/lock.go], and the retry policy of [jobmaster.go].
    Times are nanoseconds. *)

From S2P Require Export JobMaster Executors.

Local Open Scope string_scope.
Local Open Scope Z_scope.

(** ** Distributed locks *)

(** [DistributedLock], with the time of each call. *)
Class DistributedLock (L : Type) := {
  TryLock : string -> Z -> Z -> L -> res bool * L;
  Release : string -> L -> option string * L;
  Extend : string -> Z -> Z -> L -> option string * L;
}.

(** A key held until [o] is taken at a time. *)
Definition taken (o : option Z) (now : Z) : bool :=
  match o with Some e => now <? e | None => false end.

(** What claims rely on: a lock shows, for every key, until when it is held
    ([None]: not at all); a try succeeds exactly when the key is free or its
    time is over, and then holds it; an extension of a held key moves its
    time; a release frees it. *)
Class LockLaws (L : Type) `{DistributedLock L} := {
  lock_inv : L -> Prop;
  held : L -> string -> option Z;
  TryLock_spec : forall key ttl now l, lock_inv l ->
    let (r, l') := TryLock key ttl now l in
    lock_inv l' /\
    if taken (held l key) now
    then r = Ok false /\ forall k, held l' k = held l k
    else r = Ok true /\ held l' key = Some (now + ttl) /\ forall k, k <> key -> held l' k = held l k;
  Release_spec : forall key l, lock_inv l ->
    let (r, l') := Release key l in
    lock_inv l' /\ r = None /\ held l' key = None /\ forall k, k <> key -> held l' k = held l k;
  Extend_spec : forall key ttl now l, lock_inv l ->
    let (r, l') := Extend key ttl now l in
    lock_inv l' /\ (forall k, k <> key -> held l' k = held l k) /\
    match held l key with
    | None => r <> None /\ held l' key = None
    | Some _ => r = None /\ held l' key = Some (now + ttl)
    end;
}.

(** *** The in-memory lock *)

Record lockEntry := { le_value : nat; le_expiresAt : Z }.

(** [ml_next] stands for the fresh values of [uuid.New]. *)
Record MemoryLock := {
  ml_locks : gmap string lockEntry;
  ml_lockValues : gmap string nat;
  ml_next : nat;
}.

Definition NewMemoryLock : MemoryLock := {| ml_locks := ∅; ml_lockValues := ∅; ml_next := 0 |}.

Definition mem_TryLock (key : string) (ttl now : Z) (m : MemoryLock) : res bool * MemoryLock :=
  let value := ml_next m in
  let fresh := {| ml_locks := <[key := {| le_value := value; le_expiresAt := now + ttl |}]> (ml_locks m);
                  ml_lockValues := <[key := value]> (ml_lockValues m); ml_next := S value |} in
  let same := {| ml_locks := ml_locks m; ml_lockValues := ml_lockValues m; ml_next := S value |} in
  match ml_locks m !! key with
  | Some entry => if now <? le_expiresAt entry then (Ok false, same) else (Ok true, fresh)
  | None => (Ok true, fresh)
  end.

Definition mem_Release (key : string) (m : MemoryLock) : option string * MemoryLock :=
  match ml_lockValues m !! key with
  | None => (None, m)
  | Some val =>
      (None,
       {| ml_locks := match ml_locks m !! key with
                      | Some entry => if Nat.eqb (le_value entry) val then delete key (ml_locks m)
                                      else ml_locks m
                      | None => ml_locks m
                      end;
          ml_lockValues := delete key (ml_lockValues m); ml_next := ml_next m |})
  end.

Definition mem_Extend (key : string) (ttl now : Z) (m : MemoryLock) : option string * MemoryLock :=
  match ml_lockValues m !! key with
  | None => (Some ("lock " +:+ key +:+ " not held"), m)
  | Some val =>
      match ml_locks m !! key with
      | Some entry =>
          if Nat.eqb (le_value entry) val then
            (None, {| ml_locks := <[key := {| le_value := le_value entry;
                                             le_expiresAt := now + ttl |}]> (ml_locks m);
                      ml_lockValues := ml_lockValues m; ml_next := ml_next m |})
          else (Some ("lock " +:+ key +:+ " lost"), m)
      | None => (Some ("lock " +:+ key +:+ " lost"), m)
      end
  end.

#[export] Instance MemoryLock_lock : DistributedLock MemoryLock := {|
  TryLock := mem_TryLock; Release := mem_Release; Extend := mem_Extend |}.

(** The two tables of the lock agree. *)
Definition mem_inv (m : MemoryLock) : Prop :=
  forall k, ml_lockValues m !! k = le_value <$> ml_locks m !! k.

Definition mem_held (m : MemoryLock) (k : string) : option Z := le_expiresAt <$> ml_locks m !! k.

Lemma mem_TryLock_spec key ttl now l : mem_inv l ->
  let (r, l') := mem_TryLock key ttl now l in
  mem_inv l' /\
  if taken (mem_held l key) now
  then r = Ok false /\ forall k, mem_held l' k = mem_held l k
  else r = Ok true /\ mem_held l' key = Some (now + ttl) /\
       forall k, k <> key -> mem_held l' k = mem_held l k.
Proof.
  intros Hi. unfold mem_TryLock, mem_held, mem_inv in *.
  assert (forall e, (forall k, <[key := ml_next l]> (ml_lockValues l) !! k
      = le_value <$> <[key := {| le_value := ml_next l; le_expiresAt := e |}]> (ml_locks l) !! k)) as Hins.
  { intros e k. destruct (decide (k = key)) as [->|]; [by rewrite !lookup_insert_eq|].
    by rewrite !lookup_insert_ne. }
  destruct (ml_locks l !! key) as [entry|] eqn:E; cbn [taken fmap option_fmap option_map];
    [destruct (now <? le_expiresAt entry); [done|]|]; cbn;
    (split; [apply Hins|]; split; [done|]; rewrite lookup_insert_eq; split; [done|];
     intros k Hk; by rewrite lookup_insert_ne).
Qed.

Lemma mem_Release_spec key l : mem_inv l ->
  let (r, l') := mem_Release key l in
  mem_inv l' /\ r = None /\ mem_held l' key = None /\ forall k, k <> key -> mem_held l' k = mem_held l k.
Proof.
  intros Hi. unfold mem_Release, mem_held, mem_inv in *. rewrite (Hi key).
  destruct (ml_locks l !! key) as [entry|] eqn:E; cbn; [|by rewrite E].
  rewrite Nat.eqb_refl, lookup_delete_eq. split.
  - intros k. destruct (decide (k = key)) as [->|]; [by rewrite !lookup_delete_eq|].
    by rewrite !lookup_delete_ne.
  - split; [done|]. split; [done|]. intros k Hk. by rewrite lookup_delete_ne.
Qed.

Lemma mem_Extend_spec key ttl now l : mem_inv l ->
  let (r, l') := mem_Extend key ttl now l in
  mem_inv l' /\ (forall k, k <> key -> mem_held l' k = mem_held l k) /\
  match mem_held l key with
  | None => r <> None /\ mem_held l' key = None
  | Some _ => r = None /\ mem_held l' key = Some (now + ttl)
  end.
Proof.
  intros Hi. unfold mem_Extend, mem_held, mem_inv in *. rewrite (Hi key).
  destruct (ml_locks l !! key) as [entry|] eqn:E; cbn; [|by rewrite E].
  rewrite Nat.eqb_refl. split; [|split].
  - intros k. cbn. rewrite Hi. destruct (decide (k = key)) as [->|].
    + by rewrite lookup_insert_eq, E.
    + by rewrite lookup_insert_ne.
  - intros k Hk. cbn. by rewrite lookup_insert_ne.
  - cbn. by rewrite lookup_insert_eq.
Qed.

#[export] Instance MemoryLock_laws : LockLaws MemoryLock := {|
  lock_inv := mem_inv; held := mem_held; TryLock_spec := mem_TryLock_spec;
  Release_spec := mem_Release_spec; Extend_spec := mem_Extend_spec |}.

(** ** Claims *)

Definition runLockTTL : Z := 2 * minute.
Definition runLockKey (runID : string) : string := "flow-run:" +:+ runID.

(** [claimRun] with a lock: whether the run is claimed, and until when. *)
Definition claimRun {L} `{DistributedLock L} (runID : string) (now : Z) (l : L) : res bool * L :=
  TryLock (runLockKey runID) runLockTTL now l.

(** Without a lock every run is claimed. *)
Definition claimRun_opt {L} `{DistributedLock L} (lock : option L) (runID : string) (now : Z)
    : res bool * option L :=
  match lock with
  | None => (Ok true, None)
  | Some l => let (r, l) := claimRun runID now l in (r, Some l)
  end.

(** ** Poller *)

(** What a poll does with one run of the page. *)
Inductive Dispatch :=
| SkipRun
| LockFailed (e : string)
| AlreadyClaimed
| Dispatched (run : FlowRunInfo) (spec : FlowInfo).

Section Poller.
Context {L : Type} `{DistributedLock L}.

(** [flows] are the flows known at start, [getFlow] asks the API server. *)
Definition poll_run (flows : string -> option FlowInfo) (getFlow : string -> option FlowInfo)
    (k8sNamespace : string) (now : Z) (run : FlowRunInfo) (lock : option L)
    : call Dispatch * option L :=
  if negb (bool_decide (r_Status run = RunPending)) then (Ret SkipRun, lock)
  else if negb (String.eqb k8sNamespace "") && negb (String.eqb (r_K8sNamespace run) k8sNamespace)
  then (Ret SkipRun, lock)
  else
    match (match flows (r_AgentFlowID run) with
           | Some s => Some s
           | None => getFlow (r_AgentFlowID run)
           end) with
    | None => (Ret SkipRun, lock)
    | Some spec =>
        if (String.length (r_ID run) <? 8)%nat then (Panic "slice bounds out of range", lock)
        else
          match claimRun_opt lock (r_ID run) now with
          | (Err e, lock) => (Ret (LockFailed e), lock)
          | (Ok false, lock) => (Ret AlreadyClaimed, lock)
          | (Ok true, lock) => (Ret (Dispatched run spec), lock)
          end
    end.

Fixpoint poll_page (flows getFlow : string -> option FlowInfo) (k8sNamespace : string) (now : Z)
    (runs : list FlowRunInfo) (lock : option L) : call (list Dispatch) * option L :=
  match runs with
  | [] => (Ret [], lock)
  | run :: rest =>
      match poll_run flows getFlow k8sNamespace now run lock with
      | (Panic m, lock) => (Panic m, lock)
      | (Ret d, lock) =>
          match poll_page flows getFlow k8sNamespace now rest lock with
          | (Panic m, lock) => (Panic m, lock)
          | (Ret ds, lock) => (Ret (d :: ds), lock)
          end
      end
  end.
End Poller.

(** ** Submit *)

Definition submitted_run (run : FlowRunInfo) (spec : FlowInfo) : FlowRunInfo :=
  {| r_ID := r_ID run; r_Namespace := f_Namespace spec; r_AgentFlowID := r_AgentFlowID run;
     r_Version := r_Version run; r_Status := r_Status run; r_Vars := r_Vars run;
     r_Error := r_Error run; r_Trigger := r_Trigger run; r_StartedAt := r_StartedAt run;
     r_FinishedAt := r_FinishedAt run; r_K8sNamespace := f_K8sNamespace spec;
     r_Priority := f_Priority spec |}.

Definition Submit {W} `{RangeOrder} `{JobMasterEnv W} (cfg : JobManagerConfig) (knowledge : bool)
    (run : FlowRunInfo) (spec : FlowInfo) (w : W) : option (Outcome W) :=
  let master := NewJobMaster cfg in
  let master := if knowledge then SetKnowledgeWriter master else master in
  Execute master (submitted_run run spec) spec w.

(** ** Retries *)

Record RetryPolicy := { rp_Max : Z; rp_Initial : Z; rp_MaxDelay : Z; rp_Factor : f64 }.

Definition ModelRetry (r : option NodeRetryPolicy) : RetryPolicy :=
  let dflt := {| rp_Max := 3; rp_Initial := second; rp_MaxDelay := 30 * second;
                 rp_Factor := f64_of_Z 2 |} in
  match r with
  | None => dflt
  | Some r =>
      {| rp_Max := if nrp_Max r <=? 0 then rp_Max dflt else nrp_Max r;
         rp_Initial := if nrp_Initial r <=? 0 then rp_Initial dflt else nrp_Initial r;
         rp_MaxDelay := if nrp_MaxDelay r <=? 0 then rp_MaxDelay dflt else nrp_MaxDelay r;
         rp_Factor := if f64_leb (nrp_Factor r) (f64_of_Z 0) then rp_Factor dflt else nrp_Factor r |}
  end.

Definition next_delay (p : RetryPolicy) (delay : Z) : Z :=
  let d := f64_to_i64 (f64_mul (f64_of_Z delay) (rp_Factor p)) in
  if rp_MaxDelay p <? d then rp_MaxDelay p else d.

Section Retry.
Context {W : Type} (ctx_err : W -> option string) (sleep : Z -> W -> W)
        (fn : W -> option string * W).

(** The loop of [RetryWithBackoff]: [n] iterations are left, [first] says
    whether none was done yet; the sleeps and the number of calls of [fn] are
    part of the result. *)
Fixpoint retry_loop (p : RetryPolicy) (n : nat) (first : bool) (delay : Z) (err : string) (w : W)
    : option string * list Z * nat * W :=
  match n with
  | O => (Some ("retry exhausted after " +:+ Itoa (rp_Max p) +:+ " attempts: " +:+ err), [], 0%nat, w)
  | S n =>
      match ctx_err w with
      | Some e => (Some e, [], 0%nat, w)
      | None =>
          let w := if first then w else sleep delay w in
          let slept := if first then [] else [delay] in
          let delay := if first then delay else next_delay p delay in
          match fn w with
          | (None, w) => (None, slept, 1%nat, w)
          | (Some err, w) =>
              let '(r, sleeps, calls, w) := retry_loop p n false delay err w in
              (r, (slept ++ sleeps)%list, S calls, w)
          end
      end
  end.

Definition RetryWithBackoff (p : RetryPolicy) (w : W) : option string * list Z * nat * W :=
  retry_loop p (Z.to_nat (rp_Max p + 1)) true (rp_Initial p) "" w.
End Retry.
