(* ===== verification/JobManagerFacts.v ===== *)
(** * Properties of the job manager

    Mutual exclusion of claims, proved against the interface of locks and
    discharged by the in-memory lock; what a poll dispatches; retries. *)

From S2P Require Export JobManager.

Local Open Scope string_scope.
Local Open Scope Z_scope.
Local Open Scope list_scope.

(** ** Claims *)

(** A claim of a run, good until its lease ends unless it is extended. *)
Record Claim := { c_run : string; c_lease : Z }.

Section Claims.
Context {L : Type} `{LockLaws L}.

Record ClaimState := { cs_lock : L; cs_claims : gmap nat Claim }.

(** What job managers sharing a lock do, in any order: time passes, a claim
    is tried, and a claim in force is extended (a failed extension cancels the
    run) or released.  Extensions and releases are timely: they happen before
    the lease of their claim ends. *)
Inductive reachable : Z -> ClaimState -> Prop :=
| reach_init t l : lock_inv l -> reachable t {| cs_lock := l; cs_claims := ∅ |}
| reach_wait t t' s : reachable t s -> t <= t' -> reachable t' s
| reach_claim t s i run l :
    reachable t s -> cs_claims s !! i = None ->
    claimRun run t (cs_lock s) = (Ok true, l) ->
    reachable t {| cs_lock := l;
                   cs_claims := <[i := {| c_run := run; c_lease := t + runLockTTL |}]> (cs_claims s) |}
| reach_refused t s run l :
    reachable t s -> claimRun run t (cs_lock s) = (Ok false, l) ->
    reachable t {| cs_lock := l; cs_claims := cs_claims s |}
| reach_extend t s i c l :
    reachable t s -> cs_claims s !! i = Some c -> t < c_lease c ->
    Extend (runLockKey (c_run c)) runLockTTL t (cs_lock s) = (None, l) ->
    reachable t {| cs_lock := l;
                   cs_claims := <[i := {| c_run := c_run c; c_lease := t + runLockTTL |}]> (cs_claims s) |}
| reach_release t s i c r l :
    reachable t s -> cs_claims s !! i = Some c -> t < c_lease c ->
    Release (runLockKey (c_run c)) (cs_lock s) = (r, l) ->
    reachable t {| cs_lock := l; cs_claims := delete i (cs_claims s) |}.

Definition in_force (t : Z) (s : ClaimState) (i : nat) (c : Claim) : Prop :=
  cs_claims s !! i = Some c /\ t < c_lease c.

(** The claims in force are those the lock shows, one for each run. *)
Definition claims_inv (t : Z) (s : ClaimState) : Prop :=
  lock_inv (cs_lock s) /\
  (forall i c, in_force t s i c -> held (cs_lock s) (runLockKey (c_run c)) = Some (c_lease c)) /\
  (forall i j c d, in_force t s i c -> in_force t s j d -> c_run c = c_run d -> i = j).

Lemma runLockKey_inj r r' : runLockKey r = runLockKey r' -> r = r'.
Proof. apply append_inj_l. Qed.

Lemma runLockTTL_pos : 0 < runLockTTL.
Proof. done. Qed.

(** A claim put in force for a run that had none, or had only it. *)
Lemma claims_inv_put t s i run l' :
  claims_inv t s -> lock_inv l' ->
  held l' (runLockKey run) = Some (t + runLockTTL) ->
  (forall k, k <> runLockKey run -> held l' k = held (cs_lock s) k) ->
  (forall j d, in_force t s j d -> c_run d = run -> j = i) ->
  claims_inv t {| cs_lock := l';
                  cs_claims := <[i := {| c_run := run; c_lease := t + runLockTTL |}]> (cs_claims s) |}.
Proof.
  intros (_ & Hheld & Huniq) Hi' Hnew Hoth Honly.
  assert (forall j d, in_force t {| cs_lock := l';
      cs_claims := <[i := {| c_run := run; c_lease := t + runLockTTL |}]> (cs_claims s) |} j d ->
    (j = i /\ d = {| c_run := run; c_lease := t + runLockTTL |}) \/
    (j <> i /\ in_force t s j d /\ c_run d <> run)) as Hcase.
  { intros j d [Hj Ht]. cbn in Hj. destruct (decide (j = i)) as [->|Hne].
    - rewrite lookup_insert_eq in Hj. injection Hj as <-. by left.
    - rewrite lookup_insert_ne in Hj by done. right. split; [done|]. split; [done|].
      intros Hr. apply Hne. by apply (Honly j d). }
  split; [done|]. split.
  - intros j d [[-> ->]|(Hne & Hd & Hr)]%Hcase; cbn; [done|].
    rewrite Hoth by (intros E; apply Hr; by apply runLockKey_inj). by apply (Hheld j).
  - intros j k c d [[-> ->]|(Hj & Hc & Hrc)]%Hcase [[-> ->]|(Hk & Hd & Hrd)]%Hcase Hr; cbn in *;
      [done|congruence|congruence|by apply (Huniq j k c d)].
Qed.

Lemma reachable_inv t s : reachable t s -> claims_inv t s.
Proof.
  induction 1 as [t l Hl|t t' s _ IH Ht|t s i run l _ IH Hi Hc|t s run l _ IH Hc
                 |t s i c l _ IH Hi Ht He|t s i c r l _ IH Hi Ht Hr].
  - split; [done|]. split.
    + intros i c [Hi _]. cbn in Hi. by rewrite lookup_empty in Hi.
    + intros i j c d [Hi _]. cbn in Hi. by rewrite lookup_empty in Hi.
  - destruct IH as (Hl & Hh & Hu). split; [done|]. unfold in_force in *. split.
    + intros i c [Hi Hlt]. apply (Hh i). split; [done|lia].
    + intros i j c d [Hi Hlt] [Hj Hlt'] Hr. apply (Hu i j c d); [split; [done|lia]..|done].
  - destruct (IH) as (Hl & Hh & Hu). pose proof (TryLock_spec (runLockKey run) runLockTTL t (cs_lock s) Hl) as Hs.
    unfold claimRun in Hc. rewrite Hc in Hs. destruct Hs as [Hl' Hs].
    destruct (taken _ _) eqn:Htk; [by destruct Hs|]. destruct Hs as (_ & Hnew & Hoth).
    apply claims_inv_put; [done..|]. intros j d Hd <-. exfalso. pose proof (Hh j d Hd) as E.
    rewrite E in Htk. cbn in Htk. destruct Hd as [_ Hd]. apply Z.ltb_ge in Htk. lia.
  - destruct (IH) as (Hl & Hh & Hu). pose proof (TryLock_spec (runLockKey run) runLockTTL t (cs_lock s) Hl) as Hs.
    unfold claimRun in Hc. rewrite Hc in Hs. destruct Hs as [Hl' Hs].
    destruct (taken _ _); [|by destruct Hs]. destruct Hs as [_ Hsame].
    split; [done|]. split; [|exact Hu]. intros i c Hi. cbn. rewrite Hsame. by apply (Hh i).
  - destruct (IH) as (Hl & Hh & Hu).
    pose proof (Extend_spec (runLockKey (c_run c)) runLockTTL t (cs_lock s) Hl) as Hs.
    rewrite He in Hs. destruct Hs as (Hl' & Hoth & Hs). rewrite (Hh i c) in Hs by done.
    destruct Hs as [_ Hnew]. apply claims_inv_put; [done..|].
    intros j d Hd Hr. by apply (Hu j i d c).
  - destruct (IH) as (Hl & Hh & Hu). pose proof (Release_spec (runLockKey (c_run c)) (cs_lock s) Hl) as Hs.
    rewrite Hr in Hs. destruct Hs as (Hl' & _ & Hnone & Hoth).
    assert (forall j d, in_force t {| cs_lock := l; cs_claims := delete i (cs_claims s) |} j d ->
              in_force t s j d /\ c_run d <> c_run c) as Hcase.
    { intros j d [Hj Hlt]. cbn in Hj. destruct (decide (j = i)) as [->|Hne];
        [by rewrite lookup_delete_eq in Hj|]. rewrite lookup_delete_ne in Hj by done.
      split; [done|]. intros E. apply Hne. by apply (Hu j i d c). }
    split; [done|]. split.
    + intros j d [Hd Hne]%Hcase. cbn. rewrite Hoth by (intros E; apply Hne; by apply runLockKey_inj).
      by apply (Hh j).
    + intros j k c' d [Hc' _]%Hcase [Hd _]%Hcase Heq. by apply (Hu j k c' d).
Qed.

(** C8: job managers that share a lock which keeps its laws, and that extend
    and release their claims in time, never hold two claims of one run at the
    same time: a run is executed by one job master. *)
Theorem claims_exclusive t s i j c d :
  reachable t s -> in_force t s i c -> in_force t s j d -> c_run c = c_run d -> i = j.
Proof. intros Hr. apply (reachable_inv t s Hr). Qed.
End Claims.

(** The in-memory lock does not tell holders apart: when a claim was not
    extended in time and another holder took over, the late release of the
    first frees the second's lock, and a third try succeeds while the second
    lease is running. *)
Theorem stale_release_frees key ttl t0 t1 t2 m :
  ml_locks m !! key = None -> t0 + ttl <= t1 -> t1 <= t2 < t1 + ttl ->
  let (a, m) := mem_TryLock key ttl t0 m in
  let (b, m) := mem_TryLock key ttl t1 m in
  let (_, m) := mem_Release key m in
  let (c, m) := mem_TryLock key ttl t2 m in
  a = Ok true /\ b = Ok true /\ c = Ok true.
Proof.
  intros Hm H1 H2. unfold mem_TryLock at 1. rewrite Hm.
  unfold mem_TryLock at 1. cbn [ml_locks]. rewrite lookup_insert_eq. cbn [le_expiresAt].
  destruct (Z.ltb_spec t1 (t0 + ttl)); [lia|].
  unfold mem_Release. cbn [ml_lockValues ml_locks ml_next]. rewrite !lookup_insert_eq.
  cbn [le_value]. rewrite Nat.eqb_refl. unfold mem_TryLock. cbn [ml_locks].
  by rewrite lookup_delete_eq.
Qed.

(** ** Polls *)

Section Polls.
Context {L : Type} `{LockLaws L}.
Context (flows getFlow : string -> option FlowInfo) (k8s : string) (now : Z).

Definition dispatched (ds : list Dispatch) : list FlowRunInfo :=
  omap (fun d => match d with Dispatched run _ => Some run | _ => None end) ds.

Definition eligible (run : FlowRunInfo) : Prop :=
  r_Status run = RunPending /\ (k8s = "" \/ r_K8sNamespace run = k8s).

Lemma poll_run_spec run l d l' :
  lock_inv l -> poll_run flows getFlow k8s now run (Some l) = (Ret d, l') ->
  exists m, l' = Some m /\ lock_inv m /\
  (forall k, taken (held l k) now = true -> taken (held m k) now = true) /\
  match d with
  | Dispatched r spec =>
      r = run /\ eligible run /\ taken (held l (runLockKey (r_ID run))) now = false /\
      taken (held m (runLockKey (r_ID run))) now = true
  | _ => True
  end.
Proof.
  intros Hl. unfold poll_run. destruct (bool_decide_reflect (r_Status run = RunPending)) as [Hp|];
    [|intros [= <- <-]; by exists l]. cbn [negb].
  destruct (negb (String.eqb k8s "") && negb (String.eqb (r_K8sNamespace run) k8s)) eqn:Hns;
    [intros [= <- <-]; by exists l|].
  destruct (match flows _ with Some s => Some s | None => getFlow _ end) as [spec|];
    [|intros [= <- <-]; by exists l].
  destruct (_ <? _)%nat; [done|]. cbn [claimRun_opt]. unfold claimRun.
  pose proof (TryLock_spec (runLockKey (r_ID run)) runLockTTL now l Hl) as Hs.
  destruct (TryLock _ _ _ l) as [r m]. destruct Hs as [Hm Hs].
  destruct (taken (held l (runLockKey (r_ID run))) now) eqn:Ht.
  - destruct Hs as [-> Hsame]. intros [= <- <-]. exists m. split; [done|]. split; [done|].
    split; [|done]. intros k. by rewrite Hsame.
  - destruct Hs as (-> & Hnew & Hoth). intros [= <- <-]. exists m. split; [done|]. split; [done|].
    assert (taken (held m (runLockKey (r_ID run))) now = true) as Hnow.
    { rewrite Hnew. cbn. apply Z.ltb_lt. pose proof runLockTTL_pos. lia. }
    split.
    + intros k Hk. destruct (decide (k = runLockKey (r_ID run))) as [->|]; [done|]. by rewrite Hoth.
    + split; [done|]. split; [|done]. split; [done|].
      destruct (String.eqb_spec k8s ""), (String.eqb_spec (r_K8sNamespace run) k8s);
        cbn in Hns; auto; discriminate Hns.
Qed.

(** A poll under a lock dispatches only pending runs of its namespace,
    none whose lock was taken, and no run twice even when the page lists it
    twice. *)
Theorem poll_page_dispatch runs l ds l' :
  lock_inv l -> poll_page flows getFlow k8s now runs (Some l) = (Ret ds, l') ->
  NoDup (map r_ID (dispatched ds)) /\
  forall run, run ∈ dispatched ds ->
    run ∈ runs /\ eligible run /\ taken (held l (runLockKey (r_ID run))) now = false.
Proof.
  revert l ds l'. induction runs as [|run runs IH]; intros l ds l' Hl; cbn [poll_page].
  - intros [= <- <-]. split; [constructor|]. by intros run Hr%elem_of_nil.
  - destruct (poll_run flows getFlow k8s now run (Some l)) as [[d|msg] l1] eqn:E1; [|done].
    destruct (poll_run_spec run l d l1 Hl E1) as (m & -> & Hm & Hmono & Hd).
    destruct (poll_page flows getFlow k8s now runs (Some m)) as [[ds1|msg] l2] eqn:E2; [|done].
    intros [= <- <-]. destruct (IH m ds1 l2 Hm E2) as [Hnd Hall].
    assert (forall r, r ∈ dispatched ds1 -> r ∈ run :: runs /\ eligible r /\
              taken (held l (runLockKey (r_ID r))) now = false) as Hrest.
    { intros r Hr. destruct (Hall r Hr) as (Hin & Hel & Ht). split; [by right|]. split; [done|].
      destruct (taken (held l (runLockKey (r_ID r))) now) eqn:E; [|done]. apply Hmono in E. congruence. }
    destruct d as [| | |r spec]; [by split..|]. destruct Hd as (-> & Hel & Hfree & Htaken).
    cbn [dispatched omap list_omap]. change (omap _ ds1) with (dispatched ds1). split.
    + cbn [map]. apply NoDup_cons. split; [|done]. intros Hin.
      apply list_elem_of_In, in_map_iff in Hin as (r' & Heq & Hr'%list_elem_of_In).
      destruct (Hall r' Hr') as (_ & _ & Ht). rewrite Heq in Ht. congruence.
    + intros r' [->|Hr']%elem_of_cons; [|by apply Hrest]. split; [by left|done].
Qed.
End Polls.

(** ** Retries *)

Section Retries.
Context {W : Type} (ctx_err : W -> option string) (sleep : Z -> W -> W)
        (fn : W -> option string * W).

Lemma next_delay_max p d : next_delay p d <= rp_MaxDelay p.
Proof. unfold next_delay. destruct (Z.ltb_spec (rp_MaxDelay p) (f64_to_i64 (f64_mul (f64_of_Z d) (rp_Factor p)))); lia. Qed.

(** The first sleep is the given delay, the later ones are capped. *)
Definition backoff (p : RetryPolicy) (delay : Z) (sleeps : list Z) : Prop :=
  match sleeps with
  | [] => True
  | d :: rest => d = delay /\ Forall (fun d => d <= rp_MaxDelay p) rest
  end.

Lemma retry_loop_spec p n first delay err w :
  let '(r, sleeps, calls, w') := retry_loop ctx_err sleep fn p n first delay err w in
  (calls <= n)%nat /\
  length sleeps = (if first then calls - 1 else calls)%nat /\
  backoff p delay sleeps /\
  (r = None -> exists w0, (fn w0).1 = None) /\
  ((forall w, ctx_err w = None) -> (forall w, (fn w).1 <> None) ->
   calls = n /\ exists e, r = Some ("retry exhausted after " +:+ Itoa (rp_Max p) +:+ " attempts: " +:+ e)).
Proof.
  revert first delay err w. induction n as [|n IH]; intros first delay err w; cbn [retry_loop].
  - split_and!; [lia|by destruct first|done|done|]. intros _ _. eauto.
  - destruct (ctx_err w) as [e|] eqn:Ec.
    { split_and!; [lia|by destruct first|done|done|]. intros Hc. by rewrite Hc in Ec. }
    set (w1 := if first then w else sleep delay w). destruct (fn w1) as [[e|] w2] eqn:Ef.
    + specialize (IH false (if first then delay else next_delay p delay) e w2).
      destruct (retry_loop _ _ _ p n false _ e w2) as [[[r sleeps] calls] w3].
      destruct IH as (Hc & Hlen & Hsl & Hok & Hall). split_and!; [lia| | |done|].
      * rewrite length_app. destruct first; cbn [length]; lia.
      * destruct first; [exact Hsl|]. cbn. split; [done|].
        destruct sleeps as [|d rest]; [constructor|]. destruct Hsl as [-> Hrest].
        constructor; [apply next_delay_max|done].
      * intros H1 H2. destruct (Hall H1 H2) as [-> Hr]. done.
    + split_and!; [lia|by destruct first|by destruct first| |].
      * intros _. exists w1. by rewrite Ef.
      * intros _ Hf. specialize (Hf w1). by rewrite Ef in Hf.
Qed.

(** A retried call runs at most once more than the policy's maximum; it
    sleeps between the calls, first for the initial delay and never again for
    more than the maximal one; it succeeds only if a call did; and when all
    calls fail it gives up after that many calls, with an error that counts
    one call less. *)
Theorem RetryWithBackoff_spec p w :
  let '(r, sleeps, calls, w') := RetryWithBackoff ctx_err sleep fn p w in
  (calls <= Z.to_nat (rp_Max p + 1))%nat /\ length sleeps = (calls - 1)%nat /\
  backoff p (rp_Initial p) sleeps /\
  (r = None -> exists w0, (fn w0).1 = None) /\
  ((forall w, ctx_err w = None) -> (forall w, (fn w).1 <> None) ->
   calls = Z.to_nat (rp_Max p + 1) /\
   exists e, r = Some ("retry exhausted after " +:+ Itoa (rp_Max p) +:+ " attempts: " +:+ e)).
Proof. apply (retry_loop_spec p (Z.to_nat (rp_Max p + 1)) true). Qed.
End Retries.

(** ** Witnesses *)

Example claims_exclusive_witness :
  exists s : ClaimState (L := MemoryLock),
    reachable 0 s /\ in_force 0 s 1 {| c_run := "r"; c_lease := runLockTTL |} /\
    forall j d, in_force 0 s j d -> "r" = c_run d -> 1%nat = j.
Proof.
  pose (m := (mem_TryLock (runLockKey "r") runLockTTL 0 NewMemoryLock).2).
  exists {| cs_lock := m; cs_claims := <[1%nat := {| c_run := "r"; c_lease := 0 + runLockTTL |}]> ∅ |}.
  assert (reachable 0 {| cs_lock := m; cs_claims := <[1%nat := {| c_run := "r"; c_lease := 0 + runLockTTL |}]> ∅ |})
    as Hr.
  { apply (reach_claim 0 {| cs_lock := NewMemoryLock; cs_claims := ∅ |} 1 "r" m); [|reflexivity|reflexivity].
    apply reach_init. intros k. reflexivity. }
  split; [exact Hr|]. split; [split; reflexivity|]. intros j d Hd Hrun.
  apply (claims_exclusive 0 _ 1 j {| c_run := "r"; c_lease := runLockTTL |} d Hr);
    [split; reflexivity|exact Hd|exact Hrun].
Defined.

Example stale_release_frees_witness :
  let (a, m) := mem_TryLock "k" 10 0 NewMemoryLock in
  let (b, m) := mem_TryLock "k" 10 11 m in
  let (_, m) := mem_Release "k" m in
  let (c, m) := mem_TryLock "k" 10 12 m in
  a = Ok true /\ b = Ok true /\ c = Ok true.
Proof. apply (stale_release_frees "k" 10 0 11 12 NewMemoryLock); [reflexivity|lia|lia]. Defined.

Definition pending_run (id : string) : FlowRunInfo :=
  {| r_ID := id; r_Namespace := "ns"; r_AgentFlowID := "f"; r_Version := 1; r_Status := RunPending;
     r_Vars := []; r_Error := ""; r_Trigger := {| ti_Type := ""; ti_Source := ""; ti_Payload := [] |};
     r_StartedAt := None; r_FinishedAt := None; r_K8sNamespace := ""; r_Priority := "" |}.
Definition empty_flow : FlowInfo :=
  {| f_ID := "f"; f_Namespace := "ns"; f_Description := ""; f_Kind := ""; f_Vars := []; f_Nodes := [];
     f_Edges := []; f_Triggers := []; f_Priority := ""; f_K8sNamespace := "" |}.

Example poll_page_dispatch_witness :
  NoDup (map r_ID (dispatched [Dispatched (pending_run "run-0001") empty_flow; AlreadyClaimed])).
Proof.
  refine (proj1 (poll_page_dispatch (L := MemoryLock) (fun _ => Some empty_flow) (fun _ => None) "" 0
    [pending_run "run-0001"; pending_run "run-0001"] NewMemoryLock _ _ _ _));
    [intros k; reflexivity|vm_compute; reflexivity].
Defined.
