(* ===== verification/Cache.v ===== *)
(** * The in-memory cache

    [pkg/cache/pkg/memory.go]: a map of entries with an expiry time, bounded
    by a capacity, shared by goroutines under a lock.  Times are nanoseconds.
    [Get] takes the lock twice when it finds an expired entry, so its deletion
    is a step of its own ([CDrop]) that other operations may precede. *)

From S2P Require Export Prelude.

Local Open Scope string_scope.
Local Open Scope list_scope.
Local Open Scope Z_scope.

Section Cache.
(** [V] is the type of the cached bytes. *)
Context {V : Type}.

Record entry := { e_value : V; e_expires : Z }.

Record MemoryCache := { c_store : gmap string entry; c_capacity : Z; c_maxCap : Z }.

Record MemoryCacheConfig := { InitialCapacity : Z; MaxCapacity : Z }.

Definition NewMemoryCache (cfg : MemoryCacheConfig) : MemoryCache :=
  {| c_store := ∅;
     c_capacity := if InitialCapacity cfg <=? 0 then 32 else InitialCapacity cfg;
     c_maxCap := if MaxCapacity cfg <=? 0 then 65535 else MaxCapacity cfg |}.

Definition with_store (s : gmap string entry) (c : MemoryCache) : MemoryCache :=
  {| c_store := s; c_capacity := c_capacity c; c_maxCap := c_maxCap c |}.

(** [now.After(e.expires)] *)
Definition expired (now : Z) (e : entry) : bool := e_expires e <? now.

Definition cache_Get (now : Z) (key : string) (c : MemoryCache) : option V * MemoryCache :=
  match c_store c !! key with
  | None => (None, c)
  | Some e =>
      if expired now e then (None, with_store (delete key (c_store c)) c)
      else (Some (e_value e), c)
  end.

(** The start of [Set]: at the capacity, the first entry of the loop over the
    map goes. *)
Definition make_room `{RangeOrder} (c : MemoryCache) : gmap string entry :=
  if c_maxCap c <=? Z.of_nat (size (c_store c))
  then match range_of (c_store c) with
       | (k, _) :: _ => delete k (c_store c)
       | [] => c_store c
       end
  else c_store c.

Definition cache_Set `{RangeOrder} (now : Z) (key : string) (value : V) (ttl : Z)
    (c : MemoryCache) : MemoryCache :=
  with_store (<[key := {| e_value := value; e_expires := now + ttl |}]> (make_room c)) c.

Definition cache_Delete (key : string) (c : MemoryCache) : MemoryCache :=
  with_store (delete key (c_store c)) c.

(** [time.Now().Before(e.expires)] *)
Definition cache_Exists (now : Z) (key : string) (c : MemoryCache) : bool :=
  match c_store c !! key with
  | None => false
  | Some e => now <? e_expires e
  end.

Definition cache_Clear (c : MemoryCache) : MemoryCache := with_store ∅ c.

(** One tick of [evictLoop], every 30 s: the loop over the map deletes the
    entries that are over. *)
Definition evict_tick `{RangeOrder} (now : Z) (c : MemoryCache) : MemoryCache :=
  with_store (fold_left (fun s kv => if expired now kv.2 then delete kv.1 s else s)
                        (range_of (c_store c)) (c_store c)) c.

(** ** Sequences of operations *)

(** The critical sections of the cache.  [CDrop] is the second one of a [Get]
    that found its entry expired before other goroutines ran. *)
Inductive cache_op :=
| CGet (key : string)
| CDrop (key : string)
| CSet (key : string) (value : V) (ttl : Z)
| CDelete (key : string)
| CClear
| CTick.

Definition cache_step `{RangeOrder} (c : MemoryCache) (ev : Z * cache_op) : MemoryCache :=
  match ev.2 with
  | CGet k => (cache_Get ev.1 k c).2
  | CDrop k | CDelete k => cache_Delete k c
  | CSet k v ttl => cache_Set ev.1 k v ttl c
  | CClear => cache_Clear c
  | CTick => evict_tick ev.1 c
  end.

Definition cache_run `{RangeOrder} (evs : list (Z * cache_op)) (c : MemoryCache) : MemoryCache :=
  fold_left cache_step evs c.

(** ** The abstract cache

    What the last write of every key left, with its expiry: no capacity, no
    sweeps. *)
Definition spec_step (m : gmap string entry) (ev : Z * cache_op) : gmap string entry :=
  match ev.2 with
  | CSet k v ttl => <[k := {| e_value := v; e_expires := ev.1 + ttl |}]> m
  | CDelete k => delete k m
  | CClear => ∅
  | CGet _ | CDrop _ | CTick => m
  end.

Definition spec_run (evs : list (Z * cache_op)) : gmap string entry := fold_left spec_step evs ∅.

End Cache.
Arguments MemoryCache : clear implicits.
Arguments entry : clear implicits.
Arguments cache_op : clear implicits.

(** ** The store agrees with the abstract cache *)

Section CacheFacts.
Context {V : Type} `{RangeOrder}.
Implicit Types (c : MemoryCache V) (m : gmap string (entry V)).

(** A well-formed cache holds at most [maxCap] entries, and [maxCap] is
    positive. *)
Definition cache_wf c : Prop := 0 < c_maxCap c /\ Z.of_nat (size (c_store c)) <= c_maxCap c.

Lemma NewMemoryCache_wf cfg : cache_wf (NewMemoryCache (V := V) cfg).
Proof.
  unfold cache_wf, NewMemoryCache. cbn [c_store c_maxCap].
  rewrite map_size_empty. destruct (Z.leb_spec (MaxCapacity cfg) 0); lia.
Qed.

Lemma size_subseteq m m' : m ⊆ m' -> (size m <= size m')%nat.
Proof. intros Hs. rewrite <- !size_dom. by apply subseteq_size, subseteq_dom. Qed.

Lemma sweep_subseteq now l m :
  fold_left (fun s (kv : string * entry V) => if expired now kv.2 then delete kv.1 s else s) l m ⊆ m.
Proof.
  induction l as [|[k e] l IH] in m |- *; cbn; [done|].
  etrans; [apply IH|]. case_match; [apply delete_subseteq|done].
Qed.

Lemma sweep_lookup now l m k e :
  m !! k = Some e -> (forall e', (k, e') ∈ l -> e' = e) -> expired now e = false ->
  fold_left (fun s (kv : string * entry V) => if expired now kv.2 then delete kv.1 s else s) l m !! k = Some e.
Proof.
  induction l as [|[k0 e0] l IH] in m |- *; cbn [fold_left fst snd]; intros Hm Hl He; [done|].
  apply IH; [|intros e' Hin; apply Hl; by right|done].
  destruct (expired now e0) eqn:E0; [|done].
  destruct (decide (k0 = k)) as [->|Hne]; [|by rewrite lookup_delete_ne].
  rewrite (Hl e0) in E0 by left. congruence.
Qed.

(** What a [Set] starts from once it has made room. *)
Lemma make_room_spec c (wf : cache_wf c) :
  make_room c ⊆ c_store c /\ Z.of_nat (size (make_room c)) < c_maxCap c.
Proof.
  destruct wf as [Hpos Hsz]. unfold make_room.
  destruct (Z.leb_spec (c_maxCap c) (Z.of_nat (size (c_store c)))) as [Hle|Hlt]; [|done].
  destruct (range_of (c_store c)) as [|[k e] l] eqn:E.
  - pose proof (range_of_perm (c_store c)) as P. rewrite E in P.
    apply Permutation_nil_l in P. symmetry in P. apply map_to_list_empty_iff in P. rewrite P, map_size_empty in Hle. lia.
  - assert (c_store c !! k = Some e) as Hk by (apply range_of_elem; rewrite E; left).
    split; [apply delete_subseteq|].
    rewrite map_size_delete_Some by done. lia.
Qed.

Lemma cache_step_wf c ev : cache_wf c -> cache_wf (cache_step c ev).
Proof.
  intros wf. assert (forall s, s ⊆ c_store c -> cache_wf (with_store s c)) as Hsub.
  { intros s Hs. destruct wf. split; [done|]. cbn. apply size_subseteq in Hs. lia. }
  destruct ev as [now []]; cbn [cache_step snd fst].
  - unfold cache_Get. destruct (c_store c !! key) as [e|]; [|done].
    destruct (expired now e); [apply Hsub, delete_subseteq|done].
  - apply Hsub, delete_subseteq.
  - destruct (make_room_spec c wf) as [Hs Hsz]. destruct wf. split; [done|].
    unfold cache_Set, with_store. cbn [c_store c_maxCap].
    rewrite map_size_insert. destruct (make_room c !! key); unfold id; lia.
  - apply Hsub, delete_subseteq.
  - apply Hsub, map_empty_subseteq.
  - apply Hsub, sweep_subseteq.
Qed.

Lemma cache_run_wf evs c : cache_wf c -> cache_wf (cache_run evs c).
Proof. induction evs as [|ev evs IH] in c |- *; cbn; [done|]. intros. by apply IH, cache_step_wf. Qed.

Lemma cache_step_refines c m ev :
  cache_wf c -> c_store c ⊆ m -> c_store (cache_step c ev) ⊆ spec_step m ev.
Proof.
  intros wf Hs. destruct ev as [now []]; cbn [cache_step spec_step snd fst].
  - unfold cache_Get. destruct (c_store c !! key) as [e|]; [|done].
    destruct (expired now e); [|done]. etrans; [apply delete_subseteq|done].
  - etrans; [apply delete_subseteq|done].
  - destruct (make_room_spec c wf) as [Hr _]. apply insert_mono. by etrans.
  - by apply delete_mono.
  - done.
  - etrans; [apply sweep_subseteq|done].
Qed.

Lemma cache_run_refines evs c m :
  cache_wf c -> c_store c ⊆ m -> c_store (cache_run evs c) ⊆ fold_left spec_step evs m.
Proof.
  induction evs as [|ev evs IH] in c, m |- *; cbn; [done|]. intros wf Hs.
  apply IH; [by apply cache_step_wf|by apply cache_step_refines].
Qed.

(** Whatever operations ran, in whatever interleaving (the late deletion of
    a [Get] included), a hit returns the value of the last [Set] of that key
    that no [Delete] or [Clear] followed, not after its expiry; an entry said
    to exist is a hit; and the cache holds at most [maxCap] entries. *)
Theorem cache_refines_map (cfg : MemoryCacheConfig) (evs : list (Z * cache_op V)) now key :
  let c := cache_run evs (NewMemoryCache cfg) in
  (forall v, (cache_Get now key c).1 = Some v ->
     exists e, spec_run evs !! key = Some e /\ e_value e = v /\ now <= e_expires e) /\
  (cache_Exists now key c = true -> is_Some (cache_Get now key c).1) /\
  Z.of_nat (size (c_store c)) <= c_maxCap c.
Proof.
  intros c. pose proof (NewMemoryCache_wf cfg) as wf0. split_and!.
  - intros v Hg. unfold cache_Get in Hg.
    destruct (c_store c !! key) as [e|] eqn:E; [|done].
    destruct (expired now e) eqn:X; [done|]. exists e. split_and!; [|by inversion Hg|].
    + eapply lookup_weaken; [exact E|]. apply cache_run_refines; [done|]. apply map_empty_subseteq.
    + unfold expired in X. by apply Z.ltb_ge in X.
  - unfold cache_Exists, cache_Get. destruct (c_store c !! key) as [e|]; [|done].
    intros X%Z.ltb_lt. unfold expired. destruct (Z.ltb_spec (e_expires e) now); [lia|]. by eexists.
  - by apply cache_run_wf.
Qed.

(** ** No loss below the capacity *)

(** The keys written by a sequence. *)
Definition set_keys (evs : list (Z * cache_op V)) : gset string :=
  list_to_set (omap (fun ev => match ev.2 with CSet k _ _ => Some k | _ => None end) evs).

Definition is_drop (ev : Z * cache_op V) : bool :=
  match ev.2 with CDrop _ => true | _ => false end.

(** The entries of the abstract cache that are not over at a time are in the
    store. *)
Definition live_in (m : gmap string (entry V)) (now : Z) c : Prop :=
  forall k e, m !! k = Some e -> now <= e_expires e -> c_store c !! k = Some e.

Lemma cache_step_live c m t ev :
  live_in m t c -> t <= ev.1 -> is_drop ev = false ->
  (forall k v ttl, ev.2 = CSet k v ttl -> Z.of_nat (size (c_store c)) < c_maxCap c) ->
  live_in (spec_step m ev) ev.1 (cache_step c ev).
Proof.
  destruct ev as [now op]. cbn [fst snd]. intros Hl Ht Hd Hroom k e.
  assert (forall k e, m !! k = Some e -> now <= e_expires e -> c_store c !! k = Some e) as Hl'
    by (intros; apply Hl; [done|lia]).
  destruct op as [k0|k0|k0 v ttl|k0| |]; cbn [spec_step cache_step snd fst]; try done.
  - intros Hm He. unfold cache_Get.
    destruct (c_store c !! k0) as [e0|] eqn:E0; [|by apply Hl'].
    unfold expired. destruct (Z.ltb_spec (e_expires e0) now); [|by apply Hl'].
    cbn. rewrite lookup_delete_ne; [by apply Hl'|]. intros ->.
    rewrite (Hl' k e) in E0 by done. simplify_eq. lia.
  - specialize (Hroom _ _ _ eq_refl). unfold cache_Set, make_room.
    destruct (Z.leb_spec (c_maxCap c) (Z.of_nat (size (c_store c)))); [lia|]. cbn.
    destruct (decide (k0 = k)) as [->|Hne]; [by rewrite !lookup_insert_eq|].
    rewrite !lookup_insert_ne by done. apply Hl'.
  - destruct (decide (k0 = k)) as [->|Hne]; [by rewrite lookup_delete_eq|]. cbn.
    rewrite !lookup_delete_ne by done. apply Hl'.
  - intros Hm He. cbn. apply sweep_lookup; [by apply Hl'| |].
    + intros e' Hin%range_of_elem. rewrite (Hl' k e) in Hin by done. by simplify_eq.
    + unfold expired. by apply Z.ltb_ge.
Qed.

Lemma spec_dom evs m : dom (fold_left spec_step evs m) ⊆ dom m ∪ set_keys evs.
Proof.
  unfold set_keys. induction evs as [|[now op] evs IH] in m |- *; cbn [fold_left omap list_omap]; [set_solver|].
  etrans; [apply IH|].
  destruct op; cbn [spec_step snd fst list_to_set]; set_solver.
Qed.

Lemma cache_run_maxCap evs c : c_maxCap (cache_run evs c) = c_maxCap c.
Proof.
  induction evs as [|[now op] evs IH] in c |- *; cbn; [done|]. unfold cache_run in IH. rewrite IH.
  destruct op; cbn; try done. unfold cache_Get.
  destruct (c_store c !! key); [|done]. by destruct (expired _ _).
Qed.

Lemma live_weaken m t t' c : live_in m t c -> t <= t' -> live_in m t' c.
Proof. intros Hl Ht k e Hk He. apply Hl; [done|lia]. Qed.

Lemma cache_run_live evs c m t now :
  cache_wf c -> c_store c ⊆ m -> live_in m t c ->
  StronglySorted Z.le (t :: evs.*1) -> Forall (fun ev => ev.1 <= now) evs -> t <= now ->
  forallb (fun ev => negb (is_drop ev)) evs = true ->
  Z.of_nat (size (dom m ∪ set_keys evs)) < c_maxCap c ->
  live_in (fold_left spec_step evs m) now (cache_run evs c).
Proof.
  induction evs as [|ev evs IH] in c, m, t |- *; intros wf Hs Hl Hsort Hnow Ht Hnd Hcap.
  { by eapply live_weaken. }
  cbn [fold_left cache_run]. cbn in Hsort, Hnd. apply andb_prop in Hnd as [Hd Hnd].
  apply negb_true_iff in Hd. inversion Hsort as [|? ? Hsort' Hall]; subst.
  inversion Hall; subst. inversion Hnow; subst.
  assert (dom (spec_step m ev) ∪ set_keys evs ⊆ dom m ∪ set_keys (ev :: evs)) as Hdom.
  { unfold set_keys. destruct ev as [? []]; cbn [spec_step omap list_omap snd fst list_to_set]; set_solver. }
  apply (IH _ _ ev.1); try done.
  - by apply cache_step_wf.
  - by apply cache_step_refines.
  - eapply cache_step_live; [done..|]. intros k v ttl _.
    assert (size (c_store c) <= size (dom m ∪ set_keys (ev :: evs)))%nat; [|lia].
    rewrite <- size_dom. apply subseteq_size. apply subseteq_dom in Hs. set_solver.
  - replace (c_maxCap (cache_step c ev)) with (c_maxCap c) by (symmetry; apply (cache_run_maxCap [ev])).
    apply subseteq_size in Hdom. lia.
Qed.

(** As long as fewer keys than the capacity are ever written and every
    [Get] deletes what it finds expired at once, the cache loses nothing: at
    any later time it answers exactly as the abstract cache, from which the
    entries that are over are gone. *)
Theorem cache_keeps_live (cfg : MemoryCacheConfig) (evs : list (Z * cache_op V)) now key :
  StronglySorted Z.le evs.*1 -> Forall (fun ev => ev.1 <= now) evs ->
  forallb (fun ev => negb (is_drop ev)) evs = true ->
  Z.of_nat (size (set_keys evs)) < c_maxCap (NewMemoryCache (V := V) cfg) ->
  (cache_Get now key (cache_run evs (NewMemoryCache cfg))).1 =
  match spec_run evs !! key with
  | Some e => if e_expires e <? now then None else Some (e_value e)
  | None => None
  end.
Proof.
  intros Hsort Hnow Hnd Hcap. set (c0 := NewMemoryCache cfg) in *.
  set (c := cache_run evs c0).
  assert (c_store c ⊆ spec_run evs) as Hsub
    by (apply cache_run_refines; [apply NewMemoryCache_wf|apply map_empty_subseteq]).
  set (t := match evs with [] => now | ev :: _ => ev.1 end).
  assert (live_in (spec_run evs) now c) as Hlive.
  { apply (cache_run_live evs c0 ∅ t now); try done.
    - apply NewMemoryCache_wf.
    - constructor; [done|]. subst t. destruct evs as [|ev evs]; [constructor|].
      inversion Hsort; subst. by constructor.
    - subst t. destruct evs; [done|]. by inversion Hnow.
    - rewrite dom_empty_L. by rewrite (left_id_L ∅ _). }
  unfold cache_Get, expired. destruct (c_store c !! key) as [e|] eqn:E.
  - rewrite (lookup_weaken _ _ _ _ E Hsub). by destruct (e_expires e <? now).
  - destruct (spec_run evs !! key) as [e|] eqn:E'; [|done].
    destruct (Z.ltb_spec (e_expires e) now); [done|].
    by rewrite (Hlive key e E') in E.
Qed.

End CacheFacts.

(** ** Runs on concrete sequences *)

#[local] Existing Instance canonical_order.

Definition demo_cache_cfg : MemoryCacheConfig := {| InitialCapacity := 0; MaxCapacity := 2 |}.

Lemma cache_keeps_live_witness :
  (cache_Get 7 "a" (cache_run [(0, CSet "a" "v1" 5); (3, CSet "a" "v2" 5); (6, CGet "a")]
     (NewMemoryCache demo_cache_cfg))).1 = Some "v2".
Proof.
  rewrite (cache_keeps_live demo_cache_cfg).
  - reflexivity.
  - cbn. repeat (apply SSorted_cons || apply SSorted_nil || constructor); lia.
  - repeat constructor; cbn; lia.
  - reflexivity.
  - reflexivity.
Defined.

(** At the capacity, overwriting a key evicts some entry although no room is
    needed: the other key is lost. *)
Lemma overwrite_evicts :
  exists k k' : string, k <> k' /\
    let evs := [(0, CSet k "v" 100); (0, CSet k' "w" 100)] in
    (cache_Get 1 k' (cache_run evs (NewMemoryCache demo_cache_cfg))).1 = Some "w" /\
    (cache_Get 1 k' (cache_run (evs ++ [(0, CSet k "v2" 100)]) (NewMemoryCache demo_cache_cfg))).1 = None.
Proof. first [exists "a", "b"; vm_compute; split; [discriminate|by split]
             |exists "b", "a"; vm_compute; split; [discriminate|by split]]. Qed.

(** The deletion of a [Get] that saw an expired entry, when it runs after a
    concurrent [Set], removes the fresh value. *)
Lemma late_drop_loses_fresh :
  (cache_Get 8 "a" (cache_run [(0, CSet "a" "old" 5); (6, CSet "a" "fresh" 60); (7, CDrop "a")]
     (NewMemoryCache demo_cache_cfg))).1 = None.
Proof. vm_compute. reflexivity. Qed.
