(* ===== verification/Policy.v ===== *)
(** * Spending policies

    [pkg/core/pkg/client/policy/policy.go]: the engine that decides whether a
    payment intent may be paid, whether a human must approve it, and the ledger
    of what was spent per wallet and day.  Amounts are decimals of a library
    ([Decimal]); the ledger is an interface ([SpendingStore]) with an in-memory
    implementation. *)

From S2P Require Export GoStr GoFloat.
From Stdlib Require Export QArith.
From Stdlib Require Import Lqa Ascii.

Close Scope Q_scope.
Local Open Scope string_scope.
Local Open Scope list_scope.

(** ** Decimals *)

(** The operations of the decimal library the engine calls. *)
Class Decimal (D : Type) := {
  dec_zero : D;
  dec_add : D -> D -> D;
  dec_gtb : D -> D -> bool;
  dec_geb : D -> D -> bool;
  dec_of_float : f64 -> D;
  dec_of_string : string -> option D;
  dec_string : D -> string;
}.

(** Decimals are exact: addition and comparison are those of their values. *)
Class DecimalLaws (D : Type) `{Decimal D} := {
  dval : D -> Q;
  dval_zero : (dval dec_zero == 0)%Q;
  dval_add : forall a b, (dval (dec_add a b) == dval a + dval b)%Q;
  dec_gtb_spec : forall a b, dec_gtb a b = true <-> (dval b < dval a)%Q;
  dec_geb_spec : forall a b, dec_geb a b = true <-> (dval b <= dval a)%Q;
}.

(** ** Intents and configuration *)

Inductive IntentStatus :=
| IntentPending | IntentApproved | IntentDenied | IntentPaid | IntentFailed | IntentExpired.

Record PaymentIntent (D : Type) := {
  pi_ID : string;
  pi_URL : string;
  pi_Asset : string;
  pi_Amount : D;
  pi_Chain : string;
  pi_Recipient : string;
  pi_Facilitator : string;
  pi_Status : IntentStatus;
  pi_CreatedAt : Z;
}.
Arguments pi_ID {D}. Arguments pi_URL {D}. Arguments pi_Asset {D}. Arguments pi_Amount {D}.
Arguments pi_Chain {D}. Arguments pi_Recipient {D}. Arguments pi_Facilitator {D}.
Arguments pi_Status {D}. Arguments pi_CreatedAt {D}.

Record PoliciesConfig := {
  MaxSinglePaymentUSD : f64;
  MaxDailyBudgetUSD : f64;
  AllowedDomains : list string;
  BlockedDomains : list string;
  RequireHumanApprovalAboveUSD : f64;
  AllowedAssets : list string;
  AllowedChains : list string;
}.

(** [PaymentError.Error]: the code and the message. *)
Definition payment_error (code msg : string) : string := code +:+ ": " +:+ msg.
Definition ErrPaymentDenied : string := payment_error "PAYMENT_DENIED" "payment denied by policy".
Definition ErrPaymentRequiresApproval : string :=
  payment_error "PAYMENT_REQUIRES_APPROVAL" "payment requires human approval".

(** ** Domains *)

Definition cut_at (s sep : string) : string :=
  match Index s sep with Some idx => stake idx s | None => s end.

Definition extractDomain (rawURL : string) : string :=
  let s := match CutPrefix rawURL "https://" with
           | Some after => after
           | None => match CutPrefix rawURL "http://" with Some after => after | None => rawURL end
           end in
  cut_at (cut_at s "/") ":".

Definition matchDomain (pattern domain : string) : bool :=
  if String.eqb pattern domain then true
  else if HasPrefix pattern "*."
  then HasSuffix domain (sdrop 1 pattern) || String.eqb domain (sdrop 2 pattern)
  else false.

Definition containsFold (items : list string) (target : string) : bool :=
  existsb (fun item => EqualFold item target) items.

Definition checkDomain (cfg : PoliciesConfig) (domain : string) : res unit :=
  match find (fun pattern => matchDomain pattern domain) (BlockedDomains cfg) with
  | Some pattern =>
      Err (ErrPaymentDenied +:+ ": domain " +:+ domain +:+ " is blocked (matches " +:+ pattern +:+ ")")
  | None =>
      match AllowedDomains cfg with
      | [] => Ok tt
      | _ :: _ =>
          if existsb (fun pattern => matchDomain pattern domain) (AllowedDomains cfg) then Ok tt
          else Err (ErrPaymentDenied +:+ ": domain " +:+ domain +:+ " not in allowed list")
      end
  end.

(** ** The ledger *)

Class SpendingStore (D S : Type) := {
  GetDailySpent : string -> string -> S -> res D;
  RecordDailySpend : string -> string -> D -> S -> res S;
}.

(** What the engine relies on: a recorded amount adds to the total of its
    wallet and day, and to no other. *)
Class SpendingLaws (D S : Type) `{DecimalLaws D} `{!SpendingStore D S} := {
  spent_ok : forall w d s, exists v, GetDailySpent w d s = Ok v;
  record_spec : forall w d a s, exists s', RecordDailySpend w d a s = Ok s' /\
    (forall v v', GetDailySpent w d s = Ok v -> GetDailySpent w d s' = Ok v' ->
       (dval v' == dval v + dval a)%Q) /\
    (forall w' d', String.length d' = String.length d -> (w', d') <> (w, d) ->
       GetDailySpent w' d' s' = GetDailySpent w' d' s);
}.

Section Memory.
Context {D : Type} `{Decimal D}.

(** [memorySpendingStore]: the totals, by ["wallet:date"]. *)
Record memorySpendingStore := { ms_ledger : gmap string D }.

Definition ledger_key (wallet date : string) : string := wallet +:+ ":" +:+ date.

Definition mem_GetDailySpent (wallet date : string) (s : memorySpendingStore) : res D :=
  match ms_ledger s !! ledger_key wallet date with
  | Some v => Ok v
  | None => Ok dec_zero
  end.

Definition mem_RecordSpend (wallet date : string) (amount : D) (s : memorySpendingStore)
    : res memorySpendingStore :=
  let key := ledger_key wallet date in
  let current := match ms_ledger s !! key with Some v => v | None => dec_zero end in
  Ok {| ms_ledger := <[key := dec_add current amount]> (ms_ledger s) |}.

#[export] Instance memory_spending : SpendingStore D memorySpendingStore :=
  {| GetDailySpent := mem_GetDailySpent; RecordDailySpend := mem_RecordSpend |}.
End Memory.
Arguments memorySpendingStore : clear implicits.

(** ** The engine *)

Section Engine.
Context {D S : Type} `{Decimal D} `{!SpendingStore D S}.

Record Engine := { en_cfg : PoliciesConfig; en_store : S }.

(** [limit > 0] for a configured float. *)
Definition f64_positive (f : f64) : bool := f64_ltb (f64_of_Z 0) f.

Definition in_allow_list (l : list string) (x : string) : bool :=
  match l with [] => true | _ :: _ => containsFold l x end.

Definition Allow (e : Engine) (today : string) (intent : option (PaymentIntent D)) : res unit :=
  match intent with
  | None => Err "nil payment intent"
  | Some i =>
      let cfg := en_cfg e in
      if negb (in_allow_list (AllowedAssets cfg) (pi_Asset i))
      then Err (ErrPaymentDenied +:+ ": asset " +:+ pi_Asset i +:+ " not in allowed list")
      else if negb (in_allow_list (AllowedChains cfg) (pi_Chain i))
      then Err (ErrPaymentDenied +:+ ": chain " +:+ pi_Chain i +:+ " not in allowed list")
      else if f64_positive (MaxSinglePaymentUSD cfg)
              && dec_gtb (pi_Amount i) (dec_of_float (MaxSinglePaymentUSD cfg))
      then Err (ErrPaymentDenied +:+ ": amount " +:+ dec_string (pi_Amount i) +:+
                " exceeds max single payment " +:+ dec_string (dec_of_float (MaxSinglePaymentUSD cfg)))
      else
        let? _ := (if String.eqb (pi_URL i) "" then Ok tt
                   else checkDomain cfg (extractDomain (pi_URL i))) in
        if f64_positive (MaxDailyBudgetUSD cfg)
        then match GetDailySpent (pi_Recipient i) today (en_store e) with
             | Err err => Err ("check daily budget: " +:+ err)
             | Ok spent =>
                 let budget := dec_of_float (MaxDailyBudgetUSD cfg) in
                 if dec_gtb (dec_add spent (pi_Amount i)) budget
                 then Err (ErrPaymentDenied +:+ ": daily budget " +:+ dec_string budget +:+
                           " would be exceeded (spent: " +:+ dec_string spent +:+ ", pending: " +:+
                           dec_string (pi_Amount i) +:+ ")")
                 else Ok tt
             end
        else Ok tt
  end.

Definition RequiresHumanApproval (e : Engine) (i : PaymentIntent D) : bool :=
  if f64_leb (RequireHumanApprovalAboveUSD (en_cfg e)) (f64_of_Z 0) then false
  else dec_geb (pi_Amount i) (dec_of_float (RequireHumanApprovalAboveUSD (en_cfg e))).

Definition RecordSpend (e : Engine) (today wallet : string) (amount : D) : res Engine :=
  let? s := RecordDailySpend wallet today amount (en_store e) in
  Ok {| en_cfg := en_cfg e; en_store := s |}.

End Engine.
Arguments Engine : clear implicits.

Definition NewEngine {D S} (cfg : PoliciesConfig) (store : S + unit)
    : Engine S + Engine (memorySpendingStore D) :=
  match store with
  | inl s => inl {| en_cfg := cfg; en_store := s |}
  | inr _ => inr {| en_cfg := cfg; en_store := {| ms_ledger := ∅ |} |}
  end.

(** * Properties of the spending policies

    Which hosts and domains a policy covers, exactly which intents are allowed,
    and that payments checked and recorded under one name stay within the
    daily budget. *)

(** ** Domains *)

(** A pattern is a domain, or ["*."] and a domain that stands for itself and
    its subdomains. *)
Definition covers (pattern domain : string) : Prop :=
  pattern = domain \/
  exists r, pattern = "*." +:+ r /\ (domain = r \/ exists u, domain = u +:+ "." +:+ r).

Lemma matchDomain_covers p d : matchDomain p d = true <-> covers p d.
Proof.
  unfold matchDomain, covers. destruct (String.eqb_spec p d) as [->|Hne]; [by split; [left|]|].
  destruct (HasPrefix p "*.") eqn:HP.
  - apply HasPrefix_inv in HP as [r ->].
    change (sdrop 1 ("*." +:+ r)) with ("." +:+ r). change (sdrop 2 ("*." +:+ r)) with (sdrop 0 r).
    replace (sdrop 0 r) with r by (by destruct r). rewrite orb_true_iff, String.eqb_eq. split.
    + intros [[u ->]%HasSuffix_inv| ->]; right; exists r; split; [done|right; by exists u|done|by left].
    + intros [?|(r' & E & Hd)]; [done|]. apply append_inj_l in E as <-.
      destruct Hd as [->|[u ->]]; [by right|]. left. apply HasSuffix_append.
  - split; [done|]. intros [?|(r & -> & _)]; [done|]. by rewrite HasPrefix_append in HP.
Qed.

(** The domains a configuration admits. *)
Definition domain_ok (cfg : PoliciesConfig) (d : string) : Prop :=
  Forall (fun p => ~ covers p d) (BlockedDomains cfg) /\
  (AllowedDomains cfg = [] \/ Exists (fun p => covers p d) (AllowedDomains cfg)).

Lemma find_none_Forall {A} (f : A -> bool) l :
  find f l = None <-> Forall (fun x => f x = false) l.
Proof.
  split.
  - intros Hf. apply Forall_forall. intros x Hx. eapply find_none; [done|]. by apply list_elem_of_In.
  - induction 1 as [|x l Hx _ IH]; cbn; [done|]. by rewrite Hx.
Qed.

Lemma existsb_Exists {A} (f : A -> bool) l : existsb f l = true <-> Exists (fun x => f x = true) l.
Proof.
  rewrite existsb_exists, Exists_exists. setoid_rewrite list_elem_of_In. naive_solver.
Qed.

Lemma checkDomain_ok cfg d : checkDomain cfg d = Ok tt <-> domain_ok cfg d.
Proof.
  unfold checkDomain, domain_ok.
  assert (Forall (fun p => ~ covers p d) (BlockedDomains cfg) <->
          find (fun p => matchDomain p d) (BlockedDomains cfg) = None) as ->.
  { rewrite find_none_Forall. apply Forall_proper; [|done]. intros p.
    rewrite <- matchDomain_covers. by destruct (matchDomain p d). }
  destruct (find _ (BlockedDomains cfg)); [naive_solver|].
  destruct (AllowedDomains cfg) as [|p0 l] eqn:E; [naive_solver|].
  assert (Exists (fun p => covers p d) (p0 :: l) <->
          existsb (fun p => matchDomain p d) (p0 :: l) = true) as ->.
  { rewrite existsb_Exists, !Exists_exists. by setoid_rewrite matchDomain_covers. }
  destruct (existsb _ _); naive_solver.
Qed.

(** ** Hosts *)

Lemma CutPrefix_append p s : CutPrefix (p +:+ s) p = Some s.
Proof. unfold CutPrefix. by rewrite HasPrefix_append, sdrop_append. Qed.

Lemma Index_shift c p t :
  no_char c p = true ->
  Index (p +:+ t) (String c "") = (fun n => String.length p + n) <$> Index t (String c "").
Proof.
  induction p as [|c' p IH]; intros H.
  - cbn. by destruct (Index t _).
  - simpl in H. apply andb_true_iff in H as [Hc H]. apply negb_true_iff in Hc.
    change (String c' p +:+ t) with (String c' (p +:+ t)).
    cbn [Index HasPrefix]. rewrite Ascii.eqb_sym, Hc. cbn [andb]. rewrite IH by done.
    by destruct (Index t _).
Qed.

Lemma stake_plus p t n : stake (String.length p + n) (p +:+ t) = p +:+ stake n t.
Proof. induction p as [|c p IH]; [done|]. cbn. by rewrite IH. Qed.

Lemma cut_at_append c p t :
  no_char c p = true -> cut_at (p +:+ t) (String c "") = p +:+ cut_at t (String c "").
Proof.
  intros H. unfold cut_at. rewrite Index_shift by done.
  destruct (Index t _) as [n|]; cbn [fmap option_fmap option_map]; [apply stake_plus|done].
Qed.

Lemma cut_at_here c t : cut_at (String c t) (String c "") = "".
Proof. unfold cut_at. cbn [Index HasPrefix]. by rewrite Ascii.eqb_refl. Qed.

(** What may follow the host of a URL without user information: nothing, a
    port, or a path. *)
Inductive after_host : string -> Prop :=
| ah_nil : after_host ""
| ah_path t : after_host (String "/" t)
| ah_port t : after_host (String ":" t).

Lemma cut_rest host rest :
  no_char "/" host = true -> no_char ":" host = true -> after_host rest ->
  cut_at (cut_at (host +:+ rest) "/") ":" = host.
Proof.
  intros Hs Hc Hr. rewrite cut_at_append by done. destruct Hr as [|t|t].
  - change (cut_at "" "/") with "". rewrite cut_at_append by done. apply append_nil_r.
  - rewrite cut_at_here, cut_at_append by done. apply append_nil_r.
  - change (String ":" t) with (":" +:+ t). rewrite (cut_at_append "/" ":") by done.
    rewrite cut_at_append by done. change (":" +:+ cut_at t "/") with (String ":" (cut_at t "/")).
    rewrite cut_at_here. apply append_nil_r.
Qed.

Lemma extractDomain_host scheme host rest :
  scheme ∈ ["https://"; "http://"] ->
  no_char "/" host = true -> no_char ":" host = true -> after_host rest ->
  extractDomain (scheme +:+ host +:+ rest) = host.
Proof.
  intros Hsch Hs Hc Hr. unfold extractDomain.
  rewrite !elem_of_cons in Hsch. destruct Hsch as [->|[->|Hn]]; [| |by inversion Hn].
  - rewrite CutPrefix_append. by apply cut_rest.
  - assert (CutPrefix ("http://" +:+ host +:+ rest) "https://" = None) as -> by reflexivity.
    rewrite CutPrefix_append. by apply cut_rest.
Qed.

(** ** Which intents are allowed *)

Section Facts.
Context {D S : Type} `{DecimalLaws D} `{!SpendingStore D S}.
Implicit Types (e : Engine S) (i : PaymentIntent D).

Definition listed (l : list string) (x : string) : Prop :=
  l = [] \/ Exists (fun y => EqualFold y x = true) l.

Lemma in_allow_list_spec l x : in_allow_list l x = true <-> listed l x.
Proof.
  unfold in_allow_list, listed, containsFold. destruct l; [naive_solver|].
  rewrite existsb_Exists. naive_solver.
Qed.

(** What a policy demands of an intent on a day. *)
Record policy_ok e (today : string) i : Prop := {
  ok_asset : listed (AllowedAssets (en_cfg e)) (pi_Asset i);
  ok_chain : listed (AllowedChains (en_cfg e)) (pi_Chain i);
  ok_single : f64_positive (MaxSinglePaymentUSD (en_cfg e)) = true ->
    (dval (pi_Amount i) <= dval (dec_of_float (MaxSinglePaymentUSD (en_cfg e))))%Q;
  ok_domain : pi_URL i <> "" -> domain_ok (en_cfg e) (extractDomain (pi_URL i));
  ok_budget : f64_positive (MaxDailyBudgetUSD (en_cfg e)) = true ->
    exists spent, GetDailySpent (pi_Recipient i) today (en_store e) = Ok spent /\
      (dval spent + dval (pi_Amount i) <= dval (dec_of_float (MaxDailyBudgetUSD (en_cfg e))))%Q;
}.

Lemma dec_gtb_false a b : dec_gtb a b = false <-> (dval a <= dval b)%Q.
Proof.
  rewrite <- not_true_iff_false, dec_gtb_spec. split; [apply Qnot_lt_le|apply Qle_not_lt].
Qed.

Lemma Allow_ok e today i :
  Allow e today (Some i) = Ok tt <-> policy_ok e today i.
Proof.
  unfold Allow.
  destruct (in_allow_list (AllowedAssets _) _) eqn:EA; cbn [negb];
    [|split; [done|intros [Ha _ _ _ _]; apply in_allow_list_spec in Ha; congruence]].
  destruct (in_allow_list (AllowedChains _) _) eqn:EC; cbn [negb];
    [|split; [done|intros [_ Hc _ _ _]; apply in_allow_list_spec in Hc; congruence]].
  apply in_allow_list_spec in EA, EC.
  destruct (f64_positive (MaxSinglePaymentUSD _) && _) eqn:EM.
  { apply andb_true_iff in EM as [Hp Hg%dec_gtb_spec]. split; [done|].
    intros [_ _ Hs _ _]. specialize (Hs Hp). lra. }
  assert (f64_positive (MaxSinglePaymentUSD (en_cfg e)) = true ->
    (dval (pi_Amount i) <= dval (dec_of_float (MaxSinglePaymentUSD (en_cfg e))))%Q) as HS.
  { intros Hp. rewrite Hp in EM. cbn in EM. by apply dec_gtb_false. }
  assert ((if String.eqb (pi_URL i) "" then Ok tt else checkDomain (en_cfg e) (extractDomain (pi_URL i)))
            = Ok tt <-> (pi_URL i <> "" -> domain_ok (en_cfg e) (extractDomain (pi_URL i)))) as HD.
  { destruct (String.eqb_spec (pi_URL i) ""); [naive_solver|]. rewrite checkDomain_ok. naive_solver. }
  destruct (if String.eqb _ _ then _ else _) as [[]|err]; cbn [res_bind];
    [|split; [done|intros [_ _ _ Hd _]; apply HD in Hd; done]].
  destruct HD as [HD _]. specialize (HD eq_refl).
  destruct (f64_positive (MaxDailyBudgetUSD _)) eqn:EB; [|split; [intros _; constructor; try done; congruence|done]].
  destruct (GetDailySpent _ _ _) as [spent|err] eqn:EG;
    [|split; [done|intros [_ _ _ _ Hb]; destruct (Hb EB) as (? & ? & _); congruence]].
  destruct (dec_gtb (dec_add spent _) _) eqn:EL.
  - apply dec_gtb_spec in EL. rewrite dval_add in EL. split; [done|].
    intros [_ _ _ _ Hb]. destruct (Hb EB) as (v & E & Hle). rewrite EG in E. injection E as <-. lra.
  - apply dec_gtb_false in EL. rewrite dval_add in EL. split; [intros _|done].
    constructor; try done. intros _. by exists spent.
Qed.

Lemma Err_inj {A} (a b : string) : @Err A a = Err b -> b = a.
Proof. congruence. Qed.

Lemma checkDomain_denies cfg d msg :
  checkDomain cfg d = Err msg -> HasPrefix msg ErrPaymentDenied = true.
Proof.
  unfold checkDomain. destruct (find _ _); [|destruct (AllowedDomains cfg); [done|]; destruct (existsb _ _); [done|]];
    intros ->%Err_inj; apply HasPrefix_append.
Qed.


(** A payment to [http(s)://host], with or without a port and a path, is
    allowed only when the host itself is covered by no blocked pattern and, if
    some are given, by an allowed one. *)
Theorem Allow_checks_host e today i scheme host rest :
  scheme ∈ ["https://"; "http://"] ->
  no_char "/" host = true -> no_char ":" host = true -> after_host rest ->
  pi_URL i = scheme +:+ host +:+ rest ->
  Allow e today (Some i) = Ok tt -> domain_ok (en_cfg e) host.
Proof.
  intros Hsch Hs Hc Hr Hu Ha%Allow_ok. destruct Ha as [_ _ _ Hd _].
  rewrite Hu, (extractDomain_host scheme host rest) in Hd by done. apply Hd.
  rewrite !elem_of_cons in Hsch. destruct Hsch as [->|[->|Hn]]; [done|done|by inversion Hn].
Qed.

(** ** Daily budgets *)

Context `{!SpendingLaws D S}.

(** An intent that is checked and, when allowed, recorded for [wallet]. *)
Definition check_and_record (today wallet : string) e i : Engine S :=
  match Allow e today (Some i) with
  | Ok _ => match RecordSpend e today wallet (pi_Amount i) with Ok e' => e' | Err _ => e end
  | Err _ => e
  end.

Definition spend_all (today : string) (wallet : PaymentIntent D -> string) e (l : list (PaymentIntent D)) :=
  fold_left (fun e i => check_and_record today (wallet i) e i) l e.

Lemma check_and_record_cfg today w e i : en_cfg (check_and_record today w e i) = en_cfg e.
Proof.
  unfold check_and_record. destruct (Allow e today (Some i)); [|done].
  unfold RecordSpend. by destruct (RecordDailySpend _ _ _ _).
Qed.

(** The total of a wallet on a day. *)
Definition within e (today w : string) : Prop :=
  forall v, GetDailySpent w today (en_store e) = Ok v ->
    (dval v <= dval (dec_of_float (MaxDailyBudgetUSD (en_cfg e))))%Q.

(** When the engine records what it allows under the recipient it checks,
    the day's total of every recipient stays within the daily budget, whatever
    intents come in whatever order. *)
Theorem recipient_budget today e l w :
  f64_positive (MaxDailyBudgetUSD (en_cfg e)) = true ->
  within e today w ->
  within (spend_all today pi_Recipient e l) today w.
Proof.
  intros Hpos. unfold spend_all. revert Hpos.
  induction l as [|i l IH] in e |- *; intros Hpos Hw; [done|]. cbn [fold_left].
  apply IH; [by rewrite check_and_record_cfg|].
  unfold within. rewrite check_and_record_cfg. intros v. unfold check_and_record.
  destruct (Allow e today (Some i)) as [[]|err] eqn:EA; [|apply Hw].
  destruct (record_spec (pi_Recipient i) today (pi_Amount i) (en_store e)) as (s' & Es & Hsame & Hother).
  unfold RecordSpend. rewrite Es. cbn [res_bind en_store].
  destruct (decide (w = pi_Recipient i)) as [->|Hne].
  - intros Hv. apply Allow_ok in EA. destruct (ok_budget _ _ _ EA Hpos) as (spent & Hsp & Hle).
    rewrite (Hsame spent v) by done. lra.
  - intros Hv. apply Hw. rewrite <- Hv. symmetry. apply Hother; [done|]. congruence.
Qed.

End Facts.

(** ** The in-memory ledger meets its contract *)

Lemma append_inj_r s t u v :
  String.length u = String.length v -> s +:+ u = t +:+ v -> s = t /\ u = v.
Proof.
  intros Hl. revert t. induction s as [|c s IH]; intros [|c' t] E; cbn in E.
  - done.
  - apply (f_equal String.length) in E. cbn in E. rewrite length_append in E. lia.
  - apply (f_equal String.length) in E. cbn in E. rewrite length_append in E. lia.
  - injection E as -> E. apply IH in E as [-> ->]. done.
Qed.

#[export] Instance memory_spending_laws {D} `{DecimalLaws D} : SpendingLaws D (memorySpendingStore D).
Proof.
  constructor.
  - intros w d s. cbn. unfold mem_GetDailySpent. destruct (_ !! _); by eexists.
  - intros w d a s. eexists. split; [reflexivity|]. cbn. unfold mem_GetDailySpent. cbn [ms_ledger]. split.
    + intros v v' Hv Hv'. rewrite lookup_insert_eq in Hv'. injection Hv' as <-. rewrite dval_add.
      destruct (ms_ledger s !! _); injection Hv as <-; reflexivity.
    + intros w' d' Hl Hne. rewrite lookup_insert_ne; [done|]. unfold ledger_key. intros E.
      apply append_inj_r in E as [-> E]; [|cbn; lia]. injection E as ->. done.
Qed.

(** ** A concrete decimal type, and runs of the engine *)

(** The value of a float. *)
Definition Q_of_f64 (f : f64) : Q :=
  match f with
  | S754_finite sg m e =>
      let z := (if sg then Z.neg m else Z.pos m) in
      if (0 <=? e)%Z then inject_Z (z * 2 ^ e) else Qred (z # Z.to_pos (2 ^ (- e)))
  | _ => 0
  end.

#[export] Instance Q_decimal : Decimal Q := {|
  dec_zero := 0%Q;
  dec_add := Qplus;
  dec_gtb := fun a b => negb (Qle_bool a b);
  dec_geb := fun a b => Qle_bool b a;
  dec_of_float := Q_of_f64;
  dec_of_string := fun s => inject_Z <$> Atoi s;
  dec_string := fun q => Itoa (Qnum q);
|}.

#[export] Instance Q_decimal_laws : DecimalLaws Q.
Proof.
  refine {| dval := fun q => q |}; cbn.
  - reflexivity.
  - reflexivity.
  - intros a b. rewrite negb_true_iff, <- not_true_iff_false, Qle_bool_iff.
    split; [apply Qnot_le_lt|apply Qlt_not_le].
  - intros a b. apply Qle_bool_iff.
Defined.

Definition demo_policies : PoliciesConfig := {|
  MaxSinglePaymentUSD := f64_of_Z 5; MaxDailyBudgetUSD := f64_of_Z 8;
  AllowedDomains := ["*.example.com"]; BlockedDomains := ["evil.com"; "pay.example.com"];
  RequireHumanApprovalAboveUSD := f64_of_Z 4; AllowedAssets := ["usdc"]; AllowedChains := [] |}.

Definition demo_engine : Engine (memorySpendingStore Q) :=
  {| en_cfg := demo_policies; en_store := {| ms_ledger := ∅ |} |}.

Definition demo_intent (url : string) (amount : Q) : PaymentIntent Q := {|
  pi_ID := "i"; pi_URL := url; pi_Asset := "USDC"; pi_Amount := amount; pi_Chain := "base";
  pi_Recipient := "shop"; pi_Facilitator := ""; pi_Status := IntentPending; pi_CreatedAt := 0 |}.

Lemma Allow_checks_host_witness :
  domain_ok demo_policies "api.example.com".
Proof.
  apply (Allow_checks_host demo_engine "2026-01-01" (demo_intent "https://api.example.com:443/v1" 3)
           "https://" "api.example.com" ":443/v1").
  - by left.
  - reflexivity.
  - reflexivity.
  - constructor.
  - reflexivity.
  - vm_compute. reflexivity.
Defined.

Lemma recipient_budget_witness :
  within (spend_all "2026-01-01" pi_Recipient demo_engine
            [demo_intent "" 5; demo_intent "" 3; demo_intent "" 1]) "2026-01-01" "shop".
Proof.
  apply recipient_budget; [vm_compute; reflexivity|].
  intros v Hv. vm_compute in Hv. injection Hv as <-. vm_compute. discriminate.
Defined.

(** The host of a URL is cut at the first ["/"] and [":"] only: user
    information hides the real host from an allow list, and a query directly
    after the host hides a blocked one. *)
Lemma userinfo_hides_host :
  extractDomain "https://api.example.com:x@evil.com/pay" = "api.example.com" /\
  Allow demo_engine "2026-01-01" (Some (demo_intent "https://api.example.com:x@evil.com/pay" 3)) = Ok tt.
Proof. split; vm_compute; reflexivity. Qed.

Lemma query_hides_host :
  let cfg := {| MaxSinglePaymentUSD := f64_of_Z 0; MaxDailyBudgetUSD := f64_of_Z 0; AllowedDomains := [];
                BlockedDomains := ["evil.com"]; RequireHumanApprovalAboveUSD := f64_of_Z 0;
                AllowedAssets := []; AllowedChains := [] |} in
  is_ok (checkDomain cfg (extractDomain "https://evil.com/pay")) = false /\
  is_ok (checkDomain cfg (extractDomain "https://evil.com?pay=1")) = true.
Proof. split; vm_compute; reflexivity. Qed.
