(* ===== verification/X402.v ===== *)
(** * Paid HTTP requests

    [pkg/core/pkg/client/x402.go] and [x402_httpclient.go] (a request that is
    answered with 402 is checked against the policy, approved, signed, settled
    and sent again), [facilitator/facilitator.go] (the settlement call), and
    the approval loop of [pkg/wallet/pkg/approvals/approvals.go].  Servers, the
    signer and the approver are an environment that sees the calls made so
    far. *)

From S2P Require Export Policy.

Local Open Scope string_scope.
Local Open Scope list_scope.
Local Open Scope Z_scope.

(** ** Messages *)

(** The types of the x402 library, with the fields the client uses. *)
Record PaymentRequirements := {
  pq_Scheme : string; pq_Network : string; pq_Asset : string; pq_Amount : string; pq_PayTo : string;
}.
Record PaymentRequired := { pr_X402Version : Z; pr_Accepts : list PaymentRequirements }.
Record PaymentPayload := {
  pp_X402Version : Z; pp_Payload : list (string * string); pp_Accepted : PaymentRequirements;
}.

(** The fields of a V1 header. *)
Record V1Header := {
  v1_Asset : string; v1_Amount : string; v1_Chain : string; v1_Recipient : string; v1_Settlement : string;
}.

Record PaymentReceipt := {
  pc_ID : string; pc_IntentID : string; pc_TxHash : string; pc_Authorization : string; pc_PaidAt : Z;
}.

Record Request := {
  rq_Method : string; rq_URL : string; rq_Host : string; rq_Body : string;
  rq_Header : list (string * string);
}.
Record Response := { rs_StatusCode : Z; rs_Body : option string; rs_Header : list (string * string) }.

Definition HeaderX402Auth : string := "X402-Authorization".
Definition StatusOK : Z := 200.
Definition StatusPaymentRequired : Z := 402.

Definition header_get (h : list (string * string)) (k : string) : string :=
  match mget k h with Some v => v | None => "" end.

(** [req.Header.Set] *)
Definition set_header (k v : string) (req : Request) : Request :=
  {| rq_Method := rq_Method req; rq_URL := rq_URL req; rq_Host := rq_Host req; rq_Body := rq_Body req;
     rq_Header := mset k v (rq_Header req) |}.

Definition SetAuthorizationHeader (req : Request) (token : string) : Request :=
  set_header HeaderX402Auth token req.

Definition IsX402Response (resp : Response) : bool := rs_StatusCode resp =? StatusPaymentRequired.

Definition FirstAccept (pr : option PaymentRequired) : option PaymentRequirements :=
  match pr with
  | None => None
  | Some pr => match pr_Accepts pr with [] => None | a :: _ => Some a end
  end.

Definition ParseAssetAmount {D} `{Decimal D} (s : string) : option D := dec_of_string (TrimSpace s).

Section Client.
Context {D S : Type} `{Decimal D} `{!SpendingStore D S}.

(** ** The environment *)

Inductive xevent :=
| XSend (req : Request)
| XApproval (intent : PaymentIntent D)
| XSign (wallet payload : string)
| XSettle (url : string) (payload : PaymentPayload)
| XRecord (wallet : string) (amount : D).

(** JSON of the x402 types, and the peers: [x_send] is the HTTP client,
    [x_newRequest] the validation of a URL. *)
Record X402Env := {
  x_decodeV2 : string -> option PaymentRequired;
  x_decodeV1 : string -> res V1Header;
  x_marshal : PaymentPayload -> res string;
  x_decodeSettle : string -> res string;
  x_newRequest : string -> option string;
  x_send : list xevent -> Request -> res Response;
  x_sign : list xevent -> string -> string -> res string;
  x_settle : list xevent -> string -> string -> res Response;
  x_approver : option (list xevent -> PaymentIntent D -> res (option PaymentReceipt));
  x_date : Z -> string;
}.

Record X402Client := { xc_policyEngine : Engine S; xc_facilitator : string; xc_defaultAddr : string }.

(** ** Parsing a 402 answer *)

Definition parseV1Header (env : X402Env) (resp : Response) : res PaymentRequired :=
  let headerVal := header_get (rs_Header resp) "X402-Payment" in
  if String.eqb headerVal "" then Err "x402: missing X402-Payment header and body is not valid V2"
  else match x_decodeV1 env headerVal with
       | Err err => Err ("x402: invalid X402-Payment header: " +:+ err)
       | Ok v1 =>
           if String.eqb (v1_Asset v1) "" || String.eqb (v1_Amount v1) "" || String.eqb (v1_Recipient v1) ""
           then Err "x402: V1 header missing required fields"
           else Ok {| pr_X402Version := 1;
                      pr_Accepts := [{| pq_Scheme := v1_Settlement v1; pq_Network := v1_Chain v1;
                                        pq_Asset := v1_Asset v1; pq_Amount := v1_Amount v1;
                                        pq_PayTo := v1_Recipient v1 |}] |}
       end.

Definition Parse (env : X402Env) (resp : Response) : res PaymentRequired :=
  if negb (rs_StatusCode resp =? StatusPaymentRequired)
  then Err ("x402: expected 402 status, got " +:+ Itoa (rs_StatusCode resp))
  else match (match rs_Body resp with Some b => x_decodeV2 env b | None => None end) with
       | Some pr =>
           if 2 <=? pr_X402Version pr
           then match pr_Accepts pr with
                | [] => Err "x402: PaymentRequired has empty accepts array"
                | _ :: _ => Ok pr
                end
           else parseV1Header env resp
       | None => parseV1Header env resp
       end.

(** ** The state of a call *)

(** The client, the status of the intent, and the calls made so far. *)
Record XState := { xs_client : X402Client; xs_status : option IntentStatus; xs_trace : list xevent }.

Definition X (A : Type) : Type := XState -> res A * XState.

Definition xret {A} (r : res A) : X A := fun st => (r, st).
Definition xbind {A B} (m : X A) (k : A -> X B) : X B :=
  fun st => match m st with
            | (Ok a, st') => k a st'
            | (Err e, st') => (Err e, st')
            end.
(** A call: the peer sees the calls before it. *)
Definition xcall {A} (ev : xevent) (peer : list xevent -> res A) : X A :=
  fun st => (peer (xs_trace st),
             {| xs_client := xs_client st; xs_status := xs_status st; xs_trace := xs_trace st ++ [ev] |}).
Definition xstatus (s : IntentStatus) : X unit :=
  fun st => (Ok tt, {| xs_client := xs_client st; xs_status := Some s; xs_trace := xs_trace st |}).
Definition xget : X X402Client := fun st => (Ok (xs_client st), st).
(** [if err != nil { return nil, k err }] *)
Definition xfail {A} (m : X A) (k : string -> X A) : X A :=
  fun st => match m st with
            | (Err e, st') => k e st'
            | r => r
            end.

Local Notation "'let!' x := e 'in' k" := (xbind e (fun x => k))
  (at level 200, x pattern, e at level 100, k at level 200, right associativity).

(** ** The facilitator *)

Definition not_configured : string :=
  payment_error "FACILITATOR_NOT_CONFIGURED" "no facilitator endpoint configured".

Definition wrap (prefix : string) {A} (r : res A) : res A :=
  match r with Ok a => Ok a | Err e => Err (prefix +:+ e) end.

(** [Authorize]: the signed payload goes to the settlement endpoint. *)
Definition Authorize (env : X402Env) (now : Z) (endpoint : string) (payload : PaymentPayload)
    : X PaymentReceipt :=
  if String.eqb endpoint "" then xret (Err not_configured)
  else
    let! body := xret (wrap "marshal settle payload: " (x_marshal env payload)) in
    match x_newRequest env (endpoint +:+ "/settle") with
    | Some err => xret (Err ("create settle request: " +:+ err))
    | None =>
        let! resp := xcall (XSettle (endpoint +:+ "/settle") payload)
          (fun h => wrap "settle request failed: " (x_settle env h (endpoint +:+ "/settle") body)) in
        if negb (rs_StatusCode resp =? StatusOK)
        then xret (Err (payment_error "FACILITATOR_ERROR"
                     ("settlement returned status " +:+ Itoa (rs_StatusCode resp))))
        else
          let! tx := xret (wrap "decode settle response: "
            (x_decodeSettle env (match rs_Body resp with Some b => b | None => "" end))) in
          xret (Ok {| pc_ID := pq_PayTo (pp_Accepted payload) +:+ "-" +:+ tx;
                      pc_IntentID := pq_PayTo (pp_Accepted payload) +:+ "-" +:+ tx;
                      pc_TxHash := tx; pc_Authorization := tx; pc_PaidAt := now |})
    end.

(** ** Sending a request *)

Definition retryWithToken (env : X402Env) (req : Request) (token : string) : X Response :=
  let retryReq := SetAuthorizationHeader req token in
  xcall (XSend retryReq) (fun h => x_send env h retryReq).

(** [c.policyEngine.RecordSpend(c.defaultAddr, amount)], its error dropped. *)
Definition record_payment (env : X402Env) (now : Z) (amount : D) : X unit :=
  fun st =>
    let c := xs_client st in
    let e := match RecordSpend (xc_policyEngine c) (x_date env now) (xc_defaultAddr c) amount with
             | Ok e => e
             | Err _ => xc_policyEngine c
             end in
    (Ok tt, {| xs_client := {| xc_policyEngine := e; xc_facilitator := xc_facilitator c;
                               xc_defaultAddr := xc_defaultAddr c |};
               xs_status := xs_status st;
               xs_trace := xs_trace st ++ [XRecord (xc_defaultAddr c) amount] |}).

(** The intent made from the first accepted requirement. *)
Definition make_intent (id : string) (now : Z) (req : Request) (accept : PaymentRequirements)
    : PaymentIntent D :=
  {| pi_ID := id; pi_URL := rq_URL req; pi_Asset := pq_Asset accept;
     pi_Amount := match ParseAssetAmount (pq_Amount accept) with Some a => a | None => dec_zero end;
     pi_Chain := pq_Network accept; pi_Recipient := pq_PayTo accept; pi_Facilitator := rq_Host req;
     pi_Status := IntentPending; pi_CreatedAt := now |}.

(** The end of [Do]: sign the payload, settle, record, send again. *)
Definition pay (env : X402Env) (now : Z) (req : Request) (intent : PaymentIntent D)
    (accept : PaymentRequirements) : X Response :=
  let payload := {| pp_X402Version := 2;
                    pp_Payload := [("intent_id", pi_ID intent); ("url", pi_URL intent)];
                    pp_Accepted := accept |} in
  let payloadBytes := match x_marshal env payload with Ok b => b | Err _ => "" end in
  let! c := xget in
  let! sig := xfail (xcall (XSign (xc_defaultAddr c) payloadBytes)
                       (fun h => x_sign env h (xc_defaultAddr c) payloadBytes))
                (fun err => let! _ := xstatus IntentFailed in xret (Err ("x402: sign authorization: " +:+ err))) in
  let payload := {| pp_X402Version := 2; pp_Payload := pp_Payload payload ++ [("signature", sig)];
                    pp_Accepted := accept |} in
  let! receipt := xfail (Authorize env now (xc_facilitator c) payload)
                (fun err => let! _ := xstatus IntentFailed in xret (Err ("x402: facilitator authorize: " +:+ err))) in
  let! _ := xstatus IntentPaid in
  let! _ := record_payment env now (pi_Amount intent) in
  retryWithToken env req (pc_Authorization receipt).

Definition Do (env : X402Env) (id : string) (now : Z) (req : Request) : X Response :=
  let! resp := xfail (xcall (XSend req) (fun h => x_send env h req))
                 (fun err => xret (Err ("x402: request failed: " +:+ err))) in
  if negb (IsX402Response resp) then xret (Ok resp)
  else
    let! paymentReq := xret (wrap "x402: parse 402 response: " (Parse env resp)) in
    match FirstAccept (Some paymentReq) with
    | None => xret (Err "x402: no payment option in 402 response")
    | Some accept =>
        let intent := make_intent id now req accept in
        let! _ := xstatus IntentPending in
        let! c := xget in
        match Allow (xc_policyEngine c) (x_date env now) (Some intent) with
        | Err err => let! _ := xstatus IntentDenied in xret (Err err)
        | Ok _ =>
            if RequiresHumanApproval (xc_policyEngine c) intent
            then match x_approver env with
                 | None => xret (Err ErrPaymentRequiresApproval)
                 | Some approver =>
                     let! receipt := xfail (xcall (XApproval intent) (fun h => approver h intent))
                       (fun err => let! _ := xstatus IntentDenied in
                                   xret (Err ("x402: approval denied: " +:+ err))) in
                     match receipt with
                     | Some r => retryWithToken env req (pc_Authorization r)
                     | None => pay env now req intent accept
                     end
                 end
            else pay env now req intent accept
        end
    end.

(** [Get] and [Post]: the given headers are set in the order of the loop. *)
Definition X402Get (env : X402Env) (id : string) (now : Z) (url host : string)
    (headers : list (string * string)) : X Response :=
  match x_newRequest env url with
  | Some err => xret (Err err)
  | None =>
      let req := {| rq_Method := "GET"; rq_URL := url; rq_Host := host; rq_Body := ""; rq_Header := [] |} in
      Do env id now (fold_left (fun r kv => set_header kv.1 kv.2 r) headers req)
  end.

Definition X402Post (env : X402Env) (id : string) (now : Z) (url host body : string)
    (headers : list (string * string)) : X Response :=
  match x_newRequest env url with
  | Some err => xret (Err err)
  | None =>
      let req := {| rq_Method := "POST"; rq_URL := url; rq_Host := host; rq_Body := body;
                    rq_Header := [("Content-Type", "application/json")] |} in
      Do env id now (fold_left (fun r kv => set_header kv.1 kv.2 r) headers req)
  end.

End Client.
Arguments xevent : clear implicits.
Arguments X402Env : clear implicits.
Arguments X402Client : clear implicits.
Arguments XState : clear implicits.

(** * Properties of paid requests

    What must have happened before money moves, that it moves at most once per
    request and is then recorded, and what the daily budget sees of it. *)

Section Facts.
Context {D S : Type} `{DecimalLaws D} `{!SpendingStore D S}.
Implicit Types (env : X402Env D) (c : X402Client S) (st : XState D S).

Definition start c : XState D S := {| xs_client := c; xs_status := None; xs_trace := [] |}.

(** What [pay] adds to the trace, and what it leaves of the client: signed
    only, settled without success, or settled, recorded and sent again. *)
Inductive pay_steps env (now : Z) (req : Request) (intent : PaymentIntent D) (accept : PaymentRequirements) c
  : option IntentStatus -> X402Client S -> list (xevent D) -> Prop :=
| ps_signed bytes :
    pay_steps env now req intent accept c (Some IntentFailed) c [XSign (xc_defaultAddr c) bytes]
| ps_settled bytes url payload :
    pp_Accepted payload = accept ->
    pay_steps env now req intent accept c (Some IntentFailed) c
      [XSign (xc_defaultAddr c) bytes; XSettle url payload]
| ps_paid bytes url payload token c' :
    pp_Accepted payload = accept ->
    c' = {| xc_policyEngine :=
              match RecordSpend (xc_policyEngine c) (x_date env now) (xc_defaultAddr c) (pi_Amount intent) with
              | Ok e => e | Err _ => xc_policyEngine c end;
            xc_facilitator := xc_facilitator c; xc_defaultAddr := xc_defaultAddr c |} ->
    pay_steps env now req intent accept c (Some IntentPaid) c'
      [XSign (xc_defaultAddr c) bytes; XSettle url payload;
       XRecord (xc_defaultAddr c) (pi_Amount intent); XSend (SetAuthorizationHeader req token)].

Lemma pay_spec env now req intent accept st :
  let st' := (pay env now req intent accept st).2 in
  exists tail, xs_trace st' = xs_trace st ++ tail /\
    pay_steps env now req intent accept (xs_client st) (xs_status st') (xs_client st') tail.
Proof.
  unfold pay, xbind, xfail, xget, xcall, xret, xstatus, Authorize. destruct st as [c s h]. cbn.
  destruct (x_sign env h _ _) as [sig|err]; cbn; [|eexists; split; [done|constructor]].
  destruct (String.eqb (xc_facilitator c) ""); cbn; [eexists; split; [done|constructor]|].
  unfold xbind, xret. destruct (x_marshal env _) as [body|err]; cbn;
    [|eexists; split; [done|constructor]].
  destruct (x_newRequest env _); cbn; [eexists; split; [done|constructor]|].
  destruct (x_settle env _ _ _) as [resp|err]; cbn;
    [|eexists; rewrite <- app_assoc; split; [done|by constructor]].
  destruct (rs_StatusCode resp =? StatusOK); cbn;
    [|eexists; rewrite <- app_assoc; split; [done|by constructor]].
  destruct (x_decodeSettle env _) as [tx|err]; cbn;
    [|eexists; rewrite <- app_assoc; split; [done|by constructor]].
  eexists. rewrite <- !app_assoc. split; [done|]. by eapply (ps_paid _ _ _ _ _ _ _ _ _ tx).
Qed.

(** What [Do] did: only the first request; or it also asked for approval and
    sent the approver's token; or it paid. *)
Inductive do_steps env (id : string) (now : Z) (req : Request) c
  : option IntentStatus -> X402Client S -> list (xevent D) -> Prop :=
| ds_sent s tail :
    s <> Some IntentPaid ->
    (tail = [] \/ exists i, tail = [XApproval i] \/ exists t, tail = [XApproval i; XSend (SetAuthorizationHeader req t)]) ->
    do_steps env id now req c s c (XSend req :: tail)
| ds_paid resp pr accept asked s c' tail :
    x_send env [] req = Ok resp -> Parse env resp = Ok pr -> FirstAccept (Some pr) = Some accept ->
    Allow (xc_policyEngine c) (x_date env now) (Some (make_intent id now req accept)) = Ok tt ->
    (if RequiresHumanApproval (xc_policyEngine c) (make_intent id now req accept)
     then exists ap, x_approver env = Some ap /\ ap [XSend req] (make_intent id now req accept) = Ok None /\
            asked = [XApproval (make_intent id now req accept)]
     else asked = []) ->
    pay_steps env now req (make_intent id now req accept) accept c s c' tail ->
    do_steps env id now req c s c' (XSend req :: asked ++ tail).

Lemma Do_steps env id now req c :
  match Do env id now req (start c) with
  | (_, st') => do_steps env id now req c (xs_status st') (xs_client st') (xs_trace st')
  end.
Proof.
  unfold Do, xbind at 1, xfail at 1, xcall at 1, xret at 1, start. cbn [xs_client xs_status xs_trace app].
  destruct (x_send env [] req) as [resp|err] eqn:ES; [|by apply ds_sent; [|left]].
  destruct (IsX402Response resp); cbn [negb]; [|by apply ds_sent; [|left]].
  unfold xbind at 1, xret at 1. destruct (Parse env resp) as [pr|err] eqn:EP; cbn [wrap];
    [|by apply ds_sent; [|left]].
  destruct (FirstAccept (Some pr)) as [accept|] eqn:EF; [|by apply ds_sent; [|left]].
  unfold xbind at 1, xstatus at 1. unfold xbind at 1, xget at 1. cbn [xs_client xs_status xs_trace].
  destruct (Allow _ _ _) as [[]|err] eqn:EA; [|by apply ds_sent; [|left]].
  destruct (RequiresHumanApproval _ _) eqn:ER.
  - destruct (x_approver env) as [ap|] eqn:EAp; [|by apply ds_sent; [|left]].
    unfold xbind at 1, xfail at 1, xcall at 1. cbn [xs_client xs_status xs_trace app].
    destruct (ap [XSend req] _) as [[r|]|err] eqn:EV.
    + apply ds_sent; [done|]. right. eexists. right. by eexists.
    + match goal with |- context [pay env now req ?i accept ?st] =>
        pose proof (pay_spec env now req i accept st) as (tail & Ht & Hp); destruct (pay env now req i accept st) end.
      cbn [snd xs_trace xs_client app] in Ht, Hp. rewrite Ht.
      eapply (ds_paid _ _ _ _ _ resp pr accept [_]); try done. rewrite ER. by exists ap.
    + apply ds_sent; [done|]. right. eexists. by left.
  - match goal with |- context [pay env now req ?i accept ?st] =>
      pose proof (pay_spec env now req i accept st) as (tail & Ht & Hp); destruct (pay env now req i accept st) end.
    cbn [snd xs_trace xs_client app] in Ht, Hp. rewrite Ht.
    eapply (ds_paid _ _ _ _ _ resp pr accept []); try done. by rewrite ER.
Qed.

Definition is_settle (ev : xevent D) : bool := match ev with XSettle _ _ => true | _ => false end.
Definition settles (l : list (xevent D)) : nat := length (List.filter is_settle l).


(** The ledger changes exactly when the payment went through: the intent
    ends up paid if and only if the amount was recorded, once, under the
    client's own wallet; every other outcome leaves the client as it was. *)
Theorem Do_records_paid env id now req c :
  let st := (Do env id now req (start c)).2 in
  match xs_status st with
  | Some IntentPaid =>
      exists accept, XRecord (xc_defaultAddr c) (pi_Amount (make_intent id now req accept)) ∈ xs_trace st /\
        settles (xs_trace st) = 1%nat /\
        xc_policyEngine (xs_client st) =
          match RecordSpend (xc_policyEngine c) (x_date env now) (xc_defaultAddr c)
                  (pi_Amount (make_intent id now req accept)) with
          | Ok e => e | Err _ => xc_policyEngine c end
  | _ => xs_client st = c /\ forall w a, XRecord w a ∉ xs_trace st
  end.
Proof.
  pose proof (Do_steps env id now req c) as Hd.
  destruct (Do env id now req (start c)) as [r st']. cbn [snd] in *. cbn zeta.
  destruct Hd as [s tail Hs Ht|resp pr accept asked s c' tail ES EP EF EA Hap Hp].
  { assert (forall w a, XRecord w a ∉ XSend req :: tail) as Hn
      by (destruct Ht as [->|(i & [->|[t ->]])]; set_solver).
    destruct s as [[]|]; try done. }
  assert (forall w a, XRecord w a ∉ XSend req :: asked) as Hno.
  { destruct (RequiresHumanApproval _ _); [destruct Hap as (? & _ & _ & ->)|subst asked]; set_solver. }
  change (XSend req :: asked ++ tail) with ((XSend req :: asked) ++ tail).
  destruct Hp as [bytes|bytes url payload Hacc|bytes url payload token c' Hacc ->].
  1,2: split; [done|]; intros w a [?|?]%elem_of_app; [by destruct (Hno w a)|set_solver].
  exists accept. split_and!; [set_solver| |done].
  unfold settles. rewrite List.filter_app, length_app.
  destruct (RequiresHumanApproval _ _); [destruct Hap as (? & _ & _ & ->)|subst asked]; done.
Qed.

(** ** What the daily budget sees *)

Context `{!SpendingLaws D S}.

(** Requests one after the other, with the client each leaves. *)
Definition Do_all env (reqs : list (string * Z * Request)) c : X402Client S :=
  fold_left (fun c r => xs_client (Do env r.1.1 r.1.2 r.2 (start c)).2) reqs c.

Lemma Do_client env id now req c :
  let c' := xs_client (Do env id now req (start c)).2 in
  xc_defaultAddr c' = xc_defaultAddr c /\ en_cfg (xc_policyEngine c') = en_cfg (xc_policyEngine c) /\
  forall w, w <> xc_defaultAddr c ->
    GetDailySpent w (x_date env now) (en_store (xc_policyEngine c')) =
    GetDailySpent w (x_date env now) (en_store (xc_policyEngine c)).
Proof.
  pose proof (Do_steps env id now req c) as Hd.
  destruct (Do env id now req (start c)) as [r st']. cbn [snd] in *. cbn zeta.
  destruct Hd as [s tail Hs Ht|resp pr accept asked s c' tail ES EP EF EA Hap Hp]; [done|].
  destruct Hp as [bytes|bytes url payload Hacc|bytes url payload token c' Hacc ->]; [done|done|].
  cbn [xc_defaultAddr xc_policyEngine].
  destruct (record_spec (xc_defaultAddr c) (x_date env now) (pi_Amount (make_intent id now req accept))
              (en_store (xc_policyEngine c))) as (s' & Es & _ & Hother).
  unfold RecordSpend. rewrite Es. cbn [res_bind en_cfg en_store]. split_and!; [done..|].
  intros w Hw. apply Hother; [done|]. congruence.
Qed.

(** Payments to a recipient other than the client's own wallet are recorded
    where the budget check does not look: through a whole day, however much
    was paid, the check sees of every recipient what it saw in the morning. *)
Lemma budget_blind_to_payments env reqs c day w :
  Forall (fun r => x_date env r.1.2 = day) reqs -> w <> xc_defaultAddr c ->
  GetDailySpent w day (en_store (xc_policyEngine (Do_all env reqs c))) =
  GetDailySpent w day (en_store (xc_policyEngine c)).
Proof.
  intros Hday. unfold Do_all. revert c. induction Hday as [|[[id now] req] reqs Hd _ IH]; intros c Hw; [done|].
  cbn [fold_left fst snd] in *. destruct (Do_client env id now req c) as (Ha & _ & Hs). cbn zeta in Ha, Hs.
  rewrite IH by congruence. subst day. by apply Hs.
Qed.

End Facts.

(** ** A paid request, step by step *)

Definition demo_accept (amount : string) : PaymentRequirements :=
  {| pq_Scheme := "exact"; pq_Network := "base"; pq_Asset := "USDC"; pq_Amount := amount; pq_PayTo := "shop" |}.

(** A server that asks for [amount] until a token is shown, and a signer and a
    facilitator that always agree. *)
Definition demo_xenv (amount : string) : X402Env Q := {|
  x_decodeV2 := fun _ => Some {| pr_X402Version := 2; pr_Accepts := [demo_accept amount] |};
  x_decodeV1 := fun _ => Err "no header";
  x_marshal := fun p => Ok (pq_Amount (pp_Accepted p));
  x_decodeSettle := fun b => Ok b;
  x_newRequest := fun _ => None;
  x_send := fun _ req =>
    Ok {| rs_StatusCode := match mget HeaderX402Auth (rq_Header req) with Some _ => 200 | None => 402 end;
          rs_Body := Some "page"; rs_Header := [] |};
  x_sign := fun _ w p => Ok (w +:+ ":" +:+ p);
  x_settle := fun _ _ b => Ok {| rs_StatusCode := 200; rs_Body := Some "tx1"; rs_Header := [] |};
  x_approver := Some (fun _ _ => Ok None);
  x_date := fun _ => "2026-01-01";
|}.

Definition demo_client : X402Client (memorySpendingStore Q) :=
  {| xc_policyEngine := demo_engine; xc_facilitator := "https://fac"; xc_defaultAddr := "" |}.

Definition demo_req : Request :=
  {| rq_Method := "GET"; rq_URL := "https://api.example.com/data"; rq_Host := "api.example.com";
     rq_Body := ""; rq_Header := [] |}.

Lemma demo_paid_request :
  let '(r, st) := Do (demo_xenv "3") "i1" 0 demo_req (start demo_client) in
  is_ok r = true /\ xs_status st = Some IntentPaid /\ settles (xs_trace st) = 1%nat.
Proof. vm_compute. by split_and!. Qed.

Lemma demo_denied_request :
  let '(r, st) := Do (demo_xenv "6") "i1" 0 demo_req (start demo_client) in
  is_ok r = false /\ xs_status st = Some IntentDenied /\ settles (xs_trace st) = 0%nat.
Proof. vm_compute. by split_and!. Qed.

(** A daily budget of 8 lets through any number of payments of 3 to one
    recipient. *)
Lemma daily_budget_exceeded :
  let reqs := repeat ("i", 0, demo_req) 10 in
  GetDailySpent "" "2026-01-01" (en_store (xc_policyEngine (Do_all (demo_xenv "3") reqs demo_client))) = Ok 30%Q.
Proof. vm_compute. reflexivity. Qed.

(** An amount that does not parse counts as zero for the policy, while the
    signed payload carries the original text. *)
Lemma unparsed_amount_is_paid :
  let '(r, st) := Do (demo_xenv "1,000,000") "i1" 0 demo_req (start demo_client) in
  is_ok r = true /\
  exists url payload, XSettle url payload ∈ xs_trace st /\ pq_Amount (pp_Accepted payload) = "1,000,000".
Proof.
  vm_compute. split; [done|]. do 2 eexists. split; [right; right; left|reflexivity].
Qed.
