(* ===== verification/Auth.v ===== *)
(** * Authentication of API requests

    [pkg/api/pkg/auth/auth.go]: the token service (keys, issuing of JWTs), the
    middleware that routes a request to a login backend, lets anonymous paths
    through and validates bearer tokens elsewhere.  The JWT library and the
    key formats are parameters.  Times are nanoseconds. *)

From S2P Require Export Eval Json.

Local Open Scope string_scope.
Local Open Scope list_scope.
Local Open Scope Z_scope.

(** ** Requests and answers *)

Record HttpReq := {
  hr_Method : string;
  hr_Path : string;
  hr_Header : list (string * string);
  hr_Query : list (string * string);
  hr_Cookies : list (string * string);
  hr_Body : string;
  hr_TLS : bool;
}.

(** A value of a header, of the query or of a form that is not given is
    empty. *)
Definition first_value (l : list (string * string)) (k : string) : string :=
  match mget k l with Some v => v | None => "" end.

Record HttpResp := { hp_Status : Z; hp_Body : string; hp_Cookies : list (string * string * Z);
                     hp_Location : string }.

Definition WriteJSON (status : Z) (body : string) : HttpResp :=
  {| hp_Status := status; hp_Body := body; hp_Cookies := []; hp_Location := "" |}.


Definition writeAuthError (msg : string) : HttpResp :=
  WriteJSON 401 ("{" +:+ Quote "success" +:+ ":false," +:+ Quote "message" +:+ ":" +:+ Quote msg +:+ "}").

Record UserInfo := {
  ui_UserID : string; ui_Username : string; ui_Email : string; ui_DisplayName : string;
  ui_Role : string; ui_Groups : list string; ui_Extra : gomap;
}.

(** ** The JWT library *)

Inductive SigningMethod := ES256 | ES384 | ES512 | RS256 | RS384 | RS512 | EdDSA.

(** [Alg] *)
Definition Alg (m : SigningMethod) : string :=
  match m with
  | ES256 => "ES256" | ES384 => "ES384" | ES512 => "ES512"
  | RS256 => "RS256" | RS384 => "RS384" | RS512 => "RS512" | EdDSA => "EdDSA"
  end.

Record RegisteredClaims := {
  cl_Issuer : string; cl_Subject : string; cl_Audience : list string;
  cl_ExpiresAt : Z; cl_IssuedAt : Z; cl_NotBefore : Z;
}.

(** A parsed token: its algorithm, the further fields of its header, and its
    claims. *)
Record Token := { tk_Alg : string; tk_Header : gomap; tk_Claims : RegisteredClaims }.

Class JWT (Priv Pub : Type) := {
  SignedString : SigningMethod -> gomap -> RegisteredClaims -> Priv -> res string;
  (** [ParseWithClaims] at a time, with the function that gives the key for an
      algorithm. *)
  ParseWithClaims : string -> (string -> res Pub) -> Z -> res Token;
}.

(** What the library documents: a token is returned only when the key function
    accepts its algorithm, its signature verifies under that key, and the time
    is within its claims; a signed token parses back under a matching key. *)
Class JWTLaws (Priv Pub : Type) `{JWT Priv Pub} := {
  jwt_signed : string -> Token -> Pub -> Prop;
  jwt_pair : SigningMethod -> Priv -> Pub -> Prop;
  ParseWithClaims_sound : forall s kf now tok, ParseWithClaims s kf now = Ok tok ->
    exists pub, kf (tk_Alg tok) = Ok pub /\ jwt_signed s tok pub /\
      cl_NotBefore (tk_Claims tok) <= now < cl_ExpiresAt (tk_Claims tok);
  ParseWithClaims_complete : forall m hdr cl priv pub s kf now,
    SignedString m hdr cl priv = Ok s -> jwt_pair m priv pub -> kf (Alg m) = Ok pub ->
    cl_NotBefore cl <= now < cl_ExpiresAt cl ->
    ParseWithClaims s kf now = Ok {| tk_Alg := Alg m; tk_Header := hdr; tk_Claims := cl |};
  ParseWithClaims_alg : forall m hdr cl priv s kf now,
    SignedString m hdr cl priv = Ok s -> is_ok (kf (Alg m)) = false ->
    is_ok (ParseWithClaims s kf now) = false;
}.

(** [jwt.NewNumericDate]: seconds. *)
Definition NewNumericDate (t : Z) : Z := t - t mod 1000000000.

(** ** Keys *)

(** [encoding/pem] and [crypto/x509]. *)
Record KeyLib (Priv Pub : Type) := {
  pem_Decode : string -> option string;
  ParsePKCS8PrivateKey : string -> option Priv;
  ParsePKCS1PrivateKey : string -> option Priv;
  ParseECPrivateKey : string -> option Priv;
  ParsePKIXPublicKey : string -> option Pub;
  ParseCertificate : string -> option Pub;
  ParsePKCS1PublicKey : string -> option Pub;
  GenerateKey : res (Priv * Pub);
}.
Arguments pem_Decode {Priv Pub}. Arguments ParsePKCS8PrivateKey {Priv Pub}.
Arguments ParsePKCS1PrivateKey {Priv Pub}. Arguments ParseECPrivateKey {Priv Pub}.
Arguments ParsePKIXPublicKey {Priv Pub}. Arguments ParseCertificate {Priv Pub}.
Arguments ParsePKCS1PublicKey {Priv Pub}. Arguments GenerateKey {Priv Pub}.

Record AuthConfig := {
  ac_JWTAlgorithm : string; ac_JWTPrivateKey : string; ac_JWTPublicKey : string;
  ac_JWTValidityAK : Z; ac_JWTValidityRK : Z; ac_AnonymousPaths : list string;
}.

(** [matchGlob] *)
Definition matchGlob (pattern path : string) : bool :=
  if String.eqb pattern path then true
  else if (3 <=? String.length pattern)%nat
          && String.eqb (sdrop (String.length pattern - 3) pattern) "/**"
  then let pfx := stake (String.length pattern - 3) pattern in
       (String.length pfx <=? String.length path)%nat && String.eqb (stake (String.length pfx) path) pfx
  else false.

Section Service.
Context {Priv Pub : Type} `{JWT Priv Pub}.

Definition first_some {A} (l : list (option A)) : option A :=
  fold_right (fun o r => match o with Some a => Some a | None => r end) None l.

Definition parsePrivateKey (k : KeyLib Priv Pub) (pem : string) : res Priv :=
  match pem_Decode k pem with
  | None => Err "auth: failed to decode PEM block"
  | Some block =>
      match first_some [ParsePKCS8PrivateKey k block; ParsePKCS1PrivateKey k block; ParseECPrivateKey k block] with
      | Some key => Ok key
      | None => Err "auth: unsupported private key format"
      end
  end.

Definition parsePublicKey (k : KeyLib Priv Pub) (pem : string) : res Pub :=
  match pem_Decode k pem with
  | None => Err "auth: failed to decode PEM block"
  | Some block =>
      match first_some [ParsePKIXPublicKey k block; ParseCertificate k block; ParsePKCS1PublicKey k block] with
      | Some key => Ok key
      | None => Err "auth: unsupported public key format"
      end
  end.

(** A key text that is given is parsed. *)
Definition parse_given {K} (parse : string -> res K) (what pem : string) : res (option K) :=
  if String.eqb pem "" then Ok None
  else match parse pem with
       | Err err => Err ("parse " +:+ what +:+ " key: " +:+ err)
       | Ok key => Ok (Some key)
       end.

Definition loadOrGenerateKeys (k : KeyLib Priv Pub) (privPEM pubPEM : string) : res (Priv * Pub) :=
  let? priv := parse_given (parsePrivateKey k) "private" privPEM in
  let? pub := parse_given (parsePublicKey k) "public" pubPEM in
  match priv, pub with
  | Some priv, Some pub => Ok (priv, pub)
  | None, None =>
      match GenerateKey k with
      | Ok key => Ok key
      | Err err => Err ("generate ECDSA key: " +:+ err)
      end
  | _, _ => Err "both private and public keys must be provided together"
  end.

(** ** The token service *)

Record TokenService := {
  ts_algorithm : string; ts_privateKey : Priv; ts_publicKey : Pub;
  ts_akValidity : Z; ts_rkValidity : Z;
}.

Definition validity (secs default : Z) : Z :=
  let d := i64 (secs * 1000000000) in
  if d <=? 0 then default * 1000000000 else d.

Definition NewTokenService (k : KeyLib Priv Pub) (cfg : AuthConfig) : res TokenService :=
  let alg := if String.eqb (ac_JWTAlgorithm cfg) "" then "ES256" else ac_JWTAlgorithm cfg in
  match loadOrGenerateKeys k (ac_JWTPrivateKey cfg) (ac_JWTPublicKey cfg) with
  | Err err => Err ("auth: " +:+ err)
  | Ok (priv, pub) =>
      Ok {| ts_algorithm := alg; ts_privateKey := priv; ts_publicKey := pub;
            ts_akValidity := validity (ac_JWTValidityAK cfg) 3600;
            ts_rkValidity := validity (ac_JWTValidityRK cfg) 86400 |}
  end.

Definition signingMethod (s : TokenService) : SigningMethod :=
  if String.eqb (ts_algorithm s) "RS256" then RS256
  else if String.eqb (ts_algorithm s) "RS384" then RS384
  else if String.eqb (ts_algorithm s) "RS512" then RS512
  else if String.eqb (ts_algorithm s) "ES384" then ES384
  else if String.eqb (ts_algorithm s) "ES512" then ES512
  else if String.eqb (ts_algorithm s) "EdDSA" then EdDSA
  else ES256.

Definition token_claims (user : UserInfo) (now ttl : Z) : RegisteredClaims :=
  {| cl_Issuer := "flowgent"; cl_Subject := ui_UserID user; cl_Audience := ["flowgent"];
     cl_ExpiresAt := NewNumericDate (now + ttl); cl_IssuedAt := NewNumericDate now;
     cl_NotBefore := NewNumericDate now |}.

Definition token_header (user : UserInfo) : gomap :=
  [("uid", VStr (ui_UserID user)); ("uname", VStr (ui_Username user)); ("role", VStr (ui_Role user))].

Definition issueToken (s : TokenService) (user : UserInfo) (ttl now : Z) : res string :=
  match SignedString (signingMethod s) (token_header user) (token_claims user now ttl) (ts_privateKey s) with
  | Err err => Err ("auth: sign token: " +:+ err)
  | Ok signed => Ok signed
  end.

Definition IssueAccessToken (s : TokenService) (user : UserInfo) (now : Z) : res string :=
  issueToken s user (ts_akValidity s) now.
Definition IssueRefreshToken (s : TokenService) (user : UserInfo) (now : Z) : res string :=
  issueToken s user (ts_rkValidity s) now.

(** ** The middleware *)

(** What the middleware does with a request: a backend serves it, the next
    handler gets it (with the claims, user and role in its context once a
    token was validated), or it is refused. *)
Inductive auth_outcome :=
| Backend (name : string)
| Next (ctx : option (RegisteredClaims * string * string))
| Refused (resp : HttpResp).

Record AuthProviderService := {
  ap_Name : string; ap_Enabled : bool; ap_CanHandle : HttpReq -> bool;
}.

Record AuthService := {
  as_cfg : AuthConfig; as_tokenService : TokenService; as_providers : list AuthProviderService;
}.

Definition NewService (k : KeyLib Priv Pub) (cfg : AuthConfig) : res AuthService :=
  let? ts := NewTokenService k cfg in
  Ok {| as_cfg := cfg; as_tokenService := ts; as_providers := [] |}.

Definition RegisterProvider (s : AuthService) (p : AuthProviderService) : AuthService :=
  {| as_cfg := as_cfg s; as_tokenService := as_tokenService s; as_providers := as_providers s ++ [p] |}.

(** The key function given to the parser. *)
Definition keyfunc (alg : string) (publicKey : Pub) (token_alg : string) : res Pub :=
  if String.eqb token_alg alg then Ok publicKey
  else Err ("unexpected signing algorithm: " +:+ token_alg).

Definition header_str (h : gomap) (k default : string) : string :=
  match mget k h with Some (VStr v) => v | _ => default end.

(** [Step 3: JWT validation] of [AuthService.Middleware]. *)
Definition validate_bearer (ts : TokenService) (now : Z) (r : HttpReq) : auth_outcome :=
  let authHeader := first_value (hr_Header r) "Authorization" in
  if String.eqb authHeader "" then Refused (writeAuthError "Authorization header is required")
  else match SplitN2 authHeader " " with
       | [scheme; token] =>
           if negb (EqualFold scheme "Bearer")
           then Refused (writeAuthError "Invalid Authorization header format")
           else match ParseWithClaims token (keyfunc (ts_algorithm ts) (ts_publicKey ts)) now with
                | Err _ => Refused (writeAuthError "Invalid or expired token")
                | Ok tok =>
                    let uid := header_str (tk_Header tok) "uid" (cl_Subject (tk_Claims tok)) in
                    let role := header_str (tk_Header tok) "role" "" in
                    Next (Some (tk_Claims tok, uid, role))
                end
       | _ => Refused (writeAuthError "Invalid Authorization header format")
       end.

Definition AuthMiddleware (s : AuthService) (now : Z) (r : HttpReq) : auth_outcome :=
  match find (fun p => ap_Enabled p && ap_CanHandle p r) (as_providers s) with
  | Some p => Backend (ap_Name p)
  | None =>
      if existsb (fun p => matchGlob p (hr_Path r)) (ac_AnonymousPaths (as_cfg s)) then Next None
      else validate_bearer (as_tokenService s) now r
  end.

(** The standalone [Middleware], which repeats the validation. *)
Definition Middleware (cfg : AuthConfig) (ts : TokenService) (now : Z) (r : HttpReq) : auth_outcome :=
  if existsb (fun p => matchGlob p (hr_Path r)) (ac_AnonymousPaths cfg) then Next None
  else
    let authHeader := first_value (hr_Header r) "Authorization" in
    if String.eqb authHeader "" then Refused (writeAuthError "Authorization header is required")
    else match SplitN2 authHeader " " with
         | [scheme; token] =>
             if negb (EqualFold scheme "Bearer")
             then Refused (writeAuthError "Invalid Authorization header format")
             else match ParseWithClaims token (keyfunc (ts_algorithm ts) (ts_publicKey ts)) now with
                  | Err _ => Refused (writeAuthError "Invalid or expired token")
                  | Ok tok =>
                      Next (Some (tk_Claims tok,
                                  header_str (tk_Header tok) "uid" (cl_Subject (tk_Claims tok)),
                                  header_str (tk_Header tok) "role" ""))
                  end
         | _ => Refused (writeAuthError "Invalid Authorization header format")
         end.

End Service.
Arguments TokenService : clear implicits.
Arguments AuthService : clear implicits.
