(* ===== verification/AuthFacts.v ===== *)
(** * Properties of the authentication of requests

    Which requests reach the API and with which identity, that issued tokens
    are accepted while they are valid, and what anonymous patterns match. *)

From S2P Require Export Auth Policy.
From Stdlib Require Import Ascii.

Local Open Scope string_scope.
Local Open Scope list_scope.
Local Open Scope Z_scope.

(** ** Anonymous paths *)

Lemma matchGlob_spec p path :
  matchGlob p path = true <->
  p = path \/ exists pfx rest, p = pfx +:+ "/**" /\ path = pfx +:+ rest.
Proof.
  unfold matchGlob. destruct (String.eqb_spec p path) as [->|Hne]; [naive_solver|].
  destruct (_ && String.eqb (sdrop _ p) "/**") eqn:EP.
  - apply andb_true_iff in EP as [_ EP%String.eqb_eq].
    set (pfx := stake (String.length p - 3) p) in *.
    assert (p = pfx +:+ "/**") as Hp by (rewrite <- EP; symmetry; apply stake_sdrop).
    rewrite andb_true_iff, String.eqb_eq. split.
    + intros [_ E]. right. exists pfx, (sdrop (String.length pfx) path). split; [done|].
      rewrite <- E at 1. symmetry. apply stake_sdrop.
    + intros [?|(pfx' & rest & E & ->)]; [done|].
      assert (pfx = pfx') as <- by (rewrite E in Hp; by apply append_inj_r in Hp as [-> _]).
      rewrite length_append, stake_append. split; [apply Nat.leb_le; lia|done].
  - split; [done|]. intros [?|(pfx & rest & -> & _)]; [done|].
    rewrite length_append in EP. cbn [String.length] in EP.
    replace (String.length pfx + 3 - 3)%nat with (String.length pfx) in EP by lia.
    rewrite sdrop_append, String.eqb_refl, andb_true_r in EP. apply Nat.leb_gt in EP. lia.
Qed.

Section Facts.
Context {Priv Pub : Type} `{JWTLaws Priv Pub}.
Implicit Types (s : AuthService Priv Pub) (ts : TokenService Priv Pub) (r : HttpReq).

(** The two middlewares decide alike when no backend is registered. *)
Lemma Middleware_standalone s now r :
  as_providers s = [] ->
  AuthMiddleware s now r = Middleware (as_cfg s) (as_tokenService s) now r.
Proof. intros Hp. unfold AuthMiddleware. by rewrite Hp. Qed.

(** A path the configuration opens. *)
Definition anonymous s r : Prop :=
  Exists (fun p => p = hr_Path r \/ exists pfx rest, p = pfx +:+ "/**" /\ hr_Path r = pfx +:+ rest)
         (ac_AnonymousPaths (as_cfg s)).

Lemma anonymous_spec s r :
  existsb (fun p => matchGlob p (hr_Path r)) (ac_AnonymousPaths (as_cfg s)) = true <-> anonymous s r.
Proof.
  rewrite existsb_Exists. unfold anonymous. rewrite !Exists_exists. by setoid_rewrite matchGlob_spec.
Qed.

Lemma SplitN2_two a sep x y : SplitN2 a sep = [x; y] -> Index a sep <> None.
Proof. unfold SplitN2. by destruct (Index a sep). Qed.


(** ** Issued tokens *)

Definition supported (alg : string) : bool :=
  existsb (String.eqb alg) ["ES256"; "ES384"; "ES512"; "RS256"; "RS384"; "RS512"; "EdDSA"].

Lemma signingMethod_alg ts :
  if supported (ts_algorithm ts) then Alg (signingMethod ts) = ts_algorithm ts
  else Alg (signingMethod ts) = "ES256" /\ ts_algorithm ts <> "ES256".
Proof.
  unfold supported, signingMethod. cbn [existsb].
  destruct (String.eqb_spec (ts_algorithm ts) "ES256") as [->|?]; [done|].
  destruct (String.eqb_spec (ts_algorithm ts) "ES384") as [->|?]; [done|].
  destruct (String.eqb_spec (ts_algorithm ts) "ES512") as [->|?]; [done|].
  destruct (String.eqb_spec (ts_algorithm ts) "RS256") as [->|?]; [done|].
  destruct (String.eqb_spec (ts_algorithm ts) "RS384") as [->|?]; [done|].
  destruct (String.eqb_spec (ts_algorithm ts) "RS512") as [->|?]; [done|].
  by destruct (String.eqb_spec (ts_algorithm ts) "EdDSA") as [->|?].
Qed.

Lemma NewNumericDate_le t : NewNumericDate t <= t.
Proof. unfold NewNumericDate. pose proof (Z.mod_pos_bound t 1000000000). lia. Qed.
Lemma NewNumericDate_gt t : t - 1000000000 < NewNumericDate t.
Proof. unfold NewNumericDate. pose proof (Z.mod_pos_bound t 1000000000). lia. Qed.

(** A request that shows a token. *)
Definition bearer (path token : string) : HttpReq :=
  {| hr_Method := "GET"; hr_Path := path; hr_Header := [("Authorization", "Bearer " +:+ token)];
     hr_Query := []; hr_Cookies := []; hr_Body := ""; hr_TLS := true |}.

Lemma bearer_split token : SplitN2 ("Bearer " +:+ token) " " = ["Bearer"; token].
Proof.
  assert (Index ("Bearer " +:+ token) " " = Some 6%nat) as E by (exact (Index_skip " "%char "Bearer" "" token eq_refl)).
  unfold SplitN2. rewrite E.
  transitivity [stake (String.length "Bearer") ("Bearer" +:+ (" " +:+ token));
                sdrop (String.length "Bearer ") ("Bearer " +:+ token)]; [reflexivity|].
  by rewrite stake_append, sdrop_append.
Qed.

Lemma validate_bearer_token ts now path token :
  validate_bearer ts now (bearer path token) =
  match ParseWithClaims token (keyfunc (ts_algorithm ts) (ts_publicKey ts)) now with
  | Err _ => Refused (writeAuthError "Invalid or expired token")
  | Ok tok => Next (Some (tk_Claims tok, header_str (tk_Header tok) "uid" (cl_Subject (tk_Claims tok)),
                          header_str (tk_Header tok) "role" ""))
  end.
Proof.
  unfold validate_bearer.
  change (first_value (hr_Header (bearer path token)) "Authorization") with ("Bearer " +:+ token).
  rewrite bearer_split. reflexivity.
Qed.

(** A token issued with one of the supported algorithms, and the matching
    keys, is accepted from the moment it is issued until a second before its
    time to live is over, and the API then sees the user's id and role; with
    a configured algorithm of any other name every token the service issues is
    refused. *)
Theorem issued_token_accepted ts user ttl t now path token :
  issueToken ts user ttl t = Ok token ->
  if supported (ts_algorithm ts) then
    jwt_pair (signingMethod ts) (ts_privateKey ts) (ts_publicKey ts) ->
    t <= now <= t + ttl - 1000000000 ->
    validate_bearer ts now (bearer path token) =
      Next (Some (token_claims user t ttl, ui_UserID user, ui_Role user))
  else exists resp, validate_bearer ts now (bearer path token) = Refused resp.
Proof.
  unfold issueToken. destruct (SignedString _ _ _ _) as [signed|err] eqn:ES; [|done]. intros [= ->].
  pose proof (signingMethod_alg ts) as Ha. rewrite validate_bearer_token.
  destruct (supported (ts_algorithm ts)).
  - intros Hp Ht. rewrite (ParseWithClaims_complete _ _ _ _ (ts_publicKey ts) _ _ _ ES); [done|done| |].
    + unfold keyfunc. by rewrite Ha, String.eqb_refl.
    + cbn [token_claims cl_NotBefore cl_ExpiresAt].
      pose proof (NewNumericDate_le t). pose proof (NewNumericDate_gt (t + ttl)). lia.
  - destruct Ha as [Ha Hne].
    assert (is_ok (ParseWithClaims token (keyfunc (ts_algorithm ts) (ts_publicKey ts)) now) = false) as Hf.
    { eapply ParseWithClaims_alg; [exact ES|]. unfold keyfunc. rewrite Ha.
      destruct (String.eqb_spec "ES256" (ts_algorithm ts)); [congruence|done]. }
    destruct (ParseWithClaims _ _ _); [done|by eexists].
Qed.

End Facts.

(** ** A concrete library and runs *)

(** A token is the binary text of its parts and of the key that signed it;
    keys are numbers, and the two keys of a pair are equal. *)
Fixpoint pos_text (p : positive) : string :=
  match p with
  | xH => ""
  | xO p => String "0" (pos_text p)
  | xI p => String "1" (pos_text p)
  end.

Fixpoint text_pos (s : string) : positive :=
  match s with
  | "" => xH
  | String c s => if Ascii.eqb c "1" then xI (text_pos s) else xO (text_pos s)
  end.

Lemma text_pos_text p : text_pos (pos_text p) = p.
Proof. induction p; cbn; congruence. Qed.

Definition method_of (alg : string) : option SigningMethod :=
  find (fun m => String.eqb (Alg m) alg) [ES256; ES384; ES512; RS256; RS384; RS512; EdDSA].

Lemma method_of_Alg m : method_of (Alg m) = Some m.
Proof. by destruct m. Qed.

(** Algorithm, user id, name and role, subject, times, key. *)
Abbreviation toy_parts := (string * (string * string * string) * string * (Z * Z) * nat)%type.

Definition toy_token (alg uid uname role sub : string) (exp nbf : Z) : Token :=
  {| tk_Alg := alg; tk_Header := [("uid", VStr uid); ("uname", VStr uname); ("role", VStr role)];
     tk_Claims := {| cl_Issuer := "flowgent"; cl_Subject := sub; cl_Audience := ["flowgent"];
                     cl_ExpiresAt := exp; cl_IssuedAt := nbf; cl_NotBefore := nbf |} |}.

Definition toy_sign (m : SigningMethod) (hdr : gomap) (cl : RegisteredClaims) (priv : nat) : res string :=
  match hdr, cl_Audience cl with
  | [(k1, VStr uid); (k2, VStr uname); (k3, VStr role)], [aud] =>
      if String.eqb k1 "uid" && String.eqb k2 "uname" && String.eqb k3 "role" && String.eqb aud "flowgent" &&
         String.eqb (cl_Issuer cl) "flowgent" && Z.eqb (cl_IssuedAt cl) (cl_NotBefore cl)
      then Ok (pos_text (encode ((Alg m, (uid, uname, role), cl_Subject cl,
                                  (cl_ExpiresAt cl, cl_NotBefore cl), priv) : toy_parts)))
      else Err "unsupported claims"
  | _, _ => Err "unsupported header"
  end.

Definition toy_parse (s : string) (kf : string -> res nat) (now : Z) : res Token :=
  match (decode (text_pos s) : option toy_parts) with
  | None => Err "malformed"
  | Some (alg, (uid, uname, role), sub, (exp, nbf), key) =>
      let? pub := kf alg in
      if Nat.eqb pub key && (nbf <=? now) && (now <? exp)
      then Ok (toy_token alg uid uname role sub exp nbf)
      else Err "invalid"
  end.

#[export] Instance toy_jwt : JWT nat nat := {| SignedString := toy_sign; ParseWithClaims := toy_parse |}.

Lemma toy_sign_inv m hdr cl priv s :
  toy_sign m hdr cl priv = Ok s ->
  exists uid uname role,
    {| tk_Alg := Alg m; tk_Header := hdr; tk_Claims := cl |} =
      toy_token (Alg m) uid uname role (cl_Subject cl) (cl_ExpiresAt cl) (cl_NotBefore cl) /\
    (decode (text_pos s) : option toy_parts) =
      Some (Alg m, (uid, uname, role), cl_Subject cl, (cl_ExpiresAt cl, cl_NotBefore cl), priv).
Proof.
  unfold toy_sign. intros Hs. repeat (case_match; try discriminate). simplify_eq.
  repeat match goal with H : _ && _ = true |- _ => apply andb_true_iff in H as [H ?%String.eqb_eq] || apply andb_true_iff in H as [H ?%Z.eqb_eq] end.
  repeat match goal with H : String.eqb _ _ = true |- _ => apply String.eqb_eq in H end. subst.
  destruct cl as [iss sub aud exp iat nbf]. cbn in *. subst.
  eexists _, _, _. split; [reflexivity|]. rewrite text_pos_text. apply decode_encode.
Qed.

#[export] Instance toy_jwt_laws : JWTLaws nat nat.
Proof.
  refine {| jwt_signed := fun s tok pub =>
              exists uid uname role sub exp nbf, tok = toy_token (tk_Alg tok) uid uname role sub exp nbf /\
                (decode (text_pos s) : option toy_parts) =
                  Some (tk_Alg tok, (uid, uname, role), sub, (exp, nbf), pub);
            jwt_pair := fun _ priv pub => priv = pub |}.
  - intros s kf now tok. cbn. unfold toy_parse.
    destruct (decode (text_pos s)) as [[[[[alg [[uid uname] role]] sub] [exp nbf]] key]|] eqn:ED; [|done].
    destruct (kf alg) as [pub|] eqn:EK; cbn [res_bind]; [|done].
    destruct (Nat.eqb pub key && (nbf <=? now) && (now <? exp)) eqn:EB; [|done]. intros [= <-].
    apply andb_true_iff in EB as [[Hk%Nat.eqb_eq Hn%Z.leb_le]%andb_true_iff He%Z.ltb_lt]. subst pub.
    exists key. split; [done|]. split; [|done]. by exists uid, uname, role, sub, exp, nbf.
  - intros m hdr cl priv pub s kf now Hs <- Hk Ht. cbn in *. apply toy_sign_inv in Hs as (uid & uname & role & -> & ED).
    unfold toy_parse. rewrite ED, Hk. cbn [res_bind]. rewrite Nat.eqb_refl. cbn [andb].
    destruct (Z.leb_spec (cl_NotBefore cl) now); [|lia]. by destruct (Z.ltb_spec now (cl_ExpiresAt cl)); [|lia].
  - intros m hdr cl priv s kf now Hs Hk. cbn in *. apply toy_sign_inv in Hs as (uid & uname & role & _ & ED).
    unfold toy_parse. rewrite ED. by destruct (kf (Alg m)).
Defined.

Definition demo_ts (alg : string) : TokenService nat nat :=
  {| ts_algorithm := alg; ts_privateKey := 7%nat; ts_publicKey := 7%nat;
     ts_akValidity := 3600 * 1000000000; ts_rkValidity := 86400 * 1000000000 |}.

Definition demo_user : UserInfo :=
  {| ui_UserID := "u1"; ui_Username := "ann"; ui_Email := ""; ui_DisplayName := "Ann"; ui_Role := "admin";
     ui_Groups := []; ui_Extra := [] |}.

Lemma issued_token_accepted_witness :
  exists token, IssueAccessToken (demo_ts "RS256") demo_user 5000000000 = Ok token /\
    validate_bearer (demo_ts "RS256") 6000000000 (bearer "/api/v1/flows" token) =
      Next (Some (token_claims demo_user 5000000000 (3600 * 1000000000), "u1", "admin")).
Proof.
  eexists. split; [reflexivity|].
  apply (issued_token_accepted (demo_ts "RS256") demo_user (3600 * 1000000000) 5000000000);
    [reflexivity|reflexivity|cbn; lia].
Defined.

(** The refresh token is accepted wherever an access token is: nothing in it
    tells the two apart. *)
Lemma refresh_token_authorises :
  exists token, IssueRefreshToken (demo_ts "ES256") demo_user 0 = Ok token /\
    exists ctx, validate_bearer (demo_ts "ES256") (80000 * 1000000000) (bearer "/api/v1/flows" token) = Next (Some ctx).
Proof. eexists. split; [reflexivity|]. vm_compute. by eexists. Qed.

(** An algorithm the service does not know signs with ES256 and is refused by
    name. *)
Lemma unknown_algorithm_refused :
  exists token, IssueAccessToken (demo_ts "PS256") demo_user 0 = Ok token /\
    exists resp, validate_bearer (demo_ts "PS256") 1 (bearer "/api/v1/flows" token) = Refused resp.
Proof. eexists. split; [reflexivity|]. vm_compute. by eexists. Qed.

(** ["/api/**"] opens ["/apix"] too: the prefix is not ended by a slash. *)
Lemma glob_opens_sibling : matchGlob "/api/**" "/apix/secret" = true.
Proof. vm_compute. reflexivity. Qed.
