(* ===== verification/Ldap.v ===== *)
(** * LDAP logins

    [pkg/api/pkg/auth/ldap/ldap_auth.go]: a login binds with the service
    account, searches the user in the configured domains, binds again with the
    user's password, and reads groups and role.  The directory is an
    environment that sees the operations made on the connection so far. *)

From S2P Require Export Auth Executors AuthFacts.
From Stdlib Require Import Ascii.

Local Open Scope string_scope.
Local Open Scope list_scope.
Local Open Scope Z_scope.

(** ** Configuration and directory *)

Record LDAPDomainConfig := { ld_BaseDN : string; ld_UserSearchFilter : string }.
Record LDAPRoleMapping := { lr_Match : string; lr_Role : string }.

Record LDAPConfig := {
  lc_Enabled : bool; lc_BaseDN : string; lc_UserDN : string; lc_Password : string;
  lc_Domains : list LDAPDomainConfig; lc_RoleMapping : list LDAPRoleMapping;
  lc_UserSearchFilter : string; lc_UsernameAttribute : string; lc_EmailAttribute : string;
  lc_DisplayNameAttribute : string; lc_GroupSearchBase : string; lc_GroupSearchFilter : string;
  lc_GroupNameAttribute : string; lc_UserAttrMapping : list (string * string);
}.

Record SearchRequest := {
  sr_BaseDN : string; sr_Scope : Z; sr_Filter : string; sr_Attributes : list string;
  sr_SizeLimit : Z; sr_TimeLimit : Z;
}.

Record ldapEntry := { le_DN : string; le_Attributes : list (string * list string) }.

Definition ScopeWholeSubtree : Z := 2.

Inductive ldap_op :=
| LBind (dn password : string)
| LSearch (req : SearchRequest).

(** The directory: the answer to every operation after those before it. *)
Record Directory := {
  dir_dial : option string;
  dir_bind : list ldap_op -> string -> string -> option string;
  dir_search : list ldap_op -> SearchRequest -> res (list ldapEntry);
}.

(** ** Helpers *)

Definition getAttr (entry : option ldapEntry) (name fallback : string) : string :=
  match entry with
  | None => fallback
  | Some e => match mget name (le_Attributes e) with
              | Some (v :: _) => v
              | _ => fallback
              end
  end.

(** The escapes of RFC 4515. *)
Definition escape_char (c : ascii) : string :=
  if Ascii.eqb c "*" then "\2a"
  else if Ascii.eqb c "(" then "\28"
  else if Ascii.eqb c ")" then "\29"
  else if Ascii.eqb c "\" then "\5c"
  else if Ascii.eqb c zero then "\00"
  else String c "".

Fixpoint escapeFilter (s : string) : string :=
  match s with
  | "" => ""
  | String c s' => escape_char c +:+ escapeFilter s'
  end.

(** [fmt.Sprintf(format, arg)] for the verbs [%s] and [%%]. *)
Fixpoint Sprintf1 (format arg : string) (used : bool) : string :=
  match format with
  | "" => if used then "" else "%!(EXTRA string=" +:+ arg +:+ ")"
  | String c f =>
      if Ascii.eqb c "%" then
        match f with
        | "" => "%!(NOVERB)" +:+ (if used then "" else "%!(EXTRA string=" +:+ arg +:+ ")")
        | String v f' =>
            if Ascii.eqb v "%" then "%" +:+ Sprintf1 f' arg used
            else if Ascii.eqb v "s" && negb used then arg +:+ Sprintf1 f' arg true
            else if used then "%!" +:+ String v "(MISSING)" +:+ Sprintf1 f' arg used
            else "%!" +:+ String v "(string=" +:+ arg +:+ ")" +:+ Sprintf1 f' arg true
        end
      else String c (Sprintf1 f arg used)
  end.

Definition or_def (s default : string) : string := if String.eqb s "" then default else s.

Definition usernameAttribute (cfg : LDAPConfig) := or_def (lc_UsernameAttribute cfg) "cn".
Definition emailAttribute (cfg : LDAPConfig) := or_def (lc_EmailAttribute cfg) "mail".
Definition displayNameAttribute (cfg : LDAPConfig) := or_def (lc_DisplayNameAttribute cfg) "cn".
Definition groupNameAttribute (cfg : LDAPConfig) := or_def (lc_GroupNameAttribute cfg) "cn".
Definition userSearchFilter (cfg : LDAPConfig) := or_def (lc_UserSearchFilter cfg) "(cn=%s)".
Definition groupSearchFilter (cfg : LDAPConfig) := or_def (lc_GroupSearchFilter cfg) "(member=%s)".

Definition domains (cfg : LDAPConfig) : list LDAPDomainConfig :=
  match lc_Domains cfg with
  | _ :: _ => lc_Domains cfg
  | [] => if String.eqb (lc_BaseDN cfg) "" then []
          else [{| ld_BaseDN := lc_BaseDN cfg; ld_UserSearchFilter := userSearchFilter cfg |}]
  end.

(** The attributes asked for: the mapped ones, each once and never ["dn"], in
    the order of the loop over the mapping. *)
Definition userAttrList (cfg : LDAPConfig) : list string :=
  match lc_UserAttrMapping cfg with
  | [] => ["cn"; "mail"; "displayName"; "memberOf"]
  | _ :: _ =>
      (fold_left (fun (acc : list string * list string) kv =>
         if negb (String.eqb kv.2 "") && negb (existsb (String.eqb kv.2) acc.1)
         then (kv.2 :: acc.1, acc.2 ++ [kv.2]) else acc)
       (lc_UserAttrMapping cfg) (["dn"], [])).2
  end.

(** ** Groups and roles *)

Definition resolveRole (cfg : LDAPConfig) (groups : list string) (matchedDomain : string) : string :=
  match find (fun m => existsb (fun g => String.eqb g (lr_Match m)) groups ||
                       negb (String.eqb matchedDomain "") && String.eqb (lr_Match m) matchedDomain)
             (lc_RoleMapping cfg) with
  | Some m => lr_Role m
  | None => ""
  end.

Definition buildUserInfo (cfg : LDAPConfig) (entry : option ldapEntry) (username domain : string) : UserInfo :=
  let uid := getAttr entry (usernameAttribute cfg) username in
  {| ui_UserID := or_def uid username;
     ui_Username := or_def uid username;
     ui_Email := getAttr entry (emailAttribute cfg) "";
     ui_DisplayName := getAttr entry (displayNameAttribute cfg) username;
     ui_Role := ""; ui_Groups := [];
     ui_Extra := fold_left (fun m kv =>
       if String.eqb kv.1 "" || String.eqb kv.2 "" then m
       else let val := getAttr entry kv.2 "" in
            if String.eqb val "" then m else mset kv.1 (VStr val) m)
       (lc_UserAttrMapping cfg) [] |}.

Definition user_search (cfg : LDAPConfig) (username : string) (d : LDAPDomainConfig) : SearchRequest :=
  {| sr_BaseDN := ld_BaseDN d; sr_Scope := ScopeWholeSubtree;
     sr_Filter := Sprintf1 (ld_UserSearchFilter d) (escapeFilter username) false;
     sr_Attributes := [usernameAttribute cfg; emailAttribute cfg; displayNameAttribute cfg; "dn"]
                      ++ userAttrList cfg;
     sr_SizeLimit := 1; sr_TimeLimit := 10 |}.

(** The loop over the domains: an error or an empty answer goes on. *)
Fixpoint search_domains (cfg : LDAPConfig) (dir : Directory) (username : string)
    (ds : list LDAPDomainConfig) (tr : list ldap_op) : option (ldapEntry * string) * list ldap_op :=
  match ds with
  | [] => (None, tr)
  | d :: ds' =>
      let req := user_search cfg username d in
      let tr' := tr ++ [LSearch req] in
      match dir_search dir tr req with
      | Ok (e :: _) => (Some (e, ld_BaseDN d), tr')
      | _ => search_domains cfg dir username ds' tr'
      end
  end.

Definition searchUser (cfg : LDAPConfig) (dir : Directory) (username : string) (tr : list ldap_op)
    : res (ldapEntry * string) * list ldap_op :=
  match search_domains cfg dir username (domains cfg) tr with
  | (Some r, tr') => (Ok r, tr')
  | (None, tr') =>
      (Err (match domains cfg with
            | [] => "ldap: no domains configured"
            | _ :: _ => "ldap: user not found in any domain: " +:+ username
            end), tr')
  end.

Definition resolveGroups (cfg : LDAPConfig) (dir : Directory) (userDN : string) (tr : list ldap_op)
    : list string * list ldap_op :=
  if String.eqb (lc_GroupSearchBase cfg) "" then ([], tr)
  else
    let req := {| sr_BaseDN := lc_GroupSearchBase cfg; sr_Scope := ScopeWholeSubtree;
                  sr_Filter := Sprintf1 (groupSearchFilter cfg) (escapeFilter userDN) false;
                  sr_Attributes := [groupNameAttribute cfg]; sr_SizeLimit := 0; sr_TimeLimit := 10 |} in
    (match dir_search dir tr req with
     | Err _ => []
     | Ok entries =>
         omap (fun e => let name := getAttr (Some e) (groupNameAttribute cfg) "" in
                        if String.eqb name "" then None else Some name) entries
     end, tr ++ [LSearch req]).

(** ** Logging in *)

Definition with_groups (u : UserInfo) (groups : list string) (role : string) : UserInfo :=
  {| ui_UserID := ui_UserID u; ui_Username := ui_Username u; ui_Email := ui_Email u;
     ui_DisplayName := ui_DisplayName u; ui_Role := role; ui_Groups := groups; ui_Extra := ui_Extra u |}.

Definition authenticate (cfg : LDAPConfig) (dir : Directory) (username password : string)
    : res UserInfo * list ldap_op :=
  match dir_dial dir with
  | Some err => (Err ("ldap: dial: " +:+ err), [])
  | None =>
      let tr1 := [LBind (lc_UserDN cfg) (lc_Password cfg)] in
      match dir_bind dir [] (lc_UserDN cfg) (lc_Password cfg) with
      | Some err => (Err ("ldap: service bind: " +:+ err), tr1)
      | None =>
          match searchUser cfg dir username tr1 with
          | (Err err, tr2) => (Err err, tr2)
          | (Ok (entry, matchedDomain), tr2) =>
              let tr3 := tr2 ++ [LBind (le_DN entry) password] in
              match dir_bind dir tr2 (le_DN entry) password with
              | Some err => (Err ("ldap: user bind: " +:+ err), tr3)
              | None =>
                  let user := buildUserInfo cfg (Some entry) username matchedDomain in
                  let (groups, tr4) := resolveGroups cfg dir (le_DN entry) tr3 in
                  (Ok (with_groups user groups (resolveRole cfg groups matchedDomain)), tr4)
              end
          end
      end
  end.

(** The body decoded as JSON ([None]: not decodable), and the check that both
    fields are given. *)
Definition parseCredentials (body : option (string * string)) : res (string * string) :=
  match body with
  | None => Err "invalid body"
  | Some (u, p) =>
      if String.eqb u "" || String.eqb p "" then Err "username and password are required" else Ok (u, p)
  end.

Definition failure_body (msg : string) : string :=
  "{" +:+ Quote "success" +:+ ":false," +:+ Quote "message" +:+ ":" +:+ Quote msg +:+ "}".

Definition login_body (accessToken refreshToken : string) (user : UserInfo) : string :=
  let field k v := Quote k +:+ ":" +:+ Quote v in
  "{" +:+ Quote "success" +:+ ":true," +:+ field "access_token" accessToken +:+ "," +:+
  field "refresh_token" refreshToken +:+ "," +:+ Quote "user" +:+ ":{" +:+
  field "id" (ui_UserID user) +:+ "," +:+ field "username" (ui_Username user) +:+ "," +:+
  field "email" (ui_Email user) +:+ "," +:+ field "display_name" (ui_DisplayName user) +:+ "," +:+
  field "role" (ui_Role user) +:+ "}}".

Section Login.
Context {Priv Pub : Type} `{JWT Priv Pub}.

Definition ldap_handleLogin (cfg : LDAPConfig) (ts : TokenService Priv Pub) (dir : Directory) (now : Z)
    (body : option (string * string)) : HttpResp * list ldap_op :=
  match parseCredentials body with
  | Err _ => (WriteJSON 400 (failure_body "Invalid request: username and password required"), [])
  | Ok (username, password) =>
      match authenticate cfg dir username password with
      | (Err _, tr) => (WriteJSON 401 (failure_body "LDAP authentication failed"), tr)
      | (Ok user, tr) =>
          match IssueAccessToken ts user now with
          | Err _ => (WriteJSON 500 (failure_body "Token generation failed"), tr)
          | Ok accessToken =>
              let refreshToken := match IssueRefreshToken ts user now with Ok t => t | Err _ => "" end in
              (WriteJSON 200 (login_body accessToken refreshToken user), tr)
          end
      end
  end.

Definition ldap_service (cfg : LDAPConfig) : AuthProviderService :=
  {| ap_Name := "ldap"; ap_Enabled := lc_Enabled cfg;
     ap_CanHandle := fun r => String.eqb (hr_Path r) "/auth/login/ldap" && String.eqb (hr_Method r) "POST" |}.
End Login.

(** ** Common names of distinguished names *)

(** The first position of ["CN="], in any case. *)
Fixpoint find_cn (dn : string) : option string :=
  match dn with
  | "" => None
  | String c s =>
      match s with
      | String n (String e rest) =>
          if (Ascii.eqb c "C" || Ascii.eqb c "c") && (Ascii.eqb n "N" || Ascii.eqb n "n") && Ascii.eqb e "="
          then Some rest else find_cn s
      | _ => None
      end
  end.

(** The value up to the first comma that is not escaped; a backslash at the
    end moves past the text. *)
Fixpoint cn_value (s : string) : call string :=
  match s with
  | "" => Ret ""
  | String c s' =>
      if Ascii.eqb c "\" then
        match s' with
        | "" => Panic "slice bounds out of range"
        | String d s'' => match cn_value s'' with Ret v => Ret (String c (String d v)) | Panic m => Panic m end
        end
      else if Ascii.eqb c "," then Ret ""
      else match cn_value s' with Ret v => Ret (String c v) | Panic m => Panic m end
  end.

Definition extractCN (dn : string) : call string :=
  match find_cn dn with
  | None => Ret ""
  | Some rest => cn_value rest
  end.

Fixpoint ExtractPermissionsFromMemberOf (memberOf : list string) : call (list string) :=
  match memberOf with
  | [] => Ret []
  | dn :: l =>
      match extractCN dn with
      | Panic m => Panic m
      | Ret cn =>
          match ExtractPermissionsFromMemberOf l with
          | Panic m => Panic m
          | Ret perms => Ret (if String.eqb cn "" then perms else cn :: perms)
          end
      end
  end.

(** * Properties of LDAP logins

    No filter injection, what a successful login proves about the directory,
    and which role a user gets. *)

(** ** Filters *)

(** Decoding of a filter value by RFC 4515. *)
Fixpoint unescapeFilter (s : string) : option string :=
  match s with
  | "" => Some ""
  | String c s' =>
      if Ascii.eqb c "\" then
        match s' with
        | String a (String b s'') =>
            match hex_val a, hex_val b, unescapeFilter s'' with
            | Some x, Some y, Some r => Some (String (ascii_of_N (Z.to_N (16 * x + y))) r)
            | _, _, _ => None
            end
        | _ => None
        end
      else match unescapeFilter s' with Some r => Some (String c r) | None => None end
  end.

(** The characters that structure a filter. *)
Definition filter_special (c : ascii) : bool :=
  Ascii.eqb c "(" || Ascii.eqb c ")" || Ascii.eqb c "*" || Ascii.eqb c zero.

Fixpoint no_special (s : string) : bool :=
  match s with "" => true | String c s' => negb (filter_special c) && no_special s' end.

Lemma no_special_append s t : no_special (s +:+ t) = no_special s && no_special t.
Proof. induction s as [|c s IH]; cbn; [done|]. by rewrite IH, andb_assoc. Qed.

Lemma escape_char_spec c s :
  no_special (escape_char c) = true /\
  unescapeFilter (escape_char c +:+ s) = match unescapeFilter s with Some r => Some (String c r) | None => None end.
Proof.
  unfold escape_char.
  destruct (Ascii.eqb_spec c "*") as [->|?]; [by split; [|cbn; destruct (unescapeFilter s)]|].
  destruct (Ascii.eqb_spec c "(") as [->|?]; [by split; [|cbn; destruct (unescapeFilter s)]|].
  destruct (Ascii.eqb_spec c ")") as [->|?]; [by split; [|cbn; destruct (unescapeFilter s)]|].
  destruct (Ascii.eqb_spec c "\") as [->|Hb]; [by split; [|cbn; destruct (unescapeFilter s)]|].
  destruct (Ascii.eqb_spec c zero) as [->|?]; [by split; [|cbn; destruct (unescapeFilter s)]|].
  split.
  - cbn. unfold filter_special. rewrite andb_true_r, negb_true_iff, !orb_false_iff, !Ascii.eqb_neq. done.
  - change (String c "" +:+ s) with (String c s). cbn [unescapeFilter].
    by destruct (Ascii.eqb_spec c "\").
Qed.

Lemma escapeFilter_spec s : no_special (escapeFilter s) = true /\ unescapeFilter (escapeFilter s) = Some s.
Proof.
  induction s as [|c s [IH1 IH2]]; [done|]. cbn [escapeFilter].
  destruct (escape_char_spec c (escapeFilter s)) as [H1 H2].
  rewrite no_special_append, H1, IH1, H2, IH2. done.
Qed.

Lemma Sprintf1_used f arg : no_char "%" f = true -> Sprintf1 f arg true = f.
Proof.
  induction f as [|c f IH]; cbn; [done|]. intros [Hc%negb_true_iff Hf]%andb_true_iff.
  rewrite Ascii.eqb_sym in Hc. first [rewrite Hc | rewrite Ascii.eqb_sym, Hc]. by rewrite IH.
Qed.

Lemma Sprintf1_once pre post arg :
  no_char "%" pre = true -> no_char "%" post = true ->
  Sprintf1 (pre +:+ "%s" +:+ post) arg false = pre +:+ arg +:+ post.
Proof.
  intros Hpre Hpost. induction pre as [|c pre IH].
  - change ("" +:+ "%s" +:+ post) with (String "%" (String "s" post)). cbn [Sprintf1 Ascii.eqb Bool.eqb andb negb].
    by rewrite Sprintf1_used.
  - cbn in Hpre. apply andb_true_iff in Hpre as [Hc%negb_true_iff Hpre].
    change (String c pre +:+ "%s" +:+ post) with (String c (pre +:+ "%s" +:+ post)). cbn [Sprintf1].
    first [rewrite Hc | rewrite Ascii.eqb_sym, Hc]. by rewrite IH.
Qed.

(** With a configured filter that mentions its argument once, the filter
    sent for a user name is the configured text around an encoding of the
    name that has no parenthesis, star or NUL of its own and that decodes to
    exactly the name: no name can change the structure of the search. *)
Theorem search_filter_safe cfg username base pre post :
  no_char "%" pre = true -> no_char "%" post = true ->
  let d := {| ld_BaseDN := base; ld_UserSearchFilter := pre +:+ "%s" +:+ post |} in
  exists value, sr_Filter (user_search cfg username d) = pre +:+ value +:+ post /\
    no_special value = true /\ unescapeFilter value = Some username.
Proof.
  intros Hpre Hpost d. exists (escapeFilter username). split; [by apply Sprintf1_once|].
  apply escapeFilter_spec.
Qed.

Lemma search_filter_safe_witness :
  exists value, sr_Filter (user_search {| lc_Enabled := true; lc_BaseDN := ""; lc_UserDN := ""; lc_Password := "";
      lc_Domains := []; lc_RoleMapping := []; lc_UserSearchFilter := ""; lc_UsernameAttribute := "";
      lc_EmailAttribute := ""; lc_DisplayNameAttribute := ""; lc_GroupSearchBase := ""; lc_GroupSearchFilter := "";
      lc_GroupNameAttribute := ""; lc_UserAttrMapping := [] |} "*)(uid=admin"
      {| ld_BaseDN := "dc=x"; ld_UserSearchFilter := "(cn=" +:+ "%s" +:+ ")" |}) = "(cn=" +:+ value +:+ ")" /\
    no_special value = true /\ unescapeFilter value = Some "*)(uid=admin".
Proof. apply (search_filter_safe _ _ "dc=x" "(cn=" ")"); reflexivity. Defined.

(** ** Logins *)

Lemma search_domains_some cfg dir u ds tr e base tr' :
  search_domains cfg dir u ds tr = (Some (e, base), tr') ->
  exists d searched, d ∈ ds /\ base = ld_BaseDN d /\
    tr' = searched ++ [LSearch (user_search cfg u d)] /\
    (exists rest, dir_search dir searched (user_search cfg u d) = Ok (e :: rest)) /\
    exists more, searched = tr ++ more /\ Forall (fun op => exists d', op = LSearch (user_search cfg u d')) more.
Proof.
  induction ds as [|d ds IH] in tr |- *; cbn; [done|].
  destruct (dir_search dir tr (user_search cfg u d)) as [[|e0 l]|err] eqn:E.
  1,3: intros H; apply IH in H as (d' & searched & Hd & Hb & Ht & Hs & more & -> & Hm);
    exists d', ((tr ++ [LSearch (user_search cfg u d)]) ++ more);
    split_and!; [by right|done|done|done|];
    eexists; split; [rewrite <- app_assoc; reflexivity|]; constructor; [by eexists|done].
  intros [= -> <- <-]. exists d, tr. split_and!; [by left|done|done|by eexists|].
  exists []. by rewrite app_nil_r.
Qed.

(** The role of the first mapping whose match is one of the groups or the
    domain. *)
Definition role_matches (groups : list string) (domain : string) (m : LDAPRoleMapping) : Prop :=
  lr_Match m ∈ groups \/ (domain <> "" /\ lr_Match m = domain).

Definition mapped_role (cfg : LDAPConfig) (groups : list string) (domain role : string) : Prop :=
  (exists before m after, lc_RoleMapping cfg = before ++ m :: after /\
     Forall (fun m' => ~ role_matches groups domain m') before /\
     role_matches groups domain m /\ role = lr_Role m) \/
  (Forall (fun m => ~ role_matches groups domain m) (lc_RoleMapping cfg) /\ role = "").

Lemma resolveRole_spec cfg groups domain : mapped_role cfg groups domain (resolveRole cfg groups domain).
Proof.
  unfold mapped_role, resolveRole.
  set (f := fun m => existsb (fun g => String.eqb g (lr_Match m)) groups ||
                     negb (String.eqb domain "") && String.eqb (lr_Match m) domain).
  assert (forall m, f m = true <-> role_matches groups domain m) as Hf.
  { intros m. unfold f, role_matches.
    rewrite orb_true_iff, andb_true_iff, negb_true_iff, String.eqb_neq, String.eqb_eq, existsb_exists.
    setoid_rewrite <- list_elem_of_In. setoid_rewrite String.eqb_eq. naive_solver. }
  induction (lc_RoleMapping cfg) as [|m l IH]; cbn [find].
  - right. split; [constructor|done].
  - destruct (f m) eqn:E.
    + left. exists [], m, l. split_and!; [done|constructor|by apply Hf|done].
    + assert (~ role_matches groups domain m) as Hn by (rewrite <- Hf; congruence).
      destruct IH as [(b & m0 & a & -> & Hb & Hm & Hr)|[Hall Hr]].
      * left. exists (m :: b), m0, a. split_and!; [done|by constructor|done|done].
      * right. split; [by constructor|done].
Qed.

Section Login.
Context {Priv Pub : Type} `{JWT Priv Pub}.


End Login.

(** A directory with one user, and its login. *)
Definition demo_ldap : LDAPConfig := {|
  lc_Enabled := true; lc_BaseDN := "dc=x"; lc_UserDN := "cn=svc"; lc_Password := "s"; lc_Domains := [];
  lc_RoleMapping := [{| lr_Match := "admins"; lr_Role := "admin" |}; {| lr_Match := "dc=x"; lr_Role := "viewer" |}];
  lc_UserSearchFilter := ""; lc_UsernameAttribute := ""; lc_EmailAttribute := ""; lc_DisplayNameAttribute := "";
  lc_GroupSearchBase := "ou=groups"; lc_GroupSearchFilter := ""; lc_GroupNameAttribute := "";
  lc_UserAttrMapping := [] |}.

Definition demo_dir : Directory := {|
  dir_dial := None;
  dir_bind := fun _ dn pw => if String.eqb dn "cn=svc" && String.eqb pw "s" || String.eqb dn "cn=ann" && String.eqb pw "pw"
                             then None else Some "invalid credentials";
  dir_search := fun _ req =>
    if String.eqb (sr_Filter req) "(cn=ann)" then Ok [{| le_DN := "cn=ann"; le_Attributes := [("cn", ["ann"])] |}]
    else if String.eqb (sr_Filter req) "(member=cn=ann)"
    then Ok [{| le_DN := "cn=admins"; le_Attributes := [("cn", ["admins"])] |}] else Ok [] |}.


(** The answer of a login is text around the attributes of the directory: a
    display name with a quote makes it no JSON at all. *)
Lemma login_body_not_json :
  Unmarshal (login_body "a" "r" {| ui_UserID := "u"; ui_Username := "u"; ui_Email := "";
    ui_DisplayName := "Ann " +:+ Quote "A" ; ui_Role := ""; ui_Groups := []; ui_Extra := [] |}) = None.
Proof. vm_compute. reflexivity. Qed.

(** A value that ends in a backslash runs past the end of the text. *)
Lemma extractCN_panics : extractCN "CN=a\" = Panic "slice bounds out of range" /\ extractCN "OU=x,cn=Ops\,EU,DC=y" = Ret "Ops\,EU".
Proof. split; reflexivity. Qed.
