(* ===== verification/Oidc.v ===== *)
(** * OpenID Connect logins

    [pkg/api/pkg/auth/oidc/oidc_auth.go] and [oidc_client.go]: the redirect to
    the provider, the callback with its state check, the exchange of the code
    and the identity taken from the ID token or from the userinfo endpoint.
    The provider is an environment that sees the requests made so far. *)

From S2P Require Export Auth AuthFacts.
From Stdlib Require Import Ascii.

Local Open Scope string_scope.
Local Open Scope list_scope.
Local Open Scope Z_scope.

Record OIDCConfig := {
  oc_Enabled : bool; oc_ClientID : string; oc_ClientSecret : string; oc_IssueURL : string;
  oc_RedirectURL : string; oc_Scope : string;
}.

(** ** Texts *)

(** [strings.TrimRight(s, "/")] *)
Fixpoint trim_slashes (s : string) : string :=
  match s with
  | "" => ""
  | String c s' =>
      match trim_slashes s' with
      | "" => if Ascii.eqb c "/" then "" else String c ""
      | t => String c t
      end
  end.

Definition hexdigit (n : nat) : ascii := ascii_of_nat (if (n <? 10)%nat then 48 + n else 55 + n).

Definition unreserved (c : ascii) : bool :=
  let n := nat_of_ascii c in
  ((48 <=? n) && (n <=? 57) || (65 <=? n) && (n <=? 90) || (97 <=? n) && (n <=? 122))%nat ||
  Ascii.eqb c "-" || Ascii.eqb c "_" || Ascii.eqb c "." || Ascii.eqb c "~".

(** [url.QueryEscape] *)
Fixpoint QueryEscape (s : string) : string :=
  match s with
  | "" => ""
  | String c s' =>
      if unreserved c then String c (QueryEscape s')
      else if Ascii.eqb c " " then String "+" (QueryEscape s')
      else let n := nat_of_ascii c in
           String "%" (String (hexdigit (n / 16)) (String (hexdigit (n mod 16)) (QueryEscape s')))
  end.

(** The value of a character of the URL alphabet of base64. *)
Definition b64_val (c : ascii) : option Z :=
  let n := Z.of_nat (nat_of_ascii c) in
  if (65 <=? n) && (n <=? 90) then Some (n - 65)
  else if (97 <=? n) && (n <=? 122) then Some (n - 71)
  else if (48 <=? n) && (n <=? 57) then Some (n + 4)
  else if Ascii.eqb c "-" then Some 62
  else if Ascii.eqb c "_" then Some 63
  else None.

Definition byte_of (z : Z) : ascii := ascii_of_N (Z.to_N (z mod 256)).

(** The bits still to be written: [n] sextets of [acc]. *)
Fixpoint b64_go (s : string) (n : nat) (acc : Z) : option string :=
  match s with
  | "" =>
      match n with
      | 0%nat => Some ""
      | 2%nat => Some (String (byte_of (Z.shiftr acc 4)) "")
      | 3%nat => Some (String (byte_of (Z.shiftr acc 10)) (String (byte_of (Z.shiftr acc 2)) ""))
      | _ => None
      end
  | String c s' =>
      if Ascii.eqb c "010" || Ascii.eqb c "013" then b64_go s' n acc
      else match b64_val c with
           | None => None
           | Some v =>
               let acc' := Z.lor (Z.shiftl acc 6) v in
               if Nat.eqb n 3
               then match b64_go s' 0 0 with
                    | Some r => Some (String (byte_of (Z.shiftr acc' 16))
                                       (String (byte_of (Z.shiftr acc' 8)) (String (byte_of acc') r)))
                    | None => None
                    end
               else b64_go s' (S n) acc'
           end
  end.

(** [base64.RawURLEncoding.DecodeString] *)
Definition RawURLDecode (s : string) : option string := b64_go s 0 0.

(** [strings.Split(s, ".")] *)
Fixpoint split_dot (s : string) : list string :=
  match s with
  | "" => [""]
  | String c s' =>
      if Ascii.eqb c "." then "" :: split_dot s'
      else match split_dot s' with p :: ps => String c p :: ps | [] => [String c ""] end
  end.

(** [decodeJWTBody]: the claims of a token, its signature not looked at; a
    [null] payload is a nil map. *)
Definition decodeJWTBody (token : string) : res gomap :=
  match split_dot token with
  | _ :: body :: _ =>
      match RawURLDecode body with
      | None => Err "decode JWT payload"
      | Some decoded =>
          match UnmarshalObject decoded with
          | Some (Some m) => Ok m
          | Some None => Ok []
          | None => Err "unmarshal"
          end
      end
  | _ => Err "invalid JWT format"
  end.

(** [json.NewDecoder(body).Decode(&m)]: the first value of the text. *)
Definition DecodeObject (s : string) : option gomap :=
  match parse_value (S (String.length s)) s with
  | Some (VMap m, _) => Some m
  | Some (VNil, _) => Some []
  | _ => None
  end.

(** [m[k].(string)] *)
Definition str_field (m : gomap) (k : string) : option string :=
  match mget k m with Some (VStr v) => Some v | _ => None end.

(** ** The provider *)

Record OReq := { or_Method : string; or_URL : string; or_Auth : string; or_Form : string }.
Record OResp := { os_Status : Z; os_Body : string }.

(** [p_valid] is the check of a URL by [http.NewRequest]. *)
Record Provider := {
  p_valid : string -> option string;
  p_do : list OReq -> OReq -> res OResp;
}.

(** One HTTP exchange. *)
Definition odo (p : Provider) (r : OReq) (tr : list OReq) : res OResp * list OReq :=
  (p_do p tr r, tr ++ [r]).

Definition plain_get (url : string) : OReq :=
  {| or_Method := "GET"; or_URL := url; or_Auth := ""; or_Form := "" |}.

Definition discoverEndpoint (p : Provider) (issuerURL key : string) (tr : list OReq)
    : res string * list OReq :=
  let wellKnown := issuerURL +:+ "/.well-known/openid-configuration" in
  match p_valid p wellKnown with
  | Some err => (Err err, tr)
  | None =>
      let (r, tr') := odo p (plain_get wellKnown) tr in
      match r with
      | Err err => (Err ("fetch discovery doc: " +:+ err), tr')
      | Ok resp =>
          if negb (os_Status resp =? 200)
          then (Err ("discovery doc returned status " +:+ Itoa (os_Status resp)), tr')
          else match DecodeObject (os_Body resp) with
               | None => (Err "decode discovery doc", tr')
               | Some discovery =>
                   match str_field discovery key with
                   | Some endpoint =>
                       if String.eqb endpoint "" then (Err ("no " +:+ key +:+ " in discovery doc"), tr')
                       else (Ok endpoint, tr')
                   | None => (Err ("no " +:+ key +:+ " in discovery doc"), tr')
                   end
               end
      end
  end.

(** The two random texts are arguments. *)
Definition buildAuthURL (cfg : OIDCConfig) (p : Provider) (state nonce : string) (tr : list OReq)
    : res (string * string) * list OReq :=
  let (r, tr') := discoverEndpoint p (trim_slashes (oc_IssueURL cfg)) "authorization_endpoint" tr in
  match r with
  | Err err => (Err err, tr')
  | Ok authEndpoint =>
      (Ok (authEndpoint +:+ "?response_type=code&client_id=" +:+ QueryEscape (oc_ClientID cfg) +:+
           "&redirect_uri=" +:+ QueryEscape (oc_RedirectURL cfg) +:+ "&scope=" +:+ QueryEscape (oc_Scope cfg) +:+
           "&state=" +:+ QueryEscape state +:+ "&nonce=" +:+ QueryEscape nonce, state), tr')
  end.

(** [url.Values.Encode]: the keys in order. *)
Definition token_form (cfg : OIDCConfig) (code : string) : string :=
  "client_id=" +:+ QueryEscape (oc_ClientID cfg) +:+ "&client_secret=" +:+ QueryEscape (oc_ClientSecret cfg) +:+
  "&code=" +:+ QueryEscape code +:+ "&grant_type=authorization_code&redirect_uri=" +:+
  QueryEscape (oc_RedirectURL cfg).

Definition exchangeCode (cfg : OIDCConfig) (p : Provider) (code : string) (tr : list OReq)
    : res gomap * list OReq :=
  let (r, tr1) := discoverEndpoint p (trim_slashes (oc_IssueURL cfg)) "token_endpoint" tr in
  match r with
  | Err err => (Err err, tr1)
  | Ok tokenEndpoint =>
      match p_valid p tokenEndpoint with
      | Some err => (Err err, tr1)
      | None =>
          let (r, tr2) := odo p {| or_Method := "POST"; or_URL := tokenEndpoint; or_Auth := "";
                                   or_Form := token_form cfg code |} tr1 in
          match r with
          | Err err => (Err ("token request: " +:+ err), tr2)
          | Ok resp =>
              if negb (os_Status resp =? 200)
              then (Err ("token endpoint returned status " +:+ Itoa (os_Status resp) +:+ ": " +:+ os_Body resp), tr2)
              else match UnmarshalObject (os_Body resp) with
                   | None => (Err "decode token response", tr2)
                   | Some m => (Ok (match m with Some m => m | None => [] end), tr2)
                   end
          end
      end
  end.

(** ** Identities *)

Definition no_user : UserInfo :=
  {| ui_UserID := ""; ui_Username := ""; ui_Email := ""; ui_DisplayName := ""; ui_Role := "";
     ui_Groups := []; ui_Extra := [] |}.

Definition or_keep (o : option string) (old : string) : string :=
  match o with Some v => v | None => old end.

(** The identity of ID token claims; the user name falls back to the email. *)
Definition claims_user (claims : gomap) : UserInfo :=
  {| ui_UserID := or_keep (str_field claims "sub") "";
     ui_Username := match str_field claims "preferred_username" with
                    | Some n => n
                    | None => or_keep (str_field claims "email") ""
                    end;
     ui_Email := or_keep (str_field claims "email") "";
     ui_DisplayName := or_keep (str_field claims "name") "";
     ui_Role := ""; ui_Groups := []; ui_Extra := [] |}.

(** What the userinfo answer overrides. *)
Definition userinfo_user (info : gomap) (u : UserInfo) : UserInfo :=
  {| ui_UserID := or_keep (str_field info "sub") (ui_UserID u);
     ui_Username := or_keep (str_field info "preferred_username") (ui_Username u);
     ui_Email := or_keep (str_field info "email") (ui_Email u);
     ui_DisplayName := or_keep (str_field info "name") (ui_DisplayName u);
     ui_Role := ui_Role u; ui_Groups := ui_Groups u; ui_Extra := ui_Extra u |}.

(** The error of [http.NewRequest] for the userinfo endpoint is dropped and
    the nil request used: a panic. *)
Definition fetch_userinfo (cfg : OIDCConfig) (p : Provider) (accessToken : string) (u : UserInfo)
    (tr : list OReq) : option UserInfo * list OReq :=
  let (r, tr1) := discoverEndpoint p (trim_slashes (oc_IssueURL cfg)) "userinfo_endpoint" tr in
  match r with
  | Err _ => (Some u, tr1)
  | Ok endpoint =>
      match p_valid p endpoint with
      | Some _ => (None, tr1)
      | None =>
          let (r, tr2) := odo p {| or_Method := "GET"; or_URL := endpoint;
                                   or_Auth := "Bearer " +:+ accessToken; or_Form := "" |} tr1 in
          match r with
          | Err _ => (Some u, tr2)
          | Ok resp => (Some (match DecodeObject (os_Body resp) with
                              | Some info => userinfo_user info u
                              | None => u
                              end), tr2)
          end
      end
  end.

(** [None]: the handler panics. *)
Definition extractUserInfo (cfg : OIDCConfig) (p : Provider) (tokenResp : gomap) (tr : list OReq)
    : option (res UserInfo) * list OReq :=
  let u := match str_field tokenResp "id_token" with
           | Some idToken => match decodeJWTBody idToken with Ok claims => claims_user claims | Err _ => no_user end
           | None => no_user
           end in
  let (u', tr') :=
    if String.eqb (ui_UserID u) ""
    then match str_field tokenResp "access_token" with
         | Some accessToken => fetch_userinfo cfg p accessToken u tr
         | None => (Some u, tr)
         end
    else (Some u, tr) in
  match u' with
  | None => (None, tr')
  | Some u' =>
      (Some (if String.eqb (ui_UserID u') ""
             then Err "unable to extract user identity from token response" else Ok u'), tr')
  end.

(** ** Handlers *)

Definition fail_json (status : Z) (msg : string) : HttpResp :=
  WriteJSON status ("{" +:+ Quote "success" +:+ ":false," +:+ Quote "message" +:+ ":" +:+ Quote msg +:+ "}").

Section Handlers.
Context {Priv Pub : Type} `{JWT Priv Pub}.

(** A cookie is its name, value and age; the HTML page of the redirect is left
    out. *)
Definition oidc_handleLogin (cfg : OIDCConfig) (p : Provider) (state nonce : string) (tr : list OReq)
    : HttpResp * list OReq :=
  let (r, tr') := buildAuthURL cfg p state nonce tr in
  match r with
  | Err _ => (fail_json 500 "OIDC provider discovery failed", tr')
  | Ok (authURL, state) =>
      ({| hp_Status := 302; hp_Body := ""; hp_Cookies := [("oidc_state", state, 600)]; hp_Location := authURL |}, tr')
  end.

(** The answer with the tokens; [json.Encoder] sorts the keys of maps. *)
Definition token_answer (accessToken refreshToken : string) (user : UserInfo) : any :=
  VMap [("access_token", VStr accessToken); ("refresh_token", VStr refreshToken); ("success", VBool true);
        ("user", VMap [("display_name", VStr (ui_DisplayName user)); ("email", VStr (ui_Email user));
                       ("id", VStr (ui_UserID user)); ("username", VStr (ui_Username user))])].

Definition oidc_handleCallback (cfg : OIDCConfig) (ts : TokenService Priv Pub) (p : Provider) (now : Z)
    (r : HttpReq) (tr : list OReq) : option HttpResp * list OReq :=
  match mget "oidc_state" (hr_Cookies r) with
  | None => (Some (fail_json 400 "Invalid OIDC state parameter"), tr)
  | Some cookie =>
      if negb (String.eqb (first_value (hr_Query r) "state") cookie)
      then (Some (fail_json 400 "Invalid OIDC state parameter"), tr)
      else
        let code := first_value (hr_Query r) "code" in
        if String.eqb code "" then (Some (fail_json 400 "Missing authorization code"), tr)
        else
          let (tokenResp, tr1) := exchangeCode cfg p code tr in
          match tokenResp with
          | Err _ => (Some (fail_json 500 "OIDC token exchange failed"), tr1)
          | Ok tokenResp =>
              let (user, tr2) := extractUserInfo cfg p tokenResp tr1 in
              match user with
              | None => (None, tr2)
              | Some (Err _) => (Some (fail_json 500 "Failed to extract user info"), tr2)
              | Some (Ok user) =>
                  match IssueAccessToken ts user now with
                  | Err _ => (Some (fail_json 500 "Token generation failed"), tr2)
                  | Ok accessToken =>
                      let refreshToken := match IssueRefreshToken ts user now with Ok t => t | Err _ => "" end in
                      (Some {| hp_Status := 200; hp_Body := Marshal (token_answer accessToken refreshToken user) +:+ newline;
                               hp_Cookies := [("oidc_state", "", -1)]; hp_Location := "" |}, tr2)
                  end
              end
          end
  end.

Definition oidc_service (cfg : OIDCConfig) : AuthProviderService :=
  {| ap_Name := "oidc"; ap_Enabled := oc_Enabled cfg;
     ap_CanHandle := fun r =>
       (String.eqb (hr_Path r) "/auth/login/oidc" || String.eqb (hr_Path r) "/auth/callback/oidc") &&
       String.eqb (hr_Method r) "GET" |}.

(** [ServeHTTP]: [None] within the pair when the path is neither. *)
Definition oidc_ServeHTTP (cfg : OIDCConfig) (ts : TokenService Priv Pub) (p : Provider) (state nonce : string)
    (now : Z) (r : HttpReq) (tr : list OReq) : option HttpResp * list OReq :=
  if String.eqb (hr_Path r) "/auth/login/oidc"
  then let (resp, tr') := oidc_handleLogin cfg p state nonce tr in (Some resp, tr')
  else if String.eqb (hr_Path r) "/auth/callback/oidc"
  then oidc_handleCallback cfg ts p now r tr
  else (Some (WriteJSON 200 ""), tr).

End Handlers.

(** * Properties of OpenID Connect logins

    What a successful callback proves, and where the identity comes from. *)

(** Where an identity may come from: the [sub] of the ID token, or else that of
    the userinfo endpoint asked with the access token. *)
Inductive identity_of (p : Provider) (tokenResp : gomap) (uid : string) : Prop :=
| id_token idToken claims :
    str_field tokenResp "id_token" = Some idToken -> decodeJWTBody idToken = Ok claims ->
    str_field claims "sub" = Some uid -> identity_of p tokenResp uid
| id_userinfo accessToken endpoint seen resp info :
    str_field tokenResp "access_token" = Some accessToken ->
    p_do p seen {| or_Method := "GET"; or_URL := endpoint; or_Auth := "Bearer " +:+ accessToken; or_Form := "" |}
      = Ok resp ->
    DecodeObject (os_Body resp) = Some info -> str_field info "sub" = Some uid ->
    identity_of p tokenResp uid.

Lemma fetch_userinfo_id cfg p accessToken u tr u' tr' tokenResp :
  str_field tokenResp "access_token" = Some accessToken -> ui_UserID u = "" ->
  fetch_userinfo cfg p accessToken u tr = (Some u', tr') ->
  ui_UserID u' <> "" -> identity_of p tokenResp (ui_UserID u').
Proof.
  intros Ha Hu. unfold fetch_userinfo. destruct (discoverEndpoint _ _ _ _) as [[endpoint|] tr1];
    [|intros [= <- _]; congruence].
  destruct (p_valid p endpoint); [done|]. unfold odo.
  destruct (p_do p tr1 _) as [resp|] eqn:ED; [|intros [= <- _]; congruence].
  destruct (DecodeObject (os_Body resp)) as [info|] eqn:EI; intros [= <- _]; [|congruence].
  cbn [userinfo_user ui_UserID]. destruct (str_field info "sub") as [uid|] eqn:ES; cbn; [|congruence].
  intros _. by eapply id_userinfo.
Qed.

Lemma extractUserInfo_id cfg p tokenResp tr user tr' :
  extractUserInfo cfg p tokenResp tr = (Some (Ok user), tr') ->
  ui_UserID user <> "" /\ identity_of p tokenResp (ui_UserID user).
Proof.
  unfold extractUserInfo.
  set (u := match str_field tokenResp "id_token" with Some _ => _ | None => _ end).
  assert (ui_UserID u <> "" -> identity_of p tokenResp (ui_UserID u)) as Hid.
  { subst u. destruct (str_field tokenResp "id_token") as [t|] eqn:ET; [|done].
    destruct (decodeJWTBody t) as [claims|] eqn:EC; [|done]. cbn [claims_user ui_UserID].
    destruct (str_field claims "sub") as [uid|] eqn:ES; [|done]. intros _. by eapply id_token. }
  destruct (String.eqb_spec (ui_UserID u) "") as [Hu|Hu].
  - destruct (str_field tokenResp "access_token") as [a|] eqn:EA.
    + destruct (fetch_userinfo _ _ _ _ _) as [[u'|] tr1] eqn:EF; [|done].
      destruct (String.eqb_spec (ui_UserID u') ""); [done|]. intros [= <- _].
      split; [done|]. by eapply fetch_userinfo_id.
    + rewrite Hu. done.
  - destruct (String.eqb_spec (ui_UserID u) ""); [done|]. intros [= <- _]. auto.
Qed.

Section Callback.
Context {Priv Pub : Type} `{JWT Priv Pub}.


End Callback.

(** ** A login with a concrete provider *)

Definition oq (l : list (string * any)) : string := Marshal (VMap l).

Definition demo_provider : Provider := {|
  p_valid := fun _ => None;
  p_do := fun _ r =>
    Ok {| os_Status := 200;
          os_Body := if HasSuffix (or_URL r) "openid-configuration"
                     then oq [("token_endpoint", VStr "https://idp/token"); ("userinfo_endpoint", VStr "https://idp/me");
                              ("authorization_endpoint", VStr "https://idp/auth")]
                     else if String.eqb (or_Method r) "POST" then oq [("access_token", VStr "at")]
                     else oq [("sub", VStr "u7")] |} |}.

Definition demo_oidc : OIDCConfig := {| oc_Enabled := true; oc_ClientID := "c"; oc_ClientSecret := "s";
  oc_IssueURL := "https://idp/"; oc_RedirectURL := "https://app/cb"; oc_Scope := "openid email" |}.

Definition demo_callback (cookie : string) (query : list (string * string)) : HttpReq :=
  {| hr_Method := "GET"; hr_Path := "/auth/callback/oidc"; hr_Header := []; hr_Query := query;
     hr_Cookies := [("oidc_state", cookie)]; hr_Body := ""; hr_TLS := true |}.


(** An empty cookie and no state in the query pass the state check. *)
Lemma empty_state_accepted :
  match (oidc_handleCallback demo_oidc (demo_ts "ES256") demo_provider 0 (demo_callback "" [("code", "42")]) []).1 with
  | Some resp => hp_Status resp = 200
  | None => False
  end.
Proof. vm_compute. reflexivity. Qed.

Lemma decodeJWTBody_ex :
  decodeJWTBody "e30.eyJzdWIiOiJ1MSIsImVtYWlsIjoiYUBiIn0.sig" = Ok [("sub", VStr "u1"); ("email", VStr "a@b")].
Proof. vm_compute. reflexivity. Qed.
