(* ===== verification/Store.v ===== *)
(** * The stores

    [pkg/store/pkg/sqlite.go] (the generic store of a table), and the run,
    approval and flow stores over it ([flowrun/flowrun_sqlite.go],
    [approval/approval_sqlite.go], [approval/approval_postgres.go],
    [flow/flow_sqlite.go], [flow/helper.go]).  A table is the list of its rows,
    newest insertion last; the queries are those of the SQL texts.  Identifiers
    and times a store makes up are arguments. *)

From S2P Require Export Entities.
From stdpp Require Import sorting.

Local Open Scope string_scope.
Local Open Scope list_scope.
Local Open Scope Z_scope.

(** ** Pages (pkg/model/pkg/entities/base.go) *)

Record PageRequest := { pg_Page : Z; pg_Size : Z }.

Record Page (T : Type) := {
  pg_Items : list T; pg_TotalCount : Z; pg_Request : PageRequest; pg_TotalPages : Z;
}.
Arguments pg_Items {T}. Arguments pg_TotalCount {T}. Arguments pg_Request {T}. Arguments pg_TotalPages {T}.

(** [NewPage] *)
Definition NewPage {T} (items : list T) (totalCount : Z) (req : PageRequest) : Page T :=
  let totalPages := Z.quot totalCount (pg_Size req) in
  {| pg_Items := items; pg_TotalCount := totalCount; pg_Request := req;
     pg_TotalPages := if Z.rem totalCount (pg_Size req) =? 0 then totalPages else totalPages + 1 |}.

(** ** Tables *)

(** What the queries read and write of a row: its key, its creation time, the
    deletion mark. *)
Class Row (T : Type) := {
  row_key : T -> string;
  row_created : T -> Z;
  row_deleted : T -> bool;
  row_mark_deleted : Z -> T -> T;
}.

Section Generic.
Context {T : Type} `{Row T}.

(** [SELECT ... WHERE key = id AND del_flag = 0 LIMIT 1] *)
Definition store_Get (id : string) (tbl : list T) : option T :=
  find (fun r => String.eqb (row_key r) id && negb (row_deleted r)) tbl.

(** [ORDER BY created_at DESC] *)
Definition newer (a b : T) : Prop := row_created b <= row_created a.
#[export] Instance newer_dec : RelDecision newer := fun a b => Z_le_dec _ _.

Definition live_rows (tbl : list T) : list T :=
  merge_sort newer (List.filter (fun r => negb (row_deleted r)) tbl).

Definition norm_page (req : PageRequest) : PageRequest :=
  {| pg_Page := if pg_Page req <? 1 then 1 else pg_Page req;
     pg_Size := if pg_Size req <? 1 then 20 else pg_Size req |}.

(** [LIMIT size OFFSET (page-1)*size]: a negative offset counts as zero. *)
Definition page_items {A} (l : list A) (page size : Z) : list A :=
  take (Z.to_nat size) (drop (Z.to_nat (i64 ((page - 1) * size))) l).

Definition store_Select (req : PageRequest) (tbl : list T) : Page T :=
  let req := norm_page req in
  let rows := live_rows tbl in
  NewPage (page_items rows (pg_Page req) (pg_Size req)) (Z.of_nat (length rows)) req.

(** [INSERT OR REPLACE] *)
Definition store_Save (e : T) (tbl : list T) : list T :=
  List.filter (fun r => negb (String.eqb (row_key r) (row_key e))) tbl ++ [e].

(** [UPDATE ... WHERE key = id]: every row of the key, deleted or not. *)
Definition store_update (id : string) (f : T -> T) (tbl : list T) : list T :=
  map (fun r => if String.eqb (row_key r) id then f r else r) tbl.

(** The deletion is a mark. *)
Definition store_Delete (now : Z) (id : string) (tbl : list T) : list T :=
  store_update id (row_mark_deleted now) tbl.

End Generic.

(** ** Runs *)

Record RunRow := {
  rr_run : FlowRunInfo; rr_output : option gomap; rr_created : Z; rr_updated : Z; rr_deleted : bool;
}.

Definition RunStatus_of_string (s : string) : RunStatus :=
  if String.eqb s "PENDING" then RunPending
  else if String.eqb s "RUNNING" then RunRunning
  else if String.eqb s "COMPLETED" then RunCompleted
  else if String.eqb s "FAILED" then RunFailed
  else if String.eqb s "PAUSED" then RunPaused
  else if String.eqb s "CANCELLED" then RunCancelled
  else RunOther s.

Definition set_run (id : string) (st : RunStatus) (vars : gomap) (err : string)
    (started finished : option Z) (r : FlowRunInfo) : FlowRunInfo :=
  {| r_ID := id; r_Namespace := r_Namespace r; r_AgentFlowID := r_AgentFlowID r; r_Version := r_Version r;
     r_Status := st; r_Vars := vars; r_Error := err; r_Trigger := r_Trigger r; r_StartedAt := started;
     r_FinishedAt := finished; r_K8sNamespace := r_K8sNamespace r; r_Priority := r_Priority r |}.

Definition run_status (st : RunStatus) (r : FlowRunInfo) : FlowRunInfo :=
  set_run (r_ID r) st (r_Vars r) (r_Error r) (r_StartedAt r) (r_FinishedAt r) r.

Definition with_run (run : FlowRunInfo) (now : Z) (row : RunRow) : RunRow :=
  {| rr_run := run; rr_output := rr_output row; rr_created := rr_created row; rr_updated := now;
     rr_deleted := rr_deleted row |}.

(** The generic deletion overwrites the status column, which is the run's. *)
#[export] Instance run_Row : Row RunRow := {|
  row_key := fun r => r_ID (rr_run r);
  row_created := rr_created;
  row_deleted := rr_deleted;
  row_mark_deleted := fun now r =>
    {| rr_run := run_status (RunOther "DELETED") (rr_run r); rr_output := rr_output r;
       rr_created := rr_created r; rr_updated := now; rr_deleted := true |};
|}.

(** [Create]: an id and times, then [Save]. *)
Definition run_Create (id : string) (now : Z) (e : FlowRunInfo) (tbl : list RunRow) : FlowRunInfo * list RunRow :=
  let run := set_run id (r_Status e) (r_Vars e) (r_Error e) (r_StartedAt e) (r_FinishedAt e) e in
  (run, store_Save {| rr_run := run; rr_output := None; rr_created := now; rr_updated := now;
                      rr_deleted := false |} tbl).

(** [Update]: the mutable columns of the run's row. *)
Definition run_Update (now : Z) (e : FlowRunInfo) (output : option gomap) (tbl : list RunRow) : list RunRow :=
  store_update (r_ID e) (fun row =>
    {| rr_run := set_run (r_ID e) (r_Status e) (r_Vars e) (r_Error e) (r_StartedAt e) (r_FinishedAt e) (rr_run row);
       rr_output := output; rr_created := rr_created row; rr_updated := now; rr_deleted := rr_deleted row |}) tbl.

Definition run_Cancel (now : Z) (id : string) (tbl : list RunRow) : list RunRow :=
  store_update id (fun row => with_run (run_status RunCancelled (rr_run row)) now row) tbl.

(** ** Approvals *)

Record ApprovalRow := { ar_info : ApprovalInfo; ar_created : Z; ar_updated : Z; ar_deleted : bool }.

Definition set_approval (id token status : string) (approved : option bool) (comment : string)
    (resolved : option Z) (e : ApprovalInfo) : ApprovalInfo :=
  {| ap_ID := id; ap_TaskRunID := ap_TaskRunID e; ap_AgentFlowRunID := ap_AgentFlowRunID e;
     ap_Token := token; ap_Status := status; ap_Approved := approved; ap_Comment := comment; ap_Timeout := ap_Timeout e;
     ap_ExpiresAt := ap_ExpiresAt e; ap_ResolvedAt := resolved |}.

Definition approval_status (status : string) (approved : option bool) (e : ApprovalInfo) : ApprovalInfo :=
  set_approval (ap_ID e) (ap_Token e) status approved (ap_Comment e) (ap_ResolvedAt e) e.

#[export] Instance approval_Row : Row ApprovalRow := {|
  row_key := fun r => ap_Token (ar_info r);
  row_created := ar_created;
  row_deleted := ar_deleted;
  row_mark_deleted := fun now r =>
    {| ar_info := approval_status "DELETED" (ap_Approved (ar_info r)) (ar_info r);
       ar_created := ar_created r; ar_updated := now; ar_deleted := true |};
|}.

(** [CreateApproval] of the two stores: the SQLite store always makes a token
    of its own, the PostgreSQL store only when none is given. *)
Definition approval_token (sqlite : bool) (given fresh : string) : string :=
  if sqlite then fresh else if String.eqb given "" then fresh else given.

Definition store_CreateApproval (sqlite : bool) (id token : string) (now : Z) (e : ApprovalInfo)
    (tbl : list ApprovalRow) : ApprovalInfo * list ApprovalRow :=
  let e' := set_approval id (approval_token sqlite (ap_Token e) token) (ap_Status e) (ap_Approved e)
              (ap_Comment e) (ap_ResolvedAt e) e in
  (e', store_Save {| ar_info := e'; ar_created := now; ar_updated := now; ar_deleted := false |} tbl).

Definition store_UpdateApproval (now : Z) (e : ApprovalInfo) (tbl : list ApprovalRow) : list ApprovalRow :=
  store_update (ap_Token e) (fun row =>
    {| ar_info := set_approval (ap_ID (ar_info row)) (ap_Token e) (ap_Status e) (ap_Approved e) (ap_Comment e)
                    (ap_ResolvedAt e) (ar_info row);
       ar_created := ar_created row; ar_updated := now; ar_deleted := ar_deleted row |}) tbl.

(** [sql.NullTime] on a column of texts: only a missing time is read. *)
Definition scan_null_time (t : option Z) : res (option Z) :=
  match t with None => Ok None | Some _ => Err "unsupported Scan, storing driver.Value type string into type *time.Time" end.

(** [scanApproval] *)
Definition scanApproval (row : ApprovalRow) : res ApprovalInfo :=
  let? _ := scan_null_time (ap_ExpiresAt (ar_info row)) in
  let? _ := scan_null_time (ap_ResolvedAt (ar_info row)) in
  Ok (ar_info row).

(** [WHERE status = 'PENDING' ORDER BY created_at DESC] *)
Definition pending_rows (tbl : list ApprovalRow) : list ApprovalRow :=
  merge_sort newer (List.filter (fun r => String.eqb (ap_Status (ar_info r)) "PENDING") tbl).
Definition ListPending (tbl : list ApprovalRow) : res (list ApprovalInfo) := each scanApproval (pending_rows tbl).

Lemma elem_of_pending r tbl : r ∈ pending_rows tbl <-> r ∈ tbl /\ ap_Status (ar_info r) = "PENDING".
Proof.
  unfold pending_rows. rewrite merge_sort_Permutation, !list_elem_of_In, filter_In. by rewrite String.eqb_eq.
Qed.

(** The pending approvals can be listed exactly when none has an expiry. *)
Lemma ListPending_ok_iff tbl :
  is_ok (ListPending tbl) = true <->
  forall r, r ∈ tbl -> ap_Status (ar_info r) = "PENDING" -> ap_ExpiresAt (ar_info r) = None /\ ap_ResolvedAt (ar_info r) = None.
Proof.
  unfold ListPending. rewrite each_is_ok, forallb_forall. split.
  - intros Hall r Hr Hs. specialize (Hall r). rewrite <- list_elem_of_In, elem_of_pending in Hall. specialize (Hall (conj Hr Hs)).
    unfold scanApproval in Hall. by destruct (ap_ExpiresAt _), (ap_ResolvedAt _).
  - intros Hnone r Hr. apply list_elem_of_In, elem_of_pending in Hr as [Hr Hs]. destruct (Hnone r Hr Hs) as [E1 E2].
    unfold scanApproval. by rewrite E1, E2.
Qed.

(** ** Flow definitions *)

(** A stored version: the definition is the JSON of a flow, [None] when it does
    not decode; the JSON a flow was saved as reads back as that flow. *)
Record FlowVersionInfo := {
  fv_FlowID : string; fv_Version : Z; fv_Definition : option FlowInfo; fv_Namespace : string;
  fv_Comment : string; fv_CreatedBy : string; fv_created : Z; fv_deleted : bool;
}.

#[export] Instance flow_Row : Row FlowVersionInfo := {|
  row_key := fv_FlowID;
  row_created := fv_created;
  row_deleted := fv_deleted;
  row_mark_deleted := fun _ v =>
    {| fv_FlowID := fv_FlowID v; fv_Version := fv_Version v; fv_Definition := fv_Definition v;
       fv_Namespace := fv_Namespace v; fv_Comment := fv_Comment v; fv_CreatedBy := fv_CreatedBy v;
       fv_created := fv_created v; fv_deleted := true |};
|}.

(** The row a specification is saved to: version 1, always. *)
Definition is_spec_row (spec : FlowInfo) (v : FlowVersionInfo) : bool :=
  String.eqb (fv_FlowID v) (f_ID spec) && (fv_Version v =? 1).

Definition spec_row (spec : FlowInfo) (created : Z) (createdBy comment : string) : FlowVersionInfo :=
  {| fv_FlowID := f_ID spec; fv_Version := 1; fv_Definition := Some spec; fv_Namespace := f_Namespace spec;
     fv_Comment := comment; fv_CreatedBy := createdBy; fv_created := created; fv_deleted := false |}.

(** [SaveSpec]: an existing row keeps its creation and is no longer deleted. *)
Definition SaveSpec (now : Z) (spec : FlowInfo) (createdBy comment : string) (tbl : list FlowVersionInfo)
    : list FlowVersionInfo :=
  if existsb (is_spec_row spec) tbl
  then map (fun v => if is_spec_row spec v then spec_row spec (fv_created v) (fv_CreatedBy v) comment else v) tbl
  else tbl ++ [spec_row spec now createdBy comment].

(** [... ORDER BY version DESC LIMIT 1] *)
Definition latest_version (id : string) (tbl : list FlowVersionInfo) : option FlowVersionInfo :=
  fold_left (fun best v =>
    if String.eqb (fv_FlowID v) id && negb (fv_deleted v)
    then match best with
         | Some b => if fv_Version b <? fv_Version v then Some v else best
         | None => Some v
         end
    else best) tbl None.

Definition flow_Get (id : string) (tbl : list FlowVersionInfo) : res FlowVersionInfo :=
  match latest_version id tbl with Some v => Ok v | None => Err "sql: no rows in result set" end.

Definition has_version (id : string) (ver : Z) (v : FlowVersionInfo) : bool :=
  String.eqb (fv_FlowID v) id && (fv_Version v =? ver) && negb (fv_deleted v).
Definition flow_GetVersion (id : string) (ver : Z) (tbl : list FlowVersionInfo) : res FlowVersionInfo :=
  match find (has_version id ver) tbl with Some v => Ok v | None => Err "sql: no rows in result set" end.

Definition flow_Select (req : PageRequest) (tbl : list FlowVersionInfo) : Page FlowVersionInfo :=
  let req := {| pg_Page := if pg_Page req <? 1 then 1 else pg_Page req; pg_Size := if pg_Size req <? 1 then 20 else pg_Size req |} in
  let live := live_rows tbl in
  NewPage (page_items live (pg_Page req) (pg_Size req)) (Z.of_nat (length live)) req.

(** It repeats the generic listing. *)
Lemma flow_Select_generic req tbl : flow_Select req tbl = store_Select req tbl.
Proof. reflexivity. Qed.

Definition GetSpec (id : string) (tbl : list FlowVersionInfo) : option FlowInfo :=
  match latest_version id tbl with Some v => fv_Definition v | None => None end.

(** [LoadFromDB]: the first version listed of every flow; skills apart. *)
Definition LoadFromDB (tbl : list FlowVersionInfo) : list FlowInfo * gmap string FlowInfo :=
  let page := store_Select {| pg_Page := 1; pg_Size := 1000 |} tbl in
  let '(flows, subs, _) :=
    fold_left (fun (acc : list FlowInfo * gmap string FlowInfo * gset string) v =>
      let '(flows, subs, seen) := acc in
      if bool_decide (fv_FlowID v ∈ seen) then acc
      else let seen := {[fv_FlowID v]} ∪ seen in
           match fv_Definition v with
           | None => (flows, subs, seen)
           | Some spec =>
               if String.eqb (f_ID spec) "" then (flows, subs, seen)
               else if String.eqb (f_Kind spec) "skill" then (flows, <[f_ID spec := spec]> subs, seen)
               else (flows ++ [spec], subs, seen)
           end) (pg_Items page) ([], ∅, ∅) in
  (flows, subs).
