(* ===== verification/StoreFacts.v ===== *)
(** * Properties of the stores

    The pages of a table cover it exactly; what is read after what was
    written; and what deleting, updating and creating do to a row. *)

From S2P Require Export Store.
From stdpp Require Import sorting list_numbers.

Local Open Scope string_scope.
Local Open Scope list_scope.
Local Open Scope Z_scope.

(** ** Pages *)

Lemma wrap64_small z : 0 <= z < 2 ^ 63 -> i64 z = z.
Proof.
  intros Hz. unfold i64, wrap_s. rewrite Z.mod_small by lia.
  change (2 ^ (64 - 1)) with (2 ^ 63). destruct (Z.ltb_spec z (2 ^ 63)); lia.
Qed.

Lemma concat_chunks {A} (l : list A) (s m : nat) :
  concat (map (fun k => take s (drop (k * s) l)) (seq 0 m)) = take (m * s) l.
Proof.
  induction m as [|m IH]; [done|].
  rewrite seq_S, map_app, concat_app, IH. cbn [map concat]. rewrite app_nil_r.
  rewrite <- (take_drop (m * s) (take (S m * s) l)) at 1.
  rewrite take_take. rewrite Nat.min_l by lia. f_equal.
  rewrite skipn_firstn_comm. f_equal. lia.
Qed.

Section Pages.
Context {T : Type} `{Row T}.

Lemma live_rows_perm tbl : live_rows tbl ≡ₚ List.filter (fun r => negb (row_deleted r)) tbl.
Proof. apply merge_sort_Permutation. Qed.

Lemma live_rows_elem tbl r : r ∈ live_rows tbl <-> r ∈ tbl /\ row_deleted r = false.
Proof.
  rewrite live_rows_perm, !list_elem_of_In, filter_In, negb_true_iff. done.
Qed.

#[local] Instance newer_total : Total newer.
Proof. intros x y. unfold newer. lia. Qed.

Lemma live_rows_sorted tbl : Sorted newer (live_rows tbl).
Proof. apply Sorted_merge_sort. apply _. Qed.

Lemma page_items_chunk {A} (l : list A) (k s : nat) :
  (0 < s)%nat -> (k < length l)%nat -> Z.of_nat (length l * s) < 2 ^ 63 ->
  page_items l (Z.of_nat k + 1) (Z.of_nat s) = take s (drop (k * s) l).
Proof.
  intros Hs Hk Hl. unfold page_items. rewrite Nat2Z.id. f_equal. f_equal.
  replace ((Z.of_nat k + 1 - 1) * Z.of_nat s) with (Z.of_nat (k * s)) by lia.
  rewrite wrap64_small; nia.
Qed.

(** For every page size, the pages of a query, read from the first to the
    last its total announces, list each live row exactly once, newest first,
    and nothing else; and each announces the number of rows. *)
Theorem pages_cover_table tbl size :
  1 <= size -> Z.of_nat (length tbl) * size < 2 ^ 63 ->
  let page k := store_Select {| pg_Page := k; pg_Size := size |} tbl in
  let rows := concat (map (fun k => pg_Items (page k)) (seqZ 1 (pg_TotalPages (page 1)))) in
  rows = live_rows tbl /\ Sorted newer rows /\
  (forall r, r ∈ rows <-> r ∈ tbl /\ row_deleted r = false) /\
  forall k, pg_TotalCount (page k) = Z.of_nat (length rows).
Proof.
  intros Hs Hl page rows.
  assert (rows = live_rows tbl) as ->.
  { set (s := Z.to_nat size). set (n := length (live_rows tbl)).
    assert (n <= length tbl)%nat as Hn.
    { unfold n. rewrite (Permutation_length (live_rows_perm tbl)). apply List.filter_length_le. }
    set (m := Z.to_nat (pg_TotalPages (page 1))).
    assert (Z.of_nat m = pg_TotalPages (page 1) /\ (n <= m * s)%nat /\ (m <= n)%nat) as (Hm & Hcov & Hmn).
    { unfold m, page, store_Select, norm_page, NewPage. cbn [pg_TotalPages pg_Size pg_Page].
      destruct (Z.ltb_spec size 1); [lia|]. fold n.
      pose proof (Z.quot_rem' (Z.of_nat n) size) as E.
      pose proof (Z.rem_bound_pos (Z.of_nat n) size ltac:(lia) ltac:(lia)) as B.
      pose proof (Z.quot_pos (Z.of_nat n) size ltac:(lia) ltac:(lia)) as P.
      assert (s = Z.to_nat size) as Es by done.
      assert (Z.of_nat s = size) by lia.
      destruct (Z.eqb_spec (Z.rem (Z.of_nat n) size) 0) as [E0|E0]; rewrite Z2Nat.id by lia; split_and!; try lia; nia. }
    assert (rows = concat (map (fun k => take s (drop (k * s) (live_rows tbl))) (seq 0 m))) as ->.
    { unfold rows, seqZ. rewrite <- Hm, Nat2Z.id. fold m.
      change (map ?f (?g <$> ?l)) with (map f (map g l)). rewrite map_map. f_equal. apply map_ext_in.
      intros k Hk. apply in_seq in Hk.
      unfold page, store_Select, norm_page, NewPage. cbn [pg_Items pg_Page pg_Size].
      destruct (Z.ltb_spec size 1); [lia|]. destruct (Z.ltb_spec (Z.of_nat k + 1) 1); [lia|].
      rewrite <- (page_items_chunk _ k s).
      - unfold s. by rewrite Z2Nat.id by lia.
      - lia.
      - fold n. lia.
      - fold n. unfold s. nia. }
    rewrite concat_chunks. apply take_ge. fold n. lia. }
  split_and!; [done|apply live_rows_sorted|apply live_rows_elem|].
  intros k. reflexivity.
Qed.

(** ** Reading what was written *)

Lemma find_app {A} (f : A -> bool) l l' :
  find f (l ++ l') = match find f l with Some x => Some x | None => find f l' end.
Proof. induction l as [|x l IH]; cbn; [done|]. by destruct (f x). Qed.

Lemma store_Get_Save e tbl id :
  store_Get id (store_Save e tbl) =
  if String.eqb (row_key e) id then (if row_deleted e then None else Some e) else store_Get id tbl.
Proof.
  unfold store_Get, store_Save. rewrite find_app. cbn [find].
  induction tbl as [|r tbl IH]; cbn [List.filter find].
  - destruct (String.eqb_spec (row_key e) id); [|done]. by destruct (row_deleted e).
  - destruct (String.eqb_spec (row_key r) (row_key e)) as [Er|Er]; cbn [negb find].
    + rewrite IH. destruct (String.eqb_spec (row_key e) id) as [Ee|Ee]; [done|].
      destruct (String.eqb_spec (row_key r) id); [congruence|done].
    + destruct (String.eqb_spec (row_key r) id) as [Ei|Ei]; cbn [andb]; [|done].
      destruct (String.eqb_spec (row_key e) id); [congruence|].
      by destruct (row_deleted r).
Qed.

Lemma store_Get_update id f tbl id' :
  (forall r, row_key r = id -> row_key (f r) = id) ->
  (forall r, row_deleted (f r) = row_deleted r) ->
  store_Get id' (store_update id f tbl) =
  (if String.eqb id id' then f <$> store_Get id' tbl else store_Get id' tbl).
Proof.
  intros Hk Hd. unfold store_Get, store_update. induction tbl as [|r tbl IH]; cbn [map find].
  - by destruct (String.eqb id id').
  - destruct (String.eqb_spec (row_key r) id) as [Er|Er].
    + rewrite (Hk r Er), Hd. rewrite Er. destruct (String.eqb_spec id id') as [->|Hne]; cbn [andb]; [|done].
      by destruct (row_deleted r).
    + destruct (String.eqb_spec (row_key r) id') as [Ei|Ei]; cbn [andb]; [|done].
      destruct (String.eqb_spec id id'); [congruence|]. by destruct (row_deleted r).
Qed.

Lemma store_Get_Delete now id tbl id' :
  (forall r, row_key (row_mark_deleted now r) = row_key r) ->
  (forall r, row_deleted (row_mark_deleted now r) = true) ->
  store_Get id' (store_Delete now id tbl) = if String.eqb id id' then None else store_Get id' tbl.
Proof.
  intros Hk Hd. unfold store_Get, store_Delete, store_update. induction tbl as [|r tbl IH]; cbn [map find].
  - by destruct (String.eqb id id').
  - destruct (String.eqb_spec (row_key r) id) as [Er|Er].
    + rewrite Hk, Hd, andb_false_r. rewrite IH.
      destruct (String.eqb_spec id id') as [->|Hne]; [done|]. by rewrite Er, (proj2 (String.eqb_neq id id')).
    + destruct (String.eqb_spec (row_key r) id') as [Ei|Ei]; cbn [andb]; [|done].
      destruct (String.eqb_spec id id'); [congruence|]. by destruct (row_deleted r).
Qed.

Lemma store_Get_key id tbl r : store_Get id tbl = Some r -> row_key r = id /\ row_deleted r = false /\ r ∈ tbl.
Proof.
  unfold store_Get. intros [Hin [Hk%String.eqb_eq Hd%negb_true_iff]%andb_true_iff]%find_some.
  by rewrite list_elem_of_In.
Qed.

End Pages.

(** ** Runs *)

Lemma run_Get_Update now e out tbl id :
  store_Get id (run_Update now e out tbl) =
  if String.eqb (r_ID e) id
  then (fun row => {| rr_run := set_run (r_ID e) (r_Status e) (r_Vars e) (r_Error e) (r_StartedAt e)
                                  (r_FinishedAt e) (rr_run row);
                      rr_output := out; rr_created := rr_created row; rr_updated := now;
                      rr_deleted := rr_deleted row |}) <$> store_Get id tbl
  else store_Get id tbl.
Proof. unfold run_Update. by apply store_Get_update. Qed.

Lemma run_Get_Cancel now id tbl id' :
  store_Get id' (run_Cancel now id tbl) =
  if String.eqb id id' then (fun row => with_run (run_status RunCancelled (rr_run row)) now row) <$> store_Get id' tbl
  else store_Get id' tbl.
Proof. unfold run_Cancel. by apply store_Get_update. Qed.

Lemma run_Get_Delete now id tbl id' :
  store_Get id' (store_Delete (T := RunRow) now id tbl) = if String.eqb id id' then None else store_Get id' tbl.
Proof. by apply store_Get_Delete. Qed.

Lemma RunStatus_round_trip s : RunStatus_string (RunStatus_of_string s) = s.
Proof.
  unfold RunStatus_of_string.
  destruct (String.eqb_spec s "PENDING") as [->|?]; [done|].
  destruct (String.eqb_spec s "RUNNING") as [->|?]; [done|].
  destruct (String.eqb_spec s "COMPLETED") as [->|?]; [done|].
  destruct (String.eqb_spec s "FAILED") as [->|?]; [done|].
  destruct (String.eqb_spec s "PAUSED") as [->|?]; [done|].
  by destruct (String.eqb_spec s "CANCELLED") as [->|?].
Qed.

(** ** Approvals *)

Lemma approval_Get_Update now e tbl token :
  store_Get token (store_UpdateApproval now e tbl) =
  if String.eqb (ap_Token e) token
  then (fun row => {| ar_info := set_approval (ap_ID (ar_info row)) (ap_Token e) (ap_Status e) (ap_Approved e)
                                   (ap_Comment e) (ap_ResolvedAt e) (ar_info row);
                      ar_created := ar_created row; ar_updated := now; ar_deleted := ar_deleted row |})
       <$> store_Get token tbl
  else store_Get token tbl.
Proof. unfold store_UpdateApproval. by apply store_Get_update. Qed.

(** ** Flow definitions *)

(** Every flow has one version, numbered 1. *)
Definition versions_ok (tbl : list FlowVersionInfo) : Prop :=
  NoDup (fv_FlowID <$> tbl) /\ Forall (fun v => fv_Version v = 1) tbl.

Lemma fold_latest_none id tbl :
  Forall (fun v => fv_FlowID v <> id) tbl ->
  forall best, fold_left (fun best v =>
    if String.eqb (fv_FlowID v) id && negb (fv_deleted v)
    then match best with
         | Some b => if fv_Version b <? fv_Version v then Some v else best
         | None => Some v
         end
    else best) tbl best = best.
Proof.
  induction 1 as [|v tbl Hv _ IH]; intros best; cbn; [done|].
  destruct (String.eqb_spec (fv_FlowID v) id); [done|]. apply IH.
Qed.

Lemma latest_version_find id tbl :
  NoDup (fv_FlowID <$> tbl) -> latest_version id tbl = store_Get id tbl.
Proof.
  unfold latest_version, store_Get. induction tbl as [|v tbl IH]; cbn; [done|].
  intros [Hn Hd]%NoDup_cons. destruct (String.eqb_spec (fv_FlowID v) id) as [<-|Hne]; cbn [andb].
  - destruct (fv_deleted v); cbn [negb].
    + by apply IH.
    + apply fold_latest_none. apply Forall_forall. intros w Hw E. apply Hn. rewrite <- E.
      by apply list_elem_of_fmap_2.
  - by apply IH.
Qed.

Lemma SaveSpec_ok now spec by_ c tbl : versions_ok tbl -> versions_ok (SaveSpec now spec by_ c tbl).
Proof.
  intros [Hnd Hv]. unfold SaveSpec.
  destruct (existsb (is_spec_row spec) tbl) eqn:E.
  - split.
    + assert (fv_FlowID <$> map (fun v => if is_spec_row spec v then _ else v) tbl = fv_FlowID <$> tbl) as ->; [|done].
      clear E. induction tbl as [|v tbl IH]; cbn; [done|].
      inversion Hnd; inversion Hv; subst. f_equal; [|by apply IH].
      unfold is_spec_row. destruct (String.eqb_spec (fv_FlowID v) (f_ID spec)); cbn [andb]; [|done].
      by destruct (fv_Version v =? 1).
    + apply Forall_forall. intros w Hw. apply list_elem_of_In, in_map_iff in Hw as (v & <- & Hin).
      destruct (is_spec_row spec v); [done|]. rewrite Forall_forall in Hv. apply Hv. by apply list_elem_of_In.
  - assert (f_ID spec ∉ fv_FlowID <$> tbl) as Hn.
    { intros (v & Hf & Hin)%list_elem_of_fmap. rewrite Forall_forall in Hv.
      apply not_true_iff_false in E. apply E. apply existsb_exists. exists v.
      split; [by apply list_elem_of_In|]. unfold is_spec_row. rewrite <- Hf, String.eqb_refl, (Hv v Hin). done. }
    split.
    + rewrite fmap_app. apply NoDup_app. split_and!; [done|set_solver|apply NoDup_singleton].
    + apply Forall_app. by repeat constructor.
Qed.

(** A specification that is saved is version one of its flow. *)
Lemma saved_spec_versioned now spec by_ c tbl :
  exists v, flow_GetVersion (f_ID spec) 1 (SaveSpec now spec by_ c tbl) = Ok v /\ fv_Definition v = Some spec.
Proof.
  assert (Hspec : forall t b m, has_version (f_ID spec) 1 (spec_row spec t b m) = true).
  { intros t b m. unfold has_version. cbn. by rewrite String.eqb_refl. }
  assert (Hver : forall v, is_spec_row spec v = false -> has_version (f_ID spec) 1 v = false).
  { intros v E. unfold has_version. unfold is_spec_row in E. by rewrite E. }
  unfold flow_GetVersion, SaveSpec. destruct (existsb (is_spec_row spec) tbl) eqn:Ex.
  - induction tbl as [|v tbl IH]; [done|]. cbn in *. destruct (is_spec_row spec v) eqn:E.
    + rewrite Hspec. eexists. by split.
    + rewrite Hver by done. by apply IH.
  - induction tbl as [|v tbl IH]; cbn [app find existsb] in *.
    + rewrite Hspec. eexists. by split.
    + apply orb_false_iff in Ex as [E Ex]. rewrite Hver by done. by apply IH.
Qed.

Lemma GetSpec_SaveSpec now spec by_ c tbl id :
  versions_ok tbl ->
  GetSpec id (SaveSpec now spec by_ c tbl) = if String.eqb (f_ID spec) id then Some spec else GetSpec id tbl.
Proof.
  intros Hok. pose proof (SaveSpec_ok now spec by_ c tbl Hok) as [Hnd' _]. destruct Hok as [Hnd Hv].
  unfold GetSpec. rewrite !latest_version_find by done. unfold SaveSpec, store_Get.
  destruct (existsb (is_spec_row spec) tbl) eqn:E.
  - clear Hnd'. induction tbl as [|v tbl IH]; cbn [map find existsb] in *; [done|].
    inversion Hnd as [|? ? Hnin Hnd']; inversion Hv as [|? ? Hv1 Hv']; subst.
    assert (is_spec_row spec v = String.eqb (fv_FlowID v) (f_ID spec)) as Er by (unfold is_spec_row; by rewrite Hv1, andb_true_r).
    rewrite Er in *. destruct (String.eqb_spec (fv_FlowID v) (f_ID spec)) as [Ef|Ef]; cbn [orb] in *.
    + cbn [row_key row_deleted flow_Row spec_row fv_FlowID fv_deleted negb]. rewrite andb_true_r.
      destruct (String.eqb_spec (f_ID spec) id) as [Es|Es]; [done|].
      rewrite Ef. destruct (String.eqb_spec (f_ID spec) id); [done|]. cbn [andb].
      assert (map (fun v0 => if is_spec_row spec v0 then _ else v0) tbl = tbl) as ->; [|done].
      rewrite <- (map_id tbl) at 2. apply map_ext_in. intros w Hw. unfold is_spec_row.
      destruct (String.eqb_spec (fv_FlowID w) (f_ID spec)) as [Ew|]; [|done]. exfalso. apply Hnin.
      rewrite Ef, <- Ew. apply list_elem_of_fmap_2. by apply list_elem_of_In.
    + cbn [row_key row_deleted flow_Row]. specialize (IH Hnd' Hv' E).
      destruct (String.eqb_spec (fv_FlowID v) id) as [Ei|Ei]; cbn [andb]; [|done].
      destruct (String.eqb_spec (f_ID spec) id); [congruence|].
      destruct (negb (fv_deleted v)); [done|exact IH].
  - rewrite find_app. cbn [find row_key row_deleted flow_Row spec_row fv_FlowID fv_deleted negb]. rewrite andb_true_r.
    destruct (String.eqb_spec (f_ID spec) id) as [Es|Es]; [|by destruct (find _ tbl)].
    assert (find (fun r => String.eqb (fv_FlowID r) id && negb (fv_deleted r)) tbl = None) as ->; [|done].
    destruct (find _ tbl) as [v|] eqn:Ef; [|done]. exfalso.
    apply find_some in Ef as [Hin [Hk%String.eqb_eq _]%andb_true_iff].
    apply not_true_iff_false in E. apply E. apply existsb_exists. exists v. split; [done|].
    rewrite Forall_forall in Hv. unfold is_spec_row. rewrite Hk, Es, String.eqb_refl, (Hv v); [done|].
    by apply list_elem_of_In.
Qed.

Lemma GetSpec_Delete now id tbl id' :
  versions_ok tbl ->
  GetSpec id' (store_Delete now id tbl) = if String.eqb id id' then None else GetSpec id' tbl.
Proof.
  intros [Hnd Hv]. unfold GetSpec.
  assert (fv_FlowID <$> store_Delete now id tbl = fv_FlowID <$> tbl) as E.
  { clear Hnd Hv. unfold store_Delete, store_update. induction tbl as [|v tbl IH]; cbn; [done|].
    f_equal; [by destruct (String.eqb _ _)|done]. }
  rewrite !latest_version_find by (by rewrite ?E). rewrite store_Get_Delete by done.
  by destruct (String.eqb id id').
Qed.

Lemma Delete_ok now id tbl : versions_ok tbl -> versions_ok (store_Delete now id tbl).
Proof.
  intros [Hnd Hv]. split.
  - assert (fv_FlowID <$> store_Delete now id tbl = fv_FlowID <$> tbl) as ->; [|done].
    clear Hnd Hv. unfold store_Delete, store_update. induction tbl as [|v tbl IH]; cbn; [done|].
    f_equal; [by destruct (String.eqb _ _)|done].
  - apply Forall_forall. intros w Hw. apply list_elem_of_In, in_map_iff in Hw as (v & <- & Hin).
    rewrite Forall_forall in Hv. specialize (Hv v ltac:(by apply list_elem_of_In)).
    by destruct (String.eqb _ _).
Qed.

(** ** Concrete tables *)

Definition demo_run_row (id : string) (st : RunStatus) (created : Z) : RunRow :=
  {| rr_run := {| r_ID := id; r_Namespace := "default"; r_AgentFlowID := "f"; r_Version := 1; r_Status := st;
                  r_Vars := []; r_Error := "";
                  r_Trigger := {| ti_Type := "api"; ti_Source := ""; ti_Payload := [] |};
                  r_StartedAt := None; r_FinishedAt := None; r_K8sNamespace := "flowgent-default";
                  r_Priority := "high" |};
     rr_output := None; rr_created := created; rr_updated := created; rr_deleted := false |}.

Definition demo_runs : list RunRow :=
  [demo_run_row "r1" RunRunning 1; demo_run_row "r2" RunCompleted 2; demo_run_row "r3" RunPending 3].

Lemma pages_cover_table_witness :
  concat (map (fun k => pg_Items (store_Select {| pg_Page := k; pg_Size := 2 |} demo_runs))
            (seqZ 1 (pg_TotalPages (store_Select {| pg_Page := 1; pg_Size := 2 |} demo_runs))))
  = live_rows demo_runs.
Proof.
  destruct (pages_cover_table demo_runs 2) as [E _]; [lia|vm_compute; reflexivity|exact E].
Defined.
