(* ===== verification/ApiRuns.v ===== *)
(** * The API of runs and approvals

    [pkg/api/pkg/handler/flow_run.go] and [human.go]: the handlers of runs,
    tasks and approvals over their stores; and the loop of
    [pkg/wallet/pkg/approvals/approvals.go] that waits for an approval of a
    payment.  A request body is its decoding ([None] when it does not decode);
    published events are returned. *)

From S2P Require Export Store Messager X402.

Local Open Scope string_scope.
Local Open Scope list_scope.
Local Open Scope Z_scope.

(** ** Answers *)

(** [http.Error], or a status with a body. *)
Inductive reply (B : Type) :=
| Fail (code : Z) (msg : string)
| Reply (code : Z) (body : B).
Arguments Fail {B} code msg. Arguments Reply {B} code body.

Definition reply_code {B} (r : reply B) : Z := match r with Fail c _ | Reply c _ => c end.

(** An MQTT publication: topic and payload. *)
Definition event := (string * gomap)%type.

(** [h.mqtt == nil] publishes nothing. *)
Definition publish (mqtt : bool) (e : event) : list event := if mqtt then [e] else [].

(** ** Runs *)

Definition run_created_event (run : FlowRunInfo) : event :=
  (CtrlRunCreatedTopic (r_Namespace run) (r_AgentFlowID run) (r_ID run),
   [("action", VStr "created"); ("run_id", VStr (r_ID run)); ("agentflow_id", VStr (r_AgentFlowID run));
    ("namespace_id", VStr (r_Namespace run)); ("namespace", VStr (r_K8sNamespace run))]).

Definition set_namespace (ns : string) (r : FlowRunInfo) : FlowRunInfo :=
  {| r_ID := r_ID r; r_Namespace := ns; r_AgentFlowID := r_AgentFlowID r; r_Version := r_Version r;
     r_Status := r_Status r; r_Vars := r_Vars r; r_Error := r_Error r; r_Trigger := r_Trigger r;
     r_StartedAt := r_StartedAt r; r_FinishedAt := r_FinishedAt r; r_K8sNamespace := r_K8sNamespace r;
     r_Priority := r_Priority r |}.

Section Runs.
(** A database error for a store call. *)
Variable db_err : string -> option string.

Definition db {B} (call : string) (k : reply B) (fail : string -> reply B) : reply B :=
  match db_err call with Some e => fail e | None => k end.

Definition Runs_Create (mqtt : bool) (namespace id : string) (now : Z) (body : option FlowRunInfo)
    (tbl : list RunRow) : reply FlowRunInfo * list RunRow * list event :=
  match body with
  | None => (Fail 400 "invalid body", tbl, [])
  | Some run =>
      let run := if String.eqb (r_Namespace run) "" then set_namespace namespace run else run in
      match db_err "Create" with
      | Some err => (Fail 500 err, tbl, [])
      | None =>
          let (run, tbl') := run_Create id now run tbl in
          (Reply 201 run, tbl', publish mqtt (run_created_event run))
      end
  end.

Definition filterRuns (runs : list RunRow) (status k8s_namespace flowID : string) : list RunRow :=
  if String.eqb status "" && String.eqb k8s_namespace "" && String.eqb flowID "" then runs
  else List.filter (fun r =>
         negb (negb (String.eqb status "") && negb (String.eqb (RunStatus_string (r_Status (rr_run r))) status)) &&
         negb (negb (String.eqb k8s_namespace "") && negb (String.eqb (r_K8sNamespace (rr_run r)) k8s_namespace)) &&
         negb (negb (String.eqb flowID "") && negb (String.eqb (r_AgentFlowID (rr_run r)) flowID))) runs.

(** [strconv.Atoi] of a query parameter, zero on an error. *)
Definition query_int (s : string) : Z := match Atoi s with Some z => z | None => 0 end.

Record RunQuery := { rq_page : string; rq_size : string; rq_status : string; rq_k8s : string; rq_flow : string }.

(** The answer of [List]: the runs and the count it announces. *)
Definition Runs_List (q : RunQuery) (tbl : list RunRow) : reply (list RunRow * Z) :=
  let page := if query_int (rq_page q) <=? 0 then 1 else query_int (rq_page q) in
  let size := if query_int (rq_size q) <=? 0 then 50 else query_int (rq_size q) in
  db "Select"
     (let runs := store_Select {| pg_Page := page; pg_Size := size |} tbl in
      let filtered := filterRuns (pg_Items runs) (rq_status q) (rq_k8s q) (rq_flow q) in
      Reply 200 (filtered, Z.of_nat (length filtered)))
     (fun err => Fail 500 err).

Definition get_run (id : string) (tbl : list RunRow) : option RunRow :=
  match db_err "Get" with Some _ => None | None => store_Get id tbl end.

Definition Runs_Get (id : string) (tbl : list RunRow) : reply FlowRunInfo :=
  match get_run id tbl with
  | None => Fail 404 "not found"
  | Some row => Reply 200 (rr_run row)
  end.

(** The status and error of the body, each when given. *)
Definition Runs_Update (id : string) (now : Z) (body : option (string * string)) (tbl : list RunRow)
    : reply unit * list RunRow :=
  match body with
  | None => (Fail 400 "invalid body", tbl)
  | Some (status, error) =>
      match get_run id tbl with
      | None => (Fail 404 "not found", tbl)
      | Some row =>
          let run := rr_run row in
          let run := if String.eqb status "" then run else run_status (RunStatus_of_string status) run in
          let run := if String.eqb error "" then run
                     else set_run (r_ID run) (r_Status run) (r_Vars run) error (r_StartedAt run) (r_FinishedAt run) run in
          match db_err "Update" with
          | Some _ => (Fail 500 "internal", tbl)
          | None => (Reply 200 tt, run_Update now run (rr_output row) tbl)
          end
      end
  end.

Definition Runs_Delete (id : string) (now : Z) (tbl : list RunRow) : reply unit * list RunRow :=
  match db_err "Delete" with
  | Some _ => (Fail 500 "internal", tbl)
  | None => (Reply 200 tt, store_Delete now id tbl)
  end.

Definition Runs_Cancel (id : string) (now : Z) (tbl : list RunRow) : reply unit * list RunRow :=
  match db_err "Cancel" with
  | Some _ => (Fail 500 "internal", tbl)
  | None => (Reply 200 tt, run_Cancel now id tbl)
  end.

(** ** Approvals *)

Definition get_approval (token : string) (tbl : list ApprovalRow) : option ApprovalInfo :=
  match db_err "Get" with Some _ => None | None => ar_info <$> store_Get token tbl end.

Definition resolve_approval (token : string) (now : Z) (approved : bool) (tbl : list ApprovalRow)
    : reply string * list ApprovalRow :=
  match get_approval token tbl with
  | None => (Fail 404 "approval not found", tbl)
  | Some a =>
      let a := approval_status (if approved then "APPROVED" else "REJECTED") (Some approved) a in
      match db_err "UpdateApproval" with
      | Some err => (Fail 500 err, tbl)
      | None => (Reply 200 (if approved then "approved" else "rejected"), store_UpdateApproval now a tbl)
      end
  end.

Definition Approve (token : string) (now : Z) := resolve_approval token now true.
Definition Reject (token : string) (now : Z) := resolve_approval token now false.

Definition CreateApproval (sqlite : bool) (id token : string) (now : Z) (body : option ApprovalInfo)
    (tbl : list ApprovalRow) : reply ApprovalInfo * list ApprovalRow :=
  match body with
  | None => (Fail 400 "invalid body", tbl)
  | Some a =>
      let a := approval_status "PENDING" (ap_Approved a) a in
      match db_err "CreateApproval" with
      | Some err => (Fail 500 err, tbl)
      | None => let (a, tbl') := store_CreateApproval sqlite id token now a tbl in (Reply 201 a, tbl')
      end
  end.

Definition ListPendingApprovals (sqlite : bool) (tbl : list ApprovalRow) : reply (list ApprovalInfo) :=
  db "ListPending"
    (match (if sqlite then ListPending tbl else Ok (map ar_info (pending_rows tbl))) with
     | Ok approvals => Reply 200 approvals
     | Err err => Fail 500 err
     end) (fun err => Fail 500 err).

End Runs.

(** ** Tasks *)

(** A task run's row ([store/pkg/task/task_sqlite.go]). *)
Record TaskRow := {
  tr_task : TaskRunInfo; tr_retry : Z; tr_sequence : Z; tr_started : option Z;
  tr_created : Z; tr_updated : Z; tr_deleted : bool;
}.

Definition set_task (id run : string) (t : TaskRunInfo) : TaskRunInfo :=
  {| t_ID := id; t_AgentFlowRunID := run; t_NodeID := t_NodeID t; t_Status := t_Status t; t_Input := t_Input t;
     t_Output := t_Output t; t_Error := t_Error t; t_MaxRetries := t_MaxRetries t; t_ExecID := t_ExecID t;
     t_FinishedAt := t_FinishedAt t |}.

#[export] Instance task_Row : Row TaskRow := {|
  row_key := fun r => t_ID (tr_task r);
  row_created := tr_created;
  row_deleted := tr_deleted;
  row_mark_deleted := fun now r =>
    {| tr_task := tr_task r; tr_retry := tr_retry r; tr_sequence := tr_sequence r; tr_started := tr_started r;
       tr_created := tr_created r; tr_updated := now; tr_deleted := true |};
|}.

Definition with_task (t : TaskRunInfo) (now : Z) (r : TaskRow) : TaskRow :=
  {| tr_task := t; tr_retry := tr_retry r; tr_sequence := tr_sequence r; tr_started := tr_started r;
     tr_created := now; tr_updated := now; tr_deleted := tr_deleted r |}.

Definition store_CreateTaskRun (id : string) (now : Z) (e : TaskRow) (tbl : list TaskRow) : TaskRow * list TaskRow :=
  let e' := with_task (set_task id (t_AgentFlowRunID (tr_task e)) (tr_task e)) now e in
  (e', store_Save e' tbl).

Definition coalesce {A} (new old : option A) : option A := match new with Some _ => new | None => old end.

(** [UpdateTaskRun]: the JSON of an input or output is never NULL ([nil] is the
    text [null]), nor is the error, so [COALESCE] keeps only the times; a
    missing row is inserted. *)
Definition store_UpdateTaskRun (now : Z) (e : TaskRow) (tbl : list TaskRow) : list TaskRow :=
  let t := tr_task e in
  if existsb (fun r => String.eqb (t_ID (tr_task r)) (t_ID t)) tbl
  then store_update (t_ID t) (fun row =>
    let old := tr_task row in
    {| tr_task := {| t_ID := t_ID old; t_AgentFlowRunID := t_AgentFlowRunID old; t_NodeID := t_NodeID old;
                     t_Status := t_Status t; t_Input := t_Input t; t_Output := t_Output t; t_Error := t_Error t;
                     t_MaxRetries := t_MaxRetries old; t_ExecID := t_ExecID old;
                     t_FinishedAt := coalesce (t_FinishedAt t) (t_FinishedAt old) |};
       tr_retry := tr_retry e; tr_sequence := tr_sequence row; tr_started := coalesce (tr_started e) (tr_started row);
       tr_created := tr_created row; tr_updated := now; tr_deleted := tr_deleted row |}) tbl
  else tbl ++ [{| tr_task := {| t_ID := t_ID t; t_AgentFlowRunID := t_AgentFlowRunID t; t_NodeID := t_NodeID t;
                                t_Status := t_Status t; t_Input := t_Input t; t_Output := t_Output t;
                                t_Error := t_Error t; t_MaxRetries := 0; t_ExecID := "";
                                t_FinishedAt := t_FinishedAt t |};
                  tr_retry := tr_retry e; tr_sequence := 0; tr_started := tr_started e;
                  tr_created := now; tr_updated := now; tr_deleted := false |}].

(** [ORDER BY sequence ASC], deleted rows included. *)
Definition by_sequence (a b : TaskRow) : Prop := tr_sequence a <= tr_sequence b.
#[export] Instance by_sequence_dec : RelDecision by_sequence := fun a b => Z_le_dec _ _.

Definition run_tasks (run : string) (tbl : list TaskRow) : list TaskRow :=
  merge_sort by_sequence (List.filter (fun r => String.eqb (t_AgentFlowRunID (tr_task r)) run) tbl).

(** The times of [scanTaskRun]. *)
Definition scan_task_row (r : TaskRow) : res TaskRow :=
  let? _ := scan_null_time (tr_started r) in
  let? _ := scan_null_time (t_FinishedAt (tr_task r)) in
  Ok r.
Definition ListByFlowRun (run : string) (tbl : list TaskRow) : res (list TaskRow) := each scan_task_row (run_tasks run tbl).

Lemma elem_of_run_tasks r run tbl : r ∈ run_tasks run tbl <-> r ∈ tbl /\ t_AgentFlowRunID (tr_task r) = run.
Proof. unfold run_tasks. rewrite merge_sort_Permutation, !list_elem_of_In, filter_In. by rewrite String.eqb_eq. Qed.

(** In SQLite the tasks of a run are listed exactly as long as none has a
    start or an end. *)
Lemma ListByFlowRun_ok_iff run tbl :
  is_ok (ListByFlowRun run tbl) = true <->
  forall r, r ∈ tbl -> t_AgentFlowRunID (tr_task r) = run -> tr_started r = None /\ t_FinishedAt (tr_task r) = None.
Proof.
  unfold ListByFlowRun. rewrite each_is_ok, forallb_forall. split.
  - intros Hall r Hr Hs. specialize (Hall r). rewrite <- list_elem_of_In, elem_of_run_tasks in Hall. specialize (Hall (conj Hr Hs)).
    unfold scan_task_row in Hall. by destruct (tr_started _), (t_FinishedAt _).
  - intros Hnone r Hr. apply list_elem_of_In, elem_of_run_tasks in Hr as [Hr Hs]. destruct (Hnone r Hr Hs) as [E1 E2].
    unfold scan_task_row. by rewrite E1, E2.
Qed.

Section Tasks.
Variable db_err : string -> option string.

Definition ListTasks (sqlite : bool) (run : string) (tbl : list TaskRow) : reply (list TaskRow) :=
  match db_err "ListByFlowRun" with
  | Some err => Fail 500 err
  | None =>
      match (if sqlite then ListByFlowRun run tbl else Ok (run_tasks run tbl)) with
      | Ok tasks => Reply 200 tasks
      | Err err => Fail 500 err
      end
  end.

Definition CreateTask (run id : string) (now : Z) (body : option TaskRow) (tbl : list TaskRow)
    : reply TaskRow * list TaskRow :=
  match body with
  | None => (Fail 400 "invalid body", tbl)
  | Some e =>
      let e := {| tr_task := set_task (t_ID (tr_task e)) run (tr_task e); tr_retry := tr_retry e;
                  tr_sequence := tr_sequence e; tr_started := tr_started e; tr_created := tr_created e;
                  tr_updated := tr_updated e; tr_deleted := tr_deleted e |} in
      match db_err "CreateTaskRun" with
      | Some err => (Fail 500 err, tbl)
      | None => let (e, tbl') := store_CreateTaskRun id now e tbl in (Reply 201 e, tbl')
      end
  end.

Definition GetTask (task_id : string) (tbl : list TaskRow) : reply TaskRow :=
  match (match db_err "Get" with Some _ => None | None => store_Get task_id tbl end) with
  | None => Fail 404 "not found"
  | Some row => Reply 200 row
  end.

Definition UpdateTask (task_id : string) (now : Z) (body : option TaskRow) (tbl : list TaskRow)
    : reply unit * list TaskRow :=
  match body with
  | None => (Fail 400 "invalid body", tbl)
  | Some e =>
      let e := {| tr_task := set_task task_id (t_AgentFlowRunID (tr_task e)) (tr_task e); tr_retry := tr_retry e;
                  tr_sequence := tr_sequence e; tr_started := tr_started e; tr_created := tr_created e;
                  tr_updated := tr_updated e; tr_deleted := tr_deleted e |} in
      match db_err "UpdateTaskRun" with
      | Some _ => (Fail 500 "internal", tbl)
      | None => (Reply 200 tt, store_UpdateTaskRun now e tbl)
      end
  end.
End Tasks.

(** ** Waiting for an approval *)

(** What happens while the approver waits: [PTick] a tick of its ticker,
    [PDeadline], [PDone] the end of its context; each after other users changed
    the table. *)
Inductive poll_event :=
| PTick (others : list ApprovalRow -> list ApprovalRow)
| PDeadline (others : list ApprovalRow -> list ApprovalRow)
| PDone (err : string).

Definition approval_timeout (token : string) (timeout : string) : string :=
  payment_error "APPROVAL_TIMEOUT" ("payment approval " +:+ token +:+ " timed out after " +:+ timeout).
Definition approval_rejected (token : string) : string :=
  payment_error "APPROVAL_REJECTED" ("payment approval " +:+ token +:+ " was rejected").

(** The loop; [None] while it waits on. *)
Fixpoint await_approval (approval : ApprovalInfo) (token timeout : string) (now : Z) (evs : list poll_event)
    (tbl : list ApprovalRow) : option (res (option PaymentReceipt)) * list ApprovalRow :=
  match evs with
  | [] => (None, tbl)
  | PDone err :: _ => (Some (Err err), tbl)
  | PDeadline others :: _ =>
      (Some (Err (approval_timeout token timeout)),
       store_UpdateApproval now (approval_status "EXPIRED" (Some false) approval) (others tbl))
  | PTick others :: evs' =>
      let tbl' := others tbl in
      match store_Get token tbl' with
      | None => await_approval approval token timeout now evs' tbl'
      | Some updated =>
          if String.eqb (ap_Status (ar_info updated)) "APPROVED" then (Some (Ok None), tbl')
          else if String.eqb (ap_Status (ar_info updated)) "REJECTED"
          then (Some (Err (approval_rejected token)), tbl')
          else await_approval approval token timeout now evs' tbl'
      end
  end.

(** [RequestApproval] of an intent; [token] is its own fresh token, [id] and
    [fresh] those the store makes up; [err] a failure of the store. *)
Definition RequestApproval (sqlite : bool) (intent_id token id fresh timeout : string) (timeout_ns now : Z)
    (err : option string) (evs : list poll_event) (tbl : list ApprovalRow)
    : option (res (option PaymentReceipt)) * list ApprovalRow :=
  let approval := {| ap_ID := ""; ap_TaskRunID := intent_id; ap_AgentFlowRunID := "";
                     ap_Token := token; ap_Status := "PENDING"; ap_Approved := None; ap_Comment := ""; ap_Timeout := timeout_ns;
                     ap_ExpiresAt := Some (now + timeout_ns); ap_ResolvedAt := None |} in
  match err with
  | Some e => (Some (Err ("create payment approval: " +:+ e)), tbl)
  | None =>
      let (approval, tbl') := store_CreateApproval sqlite id fresh now approval tbl in
      await_approval approval token timeout now evs tbl'
  end.
