(* ===== verification/ApiRunsFacts.v ===== *)
(** * Properties of the API of runs and approvals

    What filters keep, that a handler changes the run or approval it names and
    no other, and when a wait for an approval ends with one. *)

From S2P Require Export ApiRuns StoreFacts.

Local Open Scope string_scope.
Local Open Scope list_scope.
Local Open Scope Z_scope.

Definition no_db_error (_ : string) : option string := None.

(** ** Runs *)

(** A filter that is given selects equality. *)
Definition selects (filter value : string) : Prop := filter = "" \/ value = filter.

Lemma selects_spec f v : negb (negb (String.eqb f "") && negb (String.eqb v f)) = true <-> selects f v.
Proof.
  unfold selects. destruct (String.eqb_spec f ""); cbn [negb andb]; [naive_solver|].
  destruct (String.eqb_spec v f); naive_solver.
Qed.

Lemma filterRuns_elem runs status ns flow r :
  r ∈ filterRuns runs status ns flow <->
  r ∈ runs /\ selects status (RunStatus_string (r_Status (rr_run r))) /\
  selects ns (r_K8sNamespace (rr_run r)) /\ selects flow (r_AgentFlowID (rr_run r)).
Proof.
  unfold filterRuns. destruct (String.eqb status "" && String.eqb ns "" && String.eqb flow "") eqn:E.
  - apply andb_true_iff in E as [[->%String.eqb_eq ->%String.eqb_eq]%andb_true_iff ->%String.eqb_eq].
    unfold selects. naive_solver.
  - rewrite !list_elem_of_In, filter_In, !andb_true_iff, !selects_spec. tauto.
Qed.

(** The runs [List] answers are exactly those of the requested page of the
    table, newest first, that have the requested status, namespace and flow;
    no run in any other state is ever listed as, say, pending. *)
Theorem Runs_List_spec q tbl r :
  let page := if query_int (rq_page q) <=? 0 then 1 else query_int (rq_page q) in
  let size := if query_int (rq_size q) <=? 0 then 50 else query_int (rq_size q) in
  exists runs, Runs_List no_db_error q tbl = Reply 200 (runs, Z.of_nat (length runs)) /\
    Z.of_nat (length runs) <= size /\
    (r ∈ runs <->
     r ∈ page_items (live_rows tbl) page size /\
     selects (rq_status q) (RunStatus_string (r_Status (rr_run r))) /\
     selects (rq_k8s q) (r_K8sNamespace (rr_run r)) /\ selects (rq_flow q) (r_AgentFlowID (rr_run r))).
Proof.
  intros page size. unfold Runs_List, db, no_db_error. fold page. fold size.
  assert (1 <= page /\ 1 <= size) as [Hp Hs].
  { unfold page, size. destruct (Z.leb_spec (query_int (rq_page q)) 0), (Z.leb_spec (query_int (rq_size q)) 0); lia. }
  unfold store_Select, norm_page, NewPage. cbn [pg_Items pg_Page pg_Size].
  destruct (Z.ltb_spec page 1); [lia|]. destruct (Z.ltb_spec size 1); [lia|].
  eexists. split; [reflexivity|]. split; [|apply filterRuns_elem].
  assert (forall l st ns fl, length (filterRuns l st ns fl) <= length l)%nat as Hf.
  { intros l st ns fl. unfold filterRuns. destruct (_ && _ && _); [done|apply List.filter_length_le]. }
  specialize (Hf (page_items (live_rows tbl) page size) (rq_status q) (rq_k8s q) (rq_flow q)).
  assert (length (page_items (live_rows tbl) page size) <= Z.to_nat size)%nat by (unfold page_items; rewrite length_take; lia).
  lia.
Qed.

Definition with_error (e : string) (r : FlowRunInfo) : FlowRunInfo :=
  set_run (r_ID r) (r_Status r) (r_Vars r) e (r_StartedAt r) (r_FinishedAt r) r.

(** The run an update leaves. *)
Definition updated (status error : string) (r : FlowRunInfo) : FlowRunInfo :=
  let r := if String.eqb status "" then r else run_status (RunStatus_of_string status) r in
  if String.eqb error "" then r else with_error error r.

Lemma set_run_self r : set_run (r_ID r) (r_Status r) (r_Vars r) (r_Error r) (r_StartedAt r) (r_FinishedAt r) r = r.
Proof. by destruct r. Qed.

(** An update of a run answers 400 for a body that does not decode, 404 for
    a run that is not there and 200 otherwise; it then changes exactly the
    status and the error that were given of that run, keeps its output, and
    leaves every other run as it was. *)
Theorem Runs_Update_spec id now body tbl :
  match Runs_Update no_db_error id now body tbl with
  | (Fail c _, tbl') => tbl' = tbl /\ (c = 400 /\ body = None \/ c = 404 /\ store_Get id tbl = None)
  | (Reply c _, tbl') => c = 200 /\
      exists status error row, body = Some (status, error) /\ store_Get id tbl = Some row /\
        store_Get id tbl' = Some {| rr_run := updated status error (rr_run row); rr_output := rr_output row;
                                    rr_created := rr_created row; rr_updated := now; rr_deleted := false |} /\
        forall id', id' <> id -> store_Get id' tbl' = store_Get id' tbl
  end.
Proof.
  unfold Runs_Update, no_db_error, get_run. destruct body as [[status error]|]; [|split; [done|by left]].
  destruct (store_Get id tbl) as [row|] eqn:EG; [|split; [done|by right]].
  split; [done|]. exists status, error, row. do 2 (split; [done|]).
  apply store_Get_key in EG as HG. destruct HG as (Hk & Hd & _). cbn in Hk, Hd.
  match goal with |- context [run_Update now ?r _ tbl] => change r with (updated status error (rr_run row)) end.
  assert (r_ID (updated status error (rr_run row)) = id) as Hid.
  { unfold updated. by destruct (String.eqb status ""), (String.eqb error ""). }
  split.
  - rewrite run_Get_Update, Hid, String.eqb_refl, EG. cbn. rewrite Hd. f_equal. f_equal.
    unfold updated. rewrite <- Hk. destruct (rr_run row).
    by destruct (String.eqb status ""), (String.eqb error "").
  - intros id' Hne. rewrite run_Get_Update, Hid. by destruct (String.eqb_spec id id').
Qed.

(** ** Approvals *)

(** Approving or rejecting answers 404 when no live approval has the token
    and changes nothing; otherwise exactly that approval gets the decision,
    and every other approval stays as it was. *)
Theorem resolve_approval_spec token now approved tbl :
  match resolve_approval no_db_error token now approved tbl with
  | (Fail c _, tbl') => c = 404 /\ tbl' = tbl /\ store_Get token tbl = None
  | (Reply c _, tbl') => c = 200 /\
      exists row, store_Get token tbl = Some row /\
        (exists row', store_Get token tbl' = Some row' /\
           ap_Status (ar_info row') = (if approved then "APPROVED" else "REJECTED") /\
           ap_Approved (ar_info row') = Some approved /\ ap_Token (ar_info row') = token /\
           ap_TaskRunID (ar_info row') = ap_TaskRunID (ar_info row)) /\
        forall token', token' <> token -> store_Get token' tbl' = store_Get token' tbl
  end.
Proof.
  unfold resolve_approval, get_approval, no_db_error.
  destruct (store_Get token tbl) as [row|] eqn:EG; cbn [fmap option_fmap option_map]; [|done].
  split; [done|]. exists row. split; [done|].
  apply store_Get_key in EG as HG. destruct HG as (Hk & _ & _). cbn in Hk.
  assert (forall st, ap_Token (approval_status st (Some approved) (ar_info row)) = token) as Ht by done.
  split.
  - rewrite approval_Get_Update, Ht, String.eqb_refl, EG. cbn. eexists. split; [done|]. split_and!; done.
  - intros token' Hne. rewrite approval_Get_Update, Ht. by destruct (String.eqb_spec token token').
Qed.

(** ** Waiting *)

(** The table after some ticks. *)
Fixpoint ticked (evs : list poll_event) (tbl : list ApprovalRow) : option (list ApprovalRow) :=
  match evs with
  | [] => Some tbl
  | PTick others :: evs' => ticked evs' (others tbl)
  | _ => None
  end.

Lemma await_approved approval token timeout now evs tbl r tbl' :
  await_approval approval token timeout now evs tbl = (Some (Ok r), tbl') ->
  r = None /\ exists before row, before `prefix_of` evs /\ ticked before tbl = Some tbl' /\
    store_Get token tbl' = Some row /\ ap_Status (ar_info row) = "APPROVED".
Proof.
  induction evs as [|ev evs IH] in tbl |- *; cbn; [done|].
  destruct ev as [others|others|err]; [|done|done].
  destruct (store_Get token (others tbl)) as [row|] eqn:EG.
  - destruct (String.eqb_spec (ap_Status (ar_info row)) "APPROVED") as [Ha|Ha].
    + intros [= <- <-]. split; [done|]. exists [PTick others], row. split_and!; try done. by exists evs.
    + destruct (String.eqb _ "REJECTED"); [done|]. intros (-> & before & row' & [k ->] & Ht & Hg)%IH.
      split; [done|]. exists (PTick others :: before), row'. split; [by exists k|]. done.
  - intros (-> & before & row' & [k ->] & Ht & Hg)%IH. split; [done|].
    exists (PTick others :: before), row'. split; [by exists k|]. done.
Qed.

Lemma await_absent approval token timeout now evs tbl r tbl' :
  store_Get token tbl = None ->
  Forall (fun ev => match ev with
                    | PTick others => forall t, store_Get token t = None -> store_Get token (others t) = None
                    | _ => True end) evs ->
  await_approval approval token timeout now evs tbl = (Some r, tbl') -> is_ok r = false.
Proof.
  intros Hn Hev. revert tbl Hn. induction Hev as [|ev evs He _ IH]; intros tbl Hn; cbn; [done|].
  destruct ev as [others|others|err]; [|by intros [= <- _]|by intros [= <- _]].
  rewrite (He tbl Hn). apply IH. by apply He.
Qed.

(** C35: with the PostgreSQL store a payment is approved only when, at a tick
    before its deadline, the approval created for it under its own token is
    marked approved.  With the SQLite store, which replaces the token of every
    approval it creates, no wait ever ends in an approval, whatever the
    operators do, unless someone makes an approval with the token the waiter
    drew. *)
Theorem approval_wait_outcome sqlite intent_id token id fresh timeout ns now evs tbl r tbl' :
  RequestApproval sqlite intent_id token id fresh timeout ns now None evs tbl = (Some r, tbl') ->
  (is_ok r = true ->
     r = Ok None /\ exists row, store_Get token tbl' = Some row /\ ap_Status (ar_info row) = "APPROVED") /\
  (sqlite = true -> fresh <> token -> store_Get token tbl = None ->
     Forall (fun ev => match ev with
                       | PTick others => forall t, store_Get token t = None -> store_Get token (others t) = None
                       | _ => True end) evs ->
     is_ok r = false).
Proof.
  unfold RequestApproval, store_CreateApproval. cbn zeta beta. intros Ha. split.
  - destruct r as [r|]; [|done]. intros _. apply await_approved in Ha as (-> & before & row & _ & _ & Hg).
    split; [done|]. by exists row.
  - intros -> Hf Hn Hev. eapply await_absent; [|exact Hev|exact Ha].
    rewrite store_Get_Save. cbn. by destruct (String.eqb_spec fresh token).
Qed.

(** ** Concrete runs *)

Definition approve_all (tbl : list ApprovalRow) : list ApprovalRow :=
  fold_left (fun t r => (Approve no_db_error (ap_Token (ar_info r)) 5 t).2) tbl tbl.

(** Two ticks, an operator approving everything before the second, then the
    deadline. *)
Definition demo_wait : list poll_event := [PTick id; PTick approve_all; PDeadline id].

Lemma approval_wait_outcome_witness :
  exists r tbl', RequestApproval false "i1" "tok" "id" "fresh" "24h0m0s" 1 0 None demo_wait [] = (Some r, tbl') /\
    exists row, store_Get "tok" tbl' = Some row /\ ap_Status (ar_info row) = "APPROVED".
Proof.
  do 2 eexists. split; [vm_compute; reflexivity|].
  apply (approval_wait_outcome false "i1" "tok" "id" "fresh" "24h0m0s" 1 0 demo_wait [] (Ok None)); reflexivity.
Defined.

(** The same approvals with the SQLite store: the payment times out, and the
    approval the operator gave is overwritten as expired. *)
Lemma sqlite_payment_approval_times_out :
  match RequestApproval true "i1" "tok" "id" "fresh" "24h0m0s" 1 0 None demo_wait [] with
  | (Some (Err _), [row]) => ap_Status (ar_info row) = "EXPIRED"
  | _ => False
  end.
Proof. vm_compute. reflexivity. Qed.

(** One approval that is created with an expiry makes SQLite list none. *)
Lemma expiry_hides_all id token now a e tbl :
  ap_ExpiresAt a = Some e ->
  exists err, ListPendingApprovals no_db_error true (CreateApproval no_db_error true id token now (Some a) tbl).2 = Fail 500 err.
Proof.
  intros He. set (tbl' := (CreateApproval _ _ _ _ _ _ _).2).
  assert (Hf : is_ok (ListPending tbl') = false).
  { apply not_true_iff_false. rewrite ListPending_ok_iff. intros Hnone.
    set (e' := set_approval id token "PENDING" (ap_Approved a) (ap_Comment a) (ap_ResolvedAt a) (approval_status "PENDING" (ap_Approved a) a)).
    specialize (Hnone {| ar_info := e'; ar_created := now; ar_updated := now; ar_deleted := false |}).
    cbn in Hnone. rewrite He in Hnone. destruct Hnone as [[=] _]; [|done].
    unfold tbl'. cbn. unfold store_Save. apply elem_of_app. right. by apply list_elem_of_singleton. }
  clearbody tbl'. unfold ListPendingApprovals, db. cbn.
  destruct (ListPending tbl') as [l|err]; [discriminate Hf|]. by exists err.
Qed.

(** A rejected approval can be approved afterwards. *)
Lemma rejected_then_approved :
  let a := {| ap_ID := "a"; ap_TaskRunID := "t"; ap_AgentFlowRunID := ""; ap_Token := "tok"; ap_Status := "";
              ap_Approved := None; ap_Comment := ""; ap_Timeout := 0; ap_ExpiresAt := None; ap_ResolvedAt := None |} in
  let tbl := (CreateApproval no_db_error false "a" "tok" 0 (Some a) []).2 in
  let tbl := (Reject no_db_error "tok" 1 tbl).2 in
  let tbl := (Approve no_db_error "tok" 2 tbl).2 in
  (fun r => ap_Status (ar_info r)) <$> store_Get "tok" tbl = Some "APPROVED".
Proof. vm_compute. reflexivity. Qed.

(** A cancelled run can be put back to pending. *)
Lemma cancelled_run_revived :
  let tbl := (Runs_Cancel no_db_error "r1" 5 demo_runs).2 in
  let tbl := (Runs_Update no_db_error "r1" 6 (Some ("PENDING", "")) tbl).2 in
  (fun r => r_Status (rr_run r)) <$> store_Get "r1" tbl = Some RunPending.
Proof. vm_compute. reflexivity. Qed.

(** Filters apply after the page is cut: with enough newer runs an older one
    that matches is not listed, and the count announced is that of the page. *)
Lemma filter_misses_older_runs :
  let tbl := demo_run_row "old" RunRunning 0 :: map (fun n => demo_run_row (pretty n) RunCompleted (Z.of_nat n)) (seq 1 100) in
  Runs_List no_db_error {| rq_page := "1"; rq_size := "100"; rq_status := "RUNNING"; rq_k8s := ""; rq_flow := "f" |} tbl
  = Reply 200 ([], 0) /\
  exists row, store_Get "old" tbl = Some row /\ r_Status (rr_run row) = RunRunning.
Proof. vm_compute. split; [reflexivity|]. by eexists. Qed.

(** An update of a task's status alone erases its input and output. *)
Lemma task_update_erases :
  let t out := {| tr_task := {| t_ID := "t1"; t_AgentFlowRunID := "r1"; t_NodeID := "n"; t_Status := Running;
                     t_Input := out; t_Output := out; t_Error := ""; t_MaxRetries := 0; t_ExecID := "";
                     t_FinishedAt := None |};
                  tr_retry := 0; tr_sequence := 0; tr_started := None; tr_created := 0; tr_updated := 0;
                  tr_deleted := false |} in
  let tbl := (UpdateTask no_db_error "t1" 3 (Some (t None)) [t (Some [("a", VInt 1)])]).2 in
  (fun r => t_Output (tr_task r)) <$> store_Get "t1" tbl = Some None.
Proof. vm_compute. reflexivity. Qed.
