(* ===== verification/Flows.v ===== *)
(** * The API of flow definitions, and webhooks

    [pkg/api/pkg/handler/flow_def.go]: definitions kept in the store and in a
    map in memory, watchers of changes, and the creation of runs from a
    trigger.  [webhook.go]: deliveries of GitHub, GitLab and Gitea turned into
    runs of the flows that ask for them.  Times of definitions are not kept. *)

From S2P Require Export ApiRuns.

Local Open Scope string_scope.
Local Open Scope list_scope.
Local Open Scope Z_scope.

(** ** Configuration *)

Definition defaultNamespacePrefix (prefix : string) : string :=
  if String.eqb prefix "" then "flowgent-" else prefix.
Definition coalesceNamespace (namespace : string) : string :=
  if String.eqb namespace "" then "default" else namespace.

Definition PriorityHigh : string := "high".

Definition normalizePriority (p : string) : res string :=
  if String.eqb p "" then Ok PriorityHigh
  else if negb (String.eqb p PriorityHigh)
  then Err ("priority " +:+ Quote p +:+ " is not supported (Session mode is disabled; only " +:+
            Quote PriorityHigh +:+ " is currently accepted)")
  else Ok p.

(** [FlowDefHandler], with the tables its stores keep. *)
Record FlowAPI := {
  fa_namespacePrefix : string;
  fa_defaultNamespace : string;
  fa_mqtt : bool;
  fa_agentFlows : gmap string FlowInfo;
  fa_watchVersion : Z;
  fa_watchChs : list nat;
  fa_defs : list FlowVersionInfo;
  fa_runs : list RunRow;
}.

Definition with_flows (m : gmap string FlowInfo) (defs : list FlowVersionInfo) (h : FlowAPI) : FlowAPI :=
  {| fa_namespacePrefix := fa_namespacePrefix h; fa_defaultNamespace := fa_defaultNamespace h;
     fa_mqtt := fa_mqtt h; fa_agentFlows := m; fa_watchVersion := fa_watchVersion h;
     fa_watchChs := fa_watchChs h; fa_defs := defs; fa_runs := fa_runs h |}.
Definition with_runs (runs : list RunRow) (h : FlowAPI) : FlowAPI :=
  {| fa_namespacePrefix := fa_namespacePrefix h; fa_defaultNamespace := fa_defaultNamespace h;
     fa_mqtt := fa_mqtt h; fa_agentFlows := fa_agentFlows h; fa_watchVersion := fa_watchVersion h;
     fa_watchChs := fa_watchChs h; fa_defs := fa_defs h; fa_runs := runs |}.
Definition with_watch (v : Z) (chs : list nat) (h : FlowAPI) : FlowAPI :=
  {| fa_namespacePrefix := fa_namespacePrefix h; fa_defaultNamespace := fa_defaultNamespace h;
     fa_mqtt := fa_mqtt h; fa_agentFlows := fa_agentFlows h; fa_watchVersion := v;
     fa_watchChs := chs; fa_defs := fa_defs h; fa_runs := fa_runs h |}.

(** The flows by id, sub-flows by their key last. *)
Definition flow_map (agentFlows : list FlowInfo) (subFlows : gmap string FlowInfo) : gmap string FlowInfo :=
  subFlows ∪ fold_left (fun m f => <[f_ID f := f]> m) agentFlows ∅.

Definition NewFlowDefHandler (agentFlows : list FlowInfo) (subFlows : gmap string FlowInfo)
    (namespacePrefix defaultNamespace : string) (mqtt : bool)
    (defs : list FlowVersionInfo) (runs : list RunRow) : FlowAPI :=
  {| fa_namespacePrefix := defaultNamespacePrefix namespacePrefix;
     fa_defaultNamespace := coalesceNamespace defaultNamespace; fa_mqtt := mqtt;
     fa_agentFlows := flow_map agentFlows subFlows; fa_watchVersion := 1; fa_watchChs := [];
     fa_defs := defs; fa_runs := runs |}.

(** ** Watching *)

(** [notifyWatchers]: the channels it closes. *)
Definition notifyWatchers (h : FlowAPI) : FlowAPI * list nat :=
  (with_watch (i64 (fa_watchVersion h + 1)) [] h, fa_watchChs h).

Definition flow_event (eventType flowID namespaceID : string) : event :=
  (if String.eqb eventType "DELETED" then CtrlFlowDeletedTopic namespaceID flowID
   else CtrlFlowUpdatedTopic namespaceID flowID,
   [("event_type", VStr eventType); ("flow_id", VStr flowID); ("namespace_id", VStr namespaceID)]).

Section Handlers.
Variable db_err : string -> option string.

(** The first thousand definitions without the skills; one that does not
    decode stays. *)
Definition Flows_List (h : FlowAPI) : reply (list FlowVersionInfo) :=
  match db_err "Select" with
  | Some err => Fail 500 err
  | None =>
      Reply 200 (List.filter (fun item => match fv_Definition item with
                                          | Some spec => negb (EqualFold (f_Kind spec) "skill")
                                          | None => true
                                          end)
                   (pg_Items (store_Select {| pg_Page := 1; pg_Size := 1000 |} (fa_defs h))))
  end.

(** A watch answers at once, or waits on a channel. *)
Inductive watch_result :=
| WatchNow (r : reply (list FlowVersionInfo))
| WatchWait (ch : nat).

Definition Watch (since : Z) (ch : nat) (h : FlowAPI) : watch_result * FlowAPI :=
  if since <? fa_watchVersion h then (WatchNow (Flows_List h), h)
  else (WatchWait ch, with_watch (fa_watchVersion h) (fa_watchChs h ++ [ch]) h).

Definition Reload (flows : list FlowInfo) (subFlows : gmap string FlowInfo) (h : FlowAPI) : FlowAPI * list nat :=
  notifyWatchers (with_flows (flow_map flows subFlows) (fa_defs h) h).

(** ** Definitions *)

Definition set_spec (prio ns : string) (s : FlowInfo) : FlowInfo :=
  {| f_ID := f_ID s; f_Namespace := ns; f_Description := f_Description s; f_Kind := f_Kind s; f_Vars := f_Vars s;
     f_Nodes := f_Nodes s; f_Edges := f_Edges s; f_Triggers := f_Triggers s; f_Priority := prio;
     f_K8sNamespace := f_K8sNamespace s |}.

(** The answer, the handler's new state, the events and the watchers woken. *)
Definition outcome (B : Type) := (reply B * FlowAPI * list event * list nat)%type.

(** The end of a change: watchers are woken and the event published. *)
Definition changed {B} (r : reply B) (ev : event) (h : FlowAPI) : outcome B :=
  let (h, woken) := notifyWatchers h in (r, h, publish (fa_mqtt h) ev, woken).

Definition Flows_Create (namespace user : string) (now : Z) (body : option FlowInfo) (h : FlowAPI)
    : outcome FlowInfo :=
  match body with
  | None => (Fail 400 "invalid body", h, [], [])
  | Some spec =>
      if String.eqb (f_ID spec) "" then (Fail 400 "id required", h, [], [])
      else match normalizePriority (f_Priority spec) with
           | Err err => (Fail 400 err, h, [], [])
           | Ok priority =>
               let spec := set_spec priority namespace spec in
               match db_err "SaveSpec" with
               | Some _ => (Fail 500 "internal", h, [], [])
               | None =>
                   changed (Reply 201 spec) (flow_event "CREATED" (f_ID spec) namespace)
                     (with_flows (<[f_ID spec := spec]> (fa_agentFlows h))
                        (SaveSpec now spec user "API create" (fa_defs h)) h)
               end
           end
  end.

Definition load_spec (id : string) (h : FlowAPI) : option FlowInfo :=
  match db_err "GetSpec" with Some _ => None | None => GetSpec id (fa_defs h) end.

Definition Flows_Get (id : string) (h : FlowAPI) : reply FlowInfo * FlowAPI :=
  match fa_agentFlows h !! id with
  | Some cached => (Reply 200 cached, h)
  | None =>
      match load_spec id h with
      | None => (Fail 404 "not found", h)
      | Some spec => (Reply 200 spec, with_flows (<[id := spec]> (fa_agentFlows h)) (fa_defs h) h)
      end
  end.

(** A body of an update: lists and maps that are not given are [nil]. *)
Record FlowUpdate := {
  fu_Description : string; fu_Nodes : option (list Node); fu_Edges : option (list Edge);
  fu_Priority : string; fu_Vars : option gomap;
}.

Definition apply_update (u : FlowUpdate) (priority : string) (s : FlowInfo) : FlowInfo :=
  {| f_ID := f_ID s; f_Namespace := f_Namespace s;
     f_Description := if String.eqb (fu_Description u) "" then f_Description s else fu_Description u;
     f_Kind := f_Kind s;
     f_Vars := match fu_Vars u with Some v => v | None => f_Vars s end;
     f_Nodes := match fu_Nodes u with Some n => n | None => f_Nodes s end;
     f_Edges := match fu_Edges u with Some e => e | None => f_Edges s end;
     f_Triggers := f_Triggers s; f_Priority := priority; f_K8sNamespace := f_K8sNamespace s |}.

Definition Flows_Update (id user : string) (now : Z) (body : option FlowUpdate) (h : FlowAPI) : outcome FlowInfo :=
  match load_spec id h with
  | None => (Fail 404 "not found", h, [], [])
  | Some existing =>
      match body with
      | None => (Fail 400 "invalid body", h, [], [])
      | Some u =>
          match (if String.eqb (fu_Priority u) "" then Ok (f_Priority existing)
                 else normalizePriority (fu_Priority u)) with
          | Err err => (Fail 400 err, h, [], [])
          | Ok priority =>
              let spec := apply_update u priority existing in
              match db_err "SaveSpec" with
              | Some _ => (Fail 500 "internal", h, [], [])
              | None =>
                  changed (Reply 200 spec) (flow_event "UPDATED" id (f_Namespace spec))
                    (with_flows (<[id := spec]> (fa_agentFlows h))
                       (SaveSpec now spec user "API update" (fa_defs h)) h)
              end
          end
      end
  end.

Definition Flows_Delete (namespace id : string) (now : Z) (h : FlowAPI) : outcome unit :=
  match db_err "Delete" with
  | Some _ => (Fail 500 "internal", h, [], [])
  | None =>
      changed (Reply 204 tt) (flow_event "DELETED" id namespace)
        (with_flows (delete id (fa_agentFlows h)) (store_Delete now id (fa_defs h)) h)
  end.

(** ** Runs from triggers *)

Definition applicationNamespace (h : FlowAPI) (spec : FlowInfo) : string :=
  if negb (String.eqb (f_K8sNamespace spec) "") then f_K8sNamespace spec
  else fa_namespacePrefix h +:+
       (if String.eqb (f_Namespace spec) "" then fa_defaultNamespace h else f_Namespace spec).

Definition trigger_event (namespaceID flowID : string) (run : FlowRunInfo) : event :=
  (CtrlRunCreatedTopic namespaceID flowID (r_ID run),
   [("action", VStr "created"); ("run_id", VStr (r_ID run)); ("agentflow_id", VStr flowID);
    ("namespace_id", VStr namespaceID); ("namespace", VStr (r_K8sNamespace run));
    ("trigger_type", VStr (ti_Type (r_Trigger run)))]).

Definition errFlowNotFound : string := "agentflow not found".

(** The run of a trigger before it is stored. *)
Definition trigger_run (h : FlowAPI) (agentFlowID : string) (spec : FlowInfo) (vars : gomap)
    (trigger : TriggerInfo) : FlowRunInfo :=
  let ns := applicationNamespace h spec in
  let ns := if String.eqb ns "" then f_Namespace spec else ns in
  {| r_ID := ""; r_Namespace := ns; r_AgentFlowID := agentFlowID; r_Version := 1; r_Status := RunPending;
     r_Vars := vars; r_Error := ""; r_Trigger := trigger; r_StartedAt := None; r_FinishedAt := None;
     r_K8sNamespace := ns; r_Priority := f_Priority spec |}.

(** [id] is the run's fresh id; the namespace of the request is not used. *)
Definition CreateRunFromTrigger (agentFlowID id : string) (now : Z) (vars : gomap) (trigger : TriggerInfo)
    (h : FlowAPI) : res string * FlowAPI * list event :=
  match (match fa_agentFlows h !! agentFlowID with Some s => Some s | None => load_spec agentFlowID h end) with
  | None => (Err errFlowNotFound, h, [])
  | Some spec =>
      match db_err "Create" with
      | Some err => (Err err, h, [])
      | None =>
          let (run, runs) := run_Create id now (trigger_run h agentFlowID spec vars trigger) (fa_runs h) in
          let namespaceID := if String.eqb (f_Namespace spec) "" then fa_defaultNamespace h else f_Namespace spec in
          (Ok (r_ID run), with_runs runs h, publish (fa_mqtt h) (trigger_event namespaceID agentFlowID run))
      end
  end.

(** The answer: run, status, namespace of the request, flow. *)
Definition TriggerWithVars (namespace agentFlowID id : string) (now : Z) (vars : gomap) (trigger : TriggerInfo)
    (h : FlowAPI) : reply (string * string * string * string) * FlowAPI * list event :=
  match CreateRunFromTrigger agentFlowID id now vars trigger h with
  | (Err err, h, evs) =>
      (if String.eqb err errFlowNotFound then Fail 404 "agentflow not found" else Fail 500 "internal", h, evs)
  | (Ok runID, h, evs) => (Reply 200 (runID, RunStatus_string RunPending, namespace, agentFlowID), h, evs)
  end.

(** [Trigger] and [TriggerByID], which ignores a body that does not decode. *)
Definition Trigger (namespace id : string) (now : Z) (body : option (string * gomap * TriggerInfo)) (h : FlowAPI) :=
  match body with
  | None => (Fail 400 "invalid body", h, [])
  | Some (agentFlowID, vars, trigger) => TriggerWithVars namespace agentFlowID id now vars trigger h
  end.

Definition no_trigger : TriggerInfo := {| ti_Type := ""; ti_Source := ""; ti_Payload := [] |}.

Definition TriggerByID (namespace flowID id : string) (now : Z) (body : option (gomap * TriggerInfo)) (h : FlowAPI) :=
  let (vars, trigger) := match body with Some b => b | None => ([], no_trigger) end in
  TriggerWithVars namespace flowID id now vars trigger h.

(** ** Webhooks *)

Record WebhookEvent := {
  we_Provider : string; we_Event : string; we_Repo : string; we_Ref : string; we_CommitSHA : string;
  we_PRNumber : Z; we_Sender : string; we_Payload : gomap;
}.

Definition isSupportedProvider (p : string) : bool :=
  String.eqb p "github" || String.eqb p "gitlab" || String.eqb p "gitea".

Definition normalizeGitLabEvent (hd : string) : string :=
  let s := TrimSpace hd in
  if String.eqb s "Push Hook" || String.eqb s "Tag Push Hook" then "push"
  else if String.eqb s "Merge Request Hook" then "merge_request"
  else if String.eqb s "Note Hook" then "note"
  else if String.eqb s "Pipeline Hook" then "pipeline"
  else ToLower (ReplaceAll (TrimSuffix s " Hook") " " "_").

(** Header names are canonical. *)
Definition providerEvent (provider : string) (hdr : list (string * string)) : string :=
  if String.eqb provider "github" then header_get hdr "X-Github-Event"
  else if String.eqb provider "gitea"
  then let e := header_get hdr "X-Gitea-Event" in
       if String.eqb e "" then header_get hdr "X-Github-Event" else e
  else if String.eqb provider "gitlab" then normalizeGitLabEvent (header_get hdr "X-Gitlab-Event")
  else "".

(** The parts of the payloads that are decoded. *)
Record PullRequest := { pl_Number : Z; pl_HeadRef : string; pl_HeadSHA : string }.
Record GitHubRaw := {
  gh_Ref : string; gh_After : string; gh_Number : Z; gh_FullName : string; gh_HeadCommit : option string;
  gh_PullRequest : option PullRequest; gh_Sender : string;
}.
Record ObjectAttributes := { oa_IID : Z; oa_SourceBranch : string; oa_LastCommit : option string }.
Record GitLabRaw := {
  gl_ObjectKind : string; gl_Ref : string; gl_CheckoutSHA : string; gl_Path : string; gl_Username : string;
  gl_ObjectAttributes : option ObjectAttributes;
}.

Definition first_nonempty (a b : string) : string := if String.eqb a "" then b else a.

Definition empty_github : GitHubRaw :=
  {| gh_Ref := ""; gh_After := ""; gh_Number := 0; gh_FullName := ""; gh_HeadCommit := None;
     gh_PullRequest := None; gh_Sender := "" |}.
Definition empty_gitlab : GitLabRaw :=
  {| gl_ObjectKind := ""; gl_Ref := ""; gl_CheckoutSHA := ""; gl_Path := ""; gl_Username := "";
     gl_ObjectAttributes := None |}.

(** The body is empty, or decodes into the parts and the generic payload. *)
Definition parseGitHubLike (provider headerEvent : string) (body : option (res (GitHubRaw * gomap)))
    : res WebhookEvent :=
  let? parsed := (match body with None => Ok (empty_github, []) | Some r => r end) in
  let (raw, generic) := parsed in
  let event :=
    if String.eqb headerEvent ""
    then match gh_PullRequest raw with
         | Some _ => "pull_request"
         | None => if String.eqb (gh_Ref raw) "" then "" else "push"
         end
    else headerEvent in
  let sha := first_nonempty (match gh_HeadCommit raw with Some c => c | None => "" end) (gh_After raw) in
  match gh_PullRequest raw with
  | None => Ok {| we_Provider := provider; we_Event := event; we_Repo := gh_FullName raw; we_Ref := gh_Ref raw;
                  we_CommitSHA := sha; we_PRNumber := 0; we_Sender := gh_Sender raw; we_Payload := generic |}
  | Some pr =>
      Ok {| we_Provider := provider; we_Event := event; we_Repo := gh_FullName raw;
            we_Ref := first_nonempty (gh_Ref raw) (pl_HeadRef pr);
            we_CommitSHA := first_nonempty sha (pl_HeadSHA pr);
            we_PRNumber := if pl_Number pr =? 0 then gh_Number raw else pl_Number pr;
            we_Sender := gh_Sender raw; we_Payload := generic |}
  end.

Definition parseGitLab (headerEvent : string) (body : option (res (GitLabRaw * gomap))) : res WebhookEvent :=
  let? parsed := (match body with None => Ok (empty_gitlab, []) | Some r => r end) in
  let (raw, generic) := parsed in
  let event := first_nonempty headerEvent (gl_ObjectKind raw) in
  match gl_ObjectAttributes raw with
  | None => Ok {| we_Provider := "gitlab"; we_Event := event; we_Repo := gl_Path raw; we_Ref := gl_Ref raw;
                  we_CommitSHA := gl_CheckoutSHA raw; we_PRNumber := 0; we_Sender := gl_Username raw;
                  we_Payload := generic |}
  | Some oa =>
      Ok {| we_Provider := "gitlab"; we_Event := event; we_Repo := gl_Path raw;
            we_Ref := first_nonempty (gl_Ref raw) (oa_SourceBranch oa);
            we_CommitSHA := if String.eqb (gl_CheckoutSHA raw) ""
                            then match oa_LastCommit oa with Some c => c | None => "" end
                            else gl_CheckoutSHA raw;
            we_PRNumber := oa_IID oa; we_Sender := gl_Username raw; we_Payload := generic |}
  end.

(** The JSON decodings of a body ([None]: the body is empty). *)
Record Decodings := {
  dec_github : option (res (GitHubRaw * gomap)); dec_gitlab : option (res (GitLabRaw * gomap));
}.

Definition parseEvent (provider headerEvent : string) (body : Decodings) : res WebhookEvent :=
  if String.eqb provider "github" then parseGitHubLike "github" headerEvent (dec_github body)
  else if String.eqb provider "gitea" then parseGitHubLike "gitea" headerEvent (dec_github body)
  else if String.eqb provider "gitlab" then parseGitLab headerEvent (dec_gitlab body)
  else Err "unsupported provider".

Definition matchesWebhookTrigger (spec : FlowInfo) (evt : WebhookEvent) : bool :=
  existsb (fun t =>
    EqualFold (td_Type t) "webhook" && EqualFold (td_Provider t) (we_Provider evt) &&
    match td_Events t with [] => true | _ :: _ => existsb (fun e => EqualFold e (we_Event evt)) (td_Events t) end)
    (f_Triggers spec).

Definition put_nonempty (k v : string) (m : gomap) : gomap := if String.eqb v "" then m else mset k (VStr v) m.

Definition webhookVars (spec : FlowInfo) (evt : WebhookEvent) : gomap :=
  let vars := mset "webhook_event" (VStr (we_Event evt)) (mset "webhook_provider" (VStr (we_Provider evt)) (f_Vars spec)) in
  let vars := put_nonempty "commit_sha" (we_CommitSHA evt)
                (put_nonempty "ref" (we_Ref evt) (put_nonempty "webhook_repo" (we_Repo evt) vars)) in
  if we_PRNumber evt =? 0 then vars else mset "pr_number" (VInt (we_PRNumber evt)) vars.

Definition webhook_trigger (evt : WebhookEvent) : TriggerInfo :=
  {| ti_Type := "webhook"; ti_Source := we_Provider evt;
     ti_Payload := [("provider", VStr (we_Provider evt)); ("event", VStr (we_Event evt)); ("repo", VStr (we_Repo evt));
                    ("ref", VStr (we_Ref evt)); ("commit_sha", VStr (we_CommitSHA evt));
                    ("pr_number", VInt (we_PRNumber evt)); ("sender", VStr (we_Sender evt))] |}.

(** One turn of the loop of [dispatch]; [fresh] gives the id of a flow's run. *)
Definition dispatch_step (fresh : string -> string) (now : Z) (evt : WebhookEvent)
    (acc : list string * FlowAPI * list event) (kv : string * FlowInfo) : list string * FlowAPI * list event :=
  let '(runIDs, h, evs) := acc in
  let spec := kv.2 in
  if negb (matchesWebhookTrigger spec evt) then acc
  else match CreateRunFromTrigger (f_ID spec) (fresh (f_ID spec)) now (webhookVars spec evt) (webhook_trigger evt) h with
       | (Err _, h', evs') => (runIDs, h', evs ++ evs')
       | (Ok runID, h', evs') => (runIDs ++ [runID], h', evs ++ evs')
       end.

Definition dispatch `{RangeOrder} (fresh : string -> string) (now : Z) (evt : WebhookEvent) (h : FlowAPI)
    : list string * FlowAPI * list event :=
  fold_left (dispatch_step fresh now evt) (range_of (fa_agentFlows h)) ([], h, []).

(** [Handle]; [read_err] a failure to read the body. *)
Definition Webhook_Handle `{RangeOrder} (provider : string) (hdr : list (string * string)) (read_err : bool)
    (body : Decodings) (fresh : string -> string) (now : Z) (h : FlowAPI)
    : reply (WebhookEvent * list string) * FlowAPI * list event :=
  let provider := ToLower provider in
  if negb (isSupportedProvider provider)
  then (Fail 400 ("unsupported webhook provider: " +:+ Quote provider), h, [])
  else if read_err then (Fail 400 "read body", h, [])
  else match parseEvent provider (providerEvent provider hdr) body with
       | Err err => (Fail 400 ("parse " +:+ provider +:+ " webhook: " +:+ err), h, [])
       | Ok evt =>
           let '(runIDs, h, evs) := dispatch fresh now evt h in
           (Reply 202 (evt, runIDs), h, evs)
       end.

End Handlers.
