(* ===== verification/FlowsFacts.v ===== *)
(** * Properties of the API of flow definitions, and of webhooks

    What the handler keeps in memory is what the store has, whatever the calls
    and their failures; a definition is read back as it was written; a trigger
    adds one pending run, where a job manager looks for it; a webhook gives
    one run to each flow that asks for it. *)

From S2P Require Export Flows StoreFacts.

Local Open Scope string_scope.
Local Open Scope list_scope.
Local Open Scope Z_scope.

Definition no_error (_ : string) : option string := None.

(** ** What a handler has in memory *)

(** A row that decodes is of the flow it names. *)
Definition rows_named (tbl : list FlowVersionInfo) : Prop :=
  Forall (fun v => forall s, fv_Definition v = Some s -> f_ID s = fv_FlowID v) tbl.

Definition coherent (m : gmap string FlowInfo) (tbl : list FlowVersionInfo) : Prop :=
  map_Forall (fun id s => f_ID s = id /\ GetSpec id tbl = Some s) m.

Definition table_ok (tbl : list FlowVersionInfo) : Prop := versions_ok tbl /\ rows_named tbl.

Definition flows_ok (h : FlowAPI) : Prop :=
  table_ok (fa_defs h) /\ coherent (fa_agentFlows h) (fa_defs h).

Lemma rows_named_update id f tbl :
  (forall v, fv_FlowID (f v) = fv_FlowID v /\ fv_Definition (f v) = fv_Definition v) ->
  rows_named tbl -> rows_named (store_update id f tbl).
Proof.
  intros Hf. unfold rows_named, store_update. rewrite !Forall_forall. intros H w Hw.
  apply list_elem_of_In, in_map_iff in Hw as (v & <- & Hin%list_elem_of_In).
  destruct (String.eqb _ _); [|by apply H]. destruct (Hf v) as [-> ->]. by apply H.
Qed.

Lemma rows_named_SaveSpec now spec by_ c tbl : rows_named tbl -> rows_named (SaveSpec now spec by_ c tbl).
Proof.
  intros H. unfold SaveSpec. destruct (existsb _ _).
  - apply Forall_forall. intros w Hw. apply list_elem_of_In, in_map_iff in Hw as (v & <- & Hin%list_elem_of_In).
    destruct (is_spec_row spec v); [by intros s [= <-]|]. by apply (proj1 (Forall_forall _ _) H).
  - apply Forall_app. split; [done|]. constructor; [|done]. by intros s [= <-].
Qed.

Lemma table_ok_SaveSpec now spec by_ c tbl : table_ok tbl -> table_ok (SaveSpec now spec by_ c tbl).
Proof. intros [? ?]. split; [by apply SaveSpec_ok|by apply rows_named_SaveSpec]. Qed.

Lemma table_ok_Delete now id tbl : table_ok tbl -> table_ok (store_Delete now id tbl).
Proof. intros [? ?]. split; [by apply Delete_ok|by apply rows_named_update]. Qed.

Lemma GetSpec_row id tbl s :
  table_ok tbl -> GetSpec id tbl = Some s ->
  exists v, v ∈ tbl /\ fv_FlowID v = id /\ fv_deleted v = false /\ fv_Definition v = Some s.
Proof.
  intros [[Hnd _] _]. unfold GetSpec. rewrite latest_version_find by done.
  destruct (store_Get id tbl) as [v|] eqn:E; [|done]. intros Hs.
  apply store_Get_key in E as (E & Hd & Hin). by exists v.
Qed.

Lemma GetSpec_ID id tbl s : table_ok tbl -> GetSpec id tbl = Some s -> f_ID s = id.
Proof.
  intros Hok (v & Hin & <- & _ & Hs)%GetSpec_row; [|done]. by apply (proj1 (Forall_forall _ _) (proj2 Hok) v).
Qed.

Lemma row_GetSpec tbl v s :
  table_ok tbl -> v ∈ tbl -> fv_deleted v = false -> fv_Definition v = Some s ->
  GetSpec (fv_FlowID v) tbl = Some s.
Proof.
  intros [[Hnd _] _] Hin Hd Hs. unfold GetSpec. rewrite latest_version_find by done.
  assert (store_Get (fv_FlowID v) tbl = Some v) as ->; [|done].
  unfold store_Get. revert Hnd Hin. induction tbl as [|w tbl IH]; cbn; [by intros _ ?%not_elem_of_nil|].
  intros [Hn Hnd]%NoDup_cons [->|Hin]%elem_of_cons.
  - by rewrite String.eqb_refl, Hd.
  - destruct (String.eqb_spec (fv_FlowID w) (fv_FlowID v)) as [E|?]; cbn [andb]; [|by apply IH].
    exfalso. apply Hn. rewrite E. by apply list_elem_of_fmap_2.
Qed.

Lemma coherent_SaveSpec now spec by_ c tbl m :
  versions_ok tbl -> coherent m tbl ->
  coherent (<[f_ID spec := spec]> m) (SaveSpec now spec by_ c tbl).
Proof.
  intros Hv Hm id s. rewrite GetSpec_SaveSpec by done.
  destruct (String.eqb_spec (f_ID spec) id) as [<-|Hne].
  - rewrite lookup_insert_eq. by intros [= <-].
  - rewrite lookup_insert_ne by done. apply Hm.
Qed.

Lemma coherent_Delete now id tbl m :
  versions_ok tbl -> coherent m tbl -> coherent (delete id m) (store_Delete now id tbl).
Proof.
  intros Hv Hm id' s. rewrite GetSpec_Delete by done.
  destruct (String.eqb_spec id id') as [->|Hne]; [by rewrite lookup_delete_eq|].
  rewrite lookup_delete_ne by done. apply Hm.
Qed.

(** What is loaded at the start comes from rows that are not deleted. *)
Definition loaded_from (tbl : list FlowVersionInfo) (s : FlowInfo) : Prop :=
  exists v, v ∈ tbl /\ fv_deleted v = false /\ fv_Definition v = Some s.

Lemma LoadFromDB_rows tbl :
  Forall (loaded_from tbl) (LoadFromDB tbl).1 /\
  map_Forall (fun k s => k = f_ID s /\ loaded_from tbl s) (LoadFromDB tbl).2.
Proof.
  unfold LoadFromDB. set (items := pg_Items _).
  assert (Forall (fun v => v ∈ tbl /\ fv_deleted v = false) items) as Hit.
  { apply Forall_forall. intros v Hv. subst items. cbn in Hv. unfold page_items in Hv.
    apply elem_of_take in Hv as (i & Hv & _). rewrite lookup_drop in Hv.
    by apply list_elem_of_lookup_2, live_rows_elem in Hv. }
  assert (forall acc, Forall (loaded_from tbl) acc.1.1 ->
            map_Forall (fun k s => k = f_ID s /\ loaded_from tbl s) acc.1.2 ->
            let r := fold_left (fun (acc : list FlowInfo * gmap string FlowInfo * gset string) v =>
              let '(flows, subs, seen) := acc in
              if bool_decide (fv_FlowID v ∈ seen) then acc
              else let seen := {[fv_FlowID v]} ∪ seen in
                   match fv_Definition v with
                   | None => (flows, subs, seen)
                   | Some spec =>
                       if String.eqb (f_ID spec) "" then (flows, subs, seen)
                       else if String.eqb (f_Kind spec) "skill" then (flows, <[f_ID spec := spec]> subs, seen)
                       else (flows ++ [spec], subs, seen)
                   end) items acc in
            Forall (loaded_from tbl) r.1.1 /\
            map_Forall (fun k s => k = f_ID s /\ loaded_from tbl s) r.1.2) as H.
  { induction Hit as [|v items [Hin Hd] _ IH]; intros [[flows subs] seen] Hf Hs; [done|]. cbn [fold_left].
    destruct (bool_decide _); [by apply IH|].
    destruct (fv_Definition v) as [spec|] eqn:Es; [|by apply IH].
    assert (loaded_from tbl spec) as Hl by by exists v.
    destruct (String.eqb (f_ID spec) ""); [by apply IH|].
    destruct (String.eqb (f_Kind spec) "skill"); apply IH; cbn [fst snd] in *; try done.
    - by apply map_Forall_insert_2.
    - apply Forall_app. by repeat constructor. }
  specialize (H ([], ∅, ∅)). cbn in H. specialize (H ltac:(constructor) (map_Forall_empty _)).
  by destruct (fold_left _ _ _) as [[flows subs] seen].
Qed.

Lemma flow_map_coherent tbl :
  table_ok tbl -> coherent (flow_map (LoadFromDB tbl).1 (LoadFromDB tbl).2) tbl.
Proof.
  intros Hok. destruct (LoadFromDB_rows tbl) as [Hf Hs].
  assert (forall s, loaded_from tbl s -> GetSpec (f_ID s) tbl = Some s) as Hl.
  { intros s (v & Hin & Hd & Es). rewrite ((proj1 (Forall_forall _ _) (proj2 Hok)) v Hin s Es).
    by apply row_GetSpec. }
  unfold flow_map. apply map_Forall_union_2.
  - intros k s Hk. destruct (Hs k s Hk) as [-> ?]. split; [done|by apply Hl].
  - assert (forall m, coherent m tbl -> coherent (fold_left (fun m f => <[f_ID f := f]> m) (LoadFromDB tbl).1 m) tbl) as H.
    { induction Hf as [|s l Hs' _ IH]; intros m Hm; cbn [fold_left]; [done|].
      apply IH. apply map_Forall_insert_2; [|done]. split; [done|by apply Hl]. }
    apply H, map_Forall_empty.
Qed.

(** ** Reachable handlers *)

(** A call, its failures of the database chosen freely. *)
Inductive flow_step : FlowAPI -> FlowAPI -> Prop :=
| step_create db_err ns user now body h :
    flow_step h (Flows_Create db_err ns user now body h).1.1.2
| step_get db_err id h : flow_step h (Flows_Get db_err id h).2
| step_update db_err id user now body h :
    flow_step h (Flows_Update db_err id user now body h).1.1.2
| step_delete db_err ns id now h : flow_step h (Flows_Delete db_err ns id now h).1.1.2
| step_watch db_err since ch h : flow_step h (Watch db_err since ch h).2
| step_reload h : flow_step h (Reload (LoadFromDB (fa_defs h)).1 (LoadFromDB (fa_defs h)).2 h).1
| step_trigger db_err ns id now body h : flow_step h (Trigger db_err ns id now body h).1.2
| step_trigger_id db_err ns f id now body h : flow_step h (TriggerByID db_err ns f id now body h).1.2
| step_webhook db_err `{RangeOrder} p hdr err body fresh now h :
    flow_step h (Webhook_Handle db_err p hdr err body fresh now h).1.2.

(** A server starts from what its database holds. *)
Inductive flow_reachable : FlowAPI -> Prop :=
| reach_start prefix ns mqtt defs runs :
    table_ok defs ->
    flow_reachable (NewFlowDefHandler (LoadFromDB defs).1 (LoadFromDB defs).2 prefix ns mqtt defs runs)
| reach_step h h' : flow_reachable h -> flow_step h h' -> flow_reachable h'.

Lemma CreateRunFromTrigger_frame db_err af id now vars t h :
  let h' := (CreateRunFromTrigger db_err af id now vars t h).1.2 in
  fa_agentFlows h' = fa_agentFlows h /\ fa_defs h' = fa_defs h /\
  fa_namespacePrefix h' = fa_namespacePrefix h /\ fa_defaultNamespace h' = fa_defaultNamespace h /\
  fa_mqtt h' = fa_mqtt h.
Proof.
  unfold CreateRunFromTrigger. destruct (fa_agentFlows h !! af) as [s|]; [|destruct (load_spec _ _ _) as [s|]]; try done.
  all: by destruct (db_err "Create").
Qed.

Lemma TriggerWithVars_frame db_err ns af id now vars t h :
  let h' := (TriggerWithVars db_err ns af id now vars t h).1.2 in
  fa_agentFlows h' = fa_agentFlows h /\ fa_defs h' = fa_defs h.
Proof.
  unfold TriggerWithVars. pose proof (CreateRunFromTrigger_frame db_err af id now vars t h) as H.
  destruct (CreateRunFromTrigger _ _ _ _ _ _ _) as [[[r|e] h'] evs]; cbn in *; tauto.
Qed.

Lemma dispatch_frame db_err fresh now evt kvs :
  forall acc, let h' := (fold_left (dispatch_step db_err fresh now evt) kvs acc).1.2 in
  fa_agentFlows h' = fa_agentFlows acc.1.2 /\ fa_defs h' = fa_defs acc.1.2.
Proof.
  induction kvs as [|[k s] kvs IH]; intros [[ids h] evs]; [done|]. cbn [fold_left].
  unfold dispatch_step at 2 4. cbn [snd].
  destruct (negb (matchesWebhookTrigger s evt)); [apply IH|].
  pose proof (CreateRunFromTrigger_frame db_err (f_ID s) (fresh (f_ID s)) now (webhookVars s evt) (webhook_trigger evt) h) as H.
  destruct (CreateRunFromTrigger _ _ _ _ _ _ _) as [[[r|e] h'] evs']; cbn in H.
  - destruct (IH (ids ++ [r], h', evs ++ evs')) as [-> ->]. cbn. tauto.
  - destruct (IH (ids, h', evs ++ evs')) as [-> ->]. cbn. tauto.
Qed.

Lemma flows_ok_same h h' :
  fa_agentFlows h' = fa_agentFlows h -> fa_defs h' = fa_defs h -> flows_ok h -> flows_ok h'.
Proof. unfold flows_ok. by intros -> ->. Qed.

Lemma load_spec_GetSpec db_err id h s : load_spec db_err id h = Some s -> GetSpec id (fa_defs h) = Some s.
Proof. unfold load_spec. by destruct (db_err _). Qed.

Lemma flow_step_ok h h' : flows_ok h -> flow_step h h' -> flows_ok h'.
Proof.
  intros Hok Hstep. pose proof Hok as [Ht Hc]. pose proof Ht as [Hv _].
  destruct Hstep as [db_err ns user now body h|db_err id h|db_err id user now body h|db_err ns id now h|
                     db_err since ch h|h|db_err ns id now body h|db_err ns f id now body h|db_err O p hdr err body fresh now h].
  - unfold Flows_Create. destruct body as [spec|]; [|done]. destruct (String.eqb _ _); [done|].
    destruct (normalizePriority _) as [prio|]; [|done]. destruct (db_err _); [done|].
    split; [by apply table_ok_SaveSpec|by apply coherent_SaveSpec].
  - unfold Flows_Get. destruct (fa_agentFlows h !! id); [done|].
    destruct (load_spec db_err id h) as [s|] eqn:Es; [|done]. apply load_spec_GetSpec in Es.
    split; [done|]. apply map_Forall_insert_2; [|done]. split; [by eapply GetSpec_ID|done].
  - unfold Flows_Update. destruct (load_spec db_err id h) as [s|] eqn:Es; [|done].
    apply load_spec_GetSpec in Es. apply GetSpec_ID in Es; [|done].
    destruct body as [u|]; [|done]. destruct (if String.eqb _ _ then _ else _) as [prio|]; [|done].
    destruct (db_err _); [done|].
    split; [by apply table_ok_SaveSpec|]. cbn -[SaveSpec apply_update].
    replace id with (f_ID (apply_update u prio s)) by done. by apply coherent_SaveSpec.
  - unfold Flows_Delete. destruct (db_err _); [done|].
    split; [by apply table_ok_Delete|by apply coherent_Delete].
  - unfold Watch. by destruct (_ <? _).
  - split; [done|by apply flow_map_coherent].
  - unfold Trigger. destruct body as [[[af vars] t]|]; [|done].
    eapply flows_ok_same; [apply TriggerWithVars_frame..|done].
  - unfold TriggerByID. destruct body as [[vars t]|]; (eapply flows_ok_same; [apply TriggerWithVars_frame..|done]).
  - unfold Webhook_Handle. destruct (negb _); [done|]. destruct err; [done|].
    destruct (parseEvent _ _ _) as [evt|]; [|done].
    pose proof (dispatch_frame db_err fresh now evt (range_of (fa_agentFlows h)) ([], h, [])) as H.
    unfold dispatch. destruct (fold_left _ _ _) as [[ids h'] evs]. cbn in H.
    by eapply flows_ok_same; [apply H..|].
Qed.

Lemma flow_reachable_ok h : flow_reachable h -> flows_ok h.
Proof.
  induction 1 as [prefix ns mqtt defs runs Hok|h h' _ IH Hstep]; [|by eapply flow_step_ok].
  split; [done|]. by apply flow_map_coherent.
Qed.

(** ** Reading a definition *)

(** C32: after any sequence of creations, updates, deletions, reads, watches,
    reloads, triggers and webhooks of one API server, each failing in any of
    its database calls or not, a definition is served exactly as the store has
    it: the cached copy of a flow is the flow's live row, and a flow without
    a live row is not found. *)
Theorem flow_cache_coherent h id :
  flow_reachable h ->
  (Flows_Get no_error id h).1 =
    match GetSpec id (fa_defs h) with Some s => Reply 200 s | None => Fail 404 "not found" end /\
  forall s, fa_agentFlows h !! id = Some s -> f_ID s = id /\ GetSpec id (fa_defs h) = Some s.
Proof.
  intros [_ Hc]%flow_reachable_ok. split.
  - unfold Flows_Get. destruct (fa_agentFlows h !! id) as [s|] eqn:E.
    + by rewrite (proj2 (Hc id s E)).
    + unfold load_spec. cbn. by destruct (GetSpec id (fa_defs h)).
  - intros s. apply Hc.
Qed.

(** ** Runs from triggers *)

Definition known_flow (h : FlowAPI) (id : string) : option FlowInfo :=
  match fa_agentFlows h !! id with Some s => Some s | None => GetSpec id (fa_defs h) end.

Definition triggered_row (h : FlowAPI) (af id : string) (now : Z) (spec : FlowInfo) (vars : gomap) (t : TriggerInfo)
    : RunRow :=
  {| rr_run := set_run id RunPending vars "" None None (trigger_run h af spec vars t);
     rr_output := None; rr_created := now; rr_updated := now; rr_deleted := false |}.

Lemma CreateRunFromTrigger_eq af id now vars t h :
  CreateRunFromTrigger no_error af id now vars t h =
  match known_flow h af with
  | None => (Err errFlowNotFound, h, [])
  | Some spec =>
      let row := triggered_row h af id now spec vars t in
      (Ok id, with_runs (store_Save row (fa_runs h)) h,
       publish (fa_mqtt h)
         (trigger_event (if String.eqb (f_Namespace spec) "" then fa_defaultNamespace h else f_Namespace spec) af
            (rr_run row)))
  end.
Proof.
  unfold CreateRunFromTrigger, known_flow, load_spec. cbn [no_error].
  destruct (fa_agentFlows h !! af) as [s|]; [done|]. by destruct (GetSpec af (fa_defs h)).
Qed.

Lemma prefix_nonempty (h : FlowAPI) spec :
  fa_namespacePrefix h <> "" -> applicationNamespace h spec <> "".
Proof.
  intros Hp. unfold applicationNamespace. destruct (String.eqb_spec (f_K8sNamespace spec) ""); cbn [negb]; [|done].
  by destruct (fa_namespacePrefix h).
Qed.

Lemma defaultNamespacePrefix_nonempty p : defaultNamespacePrefix p <> "".
Proof. unfold defaultNamespacePrefix. by destruct (String.eqb_spec p ""). Qed.

(** What the polls of a job manager ask for ([Runs_List] with the status and
    the namespace it serves). *)
Definition polled (ns : string) (rows : list RunRow) : list RunRow := filterRuns rows "PENDING" ns "".

(** A trigger of a flow that is in memory or in the store answers with the
    fresh id and adds one run: pending, of that flow, with the given variables
    and cause, in the flow's application namespace, in the rows that the job
    manager of that namespace polls; every other run stays as it was, and so
    do the definitions.  For any other flow nothing changes. *)
Theorem trigger_creates_one_run ns af id now vars t h :
  fa_namespacePrefix h <> "" ->
  match known_flow h af with
  | None => TriggerWithVars no_error ns af id now vars t h = (Fail 404 "agentflow not found", h, [])
  | Some spec =>
      let '(r, h', evs) := TriggerWithVars no_error ns af id now vars t h in
      r = Reply 200 (id, "PENDING", ns, af) /\
      (exists row, store_Get id (fa_runs h') = Some row /\
         r_AgentFlowID (rr_run row) = af /\ r_Status (rr_run row) = RunPending /\ r_Vars (rr_run row) = vars /\
         r_Trigger (rr_run row) = t /\ r_Priority (rr_run row) = f_Priority spec /\
         r_K8sNamespace (rr_run row) = applicationNamespace h spec /\
         row ∈ polled (applicationNamespace h spec) (fa_runs h')) /\
      (forall id', id' <> id -> store_Get id' (fa_runs h') = store_Get id' (fa_runs h)) /\
      fa_defs h' = fa_defs h /\ fa_agentFlows h' = fa_agentFlows h /\
      length evs = if fa_mqtt h then 1%nat else 0%nat
  end.
Proof.
  intros Hp. unfold TriggerWithVars. rewrite CreateRunFromTrigger_eq.
  destruct (known_flow h af) as [spec|]; [|done]. cbn zeta.
  assert ((trigger_run h af spec vars t).(r_K8sNamespace) = applicationNamespace h spec) as Hns.
  { unfold trigger_run. cbn. destruct (String.eqb_spec (applicationNamespace h spec) ""); [|done].
    by destruct (prefix_nonempty h spec Hp). }
  split_and!; try done.
  - exists (triggered_row h af id now spec vars t). split_and!; try done.
    + cbn [fa_runs with_runs]. rewrite store_Get_Save. cbn. by rewrite String.eqb_refl.
    + unfold polled, filterRuns. cbn [String.eqb andb].
      apply list_elem_of_In, filter_In. split.
      * unfold store_Save. apply in_app_iff. right. by left.
      * change (r_K8sNamespace (rr_run (triggered_row h af id now spec vars t)))
          with (r_K8sNamespace (trigger_run h af spec vars t)).
        rewrite Hns, !String.eqb_refl. cbn. by destruct (String.eqb (applicationNamespace h spec) "").
  - intros id' Hne. cbn [fa_runs with_runs]. rewrite store_Get_Save. cbn.
    by destruct (String.eqb_spec id id'); [congruence|].
  - cbn. unfold publish. by destruct (fa_mqtt h).
Qed.

(** ** Webhooks *)

Section Webhooks.
Context (fresh : string -> string) (now : Z) (evt : WebhookEvent).

Definition webhook_row (h : FlowAPI) (spec : FlowInfo) : RunRow :=
  triggered_row h (f_ID spec) (fresh (f_ID spec)) now spec (webhookVars spec evt) (webhook_trigger evt).

Definition asked (kvs : list (string * FlowInfo)) : list FlowInfo :=
  List.filter (fun s => matchesWebhookTrigger s evt) (map snd kvs).

Lemma webhook_row_same h h' spec :
  fa_namespacePrefix h' = fa_namespacePrefix h -> fa_defaultNamespace h' = fa_defaultNamespace h ->
  webhook_row h' spec = webhook_row h spec.
Proof.
  intros Ep Ed. unfold webhook_row, triggered_row, trigger_run, applicationNamespace. by rewrite Ep, Ed.
Qed.

Lemma store_Get_Saves (rows : list RunRow) tbl id :
  store_Get id (fold_left (fun t r => store_Save r t) rows tbl) =
  match find (fun r => String.eqb (row_key r) id) (rev rows) with
  | Some r => if row_deleted r then None else Some r
  | None => store_Get id tbl
  end.
Proof.
  revert tbl. induction rows as [|r rows IH] using rev_ind; intros tbl; [done|].
  rewrite fold_left_app, rev_app_distr. cbn [fold_left rev app find].
  rewrite store_Get_Save. by destruct (String.eqb (row_key r) id).
Qed.

(** The dispatch, as one batch of rows. *)
Lemma dispatch_batch kvs :
  forall ids h evs,
  (forall k s, (k, s) ∈ kvs -> fa_agentFlows h !! f_ID s = Some s) ->
  let rows := map (webhook_row h) (asked kvs) in
  let '(ids', h', evs') := fold_left (dispatch_step no_error fresh now evt) kvs (ids, h, evs) in
  ids' = ids ++ map row_key rows /\
  fa_runs h' = fold_left (fun t r => store_Save r t) rows (fa_runs h) /\
  fa_agentFlows h' = fa_agentFlows h /\ fa_defs h' = fa_defs h /\
  length evs' = (length evs + if fa_mqtt h then length rows else 0)%nat.
Proof.
  induction kvs as [|[k s] kvs IH]; intros ids h evs Hc.
  { cbn. split_and!; try done; [by rewrite app_nil_r|by destruct (fa_mqtt h); lia]. }
  unfold asked in *. cbn [fold_left map List.filter snd]. unfold dispatch_step at 2. cbn [snd].
  destruct (matchesWebhookTrigger s evt); cbn [negb].
  2: { apply IH. intros k' s' Hin. apply (Hc k' s'). by apply elem_of_cons; right. }
  rewrite CreateRunFromTrigger_eq. unfold known_flow.
  rewrite (Hc k s) by (by apply elem_of_cons; left). cbn zeta.
  match goal with |- context [with_runs ?r h] => set (h1 := with_runs r h) end.
  match goal with |- context [evs ++ ?e] => set (ev := e) end.
  specialize (IH (ids ++ [fresh (f_ID s)]) h1 (evs ++ ev)).
  destruct (fold_left _ _ _) as [[ids' h'] evs'].
  destruct IH as (-> & Er & Ea & Ed & El).
  { intros k' s' Hin. apply (Hc k' s'). by apply elem_of_cons; right. }
  assert (map (webhook_row h1) (List.filter (fun s => matchesWebhookTrigger s evt) (map snd kvs)) =
          map (webhook_row h) (List.filter (fun s => matchesWebhookTrigger s evt) (map snd kvs))) as E
    by (apply map_ext; intros; by apply webhook_row_same).
  rewrite E in *. split_and!; try done.
  - by rewrite <- app_assoc.
  - rewrite El, length_app. unfold ev, publish. subst h1. cbn. destruct (fa_mqtt h); cbn; lia.
Qed.

Lemma asked_elem kvs s : s ∈ asked kvs <-> exists k, (k, s) ∈ kvs /\ matchesWebhookTrigger s evt = true.
Proof.
  unfold asked. rewrite list_elem_of_In, filter_In, in_map_iff. split.
  - intros [([k s'] & <- & Hin%list_elem_of_In) Hm]. by exists k.
  - intros (k & Hk%list_elem_of_In & Hm). split; [|done]. by exists (k, s).
Qed.

Lemma asked_ids_NoDup kvs :
  (forall k s, (k, s) ∈ kvs -> f_ID s = k) -> NoDup (map fst kvs) -> NoDup (map f_ID (asked kvs)).
Proof.
  induction kvs as [|[k s] kvs IH]; intros Hk Hn; [constructor|].
  cbn [map fst] in Hn. apply NoDup_cons in Hn as [Hn1 Hn2].
  specialize (IH ltac:(intros k' s' Hin; apply (Hk k' s'), elem_of_cons; by right) Hn2).
  unfold asked in *. cbn [map List.filter snd].
  destruct (matchesWebhookTrigger s evt); [|done]. cbn [map]. apply NoDup_cons. split; [|done].
  intros (s' & Es & (k' & Hin & _)%list_elem_of_In%asked_elem)%list_elem_of_In%in_map_iff.
  apply Hn1. rewrite <- (Hk k s), <- Es, (Hk k' s'); [|by apply elem_of_cons; right|by apply elem_of_cons; left].
  apply list_elem_of_In, in_map_iff. exists (k', s'). by rewrite <- list_elem_of_In.
Qed.

Lemma batch_Get h specs tbl id :
  store_Get id (fold_left (fun t r => store_Save r t) (map (webhook_row h) specs) tbl) =
  match find (fun s => String.eqb (fresh (f_ID s)) id) (rev specs) with
  | Some s => Some (webhook_row h s)
  | None => store_Get id tbl
  end.
Proof.
  rewrite store_Get_Saves, <- map_rev. induction (rev specs) as [|s l IH]; [done|]. cbn [map find].
  change (row_key (webhook_row h s)) with (fresh (f_ID s)). by destruct (String.eqb _ id).
Qed.

End Webhooks.

(** A webhook that parses gives, whatever order the flows are walked in,
    exactly one pending run to every flow with a webhook trigger of that
    provider and event, with the event's variables laid over the flow's; it
    adds no other run, changes none, and reports the ids it made. *)
Theorem webhook_dispatch_spec (O : RangeOrder) fresh now evt h :
  flow_reachable h -> Inj (=) (=) fresh ->
  let '(ids, h', evs) := dispatch no_error fresh now evt h in
  (forall id, id ∈ ids <->
     exists k s, fa_agentFlows h !! k = Some s /\ matchesWebhookTrigger s evt = true /\ id = fresh k) /\
  NoDup ids /\
  (forall k s, fa_agentFlows h !! k = Some s -> matchesWebhookTrigger s evt = true ->
     store_Get (fresh k) (fa_runs h') = Some (webhook_row fresh now evt h s)) /\
  (forall id, id ∉ ids -> store_Get id (fa_runs h') = store_Get id (fa_runs h)) /\
  (fa_mqtt h = true -> length evs = length ids).
Proof.
  intros [_ Hc]%flow_reachable_ok Hinj. unfold dispatch. set (kvs := range_of (fa_agentFlows h)).
  assert (forall k s, (k, s) ∈ kvs <-> fa_agentFlows h !! k = Some s) as Hr
    by (intros; apply range_of_elem).
  assert (forall k s, (k, s) ∈ kvs -> f_ID s = k) as Hk by (intros k s Hin%Hr; by apply (Hc k s)).
  pose proof (dispatch_batch fresh now evt kvs [] h []) as H. cbn zeta in H.
  destruct (fold_left _ _ _) as [[ids h'] evs].
  destruct H as (-> & Er & Ea & Ed & El).
  { intros k s Hin. rewrite (Hk k s Hin). by apply Hr. }
  assert (map row_key (map (webhook_row fresh now evt h) (asked evt kvs)) = map fresh (map f_ID (asked evt kvs))) as Ek
    by (by rewrite !map_map).
  cbn [app]. rewrite Ek, Er, El. split_and!.
  - intros id. rewrite map_map, list_elem_of_In, in_map_iff. split.
    + intros (s & <- & (k & Hin & Hm)%list_elem_of_In%asked_elem). exists k, s.
      rewrite (Hk k s Hin). by apply Hr in Hin.
    + intros (k & s & Hin%Hr & Hm & ->). exists s. rewrite (Hk k s Hin). split; [done|].
      apply list_elem_of_In, asked_elem. by exists k.
  - apply NoDup_fmap_2; [done|]. apply asked_ids_NoDup; [done|].
    apply range_of_NoDup.
  - intros k s Hin%Hr Hm. rewrite batch_Get.
    destruct (find _ _) as [s'|] eqn:Ef.
    + apply find_some in Ef as [Hin'%in_rev%list_elem_of_In%asked_elem Hkey%String.eqb_eq%Hinj].
      destruct Hin' as (k' & Hin' & _). rewrite (Hk k' s' Hin') in Hkey. subst k'.
      apply Hr in Hin, Hin'. congruence.
    + assert (s ∈ asked evt kvs) as Ha%list_elem_of_In%in_rev by (apply asked_elem; by exists k).
      pose proof (find_none _ _ Ef _ Ha) as Hf. cbn in Hf. by rewrite (Hk k s Hin), String.eqb_refl in Hf.
  - intros id Hid. rewrite batch_Get. destruct (find _ _) as [s|] eqn:Ef; [|done]. exfalso. apply Hid.
    apply find_some in Ef as [Hin%in_rev <-%String.eqb_eq]. rewrite map_map.
    by apply list_elem_of_In, (in_map (fun s => fresh (f_ID s))).
  - intros ->. by rewrite !length_map.
Qed.

(** ** A concrete server *)

Definition demo_spec (id ns : string) (triggers : list TriggerDef) : FlowInfo :=
  {| f_ID := id; f_Namespace := ns; f_Description := ""; f_Kind := ""; f_Vars := [("lang", VStr "go")]; f_Nodes := [];
     f_Edges := []; f_Triggers := triggers; f_Priority := PriorityHigh; f_K8sNamespace := "" |}.
Definition demo_hook : TriggerDef :=
  {| td_Type := "webhook"; td_Cron := ""; td_Provider := "github"; td_Events := ["push"] |}.
Definition demo_defs : list FlowVersionInfo :=
  [spec_row (demo_spec "build" "acme" [demo_hook]) 1 "ann" ""; spec_row (demo_spec "report" "" []) 2 "ann" ""].
Definition demo_flows : FlowAPI :=
  NewFlowDefHandler (LoadFromDB demo_defs).1 (LoadFromDB demo_defs).2 "" "" true demo_defs [].
Definition demo_push : WebhookEvent :=
  {| we_Provider := "github"; we_Event := "push"; we_Repo := "acme/app"; we_Ref := "refs/heads/main";
     we_CommitSHA := "c0ffee"; we_PRNumber := 0; we_Sender := "ann"; we_Payload := [] |}.

Lemma demo_reachable : flow_reachable demo_flows.
Proof.
  apply reach_start. split; [split|].
  - cbn. apply (bool_decide_unpack _). vm_compute. exact I.
  - by repeat constructor.
  - repeat constructor; by intros s [= <-].
Qed.

Lemma flow_cache_coherent_witness :
  (Flows_Get no_error "report" (Flows_Update no_error "report" "bob" 5
     (Some {| fu_Description := "weekly"; fu_Nodes := None; fu_Edges := None; fu_Priority := ""; fu_Vars := None |})
     demo_flows).1.1.2).1
  = Reply 200 (apply_update {| fu_Description := "weekly"; fu_Nodes := None; fu_Edges := None; fu_Priority := "";
                               fu_Vars := None |} "high" (demo_spec "report" "" [])).
Proof.
  rewrite (proj1 (flow_cache_coherent (Flows_Update no_error "report" "bob" 5
     (Some {| fu_Description := "weekly"; fu_Nodes := None; fu_Edges := None; fu_Priority := ""; fu_Vars := None |})
     demo_flows).1.1.2 "report" (reach_step _ _ demo_reachable (step_update no_error _ _ _ _ _)))).
  vm_compute. reflexivity.
Defined.

Lemma trigger_creates_one_run_witness :
  exists row, store_Get "r1" (fa_runs (TriggerWithVars no_error "acme" "build" "r1" 9 [] no_trigger demo_flows).1.2) = Some row
    /\ r_K8sNamespace (rr_run row) = "flowgent-acme".
Proof.
  pose proof (trigger_creates_one_run "acme" "build" "r1" 9 [] no_trigger demo_flows ltac:(discriminate)) as H.
  replace (known_flow demo_flows "build") with (Some (demo_spec "build" "acme" [demo_hook])) in H by (vm_compute; reflexivity).
  destruct (TriggerWithVars no_error "acme" "build" "r1" 9 [] no_trigger demo_flows) as [[r h'] evs].
  destruct H as (_ & (row & Hrow & _ & _ & _ & _ & _ & Hns & _) & _).
  exists row. split; [exact Hrow|exact Hns].
Defined.

#[local] Instance fresh_inj : Inj (=) (=) (fun k : string => k).
Proof. intros k k' E. exact E. Qed.

Lemma webhook_dispatch_spec_witness :
  store_Get "build" (fa_runs (dispatch (H := canonical_order) no_error (fun k => k) 9 demo_push demo_flows).1.2)
  = Some (webhook_row (fun k => k) 9 demo_push demo_flows (demo_spec "build" "acme" [demo_hook])).
Proof.
  pose proof (webhook_dispatch_spec canonical_order (fun k => k) 9 demo_push demo_flows demo_reachable fresh_inj) as H.
  destruct (dispatch _ _ _ _ _) as [[ids h'] evs]. destruct H as (_ & _ & H & _).
  apply (H "build"); vm_compute; reflexivity.
Defined.

(** ** What the model shows *)

(** The id of a flow is global and the namespace of a request is not compared
    with the flow's: creating a flow in one namespace replaces another
    namespace's flow of that id, and deleting by way of any namespace deletes
    it. *)
Lemma create_takes_over :
  let h := (Flows_Create no_error "evil" "eve" 7 (Some (demo_spec "build" "" [])) demo_flows).1.1.2 in
  (f_Namespace <$> GetSpec "build" (fa_defs demo_flows)) = Some "acme" /\
  (f_Namespace <$> GetSpec "build" (fa_defs h)) = Some "evil" /\
  GetSpec "build" (fa_defs (Flows_Delete no_error "evil" "build" 7 demo_flows).1.1.2) = None.
Proof. vm_compute. auto. Qed.

(** The two events of a created run differ in topic and payload: one names the
    flow's namespace and the trigger's type, the other neither. *)
Lemma run_events_differ :
  let evs := (TriggerWithVars no_error "acme" "build" "r1" 9 [] no_trigger demo_flows).2 in
  let run := rr_run (triggered_row demo_flows "build" "r1" 9 (demo_spec "build" "acme" [demo_hook]) [] no_trigger) in
  evs <> [run_created_event run] /\
  map fst evs = [CtrlRunCreatedTopic "acme" "build" "r1"] /\
  (run_created_event run).1 = CtrlRunCreatedTopic "flowgent-acme" "build" "r1".
Proof. vm_compute. split_and!; [discriminate|reflexivity..]. Qed.

(** Another server's cache does not follow: a flow deleted through one server
    is still served by a server that had it in memory. *)
Lemma other_server_is_stale :
  let h := (Flows_Delete no_error "acme" "build" 7 demo_flows).1.1.2 in
  let other := with_flows (fa_agentFlows demo_flows) (fa_defs h) demo_flows in
  (Flows_Get no_error "build" h).1 = Fail 404 "not found" /\
  (Flows_Get no_error "build" other).1 = Reply 200 (demo_spec "build" "acme" [demo_hook]).
Proof. vm_compute. auto. Qed.
