(* ===== verification/Routes.v ===== *)
(** * Routes of the API server

    [pkg/api/pkg/server.go]: the routes, and how the standard library's
    [ServeMux] chooses among them: a pattern is a method and segments, each a
    literal or a wildcard; the most specific pattern that matches wins; two
    patterns that overlap without one being more specific make the
    registration panic. *)

From S2P Require Export GoStr Path.
From Stdlib Require Import Ascii.

Local Open Scope string_scope.
Local Open Scope list_scope.
Local Open Scope Z_scope.

(** ** Patterns *)

Inductive seg := Lit (s : string) | Wild (name : string).

Record Pattern := { pat_method : string; pat_segs : list seg }.

#[export] Instance seg_eq_dec : EqDecision seg.
Proof. solve_decision. Defined.
#[export] Instance Pattern_eq_dec : EqDecision Pattern.
Proof. solve_decision. Defined.

Definition parse_seg (s : string) : seg :=
  if HasPrefix s "{" && HasSuffix s "}" then Wild (stake (String.length s - 2) (sdrop 1 s)) else Lit s.

(** "METHOD /a/{b}"; the text before the first slash of the path is dropped. *)
Definition parse_pattern (p : string) : Pattern :=
  match SplitN2 p " " with
  | [m; path] => {| pat_method := m; pat_segs := map parse_seg (tl (split_slash path)) |}
  | _ => {| pat_method := ""; pat_segs := map parse_seg (tl (split_slash p)) |}
  end.

(** The values of the wildcards, when the segments match. *)
Fixpoint match_segs (pat : list seg) (segs : list string) : option (list (string * string)) :=
  match pat, segs with
  | [], [] => Some []
  | Lit l :: pat, s :: segs => if String.eqb l s then match_segs pat segs else None
  | Wild n :: pat, s :: segs =>
      if String.eqb s "" then None
      else match match_segs pat segs with Some vs => Some ((n, s) :: vs) | None => None end
  | _, _ => None
  end.

Definition method_matches (pat method : string) : bool :=
  String.eqb pat method || (String.eqb pat "GET" && String.eqb method "HEAD").

Definition pattern_matches (p : Pattern) (method : string) (segs : list string) : bool :=
  method_matches (pat_method p) method && match match_segs (pat_segs p) segs with Some _ => true | None => false end.

(** [more_specific p q]: [q] matches all that [p] matches. *)
Fixpoint segs_le (p q : list seg) : bool :=
  match p, q with
  | [], [] => true
  | Lit a :: p, Lit b :: q => String.eqb a b && segs_le p q
  | _ :: p, Wild _ :: q => segs_le p q
  | _, _ => false
  end.

Fixpoint segs_overlap (p q : list seg) : bool :=
  match p, q with
  | [], [] => true
  | Lit a :: p, Lit b :: q => String.eqb a b && segs_overlap p q
  | _ :: p, _ :: q => segs_overlap p q
  | _, _ => false
  end.

Definition more_specific (p q : Pattern) : bool :=
  String.eqb (pat_method p) (pat_method q) && segs_le (pat_segs p) (pat_segs q).

(** Patterns without a method do not occur beside others of the same length. *)
Definition conflict (p q : Pattern) : bool :=
  String.eqb (pat_method p) (pat_method q) && segs_overlap (pat_segs p) (pat_segs q) &&
  Bool.eqb (segs_le (pat_segs p) (pat_segs q)) (segs_le (pat_segs q) (pat_segs p)).

(** A route: its pattern and its handler. *)
Abbreviation route := (Pattern * string)%type.

(** Registration does not panic. *)
Fixpoint registers (routes : list route) : bool :=
  match routes with
  | [] => true
  | r :: rest => forallb (fun r' => negb (conflict r.1 r'.1)) rest && registers rest
  end.

(** The most specific route that matches. *)
Definition better (best : option route) (r : route) : option route :=
  match best with
  | None => Some r
  | Some b => if more_specific r.1 b.1 then Some r else best
  end.

Definition mux_route (routes : list route) (method : string) (segs : list string) : option route :=
  fold_left (fun best r => if pattern_matches r.1 method segs then better best r else best) routes None.

Definition mux_serve (routes : list route) (method : string) (segs : list string)
    : option (string * list (string * string)) :=
  match mux_route routes method segs with
  | Some (p, h) => match match_segs (pat_segs p) segs with Some vs => Some (h, vs) | None => None end
  | None => None
  end.

(** ** The table *)

Definition table (rows : list (string * string)) : list route := map (fun r => (parse_pattern r.1, r.2)) rows.

(** The mux of [RegisterRESTRoutes], without the bridge of web sockets, which
    the server does not pass. *)
Definition rest_rows : list (string * string) :=
  [("GET /_/healthz", "health.Healthz");
   ("GET /_/openapi.yaml", "swagger.OpenAPIHandler");
   ("GET /_/swagger-ui", "swagger.SwaggerUIHandler");
   ("GET /api/v1/{namespace}/agents", "agentDef.List");
   ("POST /api/v1/{namespace}/agents", "agentDef.Create");
   ("GET /api/v1/{namespace}/agents/{name}", "agentDef.Get");
   ("PUT /api/v1/{namespace}/agents/{name}", "agentDef.Update");
   ("DELETE /api/v1/{namespace}/agents/{name}", "agentDef.Delete");
   ("GET /api/v1/{namespace}/flows", "flowDef.List");
   ("GET /api/v1/{namespace}/flows/watch", "flowDef.Watch");
   ("POST /api/v1/{namespace}/flows", "flowDef.Create");
   ("GET /api/v1/{namespace}/flows/{id}", "flowDef.Get");
   ("PUT /api/v1/{namespace}/flows/{id}", "flowDef.Update");
   ("DELETE /api/v1/{namespace}/flows/{id}", "flowDef.Delete");
   ("POST /api/v1/{namespace}/flows/trigger", "flowDef.Trigger");
   ("POST /api/v1/{namespace}/flows/{id}/trigger", "flowDef.TriggerByID");
   ("POST /api/v1/{namespace}/runs", "flowRun.Create");
   ("GET /api/v1/{namespace}/runs", "flowRun.List");
   ("PUT /api/v1/{namespace}/runs/{id}", "flowRun.Update");
   ("GET /api/v1/{namespace}/runs/{id}", "flowRun.Get");
   ("DELETE /api/v1/{namespace}/runs/{id}", "flowRun.Delete");
   ("POST /api/v1/{namespace}/runs/{id}/cancel", "flowRun.Cancel");
   ("POST /api/v1/{namespace}/runs/{id}/tasks", "flowRun.CreateTask");
   ("GET /api/v1/{namespace}/runs/{id}/tasks", "flowRun.ListTasks");
   ("GET /api/v1/{namespace}/runs/{id}/tasks/{task_id}", "flowRun.GetTask");
   ("PUT /api/v1/{namespace}/runs/{id}/tasks/{task_id}", "flowRun.UpdateTask");
   ("POST /api/v1/human/approvals", "human.CreateApproval");
   ("GET /api/v1/human/approvals", "human.ListPendingApprovals");
   ("POST /api/v1/human/{token}/approve", "human.Approve");
   ("POST /api/v1/human/{token}/reject", "human.Reject");
   ("GET /api/v1/{namespace}/notifications/channels", "notif.ListChannels");
   ("POST /api/v1/{namespace}/notifications/channels", "notif.CreateChannel");
   ("GET /api/v1/{namespace}/notifications/channels/{id}", "notif.GetChannel");
   ("PUT /api/v1/{namespace}/notifications/channels/{id}", "notif.UpdateChannel");
   ("DELETE /api/v1/{namespace}/notifications/channels/{id}", "notif.DeleteChannel");
   ("POST /api/v1/{namespace}/notifications/test", "notif.TestChannel");
   ("GET /api/v1/{namespace}/llm/providers", "llmProvider.List");
   ("POST /api/v1/{namespace}/llm/providers", "llmProvider.Create");
   ("GET /api/v1/{namespace}/llm/providers/{id}", "llmProvider.Get");
   ("PUT /api/v1/{namespace}/llm/providers/{id}", "llmProvider.Update");
   ("DELETE /api/v1/{namespace}/llm/providers/{id}", "llmProvider.Delete");
   ("GET /api/v1/{namespace}/mcp", "mcpH.List");
   ("POST /api/v1/{namespace}/mcp", "mcpH.Create");
   ("GET /api/v1/{namespace}/mcp/{name}", "mcpH.Get");
   ("PUT /api/v1/{namespace}/mcp/{name}", "mcpH.Update");
   ("DELETE /api/v1/{namespace}/mcp/{name}", "mcpH.Delete");
   ("GET /api/v1/{namespace}/knowledge/tags", "knowledgeHandler.ListTags");
   ("GET /api/v1/{namespace}/knowledge", "knowledgeHandler.List");
   ("POST /api/v1/{namespace}/knowledge", "knowledgeHandler.Create");
   ("GET /api/v1/{namespace}/knowledge/{id}", "knowledgeHandler.Get");
   ("PUT /api/v1/{namespace}/knowledge/{id}", "knowledgeHandler.Update");
   ("DELETE /api/v1/{namespace}/knowledge/{id}", "knowledgeHandler.Delete");
   ("POST /api/v1/{namespace}/knowledge/search", "knowledgeHandler.Search")].

Definition webhook_route : string * string := ("POST /api/v1/webhook/{provider}", "webhook.Handle").

(** The outer mux: the webhook's route, or the inner mux. *)
Definition RegisterRESTRoutes (method : string) (segs : list string) : option (string * list (string * string)) :=
  match mux_serve (table [webhook_route]) method segs with
  | Some r => Some r
  | None => mux_serve (table rest_rows) method segs
  end.

(** The segments of a path of a request. *)
Definition path_segs (path : string) : list string := tl (split_slash path).

(** ** Order of registration *)

Lemma segs_overlap_sym p : forall q, segs_overlap p q = segs_overlap q p.
Proof.
  induction p as [|[a|a] p IH]; intros [|[b|b] q]; cbn; try done.
  by rewrite IH, String.eqb_sym.
Qed.

Lemma conflict_sym p q : conflict p q = conflict q p.
Proof.
  unfold conflict. rewrite String.eqb_sym, segs_overlap_sym. f_equal.
  by destruct (segs_le (pat_segs p) (pat_segs q)), (segs_le (pat_segs q) (pat_segs p)).
Qed.

Lemma segs_le_trans p : forall q r, segs_le p q = true -> segs_le q r = true -> segs_le p r = true.
Proof.
  induction p as [|[a|a] p IH]; intros [|[b|b] q] [|[d|d] r]; cbn; try done.
  - intros [->%String.eqb_eq H1]%andb_true_iff [->%String.eqb_eq H2]%andb_true_iff.
    rewrite String.eqb_refl. by eapply IH.
  - intros [_ H1]%andb_true_iff. by apply IH.
  - by apply IH.
  - by apply IH.
Qed.

Lemma more_specific_trans p q r : more_specific p q = true -> more_specific q r = true -> more_specific p r = true.
Proof.
  unfold more_specific. intros [->%String.eqb_eq H1]%andb_true_iff [->%String.eqb_eq H2]%andb_true_iff.
  rewrite String.eqb_refl. by eapply segs_le_trans.
Qed.

Lemma match_overlap p : forall q segs,
  match_segs p segs <> None -> match_segs q segs <> None -> segs_overlap p q = true.
Proof.
  induction p as [|[a|a] p IH]; intros [|[b|b] q] [|s segs]; cbn; try done.
  - destruct (String.eqb_spec a s) as [->|]; [|done]. destruct (String.eqb_spec b s) as [->|]; [|done].
    rewrite String.eqb_refl. apply IH.
  - destruct (String.eqb a s); [|done]. destruct (String.eqb s ""); [done|].
    intros H1 H2. apply (IH q segs H1). by destruct (match_segs q segs).
  - destruct (String.eqb s ""); [done|]. destruct (String.eqb b s); [|done].
    intros H1 H2. apply (IH q segs); [by destruct (match_segs p segs)|done].
  - destruct (String.eqb s ""); [done|]. intros H1 H2.
    apply (IH q segs); [by destruct (match_segs p segs)|by destruct (match_segs q segs)].
Qed.

Section Order.
Context (routes : list route) (Hreg : registers routes = true).
Context (Hhead : forall r, r ∈ routes -> pat_method r.1 <> "HEAD").

Lemma registered_apart r r' : r ∈ routes -> r' ∈ routes -> r <> r' -> conflict r.1 r'.1 = false.
Proof.
  clear Hhead. induction routes as [|x rest IH]; [by intros ?%not_elem_of_nil|].
  cbn in Hreg. apply andb_true_iff in Hreg as [Hx Hrest]. rewrite forallb_forall in Hx.
  assert (forall y, y ∈ rest -> conflict x.1 y.1 = false) as Hxy.
  { intros y Hy%list_elem_of_In. apply negb_true_iff. by apply Hx. }
  intros [->|Hr]%elem_of_cons [->|Hr']%elem_of_cons Hne; [done|by apply Hxy| |by apply IH].
  rewrite conflict_sym. by apply Hxy.
Qed.

Lemma both_match r r' m segs :
  r ∈ routes -> r' ∈ routes -> pattern_matches r.1 m segs = true -> pattern_matches r'.1 m segs = true -> r <> r' ->
  more_specific r.1 r'.1 = negb (more_specific r'.1 r.1).
Proof.
  intros Hr Hr' [M1 S1]%andb_true_iff [M2 S2]%andb_true_iff Hne.
  assert (pat_method r.1 = pat_method r'.1) as Em.
  { unfold method_matches in M1, M2. pose proof (Hhead r Hr). pose proof (Hhead r' Hr').
    apply orb_true_iff in M1 as [E1%String.eqb_eq|[E1%String.eqb_eq Eh1%String.eqb_eq]%andb_true_iff];
      apply orb_true_iff in M2 as [E2%String.eqb_eq|[E2%String.eqb_eq Eh2%String.eqb_eq]%andb_true_iff]; congruence. }
  pose proof (registered_apart r r' Hr Hr' Hne) as Hc. unfold conflict in Hc.
  rewrite Em, String.eqb_refl, (match_overlap _ (pat_segs r'.1) segs) in Hc;
    [|by destruct (match_segs (pat_segs r.1) segs)|by destruct (match_segs (pat_segs r'.1) segs)].
  unfold more_specific. rewrite Em, String.eqb_refl. cbn in Hc |- *.
  by destruct (segs_le (pat_segs r.1) (pat_segs r'.1)), (segs_le (pat_segs r'.1) (pat_segs r.1)).
Qed.

(** The winner is more specific than every other route that matches. *)
Definition wins (l : list route) (m : string) (segs : list string) (best : option route) : Prop :=
  match best with
  | None => forall r, r ∈ l -> pattern_matches r.1 m segs = false
  | Some b => b ∈ l /\ pattern_matches b.1 m segs = true /\
              forall r, r ∈ l -> pattern_matches r.1 m segs = true -> r = b \/ more_specific b.1 r.1 = true
  end.

Lemma mux_route_wins l m segs : (forall r, r ∈ l -> r ∈ routes) -> wins l m segs (mux_route l m segs).
Proof.
  unfold mux_route. induction l as [|x l IH] using rev_ind; intros Hl; [by intros r ?%not_elem_of_nil|].
  rewrite fold_left_app. cbn [fold_left]. specialize (IH (fun r Hr => Hl r (proj2 (elem_of_app _ _ _) (or_introl Hr)))).
  assert (x ∈ routes) as Hx by (apply Hl, elem_of_app; right; by apply list_elem_of_singleton).
  set (best := fold_left _ l None) in *.
  assert (forall r, r ∈ l ++ [x] <-> r ∈ l \/ r = x) as Hsnoc by (intros; by rewrite elem_of_app, list_elem_of_singleton).
  destruct (pattern_matches x.1 m segs) eqn:Ex.
  - destruct best as [b|]; cbn [better wins] in *.
    + destruct IH as (Hb & Mb & Hall). assert (b ∈ routes) as Hbr by (apply Hl, Hsnoc; auto).
      destruct (more_specific x.1 b.1) eqn:Es; (split_and!; [apply Hsnoc; auto|done|]).
      * intros r [Hr| ->]%Hsnoc Mr; [|by left]. destruct (Hall r Hr Mr) as [->|Hs]; [by right|right].
        by eapply more_specific_trans.
      * intros r [Hr| ->]%Hsnoc Mr; [by apply Hall|].
        destruct (decide (x = b)) as [->|Hne]; [by left|right].
        rewrite (both_match b x m segs) by (try done; congruence). by rewrite Es.
    + split_and!; [apply Hsnoc; auto|done|]. intros r [Hr| ->]%Hsnoc Mr; [|by left].
      by rewrite (IH r Hr) in Mr.
  - destruct best as [b|]; cbn [wins] in *.
    + destruct IH as (Hb & Mb & Hall). split_and!; [apply Hsnoc; auto|done|].
      intros r [Hr| ->]%Hsnoc Mr; [by apply Hall|congruence].
    + intros r [Hr| ->]%Hsnoc; auto.
Qed.

Lemma wins_unique l m segs b b' :
  (forall r, r ∈ l <-> r ∈ routes) -> wins routes m segs b -> wins l m segs b' -> b = b'.
Proof.
  intros Hl Hb Hb'. destruct b as [b|], b' as [b'|]; cbn [wins] in *.
  - destruct Hb as (H1 & M1 & A1), Hb' as (H2 & M2 & A2). apply Hl in H2.
    destruct (decide (b = b')) as [->|Hne]; [done|]. exfalso.
    destruct (A1 b' H2 M2) as [?|S1]; [congruence|].
    destruct (A2 b (proj2 (Hl b) H1) M1) as [?|S2]; [congruence|].
    rewrite (both_match b b' m segs), S2 in S1 by done. done.
  - destruct Hb as (H1 & M1 & _). apply Hl in H1. by rewrite (Hb' b H1) in M1.
  - destruct Hb' as (H1 & M1 & _). apply Hl in H1. by rewrite (Hb b' H1) in M1.
  - done.
Qed.

Lemma mux_order l m segs : l ≡ₚ routes -> mux_serve l m segs = mux_serve routes m segs.
Proof.
  intros Hp. unfold mux_serve.
  rewrite (wins_unique l m segs (mux_route routes m segs) (mux_route l m segs)); [done|by intros r; rewrite Hp| |].
  - by apply mux_route_wins.
  - apply mux_route_wins. intros r. by rewrite Hp.
Qed.

End Order.

Lemma no_head_route r : r ∈ table rest_rows -> pat_method r.1 <> "HEAD".
Proof.
  intros Hr. assert (forallb (fun r => negb (String.eqb (pat_method r.1) "HEAD")) (table rest_rows) = true) as H
    by (vm_compute; reflexivity).
  rewrite forallb_forall in H. apply list_elem_of_In in Hr. specialize (H r Hr).
  by apply negb_true_iff, String.eqb_neq in H.
Qed.

(** The routes of the API server register without a panic, and whatever
    the order they are registered in a request gets the same handler and the
    same path values; a route that matches a request loses only to one that is
    more specific.  With the webhook's route on the same mux the registration
    would panic, as the comment on the outer mux says. *)
Theorem routes_unambiguous routes method segs :
  routes ≡ₚ table rest_rows ->
  registers (table rest_rows) = true /\ registers (table (webhook_route :: rest_rows)) = false /\
  mux_serve routes method segs = mux_serve (table rest_rows) method segs /\
  wins (table rest_rows) method segs (mux_route routes method segs).
Proof.
  intros Hp. assert (registers (table rest_rows) = true) as Hreg by (vm_compute; reflexivity).
  split_and!; [done|vm_compute; reflexivity|by apply mux_order; [|apply no_head_route|]|].
  assert (mux_route (table rest_rows) method segs = mux_route routes method segs) as <-.
  { apply (wins_unique _ Hreg no_head_route routes method segs); [by intros r; rewrite Hp| |].
    - by apply (mux_route_wins _ Hreg no_head_route).
    - apply (mux_route_wins _ Hreg no_head_route). intros r. by rewrite Hp. }
  by apply (mux_route_wins _ Hreg no_head_route).
Qed.

Lemma routes_unambiguous_witness :
  mux_serve (rev (table rest_rows)) "GET" ["api"; "v1"; "acme"; "flows"; "watch"] = Some ("flowDef.Watch", [("namespace", "acme")]).
Proof.
  destruct (routes_unambiguous (rev (table rest_rows)) "GET" ["api"; "v1"; "acme"; "flows"; "watch"]) as (_ & _ & -> & _).
  - symmetry. apply Permutation_rev.
  - vm_compute. reflexivity.
Defined.
