(* ===== verification/Defs.v ===== *)
(** * The API of definitions

    [pkg/api/pkg/handler/agent_def.go], [mcp.go], [llm_provider.go],
    [knowledge.go] and [notifier.go]: agents, MCP servers, LLM providers,
    knowledge entries and notification channels over their stores, whose
    tables are those of [Store].  A body is its decoding. *)

From S2P Require Export Store ApiRuns.

Local Open Scope string_scope.
Local Open Scope list_scope.
Local Open Scope Z_scope.

(** ** Audit fields (pkg/model/pkg/entities/base.go) *)

Record BaseEntity := {
  b_ID : string; b_Description : string; b_Namespace : string; b_Status : string; b_CreatedAt : Z;
  b_CreatedBy : string; b_UpdatedAt : Z; b_UpdatedBy : string; b_DelFlag : bool;
}.

Definition MarkCreated (by_ : string) (now : Z) (b : BaseEntity) : BaseEntity :=
  {| b_ID := b_ID b; b_Description := b_Description b; b_Namespace := b_Namespace b; b_Status := "ACTIVE";
     b_CreatedAt := now; b_CreatedBy := by_; b_UpdatedAt := now; b_UpdatedBy := by_; b_DelFlag := false |}.

Definition MarkUpdated (by_ : string) (now : Z) (b : BaseEntity) : BaseEntity :=
  {| b_ID := b_ID b; b_Description := b_Description b; b_Namespace := b_Namespace b; b_Status := b_Status b;
     b_CreatedAt := b_CreatedAt b; b_CreatedBy := b_CreatedBy b; b_UpdatedAt := now;
     b_UpdatedBy := if String.eqb by_ "" then b_UpdatedBy b else by_; b_DelFlag := b_DelFlag b |}.

Definition MarkDeleted (by_ : string) (now : Z) (b : BaseEntity) : BaseEntity :=
  MarkUpdated by_ now
    {| b_ID := b_ID b; b_Description := b_Description b; b_Namespace := b_Namespace b; b_Status := "DELETED";
       b_CreatedAt := b_CreatedAt b; b_CreatedBy := b_CreatedBy b; b_UpdatedAt := b_UpdatedAt b;
       b_UpdatedBy := b_UpdatedBy b; b_DelFlag := true |}.

(** The id, the namespace and the times of a new definition. *)
Definition base_new (id namespace : string) (now : Z) (b : BaseEntity) : BaseEntity :=
  {| b_ID := id; b_Description := b_Description b; b_Namespace := namespace; b_Status := b_Status b;
     b_CreatedAt := now; b_CreatedBy := b_CreatedBy b; b_UpdatedAt := now; b_UpdatedBy := b_UpdatedBy b;
     b_DelFlag := b_DelFlag b |}.

Definition base_in (namespace : string) (now : Z) (b : BaseEntity) : BaseEntity :=
  {| b_ID := b_ID b; b_Description := b_Description b; b_Namespace := namespace; b_Status := b_Status b;
     b_CreatedAt := b_CreatedAt b; b_CreatedBy := b_CreatedBy b; b_UpdatedAt := now; b_UpdatedBy := b_UpdatedBy b;
     b_DelFlag := b_DelFlag b |}.

Definition base_id (id : string) (now : Z) (b : BaseEntity) : BaseEntity :=
  {| b_ID := id; b_Description := b_Description b; b_Namespace := b_Namespace b; b_Status := b_Status b;
     b_CreatedAt := b_CreatedAt b; b_CreatedBy := b_CreatedBy b; b_UpdatedAt := now; b_UpdatedBy := b_UpdatedBy b;
     b_DelFlag := b_DelFlag b |}.

Definition base_status (status : string) (b : BaseEntity) : BaseEntity :=
  {| b_ID := b_ID b; b_Description := b_Description b; b_Namespace := b_Namespace b; b_Status := status;
     b_CreatedAt := b_CreatedAt b; b_CreatedBy := b_CreatedBy b; b_UpdatedAt := b_UpdatedAt b;
     b_UpdatedBy := b_UpdatedBy b; b_DelFlag := b_DelFlag b |}.

(** [v] unless it is empty. *)
Definition given (v old : string) : string := if String.eqb v "" then old else v.
Definition given_opt {A} (v : option A) (old : A) : A := match v with Some x => x | None => old end.

(** The page the lists ask for. *)
Definition first_thousand : PageRequest := {| pg_Page := 1; pg_Size := 1000 |}.

(** [isNotFoundError] (errors.go), of an error's text. *)
Definition isNotFoundError (err : string) : bool :=
  let msg := ToLower err in Contains msg "not found" || Contains msg "no rows in result set".

(** [Get] of the generic store: a missing row is the error of the driver. *)
Definition get_row {T} `{Row T} (db_err : string -> option string) (table id : string) (tbl : list T) : res T :=
  match db_err "Get" with
  | Some err => Err (table +:+ ": " +:+ err)
  | None => match store_Get id tbl with Some r => Ok r | None => Err (table +:+ ": sql: no rows in result set") end
  end.

(** [INSERT OR REPLACE] into a table whose names are unique beside its ids:
    the rows of the same id go too. *)
Definition save_named {T} `{Row T} (row_id : T -> string) (e : T) (tbl : list T) : list T :=
  store_Save e (List.filter (fun r => negb (String.eqb (row_id r) (row_id e))) tbl).

(** ** Agents *)

Definition labels := option (list (string * string)).

Record AgentRow := { ag_base : BaseEntity; ag_info : AgentInfo; ag_Labels : labels }.

Definition agent_id (a : AgentRow) : string := b_ID (ag_base a).

#[export] Instance agent_Row : Row AgentRow := {|
  row_key := fun r => a_Name (ag_info r);
  row_created := fun r => b_CreatedAt (ag_base r);
  row_deleted := fun r => b_DelFlag (ag_base r);
  row_mark_deleted := fun now r => {| ag_base := MarkDeleted "" now (ag_base r); ag_info := ag_info r; ag_Labels := ag_Labels r |};
|}.

Section Handlers.
Variable db_err : string -> option string.

Definition Agents_List (tbl : list AgentRow) : reply (Page AgentRow) :=
  db db_err "Select" (Reply 200 (store_Select first_thousand tbl)) (fun err => Fail 500 err).

Definition Agents_Create (namespace id : string) (now : Z) (body : option AgentRow) (tbl : list AgentRow)
    : reply AgentRow * list AgentRow :=
  match body with
  | None => (Fail 400 "invalid request body", tbl)
  | Some a =>
      if String.eqb (a_Name (ag_info a)) "" then (Fail 400 "agent name is required", tbl)
      else
        let a := {| ag_base := base_new id namespace now (ag_base a); ag_info := ag_info a; ag_Labels := ag_Labels a |} in
        match db_err "Save" with
        | Some _ => (Fail 500 "internal error", tbl)
        | None => (Reply 201 a, save_named agent_id a tbl)
        end
  end.

Definition Agents_Get (name : string) (tbl : list AgentRow) : reply AgentRow :=
  match get_row db_err "llm_agent" name tbl with Ok a => Reply 200 a | Err _ => Fail 404 "agent not found" end.

Definition merge_agent (u a : AgentInfo) : AgentInfo :=
  {| a_Name := a_Name a; a_Model := given (a_Model u) (a_Model a); a_Soul := given (a_Soul u) (a_Soul a);
     a_Instruction := given (a_Instruction u) (a_Instruction a); a_OutputSchema := a_OutputSchema a;
     a_Temperature := match a_Temperature u with Some t => Some t | None => a_Temperature a end;
     a_MaxTokens := if a_MaxTokens u =? 0 then a_MaxTokens a else a_MaxTokens u |}.

Definition Agents_Update (namespace name : string) (now : Z) (body : option AgentRow) (tbl : list AgentRow)
    : reply AgentRow * list AgentRow :=
  match get_row db_err "llm_agent" name tbl with
  | Err _ => (Fail 404 "agent not found", tbl)
  | Ok existing =>
      match body with
      | None => (Fail 400 "invalid request body", tbl)
      | Some updates =>
          let a := {| ag_base := base_in namespace now (ag_base existing);
                      ag_info := merge_agent (ag_info updates) (ag_info existing);
                      ag_Labels := ag_Labels existing |} in
          match db_err "Save" with
          | Some _ => (Fail 500 "internal error", tbl)
          | None => (Reply 200 a, save_named agent_id a tbl)
          end
      end
  end.

Definition Agents_Delete (name : string) (now : Z) (tbl : list AgentRow) : reply unit * list AgentRow :=
  match db_err "Delete" with
  | Some _ => (Fail 500 "internal error", tbl)
  | None => (Reply 204 tt, store_Delete now name tbl)
  end.

End Handlers.

(** ** MCP servers *)

Record McpInfo := {
  mc_base : BaseEntity; mc_Name : string; mc_Enabled : bool; mc_Type : string; mc_URL : string;
  mc_Headers : option (list (string * string)); mc_Command : option (list string);
  mc_Args : option (list string); mc_Env : option (list (string * string)); mc_Labels : labels;
}.

Definition mcp_base (b : BaseEntity) (m : McpInfo) : McpInfo :=
  {| mc_base := b; mc_Name := mc_Name m; mc_Enabled := mc_Enabled m; mc_Type := mc_Type m; mc_URL := mc_URL m;
     mc_Headers := mc_Headers m; mc_Command := mc_Command m; mc_Args := mc_Args m; mc_Env := mc_Env m;
     mc_Labels := mc_Labels m |}.

Definition mcp_id (m : McpInfo) : string := b_ID (mc_base m).

#[export] Instance mcp_Row : Row McpInfo := {|
  row_key := mc_Name;
  row_created := fun r => b_CreatedAt (mc_base r);
  row_deleted := fun r => b_DelFlag (mc_base r);
  row_mark_deleted := fun now r => mcp_base (MarkDeleted "" now (mc_base r)) r;
|}.

(** Lists and maps that are not given are [nil]. *)
Definition or_else {A} (u old : option A) : option A := match u with Some _ => u | None => old end.

Section Handlers.
Variable db_err : string -> option string.

Definition Mcp_List (tbl : list McpInfo) : reply (list McpInfo) :=
  db db_err "Select" (Reply 200 (pg_Items (store_Select first_thousand tbl))) (fun err => Fail 500 err).

Definition Mcp_Create (namespace id : string) (now : Z) (body : option McpInfo) (tbl : list McpInfo)
    : reply McpInfo * list McpInfo :=
  match body with
  | None => (Fail 400 "invalid body", tbl)
  | Some m =>
      let m := mcp_base (base_new id namespace now (mc_base m)) m in
      match db_err "Save" with
      | Some err => (Fail 500 err, tbl)
      | None => (Reply 201 m, save_named mcp_id m tbl)
      end
  end.

(** [Get] of the handlers that tell a missing row from a failure. *)
Definition get_or_fail {T} `{Row T} (table id : string) (tbl : list T) : reply T :=
  match get_row db_err table id tbl with
  | Ok m => Reply 200 m
  | Err err => if isNotFoundError err then Fail 404 "not found" else Fail 500 err
  end.

Definition Mcp_Get (name : string) (tbl : list McpInfo) : reply McpInfo := get_or_fail "llm_mcp" name tbl.

Definition merge_mcp (u m : McpInfo) : McpInfo :=
  {| mc_base := mc_base m; mc_Name := mc_Name m; mc_Enabled := mc_Enabled u; mc_Type := given (mc_Type u) (mc_Type m);
     mc_URL := given (mc_URL u) (mc_URL m); mc_Headers := or_else (mc_Headers u) (mc_Headers m);
     mc_Command := or_else (mc_Command u) (mc_Command m); mc_Args := or_else (mc_Args u) (mc_Args m);
     mc_Env := or_else (mc_Env u) (mc_Env m); mc_Labels := mc_Labels m |}.

Definition Mcp_Update (name : string) (now : Z) (body : option McpInfo) (tbl : list McpInfo)
    : reply McpInfo * list McpInfo :=
  match get_row db_err "llm_mcp" name tbl with
  | Err _ => (Fail 404 "not found", tbl)
  | Ok existing =>
      match body with
      | None => (Fail 400 "invalid body", tbl)
      | Some updates =>
          let m := merge_mcp updates existing in
          let m := mcp_base (MarkUpdated "" now (mc_base m)) m in
          match db_err "Save" with
          | Some err => (Fail 500 ("Save err: name='" +:+ name +:+ "' existing.Name='" +:+ mc_Name m +:+ "' id='" +:+
                                   b_ID (mc_base m) +:+ "' -> " +:+ err), tbl)
          | None => (Reply 200 m, save_named mcp_id m tbl)
          end
      end
  end.

(** [Delete] of the handlers that answer with the error. *)
Definition delete_row {T} `{Row T} (id : string) (now : Z) (tbl : list T) : reply unit * list T :=
  match db_err "Delete" with
  | Some err => (Fail 500 err, tbl)
  | None => (Reply 204 tt, store_Delete now id tbl)
  end.

Definition Mcp_Delete (name : string) (now : Z) (tbl : list McpInfo) : reply unit * list McpInfo :=
  delete_row name now tbl.

End Handlers.

(** ** LLM providers *)

(** [lp_Status] is the provider's own; the models are their JSON. *)
Record LlmProviderInfo := {
  lp_base : BaseEntity; lp_Provider : string; lp_Enabled : bool; lp_Status : string; lp_Timeout : string;
  lp_TimeoutMs : Z; lp_Endpoint : string; lp_Credentials : gomap; lp_Proxy : string; lp_RateLimit : Z;
  lp_DefaultModel : string; lp_Models : list any; lp_ApiKey : string; lp_Labels : labels;
}.

(** Another base, status and key. *)
Definition lp_with (b : BaseEntity) (status key : string) (p : LlmProviderInfo) : LlmProviderInfo :=
  {| lp_base := b; lp_Provider := lp_Provider p; lp_Enabled := lp_Enabled p; lp_Status := status;
     lp_Timeout := lp_Timeout p; lp_TimeoutMs := lp_TimeoutMs p; lp_Endpoint := lp_Endpoint p;
     lp_Credentials := lp_Credentials p; lp_Proxy := lp_Proxy p; lp_RateLimit := lp_RateLimit p;
     lp_DefaultModel := lp_DefaultModel p; lp_Models := lp_Models p; lp_ApiKey := key; lp_Labels := lp_Labels p |}.

Definition lp_enable (enabled : bool) (p : LlmProviderInfo) : LlmProviderInfo :=
  {| lp_base := lp_base p; lp_Provider := lp_Provider p; lp_Enabled := enabled; lp_Status := lp_Status p;
     lp_Timeout := lp_Timeout p; lp_TimeoutMs := lp_TimeoutMs p; lp_Endpoint := lp_Endpoint p;
     lp_Credentials := lp_Credentials p; lp_Proxy := lp_Proxy p; lp_RateLimit := lp_RateLimit p;
     lp_DefaultModel := lp_DefaultModel p; lp_Models := lp_Models p; lp_ApiKey := lp_ApiKey p; lp_Labels := lp_Labels p |}.

(** What the table keeps of a provider: the fields with a column. *)
Definition lp_columns (p : LlmProviderInfo) : LlmProviderInfo :=
  {| lp_base := lp_base p; lp_Provider := lp_Provider p; lp_Enabled := false; lp_Status := lp_Status p;
     lp_Timeout := ""; lp_TimeoutMs := lp_TimeoutMs p; lp_Endpoint := lp_Endpoint p; lp_Credentials := [];
     lp_Proxy := ""; lp_RateLimit := 0; lp_DefaultModel := lp_DefaultModel p; lp_Models := lp_Models p;
     lp_ApiKey := lp_ApiKey p; lp_Labels := lp_Labels p |}.

#[export] Instance provider_Row : Row LlmProviderInfo := {|
  row_key := fun r => b_ID (lp_base r);
  row_created := fun r => b_CreatedAt (lp_base r);
  row_deleted := fun r => b_DelFlag (lp_base r);
  row_mark_deleted := fun now r => lp_with (MarkDeleted "" now (lp_base r)) "DELETED" (lp_ApiKey r) r;
|}.

Definition fixEnabled (p : LlmProviderInfo) : LlmProviderInfo := lp_enable (String.eqb (lp_Status p) "ACTIVE") p.

(** The key and the status a body asks for. *)
Definition body_key (p : LlmProviderInfo) : string :=
  if String.eqb (lp_ApiKey p) ""
  then match mget "apikey" (lp_Credentials p) with Some (VStr v) => v | _ => "" end
  else lp_ApiKey p.
Definition body_status (p : LlmProviderInfo) : string :=
  if String.eqb (lp_Status p) "" then (if lp_Enabled p then "ACTIVE" else "INACTIVE") else lp_Status p.

Section Handlers.
Variable db_err : string -> option string.

Definition Llm_List (tbl : list LlmProviderInfo) : reply (list LlmProviderInfo) :=
  db db_err "Select" (Reply 200 (map fixEnabled (pg_Items (store_Select first_thousand tbl)))) (fun err => Fail 500 err).

Definition Llm_save (code : Z) (p : LlmProviderInfo) (tbl : list LlmProviderInfo)
    : reply LlmProviderInfo * list LlmProviderInfo :=
  match db_err "Save" with
  | Some err => (Fail 500 err, tbl)
  | None => (Reply code p, store_Save (lp_columns p) tbl)
  end.

Definition Llm_Create (namespace id : string) (now : Z) (body : option LlmProviderInfo) (tbl : list LlmProviderInfo)
    : reply LlmProviderInfo * list LlmProviderInfo :=
  match body with
  | None => (Fail 400 "invalid body", tbl)
  | Some p => Llm_save 201 (lp_with (base_new id namespace now (lp_base p)) (body_status p) (body_key p) p) tbl
  end.

Definition Llm_Get (id : string) (tbl : list LlmProviderInfo) : reply LlmProviderInfo :=
  match get_or_fail db_err "llm_providers" id tbl with
  | Reply code p => Reply code (fixEnabled p)
  | Fail code err => Fail code err
  end.

(** The stored provider is not read: all of it is the body's. *)
Definition Llm_Update (id : string) (now : Z) (body : option LlmProviderInfo) (tbl : list LlmProviderInfo)
    : reply LlmProviderInfo * list LlmProviderInfo :=
  match body with
  | None => (Fail 400 "invalid body", tbl)
  | Some p => Llm_save 200 (lp_with (base_id id now (lp_base p)) (body_status p) (body_key p) p) tbl
  end.

Definition Llm_Delete (id : string) (now : Z) (tbl : list LlmProviderInfo) : reply unit * list LlmProviderInfo :=
  delete_row db_err id now tbl.

End Handlers.

(** ** Knowledge entries *)

Record KnowledgeRow := {
  kn_base : BaseEntity; kn_Title : string; kn_Content : string; kn_ContentType : string; kn_Source : string;
  kn_SourceRef : string; kn_Tags : option (list string); kn_Metadata : option gomap;
}.

Definition kn_with (b : BaseEntity) (tags : option (list string)) (k : KnowledgeRow) : KnowledgeRow :=
  {| kn_base := b; kn_Title := kn_Title k; kn_Content := kn_Content k; kn_ContentType := kn_ContentType k;
     kn_Source := kn_Source k; kn_SourceRef := kn_SourceRef k; kn_Tags := tags; kn_Metadata := kn_Metadata k |}.

#[export] Instance knowledge_Row : Row KnowledgeRow := {|
  row_key := fun r => b_ID (kn_base r);
  row_created := fun r => b_CreatedAt (kn_base r);
  row_deleted := fun r => b_DelFlag (kn_base r);
  row_mark_deleted := fun now r => kn_with (MarkDeleted "" now (kn_base r)) (kn_Tags r) r;
|}.

Section Handlers.
Variable db_err : string -> option string.

Definition Knowledge_Create (namespace id : string) (now : Z) (body : option KnowledgeRow) (tbl : list KnowledgeRow)
    : reply KnowledgeRow * list KnowledgeRow :=
  match body with
  | None => (Fail 400 "invalid request body", tbl)
  | Some k =>
      if String.eqb (kn_Title k) "" && String.eqb (kn_Content k) "" then (Fail 400 "title or content is required", tbl)
      else
        let b := base_new id namespace now (kn_base k) in
        let b := if String.eqb (b_Status b) "" then base_status "ACTIVE" b else b in
        let k := kn_with b (or_else (kn_Tags k) (Some [])) k in
        match db_err "Save" with
        | Some err => (Fail 500 err, tbl)
        | None => (Reply 201 k, store_Save k tbl)
        end
  end.

Definition Knowledge_Get (id : string) (tbl : list KnowledgeRow) : reply KnowledgeRow :=
  match get_row db_err "knowledge_entries" id tbl with
  | Ok k => Reply 200 k
  | Err _ => Fail 404 "knowledge entry not found"
  end.

Definition merge_knowledge (b : BaseEntity) (u k : KnowledgeRow) : KnowledgeRow :=
  {| kn_base := b; kn_Title := given (kn_Title u) (kn_Title k); kn_Content := given (kn_Content u) (kn_Content k);
     kn_ContentType := given (kn_ContentType u) (kn_ContentType k); kn_Source := given (kn_Source u) (kn_Source k);
     kn_SourceRef := given (kn_SourceRef u) (kn_SourceRef k); kn_Tags := or_else (kn_Tags u) (kn_Tags k);
     kn_Metadata := or_else (kn_Metadata u) (kn_Metadata k) |}.

Definition Knowledge_Update (namespace id : string) (now : Z) (body : option KnowledgeRow) (tbl : list KnowledgeRow)
    : reply KnowledgeRow * list KnowledgeRow :=
  match get_row db_err "knowledge_entries" id tbl with
  | Err _ => (Fail 404 "knowledge entry not found", tbl)
  | Ok existing =>
      match body with
      | None => (Fail 400 "invalid request body", tbl)
      | Some updates =>
          let k := merge_knowledge (base_in namespace now (kn_base existing)) updates existing in
          match db_err "Save" with
          | Some err => (Fail 500 err, tbl)
          | None => (Reply 200 k, store_Save k tbl)
          end
      end
  end.

Definition Knowledge_Delete (id : string) (now : Z) (tbl : list KnowledgeRow) : reply unit * list KnowledgeRow :=
  delete_row db_err id now tbl.

End Handlers.

(** ** Notification channels *)

Record NotifyChannelInfo := {
  nc_base : BaseEntity; nc_Name : string; nc_ChannelType : string; nc_Config : gomap; nc_Enabled : bool;
  nc_Labels : labels;
}.

Definition nc_with (b : BaseEntity) (c : NotifyChannelInfo) : NotifyChannelInfo :=
  {| nc_base := b; nc_Name := nc_Name c; nc_ChannelType := nc_ChannelType c; nc_Config := nc_Config c;
     nc_Enabled := nc_Enabled c; nc_Labels := nc_Labels c |}.

#[export] Instance channel_Row : Row NotifyChannelInfo := {|
  row_key := fun r => b_ID (nc_base r);
  row_created := fun r => b_CreatedAt (nc_base r);
  row_deleted := fun r => b_DelFlag (nc_base r);
  row_mark_deleted := fun now r => nc_with (MarkDeleted "" now (nc_base r)) r;
|}.

Section Handlers.
Variable db_err : string -> option string.

Definition Channels_List (tbl : list NotifyChannelInfo) : reply (Page NotifyChannelInfo) :=
  db db_err "Select" (Reply 200 (store_Select first_thousand tbl)) (fun err => Fail 500 err).

Definition Channels_save (code : Z) (c : NotifyChannelInfo) (tbl : list NotifyChannelInfo)
    : reply NotifyChannelInfo * list NotifyChannelInfo :=
  match db_err "Save" with
  | Some err => (Fail 500 err, tbl)
  | None => (Reply code c, store_Save c tbl)
  end.

Definition Channels_Create (namespace id : string) (now : Z) (body : option NotifyChannelInfo)
    (tbl : list NotifyChannelInfo) : reply NotifyChannelInfo * list NotifyChannelInfo :=
  match body with
  | None => (Fail 400 "invalid body", tbl)
  | Some c => Channels_save 201 (nc_with (base_new id namespace now (nc_base c)) c) tbl
  end.

Definition Channels_Get (id : string) (tbl : list NotifyChannelInfo) : reply NotifyChannelInfo :=
  get_or_fail db_err "nfy_channel" id tbl.

Definition Channels_Update (id : string) (now : Z) (body : option NotifyChannelInfo) (tbl : list NotifyChannelInfo)
    : reply NotifyChannelInfo * list NotifyChannelInfo :=
  match body with
  | None => (Fail 400 "invalid body", tbl)
  | Some c => Channels_save 200 (nc_with (base_id id now (nc_base c)) c) tbl
  end.

Definition Channels_Delete (id : string) (now : Z) (tbl : list NotifyChannelInfo) : reply unit * list NotifyChannelInfo :=
  delete_row db_err id now tbl.

End Handlers.
