(* ===== verification/DefsFacts.v ===== *)
(** * Properties of the API of definitions

    The tables stay well-formed through any requests and failures; what a
    definition loses on its way through the API. *)

From S2P Require Export Defs StoreFacts.

Local Open Scope string_scope.
Local Open Scope list_scope.
Local Open Scope Z_scope.

(** ** Well-formed tables *)

Section Wf.
Context {T : Type} `{Row T} (P : T -> Prop).

(** One row of a key, every row well-formed. *)
Definition table_wf (tbl : list T) : Prop := NoDup (map row_key tbl) /\ Forall P tbl.

Lemma table_wf_nil : table_wf [].
Proof. split; constructor. Qed.

Lemma wf_filter (f : T -> bool) tbl : table_wf tbl -> table_wf (List.filter f tbl).
Proof.
  intros [Hn Hall]. split; [by apply NoDup_map_filter|]. rewrite Forall_forall in Hall |- *.
  intros r Hr. apply Hall. apply list_elem_of_In in Hr. apply filter_In in Hr as [Hr _]. by apply list_elem_of_In.
Qed.

Lemma wf_Save e tbl : table_wf tbl -> P e -> table_wf (store_Save e tbl).
Proof.
  intros Hw He. unfold store_Save.
  destruct (wf_filter (fun r => negb (String.eqb (row_key r) (row_key e))) tbl Hw) as [Hn Hall]. split.
  - rewrite map_app. apply NoDup_app. split_and!; [done| |by apply NoDup_singleton].
    intros k Hk%list_elem_of_In ->%list_elem_of_singleton.
    apply in_map_iff in Hk as (r & E & [_ Hf]%filter_In). by rewrite E, String.eqb_refl in Hf.
  - apply Forall_app. split; [done|by constructor].
Qed.

Lemma wf_save_named row_id e tbl : table_wf tbl -> P e -> table_wf (save_named row_id e tbl).
Proof. intros Hw He. by apply wf_Save; [apply wf_filter|]. Qed.

Lemma wf_Delete now id tbl :
  (forall r, row_key (row_mark_deleted now r) = row_key r) -> (forall r, P r -> P (row_mark_deleted now r)) ->
  table_wf tbl -> table_wf (store_Delete now id tbl).
Proof.
  intros Hk HP [Hn Hall]. unfold store_Delete, store_update. split.
  - rewrite map_map. rewrite (map_ext _ row_key); [done|]. intros r. by destruct (String.eqb _ _).
  - apply List.Forall_map. eapply List.Forall_impl; [|exact Hall]. intros r Hr. cbn. destruct (String.eqb _ _); auto.
Qed.

Lemma get_row_in db_err table id tbl r : get_row db_err table id tbl = Ok r -> r ∈ tbl.
Proof.
  unfold get_row. destruct (db_err _); [done|]. destruct (store_Get id tbl) eqn:E; [|done].
  intros [= ->]. by apply store_Get_key in E as (_ & _ & Hin).
Qed.

Lemma wf_get db_err table id tbl r : table_wf tbl -> get_row db_err table id tbl = Ok r -> P r.
Proof. intros [_ Hall] Hg%get_row_in. rewrite Forall_forall in Hall. by apply Hall. Qed.
End Wf.


(** ** Requests *)

Record DefTables := {
  dt_agents : list AgentRow; dt_mcp : list McpInfo; dt_llm : list LlmProviderInfo;
  dt_knowledge : list KnowledgeRow; dt_channels : list NotifyChannelInfo;
}.

(** A writing request, with the id a creation makes up. *)
Inductive DefRequest :=
| AgentCreate (ns id : string) (body : option AgentRow)
| AgentUpdate (ns name : string) (body : option AgentRow)
| AgentDelete (name : string)
| McpCreate (ns id : string) (body : option McpInfo)
| McpUpdate (name : string) (body : option McpInfo)
| McpDelete (name : string)
| LlmCreate (ns id : string) (body : option LlmProviderInfo)
| LlmUpdate (id : string) (body : option LlmProviderInfo)
| LlmDelete (id : string)
| KnowledgeCreate (ns id : string) (body : option KnowledgeRow)
| KnowledgeUpdate (ns id : string) (body : option KnowledgeRow)
| KnowledgeDelete (id : string)
| ChannelCreate (ns id : string) (body : option NotifyChannelInfo)
| ChannelUpdate (id : string) (body : option NotifyChannelInfo)
| ChannelDelete (id : string).

Definition on_agents (l : list AgentRow) (t : DefTables) : DefTables :=
  {| dt_agents := l; dt_mcp := dt_mcp t; dt_llm := dt_llm t; dt_knowledge := dt_knowledge t; dt_channels := dt_channels t |}.
Definition on_mcp (l : list McpInfo) (t : DefTables) : DefTables :=
  {| dt_agents := dt_agents t; dt_mcp := l; dt_llm := dt_llm t; dt_knowledge := dt_knowledge t; dt_channels := dt_channels t |}.
Definition on_llm (l : list LlmProviderInfo) (t : DefTables) : DefTables :=
  {| dt_agents := dt_agents t; dt_mcp := dt_mcp t; dt_llm := l; dt_knowledge := dt_knowledge t; dt_channels := dt_channels t |}.
Definition on_knowledge (l : list KnowledgeRow) (t : DefTables) : DefTables :=
  {| dt_agents := dt_agents t; dt_mcp := dt_mcp t; dt_llm := dt_llm t; dt_knowledge := l; dt_channels := dt_channels t |}.
Definition on_channels (l : list NotifyChannelInfo) (t : DefTables) : DefTables :=
  {| dt_agents := dt_agents t; dt_mcp := dt_mcp t; dt_llm := dt_llm t; dt_knowledge := dt_knowledge t; dt_channels := l |}.

(** A request at a time, with the failures of the database it meets. *)
Definition def_step (t : DefTables) (call : (string -> option string) * Z * DefRequest) : DefTables :=
  let '(db_err, now, req) := call in
  match req with
  | AgentCreate ns id b => on_agents (Agents_Create db_err ns id now b (dt_agents t)).2 t
  | AgentUpdate ns name b => on_agents (Agents_Update db_err ns name now b (dt_agents t)).2 t
  | AgentDelete name => on_agents (Agents_Delete db_err name now (dt_agents t)).2 t
  | McpCreate ns id b => on_mcp (Mcp_Create db_err ns id now b (dt_mcp t)).2 t
  | McpUpdate name b => on_mcp (Mcp_Update db_err name now b (dt_mcp t)).2 t
  | McpDelete name => on_mcp (Mcp_Delete db_err name now (dt_mcp t)).2 t
  | LlmCreate ns id b => on_llm (Llm_Create db_err ns id now b (dt_llm t)).2 t
  | LlmUpdate id b => on_llm (Llm_Update db_err id now b (dt_llm t)).2 t
  | LlmDelete id => on_llm (Llm_Delete db_err id now (dt_llm t)).2 t
  | KnowledgeCreate ns id b => on_knowledge (Knowledge_Create db_err ns id now b (dt_knowledge t)).2 t
  | KnowledgeUpdate ns id b => on_knowledge (Knowledge_Update db_err ns id now b (dt_knowledge t)).2 t
  | KnowledgeDelete id => on_knowledge (Knowledge_Delete db_err id now (dt_knowledge t)).2 t
  | ChannelCreate ns id b => on_channels (Channels_Create db_err ns id now b (dt_channels t)).2 t
  | ChannelUpdate id b => on_channels (Channels_Update db_err id now b (dt_channels t)).2 t
  | ChannelDelete id => on_channels (Channels_Delete db_err id now (dt_channels t)).2 t
  end.

Definition no_tables : DefTables :=
  {| dt_agents := []; dt_mcp := []; dt_llm := []; dt_knowledge := []; dt_channels := [] |}.

(** ** What the rows of each table satisfy *)

Definition agent_ok (a : AgentRow) : Prop := a_Name (ag_info a) <> "".
Definition mcp_ok (_ : McpInfo) : Prop := True.
Definition llm_ok (p : LlmProviderInfo) : Prop := lp_columns p = p /\ lp_Status p <> "".
Definition knowledge_ok (k : KnowledgeRow) : Prop :=
  (kn_Title k <> "" \/ kn_Content k <> "") /\ is_Some (kn_Tags k) /\ b_Status (kn_base k) <> "".
Definition channel_ok (_ : NotifyChannelInfo) : Prop := True.

Definition well_typed (t : DefTables) : Prop :=
  table_wf agent_ok (dt_agents t) /\ table_wf mcp_ok (dt_mcp t) /\ table_wf llm_ok (dt_llm t) /\
  table_wf knowledge_ok (dt_knowledge t) /\ table_wf channel_ok (dt_channels t).

Lemma given_nonempty v old : old <> "" -> given v old <> "".
Proof. unfold given. by destruct (String.eqb_spec v ""). Qed.

Section Steps.
Variable db_err : string -> option string.
Variable now : Z.

Lemma agents_wf_Create ns id b tbl : table_wf agent_ok tbl -> table_wf agent_ok (Agents_Create db_err ns id now b tbl).2.
Proof.
  intros Hw. destruct b as [a|]; [|done]. cbn. destruct (String.eqb_spec (a_Name (ag_info a)) ""); [done|].
  destruct (db_err _); [done|]. by apply wf_save_named.
Qed.

Lemma agents_wf_Update ns name b tbl : table_wf agent_ok tbl -> table_wf agent_ok (Agents_Update db_err ns name now b tbl).2.
Proof.
  intros Hw. unfold Agents_Update. destruct (get_row _ _ _ _) as [a|] eqn:E; [|done]. destruct b as [u|]; [|done].
  destruct (db_err "Save"); [done|]. apply wf_save_named; [done|]. exact (wf_get _ _ _ _ _ _ Hw E).
Qed.

Lemma mcp_wf_Update name b tbl : table_wf mcp_ok tbl -> table_wf mcp_ok (Mcp_Update db_err name now b tbl).2.
Proof.
  intros Hw. unfold Mcp_Update. destruct (get_row _ _ _ _) as [m|]; [|done]. destruct b as [u|]; [|done].
  cbn. destruct (db_err _); [done|]. by apply wf_save_named.
Qed.

Lemma body_status_nonempty p : body_status p <> "".
Proof. unfold body_status. destruct (String.eqb_spec (lp_Status p) ""); [by destruct (lp_Enabled p)|done]. Qed.

Lemma llm_wf_save code p tbl :
  table_wf llm_ok tbl -> lp_Status p <> "" -> table_wf llm_ok (Llm_save db_err code p tbl).2.
Proof. intros Hw Hs. unfold Llm_save. destruct (db_err _); [done|]. apply wf_Save; [done|]. by destruct p. Qed.

Lemma knowledge_wf_Create ns id b tbl :
  table_wf knowledge_ok tbl -> table_wf knowledge_ok (Knowledge_Create db_err ns id now b tbl).2.
Proof.
  intros Hw. destruct b as [k|]; [|done]. cbn. destruct (_ && _) eqn:Et; [done|].
  destruct (db_err _); [done|]. apply wf_Save; [done|]. split_and!; cbn.
  - apply andb_false_iff in Et as [?%String.eqb_neq|?%String.eqb_neq]; auto.
  - by destruct (kn_Tags k).
  - by destruct (String.eqb_spec (b_Status (kn_base k)) "").
Qed.

Lemma knowledge_wf_Update ns id b tbl :
  table_wf knowledge_ok tbl -> table_wf knowledge_ok (Knowledge_Update db_err ns id now b tbl).2.
Proof.
  intros Hw. unfold Knowledge_Update. destruct (get_row _ _ _ _) as [k|] eqn:E; [|done]. destruct b as [u|]; [|done].
  destruct (db_err "Save"); [done|]. apply wf_Save; [done|].
  destruct (wf_get _ _ _ _ _ _ Hw E) as (Ht & [tags Htags] & Hs). split_and!; cbn; [| |done].
  - destruct Ht; [left|right]; by apply given_nonempty.
  - rewrite Htags. by destruct (kn_Tags u).
Qed.

(** A deletion that leaves keys and well-formedness. *)
Lemma wf_delete_row {T} `{Row T} (P : T -> Prop) id tbl :
  (forall r, row_key (row_mark_deleted now r) = row_key r) -> (forall r, P r -> P (row_mark_deleted now r)) ->
  table_wf P tbl -> table_wf P (delete_row db_err id now tbl).2.
Proof. intros. unfold delete_row. destruct (db_err _); [done|]. by apply wf_Delete. Qed.
End Steps.


(** ** Concrete inputs *)

Definition no_failure (_ : string) : option string := None.
Definition no_base : BaseEntity :=
  {| b_ID := ""; b_Description := ""; b_Namespace := ""; b_Status := ""; b_CreatedAt := 0; b_CreatedBy := "";
     b_UpdatedAt := 0; b_UpdatedBy := ""; b_DelFlag := false |}.
Definition demo_agent (name soul : string) : AgentRow :=
  {| ag_base := no_base;
     ag_info := {| a_Name := name; a_Model := "m"; a_Soul := soul; a_Instruction := "i"; a_OutputSchema := None;
                   a_Temperature := None; a_MaxTokens := 0 |};
     ag_Labels := None |}.
Definition demo_provider : LlmProviderInfo :=
  {| lp_base := no_base; lp_Provider := "openai"; lp_Enabled := true; lp_Status := ""; lp_Timeout := "30s";
     lp_TimeoutMs := 0; lp_Endpoint := "https://llm"; lp_Credentials := [("apikey", VStr "k")];
     lp_Proxy := "http://proxy"; lp_RateLimit := 5; lp_DefaultModel := "m"; lp_Models := []; lp_ApiKey := ""; lp_Labels := None |}.
Definition demo_channel : NotifyChannelInfo :=
  {| nc_base := no_base; nc_Name := "ops"; nc_ChannelType := "slack"; nc_Config := []; nc_Enabled := true; nc_Labels := None |}.


(** An agent is stored by its name alone: another namespace's creation of the
    same name replaces it, and an update moves it into the namespace of the
    request. *)
Lemma agent_taken_over :
  let tbl := (Agents_Create no_failure "a" "u1" 1 (Some (demo_agent "planner" "kind")) []).2 in
  let tbl' := (Agents_Create no_failure "b" "u2" 2 (Some (demo_agent "planner" "cruel")) tbl).2 in
  let tbl'' := (Agents_Update no_failure "b" "planner" 3 (Some (demo_agent "" "cruel")) tbl).2 in
  map (fun r => (b_Namespace (ag_base r), a_Soul (ag_info r))) tbl' = [("b", "cruel")] /\
  map (fun r => (b_Namespace (ag_base r), a_Soul (ag_info r))) tbl'' = [("b", "cruel")].
Proof. vm_compute. done. Qed.

(** The timeout, proxy and rate limit a provider is created with are answered
    and then gone. *)
Lemma provider_forgets :
  let (r, tbl) := Llm_Create no_failure "a" "p1" 1 (Some demo_provider) [] in
  exists p q, r = Reply 201 p /\ Llm_Get no_failure "p1" tbl = Reply 200 q /\
    lp_Proxy p = "http://proxy" /\ lp_RateLimit p = 5 /\ lp_Timeout p = "30s" /\
    lp_Proxy q = "" /\ lp_RateLimit q = 0 /\ lp_Timeout q = "" /\ lp_Enabled q = true.
Proof. vm_compute. do 2 eexists. split_and!; reflexivity. Qed.

(** An update of a channel takes everything from the body: a body without the
    audit fields erases the namespace and the creation time. *)
Lemma channel_update_erases :
  let tbl := (Channels_Create no_failure "a" "c1" 7 (Some demo_channel) []).2 in
  let tbl' := (Channels_Update no_failure "c1" 9 (Some demo_channel) tbl).2 in
  map (fun c => (b_Namespace (nc_base c), b_CreatedAt (nc_base c))) tbl = [("a", 7)] /\
  map (fun c => (b_Namespace (nc_base c), b_CreatedAt (nc_base c))) tbl' = [("", 0)].
Proof. vm_compute. done. Qed.

(** An MCP server updated with a body that does not mention [enabled] is
    disabled. *)
Lemma mcp_update_disables :
  let m enabled url := {| mc_base := no_base; mc_Name := "git"; mc_Enabled := enabled; mc_Type := "http"; mc_URL := url;
             mc_Headers := None; mc_Command := None; mc_Args := None; mc_Env := None; mc_Labels := None |} in
  let tbl := (Mcp_Create no_failure "a" "m1" 1 (Some (m true "http://x")) []).2 in
  map mc_Enabled (Mcp_Update no_failure "git" 2 (Some (m false "http://y")) tbl).2 = [false].
Proof. vm_compute. done. Qed.
