(* ===== verification/Client.v ===== *)
(** * The client of the API server

    [pkg/core/pkg/client/flowgent_client.go].  A method is the one request it
    makes and what it makes of the answer; a body is the value that is
    encoded, the decoding of an answer is given by a class. *)

From S2P Require Export Flows Defs Routes Oidc.

Local Open Scope string_scope.
Local Open Scope list_scope.
Local Open Scope Z_scope.

(** ** Requests and answers *)

(** The values the client encodes. *)
Inductive CallBody :=
| BFlow (spec : FlowInfo)
| BRun (run : FlowRunInfo)
| BTrigger (agentFlowID : string) (vars : gomap) (trigger : TriggerInfo)
| BStatus (status error : string)
| BTask (task : TaskRunInfo)
| BApproval (approval : ApprovalInfo)
| BChannel (channel : NotifyChannelInfo)
| BSearch (query : string) (topK : Z) (tags : list string)
| BKnowledge (entry : KnowledgeRow).

(** [cr_Target] is the path with its query, after the base URL. *)
Record CallReq := { cr_Method : string; cr_Target : string; cr_Body : option CallBody }.
Record CallResp := { cs_Status : Z; cs_Body : string }.

Record ApiCall (A : Type) := { call_req : CallReq; call_done : res CallResp -> res A }.
Arguments call_req {A}. Arguments call_done {A}.

(** A call over a transport that keeps a state. *)
Definition call_run {W A} (send : W -> CallReq -> res CallResp * W) (c : ApiCall A) (w : W) : res A * W :=
  let (r, w) := send w (call_req c) in (call_done c r, w).

Class Decode (A : Type) := decode : string -> res A.

Record FlowgentClient := { fc_BaseURL : string }.
Definition NewFlowgentClient (baseURL : string) : FlowgentClient :=
  {| fc_BaseURL := if String.eqb baseURL "" then "http://flowgent-apiserver:9999" else baseURL |}.
(** The URL that is asked. *)
Definition call_url (c : FlowgentClient) (q : CallReq) : string := fc_BaseURL c +:+ cr_Target q.

Definition get (target : string) : CallReq := {| cr_Method := "GET"; cr_Target := target; cr_Body := None |}.
Definition with_body (method target : string) (b : CallBody) : CallReq :=
  {| cr_Method := method; cr_Target := target; cr_Body := Some b |}.
Definition no_body (method target : string) : CallReq :=
  {| cr_Method := method; cr_Target := target; cr_Body := None |}.

(** Errors are prefixed with the method's name. *)
Definition named {A} (name : string) (r : res A) : res A :=
  match r with Ok a => Ok a | Err err => Err (name +:+ ": " +:+ err) end.
Definition status_error (name : string) (resp : CallResp) : string :=
  name +:+ " " +:+ Itoa (cs_Status resp) +:+ ": " +:+ cs_Body resp.

Definition readJSON {A} `{Decode A} (resp : CallResp) : res A :=
  if 300 <=? cs_Status resp
  then Err ("apiserver returned " +:+ Itoa (cs_Status resp) +:+ ": " +:+ cs_Body resp)
  else decode (cs_Body resp).

(** The three ways an answer is read: its JSON; one thing that may be
    missing; nothing of it. *)
Definition json_call {A} `{Decode A} (name : string) (q : CallReq) : ApiCall A :=
  {| call_req := q; call_done := fun r => named name (let? resp := r in readJSON resp) |}.

Definition get_one {A} `{Decode A} (name : string) (decode_named : bool) (q : CallReq) : ApiCall (option A) :=
  {| call_req := q;
     call_done := fun r =>
       let? resp := named name r in
       if cs_Status resp =? 404 then Ok None
       else if 300 <=? cs_Status resp then Err (status_error name resp)
       else match decode (cs_Body resp) with
            | Ok a => Ok (Some a)
            | Err err => Err (if decode_named then name +:+ ": " +:+ err else err)
            end |}.

Definition unit_call (name : string) (also_ok : Z -> bool) (q : CallReq) : ApiCall unit :=
  {| call_req := q;
     call_done := fun r =>
       let? resp := named name r in
       if (300 <=? cs_Status resp) && negb (also_ok (cs_Status resp)) then Err (status_error name resp) else Ok tt |}.
Definition none_ok (_ : Z) : bool := false.

(** ** Agents and flows *)

Definition ListAgents `{Decode (list AgentRow)} (ns : string) : ApiCall (list AgentRow) :=
  json_call "ListAgents" (get ("/api/v1/" +:+ ns +:+ "/agents")).
Definition GetAgent `{Decode AgentRow} (ns name : string) : ApiCall (option AgentRow) :=
  get_one "GetAgent" true (get ("/api/v1/" +:+ ns +:+ "/agents/" +:+ name)).

Definition ListFlows `{Decode (list FlowVersionInfo)} (ns : string) : ApiCall (list FlowVersionInfo) :=
  json_call "ListFlows" (get ("/api/v1/" +:+ ns +:+ "/flows")).
Definition GetFlow `{Decode FlowInfo} (ns flowID : string) : ApiCall (option FlowInfo) :=
  get_one "GetFlow" false (get ("/api/v1/" +:+ ns +:+ "/flows/" +:+ flowID)).
Definition CreateFlow (ns : string) (spec : FlowInfo) : ApiCall unit :=
  unit_call "CreateFlow" none_ok (with_body "POST" ("/api/v1/" +:+ ns +:+ "/flows") (BFlow spec)).
Definition UpdateFlow (ns flowID : string) (spec : FlowInfo) : ApiCall unit :=
  unit_call "UpdateFlow" none_ok (with_body "PUT" ("/api/v1/" +:+ ns +:+ "/flows/" +:+ flowID) (BFlow spec)).
Definition DeleteFlow (ns flowID : string) : ApiCall unit :=
  unit_call "DeleteFlow" none_ok (no_body "DELETE" ("/api/v1/" +:+ ns +:+ "/flows/" +:+ flowID)).

(** ** Runs *)

Definition CreateRun `{Decode FlowRunInfo} (ns : string) (run : FlowRunInfo) : ApiCall FlowRunInfo :=
  json_call "CreateRun" (with_body "POST" ("/api/v1/" +:+ ns +:+ "/runs") (BRun run)).
Definition TriggerRun `{Decode FlowRunInfo} (ns agentFlowID : string) (vars : gomap) (trigger : TriggerInfo)
    : ApiCall FlowRunInfo :=
  json_call "TriggerRun" (with_body "POST" ("/api/v1/" +:+ ns +:+ "/flows/trigger") (BTrigger agentFlowID vars trigger)).
Definition GetRun `{Decode FlowRunInfo} (ns runID : string) : ApiCall (option FlowRunInfo) :=
  get_one "GetRun" false (get ("/api/v1/" +:+ ns +:+ "/runs/" +:+ runID)).

(** [url.Values.Encode]: the keys that are set, in order. *)
Definition query_part (k v : string) : list string :=
  if String.eqb v "" then [] else [k +:+ "=" +:+ QueryEscape v].
Definition runs_query (status k8sNamespace flowID : string) (page size : Z) : string :=
  Join (query_part "agentflow_id" flowID ++ query_part "k8s_namespace" k8sNamespace ++
        (if 0 <? page then ["page=" +:+ Itoa page] else []) ++ (if 0 <? size then ["size=" +:+ Itoa size] else []) ++
        query_part "status" status) "&".

Definition ListRuns `{Decode (Page FlowRunInfo)} (ns status k8sNamespace flowID : string) (page size : Z)
    : ApiCall (Page FlowRunInfo) :=
  json_call "ListRuns" (get ("/api/v1/" +:+ ns +:+ "/runs?" +:+ runs_query status k8sNamespace flowID page size)).
Definition UpdateRunStatus (ns runID status errStr : string) : ApiCall unit :=
  unit_call "UpdateRunStatus" none_ok (with_body "PUT" ("/api/v1/" +:+ ns +:+ "/runs/" +:+ runID) (BStatus status errStr)).
Definition CancelRun (ns runID : string) : ApiCall unit :=
  unit_call "CancelRun" none_ok (no_body "POST" ("/api/v1/" +:+ ns +:+ "/runs/" +:+ runID +:+ "/cancel")).

(** ** Tasks *)

Definition CreateTaskRun (ns runID : string) (task : TaskRunInfo) : ApiCall unit :=
  unit_call "CreateTaskRun" none_ok (with_body "POST" ("/api/v1/" +:+ ns +:+ "/runs/" +:+ runID +:+ "/tasks") (BTask task)).
Definition UpdateTaskRun (ns runID taskID : string) (task : TaskRunInfo) : ApiCall unit :=
  unit_call "UpdateTaskRun" none_ok
    (with_body "PUT" ("/api/v1/" +:+ ns +:+ "/runs/" +:+ runID +:+ "/tasks/" +:+ taskID) (BTask task)).
Definition ListTaskRuns `{Decode (list TaskRunInfo)} (ns runID : string) : ApiCall (list TaskRunInfo) :=
  json_call "ListTaskRuns" (get ("/api/v1/" +:+ ns +:+ "/runs/" +:+ runID +:+ "/tasks")).
Definition GetTaskRun `{Decode TaskRunInfo} (ns runID taskID : string) : ApiCall (option TaskRunInfo) :=
  get_one "GetTaskRun" false (get ("/api/v1/" +:+ ns +:+ "/runs/" +:+ runID +:+ "/tasks/" +:+ taskID)).

(** The task a plan is saved as. *)
Definition plan_task (plan : ExecutionPlan) : TaskRunInfo :=
  {| t_ID := p_TaskID plan; t_AgentFlowRunID := p_AgentFlowRunID plan; t_NodeID := p_NodeID plan;
     t_Status := p_State plan; t_Input := p_Input plan; t_Output := None; t_Error := ""; t_MaxRetries := 0;
     t_ExecID := p_PlanID plan; t_FinishedAt := None |}.
Definition SavePlan (ns runID : string) (plan : ExecutionPlan) : ApiCall unit := CreateTaskRun ns runID (plan_task plan).

(** ** Approvals and channels *)

Definition client_CreateApproval (approval : ApprovalInfo) : ApiCall unit :=
  unit_call "CreateApproval" none_ok (with_body "POST" "/api/v1/human/approvals" (BApproval approval)).
Definition client_ListPendingApprovals `{Decode (list ApprovalInfo)} : ApiCall (list ApprovalInfo) :=
  json_call "ListPendingApprovals" (get "/api/v1/human/approvals?status=PENDING").

Definition ListChannels `{Decode (list NotifyChannelInfo)} (ns : string) : ApiCall (list NotifyChannelInfo) :=
  json_call "ListChannels" (get ("/api/v1/" +:+ ns +:+ "/notifications/channels")).
Definition CreateChannel `{Decode NotifyChannelInfo} (ns : string) (ch : NotifyChannelInfo) : ApiCall NotifyChannelInfo :=
  json_call "CreateChannel" (with_body "POST" ("/api/v1/" +:+ ns +:+ "/notifications/channels") (BChannel ch)).
Definition GetChannel `{Decode NotifyChannelInfo} (ns id : string) : ApiCall (option NotifyChannelInfo) :=
  get_one "GetChannel" true (get ("/api/v1/" +:+ ns +:+ "/notifications/channels/" +:+ id)).
Definition UpdateChannel `{Decode NotifyChannelInfo} (ns id : string) (ch : NotifyChannelInfo) : ApiCall NotifyChannelInfo :=
  json_call "UpdateChannel" (with_body "PUT" ("/api/v1/" +:+ ns +:+ "/notifications/channels/" +:+ id) (BChannel ch)).
Definition DeleteChannel (ns id : string) : ApiCall unit :=
  unit_call "DeleteChannel" (fun s => s =? 404)
    (no_body "DELETE" ("/api/v1/" +:+ ns +:+ "/notifications/channels/" +:+ id)).

(** ** Providers, MCP servers and knowledge *)

Definition ListLLMProviders `{Decode (list LlmProviderInfo)} (ns : string) : ApiCall (list LlmProviderInfo) :=
  json_call "ListLLMProviders" (get ("/api/v1/" +:+ ns +:+ "/llm/providers")).
Definition ListMCPs `{Decode (list McpInfo)} (ns : string) : ApiCall (list McpInfo) :=
  json_call "ListMCPs" (get ("/api/v1/" +:+ ns +:+ "/mcp")).
Definition SearchKnowledge `{Decode (list KnowledgeRow)} (ns query : string) (topK : Z) (tags : list string)
    : ApiCall (list KnowledgeRow) :=
  json_call "SearchKnowledge" (with_body "POST" ("/api/v1/" +:+ ns +:+ "/knowledge/search") (BSearch query topK tags)).
Definition CreateKnowledge `{Decode KnowledgeRow} (ns : string) (entry : KnowledgeRow) : ApiCall KnowledgeRow :=
  json_call "CreateKnowledge" (with_body "POST" ("/api/v1/" +:+ ns +:+ "/knowledge") (BKnowledge entry)).

(** ** Watching flows *)

(** The answer is a list, or a list with a version; its status is not looked
    at.  The second result is where to watch from next. *)
Definition WatchFlows `{Decode (list FlowVersionInfo)} `{Decode (list FlowVersionInfo * Z)} (ns : string) (since : Z)
    : ApiCall (list FlowVersionInfo * Z) :=
  {| call_req := get ("/api/v1/" +:+ ns +:+ "/flows/watch?since=" +:+ Itoa since);
     call_done := fun r =>
       let? resp := named "WatchFlows" r in
       match decode (cs_Body resp) : res (list FlowVersionInfo) with
       | Ok versions => Ok (versions, since)
       | Err _ =>
           match decode (cs_Body resp) : res (list FlowVersionInfo * Z) with
           | Ok (flows, version) => Ok (flows, if 0 <? version then version else since)
           | Err err => Err ("decode watch response: " +:+ err)
           end
       end |}.

(** ** Adapters *)

Definition RunState_UpdateRun (ns : string) (run : FlowRunInfo) : ApiCall unit :=
  UpdateRunStatus ns (r_ID run) (RunStatus_string (r_Status run)) (r_Error run).
Definition RunState_SaveTask (ns : string) (task : TaskRunInfo) : ApiCall unit :=
  UpdateTaskRun ns (t_AgentFlowRunID task) (t_ID task) task.
Definition TaskState_SaveTask (ns : string) (task : TaskRunInfo) : ApiCall unit :=
  UpdateTaskRun ns (t_AgentFlowRunID task) (t_ID task) task.
Definition HumanApproval_CreateApproval (approval : ApprovalInfo) : ApiCall unit := client_CreateApproval approval.
Definition LlmProvider_ListProviders `{Decode (list LlmProviderInfo)} (ns : string) : ApiCall (list LlmProviderInfo) :=
  ListLLMProviders ns.
Definition McpProvider_ListMCPs `{Decode (list McpInfo)} (ns : string) : ApiCall (list McpInfo) := ListMCPs ns.

(** ** Subscription routes (pkg/model/pkg/channel.go) *)

Record SubscriptionRoute := {
  sr_ID : string; sr_AgentFlowID : string; sr_WSID : string; sr_PodID : string; sr_CreatedAt : Z;
}.

(** The routes of the adapter of the notifier, which are its own. *)
Abbreviation routes_map := (gmap string SubscriptionRoute).

Definition SaveRoute (route : SubscriptionRoute) (routes : routes_map) : routes_map := <[sr_ID route := route]> routes.
Definition GetRoutesByFlow `{RangeOrder} (agentFlowID : string) (routes : routes_map) : list SubscriptionRoute :=
  List.filter (fun r => String.eqb (sr_AgentFlowID r) agentFlowID) (map snd (range_of routes)).
Definition DeleteRoute (id : string) (routes : routes_map) : routes_map := delete id routes.

Definition orphaned (podID : string) (maxAge now : Z) (r : SubscriptionRoute) : bool :=
  String.eqb (sr_PodID r) podID && (maxAge <? now - sr_CreatedAt r).
Definition CleanupOrphanedRoutes `{RangeOrder} (podID : string) (maxAge now : Z) (routes : routes_map) : Z * routes_map :=
  fold_left (fun (acc : Z * routes_map) kv =>
    if orphaned podID maxAge now kv.2 then (acc.1 + 1, delete kv.1 acc.2) else acc) (range_of routes) (0, routes).
