(* ===== verification/Discovery.v ===== *)
(** * Discovery of peers, leaders and shards

    [pkg/core/pkg/engine/discovery]: the peers of a pod (from the Kubernetes
    API, or a static list), the leader among them, and the shard of a key. *)

From S2P Require Export GoStr.
From Stdlib Require Import Ascii.

Local Open Scope string_scope.
Local Open Scope list_scope.
Local Open Scope Z_scope.

Record Peer := { pe_Name : string; pe_Namespace : string; pe_PodIP : string; pe_Ready : bool; pe_Since : Z }.

(** [<] of strings, by bytes. *)
Fixpoint str_lt (a b : string) : bool :=
  match a, b with
  | _, EmptyString => false
  | EmptyString, String _ _ => true
  | String x a', String y b' =>
      (N_of_ascii x <? N_of_ascii y)%N || (N_of_ascii x =? N_of_ascii y)%N && str_lt a' b'
  end.

(** ** Leaders *)

Definition LeaderElection (peers : list Peer) (self : Peer) : bool :=
  match peers with
  | [] => false
  | p0 :: rest =>
      String.eqb (fold_left (fun leader p => if str_lt (pe_Name p) leader then pe_Name p else leader) rest (pe_Name p0))
        (pe_Name self)
  end.

(** ** Shards *)

Definition fnv_offset : Z := 14695981039346656037.
Definition fnv_prime : Z := 1099511628211.

Definition fnv_step (h b : Z) : Z := u64 (Z.lxor h b * fnv_prime).

Fixpoint fnv_bytes (h : Z) (s : string) : Z :=
  match s with
  | EmptyString => h
  | String c s' => fnv_bytes (fnv_step h (Z.of_N (N_of_ascii c))) s'
  end.

Definition hashFnv64a (s : string) : Z := fnv_bytes fnv_offset s.

(** The length of a peer list is a non-negative [int]; the remainder is below
    it, so the conversion back is exact. *)
Definition ShardIndex (key : string) (totalPods : Z) : Z :=
  if totalPods <=? 1 then 0 else i64 (hashFnv64a key mod u64 totalPods).

Definition hashPeers (peers : list Peer) : Z :=
  match peers with
  | [] => 0
  | _ => fold_left (fun h p => fnv_step h (hashFnv64a (pe_Name p))) peers fnv_offset
  end.

(** ** Kubernetes *)

Record Pod := {
  pod_Name : string; pod_Namespace : string; pod_IP : string; pod_Conditions : list (string * string);
  pod_Created : Z;
}.

Definition pod_ready (pod : Pod) : bool :=
  existsb (fun c => String.eqb c.1 "Ready" && String.eqb c.2 "True") (pod_Conditions pod).

Definition peer_of (pod : Pod) : Peer :=
  {| pe_Name := pod_Name pod; pe_Namespace := pod_Namespace pod; pe_PodIP := pod_IP pod; pe_Ready := true;
     pe_Since := pod_Created pod |}.

(** [pods] is what the API lists for the client's namespace and a selector. *)
Definition K8s_DiscoverPeers (pods : res (list Pod)) : res (list Peer) :=
  let? items := pods in Ok (map peer_of (List.filter pod_ready items)).

Definition K8s_IsLeader (self : Peer) (pods : res (list Pod)) : res bool :=
  let? peers := K8s_DiscoverPeers pods in
  Ok (LeaderElection (List.filter pe_Ready peers) self).

(** [NewK8sDiscoveryClient], from its environment. *)
Definition K8s_Self (podNamespace podName podIP : string) (now : Z) : Peer :=
  {| pe_Name := podName; pe_Namespace := if String.eqb podNamespace "" then "default" else podNamespace;
     pe_PodIP := podIP; pe_Ready := true; pe_Since := now |}.

(** A watcher: the hash it emitted last, and the peer lists its channel of ten
    holds; one that finds it full drops the change. *)
Record Watcher := { wt_last : Z; wt_chan : list (list Peer) }.

Definition watch_tick (pods : res (list Pod)) (w : Watcher) : Watcher :=
  match K8s_DiscoverPeers pods with
  | Err _ => w
  | Ok peers =>
      let h := hashPeers peers in
      if h =? wt_last w then w
      else {| wt_last := h;
              wt_chan := if (length (wt_chan w) <? 10)%nat then wt_chan w ++ [peers] else wt_chan w |}
  end.

(** ** Static *)

Record StaticDiscoveryClient := {
  sd_self : Peer; sd_totalPods : Z; sd_podIndex : Z; sd_peers : list Peer;
}.

Definition controller_name (i : Z) : string := "controller-" +:+ Itoa i.

Definition static_peer (now : Z) (name : string) : Peer :=
  {| pe_Name := name; pe_Namespace := ""; pe_PodIP := ""; pe_Ready := true; pe_Since := now |}.

(** [podName] is the environment's. *)
Definition NewStaticDiscoveryClient (podName : string) (now podTotal podIndex : Z) : StaticDiscoveryClient :=
  let total := if podTotal <=? 0 then 1 else podTotal in
  let index := if (podIndex <? 0) || (total <=? podIndex) then 0 else podIndex in
  let name := if String.eqb podName "" then controller_name index else podName in
  {| sd_self := static_peer now name; sd_totalPods := total; sd_podIndex := index;
     sd_peers := map (fun i => static_peer now (controller_name (Z.of_nat i))) (seq 0 (Z.to_nat total)) |}.

Definition Static_IsLeader (c : StaticDiscoveryClient) : bool := LeaderElection (sd_peers c) (sd_self c).

(** ** Ownership (pkg/controller/pkg/controller.go) *)

(** [ownsFlow] of the pod [self]. *)
Definition ownsFlow (self : Peer) (peers : list Peer) (flowID : string) : bool :=
  match peers with
  | [] => true
  | _ =>
      let shard := ShardIndex flowID (Z.of_nat (length peers)) in
      existsb (fun ip => String.eqb (pe_Name ip.2) (pe_Name self) && (Z.of_nat ip.1 =? shard))
        (combine (seq 0 (length peers)) peers)
  end.

(** [getPeers], which the tick uses up to the index. *)
Definition getPeers (self : Peer) (discovered : res (list Peer)) : res (list Peer * nat) :=
  match discovered with
  | Err e => Err ("discover peers: " +:+ e)
  | Ok peers =>
      Ok (peers, match list_find (fun p => pe_Name p = pe_Name self) peers with Some (i, _) => i | None => 0%nat end)
  end.

(** * Properties of discovery

    Every flow has exactly one owner among the peers of a snapshot; a snapshot
    has one leader; and what each needs of the names. *)

(** ** The order of names *)

Lemma str_lt_irrefl s : str_lt s s = false.
Proof.
  induction s as [|c s IH]; cbn; [done|]. by rewrite N.ltb_irrefl, N.eqb_refl, IH.
Qed.

Lemma str_lt_trans a b c : str_lt a b = true -> str_lt b c = true -> str_lt a c = true.
Proof.
  revert b c. induction a as [|x a IH]; intros [|y b] [|z c]; cbn; try done.
  intros [H1%N.ltb_lt|[E1%N.eqb_eq H1]%andb_true_iff]%orb_true_iff
         [H2%N.ltb_lt|[E2%N.eqb_eq H2]%andb_true_iff]%orb_true_iff; apply orb_true_iff.
  - left. apply N.ltb_lt. lia.
  - left. apply N.ltb_lt. lia.
  - left. apply N.ltb_lt. lia.
  - right. apply andb_true_iff. split; [apply N.eqb_eq; lia|by eapply IH].
Qed.

Lemma str_lt_total a b : str_lt a b = true \/ a = b \/ str_lt b a = true.
Proof.
  revert b. induction a as [|x a IH]; intros [|y b]; cbn; auto.
  destruct (N.lt_trichotomy (N_of_ascii x) (N_of_ascii y)) as [H|[H|H]].
  - left. by rewrite (proj2 (N.ltb_lt _ _) H).
  - assert (x = y) as -> by (by rewrite <- (ascii_N_embedding x), H, ascii_N_embedding).
    rewrite N.ltb_irrefl, N.eqb_refl. cbn. destruct (IH b) as [?|[->|?]]; auto.
  - right. right. by rewrite (proj2 (N.ltb_lt _ _) H).
Qed.

(** ** Leaders *)

Definition leader_name (peers : list Peer) (d : string) : string :=
  fold_left (fun leader p => if str_lt (pe_Name p) leader then pe_Name p else leader) peers d.

Lemma leader_name_spec peers : forall d,
  (leader_name peers d = d \/ exists p, p ∈ peers /\ pe_Name p = leader_name peers d) /\
  str_lt d (leader_name peers d) = false /\
  forall p, p ∈ peers -> str_lt (pe_Name p) (leader_name peers d) = false.
Proof.
  induction peers as [|p peers IH]; intros d; cbn.
  { split_and!; [by left|apply str_lt_irrefl|by intros p ?%not_elem_of_nil]. }
  set (d' := if str_lt (pe_Name p) d then pe_Name p else d).
  destruct (IH d') as (Hin & Hd & Hall).
  assert (str_lt d d' = false /\ str_lt (pe_Name p) d' = false) as [H1 H2].
  { unfold d'. destruct (str_lt (pe_Name p) d) eqn:E; [|by split; [apply str_lt_irrefl|]].
    split; [|apply str_lt_irrefl]. destruct (str_lt d (pe_Name p)) eqn:E'; [|done].
    pose proof (str_lt_trans _ _ _ E E') as H. by rewrite str_lt_irrefl in H. }
  assert (forall x, str_lt x d' = false -> str_lt x (leader_name peers d') = false) as Hup.
  { intros x Hx. destruct (str_lt x (leader_name peers d')) eqn:E; [|done].
    destruct (str_lt_total d' (leader_name peers d')) as [H|[H|H]]; [congruence|congruence|].
    pose proof (str_lt_trans _ _ _ E H). congruence. }
  split_and!.
  - destruct Hin as [E|(q & Hq & E)].
    + unfold d' in *. destruct (str_lt (pe_Name p) d) eqn:El; [right; exists p; split; [by apply elem_of_cons; left|done]|by left].
    + right. exists q. split; [by apply elem_of_cons; right|done].
  - by apply Hup.
  - intros q [->|Hq]%elem_of_cons; [by apply Hup|by apply Hall].
Qed.

(** Among the peers of a snapshot exactly one name leads: the least of them;
    a pod leads when it bears that name, so with distinct names one pod leads
    and a pod outside the snapshot does not. *)
Theorem leader_unique peers :
  peers <> [] ->
  exists leader, leader ∈ peers /\
    (forall p, p ∈ peers -> str_lt (pe_Name p) (pe_Name leader) = false) /\
    forall self, LeaderElection peers self = true <-> pe_Name self = pe_Name leader.
Proof.
  destruct peers as [|p0 rest]; [done|]. intros _.
  destruct (leader_name_spec rest (pe_Name p0)) as (Hin & Hd & Hall).
  assert (exists leader, leader ∈ p0 :: rest /\ pe_Name leader = leader_name rest (pe_Name p0)) as (l & Hl & El).
  { destruct Hin as [E|(q & Hq & E)]; [exists p0|exists q]; rewrite elem_of_cons; auto. }
  exists l. rewrite El. split_and!; [done| |].
  - intros p [->|Hp]%elem_of_cons; [done|by apply Hall].
  - intros self. cbn. fold (leader_name rest (pe_Name p0)). rewrite String.eqb_eq. by split; intros ->.
Qed.

(** ** Shards *)

Lemma fnv_bytes_range s : forall h, 0 <= h < 2 ^ 64 -> 0 <= fnv_bytes h s < 2 ^ 64.
Proof.
  induction s as [|c s IH]; intros h Hh; cbn -[Z.pow]; [done|]. apply IH.
  unfold fnv_step, u64, wrap_u. apply Z.mod_pos_bound. lia.
Qed.

Lemma hashFnv64a_range s : 0 <= hashFnv64a s < 2 ^ 64.
Proof. apply fnv_bytes_range. unfold fnv_offset. lia. Qed.

(** Values of FNV-1a that are published. *)
Example hashFnv64a_vectors :
  map hashFnv64a ["" ; "a"; "foobar"] = [0xcbf29ce484222325; 0xaf63dc4c8601ec8c; 0x85944171f73967e8].
Proof. vm_compute. reflexivity. Qed.

Lemma ShardIndex_range key n : 1 <= n < 2 ^ 63 -> 0 <= ShardIndex key n < n.
Proof.
  intros Hn. unfold ShardIndex. destruct (Z.leb_spec n 1); [lia|].
  unfold u64, wrap_u. rewrite (Z.mod_small n (2 ^ 64)) by lia.
  pose proof (Z.mod_pos_bound (hashFnv64a key) n ltac:(lia)) as B.
  unfold i64, wrap_s. rewrite Z.mod_small by lia.
  destruct (Z.ltb_spec (hashFnv64a key mod n) (2 ^ (64 - 1))); lia.
Qed.

Lemma combine_seq_lookup {A} (l : list A) (i : nat) (x : A) : forall k,
  (i, x) ∈ combine (seq k (length l)) l <-> (k <= i)%nat /\ l !! (i - k)%nat = Some x.
Proof.
  induction l as [|y l IH]; intros k; cbn.
  - split; [by intros ?%not_elem_of_nil|by intros []].
  - rewrite elem_of_cons, IH. split.
    + intros [[= -> ->]|[Hk Hl]]; [by rewrite Nat.sub_diag|].
      split; [lia|]. by replace (i - k)%nat with (S (i - S k)) by lia.
    + intros [Hk Hl]. destruct (decide (i = k)) as [->|Hne].
      * left. rewrite Nat.sub_diag in Hl. cbn in Hl. congruence.
      * right. split; [lia|]. by replace (i - k)%nat with (S (i - S k)) in Hl by lia.
Qed.

Lemma ownsFlow_iff self peers flowID :
  peers <> [] -> Z.of_nat (length peers) < 2 ^ 63 ->
  ownsFlow self peers flowID = true <->
  exists p, peers !! Z.to_nat (ShardIndex flowID (Z.of_nat (length peers))) = Some p /\ pe_Name p = pe_Name self.
Proof.
  intros Hne Hlen. unfold ownsFlow. destruct peers as [|p0 rest]; [done|]. set (peers := p0 :: rest) in *.
  set (sh := ShardIndex flowID (Z.of_nat (length peers))).
  assert (0 <= sh) as Hsh by (apply ShardIndex_range; split; [cbn [length peers]; lia|done]).
  rewrite existsb_exists. split.
  - intros ([i p] & Hin%list_elem_of_In & [En%String.eqb_eq Ei%Z.eqb_eq]%andb_true_iff). cbn in En, Ei.
    apply combine_seq_lookup in Hin as [_ Hl]. rewrite Nat.sub_0_r in Hl.
    exists p. rewrite <- Ei, Nat2Z.id. done.
  - intros (p & Hl & En). exists (Z.to_nat sh, p). rewrite <- list_elem_of_In, combine_seq_lookup, Nat.sub_0_r. cbn.
    split; [by split; [lia|]|]. rewrite En, String.eqb_refl. cbn. apply Z.eqb_eq. lia.
Qed.

Lemma shard_peer (peers : list Peer) (flowID : string) :
  peers <> [] -> Z.of_nat (length peers) < 2 ^ 63 ->
  exists p, peers !! Z.to_nat (ShardIndex flowID (Z.of_nat (length peers))) = Some p.
Proof.
  intros Hne Hlen. apply lookup_lt_is_Some_2.
  assert (1 <= Z.of_nat (length peers)) by (destruct peers; [done|cbn [length]; lia]).
  pose proof (ShardIndex_range flowID (Z.of_nat (length peers)) ltac:(lia)). lia.
Qed.

(** C16: in a snapshot of peers with distinct names every flow is owned by
    exactly one peer, whatever the flow and the number of peers; a pod outside
    the snapshot owns nothing. *)
Theorem flow_has_one_owner (peers : list Peer) (flowID : string) :
  peers <> [] -> NoDup (pe_Name <$> peers) -> Z.of_nat (length peers) < 2 ^ 63 ->
  exists owner : Peer, owner ∈ peers /\
    (forall self, self ∈ peers -> ownsFlow self peers flowID = true <-> self = owner) /\
    (forall self, pe_Name self ∉ pe_Name <$> peers -> ownsFlow self peers flowID = false).
Proof.
  intros Hne Hnd Hlen. destruct (shard_peer peers flowID Hne Hlen) as (owner & Ho).
  exists owner. pose proof (list_elem_of_lookup_2 _ _ _ Ho) as Hin. split_and!; [done| |].
  - intros self Hself. rewrite ownsFlow_iff by done. split; [|by intros ->; exists owner].
    intros (p & Hp & En). rewrite Ho in Hp. injection Hp as <-.
    apply list_elem_of_lookup in Hself as (i & Hi).
    assert (i = Z.to_nat (ShardIndex flowID (Z.of_nat (length peers)))) as ->; [|congruence].
    eapply NoDup_lookup; [exact Hnd| |]; rewrite list_lookup_fmap; [by rewrite Hi|]. rewrite Ho. cbn. by rewrite En.
  - intros self Hself. destruct (ownsFlow self peers flowID) eqn:E; [|done].
    apply ownsFlow_iff in E as (p & Hp & En); [|done..]. exfalso. apply Hself. rewrite <- En.
    apply list_elem_of_fmap_2. by eapply list_elem_of_lookup_2.
Qed.

(** ** Concrete peers *)

Definition demo_peer (name : string) : Peer :=
  {| pe_Name := name; pe_Namespace := "flowgent-system"; pe_PodIP := ""; pe_Ready := true; pe_Since := 0 |}.
Definition demo_peers : list Peer := map demo_peer ["ctrl-b"; "ctrl-a"; "ctrl-c"].

Lemma leader_unique_witness : LeaderElection demo_peers (demo_peer "ctrl-a") = true.
Proof.
  destruct (leader_unique demo_peers) as (l & Hin & Hmin & Hl); [discriminate|].
  apply Hl. specialize (Hmin (demo_peer "ctrl-a") ltac:(apply elem_of_cons; right; apply elem_of_cons; left; reflexivity)).
  apply list_elem_of_In in Hin as [<-|[<-|[<-|[]]]]; [discriminate Hmin|reflexivity|discriminate Hmin].
Defined.

Lemma flow_has_one_owner_witness :
  exists owner, owner ∈ demo_peers /\ ownsFlow owner demo_peers "build" = true.
Proof.
  destruct (flow_has_one_owner demo_peers "build") as (owner & Hin & Ho & _).
  - discriminate.
  - apply (bool_decide_unpack _). vm_compute. exact I.
  - vm_compute. reflexivity.
  - exists owner. split; [exact Hin|]. by apply Ho.
Defined.

(** ** What the model shows *)

(** The static client names its peers [controller-i]: a pod that has a name of
    its own in [POD_NAME] is none of them and owns nothing. *)
Lemma static_named_pod_owns_nothing flowID :
  let c := NewStaticDiscoveryClient "flowgent-controller-0" 0 1 0 in
  ownsFlow (sd_self c) (sd_peers c) flowID = false /\ Static_IsLeader c = false.
Proof. split; reflexivity. Qed.

(** Without that name the one pod owns every flow. *)
Lemma static_pod_owns_all flowID :
  let c := NewStaticDiscoveryClient "" 0 1 0 in ownsFlow (sd_self c) (sd_peers c) flowID = true.
Proof. reflexivity. Qed.

(** A snapshot of another pod set gives a flow another owner: during a rollout
    two pods may own it, or none. *)
Lemma snapshots_disagree :
  let a := demo_peer "ctrl-a" in let b := demo_peer "ctrl-b" in let c := demo_peer "ctrl-c" in
  ownsFlow a [a] "build" = true /\ ownsFlow b [a; b] "build" = true /\
  ownsFlow a [a; b] "build" = false /\ ownsFlow b [b; c] "build" = false.
Proof. vm_compute. auto. Qed.
