(* ===== verification/Kube.v ===== *)
(** * The Kubernetes objects the controller works on

    Namespaces, the objects in them and the deployments, as the calls of the
    client library read and write them.  Any call may fail: [kube_fault] says
    which, by their number.  As the controller's comments have it, creating an
    object in a namespace that does not exist fails. *)

From S2P Require Export GoStr.

Local Open Scope string_scope.
Local Open Scope list_scope.
Local Open Scope Z_scope.

Abbreviation Labels := (gmap string string).

Record PolicyRule := { pr_APIGroups : list string; pr_Resources : list string; pr_Verbs : list string }.

(** What an object holds: the data of a config map, the rules of a role, the
    role and the service account of a binding. *)
Inductive Payload :=
| PNone
| PData (data : Labels)
| PRules (rules : list PolicyRule)
| PBinding (role subject namespace : string).

Record KObject := { ko_Labels : Labels; ko_Body : Payload }.

(** Kind, namespace, name. *)
Abbreviation okey := (string * string * string)%type.
Definition ns_key (ns : string) : okey := ("Namespace", "", ns).

Inductive EnvValue := EnvLiteral (v : string) | EnvField (path : string).

(** The one container of a pod: its command and arguments, the config map
    mounted at [/etc/flowgent], a directory of the host and where it is
    mounted, the limits and requests.  The selector of a deployment and the
    labels of its pods are the deployment's labels. *)
Record PodTemplate := {
  pt_ServiceAccount : string; pt_Image : string; pt_Command : list string; pt_Args : list string;
  pt_EnvFrom : option string; pt_Env : list (string * EnvValue); pt_ConfigMap : string;
  pt_Workspace : option (string * string); pt_Seccomp : bool;
  pt_Limits : list (string * string); pt_Requests : list (string * string);
}.

Record Deployment := {
  d_Name : string; d_Namespace : string; d_Labels : Labels; d_Replicas : Z; d_Template : PodTemplate;
}.

#[export] Instance EnvValue_eq_dec : EqDecision EnvValue.
Proof. solve_decision. Defined.
#[export] Instance PodTemplate_eq_dec : EqDecision PodTemplate.
Proof. solve_decision. Defined.
#[export] Instance Deployment_eq_dec : EqDecision Deployment.
Proof. solve_decision. Defined.

(** A label that is missing reads as the empty string. *)
Definition label (d : Deployment) (k : string) : string :=
  match d_Labels d !! k with Some v => v | None => "" end.

Definition is_dep (ns name : string) (d : Deployment) : bool :=
  String.eqb (d_Namespace d) ns && String.eqb (d_Name d) name.

(** A selector asks for a value of each of its labels. *)
Definition sel_match (sel : list (string * string)) (d : Deployment) : bool :=
  forallb (fun kv => bool_decide (d_Labels d !! kv.1 = Some kv.2)) sel.

Record KCluster := { kc_objs : gmap okey KObject; kc_deps : list Deployment; kc_calls : nat }.

Class KubeFaults := { kube_fault : nat -> option string }.
Definition no_faults : KubeFaults := {| kube_fault := fun _ => None |}.

Inductive get_result (A : Type) := GotIt (a : A) | NotFound | GetErr (e : string).
Arguments GotIt {A} a. Arguments NotFound {A}. Arguments GetErr {A} e.
Inductive create_result := Created | AlreadyExists | CreateErr (e : string).
Inductive delete_result := Deleted | DelNotFound | DelErr (e : string).

Definition with_objs (m : gmap okey KObject) (cl : KCluster) : KCluster :=
  {| kc_objs := m; kc_deps := kc_deps cl; kc_calls := kc_calls cl |}.
Definition with_deps (l : list Deployment) (cl : KCluster) : KCluster :=
  {| kc_objs := kc_objs cl; kc_deps := l; kc_calls := kc_calls cl |}.
Definition tick (cl : KCluster) : KCluster :=
  {| kc_objs := kc_objs cl; kc_deps := kc_deps cl; kc_calls := S (kc_calls cl) |}.

Section Calls.
Context `{KubeFaults}.

Definition obj_get (k : okey) (cl : KCluster) : get_result KObject * KCluster :=
  (match kube_fault (kc_calls cl) with
   | Some e => GetErr e
   | None => match kc_objs cl !! k with Some o => GotIt o | None => NotFound end
   end, tick cl).

Definition ns_exists (ns : string) (cl : KCluster) : bool := bool_decide (is_Some (kc_objs cl !! ns_key ns)).

Definition obj_create (k : okey) (o : KObject) (cl : KCluster) : create_result * KCluster :=
  match kube_fault (kc_calls cl) with
  | Some e => (CreateErr e, tick cl)
  | None =>
      match kc_objs cl !! k with
      | Some _ => (AlreadyExists, tick cl)
      | None =>
          if negb (String.eqb k.1.1 "Namespace") && negb (ns_exists k.1.2 cl)
          then (CreateErr ("namespaces " +:+ Quote k.1.2 +:+ " not found"), tick cl)
          else (Created, tick (with_objs (<[k := o]> (kc_objs cl)) cl))
      end
  end.

Definition obj_update (k : okey) (o : KObject) (cl : KCluster) : option string * KCluster :=
  match kube_fault (kc_calls cl) with
  | Some e => (Some e, tick cl)
  | None =>
      match kc_objs cl !! k with
      | None => (Some "not found", tick cl)
      | Some _ => (None, tick (with_objs (<[k := o]> (kc_objs cl)) cl))
      end
  end.

Definition dep_get (ns name : string) (cl : KCluster) : get_result Deployment * KCluster :=
  (match kube_fault (kc_calls cl) with
   | Some e => GetErr e
   | None => match find (is_dep ns name) (kc_deps cl) with Some d => GotIt d | None => NotFound end
   end, tick cl).

Definition dep_create (d : Deployment) (cl : KCluster) : create_result * KCluster :=
  match kube_fault (kc_calls cl) with
  | Some e => (CreateErr e, tick cl)
  | None =>
      if existsb (is_dep (d_Namespace d) (d_Name d)) (kc_deps cl) then (AlreadyExists, tick cl)
      else if negb (ns_exists (d_Namespace d) cl)
      then (CreateErr ("namespaces " +:+ Quote (d_Namespace d) +:+ " not found"), tick cl)
      else (Created, tick (with_deps (kc_deps cl ++ [d]) cl))
  end.

Definition dep_delete (ns name : string) (cl : KCluster) : delete_result * KCluster :=
  match kube_fault (kc_calls cl) with
  | Some e => (DelErr e, tick cl)
  | None =>
      if existsb (is_dep ns name) (kc_deps cl)
      then (Deleted, tick (with_deps (List.filter (fun d => negb (is_dep ns name d)) (kc_deps cl)) cl))
      else (DelNotFound, tick cl)
  end.

Definition dep_list (sel : list (string * string)) (cl : KCluster) : res (list Deployment) * KCluster :=
  (match kube_fault (kc_calls cl) with
   | Some e => Err e
   | None => Ok (List.filter (sel_match sel) (kc_deps cl))
   end, tick cl).

End Calls.

(** ** The labels the program puts on what it makes *)

Definition LabelMode := "flowgent.io/mode".
Definition LabelNamespaceID := "flowgent.io/namespace".
Definition LabelFlowID := "flowgent.io/flow".
Definition LabelManagedBy := "flowgent.io/managed-by".
Definition LabelParentJobManager := "flowgent.io/parent-jobmanager".
Definition LabelParentJobManagerNamespace := "flowgent.io/parent-jobmanager-namespace".
Definition LabelValueApplication := "application".
Definition LabelValueJobManager := "jobmanager".
