(* ===== verification/Controller.v ===== *)
(** * The controller

    [pkg/controller/pkg/controller.go] and the cron trigger of
    [pkg/core/pkg/engine/trigger/trigger.go]: one pod of the controller drives
    the flows of its shard.  A tick takes a snapshot of peers, definitions and
    active runs, gives every active flow its job manager, registers the cron
    schedules, and deletes the deployments nobody needs.  The calls to the API
    server are the fields of [ApiView]; the cluster is [Kube.KCluster].  A tick
    happens at one time [now]. *)

From S2P Require Export Kube Discovery ApiRuns.

Local Open Scope string_scope.
Local Open Scope list_scope.
Local Open Scope Z_scope.

(** ** Configuration and state *)

Record RuntimeConfig := {
  rt_JMImage : string; rt_CredentialEnvSecret : string; rt_SystemNamespace : string; rt_K8sNamespace : string;
  rt_JMConfigMap : string; rt_APIServerURL : string; rt_TMOrphanTimeout : string; rt_ControllerLabel : string;
  rt_NamespacePrefix : string; rt_MQTTBroker : string;
}.

(** ** The cron trigger *)

(** [st_entries] are the jobs of the cron; one added twice runs twice. *)
Record ScheduleTrigger := {
  st_specs : gmap string string; st_entries : list (string * string); st_running : bool;
}.

Definition NewScheduleTrigger : ScheduleTrigger := {| st_specs := ∅; st_entries := []; st_running := false |}.

(** [cron_ok]: the expressions the cron library accepts; the error of one that
    it refuses is not looked at. *)
Definition register_trigger (cron_ok : string -> bool) (flowID : string) (s : ScheduleTrigger) (t : TriggerDef)
    : ScheduleTrigger :=
  if String.eqb (td_Type t) "schedule" && negb (String.eqb (td_Cron t) "")
  then {| st_specs := <[flowID := td_Cron t]> (st_specs s);
          st_entries := if cron_ok (td_Cron t) then st_entries s ++ [(flowID, td_Cron t)] else st_entries s;
          st_running := st_running s |}
  else s.

Definition RegisterAgentFlows (cron_ok : string -> bool) (flows : list FlowInfo) (s : ScheduleTrigger) : ScheduleTrigger :=
  fold_left (fun s f => fold_left (register_trigger cron_ok (f_ID f)) (f_Triggers f) s) flows s.

Definition cron_Start (s : ScheduleTrigger) : ScheduleTrigger :=
  {| st_specs := st_specs s; st_entries := st_entries s; st_running := true |}.
Definition cron_Stop (s : ScheduleTrigger) : ScheduleTrigger :=
  {| st_specs := st_specs s; st_entries := st_entries s; st_running := false |}.
Definition cron_Clear (s : ScheduleTrigger) : ScheduleTrigger := NewScheduleTrigger.

(** ** State *)

Definition three_minutes : Z := 180000000000.

Definition parseTMOrphanTimeout (parse_duration : string -> option Z) (raw : string) : Z :=
  if String.eqb raw "" then three_minutes
  else match parse_duration raw with
       | Some d => if d <=? 0 then three_minutes else d
       | None => three_minutes
       end.

(** [c_podNamespace] is the environment's [POD_NAMESPACE]; [c_inCluster] tells
    whether a client of the cluster can be made. *)
Record Controller := {
  c_namespace : string; c_cfg : RuntimeConfig; c_self : Peer; c_podNamespace : string; c_inCluster : bool;
  c_cron : ScheduleTrigger; c_firstSeen : gmap string Z; c_tmOrphanTimeout : Z;
}.

Definition NewFlowgentController (parse_duration : string -> option Z) (namespace : string) (cfg : RuntimeConfig)
    (self : Peer) (podNamespace : string) (inCluster : bool) : Controller :=
  {| c_namespace := namespace; c_cfg := cfg; c_self := self; c_podNamespace := podNamespace;
     c_inCluster := inCluster; c_cron := NewScheduleTrigger; c_firstSeen := ∅;
     c_tmOrphanTimeout := parseTMOrphanTimeout parse_duration (rt_TMOrphanTimeout cfg) |}.

Definition with_cron (s : ScheduleTrigger) (c : Controller) : Controller :=
  {| c_namespace := c_namespace c; c_cfg := c_cfg c; c_self := c_self c; c_podNamespace := c_podNamespace c;
     c_inCluster := c_inCluster c; c_cron := s; c_firstSeen := c_firstSeen c;
     c_tmOrphanTimeout := c_tmOrphanTimeout c |}.
Definition with_firstSeen (m : gmap string Z) (c : Controller) : Controller :=
  {| c_namespace := c_namespace c; c_cfg := c_cfg c; c_self := c_self c; c_podNamespace := c_podNamespace c;
     c_inCluster := c_inCluster c; c_cron := c_cron c; c_firstSeen := m;
     c_tmOrphanTimeout := c_tmOrphanTimeout c |}.

Definition effectiveTMOrphanTimeout (c : Controller) : Z :=
  if 0 <? c_tmOrphanTimeout c then c_tmOrphanTimeout c else three_minutes.

(** ** Names *)

Definition controller_prefix (prefix : string) : string := if String.eqb prefix "" then "flowgent-" else prefix.

Definition dispatchNamespace (c : Controller) (spec : FlowInfo) : string :=
  if negb (String.eqb (f_Namespace spec) "") then f_Namespace spec
  else if negb (String.eqb (c_namespace c) "") then c_namespace c
  else "default".

Definition controller_applicationNamespace (c : Controller) (spec : FlowInfo) : string :=
  if negb (String.eqb (f_K8sNamespace spec) "") then f_K8sNamespace spec
  else controller_prefix (rt_NamespacePrefix (c_cfg c)) +:+ dispatchNamespace c spec.

Definition or_default_ns (namespaceID : string) : string :=
  if String.eqb namespaceID "" then "default" else namespaceID.
Definition tmDeploymentName (namespaceID flowID : string) : string :=
  "flowgent-taskmanager-" +:+ or_default_ns namespaceID +:+ "-" +:+ flowID.
Definition sandboxDeploymentName (namespaceID flowID : string) : string :=
  "flowgent-sandbox-" +:+ or_default_ns namespaceID +:+ "-" +:+ flowID.
Definition jm_name (namespaceID flowID : string) : string :=
  "flowgent-jobmanager-" +:+ namespaceID +:+ "-" +:+ flowID.

Definition jmConfigMapName (c : Controller) : string :=
  if negb (String.eqb (rt_JMConfigMap (c_cfg c)) "") then rt_JMConfigMap (c_cfg c) else "flowgent-config".

Definition systemNamespace (c : Controller) : string :=
  if negb (String.eqb (rt_SystemNamespace (c_cfg c)) "") then rt_SystemNamespace (c_cfg c)
  else if negb (String.eqb (c_podNamespace c) "") then c_podNamespace c
  else if negb (String.eqb (rt_K8sNamespace (c_cfg c)) "") then rt_K8sNamespace (c_cfg c)
  else "flowgen-system".

(** ** The job manager of a flow *)

Definition credentialEnvFrom (secretName : string) : option string :=
  if String.eqb secretName "" then None else Some secretName.

Definition jm_labels (namespaceID flowID : string) : Labels :=
  list_to_map [("app", "flowgent-jobmanager"); ("app.kubernetes.io/component", "jobmanager");
               ("flowgent.io/namespace", namespaceID); ("flowgent.io/flow", flowID);
               ("flowgent.io/mode", "application")].

Definition buildJMDeployment (c : Controller) (name namespace namespaceID : string) (spec : FlowInfo) : Deployment :=
  {| d_Name := name; d_Namespace := namespace; d_Labels := jm_labels namespaceID (f_ID spec); d_Replicas := 1;
     d_Template :=
       {| pt_ServiceAccount := "flowgent-runtime"; pt_Image := rt_JMImage (c_cfg c); pt_Command := [];
          pt_Args := ["jobmanager"; "start"; "-c"; "/etc/flowgent/flowgent.yaml"; "--flow-id"; f_ID spec];
          pt_EnvFrom := credentialEnvFrom (rt_CredentialEnvSecret (c_cfg c));
          pt_Env := [("FLOWGENT__RUNTIME__AGENT_FLOW_ID", EnvLiteral (f_ID spec));
                     ("FLOWGENT__RUNTIME__NAMESPACE__DEFAULT_NAMESPACE", EnvLiteral namespaceID);
                     ("FLOWGENT__RUNTIME__SYSTEM_NAMESPACE", EnvLiteral (systemNamespace c));
                     ("FLOWGENT__RUNTIME__K8S_NAMESPACE", EnvLiteral namespace);
                     ("FLOWGENT__RUNTIME__TM_DEPLOY", EnvLiteral (tmDeploymentName namespaceID (f_ID spec)));
                     ("FLOWGENT__MESSAGER__MQTT__BROKER", EnvLiteral (rt_MQTTBroker (c_cfg c)));
                     ("FLOWGENT__RUNTIME__API_SERVER_URL", EnvLiteral (rt_APIServerURL (c_cfg c)));
                     ("POD_NAMESPACE", EnvField "metadata.namespace")];
          pt_ConfigMap := jmConfigMapName c; pt_Workspace := None; pt_Seccomp := false; pt_Limits := [];
          pt_Requests := [] |} |}.

Definition app_labels (namespaceID : string) : Labels :=
  list_to_map [("flowgent.io/mode", "application"); ("flowgent.io/namespace", namespaceID)].

Definition runtime_rules : list PolicyRule :=
  [{| pr_APIGroups := [""]; pr_Resources := ["pods"; "configmaps"]; pr_Verbs := ["get"; "list"; "watch"] |};
   {| pr_APIGroups := ["apps"]; pr_Resources := ["deployments"]; pr_Verbs := ["get"; "list"; "create"; "delete"] |};
   {| pr_APIGroups := ["apps"]; pr_Resources := ["deployments/scale"]; pr_Verbs := ["get"; "update"] |}].

Section Infra.
Context `{KubeFaults}.
Variable c : Controller.

Definition app_object (namespaceID : string) (body : Payload) : KObject :=
  {| ko_Labels := app_labels namespaceID; ko_Body := body |}.

(** Copy of the config map of the controller's own namespace: creation errors
    are logged. *)
Definition copy_configmap (ns namespaceID : string) (cl : KCluster) : KCluster :=
  match obj_get ("ConfigMap", systemNamespace c, jmConfigMapName c) cl with
  | (GotIt src, cl) => (obj_create ("ConfigMap", ns, jmConfigMapName c) (app_object namespaceID (ko_Body src)) cl).2
  | (_, cl) => cl
  end.

Definition ensureApplicationConfigMap (ns namespaceID : string) (cl : KCluster) : KCluster :=
  match obj_get ("ConfigMap", ns, jmConfigMapName c) cl with
  | (NotFound, cl) => copy_configmap ns namespaceID cl
  | (_, cl) => cl
  end.

(** Create what is missing, or bring what is there up to date; [false] when
    that failed. *)
Definition create_failed (r : create_result) : bool := match r with CreateErr _ => true | _ => false end.

Definition upsert (k : okey) (o : KObject) (cl : KCluster) : bool * KCluster :=
  match obj_get k cl with
  | (NotFound, cl) => let (r, cl) := obj_create k o cl in (negb (create_failed r), cl)
  | (GotIt _, cl) => let (e, cl) := obj_update k o cl in (match e with None => true | Some _ => false end, cl)
  | (GetErr _, cl) => (false, cl)
  end.

Definition ensureRuntimeRBAC (ns namespaceID : string) (cl : KCluster) : KCluster :=
  let name := "flowgent-runtime" in
  let account := ("ServiceAccount", ns, name) in
  let '(ok, cl) :=
    match obj_get account cl with
    | (NotFound, cl) => let (r, cl) := obj_create account (app_object namespaceID PNone) cl in (negb (create_failed r), cl)
    | (GotIt _, cl) => (true, cl)
    | (GetErr _, cl) => (false, cl)
    end in
  if negb ok then cl
  else
    let '(ok, cl) := upsert ("Role", ns, name) (app_object namespaceID (PRules runtime_rules)) cl in
    if negb ok then cl
    else (upsert ("RoleBinding", ns, name) (app_object namespaceID (PBinding name name ns)) cl).2.

(** The namespace is made when it is missing, with its config map; [false]
    when it could not be looked up or made. *)
Definition ensure_namespace (ns namespaceID : string) (cl : KCluster) : bool * KCluster :=
  match obj_get (ns_key ns) cl with
  | (GotIt _, cl) => (true, cl)
  | (GetErr _, cl) => (false, cl)
  | (NotFound, cl) =>
      let (r, cl) := obj_create (ns_key ns) (app_object namespaceID PNone) cl in
      if create_failed r then (false, cl)
      else
        let cl := copy_configmap ns namespaceID cl in
        match obj_get ("ConfigMap", ns, jmConfigMapName c) cl with
        | (GotIt _, cl) => (true, cl)
        | (_, cl) => (true, copy_configmap ns namespaceID cl)
        end
  end.

Definition ensureApplicationInfra (spec : FlowInfo) (cl : KCluster) : KCluster :=
  let ns := controller_applicationNamespace c spec in
  let namespaceID := dispatchNamespace c spec in
  if negb (c_inCluster c) then cl
  else
    let (ok, cl) := ensure_namespace ns namespaceID cl in
    if negb ok then cl
    else
      let cl := ensureApplicationConfigMap ns namespaceID cl in
      let cl := ensureRuntimeRBAC ns namespaceID cl in
      (dep_create (buildJMDeployment c (jm_name namespaceID (f_ID spec)) ns namespaceID spec) cl).2.

End Infra.

(** ** A tick *)

(** The answers of the API server during a tick: the definitions, the runs by
    status and flow, one definition. *)
Record ApiView := {
  list_flows : res (list FlowVersionInfo);
  list_runs : string -> string -> res (list FlowRunInfo);
  get_flow : string -> res (option FlowInfo);
}.

(** The first definition of every flow that decodes, has an id, and is no
    skill. *)
Definition see_flow (seen : gmap string FlowInfo) (v : FlowVersionInfo) : gmap string FlowInfo :=
  match seen !! fv_FlowID v with
  | Some _ => seen
  | None =>
      match fv_Definition v with
      | None => seen
      | Some spec =>
          if String.eqb (f_ID spec) "" then seen
          else if EqualFold (f_Kind spec) "skill" then seen
          else <[fv_FlowID v := spec]> seen
      end
  end.

Definition seen_flows (versions : list FlowVersionInfo) : gmap string FlowInfo := fold_left see_flow versions ∅.

Definition active_statuses : list string := ["PENDING"; "RUNNING"; "PAUSED"].

(** The loop over the statuses: [None] when a call fails. *)
Fixpoint flow_active (view : ApiView) (statuses : list string) (flowID : string) : option bool :=
  match statuses with
  | [] => Some false
  | status :: rest =>
      match list_runs view status flowID with
      | Err _ => None
      | Ok [] => flow_active view rest flowID
      | Ok (_ :: _) => Some true
      end
  end.

Section Tick.
Context `{RangeOrder} `{KubeFaults}.
Variable cron_ok : string -> bool.

Definition owns (c : Controller) (peers : list Peer) (flowID : string) : bool := ownsFlow (c_self c) peers flowID.

Fixpoint collect_active (c : Controller) (peers : list Peer) (view : ApiView) (flows : list (string * FlowInfo))
    (active : gset string) : gset string * bool :=
  match flows with
  | [] => (active, true)
  | (flowID, _) :: rest =>
      if negb (owns c peers flowID) then collect_active c peers view rest active
      else match flow_active view active_statuses flowID with
           | None => (active, false)
           | Some true => collect_active c peers view rest ({[flowID]} ∪ active)
           | Some false => collect_active c peers view rest active
           end
  end.

Definition collectActiveRunFlows (c : Controller) (seen : gmap string FlowInfo) (peers : list Peer) (view : ApiView)
    : gset string * bool :=
  collect_active c peers view (range_of seen) ∅.

(** ** Garbage collection *)

Definition cleanup_key (namespace name : string) : string := namespace +:+ "/" +:+ name.

Definition markRuntimeCleanup (now : Z) (namespace name : string) (m : gmap string Z) : Z * gmap string Z :=
  match m !! cleanup_key namespace name with
  | Some t => (now - t, m)
  | None => (0, <[cleanup_key namespace name := now]> m)
  end.
Definition clearRuntimeCleanup (namespace name : string) (m : gmap string Z) : gmap string Z :=
  delete (cleanup_key namespace name) m.

(** The memory of the cleanups, and the cluster. *)
Definition gc_state := (gmap string Z * KCluster)%type.

Definition deleteDeployment (d : Deployment) (st : gc_state) : gc_state :=
  let (m, cl) := st in
  match dep_delete (d_Namespace d) (d_Name d) cl with
  | (DelErr _, cl) => (m, cl)
  | (_, cl) => (clearRuntimeCleanup (d_Namespace d) (d_Name d) m, cl)
  end.

Definition runtime_of (namespaceID parentName parentNamespace : string) (d : Deployment) : bool :=
  negb (negb (String.eqb namespaceID "") && negb (String.eqb (label d LabelNamespaceID) namespaceID)) &&
  negb (negb (String.eqb parentName "") && negb (String.eqb (label d LabelParentJobManager) parentName)) &&
  negb (negb (String.eqb parentNamespace "") &&
        negb (String.eqb (label d LabelParentJobManagerNamespace) parentNamespace)).

Definition deleteRuntimeDeploymentsForFlow (namespaceID flowID parentName parentNamespace : string) (st : gc_state)
    : gc_state :=
  let (m, cl) := st in
  match dep_list [(LabelManagedBy, LabelValueJobManager); (LabelFlowID, flowID)] cl with
  | (Err _, cl) => (m, cl)
  | (Ok ds, cl) =>
      fold_left (fun st d => if runtime_of namespaceID parentName parentNamespace d then deleteDeployment d st else st)
        ds (m, cl)
  end.

(** What a tick knows of the flows. *)
Record Snapshot := { sn_seen : gmap string FlowInfo; sn_active : gset string; sn_ok : bool; sn_peers : list Peer }.

Inductive gc_reason := FlowDeleted | NoActiveRuns.

Definition jm_gc_reason (sn : Snapshot) (flowID : string) : option gc_reason :=
  match sn_seen sn !! flowID with
  | None => Some FlowDeleted
  | Some _ => if sn_ok sn && negb (bool_decide (flowID ∈ sn_active sn)) then Some NoActiveRuns else None
  end.

Definition delete_jm (d : Deployment) (flowID : string) (st : gc_state) : gc_state :=
  let (m, cl) := st in
  match dep_delete (d_Namespace d) (d_Name d) cl with
  | (Deleted, cl) =>
      deleteRuntimeDeploymentsForFlow (label d LabelNamespaceID) flowID (d_Name d) (d_Namespace d)
        (clearRuntimeCleanup (d_Namespace d) (d_Name d) m, cl)
  | (_, cl) => (m, cl)
  end.

Definition gc_jm_step (c : Controller) (sn : Snapshot) (now : Z) (st : gc_state) (d : Deployment) : gc_state :=
  let (m, cl) := st in
  let flowID := label d LabelFlowID in
  if String.eqb flowID "" then st
  else if negb (owns c (sn_peers sn) flowID) then st
  else match jm_gc_reason sn flowID with
       | None => (clearRuntimeCleanup (d_Namespace d) (d_Name d) m, cl)
       | Some NoActiveRuns =>
           let (age, m) := markRuntimeCleanup now (d_Namespace d) (d_Name d) m in
           if age <? effectiveTMOrphanTimeout c then (m, cl) else delete_jm d flowID (m, cl)
       | Some FlowDeleted => delete_jm d flowID st
       end.

Definition jm_selector : list (string * string) :=
  [(LabelMode, LabelValueApplication); ("app", "flowgent-jobmanager")].

Definition gcOrphanedJMDeployments (c : Controller) (sn : Snapshot) (now : Z) (st : gc_state) : gc_state :=
  if negb (c_inCluster c) then st
  else let (m, cl) := st in
       match dep_list jm_selector cl with
       | (Err _, cl) => (m, cl)
       | (Ok ds, cl) => fold_left (gc_jm_step c sn now) ds (m, cl)
       end.

(** The parent of a runtime deployment: there, gone (or not named), or not
    known. *)
Inductive parent_state := ParentThere | ParentGone | ParentUnknown.

Definition parent_of (d : Deployment) (cl : KCluster) : parent_state * KCluster :=
  let parentName := label d LabelParentJobManager in
  let parentNamespace := label d LabelParentJobManagerNamespace in
  if negb (String.eqb parentName "") && negb (String.eqb parentNamespace "")
  then match dep_get parentNamespace parentName cl with
       | (GotIt _, cl) => (ParentThere, cl)
       | (NotFound, cl) => (ParentGone, cl)
       | (GetErr _, cl) => (ParentUnknown, cl)
       end
  else (ParentGone, cl).

Definition gc_runtime_step (c : Controller) (sn : Snapshot) (now : Z) (st : gc_state) (d : Deployment) : gc_state :=
  let (m, cl) := st in
  let flowID := label d LabelFlowID in
  if String.eqb flowID "" || negb (owns c (sn_peers sn) flowID) then st
  else match parent_of d cl with
       | (ParentThere, cl) => (clearRuntimeCleanup (d_Namespace d) (d_Name d) m, cl)
       | (ParentUnknown, cl) => (m, cl)
       | (ParentGone, cl) =>
           match jm_gc_reason sn flowID with
           | Some _ => deleteDeployment d (m, cl)
           | None =>
               let (age, m) := markRuntimeCleanup now (d_Namespace d) (d_Name d) m in
               if age <? effectiveTMOrphanTimeout c then (m, cl) else deleteDeployment d (m, cl)
           end
       end.

Definition gcOrphanedRuntimeDeployments (c : Controller) (sn : Snapshot) (now : Z) (st : gc_state) : gc_state :=
  if negb (c_inCluster c) then st
  else let (m, cl) := st in
       match dep_list [(LabelManagedBy, LabelValueJobManager)] cl with
       | (Err _, cl) => (m, cl)
       | (Ok ds, cl) => fold_left (gc_runtime_step c sn now) ds (m, cl)
       end.

(** ** Reconciliation *)

Definition snapshot (c : Controller) (discovered : res (list Peer)) (view : ApiView) (versions : list FlowVersionInfo)
    : Snapshot :=
  let peers := match getPeers (c_self c) discovered with Ok (peers, _) => peers | Err _ => [] end in
  let seen := seen_flows versions in
  let (active, ok) := collectActiveRunFlows c seen peers view in
  {| sn_seen := seen; sn_active := active; sn_ok := ok; sn_peers := peers |}.

Definition owned (c : Controller) (sn : Snapshot) : list (string * FlowInfo) :=
  List.filter (fun kv => owns c (sn_peers sn) kv.1) (range_of (sn_seen sn)).

Definition dispatch_active (c : Controller) (sn : Snapshot) (cl : KCluster) : KCluster :=
  fold_left (fun cl kv => if sn_ok sn && bool_decide (kv.1 ∈ sn_active sn) then ensureApplicationInfra c kv.2 cl else cl)
    (owned c sn) cl.

Definition reregister (c : Controller) (sn : Snapshot) : ScheduleTrigger :=
  cron_Start (RegisterAgentFlows cron_ok (map snd (owned c sn)) (cron_Clear (c_cron c))).

Definition reconcile (discovered : res (list Peer)) (view : ApiView) (now : Z) (c : Controller) (cl : KCluster)
    : Controller * KCluster :=
  match list_flows view with
  | Err _ => (c, cl)
  | Ok versions =>
      let sn := snapshot c discovered view versions in
      let cl := dispatch_active c sn cl in
      let c := with_cron (reregister c sn) c in
      let st := gcOrphanedJMDeployments c sn now (c_firstSeen c, cl) in
      let (m, cl) := gcOrphanedRuntimeDeployments c sn now st in
      (with_firstSeen m c, cl)
  end.

(** [Run]: a tick at the start and at every interval. *)
Definition controller_run (ticks : list (res (list Peer) * ApiView * Z)) (c : Controller) (cl : KCluster)
    : Controller * KCluster :=
  fold_left (fun ccl t => let '(discovered, view, now) := t in reconcile discovered view now ccl.1 ccl.2) ticks (c, cl).

(** ** Scheduled runs *)

(** The run the controller asks the API server for. *)
Definition createApplicationRun (c : Controller) (spec : FlowInfo) (now : Z) : string * FlowRunInfo :=
  let namespaceID := dispatchNamespace c spec in
  (namespaceID,
   {| r_ID := f_ID spec +:+ "-" +:+ Itoa now; r_Namespace := namespaceID; r_AgentFlowID := f_ID spec;
      r_Version := 1; r_Status := RunPending; r_Vars := f_Vars spec; r_Error := "";
      r_Trigger := {| ti_Type := "schedule"; ti_Source := "controller"; ti_Payload := [] |};
      r_StartedAt := None; r_FinishedAt := None; r_K8sNamespace := controller_applicationNamespace c spec;
      r_Priority := "high" |}).

Definition triggerScheduledRun (c : Controller) (view : ApiView) (flowID : string) (now : Z) (cl : KCluster)
    : option (string * FlowRunInfo) * KCluster :=
  match get_flow view flowID with
  | Ok (Some spec) => (Some (createApplicationRun c spec now), ensureApplicationInfra c spec cl)
  | _ => (None, cl)
  end.

End Tick.

Definition isTerminalStatus (s : RunStatus) : bool :=
  match s with RunCompleted | RunFailed | RunCancelled => true | _ => false end.
