(* ===== verification/ControllerFacts.v ===== *)
(** * Properties of the controller

    What a tick may delete, what it does delete, and what it brings about for
    an active flow. *)

From S2P Require Export Controller.

Local Open Scope string_scope.
Local Open Scope list_scope.
Local Open Scope Z_scope.

Abbreviation deps cl := (kc_deps cl).

(** Namespace and name identify a deployment. *)
Definition dep_id (d : Deployment) : string * string := (d_Namespace d, d_Name d).
Definition unique_deps (l : list Deployment) : Prop :=
  forall d d', d ∈ l -> d' ∈ l -> dep_id d = dep_id d' -> d = d'.

Lemma is_dep_iff ns name d : is_dep ns name d = true <-> dep_id d = (ns, name).
Proof.
  unfold is_dep, dep_id. rewrite andb_true_iff, !String.eqb_eq. split; [by intros [-> ->]|by intros [= -> ->]].
Qed.

Lemma unique_deps_sub l l' : (forall d, d ∈ l' -> d ∈ l) -> unique_deps l -> unique_deps l'.
Proof. intros Hs Hu d d' Hd Hd'. apply Hu; by apply Hs. Qed.

Lemma effective_pos c : 0 < effectiveTMOrphanTimeout c.
Proof. unfold effectiveTMOrphanTimeout, three_minutes. destruct (Z.ltb_spec 0 (c_tmOrphanTimeout c)); lia. Qed.

(** ** What garbage collection may delete *)

Section Safety.
Context `{KubeFaults}.
Context (c : Controller) (sn : Snapshot) (now : Z).

(** The time a deployment was first seen idle never moves back. *)
Definition marks_le (m m' : gmap string Z) : Prop :=
  forall k, m' !! k = m !! k \/ m' !! k = None \/ m' !! k = Some now.

Lemma marks_le_refl m : marks_le m m.
Proof. intros k. by left. Qed.

Lemma marks_le_trans m m' m'' : marks_le m m' -> marks_le m' m'' -> marks_le m m''.
Proof. intros H1 H2 k. destruct (H2 k) as [->|?]; [apply H1|by right]. Qed.

Lemma marks_le_clear ns name m : marks_le m (clearRuntimeCleanup ns name m).
Proof.
  intros k. unfold clearRuntimeCleanup. destruct (decide (k = cleanup_key ns name)) as [->|?].
  - right. left. apply lookup_delete_eq.
  - left. by rewrite lookup_delete_ne by done.
Qed.

Lemma marks_le_mark ns name m : marks_le m (markRuntimeCleanup now ns name m).2.
Proof.
  intros k. unfold markRuntimeCleanup. destruct (m !! cleanup_key ns name) eqn:E; [by left|]. cbn [snd].
  destruct (decide (k = cleanup_key ns name)) as [->|?].
  - right. right. apply lookup_insert_eq.
  - left. by rewrite lookup_insert_ne by done.
Qed.

(** The window has passed since a deployment was first seen idle. *)
Definition window_passed (m : gmap string Z) (d : Deployment) : Prop :=
  exists t, m !! cleanup_key (d_Namespace d) (d_Name d) = Some t /\ effectiveTMOrphanTimeout c <= now - t.

Lemma window_passed_le m m' d : marks_le m m' -> window_passed m' d -> window_passed m d.
Proof.
  intros Hm (t & Ht & Ha). destruct (Hm (cleanup_key (d_Namespace d) (d_Name d))) as [E|[E|E]].
  - exists t. by rewrite <- E.
  - congruence.
  - rewrite E in Ht. injection Ht as <-. pose proof (effective_pos c). lia.
Qed.

Lemma mark_age m d :
  effectiveTMOrphanTimeout c <= (markRuntimeCleanup now (d_Namespace d) (d_Name d) m).1 -> window_passed m d.
Proof.
  unfold markRuntimeCleanup. destruct (m !! _) as [t|] eqn:E; cbn.
  - intros Ha. by exists t.
  - pose proof (effective_pos c). lia.
Qed.

(** A job manager that may go: its flow is this pod's and either has no
    definition or has had no active run for the window. *)
Definition doomed (m : gmap string Z) (d : Deployment) : Prop :=
  sel_match jm_selector d = true /\ label d LabelFlowID <> "" /\ owns c (sn_peers sn) (label d LabelFlowID) = true /\
  (jm_gc_reason sn (label d LabelFlowID) = Some FlowDeleted \/
   jm_gc_reason sn (label d LabelFlowID) = Some NoActiveRuns /\ window_passed m d).

Definition child_of (jd d : Deployment) : Prop :=
  sel_match [(LabelManagedBy, LabelValueJobManager); (LabelFlowID, label jd LabelFlowID)] d = true /\
  runtime_of (label jd LabelNamespaceID) (d_Name jd) (d_Namespace jd) d = true.

(** No deployment of the name of its parent is in a list. *)
Definition parent_missing (l : list Deployment) (d : Deployment) : Prop :=
  label d LabelParentJobManager = "" \/ label d LabelParentJobManagerNamespace = "" \/
  forall p, p ∈ l -> dep_id p <> (label d LabelParentJobManagerNamespace, label d LabelParentJobManager).

Definition orphan (m : gmap string Z) (left_ : list Deployment) (d : Deployment) : Prop :=
  sel_match [(LabelManagedBy, LabelValueJobManager)] d = true /\ label d LabelFlowID <> "" /\
  owns c (sn_peers sn) (label d LabelFlowID) = true /\ parent_missing left_ d /\
  (jm_gc_reason sn (label d LabelFlowID) <> None \/ window_passed m d).

(** From [l], [l'] is left, and every deployment that is gone had a cause. *)
Definition only_gone (cause : Deployment -> Prop) (l l' : list Deployment) : Prop :=
  (forall d, d ∈ l' -> d ∈ l) /\ forall d, d ∈ l -> d ∈ l' \/ cause d.

Lemma only_gone_refl cause l : only_gone cause l l.
Proof. split; auto. Qed.

Lemma only_gone_trans cause l l' l'' : only_gone cause l l' -> only_gone cause l' l'' -> only_gone cause l l''.
Proof.
  intros [S1 G1] [S2 G2]. split; [auto|]. intros d Hd. destruct (G1 d Hd) as [Hd'|]; [|by right]. auto.
Qed.

Lemma dep_delete_gone ns name cl :
  let r := dep_delete ns name cl in
  only_gone (fun d => dep_id d = (ns, name)) (deps cl) (deps r.2).
Proof.
  unfold dep_delete. destruct (kube_fault (kc_calls cl)); [apply only_gone_refl|].
  destruct (existsb _ _); [|apply only_gone_refl]. split; cbn [kc_deps tick with_deps fst snd].
  - intros d Hd. apply list_elem_of_In, filter_In in Hd as [Hd _]. by apply list_elem_of_In.
  - intros d Hd. destruct (is_dep ns name d) eqn:E; [right; by apply is_dep_iff|].
    left. apply list_elem_of_In, filter_In. rewrite E. by split; [apply list_elem_of_In|].
Qed.

(** The state of a collection that began with the marks [m0] and the
    deployments [l0]. *)
Context (m0 : gmap string Z) (l0 : list Deployment).

Definition safe (cause : Deployment -> Prop) (st : gc_state) : Prop :=
  only_gone cause l0 (deps st.2) /\ marks_le m0 st.1.

Lemma safe_calls cause m cl cl' : deps cl' = deps cl -> safe cause (m, cl) -> safe cause (m, cl').
Proof. unfold safe. cbn. by intros ->. Qed.

Lemma safe_marks cause m m' cl : marks_le m m' -> safe cause (m, cl) -> safe cause (m', cl).
Proof. intros Hm [Hg Hm0]. split; [done|]. by eapply marks_le_trans. Qed.

Lemma safe_mono (cause cause' : Deployment -> Prop) st :
  (forall d, d ∈ l0 -> cause d -> cause' d) -> safe cause st -> safe cause' st.
Proof.
  intros Hc [[Hs Hg] Hm]. split; [|done]. split; [done|]. intros d Hd. destruct (Hg d Hd); auto.
Qed.

Lemma safe_delete (cause : Deployment -> Prop) ns name m m' cl :
  (forall x, x ∈ l0 -> dep_id x = (ns, name) -> cause x) ->
  marks_le m m' -> safe cause (m, cl) -> safe cause (m', (dep_delete ns name cl).2).
Proof.
  intros Hc Hm [Hg Hm0]. split; [|by eapply marks_le_trans].
  destruct Hg as [Hs Hgone]. destruct (dep_delete_gone ns name cl) as [Hs' Hg'].
  split; cbn in *; [auto|]. intros d Hd. destruct (Hgone d Hd) as [Hd'|]; [|by right].
  destruct (Hg' d Hd') as [|E]; [by left|right; auto].
Qed.

Lemma safe_deleteDeployment (cause : Deployment -> Prop) d st :
  unique_deps l0 -> d ∈ l0 -> cause d -> safe cause st -> safe cause (deleteDeployment d st).
Proof.
  intros Hu Hd Hc Hs. destruct st as [m cl]. unfold deleteDeployment.
  assert (forall m', marks_le m m' -> safe cause (m', (dep_delete (d_Namespace d) (d_Name d) cl).2)) as Hall.
  { intros m' Hm. eapply safe_delete; [|done..]. intros x Hx E. by rewrite (Hu x d Hx Hd E). }
  destruct (dep_delete _ _ cl) as [[| |e] cl']; cbn in Hall; auto using marks_le_clear, marks_le_refl.
Qed.

Lemma safe_sweep cause (step : gc_state -> Deployment -> gc_state) ds :
  (forall d st, d ∈ ds -> safe cause st -> safe cause (step st d)) ->
  forall st, safe cause st -> safe cause (fold_left step ds st).
Proof.
  induction ds as [|d ds IH]; intros Hstep st Hs; cbn; [done|].
  apply IH; [intros; apply Hstep; [by apply elem_of_cons; right|done]|].
  apply Hstep; [by apply elem_of_cons; left|done].
Qed.

Lemma dep_list_spec sel cl :
  deps (dep_list sel cl).2 = deps cl /\
  forall ds, (dep_list sel cl).1 = Ok ds -> forall d, d ∈ ds <-> d ∈ deps cl /\ sel_match sel d = true.
Proof.
  unfold dep_list. split; [done|]. cbn. destruct (kube_fault _); [done|]. intros ds [= <-] d.
  rewrite !list_elem_of_In, filter_In. done.
Qed.

(** ** Job managers *)

Definition jm_cause (x : Deployment) : Prop :=
  doomed m0 x \/ exists jd, jd ∈ l0 /\ doomed m0 jd /\ child_of jd x.

Lemma safe_children jd flowID st :
  unique_deps l0 -> jd ∈ l0 -> doomed m0 jd -> flowID = label jd LabelFlowID -> safe jm_cause st ->
  safe jm_cause (deleteRuntimeDeploymentsForFlow (label jd LabelNamespaceID) flowID (d_Name jd) (d_Namespace jd) st).
Proof.
  intros Hu Hj Hd -> Hs. destruct st as [m cl]. unfold deleteRuntimeDeploymentsForFlow.
  destruct (dep_list_spec [(LabelManagedBy, LabelValueJobManager); (LabelFlowID, label jd LabelFlowID)] cl) as [E Hl].
  destruct (dep_list _ cl) as [[ds|e] cl']; cbn [fst snd] in *; [|by eapply safe_calls].
  apply safe_sweep; [|by eapply safe_calls]. intros d st Hin Hst.
  destruct (runtime_of _ _ _ d) eqn:Er; [|done].
  apply (Hl _ eq_refl) in Hin as [Hin Hsel].
  apply safe_deleteDeployment; [done|by apply (proj1 (proj1 Hs))| |done].
  right. exists jd. done.
Qed.

Lemma safe_delete_jm d st :
  unique_deps l0 -> d ∈ l0 -> doomed m0 d -> safe jm_cause st -> safe jm_cause (delete_jm d (label d LabelFlowID) st).
Proof.
  intros Hu Hd Hdoom Hs. destruct st as [m cl]. unfold delete_jm.
  assert (forall m', marks_le m m' -> safe jm_cause (m', (dep_delete (d_Namespace d) (d_Name d) cl).2)) as Hall.
  { intros m' Hm. eapply safe_delete; [|done..]. intros x Hx E. left. by rewrite (Hu x d Hx Hd E). }
  destruct (dep_delete _ _ cl) as [[| |e] cl']; cbn in Hall; auto using marks_le_refl.
  apply safe_children; auto using marks_le_clear.
Qed.

Lemma safe_gc_jm_step d st :
  unique_deps l0 -> d ∈ l0 -> sel_match jm_selector d = true -> safe jm_cause st ->
  safe jm_cause (gc_jm_step c sn now st d).
Proof.
  intros Hu Hd Hsel Hs. destruct st as [m cl]. unfold gc_jm_step.
  destruct (String.eqb_spec (label d LabelFlowID) "") as [|Hf]; [done|].
  destruct (owns c (sn_peers sn) (label d LabelFlowID)) eqn:Ho; cbn [negb]; [|done].
  destruct (jm_gc_reason sn (label d LabelFlowID)) as [[|]|] eqn:Er.
  - apply safe_delete_jm; try done. repeat split; auto.
  - pose proof (marks_le_mark (d_Namespace d) (d_Name d) m) as Hm.
    pose proof (mark_age m d) as Hage.
    destruct (markRuntimeCleanup now (d_Namespace d) (d_Name d) m) as [age m']. cbn in Hm, Hage.
    destruct (Z.ltb_spec age (effectiveTMOrphanTimeout c)); [by eapply safe_marks|].
    apply safe_delete_jm; try done; [|by eapply safe_marks]. repeat split; auto.
    right. split; [done|]. eapply window_passed_le; [apply Hs|by apply Hage].
  - by eapply safe_marks; [apply marks_le_clear|].
Qed.

Lemma safe_gc_jm cl :
  unique_deps l0 -> l0 = deps cl -> safe jm_cause (gcOrphanedJMDeployments c sn now (m0, cl)).
Proof.
  intros Hu El. assert (safe jm_cause (m0, cl)) as Hs by (split; [rewrite El; apply only_gone_refl|apply marks_le_refl]).
  unfold gcOrphanedJMDeployments. destruct (negb (c_inCluster c)); [done|].
  destruct (dep_list_spec jm_selector cl) as [E Hl].
  destruct (dep_list _ cl) as [[ds|e] cl']; cbn [fst snd] in *; [|by eapply safe_calls].
  apply safe_sweep; [|by eapply safe_calls]. intros d st Hin Hst.
  apply (Hl _ eq_refl) in Hin as [Hin Hsel]. apply safe_gc_jm_step; try done. by rewrite El.
Qed.

End Safety.

(** ** Runtime deployments *)

Section Runtime.
Context `{KubeFaults}.
Context (c : Controller) (sn : Snapshot) (now : Z).

Lemma parent_of_spec d cl :
  deps (parent_of d cl).2 = deps cl /\
  ((parent_of d cl).1 = ParentGone -> parent_missing (deps cl) d) /\
  ((parent_of d cl).1 = ParentThere ->
   exists p, p ∈ deps cl /\ dep_id p = (label d LabelParentJobManagerNamespace, label d LabelParentJobManager)).
Proof.
  unfold parent_of, parent_missing.
  destruct (String.eqb_spec (label d LabelParentJobManager) ""); cbn [negb andb]; [by split_and!; auto|].
  destruct (String.eqb_spec (label d LabelParentJobManagerNamespace) ""); cbn [negb]; [by split_and!; auto|].
  unfold dep_get. destruct (kube_fault (kc_calls cl)); [by cbn|].
  destruct (find _ _) as [p|] eqn:E; cbn; split_and!; try done.
  - intros _. apply find_some in E as [Hin Hp%is_dep_iff]. exists p. by split; [apply list_elem_of_In|].
  - intros _. right. right. intros p Hp Hid%is_dep_iff. apply list_elem_of_In in Hp.
    by rewrite (find_none _ _ E p Hp) in Hid.
Qed.

Lemma deleteDeployment_sub d st x : x ∈ deps (deleteDeployment d st).2 -> x ∈ deps st.2.
Proof.
  destruct st as [m cl]. unfold deleteDeployment.
  destruct (dep_delete_gone (d_Namespace d) (d_Name d) cl) as [Hs _].
  destruct (dep_delete _ _ cl) as [[| |e] cl']; cbn in *; auto.
Qed.

Lemma gc_runtime_step_sub st d x : x ∈ deps (gc_runtime_step c sn now st d).2 -> x ∈ deps st.2.
Proof.
  destruct st as [m cl]. unfold gc_runtime_step. destruct (_ || _); [done|].
  pose proof (parent_of_spec d cl) as (E & _). destruct (parent_of d cl) as [[| |] cl']; cbn [fst snd] in *; rewrite <- ?E; auto.
  destruct (jm_gc_reason _ _).
  - intros Hx. by apply deleteDeployment_sub in Hx.
  - destruct (markRuntimeCleanup _ _ _ _) as [age m']. destruct (_ <? _); [done|]. intros Hx.
    by apply deleteDeployment_sub in Hx.
Qed.

Lemma gc_runtime_sweep_sub ds : forall st x, x ∈ deps (fold_left (gc_runtime_step c sn now) ds st).2 -> x ∈ deps st.2.
Proof. induction ds as [|d ds IH]; cbn; intros st x; [done|]. intros Hx%IH. by eapply gc_runtime_step_sub. Qed.

Lemma parent_missing_sub l l' d : (forall x, x ∈ l' -> x ∈ l) -> parent_missing l d -> parent_missing l' d.
Proof. unfold parent_missing. intros Hs [?|[?|Hp]]; auto. Qed.

Context (m0 : gmap string Z) (l0 : list Deployment).

Lemma safe_gc_runtime_step (final : list Deployment) d st :
  unique_deps l0 -> d ∈ l0 -> sel_match [(LabelManagedBy, LabelValueJobManager)] d = true ->
  (forall x, x ∈ final -> x ∈ deps st.2) ->
  safe now m0 l0 (orphan c sn now m0 final) st ->
  safe now m0 l0 (orphan c sn now m0 final) (gc_runtime_step c sn now st d).
Proof.
  intros Hu Hd Hsel Hf Hs. destruct st as [m cl]. unfold gc_runtime_step.
  destruct (String.eqb_spec (label d LabelFlowID) "") as [|Hid]; [done|].
  destruct (owns c (sn_peers sn) (label d LabelFlowID)) eqn:Ho; cbn [negb orb]; [|done].
  pose proof (parent_of_spec d cl) as (E & Hg & _).
  destruct (parent_of d cl) as [[| |] cl']; cbn [fst snd] in *.
  - eapply safe_marks; [apply marks_le_clear|by eapply safe_calls].
  - specialize (Hg eq_refl).
    assert (forall m', marks_le now m m' ->
              (jm_gc_reason sn (label d LabelFlowID) <> None \/ window_passed c now m0 d) ->
              safe now m0 l0 (orphan c sn now m0 final) (deleteDeployment d (m', cl'))) as Hdel.
    { intros m' Hm Hwhy. apply safe_deleteDeployment; try done.
      - repeat split; try done. by eapply parent_missing_sub.
      - eapply safe_marks; [exact Hm|by eapply safe_calls]. }
    destruct (jm_gc_reason sn (label d LabelFlowID)); [by apply Hdel; [apply marks_le_refl|left]|].
    pose proof (marks_le_mark now (d_Namespace d) (d_Name d) m) as Hm. pose proof (mark_age c now m d) as Hage.
    destruct (markRuntimeCleanup now (d_Namespace d) (d_Name d) m) as [age m']. cbn in Hm, Hage.
    destruct (Z.ltb_spec age (effectiveTMOrphanTimeout c)); [by eapply safe_marks; [|eapply safe_calls]|].
    apply Hdel; [done|]. right. eapply window_passed_le; [apply Hs|by apply Hage].
  - by eapply safe_calls.
Qed.

Lemma safe_gc_runtime_sweep ds : forall st,
  unique_deps l0 -> (forall d, d ∈ ds -> d ∈ l0 /\ sel_match [(LabelManagedBy, LabelValueJobManager)] d = true) ->
  let final := deps (fold_left (gc_runtime_step c sn now) ds st).2 in
  safe now m0 l0 (orphan c sn now m0 final) st ->
  safe now m0 l0 (orphan c sn now m0 final) (fold_left (gc_runtime_step c sn now) ds st).
Proof.
  induction ds as [|d ds IH]; cbn; intros st Hu Hds Hs; [done|].
  apply IH; [done|intros; apply Hds; by apply elem_of_cons; right|].
  destruct (Hds d) as [Hd Hsel]; [by apply elem_of_cons; left|].
  apply safe_gc_runtime_step; try done. intros x Hx%gc_runtime_sweep_sub. by eapply gc_runtime_step_sub.
Qed.

Lemma safe_gc_runtime cl :
  unique_deps l0 -> l0 = deps cl ->
  let st := gcOrphanedRuntimeDeployments c sn now (m0, cl) in
  safe now m0 l0 (orphan c sn now m0 (deps st.2)) st.
Proof.
  intros Hu El st.
  assert (forall cause, safe now m0 l0 cause (m0, cl)) as Hs
    by (intros; split; [rewrite El; apply only_gone_refl|apply marks_le_refl]).
  unfold st, gcOrphanedRuntimeDeployments. destruct (negb (c_inCluster c)); [done|].
  destruct (dep_list_spec [(LabelManagedBy, LabelValueJobManager)] cl) as [E Hl].
  destruct (dep_list _ cl) as [[ds|e] cl']; cbn [fst snd] in *; [|by eapply safe_calls].
  apply safe_gc_runtime_sweep; [done| |by eapply safe_calls].
  intros d Hd%(Hl _ eq_refl). by rewrite El.
Qed.

End Runtime.

(** ** A tick deletes nothing that is needed *)

(** Why a tick may delete a deployment of [l]; [m] are the marks it began
    with and [left_] is what it left. *)
Inductive gc_cause `{KubeFaults} (c : Controller) (sn : Snapshot) (now : Z) (m : gmap string Z) (l left_ : list Deployment)
    : Deployment -> Prop :=
| cause_jm d : doomed c sn now m d -> gc_cause c sn now m l left_ d
| cause_child d jd : jd ∈ l -> doomed c sn now m jd -> child_of jd d -> gc_cause c sn now m l left_ d
| cause_orphan d : orphan c sn now m left_ d -> gc_cause c sn now m l left_ d.

Lemma orphan_le `{KubeFaults} c sn now m m' l d :
  marks_le now m m' -> orphan c sn now m' l d -> orphan c sn now m l d.
Proof.
  intros Hm (? & ? & ? & ? & Hw). repeat split; try done. destruct Hw; [by left|right]. by eapply window_passed_le.
Qed.

Lemma gc_only_gone `{KubeFaults} c sn now m cl :
  unique_deps (deps cl) ->
  let st := gcOrphanedRuntimeDeployments c sn now (gcOrphanedJMDeployments c sn now (m, cl)) in
  only_gone (gc_cause c sn now m (deps cl) (deps st.2)) (deps cl) (deps st.2).
Proof.
  intros Hu st. destruct (safe_gc_jm c sn now m (deps cl) cl Hu eq_refl) as [[Hs1 Hg1] Hm1].
  subst st. destruct (gcOrphanedJMDeployments c sn now (m, cl)) as [m1 cl1]. cbn in *.
  assert (unique_deps (deps cl1)) as Hu1 by (by eapply unique_deps_sub).
  destruct (safe_gc_runtime c sn now m1 (deps cl1) cl1 Hu1 eq_refl) as [[Hs2 Hg2] _].
  split; [auto|]. intros d Hd. destruct (Hg1 d Hd) as [Hd1|[Hdoom|(jd & Hj & Hdoom & Hch)]].
  - destruct (Hg2 d Hd1) as [|Ho]; [by left|]. right. apply cause_orphan. by eapply orphan_le.
  - right. by apply cause_jm.
  - right. by eapply cause_child.
Qed.

(** ** Bringing infrastructure about keeps what is there *)

Section Keeps.
Context `{KubeFaults}.

(** Nothing is deleted; what is new has a name of its own. *)
Definition grows (cl cl' : KCluster) : Prop :=
  (forall d, d ∈ deps cl -> d ∈ deps cl') /\
  (unique_deps (deps cl) -> unique_deps (deps cl')) /\
  (forall k, is_Some (kc_objs cl !! k) -> is_Some (kc_objs cl' !! k)).

#[local] Instance grows_preorder : PreOrder grows.
Proof.
  split.
  - intros cl. repeat split; auto.
  - intros a b d (H1 & H2 & H3) (H4 & H5 & H6). repeat split; auto.
Qed.

Lemma grows_same cl cl' : deps cl' = deps cl -> kc_objs cl' = kc_objs cl -> grows cl cl'.
Proof. intros E1 E2. repeat split; rewrite ?E1, ?E2; auto. Qed.

Lemma grows_insert k o cl : grows cl (tick (with_objs (<[k := o]> (kc_objs cl)) cl)).
Proof.
  repeat split; auto. intros k' Hk. cbn. destruct (decide (k = k')) as [->|?].
  - rewrite lookup_insert_eq. by eexists.
  - by rewrite lookup_insert_ne by done.
Qed.

Lemma grows_get k cl : grows cl (obj_get k cl).2.
Proof. by apply grows_same. Qed.

Lemma grows_create k o cl : grows cl (obj_create k o cl).2.
Proof.
  unfold obj_create. destruct (kube_fault _); [by apply grows_same|].
  destruct (kc_objs cl !! k); [by apply grows_same|].
  destruct (_ && _); [by apply grows_same|]. apply grows_insert.
Qed.

Lemma grows_update k o cl : grows cl (obj_update k o cl).2.
Proof.
  unfold obj_update. destruct (kube_fault _); [by apply grows_same|].
  destruct (kc_objs cl !! k); [|by apply grows_same]. apply grows_insert.
Qed.

Lemma grows_dep d cl : grows cl (dep_create d cl).2.
Proof.
  unfold dep_create. destruct (kube_fault _); [by apply grows_same|].
  destruct (existsb _ _) eqn:E; [by apply grows_same|].
  destruct (negb _); [by apply grows_same|]. split_and!; cbn; auto.
  - intros x Hx. apply elem_of_app. by left.
  - assert (forall x, x ∈ deps cl -> dep_id x <> dep_id d) as Hnew.
    { intros x Hx Hid. apply not_true_iff_false in E. apply E, existsb_exists. exists x.
      split; [by apply list_elem_of_In|]. by apply is_dep_iff. }
    intros Hu x y [Hx|Hx]%elem_of_app [Hy|Hy]%elem_of_app Hid; rewrite ?list_elem_of_singleton in *; subst; auto.
    + by destruct (Hnew x Hx).
    + by destruct (Hnew y Hy).
Qed.

Lemma grows_copy c ns nid cl : grows cl (copy_configmap c ns nid cl).
Proof.
  unfold copy_configmap. pose proof (grows_get ("ConfigMap", systemNamespace c, jmConfigMapName c) cl) as G.
  destruct (obj_get _ cl) as [[o| |e] cl']; [|done..]. etrans; [exact G|apply grows_create].
Qed.

Lemma grows_configmap c ns nid cl : grows cl (ensureApplicationConfigMap c ns nid cl).
Proof.
  unfold ensureApplicationConfigMap. pose proof (grows_get ("ConfigMap", ns, jmConfigMapName c) cl) as G.
  destruct (obj_get _ cl) as [[o| |e] cl']; [done| |done]. etrans; [exact G|apply grows_copy].
Qed.

Lemma grows_upsert k o cl : grows cl (upsert k o cl).2.
Proof.
  unfold upsert. pose proof (grows_get k cl) as G. destruct (obj_get k cl) as [[x| |e] cl']; cbn in *.
  - pose proof (grows_update k o cl'). destruct (obj_update k o cl'). by etrans.
  - pose proof (grows_create k o cl'). destruct (obj_create k o cl'). by etrans.
  - done.
Qed.

Lemma grows_rbac ns nid cl : grows cl (ensureRuntimeRBAC ns nid cl).
Proof.
  unfold ensureRuntimeRBAC. cbn zeta.
  set (acc := match obj_get _ cl with (NotFound, _) => _ | _ => _ end).
  assert (grows cl acc.2) as G.
  { unfold acc. pose proof (grows_get ("ServiceAccount", ns, "flowgent-runtime") cl) as G.
    destruct (obj_get _ cl) as [[x| |e] cl']; [done| |done].
    pose proof (grows_create ("ServiceAccount", ns, "flowgent-runtime") (app_object nid PNone) cl').
    destruct (obj_create _ _ cl'). by etrans. }
  destruct acc as [ok cl1]. destruct (negb ok); [done|].
  pose proof (grows_upsert ("Role", ns, "flowgent-runtime") (app_object nid (PRules runtime_rules)) cl1) as G2.
  destruct (upsert _ _ cl1) as [ok2 cl2]. destruct (negb ok2); [by etrans|].
  etrans; [exact G|]. etrans; [exact G2|]. apply grows_upsert.
Qed.

Lemma grows_namespace c ns nid cl : grows cl (ensure_namespace c ns nid cl).2.
Proof.
  unfold ensure_namespace. pose proof (grows_get (ns_key ns) cl) as G.
  destruct (obj_get (ns_key ns) cl) as [[x| |e] cl1]; [done| |done].
  pose proof (grows_create (ns_key ns) (app_object nid PNone) cl1) as G1.
  destruct (obj_create _ _ cl1) as [r cl2]. destruct (create_failed r); [by etrans|].
  pose proof (grows_copy c ns nid cl2) as G2. set (cl3 := copy_configmap c ns nid cl2) in *.
  pose proof (grows_get ("ConfigMap", ns, jmConfigMapName c) cl3) as G3.
  assert (grows cl cl3) by (etrans; [exact G|etrans; [exact G1|exact G2]]).
  destruct (obj_get _ cl3) as [[x| |e] cl4]; cbn in *; etrans; try done; etrans; try done; apply grows_copy.
Qed.

Lemma grows_infra c spec cl : grows cl (ensureApplicationInfra c spec cl).
Proof.
  unfold ensureApplicationInfra. destruct (negb _); [done|].
  pose proof (grows_namespace c (controller_applicationNamespace c spec) (dispatchNamespace c spec) cl) as G.
  destruct (ensure_namespace _ _ _ cl) as [ok cl1]. destruct (negb ok); [done|].
  etrans; [exact G|]. etrans; [apply grows_configmap|]. etrans; [apply grows_rbac|]. apply grows_dep.
Qed.

Lemma grows_fold c (sel : string * FlowInfo -> bool) kvs : forall cl,
  grows cl (fold_left (fun cl kv => if sel kv then ensureApplicationInfra c kv.2 cl else cl) kvs cl).
Proof.
  induction kvs as [|kv kvs IH]; intros cl; cbn; [done|].
  destruct (sel kv); [|apply IH]. etrans; [apply grows_infra|apply IH].
Qed.

Lemma grows_dispatch `{RangeOrder} c sn cl : grows cl (dispatch_active c sn cl).
Proof. apply (grows_fold c (fun kv => sn_ok sn && bool_decide (kv.1 ∈ sn_active sn))). Qed.

End Keeps.

(** ** The snapshot of active runs *)

Definition no_active_runs (view : ApiView) (flowID : string) : Prop :=
  forall status, status ∈ active_statuses -> list_runs view status flowID = Ok [].

Lemma flow_active_false view flowID :
  flow_active view active_statuses flowID = Some false <-> no_active_runs view flowID.
Proof.
  unfold no_active_runs. generalize active_statuses as l. induction l as [|st l IH]; cbn.
  - split; [by intros _ ? ?%not_elem_of_nil|done].
  - split.
    + destruct (list_runs view st flowID) as [[|r rs]|e] eqn:E; try done.
      intros Hr st' [->|Hin]%elem_of_cons; [done|]. by apply IH.
    + intros Hall. rewrite (Hall st) by (by apply elem_of_cons; left). apply IH.
      intros st' Hin. apply Hall. by apply elem_of_cons; right.
Qed.

Section Collect.
Context `{RangeOrder} (c : Controller) (peers : list Peer) (view : ApiView).

Lemma collect_active_spec kvs : forall active r,
  collect_active c peers view kvs active = r ->
  (forall f, f ∈ active -> f ∈ r.1) /\
  (r.2 = true -> forall f s, (f, s) ∈ kvs -> owns c peers f = true ->
     f ∉ r.1 -> no_active_runs view f) /\
  (r.2 = true -> forall f s, (f, s) ∈ kvs -> owns c peers f = true -> flow_active view active_statuses f = Some true ->
     f ∈ r.1) /\
  (forall f, f ∈ r.1 -> f ∈ active \/ flow_active view active_statuses f = Some true).
Proof.
  induction kvs as [|[k s0] kvs IH]; intros active r <-; cbn [collect_active].
  { cbn [fst snd]. split_and!; auto; intros _ f s ?%not_elem_of_nil; done. }
  destruct (owns c peers k) eqn:Ho; cbn [negb].
  2: { destruct (IH active _ eq_refl) as (H1 & H2 & H3 & H4). split_and!; auto.
       - intros Hok f s [[= -> ->]|Hin]%elem_of_cons Hf; [congruence|by eapply H2].
       - intros Hok f s [[= -> ->]|Hin]%elem_of_cons Hf; [congruence|by eapply H3]. }
  destruct (flow_active view active_statuses k) as [[|]|] eqn:Ek.
  - destruct (IH ({[k]} ∪ active) _ eq_refl) as (H1 & H2 & H3 & H4). split_and!; auto.
    + intros f Hf. apply H1. set_solver.
    + intros Hok f s [[= -> ->]|Hin]%elem_of_cons Hf; [|by eapply H2].
      intros []. apply H1. set_solver.
    + intros Hok f s [[= -> ->]|Hin]%elem_of_cons Hf Ha; [apply H1; set_solver|by eapply H3].
    + intros f Hf. destruct (H4 f Hf) as [Hf'|]; [|by right]. destruct (decide (f = k)) as [->|]; [by right|left; set_solver].
  - destruct (IH active _ eq_refl) as (H1 & H2 & H3 & H4). split_and!; auto.
    + intros Hok f s [[= -> ->]|Hin]%elem_of_cons Hf; [|by eapply H2].
      intros _. by apply flow_active_false.
    + intros Hok f s [[= -> ->]|Hin]%elem_of_cons Hf Ha; [congruence|by eapply H3].
  - cbn [fst snd]. split_and!; auto; discriminate.
Qed.
End Collect.

Lemma snapshot_spec `{RangeOrder} c discovered view versions :
  let sn := snapshot c discovered view versions in
  sn_seen sn = seen_flows versions /\
  (forall f, sn_ok sn = true -> is_Some (sn_seen sn !! f) -> owns c (sn_peers sn) f = true ->
     f ∉ sn_active sn -> no_active_runs view f) /\
  (forall f, sn_ok sn = true -> is_Some (sn_seen sn !! f) -> owns c (sn_peers sn) f = true ->
     flow_active view active_statuses f = Some true -> f ∈ sn_active sn).
Proof.
  unfold snapshot. set (peers := match getPeers _ _ with Ok _ => _ | Err _ => _ end).
  destruct (collectActiveRunFlows c (seen_flows versions) peers view) as [active ok] eqn:E.
  destruct (collect_active_spec c peers view _ _ _ E) as (_ & H2 & H3 & _). cbn in *. split_and!; [done| |].
  - intros f Hok (s & Hs) Ho Hn. apply (H2 Hok f s); [by apply range_of_elem|done..].
  - intros f Hok (s & Hs) Ho Ha. apply (H3 Hok f s); [by apply range_of_elem|done..].
Qed.


(** ** Without failures *)

Section NoFaults.
Context `{KubeFaults} (Hnf : forall n, kube_fault n = None).
Context (c : Controller).

Lemma obj_get_eq (k : okey) cl :
  obj_get k cl = (match kc_objs cl !! k with Some o => GotIt o | None => NotFound end, tick cl).
Proof. unfold obj_get. by rewrite Hnf. Qed.

Lemma create_there (k : okey) o cl :
  k.1.1 = "Namespace" \/ ns_exists k.1.2 cl = true ->
  create_failed (obj_create k o cl).1 = false /\ is_Some (kc_objs (obj_create k o cl).2 !! k) /\
  (kc_objs cl !! k = None -> kc_objs (obj_create k o cl).2 !! k = Some o).
Proof.
  intros Hns. unfold obj_create. rewrite Hnf. destruct (kc_objs cl !! k) as [x|] eqn:E;
    cbn [fst snd create_failed kc_objs tick].
  - rewrite E. split_and!; [done|by eexists|done].
  - assert (negb (String.eqb k.1.1 "Namespace") && negb (ns_exists k.1.2 cl) = false) as ->.
    { destruct Hns as [->|Hns]; [done|]. rewrite Hns. apply andb_false_r. }
    cbn [fst snd create_failed kc_objs tick with_objs]. rewrite lookup_insert_eq. split_and!; [done|by eexists|done].
Qed.

Lemma grows_ns cl cl' ns : grows cl cl' -> ns_exists ns cl = true -> ns_exists ns cl' = true.
Proof. intros (_ & _ & Hk). unfold ns_exists. rewrite !bool_decide_eq_true. apply Hk. Qed.

Lemma grows_has cl cl' (k : okey) : grows cl cl' -> is_Some (kc_objs cl !! k) -> is_Some (kc_objs cl' !! k).
Proof. intros (_ & _ & Hk). apply Hk. Qed.

Lemma upsert_there (k : okey) o cl :
  ns_exists k.1.2 cl = true ->
  (upsert k o cl).1 = true /\ kc_objs (upsert k o cl).2 !! k = Some o /\
  forall k', k' <> k -> kc_objs (upsert k o cl).2 !! k' = kc_objs cl !! k'.
Proof.
  intros Hns. unfold upsert. rewrite obj_get_eq. destruct (kc_objs cl !! k) as [x|] eqn:E.
  - unfold obj_update. rewrite Hnf. cbn [kc_objs tick]. rewrite E. cbn [fst snd kc_objs tick with_objs].
    rewrite lookup_insert_eq. split_and!; [done..|]. intros k' Hk. by rewrite lookup_insert_ne.
  - unfold obj_create. rewrite Hnf. cbn [kc_objs tick]. rewrite E.
    change (ns_exists k.1.2 (tick cl)) with (ns_exists k.1.2 cl). rewrite Hns, andb_false_r.
    cbn. rewrite lookup_insert_eq. split_and!; [done..|]. intros k' Hk. by rewrite lookup_insert_ne.
Qed.

Lemma ensure_namespace_there ns nid cl :
  (ensure_namespace c ns nid cl).1 = true /\ ns_exists ns (ensure_namespace c ns nid cl).2 = true.
Proof.
  unfold ensure_namespace. rewrite obj_get_eq. destruct (kc_objs cl !! ns_key ns) as [x|] eqn:E.
  { cbn. split; [done|]. apply bool_decide_eq_true. cbn. by rewrite E. }
  destruct (create_there (ns_key ns) (app_object nid PNone) (tick cl) ltac:(by left)) as (Hf & Hi & _).
  destruct (obj_create _ _ (tick cl)) as [r cl2]. cbn in Hf, Hi. rewrite Hf.
  assert (ns_exists ns cl2 = true) as Hns by (by apply bool_decide_eq_true).
  pose proof (grows_copy c ns nid cl2) as G. set (cl3 := copy_configmap c ns nid cl2) in *.
  rewrite obj_get_eq. destruct (kc_objs cl3 !! _); cbn [fst snd]; (split; [done|]).
  - by eapply (grows_ns cl2 cl3).
  - eapply grows_ns; [apply grows_copy|]. by eapply (grows_ns cl2 cl3).
Qed.

Lemma copy_there ns nid cl :
  ns_exists ns cl = true -> is_Some (kc_objs cl !! ("ConfigMap", systemNamespace c, jmConfigMapName c)) ->
  is_Some (kc_objs (copy_configmap c ns nid cl) !! ("ConfigMap", ns, jmConfigMapName c)).
Proof.
  intros Hns [o Ho]. unfold copy_configmap. rewrite obj_get_eq, Ho. by apply create_there; right.
Qed.

Lemma configmap_there ns nid cl :
  ns_exists ns cl = true -> is_Some (kc_objs cl !! ("ConfigMap", systemNamespace c, jmConfigMapName c)) ->
  is_Some (kc_objs (ensureApplicationConfigMap c ns nid cl) !! ("ConfigMap", ns, jmConfigMapName c)).
Proof.
  intros Hns Ho. unfold ensureApplicationConfigMap. rewrite obj_get_eq.
  destruct (kc_objs cl !! ("ConfigMap", ns, jmConfigMapName c)) as [x|] eqn:E; [cbn; by rewrite E|].
  by apply copy_there.
Qed.

Lemma rbac_there ns nid cl :
  ns_exists ns cl = true ->
  let objs := kc_objs (ensureRuntimeRBAC ns nid cl) in
  is_Some (objs !! ("ServiceAccount", ns, "flowgent-runtime")) /\
  objs !! ("Role", ns, "flowgent-runtime") = Some (app_object nid (PRules runtime_rules)) /\
  objs !! ("RoleBinding", ns, "flowgent-runtime") =
    Some (app_object nid (PBinding "flowgent-runtime" "flowgent-runtime" ns)).
Proof.
  intros Hns. unfold ensureRuntimeRBAC. cbn zeta.
  set (acc := match obj_get _ cl with (NotFound, _) => _ | _ => _ end).
  assert (acc.1 = true /\ is_Some (kc_objs acc.2 !! ("ServiceAccount", ns, "flowgent-runtime")) /\ ns_exists ns acc.2 = true)
    as (E1 & E2 & E3).
  { unfold acc. rewrite obj_get_eq. destruct (kc_objs cl !! _) as [x|] eqn:E; [cbn; rewrite E; by split_and!; [|eexists|]|].
    destruct (create_there ("ServiceAccount", ns, "flowgent-runtime") (app_object nid PNone) (tick cl) ltac:(by right))
      as (Hf & Hi & _).
    pose proof (grows_create ("ServiceAccount", ns, "flowgent-runtime") (app_object nid PNone) (tick cl)) as G.
    destruct (obj_create _ _ (tick cl)) as [r cl2]. cbn in *. rewrite Hf. split_and!; [done..|]. by eapply (grows_ns (tick cl)). }
  destruct acc as [ok cl1]. cbn in E1, E2, E3. subst ok. cbn [negb].
  destruct (upsert_there ("Role", ns, "flowgent-runtime") (app_object nid (PRules runtime_rules)) cl1 E3) as (U1 & U2 & U3).
  pose proof (grows_upsert ("Role", ns, "flowgent-runtime") (app_object nid (PRules runtime_rules)) cl1) as G1.
  destruct (upsert _ _ cl1) as [ok2 cl2]. cbn in U1, U2, U3, G1. subst ok2. cbn [negb].
  assert (ns_exists ns cl2 = true) as E4 by (by eapply grows_ns).
  destruct (upsert_there ("RoleBinding", ns, "flowgent-runtime")
              (app_object nid (PBinding "flowgent-runtime" "flowgent-runtime" ns)) cl2 E4) as (V1 & V2 & V3).
  split_and!; [|by rewrite V3|done]. rewrite V3, U3 by done. done.
Qed.

(** Only the last call makes a deployment. *)
Lemma create_deps (k : okey) o cl : deps (obj_create k o cl).2 = deps cl.
Proof.
  unfold obj_create. rewrite Hnf. destruct (kc_objs cl !! k); [done|]. by destruct (_ && _).
Qed.

Lemma copy_deps ns nid cl : deps (copy_configmap c ns nid cl) = deps cl.
Proof. unfold copy_configmap. rewrite obj_get_eq. destruct (kc_objs cl !! _); [by rewrite create_deps|done]. Qed.

Lemma configmap_deps ns nid cl : deps (ensureApplicationConfigMap c ns nid cl) = deps cl.
Proof.
  unfold ensureApplicationConfigMap. rewrite obj_get_eq. destruct (kc_objs cl !! _); [done|]. by rewrite copy_deps.
Qed.

Lemma upsert_deps (k : okey) o cl : deps (upsert k o cl).2 = deps cl.
Proof.
  unfold upsert. rewrite obj_get_eq. destruct (kc_objs cl !! k) as [x|] eqn:E.
  - unfold obj_update. rewrite Hnf. cbn [kc_objs tick]. by rewrite E.
  - pose proof (create_deps k o (tick cl)) as Ec. by destruct (obj_create k o (tick cl)).
Qed.

Lemma rbac_deps ns nid cl : deps (ensureRuntimeRBAC ns nid cl) = deps cl.
Proof.
  unfold ensureRuntimeRBAC. cbn zeta. set (acc := match obj_get _ cl with (NotFound, _) => _ | _ => _ end).
  assert (deps acc.2 = deps cl) as Ea.
  { unfold acc. rewrite obj_get_eq. destruct (kc_objs cl !! _); [done|].
    pose proof (create_deps ("ServiceAccount", ns, "flowgent-runtime") (app_object nid PNone) (tick cl)) as Ec.
    by destruct (obj_create _ _ (tick cl)). }
  destruct acc as [ok cl1]. cbn in Ea. destruct (negb ok); [done|].
  pose proof (upsert_deps ("Role", ns, "flowgent-runtime") (app_object nid (PRules runtime_rules)) cl1) as E1.
  destruct (upsert _ _ cl1) as [ok2 cl2]. cbn in E1. destruct (negb ok2); [congruence|]. rewrite upsert_deps. congruence.
Qed.

Lemma namespace_deps ns nid cl : deps (ensure_namespace c ns nid cl).2 = deps cl.
Proof.
  unfold ensure_namespace. rewrite obj_get_eq. destruct (kc_objs cl !! _); [done|].
  pose proof (create_deps (ns_key ns) (app_object nid PNone) (tick cl)) as Ec.
  destruct (obj_create _ _ (tick cl)) as [r cl2]. cbn in Ec. destruct (create_failed r); [done|].
  pose proof (copy_deps ns nid cl2) as E2. rewrite obj_get_eq.
  destruct (kc_objs _ !! _); cbn [snd]; [|rewrite copy_deps]; cbn [kc_deps tick]; congruence.
Qed.

Definition jm_of (spec : FlowInfo) : Deployment :=
  buildJMDeployment c (jm_name (dispatchNamespace c spec) (f_ID spec)) (controller_applicationNamespace c spec)
    (dispatchNamespace c spec) spec.

Lemma dep_create_there d cl :
  ns_exists (d_Namespace d) cl = true ->
  exists d', d' ∈ deps (dep_create d cl).2 /\ dep_id d' = dep_id d /\
    ((forall x, x ∈ deps cl -> dep_id x <> dep_id d) -> d' = d).
Proof.
  intros Hns. unfold dep_create. rewrite Hnf. destruct (existsb _ _) eqn:E.
  - apply existsb_exists in E as (x & Hx%list_elem_of_In & Hid%is_dep_iff). exists x. split_and!; [done..|].
    intros Hn. by destruct (Hn x Hx).
  - rewrite Hns. exists d. split_and!; [|done..]. cbn. apply elem_of_app. right. by apply list_elem_of_singleton.
Qed.

(** Without failures of the cluster's API, giving a flow its infrastructure
    leaves its namespace, the service account, the role with its rules and its
    binding in place, the configuration copied when the controller's own
    namespace has one, and a deployment of the job manager's name in the
    flow's namespace -- the one built for the flow if the name was free; and
    nothing that was there is gone. *)
Theorem infra_ready spec cl :
  c_inCluster c = true ->
  let ns := controller_applicationNamespace c spec in
  let cl' := ensureApplicationInfra c spec cl in
  let has k := is_Some (kc_objs cl' !! k) in
  has (ns_key ns) /\ has ("ServiceAccount", ns, "flowgent-runtime") /\
  (ko_Body <$> kc_objs cl' !! ("Role", ns, "flowgent-runtime") = Some (PRules runtime_rules)) /\
  (ko_Body <$> kc_objs cl' !! ("RoleBinding", ns, "flowgent-runtime") =
     Some (PBinding "flowgent-runtime" "flowgent-runtime" ns)) /\
  (is_Some (kc_objs cl !! ("ConfigMap", systemNamespace c, jmConfigMapName c)) ->
   has ("ConfigMap", ns, jmConfigMapName c)) /\
  (exists d, d ∈ deps cl' /\ dep_id d = dep_id (jm_of spec) /\
     ((forall x, x ∈ deps cl -> dep_id x <> dep_id (jm_of spec)) -> d = jm_of spec)) /\
  forall d, d ∈ deps cl -> d ∈ deps cl'.
Proof.
  intros Hin ns cl' has.
  pose proof (grows_infra c spec cl) as (Hkeep & _).
  unfold has, cl', ensureApplicationInfra. rewrite Hin. cbn [negb]. fold ns. set (nid := dispatchNamespace c spec).
  destruct (ensure_namespace_there ns nid cl) as [E1 E2]. pose proof (grows_namespace c ns nid cl) as G0.
  set (cl1 := (ensure_namespace c ns nid cl).2) in *.
  destruct (ensure_namespace c ns nid cl) as [ok cl1'] eqn:En. cbn [fst snd] in *. subst ok cl1. cbn [negb].
  pose proof (grows_configmap c ns nid cl1') as G1. set (cl2 := ensureApplicationConfigMap c ns nid cl1') in *.
  pose proof (grows_rbac ns nid cl2) as G2.
  destruct (rbac_there ns nid cl2 (grows_ns _ _ _ G1 E2)) as (R1 & R2 & R3). cbn zeta in R1, R2, R3.
  assert (deps (ensureRuntimeRBAC ns nid cl2) = deps cl) as Ed.
  { rewrite rbac_deps. unfold cl2. rewrite configmap_deps.
    replace cl1' with (ensure_namespace c ns nid cl).2 by (by rewrite En). apply namespace_deps. }
  set (cl3 := ensureRuntimeRBAC ns nid cl2) in *.
  pose proof (grows_dep (jm_of spec) cl3) as G3.
  assert (kc_objs (dep_create (jm_of spec) cl3).2 = kc_objs cl3) as Eo.
  { unfold dep_create. rewrite Hnf. destruct (existsb _ _); [done|]. by destruct (negb _). }
  assert (ns_exists ns cl3 = true) as Hns by (eapply grows_ns; [exact G2|]; by eapply grows_ns).
  change (buildJMDeployment _ _ _ _ _) with (jm_of spec). rewrite Eo. split_and!.
  - by apply bool_decide_eq_true in Hns.
  - done.
  - by rewrite R2.
  - by rewrite R3.
  - intros Hcm. eapply (grows_has cl2 cl3); [done|]. apply configmap_there; [done|]. by eapply grows_has.
  - destruct (dep_create_there (jm_of spec) cl3 Hns) as (d & Hd & Hid & Hnew). exists d. rewrite Ed in Hnew. done.
  - intros d Hd. apply (proj1 G3). by rewrite Ed.
Qed.
End NoFaults.

(** ** Garbage collection, without failures *)

Section Collects.
Context `{KubeFaults} (Hnf : forall n, kube_fault n = None).
Context (c : Controller) (sn : Snapshot) (now : Z).

Lemma dep_delete_eq ns name cl :
  deps (dep_delete ns name cl).2 = List.filter (fun d => negb (is_dep ns name d)) (deps cl) /\
  (dep_delete ns name cl).1 = if existsb (is_dep ns name) (deps cl) then Deleted else DelNotFound.
Proof.
  unfold dep_delete. rewrite Hnf. destruct (existsb _ _) eqn:E; [done|]. split; [|done]. cbn.
  symmetry. apply forallb_filter_id, forallb_forall. intros d Hd. apply negb_true_iff.
  destruct (is_dep ns name d) eqn:Ed; [|done]. exfalso. apply not_true_iff_false in E. apply E, existsb_exists. by exists d.
Qed.

Lemma deleteDeployment_gone d st : d ∉ deps (deleteDeployment d st).2.
Proof.
  destruct st as [m cl]. unfold deleteDeployment. destruct (dep_delete_eq (d_Namespace d) (d_Name d) cl) as [E _].
  assert (d ∉ deps (dep_delete (d_Namespace d) (d_Name d) cl).2) as Hn.
  { rewrite E. intros [_ Hn]%list_elem_of_In%filter_In. by rewrite (proj2 (is_dep_iff _ _ d)) in Hn. }
  by destruct (dep_delete _ _ cl) as [[| |e] cl'].
Qed.

Lemma children_sub nid f pn pns st x :
  x ∈ deps (deleteRuntimeDeploymentsForFlow nid f pn pns st).2 -> x ∈ deps st.2.
Proof.
  destruct st as [m cl]. unfold deleteRuntimeDeploymentsForFlow, dep_list. rewrite Hnf.
  generalize (List.filter (sel_match [(LabelManagedBy, LabelValueJobManager); (LabelFlowID, f)]) (deps cl)) as ds.
  change (deps (m, cl).2) with (deps (m, tick cl).2). generalize (m, tick cl) as st. intros st ds; revert st.
  induction ds as [|d ds IH]; intros st; cbn [fold_left]; [done|]. intros Hx%IH.
  destruct (runtime_of nid pn pns d); [by apply deleteDeployment_sub in Hx|done].
Qed.

Lemma children_gone nid f pn pns st d :
  sel_match [(LabelManagedBy, LabelValueJobManager); (LabelFlowID, f)] d = true -> runtime_of nid pn pns d = true ->
  d ∉ deps (deleteRuntimeDeploymentsForFlow nid f pn pns st).2.
Proof.
  intros Hsel Hr Hd. pose proof (children_sub _ _ _ _ _ _ Hd) as Hd0. revert Hd.
  destruct st as [m cl]. unfold deleteRuntimeDeploymentsForFlow, dep_list. rewrite Hnf. cbn [snd] in Hd0.
  assert (d ∈ List.filter (sel_match [(LabelManagedBy, LabelValueJobManager); (LabelFlowID, f)]) (deps cl)) as Hin
    by (by apply list_elem_of_In, filter_In; split; [apply list_elem_of_In|]).
  revert Hin. generalize (List.filter (sel_match [(LabelManagedBy, LabelValueJobManager); (LabelFlowID, f)]) (deps cl)) as ds.
  generalize (m, tick cl) as st. intros st ds; revert st.
  assert (forall ds st, d ∉ deps st.2 ->
    d ∉ deps (fold_left (fun st d => if runtime_of nid pn pns d then deleteDeployment d st else st) ds st).2) as Hstay.
  { clear ds. induction ds as [|x ds IH]; intros st Hn; cbn [fold_left]; [done|]. apply IH.
    destruct (runtime_of nid pn pns x); [|done]. intros Hx. by apply deleteDeployment_sub in Hx. }
  induction ds as [|x ds IH]; intros st Hin; cbn [fold_left]; [by apply not_elem_of_nil in Hin|].
  apply elem_of_cons in Hin as [<-|Hin]; [|by apply IH].
  rewrite Hr. apply Hstay, deleteDeployment_gone.
Qed.

Lemma delete_jm_gone d f st :
  (exists x, x ∈ deps st.2 /\ dep_id x = dep_id d) ->
  (d ∉ deps (delete_jm d f st).2) /\
  forall x, sel_match [(LabelManagedBy, LabelValueJobManager); (LabelFlowID, f)] x = true ->
    runtime_of (label d LabelNamespaceID) (d_Name d) (d_Namespace d) x = true -> x ∉ deps (delete_jm d f st).2.
Proof.
  destruct st as [m cl]. intros (y & Hy & Hid). unfold delete_jm.
  destruct (dep_delete_eq (d_Namespace d) (d_Name d) cl) as [E1 E2].
  assert (existsb (is_dep (d_Namespace d) (d_Name d)) (deps cl) = true) as Ex.
  { apply existsb_exists. exists y. split; [by apply list_elem_of_In|by apply is_dep_iff]. }
  rewrite Ex in E2. destruct (dep_delete _ _ cl) as [r cl']. cbn in E1, E2. subst r. split.
  - intros Hd%children_sub. cbn in Hd. rewrite E1 in Hd. apply list_elem_of_In, filter_In in Hd as [_ Hn].
    by rewrite (proj2 (is_dep_iff _ _ d)) in Hn.
  - intros x Hsel Hr. by apply children_gone.
Qed.

Lemma gc_jm_step_sub st d x : x ∈ deps (gc_jm_step c sn now st d).2 -> x ∈ deps st.2.
Proof.
  assert (forall m cl, x ∈ deps (delete_jm d (label d LabelFlowID) (m, cl)).2 -> x ∈ deps cl) as Hdel.
  { intros m cl. unfold delete_jm. destruct (dep_delete_eq (d_Namespace d) (d_Name d) cl) as [E _].
    destruct (dep_delete _ _ cl) as [[| |e] cl']; cbn [snd] in *; [intros Hx%children_sub|..]; cbn in *; rewrite ?E.
    all: first [rewrite E in Hx; by apply list_elem_of_In, filter_In in Hx as [Hx%list_elem_of_In _]
               |intros Hx; by apply list_elem_of_In, filter_In in Hx as [Hx%list_elem_of_In _]]. }
  destruct st as [m cl]. unfold gc_jm_step. destruct (String.eqb _ _); [done|]. destruct (negb _); [done|].
  destruct (jm_gc_reason _ _) as [[|]|]; [by apply Hdel| |done].
  destruct (markRuntimeCleanup _ _ _ _) as [age m']. destruct (_ <? _); [done|by apply Hdel].
Qed.

Lemma gc_jm_sweep_sub ds : forall st x, x ∈ deps (fold_left (gc_jm_step c sn now) ds st).2 -> x ∈ deps st.2.
Proof. induction ds as [|d ds IH]; cbn; intros st x; [done|]. intros Hx%IH. by eapply gc_jm_step_sub. Qed.

(** What a collection does to one deployment [d], whose key no other has. *)
Context (d : Deployment) (l0 : list Deployment).
Context (Hkeys : forall x, x ∈ l0 ->
  cleanup_key (d_Namespace x) (d_Name x) = cleanup_key (d_Namespace d) (d_Name d) -> x = d).

Definition mark (st : gc_state) : option Z := st.1 !! cleanup_key (d_Namespace d) (d_Name d).
Definition within (st : gc_state) : Prop := forall x, x ∈ deps st.2 -> x ∈ l0.

(** The mark of [d] stays as it is, unless [d] goes. *)
Definition keeps_mark (st st' : gc_state) : Prop := d ∉ deps st'.2 \/ mark st' = mark st.

Lemma clear_other x st : x ∈ l0 -> x <> d -> clearRuntimeCleanup (d_Namespace x) (d_Name x) st.1 !! cleanup_key (d_Namespace d) (d_Name d) = mark st.
Proof.
  intros Hx Hne. unfold clearRuntimeCleanup. rewrite lookup_delete_ne; [done|]. intros E. by apply Hne, Hkeys.
Qed.

Lemma deleteDeployment_keeps x st : x ∈ l0 -> keeps_mark st (deleteDeployment x st).
Proof.
  intros Hx. destruct (decide (d ∈ deps (deleteDeployment x st).2)) as [Hd|]; [right|by left].
  assert (x <> d) as Hne by (intros ->; by apply deleteDeployment_gone in Hd).
  destruct st as [m cl]. unfold deleteDeployment in *. pose proof (clear_other x (m, cl) Hx Hne) as Hc.
  by destruct (dep_delete _ _ cl) as [[| |e] cl'].
Qed.

Lemma children_keeps nid f pn pns st :
  within st -> keeps_mark st (deleteRuntimeDeploymentsForFlow nid f pn pns st).
Proof.
  destruct st as [m cl]. intros Hw. unfold deleteRuntimeDeploymentsForFlow, dep_list. rewrite Hnf.
  assert (forall x, x ∈ List.filter (sel_match [(LabelManagedBy, LabelValueJobManager); (LabelFlowID, f)]) (deps cl) -> x ∈ l0) as Hin
    by (intros x [Hx%list_elem_of_In _]%list_elem_of_In%filter_In; by apply Hw).
  revert Hin. generalize (List.filter (sel_match [(LabelManagedBy, LabelValueJobManager); (LabelFlowID, f)]) (deps cl)) as ds.
  change (keeps_mark (m, cl)) with (keeps_mark (m, tick cl)). generalize (m, tick cl) as st. clear m cl Hw.
  intros st ds; revert st. induction ds as [|x ds IH]; intros st Hin; cbn [fold_left]; [by right|].
  specialize (IH (if runtime_of nid pn pns x then deleteDeployment x st else st)
                 (fun y Hy => Hin y (proj2 (elem_of_cons _ _ _) (or_intror Hy)))).
  destruct IH as [|E]; [by left|]. destruct (runtime_of nid pn pns x); [|by right].
  destruct (deleteDeployment_keeps x st (Hin x (proj2 (elem_of_cons _ _ _) (or_introl eq_refl)))) as [Hg|E2].
  - left. intros Hd. apply Hg. revert Hd. clear.
    generalize (deleteDeployment x st) as st'. induction ds as [|y ds IH]; intros st' Hd; cbn in *; [done|].
    apply IH in Hd. destruct (runtime_of nid pn pns y); [by apply deleteDeployment_sub in Hd|done].
  - right. congruence.
Qed.

Lemma delete_jm_keeps x f st : within st -> x ∈ l0 -> x <> d -> keeps_mark st (delete_jm x f st).
Proof.
  destruct st as [m cl]. intros Hw Hx Hne. unfold delete_jm.
  destruct (dep_delete_eq (d_Namespace x) (d_Name x) cl) as [E _].
  destruct (dep_delete _ _ cl) as [[| |e] cl']; [|by right..].
  assert (within (clearRuntimeCleanup (d_Namespace x) (d_Name x) m, cl')) as Hw'.
  { intros y Hy. cbn in *. rewrite E in Hy. apply Hw. by apply list_elem_of_In, filter_In in Hy as [Hy%list_elem_of_In _]. }
  destruct (children_keeps (label x LabelNamespaceID) f (d_Name x) (d_Namespace x) _ Hw') as [|Em]; [by left|right].
  rewrite Em. by apply (clear_other x (m, cl)).
Qed.

Lemma gc_jm_step_keeps x st : within st -> x ∈ l0 -> x <> d -> keeps_mark st (gc_jm_step c sn now st x).
Proof.
  destruct st as [m cl]. intros Hw Hx Hne. unfold gc_jm_step. destruct (String.eqb _ _); [by right|].
  destruct (negb _); [by right|]. destruct (jm_gc_reason _ _) as [[|]|].
  - by apply delete_jm_keeps.
  - assert (mark ((markRuntimeCleanup now (d_Namespace x) (d_Name x) m).2, cl) = mark (m, cl)) as Em.
    { unfold mark, markRuntimeCleanup. cbn [fst]. destruct (m !! cleanup_key (d_Namespace x) (d_Name x)); [done|].
      cbn [snd]. rewrite lookup_insert_ne; [done|]. intros Ek. by apply Hne, Hkeys. }
    destruct (markRuntimeCleanup now _ _ m) as [age m']. cbn [snd] in Em. destruct (_ <? _); [by right|].
    destruct (delete_jm_keeps x (label x LabelFlowID) (m', cl) Hw Hx Hne) as [|E]; [by left|right; congruence].
  - right. by apply (clear_other x (m, cl)).
Qed.

(** The state of [d] after its own step. *)
Definition gc_settled (m : option Z) (st : gc_state) : Prop :=
  match jm_gc_reason sn (label d LabelFlowID) with
  | Some FlowDeleted => False
  | Some NoActiveRuns =>
      mark st = Some (default now m) /\ now - default now m < effectiveTMOrphanTimeout c
  | None => mark st = None
  end.

Lemma gc_jm_step_settles st :
  label d LabelFlowID <> "" -> owns c (sn_peers sn) (label d LabelFlowID) = true ->
  let st' := gc_jm_step c sn now st d in d ∉ deps st'.2 \/ gc_settled (mark st) st'.
Proof.
  intros Hf Ho st'. destruct (decide (d ∈ deps st'.2)) as [Hd|]; [right|by left].
  assert (d ∈ deps st.2) as Hd0 by (by eapply gc_jm_step_sub).
  assert (forall m, d ∉ deps (delete_jm d (label d LabelFlowID) (m, st.2)).2) as Hgone
    by (intros m; exact (proj1 (delete_jm_gone d _ (m, st.2) (ex_intro _ d (conj Hd0 eq_refl))))).
  destruct st as [m cl]. unfold st', gc_jm_step, gc_settled in *.
  destruct (String.eqb_spec (label d LabelFlowID) ""); [done|]. rewrite Ho in *. cbn [negb snd] in *.
  destruct (jm_gc_reason sn (label d LabelFlowID)) as [[|]|].
  - by apply Hgone in Hd.
  - unfold mark, markRuntimeCleanup in *. cbn [fst] in *.
    destruct (m !! cleanup_key (d_Namespace d) (d_Name d)) as [t|] eqn:Et; cbn [default].
    + destruct (Z.ltb_spec (now - t) (effectiveTMOrphanTimeout c)); [by split|]. by apply Hgone in Hd.
    + pose proof (effective_pos c) as Hpos. destruct (Z.ltb_spec 0 (effectiveTMOrphanTimeout c)); [|lia].
      split; [apply lookup_insert_eq|lia].
  - apply lookup_delete_eq.
Qed.

Lemma gc_jm_sweep_keeps ds : forall st,
  d ∉ ds -> (forall x, x ∈ ds -> x ∈ l0) -> within st -> keeps_mark st (fold_left (gc_jm_step c sn now) ds st).
Proof.
  induction ds as [|x ds IH]; intros st Hn Hds Hw; cbn [fold_left]; [by right|].
  apply not_elem_of_cons in Hn as [Hne Hn].
  destruct (IH (gc_jm_step c sn now st x) Hn) as [|E]; [by intros; apply Hds, elem_of_cons; right| |by left|].
  - intros y Hy%gc_jm_step_sub. by apply Hw.
  - destruct (gc_jm_step_keeps x st Hw) as [Hg|E2]; [apply Hds, elem_of_cons; by left|congruence| |].
    + left. intros Hd. apply Hg. by eapply gc_jm_sweep_sub.
    + right. congruence.
Qed.

Lemma gc_settled_again m st st' : gc_settled m st -> gc_settled (mark st) st' -> gc_settled m st'.
Proof. unfold gc_settled. destruct (jm_gc_reason _ _) as [[|]|]; [done| |done]. intros [-> Ha]. done. Qed.

Lemma gc_jm_sweep_settles ds :
  label d LabelFlowID <> "" -> owns c (sn_peers sn) (label d LabelFlowID) = true ->
  forall st, (forall x, x ∈ ds -> x ∈ l0) -> within st -> d ∈ ds ->
  let st' := fold_left (gc_jm_step c sn now) ds st in d ∉ deps st'.2 \/ gc_settled (mark st) st'.
Proof.
  intros Hf Ho. induction ds as [|x ds IH]; intros st Hds Hw Hin; cbn [fold_left]; [by apply not_elem_of_nil in Hin|].
  assert (within (gc_jm_step c sn now st x)) as Hw' by (intros y Hy%gc_jm_step_sub; by apply Hw).
  assert (forall y, y ∈ ds -> y ∈ l0) as Hds' by (intros y Hy; apply Hds; by apply elem_of_cons; right).
  assert (forall st0, d ∉ deps st0.2 -> d ∉ deps (fold_left (gc_jm_step c sn now) ds st0).2) as Hstay
    by (intros st0 Hn Hd%gc_jm_sweep_sub; done).
  destruct (decide (x = d)) as [->|Hne].
  - destruct (gc_jm_step_settles st Hf Ho) as [|Hs]; [left; by apply Hstay|].
    destruct (decide (d ∈ ds)) as [Hd|Hd].
    + destruct (IH _ Hds' Hw' Hd) as [|Hs2]; [by left|right; by eapply gc_settled_again].
    + destruct (gc_jm_sweep_keeps ds _ Hd Hds' Hw') as [|E]; [by left|right].
      revert Hs. unfold gc_settled. by rewrite E.
  - apply elem_of_cons in Hin as [->|Hin]; [done|].
    destruct (gc_jm_step_keeps x st Hw) as [Hg|E]; [apply Hds, elem_of_cons; by left|done|left; by apply Hstay|].
    destruct (IH _ Hds' Hw' Hin) as [|Hs]; [by left|right]. by rewrite E in Hs.
Qed.

End Collects.

(** Without failures, a collection deletes the job manager of a flow of
    this pod that has no definition; one whose flow has no active run it
    marks, and deletes once the mark is as old as the window -- so two ticks
    that far apart delete it --; and the mark of one whose flow is active is
    cleared, so that the window starts anew. *)
Theorem idle_jm_collected `{KubeFaults} c sn now m cl d :
  (forall n, kube_fault n = None) -> c_inCluster c = true ->
  (forall x, x ∈ deps cl -> cleanup_key (d_Namespace x) (d_Name x) = cleanup_key (d_Namespace d) (d_Name d) -> x = d) ->
  d ∈ deps cl -> sel_match jm_selector d = true ->
  label d LabelFlowID <> "" -> owns c (sn_peers sn) (label d LabelFlowID) = true ->
  let key := cleanup_key (d_Namespace d) (d_Name d) in
  let st' := gcOrphanedJMDeployments c sn now (m, cl) in
  match jm_gc_reason sn (label d LabelFlowID) with
  | Some FlowDeleted => d ∉ deps st'.2
  | Some NoActiveRuns =>
      d ∉ deps st'.2 \/
      st'.1 !! key = Some (default now (m !! key)) /\ now - default now (m !! key) < effectiveTMOrphanTimeout c
  | None => d ∉ deps st'.2 \/ st'.1 !! key = None
  end.
Proof.
  intros Hnf Hin Hkeys Hd Hsel Hf Ho key st'. unfold st', gcOrphanedJMDeployments. rewrite Hin. cbn [negb].
  unfold dep_list. rewrite Hnf.
  assert (forall x, x ∈ List.filter (sel_match jm_selector) (deps cl) <-> x ∈ deps cl /\ sel_match jm_selector x = true) as Hl
    by (intros; by rewrite !list_elem_of_In, filter_In).
  destruct (gc_jm_sweep_settles Hnf c sn now d (deps cl) Hkeys (List.filter (sel_match jm_selector) (deps cl)) Hf Ho (m, tick cl))
    as [Hg|Hs]; [by intros x [Hx _]%Hl|by intros x|by apply Hl| |].
  - destruct (jm_gc_reason _ _) as [[|]|]; [done|by left..].
  - unfold gc_settled, mark in Hs. cbn [fst] in Hs. destruct (jm_gc_reason _ _) as [[|]|]; [done|by right..].
Qed.
