(* ===== verification/Runtime.v ===== *)
(** * The start of a job manager, and the deployments it makes

    [pkg/cmd/pkg/jobmanager.go]: what a job manager takes from its settings
    and environment; and the deployment objects of its resource manager
    ([pkg/core/pkg/engine/resourcemanager/kubernetes.go]), with the labels by
    which the controller finds them again. *)

From S2P Require Export Json Controller Flows.

Local Open Scope string_scope.
Local Open Scope list_scope.
Local Open Scope Z_scope.

(** ** Settings *)

Record PostgresConfig := {
  pg_Dsn : string; pg_Host : string; pg_Port : Z; pg_Username : string; pg_Password : string;
  pg_Database : string; pg_UseSSL : bool;
}.

(** The settings a job manager reads; [js_SandboxResources] are CPU and memory
    of the policy's default resources, when it has them. *)
Record JMSettings := {
  js_AgentFlowID : string; js_DefaultNamespace : string; js_K8sNamespace : string; js_TMDeploy : string;
  js_TMSlots : Z; js_TMImage : string; js_JMImage : string; js_APIServerURL : string;
  js_CredentialEnvSecret : string; js_MQTTBroker : string; js_Postgres : PostgresConfig;
  js_SandboxWorkspace : string; js_SandboxHostWorkspace : string; js_SandboxEnabled : bool;
  js_SandboxImage : string; js_SandboxMinReplicas : Z; js_SandboxMaxReplicas : Z; js_SandboxSlotsPerPod : Z;
  js_SandboxResources : option (string * string);
  js_LockProvider : string; js_FlowExecutionTimeout : string; js_MaxNodeRetries : Z; js_MaxConcurrentFlows : Z;
}.

Definition jm_namespace (s : JMSettings) : string := or_default_ns (js_DefaultNamespace s).

(** [POD_NAMESPACE] first. *)
Definition runtimeNamespace (podNamespace : string) (s : JMSettings) : string :=
  if negb (String.eqb podNamespace "") then podNamespace
  else or_default_ns (js_K8sNamespace s).

Definition jobManagerDeploymentName (namespaceID flowID : string) : string :=
  if String.eqb flowID "" then ""
  else "flowgent-jobmanager-" +:+ or_default_ns namespaceID +:+ "-" +:+ flowID.

Definition cmd_sandboxDeploymentName (namespaceID flowID : string) : string :=
  if String.eqb flowID "" then "flowgent-sandbox"
  else "flowgent-sandbox-" +:+ or_default_ns namespaceID +:+ "-" +:+ flowID.

Definition tm_deploy (s : JMSettings) : string :=
  let tmDeploy := if String.eqb (js_TMDeploy s) "" then "flowgent-taskmanager" else js_TMDeploy s in
  if negb (String.eqb (js_AgentFlowID s) "") && String.eqb tmDeploy "flowgent-taskmanager"
  then "flowgent-taskmanager-" +:+ jm_namespace s +:+ "-" +:+ js_AgentFlowID s
  else tmDeploy.

Definition postgresDSNFromConfig (pg : PostgresConfig) : string :=
  if negb (String.eqb (pg_Dsn pg) "") then pg_Dsn pg
  else if String.eqb (pg_Host pg) "" then ""
  else
    let ssl := if pg_UseSSL pg then "require" else "disable" in
    let port := if pg_Port pg =? 0 then 5432 else pg_Port pg in
    "host=" +:+ pg_Host pg +:+ " port=" +:+ Itoa port +:+ " user=" +:+ pg_Username pg +:+ " password=" +:+
    pg_Password pg +:+ " dbname=" +:+ pg_Database pg +:+ " sslmode=" +:+ ssl.

(** What [newRunLock] asks the lock package for. *)
Record LockConfig := { lk_Type : string; lk_PGConn : string }.

Definition newRunLock (provider_setting postgresDSN : string) : res LockConfig :=
  let provider := ToLower provider_setting in
  if String.eqb provider "" || String.eqb provider "memory" then Ok {| lk_Type := "memory"; lk_PGConn := "" |}
  else if String.eqb provider "postgres" || String.eqb provider "postgresql" || String.eqb provider "postgre"
  then if String.eqb postgresDSN ""
       then Err "postgres lock requires storage.postgres.dsn or postgres host config"
       else Ok {| lk_Type := "postgres"; lk_PGConn := postgresDSN |}
  else Ok {| lk_Type := provider; lk_PGConn := postgresDSN |}.

Record JobManagerConfig := { jc_FlowExecutionTimeout : Z; jc_MaxNodeRetries : Z; jc_MaxConcurrentFlows : Z }.

(** A duration that does not parse is zero. *)
Definition newJobManagerConfig (parse_duration : string -> option Z) (s : JMSettings) : JobManagerConfig :=
  let timeout := match parse_duration (js_FlowExecutionTimeout s) with Some d => d | None => 0 end in
  {| jc_FlowExecutionTimeout := if timeout =? 0 then 1800000000000 else timeout;
     jc_MaxNodeRetries := js_MaxNodeRetries s; jc_MaxConcurrentFlows := js_MaxConcurrentFlows s |}.

(** The flow a job manager loads at its start: of the versions that decode to
    its flow, the first of the greatest version above zero. *)
Definition load_own_flow (agentFlowID : string) (versions : list FlowVersionInfo) : option FlowInfo :=
  (fold_left (fun (best : option FlowInfo * Z) v =>
     match fv_Definition v with
     | Some spec => if String.eqb (f_ID spec) agentFlowID && (best.2 <? fv_Version v)
                    then (Some spec, fv_Version v) else best
     | None => best
     end) versions (None, 0)).1.

(** ** The owner of the deployments *)

(** The fields of the resource manager its objects are made of. *)
Record OwnerRM := {
  or_namespace : string; or_deployName : string; or_sandboxDeployName : string;
  or_minTMs : Z; or_sandboxMin : Z; or_sandboxSlots : Z; or_tmImage : string; or_sandboxImage : string;
  or_mqttBroker : string; or_postgresDSN : string; or_apiServerURL : string; or_workspace : string;
  or_hostWorkspace : string; or_resources : option (string * string); or_ownerNamespaceID : string;
  or_ownerFlowID : string; or_ownerJobManagerName : string; or_ownerJobManagerNamespace : string;
  or_credentialEnvSecret : string;
}.

Definition defaultIfEmpty (s fallback : string) : string := if String.eqb s "" then fallback else s.
Definition defaultHostPath (host fallback : string) : string := if String.eqb host "" then fallback else host.

(** The resource manager of a job manager that runs in the cluster
    ([startJobManager], then [NewKubernetesResourceManager]). *)
Definition start_rm (podNamespace : string) (s : JMSettings) : OwnerRM :=
  let ns := runtimeNamespace podNamespace s in
  let tmImage := defaultIfEmpty (js_TMImage s) (js_JMImage s) in
  {| or_namespace := ns; or_deployName := tm_deploy s;
     or_sandboxDeployName := cmd_sandboxDeploymentName (jm_namespace s) (js_AgentFlowID s);
     or_minTMs := 0; or_sandboxMin := Z.max 0 (js_SandboxMinReplicas s);
     or_sandboxSlots := if js_SandboxSlotsPerPod s <=? 0 then 4 else js_SandboxSlotsPerPod s;
     or_tmImage := tmImage; or_sandboxImage := defaultIfEmpty (js_SandboxImage s) tmImage;
     or_mqttBroker := js_MQTTBroker s; or_postgresDSN := postgresDSNFromConfig (js_Postgres s);
     or_apiServerURL := js_APIServerURL s; or_workspace := js_SandboxWorkspace s;
     or_hostWorkspace := defaultHostPath (js_SandboxHostWorkspace s) (js_SandboxWorkspace s);
     or_resources := js_SandboxResources s; or_ownerNamespaceID := jm_namespace s;
     or_ownerFlowID := js_AgentFlowID s;
     or_ownerJobManagerName := jobManagerDeploymentName (jm_namespace s) (js_AgentFlowID s);
     or_ownerJobManagerNamespace := ns; or_credentialEnvSecret := js_CredentialEnvSecret s |}.

(** The labels of the two kinds of deployments, but for the first two. *)
Definition owner_labels (o : OwnerRM) (base : Labels) : Labels :=
  if String.eqb (or_ownerFlowID o) "" then base
  else
    let l := <[LabelManagedBy := LabelValueJobManager]>
               (<[LabelFlowID := or_ownerFlowID o]>
                  (<[LabelNamespaceID := or_default_ns (or_ownerNamespaceID o)]>
                     (<[LabelMode := LabelValueApplication]> base))) in
    let l := if String.eqb (or_ownerJobManagerName o) "" then l
             else <[LabelParentJobManager := or_ownerJobManagerName o]> l in
    if String.eqb (or_ownerJobManagerNamespace o) "" then l
    else <[LabelParentJobManagerNamespace := or_ownerJobManagerNamespace o]> l.

Definition tmLabels (o : OwnerRM) : Labels :=
  owner_labels o (list_to_map [("app.kubernetes.io/component", "taskmanager"); ("flowgent/role", "worker")]).
Definition sandboxLabels (o : OwnerRM) : Labels :=
  owner_labels o (list_to_map [("app.kubernetes.io/component", "sandbox"); ("flowgent/role", "sandbox-worker")]).

(** The task managers' deployment ([ensureDeployment]). *)
Definition tm_deployment (o : OwnerRM) : Deployment :=
  {| d_Name := or_deployName o; d_Namespace := or_namespace o; d_Labels := tmLabels o;
     d_Replicas := i32 (or_minTMs o);
     d_Template :=
       {| pt_ServiceAccount := ""; pt_Image := or_tmImage o;
          pt_Command := ["/app/flowgent"; "taskmanager"; "start"; "-c"; "/etc/flowgent/flowgent.yaml"]; pt_Args := [];
          pt_EnvFrom := credentialEnvFrom (or_credentialEnvSecret o);
          pt_Env := [("FLOWGENT__MESSAGER__MQTT__BROKER", EnvLiteral (or_mqttBroker o));
                     ("FLOWGENT__STORAGE__POSTGRES__DSN", EnvLiteral (or_postgresDSN o));
                     ("FLOWGENT__RUNTIME__API_SERVER_URL", EnvLiteral (or_apiServerURL o))];
          pt_ConfigMap := "flowgent-config"; pt_Workspace := Some (or_hostWorkspace o, or_workspace o);
          pt_Seccomp := false; pt_Limits := []; pt_Requests := [] |} |}.

(** [MustParse] panics on a quantity that is none ([None]). *)
Definition buildSandboxResourceRequirements (quantity_ok : string -> bool) (o : OwnerRM)
    : option (list (string * string) * list (string * string)) :=
  let add k v l := if String.eqb v "" then Some l else if quantity_ok v then Some (l ++ [(k, v)]) else None in
  match (match or_resources o with
         | Some (cpu, mem) => match add "cpu" cpu [] with Some l => add "memory" mem l | None => None end
         | None => Some []
         end) with
  | None => None
  | Some [] => Some ([("cpu", "2000m"); ("memory", "2Gi")], [("cpu", "200m"); ("memory", "256Mi")])
  | Some limits => Some (limits, [])
  end.

(** The sandboxes' deployment ([ensureSandboxDeployment]). *)
Definition sandbox_deployment (quantity_ok : string -> bool) (o : OwnerRM) : option Deployment :=
  match buildSandboxResourceRequirements quantity_ok o with
  | None => None
  | Some (limits, requests) =>
      Some {| d_Name := or_sandboxDeployName o; d_Namespace := or_namespace o; d_Labels := sandboxLabels o;
              d_Replicas := i32 (or_sandboxMin o);
              d_Template :=
                {| pt_ServiceAccount := ""; pt_Image := or_sandboxImage o;
                   pt_Command := ["/app/flowgent"; "sandbox"; "start"]; pt_Args := [];
                   pt_EnvFrom := credentialEnvFrom (or_credentialEnvSecret o);
                   pt_Env := [("FLOWGENT__CONFIG__FILE", EnvLiteral "/etc/flowgent/flowgent.yaml");
                              ("FLOWGENT__MESSAGER__MQTT__BROKER", EnvLiteral (or_mqttBroker o));
                              ("FLOWGENT__SANDBOX__WORKSPACE", EnvLiteral (or_workspace o));
                              ("FLOWGENT__SANDBOX__DEPLOYMENT__SLOTS_PER_POD", EnvLiteral (Itoa (or_sandboxSlots o)));
                              ("FLOWGENT__RUNTIME__NAMESPACE__DEFAULT_NAMESPACE", EnvLiteral (or_ownerNamespaceID o));
                              ("FLOWGENT__RUNTIME__AGENT_FLOW_ID", EnvLiteral (or_ownerFlowID o));
                              ("POD_NAME", EnvField "metadata.name")];
                   pt_ConfigMap := "flowgent-config"; pt_Workspace := Some (or_hostWorkspace o, or_workspace o);
                   pt_Seccomp := true; pt_Limits := limits; pt_Requests := requests |} |}
  end.

(** ** The settings of a pod *)

(** A value the deployment sets in its environment. *)
Fixpoint env_literal (env : list (string * EnvValue)) (name : string) : option string :=
  match env with
  | [] => None
  | (k, v) :: rest =>
      if String.eqb k name then match v with EnvLiteral s => Some s | EnvField _ => None end
      else env_literal rest name
  end.

(** The environment comes before the file. *)
Definition env_or (d : Deployment) (name file : string) : string :=
  match env_literal (pt_Env (d_Template d)) name with Some v => v | None => file end.

(** The settings in a pod of a job manager's deployment, over those of the
    mounted file. *)
Definition pod_settings (d : Deployment) (file : JMSettings) : JMSettings :=
  {| js_AgentFlowID := env_or d "FLOWGENT__RUNTIME__AGENT_FLOW_ID" (js_AgentFlowID file);
     js_DefaultNamespace := env_or d "FLOWGENT__RUNTIME__NAMESPACE__DEFAULT_NAMESPACE" (js_DefaultNamespace file);
     js_K8sNamespace := env_or d "FLOWGENT__RUNTIME__K8S_NAMESPACE" (js_K8sNamespace file);
     js_TMDeploy := env_or d "FLOWGENT__RUNTIME__TM_DEPLOY" (js_TMDeploy file);
     js_TMSlots := js_TMSlots file; js_TMImage := js_TMImage file; js_JMImage := js_JMImage file;
     js_APIServerURL := env_or d "FLOWGENT__RUNTIME__API_SERVER_URL" (js_APIServerURL file);
     js_CredentialEnvSecret := js_CredentialEnvSecret file;
     js_MQTTBroker := env_or d "FLOWGENT__MESSAGER__MQTT__BROKER" (js_MQTTBroker file);
     js_Postgres := js_Postgres file; js_SandboxWorkspace := js_SandboxWorkspace file;
     js_SandboxHostWorkspace := js_SandboxHostWorkspace file; js_SandboxEnabled := js_SandboxEnabled file;
     js_SandboxImage := js_SandboxImage file; js_SandboxMinReplicas := js_SandboxMinReplicas file;
     js_SandboxMaxReplicas := js_SandboxMaxReplicas file; js_SandboxSlotsPerPod := js_SandboxSlotsPerPod file;
     js_SandboxResources := js_SandboxResources file; js_LockProvider := js_LockProvider file;
     js_FlowExecutionTimeout := js_FlowExecutionTimeout file; js_MaxNodeRetries := js_MaxNodeRetries file;
     js_MaxConcurrentFlows := js_MaxConcurrentFlows file |}.

(** What the poller of a job manager asks the API server for: the status, the
    namespace it runs in, its flow. *)
Definition poll_query (podNamespace : string) (s : JMSettings) : RunQuery :=
  {| rq_page := "1"; rq_size := "50"; rq_status := "PENDING"; rq_k8s := runtimeNamespace podNamespace s;
     rq_flow := js_AgentFlowID s |}.

(** ** The API server, as its clients see it *)

(** The answers to [ListFlows], [ListRuns] and [GetFlow] of
    [pkg/core/pkg/client/flowgent_client.go]: a failure is an error, but 404
    to [GetFlow] is none; the handlers' other answers are below 300. *)
Definition of_reply {B} (name : string) (r : reply B) : res B :=
  match r with
  | Fail code msg => Err (name +:+ ": apiserver returned " +:+ Itoa code +:+ ": " +:+ msg +:+ newline)
  | Reply code b => Ok b
  end.

Definition list_runs_query (status k8s flowID : string) (page size : Z) : RunQuery :=
  {| rq_page := if 0 <? page then Itoa page else ""; rq_size := if 0 <? size then Itoa size else "";
     rq_status := status; rq_k8s := k8s; rq_flow := flowID |}.

Definition ListRuns (db_err : string -> option string) (tbl : list RunRow) (status k8s flowID : string) (page size : Z)
    : res (list FlowRunInfo) :=
  let? body := of_reply "ListRuns" (Runs_List db_err (list_runs_query status k8s flowID page size) tbl) in
  Ok (map rr_run body.1).

Definition ListFlows (db_err : string -> option string) (h : FlowAPI) : res (list FlowVersionInfo) :=
  of_reply "ListFlows" (Flows_List db_err h).

Definition GetFlow (db_err : string -> option string) (h : FlowAPI) (flowID : string) : res (option FlowInfo) :=
  match (Flows_Get db_err flowID h).1 with
  | Fail code msg => if code =? 404 then Ok None else Err ("GetFlow " +:+ Itoa code +:+ ": " +:+ msg +:+ newline)
  | Reply code s => Ok (Some s)
  end.

(** A tick that sees one state of the API server ([collectActiveRunFlows] asks
    for a hundred runs). *)
Definition api_view (db_err : string -> option string) (h : FlowAPI) : ApiView :=
  {| list_flows := ListFlows db_err h;
     list_runs := fun status flowID => ListRuns db_err (fa_runs h) status "" flowID 1 100;
     get_flow := GetFlow db_err h |}.
