(* ===== verification/RuntimeFacts.v ===== *)
(** * From a trigger to a job manager that serves it

    The deployments of a job manager are found again by the controller; a
    run that a trigger creates gets a job manager in the namespace it asks
    for; and what stands in the way when it does not. *)

From S2P Require Export Runtime ControllerFacts FlowsFacts ApiRunsFacts.

Local Open Scope string_scope.
Local Open Scope list_scope.
Local Open Scope Z_scope.

(** ** Names *)

Lemma eqb_nonempty (s : string) : s <> "" -> String.eqb s "" = false.
Proof. apply String.eqb_neq. Qed.

Lemma dispatchNamespace_nonempty c spec : dispatchNamespace c spec <> "".
Proof.
  unfold dispatchNamespace. destruct (String.eqb_spec (f_Namespace spec) ""); cbn [negb]; [|done].
  by destruct (String.eqb_spec (c_namespace c) "").
Qed.

Lemma controller_prefix_nonempty p : controller_prefix p <> "".
Proof. unfold controller_prefix. by destruct (String.eqb_spec p ""). Qed.

Lemma controller_namespace_nonempty c spec : controller_applicationNamespace c spec <> "".
Proof.
  unfold controller_applicationNamespace. destruct (String.eqb_spec (f_K8sNamespace spec) ""); cbn [negb]; [|done].
  pose proof (controller_prefix_nonempty (rt_NamespacePrefix (c_cfg c))). by destruct (controller_prefix _).
Qed.

Lemma or_default_nonempty s : s <> "" -> or_default_ns s = s.
Proof. intros H. unfold or_default_ns. by rewrite eqb_nonempty. Qed.

(** The server and the controller agree on names when configured alike. *)
Definition same_config (h : FlowAPI) (c : Controller) : Prop :=
  fa_namespacePrefix h = controller_prefix (rt_NamespacePrefix (c_cfg c)) /\
  fa_defaultNamespace h = or_default_ns (c_namespace c).

Lemma namespaces_agree h c spec :
  same_config h c -> applicationNamespace h spec = controller_applicationNamespace c spec.
Proof.
  intros [Ep Ed]. unfold applicationNamespace, controller_applicationNamespace, dispatchNamespace.
  destruct (String.eqb (f_K8sNamespace spec) ""); cbn [negb]; [|done]. rewrite Ep, Ed. f_equal.
  destruct (String.eqb_spec (f_Namespace spec) ""); cbn [negb]; [|done]. unfold or_default_ns.
  by destruct (String.eqb (c_namespace c) "").
Qed.

(** ** The deployments of a job manager *)

Section Owner.
Context (c : Controller) (spec : FlowInfo) (file : JMSettings).
Context (Hid : f_ID spec <> "").

Let jm := jm_of c spec.
Let settings := pod_settings jm file.
Let o := start_rm (d_Namespace jm) settings.

Lemma settings_fields :
  js_AgentFlowID settings = f_ID spec /\ js_DefaultNamespace settings = dispatchNamespace c spec /\
  js_K8sNamespace settings = d_Namespace jm /\
  js_TMDeploy settings = tmDeploymentName (dispatchNamespace c spec) (f_ID spec).
Proof. by split_and!. Qed.

Lemma owner_fields :
  or_ownerNamespaceID o = dispatchNamespace c spec /\ or_ownerFlowID o = f_ID spec /\
  or_ownerJobManagerName o = d_Name jm /\ or_ownerJobManagerNamespace o = d_Namespace jm /\
  or_namespace o = d_Namespace jm /\ or_deployName o = tmDeploymentName (dispatchNamespace c spec) (f_ID spec) /\
  or_sandboxDeployName o = sandboxDeploymentName (dispatchNamespace c spec) (f_ID spec).
Proof.
  pose proof (dispatchNamespace_nonempty c spec) as Hd. pose proof (controller_namespace_nonempty c spec) as Hn.
  destruct settings_fields as (Ef & Ed & Ek & Et).
  assert (jm_namespace settings = dispatchNamespace c spec) as Ej
    by (unfold jm_namespace; rewrite Ed; by apply or_default_nonempty).
  assert (runtimeNamespace (d_Namespace jm) settings = d_Namespace jm) as Er
    by (unfold runtimeNamespace; rewrite eqb_nonempty; [done|exact Hn]).
  unfold o, start_rm. cbn [or_ownerNamespaceID or_ownerFlowID or_ownerJobManagerName or_ownerJobManagerNamespace
    or_namespace or_deployName or_sandboxDeployName].
  rewrite Ej, Er, Ef. split_and!; try done.
  - unfold jobManagerDeploymentName. rewrite (eqb_nonempty _ Hid), (or_default_nonempty _ Hd). done.
  - unfold tm_deploy. rewrite Et, Ef, (eqb_nonempty _ Hid). cbn [negb andb].
    unfold tmDeploymentName. rewrite (or_default_nonempty _ Hd).
    set (name := "flowgent-taskmanager-" +:+ dispatchNamespace c spec +:+ "-" +:+ f_ID spec).
    assert (String.eqb name "" = false) as -> by done.
    assert (String.eqb name "flowgent-taskmanager" = false) as ->; [|done].
    apply String.eqb_neq. intros E%(f_equal String.length). cbn in E. lia.
  - unfold cmd_sandboxDeploymentName, sandboxDeploymentName. by rewrite (eqb_nonempty _ Hid).
Qed.

Lemma owner_labels_found base :
  forall d, d_Labels d = owner_labels o base ->
  label d LabelManagedBy = LabelValueJobManager /\ label d LabelFlowID = f_ID spec /\
  label d LabelNamespaceID = dispatchNamespace c spec /\ label d LabelParentJobManager = d_Name jm /\
  label d LabelParentJobManagerNamespace = d_Namespace jm.
Proof.
  intros d El. pose proof (dispatchNamespace_nonempty c spec) as Hd.
  destruct owner_fields as (E1 & E2 & E3 & E4 & _).
  unfold label. rewrite El. unfold owner_labels. rewrite E1, E2, E3, E4.
  rewrite (eqb_nonempty _ Hid), (or_default_nonempty _ Hd).
  assert (String.eqb (d_Name jm) "" = false) as -> by done.
  assert (String.eqb (d_Namespace jm) "" = false) as -> by apply eqb_nonempty, controller_namespace_nonempty.
  split_and!; repeat first [rewrite lookup_insert_eq; reflexivity|rewrite lookup_insert_ne by done].
Qed.
End Owner.

Lemma label_lookup d k v : v <> "" -> label d k = v -> d_Labels d !! k = Some v.
Proof. unfold label. intros Hv. destruct (d_Labels d !! k); [by intros ->|by intros <-]. Qed.

(** A deployment a job manager owns: the controller takes it for a child of
    that job manager's deployment, and looks for its parent where that is. *)
Definition owned_by (jm d : Deployment) : Prop :=
  child_of jm d /\ label d LabelFlowID = label jm LabelFlowID /\
  (label d LabelParentJobManagerNamespace, label d LabelParentJobManager) = dep_id jm /\
  d_Namespace d = d_Namespace jm.

Lemma owned_by_labels (jm d : Deployment) nid flowID :
  flowID <> "" -> label jm LabelNamespaceID = nid -> label jm LabelFlowID = flowID ->
  label d LabelManagedBy = LabelValueJobManager /\ label d LabelFlowID = flowID /\ label d LabelNamespaceID = nid /\
  label d LabelParentJobManager = d_Name jm /\ label d LabelParentJobManagerNamespace = d_Namespace jm ->
  d_Namespace d = d_Namespace jm -> owned_by jm d.
Proof.
  intros Hf En Ef (L1 & L2 & L3 & L4 & L5) Hn. unfold owned_by, child_of, runtime_of, dep_id.
  rewrite En, Ef, L3, L4, L5, !String.eqb_refl, !andb_false_r. split_and!; try done. cbn.
  rewrite !(bool_decide_eq_true_2 _); [done| |].
  - by apply label_lookup.
  - by apply label_lookup.
Qed.

(** The deployments of the task managers and the sandboxes of a job manager
    that the controller deployed for a flow -- with the settings its pod reads
    from its environment over any configuration file -- are those the
    controller expects: they bear the names in the flow's namespace, the
    controller takes them for children of that job manager, so they go with it
    and stay while it is there; and that job manager polls its own namespace
    for its own flow. *)
Theorem runtime_recognised c spec file quantity_ok :
  f_ID spec <> "" ->
  let jm := jm_of c spec in
  let settings := pod_settings jm file in
  let o := start_rm (d_Namespace jm) settings in
  let nid := dispatchNamespace c spec in
  let ns := controller_applicationNamespace c spec in
  (owned_by jm (tm_deployment o) /\ dep_id (tm_deployment o) = (ns, tmDeploymentName nid (f_ID spec))) /\
  (forall d, sandbox_deployment quantity_ok o = Some d ->
     owned_by jm d /\ dep_id d = (ns, sandboxDeploymentName nid (f_ID spec))) /\
  rq_k8s (poll_query (d_Namespace jm) settings) = ns /\ rq_flow (poll_query (d_Namespace jm) settings) = f_ID spec.
Proof.
  intros Hid jm settings o nid ns.
  destruct (owner_fields c spec file Hid) as (_ & _ & _ & _ & En & Et & Es). fold jm settings o in En, Et, Es.
  split_and!.
  - apply (owned_by_labels jm _ nid (f_ID spec)); try done.
    apply (owner_labels_found c spec file Hid (list_to_map [("app.kubernetes.io/component", "taskmanager"); ("flowgent/role", "worker")]));
      done.
  - unfold dep_id, tm_deployment. cbn [d_Namespace d_Name]. by rewrite En, Et.
  - unfold sandbox_deployment. destruct (buildSandboxResourceRequirements _ _) as [[lim req]|]; [|done].
    intros d Ed.
    assert (d_Namespace d = or_namespace o /\ d_Name d = or_sandboxDeployName o /\ d_Labels d = sandboxLabels o)
      as (Dn & Dm & Dl) by (injection Ed as <-; done).
    split; [|unfold dep_id; by rewrite Dn, Dm, En, Es].
    apply (owned_by_labels jm _ nid (f_ID spec)); try done; [|by rewrite Dn].
    by apply (owner_labels_found c spec file Hid
      (list_to_map [("app.kubernetes.io/component", "sandbox"); ("flowgent/role", "sandbox-worker")])).
  - unfold poll_query, runtimeNamespace. cbn [rq_k8s].
    rewrite eqb_nonempty; [done|]. apply controller_namespace_nonempty.
  - done.
Qed.

(** ** What a tick sees of a server *)

Lemma first_page {T} `{Row T} (tbl : list T) size :
  1 <= size -> Z.of_nat (length (live_rows tbl)) <= size ->
  pg_Items (store_Select {| pg_Page := 1; pg_Size := size |} tbl) = live_rows tbl.
Proof.
  intros Hs Hl. unfold store_Select, norm_page, NewPage. cbn [pg_Items pg_Page pg_Size].
  destruct (Z.ltb_spec size 1); [lia|]. cbn [Z.ltb Z.compare]. unfold page_items.
  replace (i64 ((1 - 1) * size)) with 0 by (by rewrite Z.sub_diag, Z.mul_0_l).
  cbn [Z.to_nat drop]. apply take_ge. lia.
Qed.

Lemma see_flow_mono seen v k s : seen !! k = Some s -> see_flow seen v !! k = Some s.
Proof.
  intros Hk. unfold see_flow. destruct (seen !! fv_FlowID v) eqn:E; [done|].
  destruct (fv_Definition v); [|done]. destruct (String.eqb _ _); [done|]. destruct (EqualFold _ _); [done|].
  rewrite lookup_insert_ne; [done|]. intros <-. congruence.
Qed.

(** A flow is seen when some listed version of it can be used; what is seen is
    a listed version. *)
Lemma seen_flows_spec versions :
  (forall v s, v ∈ versions -> fv_Definition v = Some s -> f_ID s <> "" -> EqualFold (f_Kind s) "skill" = false ->
     is_Some (seen_flows versions !! fv_FlowID v)) /\
  (forall k s, seen_flows versions !! k = Some s ->
     exists v, v ∈ versions /\ fv_FlowID v = k /\ fv_Definition v = Some s /\ EqualFold (f_Kind s) "skill" = false).
Proof.
  unfold seen_flows. induction versions as [|v versions [IH1 IH2]] using rev_ind.
  { cbn [fold_left]. split; [by intros v s ?%not_elem_of_nil|by intros k s ?%lookup_empty_Some]. }
  rewrite fold_left_app. cbn [fold_left]. set (seen := fold_left see_flow versions ∅) in *. split.
  - intros w s Hw Ed Hid Hk. apply elem_of_app in Hw as [Hw|Hw].
    + destruct (IH1 w s Hw Ed Hid Hk) as [s' Hs']. exists s'. by apply see_flow_mono.
    + apply list_elem_of_singleton in Hw as ->. unfold see_flow.
      destruct (seen !! fv_FlowID v) as [s'|] eqn:E; [by rewrite E; eexists|].
      rewrite Ed, (eqb_nonempty _ Hid), Hk, lookup_insert_eq. by eexists.
  - intros k s Hk.
    assert (seen !! k = Some s \/ fv_FlowID v = k /\ fv_Definition v = Some s /\ EqualFold (f_Kind s) "skill" = false) as [H|H].
    { revert Hk. unfold see_flow. destruct (seen !! fv_FlowID v) eqn:E; [auto|].
      destruct (fv_Definition v) as [s0|] eqn:Ed; [|auto]. destruct (String.eqb _ _); [auto|].
      destruct (EqualFold (f_Kind s0) "skill") eqn:Ek; [auto|].
      destruct (decide (fv_FlowID v = k)) as [Ek'|?]; [|rewrite lookup_insert_ne by done; auto].
      rewrite Ek', lookup_insert_eq. intros [= <-]. auto. }
    + destruct (IH2 k s H) as (w & Hw & ?). exists w. split; [by apply elem_of_app; left|done].
    + exists v. split; [by apply elem_of_app; right; apply list_elem_of_singleton|tauto].
Qed.

Section Served.
Context (h : FlowAPI) (Hok : flows_ok h).
Context (Hflows : (length (live_rows (fa_defs h)) <= 1000)%nat).

Lemma list_flows_eq :
  list_flows (api_view no_error h) =
  Ok (List.filter (fun item => match fv_Definition item with
                               | Some spec => negb (EqualFold (f_Kind spec) "skill")
                               | None => true
                               end) (live_rows (fa_defs h))).
Proof.
  cbn -[store_Select]. unfold ListFlows, Flows_List, of_reply, no_error. cbn -[store_Select].
  by rewrite first_page by lia.
Qed.

Definition listed : list FlowVersionInfo :=
  List.filter (fun item => match fv_Definition item with
                           | Some spec => negb (EqualFold (f_Kind spec) "skill")
                           | None => true
                           end) (live_rows (fa_defs h)).

Lemma seen_is_stored k s : seen_flows listed !! k = Some s -> GetSpec k (fa_defs h) = Some s.
Proof.
  intros (v & Hv & <- & Ed & _)%(proj2 (seen_flows_spec listed)).
  unfold listed in Hv. apply list_elem_of_In, filter_In in Hv as [[Hv Hdel]%list_elem_of_In%live_rows_elem _].
  by apply row_GetSpec; [apply Hok|..].
Qed.

Lemma stored_is_seen af spec :
  GetSpec af (fa_defs h) = Some spec -> af <> "" -> EqualFold (f_Kind spec) "skill" = false ->
  seen_flows listed !! af = Some spec.
Proof.
  intros Hg Haf Hk. pose proof (GetSpec_ID _ _ _ (proj1 Hok) Hg) as Hid.
  destruct (GetSpec_row _ _ _ (proj1 Hok) Hg) as (v & Hv & Ef & Hdel & Ed).
  destruct (proj1 (seen_flows_spec listed) v spec) as [s' Hs']; try done; [|by rewrite Hid|].
  - unfold listed. apply list_elem_of_In, filter_In. rewrite Ed, Hk. split; [|done].
    apply list_elem_of_In, live_rows_elem. done.
  - rewrite Ef in Hs'. rewrite Hs'. apply seen_is_stored in Hs'. congruence.
Qed.

(** Runs, while they fit the page that is asked for. *)
Lemma ListRuns_eq status k8s flow size :
  1 <= size <= 100 -> Z.of_nat (length (live_rows (fa_runs h))) <= size ->
  query_int (Itoa size) = size ->
  ListRuns no_error (fa_runs h) status k8s flow 1 size =
  Ok (map rr_run (filterRuns (live_rows (fa_runs h)) status k8s flow)).
Proof.
  clear Hok Hflows.
  intros Hs Hl Hq. unfold ListRuns, Runs_List, list_runs_query, of_reply, db, no_error. cbn [rq_page rq_size rq_status rq_k8s rq_flow].
  destruct (Z.ltb_spec 0 size); [|lia]. change (if 0 <? 1 then Itoa 1 else "") with "1".
  change (query_int "1") with 1. rewrite Hq. cbn [Z.leb Z.compare]. destruct (Z.leb_spec size 0); [lia|].
  cbn [res_bind fst]. by rewrite first_page by lia.
Qed.

End Served.

(** ** Keeping the names apart *)

Section Apart.
Context (c : Controller) (stored : string -> option FlowInfo).
Context (Hstored : forall k s, stored k = Some s -> f_ID s = k /\ f_K8sNamespace s = "").

(** Without namespaces of their own, two flows never share a job manager's
    name in one namespace. *)
Lemma jm_ids_apart k s k' s' :
  stored k = Some s -> stored k' = Some s' -> dep_id (jm_of c s) = dep_id (jm_of c s') -> k = k'.
Proof.
  intros [Ek Hn]%Hstored [Ek' Hn']%Hstored E. unfold dep_id, jm_of, buildJMDeployment in E. cbn [d_Namespace d_Name] in E.
  injection E as E1 E2.
  unfold controller_applicationNamespace in E1. rewrite Hn, Hn' in E1. cbn [String.eqb negb] in E1.
  apply append_inj_l in E1. rewrite E1 in E2. apply append_inj_l in E2. congruence.
Qed.

(** A deployment of a job manager's name is of that flow, and nobody's
    child. *)
Definition named_right (l : list Deployment) : Prop :=
  forall d k s, d ∈ l -> stored k = Some s -> dep_id d = dep_id (jm_of c s) ->
    label d LabelFlowID = k /\ label d LabelManagedBy <> LabelValueJobManager.

Lemma jm_of_labels s : label (jm_of c s) LabelFlowID = f_ID s /\ label (jm_of c s) LabelManagedBy = "".
Proof. by split. Qed.
End Apart.

(** ** A triggered run is served *)

Section EndToEnd.
Context `{RangeOrder} `{KubeFaults} (Hnf : forall n, kube_fault n = None).
Context (cron_ok : string -> bool) (c : Controller) (peers : list Peer) (now : Z).
Context (h : FlowAPI) (Hok : flows_ok h).
Context (Hplain : forall k s, GetSpec k (fa_defs h) = Some s -> f_K8sNamespace s = "").

Let stored k := GetSpec k (fa_defs h).

Lemma stored_ok k s : stored k = Some s -> f_ID s = k /\ f_K8sNamespace s = "".
Proof. intros Hs. split; [by eapply GetSpec_ID; [apply Hok|]|by eapply Hplain]. Qed.

Lemma infra_named cl s k :
  stored k = Some s -> named_right c stored (deps cl) -> named_right c stored (deps (ensureApplicationInfra c s cl)).
Proof.
  intros Hs Hn d k' s' Hd Hs' Hid.
  assert (d ∈ deps cl \/ d = jm_of c s) as [Hd' | -> ].
  { revert Hd. unfold ensureApplicationInfra. destruct (negb (c_inCluster c)); [auto|].
    pose proof (namespace_deps Hnf c (controller_applicationNamespace c s) (dispatchNamespace c s) cl) as E0.
    destruct (ensure_namespace _ _ _ cl) as [ok cl1]. cbn [snd] in E0. destruct (negb ok); [rewrite E0; auto|].
    rewrite <- E0, <- (configmap_deps Hnf c (controller_applicationNamespace c s) (dispatchNamespace c s) cl1).
    rewrite <- (rbac_deps Hnf (controller_applicationNamespace c s) (dispatchNamespace c s)
                  (ensureApplicationConfigMap c (controller_applicationNamespace c s) (dispatchNamespace c s) cl1)).
    generalize (ensureRuntimeRBAC (controller_applicationNamespace c s) (dispatchNamespace c s)
                  (ensureApplicationConfigMap c (controller_applicationNamespace c s) (dispatchNamespace c s) cl1)) as cl2.
    intros cl2. change (buildJMDeployment _ _ _ _ _) with (jm_of c s). unfold dep_create. rewrite Hnf.
    destruct (existsb _ _); [auto|]. destruct (negb _); [auto|]. cbn [snd kc_deps tick with_deps].
    intros [Hd|Hd%list_elem_of_singleton]%elem_of_app; auto. }
  - by apply (Hn d k' s').
  - destruct (jm_of_labels c s) as [-> ->].
    assert (k = k') as <- by (by eapply (jm_ids_apart c stored stored_ok)).
    split; [|done]. by destruct (stored_ok _ _ Hs).
Qed.

Lemma infra_has cl s k :
  c_inCluster c = true -> stored k = Some s -> named_right c stored (deps cl) ->
  exists d, d ∈ deps (ensureApplicationInfra c s cl) /\ dep_id d = dep_id (jm_of c s).
Proof.
  intros Hin Hs Hn. unfold ensureApplicationInfra. rewrite Hin. cbn [negb].
  set (ns := controller_applicationNamespace c s). set (nid := dispatchNamespace c s).
  destruct (ensure_namespace_there Hnf c ns nid cl) as [E1 E2].
  destruct (ensure_namespace c ns nid cl) as [ok cl1]. cbn [fst snd] in *. subst ok. cbn [negb].
  pose proof (grows_configmap c ns nid cl1) as G1. pose proof (grows_rbac ns nid (ensureApplicationConfigMap c ns nid cl1)) as G2.
  destruct (dep_create_there Hnf (jm_of c s) (ensureRuntimeRBAC ns nid (ensureApplicationConfigMap c ns nid cl1)))
    as (d & Hd & Hid & _); [|by exists d].
  change (d_Namespace (jm_of c s)) with ns. eapply grows_ns; [exact G2|]. by eapply grows_ns.
Qed.

(** The fold over the owned flows. *)
Lemma dispatch_has (sel : string * FlowInfo -> bool) af spec kvs :
  c_inCluster c = true -> sel (af, spec) = true ->
  (forall k s, (k, s) ∈ kvs -> stored k = Some s) ->
  forall cl, named_right c stored (deps cl) ->
  let cl' := fold_left (fun cl kv => if sel kv then ensureApplicationInfra c kv.2 cl else cl) kvs cl in
  named_right c stored (deps cl') /\
  ((af, spec) ∈ kvs -> exists d, d ∈ deps cl' /\ dep_id d = dep_id (jm_of c spec)).
Proof.
  intros Hin Hsel. induction kvs as [|[k s] kvs IH]; intros Hkvs cl Hn; cbn [fold_left].
  { split; [done|by intros ?%not_elem_of_nil]. }
  assert (stored k = Some s) as Hs by (apply Hkvs, elem_of_cons; by left).
  assert (forall k' s', (k', s') ∈ kvs -> stored k' = Some s') as Hkvs' by (intros; apply Hkvs, elem_of_cons; by right).
  set (cl1 := if sel (k, s) then _ else cl).
  assert (named_right c stored (deps cl1)) as Hn1 by (unfold cl1; destruct (sel (k, s)); [by eapply infra_named|done]).
  destruct (IH Hkvs' cl1 Hn1) as [Hn2 Hd]. split; [done|].
  intros [[= <- <-]|Hmem]%elem_of_cons; [|by apply Hd].
  destruct (infra_has cl spec af Hin Hs Hn) as (d & Hd1 & Hid). exists d. split; [|done].
  apply (proj1 (grows_fold c sel kvs cl1)). unfold cl1. by rewrite Hsel.
Qed.

(** With a view in which no call fails the snapshot is complete. *)
Lemma snapshot_complete view versions :
  (forall st f, exists rs, list_runs view st f = Ok rs) -> sn_ok (snapshot c (Ok peers) view versions) = true.
Proof.
  intros Hv. unfold snapshot. cbn [getPeers].
  assert (forall f, flow_active view active_statuses f <> None) as Hf.
  { intros f. generalize active_statuses as l. induction l as [|st l IH]; cbn [flow_active]; [done|].
    destruct (Hv st f) as [[|r rs] ->]; [done|done]. }
  assert (forall kvs active, (collect_active c peers view kvs active).2 = true) as Hc.
  { induction kvs as [|[k s] kvs IH]; intros active; cbn [collect_active]; [done|].
    destruct (negb (owns c peers k)); [done|]. specialize (Hf k).
    by destruct (flow_active view active_statuses k) as [[|]|]. }
  unfold collectActiveRunFlows. specialize (Hc (range_of (seen_flows versions)) ∅).
  destruct (collect_active c peers view _ ∅) as [active ok]. done.
Qed.

(** A tick over a server in which a flow has an active run. *)
Lemma tick_keeps_jm view versions af spec cl :
  c_inCluster c = true -> list_flows view = Ok versions ->
  (forall k s, seen_flows versions !! k = Some s -> stored k = Some s) ->
  seen_flows versions !! af = Some spec -> owns c peers af = true ->
  (forall st f, exists rs, list_runs view st f = Ok rs) -> flow_active view active_statuses af = Some true ->
  unique_deps (deps cl) -> named_right c stored (deps cl) ->
  exists d, d ∈ deps (reconcile cron_ok (Ok peers) view now c cl).2 /\ dep_id d = dep_id (jm_of c spec) /\
    label d LabelFlowID = af.
Proof.
  intros Hin Hl Hseen Haf Ho Hv Ha Hu Hn. unfold reconcile. rewrite Hl.
  pose proof (snapshot_spec c (Ok peers) view versions) as (Eseen & _ & Hact). cbn zeta in Eseen, Hact.
  pose proof (snapshot_complete view versions Hv) as Hsnok.
  assert (sn_peers (snapshot c (Ok peers) view versions) = peers) as Ep
    by (unfold snapshot; cbn [getPeers]; by destruct (collectActiveRunFlows _ _ _ _)).
  set (sn := snapshot c (Ok peers) view versions) in *.
  assert (af ∈ sn_active sn) as Hin_active by (apply Hact; rewrite ?Eseen, ?Haf, ?Ep; by eauto).
  assert (jm_gc_reason sn af = None) as Hnone
    by (unfold jm_gc_reason; rewrite Eseen, Haf, Hsnok, bool_decide_eq_true_2; done).
  destruct (dispatch_has (fun kv => sn_ok sn && bool_decide (kv.1 ∈ sn_active sn)) af spec (owned c sn) Hin) with (cl := cl)
    as [Hn1 (d & Hd & Hid)]; try done.
  - cbn. by rewrite Hsnok, bool_decide_eq_true_2.
  - intros k s [Hks%list_elem_of_In%range_of_elem _]%list_elem_of_In%filter_In. apply Hseen. by rewrite <- Eseen.
  - apply list_elem_of_In, filter_In. cbn [fst]. rewrite Ep. split; [|done].
    apply list_elem_of_In, range_of_elem. by rewrite Eseen.
  - fold (dispatch_active c sn cl) in Hn1, Hd. set (cl1 := dispatch_active c sn cl) in *.
    pose proof (grows_dispatch c sn cl) as (_ & Hgu & _). fold cl1 in Hgu.
    destruct (Hn1 d af spec Hd (Hseen _ _ Haf) Hid) as [Hlab Hman].
    set (c1 := with_cron _ c). change (c_firstSeen c1) with (c_firstSeen c).
    pose proof (gc_only_gone c1 sn now (c_firstSeen c) cl1 (Hgu Hu)) as [_ Hgone]. cbn zeta in Hgone.
    destruct (gcOrphanedRuntimeDeployments c1 sn now _) as [m2 cl2]. cbn [snd] in *.
    destruct (Hgone d Hd) as [Hkept|Hc]; [by exists d|]. exfalso.
    assert (forall x m, label x LabelFlowID = af -> ~ doomed c1 sn now m x) as Hsafe.
    { intros x m Hx (_ & _ & _ & Hr). rewrite Hx, Hnone in Hr. by destruct Hr as [?|[? _]]. }
    destruct Hc as [d Hdoom|d jd Hj Hdoom [Hsel _]|d (Hsel & _)].
    + by eapply Hsafe.
    + cbn in Hsel. rewrite andb_true_r in Hsel. apply andb_true_iff in Hsel as [Hsel%bool_decide_eq_true _].
      apply Hman. unfold label. by rewrite Hsel.
    + cbn in Hsel. rewrite andb_true_r in Hsel. apply bool_decide_eq_true in Hsel.
      apply Hman. unfold label. by rewrite Hsel.
Qed.

End EndToEnd.


(** ** Concrete instances *)

Definition demo_cfg : RuntimeConfig :=
  {| rt_JMImage := "flowgent:1"; rt_CredentialEnvSecret := ""; rt_SystemNamespace := "flowgent-system"; rt_K8sNamespace := "";
     rt_JMConfigMap := ""; rt_APIServerURL := "http://api:9999"; rt_TMOrphanTimeout := ""; rt_ControllerLabel := "";
     rt_NamespacePrefix := ""; rt_MQTTBroker := "tcp://mqtt:1883" |}.
Definition demo_ctrl : Controller :=
  NewFlowgentController (fun _ => None) "default" demo_cfg
    {| pe_Name := "ctrl-0"; pe_Namespace := ""; pe_PodIP := ""; pe_Ready := true; pe_Since := 0 |} "flowgent-system" true.
Definition demo_cluster : KCluster :=
  {| kc_objs := {[ ns_key "flowgent-system" := app_object "" PNone;
                   ("ConfigMap", "flowgent-system", "flowgent-config") := app_object "" (PData {["flowgent.yaml" := "server: {}"]}) ]};
     kc_deps := []; kc_calls := 0 |}.
Definition demo_settings : JMSettings :=
  {| js_AgentFlowID := ""; js_DefaultNamespace := ""; js_K8sNamespace := ""; js_TMDeploy := ""; js_TMSlots := 0; js_TMImage := "";
     js_JMImage := "flowgent:1"; js_APIServerURL := ""; js_CredentialEnvSecret := ""; js_MQTTBroker := "";
     js_Postgres := {| pg_Dsn := ""; pg_Host := "db"; pg_Port := 0; pg_Username := "u"; pg_Password := "p"; pg_Database := "d";
                       pg_UseSSL := false |};
     js_SandboxWorkspace := "/workspace"; js_SandboxHostWorkspace := ""; js_SandboxEnabled := true; js_SandboxImage := "";
     js_SandboxMinReplicas := 0; js_SandboxMaxReplicas := 0; js_SandboxSlotsPerPod := 0; js_SandboxResources := None;
     js_LockProvider := ""; js_FlowExecutionTimeout := ""; js_MaxNodeRetries := 0; js_MaxConcurrentFlows := 0 |}.

Definition demo_build : FlowInfo := demo_spec "build" "acme" [demo_hook].

Lemma runtime_recognised_witness :
  owned_by (jm_of demo_ctrl demo_build)
    (tm_deployment (start_rm (d_Namespace (jm_of demo_ctrl demo_build)) (pod_settings (jm_of demo_ctrl demo_build) demo_settings))).
Proof.
  destruct (runtime_recognised demo_ctrl demo_build demo_settings (fun _ => true)) as [[H _] _]; [discriminate|exact H].
Defined.

Lemma infra_ready_witness :
  is_Some (kc_objs (ensureApplicationInfra (H := no_faults) demo_ctrl demo_build demo_cluster)
             !! ("ConfigMap", "flowgent-acme", "flowgent-config")).
Proof.
  destruct (infra_ready (H := no_faults) (fun _ => eq_refl) demo_ctrl demo_build demo_cluster eq_refl)
    as (_ & _ & _ & _ & Hcm & _).
  apply Hcm. eexists. vm_compute. reflexivity.
Defined.

(** A cluster with the job manager of the flow [build]. *)
Definition demo_jm : Deployment := jm_of demo_ctrl demo_build.
Definition demo_with_jm : KCluster := with_deps [demo_jm] demo_cluster.

Definition idle_view : ApiView :=
  {| list_flows := Ok demo_defs; list_runs := fun _ _ => Ok []; get_flow := fun _ => Ok None |}.
Definition failing_view : ApiView :=
  {| list_flows := Ok demo_defs; list_runs := fun _ _ => Err "timeout"; get_flow := fun _ => Ok None |}.

Lemma demo_unique : unique_deps [demo_jm].
Proof. intros d d' ->%list_elem_of_singleton ->%list_elem_of_singleton _. reflexivity. Qed.


Lemma idle_jm_collected_witness :
  let sn := snapshot (H := canonical_order) demo_ctrl (Ok []) idle_view demo_defs in
  let st := gcOrphanedJMDeployments (H0 := no_faults) demo_ctrl sn 200000000000
              ({[cleanup_key "flowgent-acme" "flowgent-jobmanager-acme-build" := 0]}, demo_with_jm) in
  demo_jm ∉ deps st.2.
Proof.
  intros sn st.
  assert (forall x, x ∈ deps demo_with_jm -> cleanup_key (d_Namespace x) (d_Name x) = cleanup_key (d_Namespace demo_jm) (d_Name demo_jm) ->
          x = demo_jm) as Hk by (intros x Hx _; apply list_elem_of_singleton in Hx; exact Hx).
  assert (demo_jm ∈ deps demo_with_jm) as Hin by (apply list_elem_of_singleton; reflexivity).
  assert (jm_gc_reason sn (label demo_jm LabelFlowID) = Some NoActiveRuns) as Er by (vm_compute; reflexivity).
  assert (owns demo_ctrl (sn_peers sn) (label demo_jm LabelFlowID) = true) as Eo by (vm_compute; reflexivity).
  assert (sel_match jm_selector demo_jm = true) as Es by (vm_compute; reflexivity).
  pose proof (idle_jm_collected (H := no_faults) demo_ctrl sn 200000000000
    {[cleanup_key "flowgent-acme" "flowgent-jobmanager-acme-build" := 0]} demo_with_jm demo_jm
    (fun _ => eq_refl) eq_refl Hk Hin Es ltac:(discriminate) Eo) as Hr.
  cbv zeta in Hr. rewrite Er in Hr. destruct Hr as [Hg|[_ Ha]]; [exact Hg|].
  exfalso. vm_compute in Ha. discriminate Ha.
Defined.

Lemma demo_plain k s : GetSpec k demo_defs = Some s -> f_K8sNamespace s = "".
Proof.
  unfold GetSpec, latest_version, demo_defs. cbn [fold_left spec_row fv_FlowID fv_deleted fv_Version andb negb f_ID demo_spec].
  destruct (String.eqb "build" k), (String.eqb "report" k); cbn; by intros [= <-].
Qed.


(** ** What the model shows *)

Definition own_namespace_spec (id ns k8s : string) : FlowInfo :=
  {| f_ID := id; f_Namespace := ns; f_Description := ""; f_Kind := ""; f_Vars := []; f_Nodes := []; f_Edges := [];
     f_Triggers := []; f_Priority := PriorityHigh; f_K8sNamespace := k8s |}.

(** Flows that name a Kubernetes namespace of their own can share the name of
    their job manager: the second never gets one, and its runs stay pending. *)
Lemma shared_name_starves :
  let a := own_namespace_spec "b-c" "a" "shared" in let b := own_namespace_spec "c" "a-b" "shared" in
  dep_id (jm_of demo_ctrl a) = dep_id (jm_of demo_ctrl b) /\
  let cl := ensureApplicationInfra (H := no_faults) demo_ctrl a demo_cluster in
  map (fun d => label d LabelFlowID) (deps (ensureApplicationInfra (H := no_faults) demo_ctrl b cl)) = ["b-c"].
Proof. vm_compute. split; reflexivity. Qed.

(** A flow whose stored definition does not decode counts as deleted: its job
    manager goes at once, active runs or not. *)
Lemma undecodable_counts_as_deleted :
  let broken := {| fv_FlowID := "build"; fv_Version := 1; fv_Definition := None; fv_Namespace := "acme"; fv_Comment := "";
                   fv_CreatedBy := ""; fv_created := 1; fv_deleted := false |} in
  let view := {| list_flows := Ok [broken]; list_runs := fun _ _ => Ok [rr_run (demo_run_row "r1" RunRunning 1)];
                 get_flow := fun _ => Ok None |} in
  deps (reconcile (H := canonical_order) (H0 := no_faults) (fun _ => true) (Ok []) view 0 demo_ctrl demo_with_jm).2 = [].
Proof. vm_compute. reflexivity. Qed.

(** A hundred newer runs of any flows hide a running one: the controller takes
    its flow for idle and, after the window, deletes the job manager. *)
Definition busy_server : FlowAPI :=
  with_runs ({| rr_run := set_run "old" RunRunning [] "" None None (trigger_run demo_flows "build" demo_build [] no_trigger);
                rr_output := None; rr_created := 0; rr_updated := 0; rr_deleted := false |}
             :: map (fun i => demo_run_row ("done-" +:+ Itoa (Z.of_nat i)) RunCompleted (Z.of_nat i + 1)) (seq 0 100)) demo_flows.

Lemma hidden_run_loses_jm :
  let view := api_view no_error busy_server in
  let tick now ccl := reconcile (H := canonical_order) (H0 := no_faults) (fun _ => true) (Ok []) view now ccl.1 ccl.2 in
  (r_Status <$> (rr_run <$> store_Get "old" (fa_runs busy_server))) = Some RunRunning /\
  deps (tick 180000000000 (tick 0 (demo_ctrl, demo_with_jm))).2 = [].
Proof. vm_compute. split; reflexivity. Qed.

(** The deployments of the workers mount [flowgent-config], whatever the name
    of the config map the controller copies. *)
Lemma worker_configmap_is_fixed c spec file :
  pt_ConfigMap (d_Template (tm_deployment (start_rm (d_Namespace (jm_of c spec)) (pod_settings (jm_of c spec) file)))) =
    "flowgent-config" /\
  pt_ConfigMap (d_Template (jm_of c spec)) = jmConfigMapName c.
Proof. split; reflexivity. Qed.

(** With nothing configured the system namespace is misspelt. *)
Lemma system_namespace_default :
  systemNamespace (NewFlowgentController (fun _ => None) "default"
    {| rt_JMImage := ""; rt_CredentialEnvSecret := ""; rt_SystemNamespace := ""; rt_K8sNamespace := ""; rt_JMConfigMap := "";
       rt_APIServerURL := ""; rt_TMOrphanTimeout := ""; rt_ControllerLabel := ""; rt_NamespacePrefix := ""; rt_MQTTBroker := "" |}
    (c_self demo_ctrl) "" true) = "flowgen-system".
Proof. reflexivity. Qed.
