(* ===== verification/Config.v ===== *)
(** * Configuration

    [pkg/config/pkg/config/config.go] and [credentials.go]: the type of the
    configuration, from whose tags the names of the environment variables are
    derived; the overrides they make; the expansion of placeholders; and the
    credentials files.  The YAML file is read by a library: what it holds is
    given by key. *)

From S2P Require Export GoStr Path.
From Stdlib Require Import Ascii.

Local Open Scope string_scope.
Local Open Scope list_scope.
Local Open Scope Z_scope.

(** ** The type of the configuration *)

(** Types as reflection sees them; a field of a structure is its [yaml] tag and
    its type. *)
Inductive GoType :=
| GString | GInt | GBool | GFloat | GDuration | GMap
| GSlice (t : GoType)
| GPtr (t : GoType)
| GStruct (fields : list (string * GoType)).

Definition ServerConfig_t : GoType :=
  GStruct [("host", GString); ("port", GInt); ("context_path", GString); ("shutdown_timeout", GString);
           ("max_body_bytes", GInt); ("read_timeout", GString); ("write_timeout", GString)].
Definition A2AConfig_t : GoType :=
  GStruct [("enabled", GBool); ("host", GString); ("port", GInt)].
Definition PProfConfig_t : GoType :=
  GStruct [("enabled", GBool); ("server_bind", GString)].
Definition OTELConfig_t : GoType :=
  GStruct [("enabled", GBool); ("endpoint", GString); ("protocol", GString); ("timeout", GInt);
           ("sample_rate", GFloat)].
Definition MetricsBoundaries_t : GoType :=
  GStruct [("task", GSlice GFloat); ("llm", GSlice GFloat); ("queue", GSlice GFloat)].
Definition MetricsConfig_t : GoType :=
  GStruct [("enabled", GBool); ("prometheus", GBool); ("export_interval", GDuration);
           ("histogram_boundaries", MetricsBoundaries_t); ("labels", GMap)].
Definition MgmtConfig_t : GoType :=
  GStruct [("enabled", GBool); ("host", GString); ("port", GInt); ("pprof", PProfConfig_t);
           ("otel", OTELConfig_t); ("metrics", MetricsConfig_t)].
Definition LoggingConfig_t : GoType :=
  GStruct [("mode", GString); ("level", GString)].
Definition OIDCConfig_t : GoType :=
  GStruct [("enabled", GBool); ("client_id", GString); ("client_secret", GString); ("issue_url", GString);
           ("redirect_url", GString); ("scope", GString)].
Definition LDAPDomainConfig_t : GoType :=
  GStruct [("base_dn", GString); ("user_search_filter", GString)].
Definition LDAPRoleMapping_t : GoType :=
  GStruct [("match", GString); ("role", GString)].
Definition LDAPConfig_t : GoType :=
  GStruct [("enabled", GBool); ("url", GString); ("base_dn", GString); ("user_dn", GString);
           ("password", GString); ("domains", GSlice LDAPDomainConfig_t);
           ("role_mapping", GSlice LDAPRoleMapping_t); ("user_search_filter", GString);
           ("username_attribute", GString); ("email_attribute", GString); ("display_name_attribute", GString);
           ("group_search_base", GString); ("group_search_filter", GString); ("group_name_attribute", GString);
           ("user_attr_mapping", GMap); ("referral", GString); ("insecure_skip_verify", GBool)].
Definition GitHubAuthConfig_t : GoType :=
  GStruct [("enabled", GBool); ("client_id", GString); ("client_secret", GString); ("auth_url", GString);
           ("token_url", GString); ("redirect_url", GString); ("scope", GString); ("user_info_url", GString)].
Definition AuthConfig_t : GoType :=
  GStruct [("jwt_validity_ak", GInt); ("jwt_validity_rk", GInt); ("jwt_algorithm", GString);
           ("jwt_private_key", GString); ("jwt_public_key", GString); ("anonymous_paths", GSlice GString);
           ("oidc", OIDCConfig_t); ("ldap", LDAPConfig_t); ("github", GitHubAuthConfig_t)].
Definition MemoryCacheConfig_t : GoType :=
  GStruct [("initial_capacity", GInt); ("max_capacity", GInt); ("ttl", GInt); ("eviction_policy", GString)].
Definition RedisCacheConfig_t : GoType :=
  GStruct [("nodes", GSlice GString); ("username", GString); ("password", GString);
           ("connection_timeout", GInt); ("response_timeout", GInt); ("retries", GInt);
           ("max_retry_wait", GInt); ("min_retry_wait", GInt); ("read_from_replica", GBool);
           ("use_ssl", GBool)].
Definition CacheConfig_t : GoType :=
  GStruct [("provider", GString); ("memory", MemoryCacheConfig_t); ("redis", RedisCacheConfig_t)].
Definition SQLiteConfig_t : GoType :=
  GStruct [("dir", GString)].
Definition PostgresConfig_t : GoType :=
  GStruct [("dsn", GString); ("host", GString); ("port", GInt); ("database", GString); ("schema", GString);
           ("username", GString); ("password", GString); ("min_connections", GInt); ("max_connections", GInt);
           ("use_ssl", GBool)].
Definition StorageConfig_t : GoType :=
  GStruct [("type", GString); ("sqlite", SQLiteConfig_t); ("postgres", PostgresConfig_t)].
Definition OrchestrationConfig_t : GoType :=
  GStruct [("max_concurrent_flows", GInt); ("flow_execution_timeout", GString); ("max_node_retries", GInt)].
Definition MQTTConfig_t : GoType :=
  GStruct [("broker", GString); ("client_id", GString); ("username", GString); ("password", GString)].
Definition MessagerConfig_t : GoType :=
  GStruct [("type", GString); ("mqtt", MQTTConfig_t)].
Definition RedisLockConfig_t : GoType :=
  GStruct [("nodes", GSlice GString); ("password", GString)].
Definition LockConfig_t : GoType :=
  GStruct [("provider", GString); ("redis", RedisLockConfig_t)].
Definition NetworkPolicy_t : GoType :=
  GStruct [("mode", GString); ("allowed,omitempty", GSlice GString); ("denied,omitempty", GSlice GString)].
Definition SandboxResources_t : GoType :=
  GStruct [("cpu,omitempty", GString); ("memory,omitempty", GString)].
Definition SandboxPolicy_t : GoType :=
  GStruct [("network", NetworkPolicy_t); ("allowed_runtimes,omitempty", GSlice GString);
           ("banned_commands,omitempty", GSlice GString); ("default_timeout", GString);
           ("max_timeout", GString); ("default_resources,omitempty", GPtr SandboxResources_t);
           ("max_resources,omitempty", GPtr SandboxResources_t)].
Definition SandboxDeploymentConfig_t : GoType :=
  GStruct [("enabled", GBool); ("image,omitempty", GString); ("min_replicas,omitempty", GInt);
           ("max_replicas,omitempty", GInt); ("resources,omitempty", GPtr SandboxResources_t);
           ("slots_per_pod,omitempty", GInt)].
Definition SandboxConfig_t : GoType :=
  GStruct [("workspace", GString); ("host_workspace", GString); ("policy", GPtr SandboxPolicy_t);
           ("deployment", SandboxDeploymentConfig_t)].
Definition PoliciesConfig_t : GoType :=
  GStruct [("max_single_payment_usd", GFloat); ("max_daily_budget_usd", GFloat);
           ("allowed_domains", GSlice GString); ("blocked_domains", GSlice GString);
           ("require_human_approval_above_usd", GFloat); ("allowed_assets", GSlice GString);
           ("allowed_chains", GSlice GString)].
Definition VaultCfg_t : GoType :=
  GStruct [("address", GString); ("token", GString); ("token_file", GString); ("mount_path", GString);
           ("secret_path", GString); ("role", GString)].
Definition SecretStoreCfg_t : GoType :=
  GStruct [("provider", GString); ("master_key", GString); ("master_key_file", GString); ("vault", VaultCfg_t)].
Definition X402Cfg_t : GoType :=
  GStruct [("default_facilitator", GString); ("timeout", GString); ("max_retries", GInt)].
Definition WalletConfig_t : GoType :=
  GStruct [("enabled", GBool); ("policies", PoliciesConfig_t); ("secret_store", SecretStoreCfg_t);
           ("x402", X402Cfg_t)].
Definition NotifierWSConfig_t : GoType :=
  GStruct [("ping_interval", GString); ("write_timeout", GString); ("max_message_size", GInt)].
Definition NotifierTelegramCfg_t : GoType :=
  GStruct [("base_url", GString)].
Definition NotifierEmailCfg_t : GoType :=
  GStruct [("smtp_port", GInt)].
Definition NotifierConfig_t : GoType :=
  GStruct [("scan_interval", GString); ("cleanup_interval", GString); ("route_timeout", GString);
           ("websocket", NotifierWSConfig_t); ("telegram", NotifierTelegramCfg_t);
           ("email", NotifierEmailCfg_t)].
Definition NamespaceConfig_t : GoType :=
  GStruct [("default_namespace", GString); ("namespace_prefix", GString)].
Definition CredentialPathsConfig_t : GoType :=
  GStruct [("base_path", GString)].
Definition RuntimeConfig_t : GoType :=
  GStruct [("api_server_url", GString); ("k8s_namespace", GString); ("system_namespace", GString);
           ("agent_flow_id", GString); ("tm_id", GString); ("tm_deploy", GString); ("tm_slots", GInt);
           ("tm_orphan_timeout", GString); ("credential_env_secret", GString); ("controller_label", GString);
           ("jm_image", GString); ("tm_image", GString); ("jm_config_map", GString); ("pod_index", GInt);
           ("pod_total", GInt); ("namespace", NamespaceConfig_t);
           ("credential_paths", CredentialPathsConfig_t)].
Definition FlowgentConfig_t : GoType :=
  GStruct [("service_name", GString); ("server", ServerConfig_t); ("a2a", A2AConfig_t); ("mgmt", MgmtConfig_t);
           ("logging", LoggingConfig_t); ("auth", AuthConfig_t); ("cache", CacheConfig_t);
           ("storage", StorageConfig_t); ("orchestration", OrchestrationConfig_t);
           ("messager", MessagerConfig_t); ("lock", LockConfig_t); ("sandbox", SandboxConfig_t);
           ("wallet", GPtr WalletConfig_t); ("notifier", NotifierConfig_t); ("runtime", RuntimeConfig_t);
           ("-", GMap)].

(** ** Names of variables *)

Definition is_upper (c : ascii) : bool := ((65 <=? N_of_ascii c) && (N_of_ascii c <=? 90))%N.
Definition is_lower_or_digit (c : ascii) : bool :=
  let n := N_of_ascii c in (((97 <=? n) && (n <=? 122)) || ((48 <=? n) && (n <=? 57)))%N.

Definition underscore : ascii := "_".
Definition hyphen : ascii := "-".

Fixpoint camel_segment (prev : option ascii) (s : string) : string :=
  match s with
  | EmptyString => EmptyString
  | String c s' =>
      let rest := String (upper_ascii c) (camel_segment (Some c) s') in
      match prev with
      | Some p => if is_upper c && is_lower_or_digit p then String underscore rest else rest
      | None => rest
      end
  end.

Definition keyToEnvSegment (s : string) : string :=
  if negb (no_char hyphen s) || negb (no_char underscore s) then ToUpper (ReplaceAll s "-" "_")
  else camel_segment None s.

Fixpoint normalizeConfigKey (s : string) : string :=
  match s with
  | EmptyString => EmptyString
  | String c s' =>
      if Ascii.eqb c hyphen || Ascii.eqb c underscore then normalizeConfigKey s'
      else String (if is_upper c then ascii_of_N (N_of_ascii c + 32) else c) (normalizeConfigKey s')
  end.

Definition matchConfigKey (mapKey fieldName : string) : bool :=
  String.eqb (normalizeConfigKey mapKey) (normalizeConfigKey fieldName).

(** A tag up to its first comma. *)
Definition tag_name (tag : string) : string := match SplitN2 tag "," with name :: _ => name | [] => tag end.

Fixpoint is_struct (t : GoType) : bool :=
  match t with GPtr t' => is_struct t' | GStruct _ => true | _ => false end.

Definition env_name (segs : list string) : string := "FLOWGENT__" +:+ Join (map keyToEnvSegment segs) "__".

Fixpoint collectEnvKeys (t : GoType) (path : list string) : list (string * string) :=
  match t with
  | GPtr t' => collectEnvKeys t' path
  | GStruct fields =>
      (fix go (fields : list (string * GoType)) : list (string * string) :=
         match fields with
         | [] => []
         | (yaml, ft) :: rest =>
             let tag := tag_name yaml in
             (if String.eqb tag "" || String.eqb tag "-" then []
              else let segs := path ++ [tag] in
                   if is_struct ft then collectEnvKeys ft segs else [(env_name segs, Join segs ".")]) ++ go rest
         end) fields
  | _ => []
  end.

(** The map [envToKey]: a later field of the same name wins. *)
Definition envToKey : gmap string string :=
  fold_left (fun m kv => <[kv.1 := kv.2]> m) (collectEnvKeys FlowgentConfig_t []) ∅.

(** ** Overrides *)

(** The keys of the file, and those that were set over them. *)
Record Viper := { vp_file : gmap string string; vp_set : gmap string string }.

Definition viper_get (key : string) (v : Viper) : option string :=
  match vp_set v !! key with Some x => Some x | None => vp_file v !! key end.
Definition viper_Set (key val : string) (v : Viper) : Viper :=
  {| vp_file := vp_file v; vp_set := <[key := val]> (vp_set v) |}.

(** [strings.Cut] at the first [=]. *)
Definition cut_eq (e : string) : option (string * string) :=
  match IndexByte e "=" with Some i => Some (stake i e, sdrop (S i) e) | None => None end.

Definition override_step (v : Viper) (e : string) : Viper :=
  match cut_eq e with
  | None => v
  | Some (name, val) => match envToKey !! name with Some key => viper_Set key val v | None => v end
  end.

Definition applyFlowgentOverrides (environ : list string) (v : Viper) : Viper := fold_left override_step environ v.

(** ** Placeholders *)

Section Expand.
(** [os.Getenv], and the resolved credentials. *)
Variable getenv : string -> string.
Variable creds : gmap string string.

Definition placeholder (s : string) : option string :=
  if (3 <? Z.of_nat (String.length s)) && HasPrefix s "${"
  then match IndexByte s "}" with
       | Some i => if 2 <? Z.of_nat i then Some (stake (i - 2) (sdrop 2 s)) else None
       | None => None
       end
  else None.

Definition expandStringWithCreds (s : string) : string :=
  match placeholder s with
  | None => s
  | Some key =>
      if negb (String.eqb (getenv key) "") then getenv key
      else match creds !! key with Some v => v | None => s end
  end.

(** A value of the configuration, as reflection walks it. *)
Inductive CVal :=
| CStr (s : string)
| CStruct (fields : list CVal)
| CMap (entries : list (string * CVal))
| CIface (v : CVal)
| CSlice (items : list CVal)
| CPtr (v : option CVal)
| COther.

Definition expand_entry (v : CVal) : CVal :=
  match v with
  | CStr s | CIface (CStr s) => CStr (expandStringWithCreds s)
  | _ => v
  end.

(** [expandEnvVarsWithCreds]: one pointer is followed, a second is not. *)
Fixpoint expand_val (v : CVal) : CVal :=
  match v with
  | CStr s => CStr (expandStringWithCreds s)
  | CStruct fields => CStruct (map expand_val fields)
  | CMap entries => CMap (map (fun kv => (kv.1, expand_entry kv.2)) entries)
  | CSlice items => CSlice (map expand_val items)
  | CPtr (Some (CPtr w)) => v
  | CPtr (Some w) => CPtr (Some (expand_val w))
  | CPtr None | CIface _ | COther => v
  end.

(** [expandString] and [expandEnvVars], the versions without credentials, which
    no code calls. *)
Definition expandString (s : string) : string :=
  match placeholder s with
  | None => s
  | Some key => if negb (String.eqb (getenv key) "") then getenv key else s
  end.

Definition expandString_entry (v : CVal) : CVal :=
  match v with
  | CStr s | CIface (CStr s) => CStr (expandString s)
  | _ => v
  end.
Fixpoint expandEnvVars (v : CVal) : CVal :=
  match v with
  | CStr s => CStr (expandString s)
  | CStruct fields => CStruct (map expandEnvVars fields)
  | CMap entries => CMap (map (fun kv => (kv.1, expandString_entry kv.2)) entries)
  | CSlice items => CSlice (map expandEnvVars items)
  | CPtr (Some (CPtr w)) => v
  | CPtr (Some w) => CPtr (Some (expandEnvVars w))
  | CPtr None | CIface _ | COther => v
  end.

End Expand.

(** They are the expansion with no credentials. *)
Lemma expandEnvVars_no_creds getenv v : expand_val getenv ∅ v = expandEnvVars getenv v.
Proof. reflexivity. Qed.

(** ** Credentials *)

(** A scanner stops at a line that does not fit its buffer of 64 KiB. *)
Definition line_too_long (l : string) : bool := 65536 <=? Z.of_nat (String.length l).

Fixpoint readEnvFile_lines (lines : list string) (m : gmap string string) : gmap string string :=
  match lines with
  | [] => m
  | l :: rest =>
      if line_too_long l then m
      else
        let line := TrimSpace l in
        if String.eqb line "" || HasPrefix line "#" then readEnvFile_lines rest m
        else match cut_eq line with
             | None => readEnvFile_lines rest m
             | Some (k, v) =>
                 let k := TrimSpace k in
                 if String.eqb k "" then readEnvFile_lines rest m
                 else readEnvFile_lines rest (<[k := TrimSpace v]> m)
             end
  end.

(** A file system: the lines of a file, the entries of a directory in order
    (with whether each is a directory). *)
Record FS := { fs_file : string -> option (list string); fs_dir : string -> option (list (string * bool)) }.

(** A file that cannot be opened gives no entries. *)
Definition readEnvFile (fs : FS) (path : string) : gmap string string :=
  match fs_file fs path with None => ∅ | Some lines => readEnvFile_lines lines ∅ end.

Definition default_base (basePath : string) : string :=
  if String.eqb basePath "" then "/var/flowgent" else basePath.

Definition namespace_file (basePath namespace : string) : string :=
  PathJoin [basePath; namespace; "secret"; ".credentials"].
Definition flow_file (basePath namespace flow : string) : string :=
  PathJoin [basePath; namespace; flow; "secret"; ".credentials"].

(** The entries of [over] on top of [m]. *)
Definition overlay (over m : gmap string string) : gmap string string := over ∪ m.

Definition LoadCredentials (fs : FS) (basePath namespace flow : string) (flowCreds : gmap string string)
    : gmap string string :=
  let basePath := default_base basePath in
  let result := readEnvFile fs (namespace_file basePath namespace) in
  if String.eqb flow "" then result
  else overlay flowCreds (overlay (readEnvFile fs (flow_file basePath namespace flow)) result).

Definition FormatCredentialPaths (basePath namespace flow : string) : string :=
  "namespace: " +:+ namespace_file basePath namespace +:+ " | flow: " +:+ flow_file basePath namespace flow.

Definition CredentialPathsOrDefault (cfg : option string) : string :=
  match cfg with None => "/var/flowgent" | Some basePath => default_base basePath end.

(** [loadCSICredentials]: every namespace, every flow. *)
Definition load_flow_dir (fs : FS) (basePath namespace : string) (result : gmap string string) (fe : string * bool)
    : gmap string string :=
  if fe.2 then overlay (readEnvFile fs (flow_file basePath namespace fe.1)) result else result.

Definition load_namespace_dir (fs : FS) (basePath : string) (result : gmap string string) (e : string * bool)
    : gmap string string :=
  if negb e.2 then result
  else
    let result := overlay (readEnvFile fs (namespace_file basePath e.1)) result in
    match fs_dir fs (PathJoin [basePath; e.1]) with
    | None => result
    | Some flowEntries => fold_left (load_flow_dir fs basePath e.1) flowEntries result
    end.

Definition loadCSICredentials (fs : FS) (basePath : string) : gmap string string :=
  let basePath := default_base basePath in
  match fs_dir fs basePath with
  | None => ∅
  | Some entries => fold_left (load_namespace_dir fs basePath) entries ∅
  end.

(** ** The path matcher, and a middleware that lets all pass *)

Definition MatchGlob (pattern path : string) : bool :=
  if String.eqb pattern path then true
  else if (3 <=? Z.of_nat (String.length pattern)) && HasSuffix pattern "/**"
  then HasPrefix path (stake (String.length pattern - 3) pattern)
  else false.

(** Both branches serve the request. *)
Definition config_AuthMiddleware {A} (anonymousPaths : list string) (next : string -> A) (path : string) : A :=
  if existsb (fun p => MatchGlob p path) anonymousPaths then next path else next path.

(** ** Loading *)

(** What a configuration is once loaded: its values, and the credentials that
    were resolved. *)
Record Loaded := { ld_values : CVal; ld_creds : gmap string string }.

(** [Load].  [read] is the library's reading of the YAML file; [unmarshal] its
    decoding into the struct, with the directory of credentials and the
    credentials the file itself gives. *)
Definition Load (read : string -> res (gmap string string)) (unmarshal : Viper -> res (CVal * string * gmap string string))
    (getenv : string -> string) (environ : list string) (fs : FS) (path : string) : res Loaded :=
  match read path with
  | Err e => Err ("read config: " +:+ e)
  | Ok file =>
      match unmarshal (applyFlowgentOverrides environ {| vp_file := file; vp_set := ∅ |}) with
      | Err e => Err ("parse config: " +:+ e)
      | Ok (values, base, own) =>
          let creds := loadCSICredentials fs base in
          let resolved := if decide (creds = ∅) then own else creds in
          Ok {| ld_values := expand_val getenv resolved values; ld_creds := resolved |}
      end
  end.
