(* ===== verification/ConfigFacts.v ===== *)
(** * Properties of the configuration

    Each setting has one variable and each variable one setting; a variable
    that is set comes before the file; credentials are looked up in the order
    flow, namespace; a credentials file reads back as it was written. *)

From S2P Require Export Config.
From Stdlib Require Import Ascii.

Local Open Scope string_scope.
Local Open Scope list_scope.
Local Open Scope Z_scope.

(** The cases of the repository's test of the names. *)
Example keyToEnvSegment_cases :
  map keyToEnvSegment ["jm_image"; "agent_flow_id"; "dsn"; "use_ssl"; "jm-image"; "agentFlowId"; "a2a"; "x402"] =
  ["JM_IMAGE"; "AGENT_FLOW_ID"; "DSN"; "USE_SSL"; "JM_IMAGE"; "AGENT_FLOW_ID"; "A2A"; "X402"].
Proof. vm_compute. reflexivity. Qed.

(** ** Variables and settings *)

Definition settings : list (string * string) := collectEnvKeys FlowgentConfig_t [].

Lemma settings_distinct : NoDup (settings.*1) /\ NoDup (settings.*2).
Proof. split; apply (bool_decide_unpack _); vm_compute; exact I. Qed.

Lemma fold_insert_lookup (l : list (string * string)) : forall (m : gmap string string) k,
  NoDup (l.*1) -> (forall x, x ∈ l.*1 -> m !! x = None) ->
  fold_left (fun m kv => <[kv.1 := kv.2]> m) l m !! k =
  match m !! k with Some v => Some v | None => (list_to_map l : gmap string string) !! k end.
Proof.
  induction l as [|[a b] l IH]; intros m k Hnd Hm; cbn [fold_left].
  { by destruct (m !! k). }
  cbn in Hnd. apply NoDup_cons in Hnd as [Ha Hnd]. rewrite IH; [|done|].
  - rewrite list_to_map_cons. cbn [fst snd]. destruct (decide (a = k)) as [->|Hne].
    + rewrite !lookup_insert_eq, (Hm k); [done|]. by apply elem_of_cons; left.
    + rewrite !lookup_insert_ne by done. done.
  - intros x Hx. cbn [fst snd]. rewrite lookup_insert_ne; [|by intros ->]. apply Hm. by apply elem_of_cons; right.
Qed.

Lemma envToKey_spec env key : envToKey !! env = Some key <-> (env, key) ∈ settings.
Proof.
  unfold envToKey. rewrite fold_insert_lookup; [|apply settings_distinct|done].
  rewrite lookup_empty. symmetry. apply elem_of_list_to_map. apply settings_distinct.
Qed.

Lemma envToKey_inj env env' key : envToKey !! env = Some key -> envToKey !! env' = Some key -> env = env'.
Proof.
  rewrite !envToKey_spec. intros [i Hi]%list_elem_of_lookup [j Hj]%list_elem_of_lookup.
  assert (i = j) as ->; [|congruence]. eapply NoDup_lookup; [apply settings_distinct| |];
    rewrite list_lookup_fmap; [by rewrite Hi|by rewrite Hj].
Qed.

(** The last value the environment has for a variable. *)
Fixpoint last_value (name : string) (environ : list string) (found : option string) : option string :=
  match environ with
  | [] => found
  | e :: rest =>
      last_value name rest
        (match cut_eq e with Some (n, v) => if String.eqb n name then Some v else found | None => found end)
  end.

Lemma override_get key env environ : forall v found,
  envToKey !! env = Some key -> vp_set v !! key = found ->
  viper_get key (applyFlowgentOverrides environ v) =
  match last_value env environ found with Some x => Some x | None => vp_file v !! key end.
Proof.
  unfold applyFlowgentOverrides. induction environ as [|e environ IH]; intros v found Henv Hf; cbn [fold_left last_value].
  { unfold viper_get. by rewrite Hf. }
  unfold override_step at 2. destruct (cut_eq e) as [[n x]|]; [|by apply IH].
  destruct (String.eqb_spec n env) as [->|Hne].
  - rewrite Henv. rewrite (IH _ (Some x)); [done..|]. apply lookup_insert_eq.
  - destruct (envToKey !! n) as [key'|] eqn:En; [|by apply IH].
    rewrite (IH _ found); [done..|]. cbn. rewrite lookup_insert_ne; [done|].
    intros ->. apply Hne. by eapply envToKey_inj.
Qed.

Lemma override_other key environ : forall v,
  (forall env, envToKey !! env <> Some key) ->
  viper_get key (applyFlowgentOverrides environ v) = viper_get key v.
Proof.
  unfold applyFlowgentOverrides. induction environ as [|e environ IH]; intros v Hn; [done|]. cbn [fold_left].
  rewrite IH by done. unfold override_step. destruct (cut_eq e) as [[n x]|]; [|done].
  destruct (envToKey !! n) as [key'|] eqn:En; [|done].
  unfold viper_get, viper_Set. cbn. rewrite lookup_insert_ne; [done|]. intros ->. by apply (Hn n).
Qed.

(** Every setting of the configuration that is not itself a structure has
    one environment variable, and no two settings share one; over whatever
    file and environment, a setting has the last value its variable is given,
    empty or not, and the file's value when its variable is not set; no
    variable touches any other key. *)
Theorem overrides_spec environ file key :
  let v := applyFlowgentOverrides environ {| vp_file := file; vp_set := ∅ |} in
  NoDup (settings.*1) /\ NoDup (settings.*2) /\
  (forall env, (env, key) ∈ settings ->
     viper_get key v = match last_value env environ None with Some x => Some x | None => file !! key end) /\
  (key ∉ settings.*2 -> viper_get key v = file !! key).
Proof.
  intros v. destruct settings_distinct as [H1 H2]. split_and!; [done|done| |].
  - intros env Hin. apply envToKey_spec in Hin. by apply override_get.
  - intros Hn. unfold v. rewrite override_other; [done|]. intros env He%envToKey_spec.
    apply Hn. apply list_elem_of_fmap. by exists (env, key).
Qed.

(** The variables by which the controller and the job manager configure the
    pods they make are settings, [FLOWGENT__CONFIG__FILE] apart, which the
    command reads itself. *)
Lemma pod_variables_bound :
  map (fun env => envToKey !! env)
    ["FLOWGENT__RUNTIME__AGENT_FLOW_ID"; "FLOWGENT__RUNTIME__NAMESPACE__DEFAULT_NAMESPACE";
     "FLOWGENT__RUNTIME__SYSTEM_NAMESPACE"; "FLOWGENT__RUNTIME__K8S_NAMESPACE"; "FLOWGENT__RUNTIME__TM_DEPLOY";
     "FLOWGENT__MESSAGER__MQTT__BROKER"; "FLOWGENT__RUNTIME__API_SERVER_URL"; "FLOWGENT__STORAGE__POSTGRES__DSN";
     "FLOWGENT__SANDBOX__WORKSPACE"; "FLOWGENT__SANDBOX__DEPLOYMENT__SLOTS_PER_POD"; "FLOWGENT__CONFIG__FILE"]
  = [Some "runtime.agent_flow_id"; Some "runtime.namespace.default_namespace"; Some "runtime.system_namespace";
     Some "runtime.k8s_namespace"; Some "runtime.tm_deploy"; Some "messager.mqtt.broker"; Some "runtime.api_server_url";
     Some "storage.postgres.dsn"; Some "sandbox.workspace"; Some "sandbox.deployment.slots_per_pod"; None].
Proof. vm_compute. reflexivity. Qed.

(** ** Credentials *)

(** A credential of a flow comes from the flow's own definition, then from
    the flow's file, then from the namespace's; without a flow only the
    namespace's file counts. *)
Theorem credentials_precedence fs basePath namespace flow flowCreds key :
  let base := default_base basePath in
  let ns := readEnvFile fs (namespace_file base namespace) in
  let fl := readEnvFile fs (flow_file base namespace flow) in
  LoadCredentials fs basePath namespace flow flowCreds !! key =
  if String.eqb flow "" then ns !! key
  else match flowCreds !! key with
       | Some v => Some v
       | None => match fl !! key with Some v => Some v | None => ns !! key end
       end.
Proof.
  intros base ns fl. unfold LoadCredentials. fold base ns fl. destruct (String.eqb flow ""); [done|].
  unfold overlay. rewrite !lookup_union. by destruct (flowCreds !! key), (fl !! key), (ns !! key).
Qed.

(** An entry of a credentials file that is written one to a line. *)
Definition entry_ok (kv : string * string) : Prop :=
  trimmed kv.1 = true /\ kv.1 <> "" /\ no_char "=" kv.1 = true /\ HasPrefix kv.1 "#" = false /\ trimmed kv.2 = true.
Definition entry_line (kv : string * string) : string := kv.1 +:+ "=" +:+ kv.2.

Lemma cut_eq_line k v : no_char "=" k = true -> cut_eq (k +:+ "=" +:+ v) = Some (k, v).
Proof.
  intros Hk. unfold cut_eq. change ("=" +:+ v) with (String "=" v). rewrite IndexByte_append by done.
  rewrite stake_append. f_equal. f_equal.
  replace (S (String.length k)) with (String.length (k +:+ "=")) by (rewrite length_append; cbn; lia).
  change (String "=" v) with ("=" +:+ v). rewrite <- append_assoc. apply sdrop_append.
Qed.

Lemma trimmed_inv s : trimmed s = true -> TrimLeft s = s /\ TrimRight s = s.
Proof. unfold trimmed. by intros [?%String.eqb_eq ?%String.eqb_eq]%andb_true_iff. Qed.

Lemma TrimLeft_head c s : TrimLeft (String c s) = String c s -> is_space c = false.
Proof.
  cbn [TrimLeft]. destruct (is_space c) eqn:E; [|done]. intros H. exfalso.
  assert (forall t, (String.length (TrimLeft t) <= String.length t)%nat) as Hl.
  { induction t as [|d t IH]; cbn; [lia|]. destruct (is_space d); cbn; lia. }
  specialize (Hl s). rewrite H in Hl. cbn in Hl. lia.
Qed.

Lemma TrimSpace_line kv : entry_ok kv -> TrimSpace (entry_line kv) = entry_line kv.
Proof.
  destruct kv as [k v]. intros ([Hl Hr]%trimmed_inv & Hne & _ & _ & [_ Hv]%trimmed_inv). cbn [fst snd] in *.
  destruct k as [|c k]; [done|]. unfold entry_line. cbn [fst snd]. apply TrimSpace_id.
  - by eapply TrimLeft_head.
  - destruct v as [|d v]; [done|]. by apply (TrimRight_append "=").
  - done.
Qed.

Lemma HasPrefix_line kv : entry_ok kv -> HasPrefix (entry_line kv) "#" = false.
Proof.
  destruct kv as [k v]. intros (_ & Hne & _ & Hp & _). destruct k as [|c k]; [done|]. exact Hp.
Qed.

(** A credentials file of well-formed entries, one to a line, reads back as
    those entries, the last of a name winning: keys without white space at
    their ends, equals sign or leading [#], values without white space at
    their ends -- which may be empty and contain anything else --, lines below
    64 KiB. *)
Theorem env_file_round_trip (entries : list (string * string)) (m : gmap string string) :
  Forall entry_ok entries -> Forall (fun kv => line_too_long (entry_line kv) = false) entries ->
  readEnvFile_lines (map entry_line entries) m = fold_left (fun m kv => <[kv.1 := kv.2]> m) entries m.
Proof.
  revert m. induction entries as [|[k v] entries IH]; intros m Hok Hlen; cbn [map readEnvFile_lines fold_left]; [done|].
  apply Forall_cons in Hok as [Hkv Hok]. apply Forall_cons in Hlen as [Hl Hlen].
  rewrite Hl, (TrimSpace_line _ Hkv), (HasPrefix_line _ Hkv).
  destruct Hkv as (Hk & Hne & Hc & _ & Hv). cbn [fst snd] in *.
  assert (String.eqb (entry_line (k, v)) "" = false) as ->.
  { apply String.eqb_neq. unfold entry_line. cbn [fst]. by destruct k. }
  cbn [orb]. unfold entry_line. cbn [fst snd]. rewrite (cut_eq_line k v Hc).
  rewrite (trimmed_TrimSpace k Hk), (trimmed_TrimSpace v Hv), (proj2 (String.eqb_neq k "") Hne).
  by apply IH.
Qed.

Lemma overrides_spec_witness :
  viper_get "runtime.agent_flow_id"
    (applyFlowgentOverrides ["PATH=/bin"; "FLOWGENT__RUNTIME__AGENT_FLOW_ID=build"]
       {| vp_file := {["runtime.agent_flow_id" := "report"]}; vp_set := ∅ |}) = Some "build".
Proof.
  destruct (overrides_spec ["PATH=/bin"; "FLOWGENT__RUNTIME__AGENT_FLOW_ID=build"]
              {["runtime.agent_flow_id" := "report"]} "runtime.agent_flow_id") as (_ & _ & H & _).
  apply (H "FLOWGENT__RUNTIME__AGENT_FLOW_ID"). apply envToKey_spec. vm_compute. reflexivity.
Defined.

Lemma env_file_round_trip_witness :
  readEnvFile_lines ["TOKEN=a b=c"; "EMPTY="] ∅ = {["EMPTY" := ""; "TOKEN" := "a b=c"]}.
Proof.
  exact (env_file_round_trip [("TOKEN", "a b=c"); ("EMPTY", "")] ∅
    ltac:(repeat constructor; discriminate) ltac:(repeat constructor)).
Defined.

(** ** What the model shows *)

(** A placeholder takes the place of the whole value: what follows its closing
    brace is lost. *)
Lemma placeholder_drops_rest :
  expandStringWithCreds (fun _ => "db.internal") ∅ "${DB_HOST}:5432" = "db.internal".
Proof. reflexivity. Qed.

(** All namespaces and flows share one table of credentials: a namespace that
    sorts later overrides a flow of an earlier one. *)
Definition shared_host : FS :=
  {| fs_file := fun p =>
       if String.eqb p "/var/flowgent/acme/build/secret/.credentials" then Some ["TOKEN=acme-build"]
       else if String.eqb p "/var/flowgent/globex/secret/.credentials" then Some ["TOKEN=globex"]
       else None;
     fs_dir := fun p =>
       if String.eqb p "/var/flowgent" then Some [("acme", true); ("globex", true)]
       else if String.eqb p "/var/flowgent/acme" then Some [("build", true); ("secret", true)]
       else if String.eqb p "/var/flowgent/globex" then Some [("secret", true)]
       else None |}.

Lemma namespace_overrides_flow :
  loadCSICredentials shared_host "" !! "TOKEN" = Some "globex".
Proof. vm_compute. reflexivity. Qed.

(** A flow's id is a path segment that nobody checks: a flow of one namespace
    can read the credentials of another. *)
Lemma flow_id_reads_other_namespace :
  LoadCredentials shared_host "/var/flowgent" "acme" "../globex" ∅ !! "TOKEN" = Some "globex".
Proof. vm_compute. reflexivity. Qed.

(** A line of 64 KiB ends the reading of its file: what follows is not read. *)
Lemma long_line_hides_rest :
  readEnvFile_lines [N.iter 65536 (String "x") ""; "TOKEN=a"] ∅ = ∅.
Proof. vm_compute. reflexivity. Qed.
