(* ===== verification/ClientFacts.v ===== *)
(** * Properties of the client of the API server

    Every method of the client reaches the handler that is meant for it: the
    routes are searched symbolically, for all values of the path's variables
    at once.  What the client sees of an answer of the modelled handlers. *)

From S2P Require Export JobManagerFacts TaskManagerFacts DefsFacts Runtime Client.
From Stdlib Require Import Ascii.

Local Open Scope string_scope.
Local Open Scope list_scope.
Local Open Scope Z_scope.

(** ** Symbolic routing *)

(** A segment is known, or a variable that is none of some words. *)
Inductive sseg := SLit (s : string) | SVar (value : string) (avoid : list string).

Definition sval (s : sseg) : string := match s with SLit s => s | SVar v _ => v end.
Definition sseg_ok (s : sseg) : Prop :=
  match s with SLit s => s <> "" | SVar v avoid => v <> "" /\ v ∉ avoid end.

(** [None] where it depends on the value. *)
Definition sym_seg (p : seg) (s : sseg) : option bool :=
  match p, s with
  | Wild _, _ => Some true
  | Routes.Lit l, SLit s => Some (String.eqb l s)
  | Routes.Lit l, SVar _ avoid => if existsb (String.eqb l) avoid then Some false else None
  end.

Definition and3 (a b : option bool) : option bool :=
  match a, b with
  | Some false, _ | _, Some false => Some false
  | Some true, Some true => Some true
  | _, _ => None
  end.

Fixpoint sym_match (p : list seg) (segs : list sseg) : option bool :=
  match p, segs with
  | [], [] => Some true
  | a :: p, s :: segs => and3 (sym_seg a s) (sym_match p segs)
  | _, _ => Some false
  end.

Definition sym_route (routes : list route) (method : string) (segs : list sseg) : option (option route) :=
  fold_left (fun acc r =>
    match acc with
    | None => None
    | Some best =>
        match and3 (Some (method_matches (pat_method r.1) method)) (sym_match (pat_segs r.1) segs) with
        | Some true => Some (better best r)
        | Some false => Some best
        | None => None
        end
    end) routes (Some None).

Fixpoint sym_vals (p : list seg) (segs : list sseg) : list (string * string) :=
  match p, segs with
  | Wild n :: p, s :: segs => (n, sval s) :: sym_vals p segs
  | Routes.Lit _ :: p, _ :: segs => sym_vals p segs
  | _, _ => []
  end.

Definition sym_serve (routes : list route) (method : string) (segs : list sseg)
    : option (option (string * list (string * string))) :=
  match sym_route routes method segs with
  | None => None
  | Some None => Some None
  | Some (Some (p, h)) => Some (Some (h, sym_vals (pat_segs p) segs))
  end.

Lemma sval_nonempty s : sseg_ok s -> String.eqb (sval s) "" = false.
Proof. intros Hs. apply String.eqb_neq. destruct s as [s|v avoid]; [done|]. by destruct Hs. Qed.

Lemma sym_seg_sound l s b : sseg_ok s -> sym_seg (Routes.Lit l) s = Some b -> String.eqb l (sval s) = b.
Proof.
  intros Hs. destruct s as [s|v avoid]; cbn; [by intros [= <-]|].
  destruct (existsb _ _) eqn:E; [|done]. intros [= <-]. apply String.eqb_neq. intros ->.
  destruct Hs as [_ Hs]. apply Hs. apply existsb_exists in E as (w & Hw & ->%String.eqb_eq). by apply list_elem_of_In.
Qed.

Lemma sym_match_sound p : forall segs b, Forall sseg_ok segs -> sym_match p segs = Some b ->
  match_segs p (map sval segs) = if b then Some (sym_vals p segs) else None.
Proof.
  induction p as [|a p IH]; intros [|s segs] b Hok; cbn; try (by intros [= <-]).
  - destruct a; by intros [= <-].
  - apply Forall_cons in Hok as [Hs Hok]. destruct a as [l|n].
    + destruct (sym_seg (Routes.Lit l) s) as [x|] eqn:Ex.
      * apply (sym_seg_sound _ _ _ Hs) in Ex. destruct x, (sym_match p segs) as [[|]|] eqn:Ep; cbn; try done;
          intros [= <-]; rewrite Ex; try done; exact (IH _ _ Hok Ep).
      * destruct (sym_match p segs) as [[|]|] eqn:Ep; cbn; try done. intros [= <-].
        destruct (String.eqb l (sval s)); [exact (IH _ _ Hok Ep)|done].
    + destruct (sym_match p segs) as [[|]|] eqn:Ep; cbn; try done; intros [= <-];
        rewrite (sval_nonempty s Hs), (IH _ _ Hok Ep); done.
Qed.

(** The route that is found matches. *)
Lemma mux_route_matches routes method segs :
  match mux_route routes method segs with Some r => pattern_matches r.1 method segs = true | None => True end.
Proof.
  unfold mux_route. induction routes as [|r routes IH] using rev_ind; [done|].
  rewrite fold_left_app. cbn [fold_left]. destruct (pattern_matches r.1 method segs) eqn:E; [|done].
  destruct (fold_left _ routes None) as [b|]; cbn [better]; [|done]. by destruct (more_specific r.1 b.1).
Qed.

Lemma sym_route_sound routes method segs best :
  Forall sseg_ok segs -> sym_route routes method segs = Some best ->
  mux_route routes method (map sval segs) = best.
Proof.
  intros Hok. unfold sym_route, mux_route.
  assert (forall r, fold_left (fun acc r => match acc with None => None | Some best =>
      match and3 (Some (method_matches (pat_method r.1) method)) (sym_match (pat_segs r.1) segs) with
      | Some true => Some (better best r) | Some false => Some best | None => None end end) routes (Some r) = Some best ->
    fold_left (fun best r => if pattern_matches r.1 method (map sval segs) then better best r else best) routes r = best)
    as Hgen; [|by apply Hgen].
  assert (forall l, fold_left (fun acc (r : route) => match acc with None => None | Some best =>
      match and3 (Some (method_matches (pat_method r.1) method)) (sym_match (pat_segs r.1) segs) with
      | Some true => Some (better best r) | Some false => Some best | None => None end end) l None = None) as Hnone
    by (induction l; done).
  induction routes as [|r routes IH]; intros b; cbn [fold_left]; [by intros [= ->]|].
  unfold pattern_matches at 2. destruct (method_matches (pat_method r.1) method); cbn [and3 andb].
  - destruct (sym_match (pat_segs r.1) segs) as [[|]|] eqn:E; cbn; [| |by rewrite Hnone].
    + rewrite (sym_match_sound _ _ _ Hok E). apply IH.
    + rewrite (sym_match_sound _ _ _ Hok E). apply IH.
  - apply IH.
Qed.

Lemma sym_serve_sound routes method segs out :
  Forall sseg_ok segs -> sym_serve routes method segs = Some out -> mux_serve routes method (map sval segs) = out.
Proof.
  intros Hok. unfold sym_serve, mux_serve. destruct (sym_route routes method segs) as [best|] eqn:E; [|done].
  rewrite (sym_route_sound _ _ _ _ Hok E). destruct best as [[p h]|]; intros [= <-]; [|done].
  assert (pattern_matches p method (map sval segs) = true) as Hm.
  { apply (sym_route_sound _ _ _ _ Hok) in E.
    pose proof (mux_route_matches routes method (map sval segs)) as H. by rewrite E in H. }
  unfold pattern_matches in Hm. apply andb_true_iff in Hm as [_ Hm].
  destruct (match_segs (pat_segs p) (map sval segs)) as [vs|] eqn:Ev; [|done].
  f_equal. f_equal. clear -Ev. revert segs vs Ev. induction (pat_segs p) as [|[l|n] q IH]; intros [|s segs] vs; cbn; try done.
  - by intros [= <-].
  - destruct (String.eqb l (sval s)); [|done]. apply IH.
  - destruct (String.eqb (sval s) ""); [done|]. destruct (match_segs q _) eqn:E; [|done]. intros [= <-].
    f_equal. by apply IH.
Qed.

(** ** Targets *)

(** The path of a target: before its query.  Paths without a percent sign are
    their own decoding. *)
Definition target_path (t : string) : string := match IndexByte t "?" with Some i => stake i t | None => t end.

(** The handler a request reaches, with its path values. *)
Definition route_of (q : CallReq) : option (string * list (string * string)) :=
  RegisterRESTRoutes (cr_Method q) (path_segs (target_path (cr_Target q))).

(** A name that stands for itself in a path. *)
Definition url_plain (s : string) : bool := plain s && no_char "?" s && no_char "%" s && no_char "#" s.

Fixpoint path_of (segs : list string) : string :=
  match segs with [] => "" | s :: segs => "/" +:+ s +:+ path_of segs end.

Definition seg_url (s : string) : bool := level s && no_char "?" s.

Lemma split_path_of segs : forallb level segs = true -> split_slash (path_of segs) = "" :: segs.
Proof.
  induction segs as [|s segs IH]; [done|]. cbn [path_of forallb]. intros [Hs Hl]%andb_true_iff.
  change ("/" +:+ s +:+ path_of segs) with (String "/" (s +:+ path_of segs)). cbn [split_slash]. f_equal.
  change (Ascii.eqb "/" "/") with true. cbn. destruct segs as [|s' segs].
  - cbn. rewrite append_nil_r. by rewrite split_slash_level.
  - specialize (IH Hl). cbn [path_of] in *.
    change ("/" +:+ s' +:+ path_of segs) with (String "/" (s' +:+ path_of segs)) in *.
    cbn [split_slash] in IH. change (Ascii.eqb "/" "/") with true in IH. cbn in IH. injection IH as IH.
    change (s +:+ String "/" (s' +:+ path_of segs)) with (s +:+ "/" +:+ (s' +:+ path_of segs)).
    rewrite split_slash_append by done. by rewrite IH.
Qed.

Lemma path_of_no_query segs : forallb (no_char "?") segs = true -> no_char "?" (path_of segs) = true.
Proof.
  induction segs as [|s segs IH]; [done|]. cbn [path_of forallb]. intros [Hs Hl]%andb_true_iff.
  rewrite !no_char_append, Hs, IH by done. done.
Qed.

Lemma target_path_of segs query :
  forallb seg_url segs = true -> (query = "" \/ exists q, query = String "?" q) ->
  path_segs (target_path (path_of segs +:+ query)) = segs.
Proof.
  intros Hs Hq. assert (forallb level segs = true /\ forallb (no_char "?") segs = true) as [Hl Hn].
  { rewrite !forallb_forall in *. split; intros s Hin; specialize (Hs s Hin); by apply andb_true_iff in Hs as [??]. }
  assert (target_path (path_of segs +:+ query) = path_of segs) as ->.
  { unfold target_path. destruct Hq as [->|[q ->]].
    - rewrite append_nil_r. by rewrite (IndexByte_none _ _ (path_of_no_query _ Hn)).
    - rewrite (IndexByte_append _ _ _ (path_of_no_query _ Hn)). apply stake_append. }
  unfold path_segs. by rewrite split_path_of.
Qed.

(** The two muxes, searched symbolically. *)
Definition sym_register (method : string) (segs : list sseg) : option (option (string * list (string * string))) :=
  match sym_serve (table [webhook_route]) method segs with
  | Some (Some r) => Some (Some r)
  | Some None => sym_serve (table rest_rows) method segs
  | None => None
  end.

Lemma route_of_sound q segs query out :
  cr_Target q = path_of (map sval segs) +:+ query -> (query = "" \/ exists q, query = String "?" q) ->
  Forall sseg_ok segs -> forallb seg_url (map sval segs) = true ->
  sym_register (cr_Method q) segs = Some out -> route_of q = out.
Proof.
  intros Ht Hq Hok Hu Hs. unfold route_of. rewrite Ht, target_path_of by done.
  unfold RegisterRESTRoutes, sym_register in *.
  destruct (sym_serve (table [webhook_route]) _ segs) as [[r|]|] eqn:E; [| |done].
  - rewrite (sym_serve_sound _ _ _ _ Hok E). congruence.
  - rewrite (sym_serve_sound _ _ _ _ Hok E). by apply sym_serve_sound.
Qed.

(** ** Every call is routed *)

Section Calls.
Context `{Decode (list AgentRow)} `{Decode AgentRow} `{Decode (list FlowVersionInfo)} `{Decode FlowInfo}
  `{Decode FlowRunInfo} `{Decode (Page FlowRunInfo)} `{Decode (list TaskRunInfo)} `{Decode TaskRunInfo}
  `{Decode (list ApprovalInfo)} `{Decode (list NotifyChannelInfo)} `{Decode NotifyChannelInfo}
  `{Decode (list LlmProviderInfo)} `{Decode (list McpInfo)} `{Decode (list KnowledgeRow)} `{Decode KnowledgeRow}
  `{Decode (list FlowVersionInfo * Z)}.

Definition api (ns : string) (rest : list sseg) : list sseg := [SLit "api"; SLit "v1"; SVar ns ["webhook"]] ++ rest.

(** A variable segment that is plain. *)
Lemma url_plain_seg v avoid : url_plain v = true -> v ∉ avoid -> sseg_ok (SVar v avoid) /\ seg_url v = true.
Proof.
  unfold url_plain, plain, seg_url. rewrite !andb_true_iff, !negb_true_iff.
  intros [[[[[[Hv%String.eqb_neq _] _] ->] ->] _] _] Ha. done.
Qed.

Lemma lit_seg s : negb (String.eqb s "") = true -> sseg_ok (SLit s).
Proof. intros Hs%negb_true_iff. by apply String.eqb_neq in Hs. Qed.

(** Routing of a request whose segments are known but for plain names. *)
Ltac seg_ok :=
  first [ apply lit_seg; reflexivity | apply url_plain_seg; [assumption|]; first [assumption|apply not_elem_of_nil] ].
Ltac segs_ok := repeat first [ apply List.Forall_nil | apply List.Forall_cons; [seg_ok|] ].
Ltac url_ok :=
  cbn [map sval forallb];
  repeat first [ reflexivity
               | eapply url_plain_seg; [eassumption|apply not_elem_of_nil]
               | apply andb_true_intro; split ].
Ltac routed_by segs query :=
  apply (route_of_sound _ segs query);
  [ cbn; rewrite ?append_nil_r, ?append_assoc; reflexivity
  | first [left; reflexivity | right; eexists; reflexivity]
  | unfold api; cbn [app]; segs_ok
  | unfold api; cbn [app]; url_ok
  | vm_compute; reflexivity ].

End Calls.

(** Concrete names and bodies; nothing is decoded. *)
Definition undecoded {A} : Decode A := fun _ => Err "no JSON".
Definition demo_approval : ApprovalInfo :=
  {| ap_ID := "a-1"; ap_TaskRunID := "t-1"; ap_AgentFlowRunID := ""; ap_Token := ""; ap_Status := "PENDING"; ap_Approved := None;
     ap_Comment := ""; ap_Timeout := 60; ap_ExpiresAt := None; ap_ResolvedAt := None |}.
Definition demo_knowledge : KnowledgeRow :=
  {| kn_base := no_base; kn_Title := "t"; kn_Content := "c"; kn_ContentType := ""; kn_Source := "";
     kn_SourceRef := ""; kn_Tags := None; kn_Metadata := None |}.


(** ** What goes wrong outside of the plain names *)

(** A namespace called [webhook] cannot create flows: its POST is served by
    the webhook gateway, before the routes of the API. *)
Lemma webhook_namespace_shadowed spec :
  route_of (call_req (CreateFlow "webhook" spec)) = Some ("webhook.Handle", [("provider", "flows")]).
Proof. reflexivity. Qed.

(** A flow called [watch] can be created but not read. *)
Lemma watch_flow_hidden `{Decode FlowInfo} :
  route_of (call_req (GetFlow "acme" "watch")) = Some ("flowDef.Watch", [("namespace", "acme")]).
Proof. reflexivity. Qed.

(** Names are not escaped: reading the flow [x?y] reads the flow [x]. *)
Lemma names_not_escaped `{Decode FlowInfo} :
  route_of (call_req (GetFlow "acme" "x?y")) = Some ("flowDef.Get", [("namespace", "acme"); ("id", "x")]).
Proof. reflexivity. Qed.

(** The notifier asks for the channels of the empty namespace, which no route
    serves. *)
Lemma channels_of_no_namespace `{Decode (list NotifyChannelInfo)} : route_of (call_req (ListChannels "")) = None.
Proof. reflexivity. Qed.

(** A list that decodes leaves the version where it was, so that the next
    watch from there is answered at once again. *)
Lemma watch_list_keeps_since `{D : Decode (list FlowVersionInfo)} `{Decode (list FlowVersionInfo * Z)}
    ns since resp versions :
  decode (Decode := D) (cs_Body resp) = Ok versions ->
  call_done (WatchFlows ns since) (Ok resp) = Ok (versions, since).
Proof. cbn. by intros ->. Qed.
