(* ===== verification/Notifier.v ===== *)
(** * The notifier

    [pkg/notifier/pkg]: the senders (slack.go, telegram.go, dingtalk.go,
    email.go, webhook.go) and the manager (notifier.go) that announces pending
    approvals to channels and WebSocket clients.  A sender is one object that
    every channel of its type shares: a channel's configuration is decoded
    into it, and the send itself runs later. *)

From S2P Require Export Messager Client Json.

Local Open Scope string_scope.
Local Open Scope list_scope.
Local Open Scope Z_scope.

(** ** Messages (pkg/model/pkg/channel.go, websocket.go) *)

Record NotifierMessage := {
  nm_Title : string; nm_Body : string; nm_Namespace : string; nm_AgentFlowID : string; nm_Timestamp : Z;
}.

Record WSMessage := {
  ws_Type : string; ws_AgentFlowID : string; ws_RunID : string; ws_TaskID : string; ws_Payload : gomap;
}.
Definition WSHumanApprovalCreated : string := "human_approval_created".

(** ** Senders *)

Inductive Sender :=
| SlackSender (webhookURL channel : string)
| TelegramSender (botToken chatID baseURL : string)
| DingTalkSender (webhookURL secret : string)
| EmailSender (smtpHost : string) (smtpPort : Z) (username password from : string) (useTLS : bool)
| WebhookSender (url : string) (headers : list (string * string)).

Definition Sender_Type (s : Sender) : string :=
  match s with
  | SlackSender _ _ => "slack"
  | TelegramSender _ _ _ => "telegram"
  | DingTalkSender _ _ => "dingtalk"
  | EmailSender _ _ _ _ _ _ => "email"
  | WebhookSender _ _ => "webhook"
  end.

(** [None] is no error. *)
Definition Sender_Validate (s : Sender) : option string :=
  let required v msg (k : option string) := if String.eqb v "" then Some msg else k in
  match s with
  | SlackSender u _ => required u "slack: webhook_url is required" None
  | TelegramSender t c _ =>
      required t "telegram: bot_token is required" (required c "telegram: chat_id is required" None)
  | DingTalkSender u _ => required u "dingtalk: webhook_url is required" None
  | EmailSender h _ _ _ f _ =>
      required h "email: smtp_host is required" (required f "email: from address is required" None)
  | WebhookSender u _ => required u "webhook: url is required" None
  end.

(** What leaves the process. *)
Inductive Outgoing :=
| OHttp (url : string) (headers : list (string * string)) (body : string)
| OMail (addr : string) (auth : option (string * string * string)) (from : string) (to : list string) (msg : string).

(** The outside of a send: whether a request for a URL can be made, the HTTP
    client's status, the mail server, the base64 of an HMAC-SHA256, the
    clock in milliseconds and as RFC 3339, the context's error. *)
Record SendEnv := {
  se_newRequest : string -> option string;
  se_do : string -> list (string * string) -> string -> res Z;
  se_mail : string -> option (string * string * string) -> string -> list string -> string -> option string;
  se_hmac : string -> string -> string;
  se_millis : Z; se_rfc3339 : string; se_ctx : option string;
}.

Section Send.
Variable env : SendEnv.

(** The end of the four senders over HTTP: [None] is success. *)
Definition post (name url : string) (headers : list (string * string)) (payload : gomap)
    : option string * list Outgoing :=
  let b := Marshal (VMap payload) in
  match se_newRequest env url with
  | Some err => (Some err, [])
  | None =>
      (match se_do env url headers b with
       | Err err => Some (name +:+ " send: " +:+ err)
       | Ok status => if 400 <=? status then Some (name +:+ ": HTTP " +:+ Itoa status) else None
       end, [OHttp url headers b])
  end.

Definition content_type : list (string * string) := [("Content-Type", "application/json")].

Definition Slack_Send (webhookURL channel recipient title body : string) : option string * list Outgoing :=
  let channel := if String.eqb recipient "" then channel else recipient in
  let text kind s := VMap [("type", VStr kind); ("text", VStr s)] in
  let payload :=
    [("channel", VStr channel);
     ("blocks", VList [VMap [("type", VStr "header"); ("text", text "plain_text" title)];
                       VMap [("type", VStr "section"); ("text", text "mrkdwn" body)]])] in
  let payload := if String.eqb title "" then payload ++ [("text", VStr body)] else payload in
  post "slack" webhookURL content_type payload.

Definition telegram_base (baseURL : string) : string :=
  if String.eqb baseURL "" then "https://api.telegram.org" else baseURL.

Definition Telegram_Send (botToken chatID baseURL recipient title body : string) : option string * list Outgoing :=
  let chatID := if String.eqb recipient "" then chatID else recipient in
  let text := if String.eqb title "" then body else "*" +:+ title +:+ "*" +:+ newline +:+ newline +:+ body in
  post "telegram" (telegram_base baseURL +:+ "/bot" +:+ botToken +:+ "/sendMessage") content_type
    [("chat_id", VStr chatID); ("text", VStr text); ("parse_mode", VStr "Markdown")].

Definition DingTalk_Send (webhookURL secret recipient title body : string) : option string * list Outgoing :=
  let text := if String.eqb title "" then body else "### " +:+ title +:+ newline +:+ newline +:+ body in
  let targetURL :=
    if String.eqb secret "" then webhookURL
    else
      let timestamp := Itoa (se_millis env) in
      let sign := se_hmac env secret (timestamp +:+ newline +:+ secret) in
      webhookURL +:+ "&timestamp=" +:+ QueryEscape timestamp +:+ "&sign=" +:+ QueryEscape sign in
  post "dingtalk" targetURL content_type
    [("msgtype", VStr "markdown"); ("markdown", VMap [("title", VStr title); ("text", VStr text)])].

Definition crlf : string := String (Ascii.ascii_of_nat 13) newline.

Definition buildEmail (from to subject body : string) : string :=
  "From: " +:+ from +:+ crlf +:+ "To: " +:+ to +:+ crlf +:+ "Subject: " +:+ subject +:+ crlf +:+
  "MIME-Version: 1.0" +:+ crlf +:+ "Content-Type: text/plain; charset=" +:+ Quote "UTF-8" +:+ crlf +:+ crlf +:+ body.

Definition Email_Send (smtpHost : string) (smtpPort : Z) (username password from : string) (useTLS : bool)
    (recipient title body : string) : option string * list Outgoing :=
  let port := if smtpPort =? 0 then 587 else smtpPort in
  let addr := smtpHost +:+ ":" +:+ Itoa port in
  let msg := buildEmail from recipient title body in
  let auth := if String.eqb username "" then None else Some (username, password, smtpHost) in
  match se_ctx env with
  | Some err => (Some err, [])
  | None =>
      if useTLS then (Some "email: TLS not yet implemented; set use_tls=false for STARTTLS", [])
      else (se_mail env addr auth from [recipient] msg, [OMail addr auth from [recipient] msg])
  end.

Definition Webhook_Send (url : string) (headers : list (string * string)) (recipient title body : string)
    : option string * list Outgoing :=
  post "webhook" url (fold_left (fun h kv => mset kv.1 kv.2 h) headers content_type)
    [("title", VStr title); ("body", VStr body); ("recipient", VStr recipient); ("timestamp", VStr (se_rfc3339 env))].

Definition Sender_Send (s : Sender) (recipient title body : string) : option string * list Outgoing :=
  match s with
  | SlackSender u c => Slack_Send u c recipient title body
  | TelegramSender t c b => Telegram_Send t c b recipient title body
  | DingTalkSender u sec => DingTalk_Send u sec recipient title body
  | EmailSender h p u pw f tls => Email_Send h p u pw f tls recipient title body
  | WebhookSender u hs => Webhook_Send u hs recipient title body
  end.
End Send.

(** ** Configuring a sender

    [configureSender] encodes the configuration, a JSON object, and decodes it
    into the sender: fields match their name in any case, a null leaves a
    field alone (and empties a map), a value of another type is an error that
    leaves the field and goes on with the others. *)

(** Entries are added to the map that is there. *)
Definition dec_headers (v : any) (old : list (string * string)) : list (string * string) * bool :=
  match v with
  | VMap m =>
      fold_left (fun (acc : list (string * string) * bool) kv =>
        let (s, ok) := dec_string kv.2 "" in (mset kv.1 s acc.1, acc.2 && ok)) (sort_keys m) (old, true)
  | VNil => ([], true)
  | _ => (old, false)
  end.

Definition set_field (s : Sender) (k : string) (v : any) : Sender * bool :=
  let field name := EqualFold k name in
  match s with
  | SlackSender u c =>
      if field "webhook_url" then let (x, ok) := dec_string v u in (SlackSender x c, ok)
      else if field "channel" then let (x, ok) := dec_string v c in (SlackSender u x, ok)
      else (s, true)
  | TelegramSender t c b =>
      if field "bot_token" then let (x, ok) := dec_string v t in (TelegramSender x c b, ok)
      else if field "chat_id" then let (x, ok) := dec_string v c in (TelegramSender t x b, ok)
      else if field "base_url" then let (x, ok) := dec_string v b in (TelegramSender t c x, ok)
      else (s, true)
  | DingTalkSender u sec =>
      if field "webhook_url" then let (x, ok) := dec_string v u in (DingTalkSender x sec, ok)
      else if field "secret" then let (x, ok) := dec_string v sec in (DingTalkSender u x, ok)
      else (s, true)
  | EmailSender h p u pw f tls =>
      if field "smtp_host" then let (x, ok) := dec_string v h in (EmailSender x p u pw f tls, ok)
      else if field "smtp_port" then let (x, ok) := dec_int v p in (EmailSender h x u pw f tls, ok)
      else if field "username" then let (x, ok) := dec_string v u in (EmailSender h p x pw f tls, ok)
      else if field "password" then let (x, ok) := dec_string v pw in (EmailSender h p u x f tls, ok)
      else if field "from" then let (x, ok) := dec_string v f in (EmailSender h p u pw x tls, ok)
      else if field "use_tls" then let (x, ok) := dec_bool v tls in (EmailSender h p u pw f x, ok)
      else (s, true)
  | WebhookSender u hs =>
      if field "url" then let (x, ok) := dec_string v u in (WebhookSender x hs, ok)
      else if field "headers" then let (x, ok) := dec_headers v hs in (WebhookSender u x, ok)
      else (s, true)
  end.

Definition configureSender (s : Sender) (config : gomap) : Sender * bool :=
  fold_left (fun (acc : Sender * bool) kv =>
    let (s, ok) := set_field acc.1 kv.1 kv.2 in (s, acc.2 && ok)) (sort_keys config) (s, true).

(** ** The manager *)

Record NotifierConfig := {
  nf_ScanInterval : string; nf_CleanupInterval : string; nf_RouteTimeout : string;
  nf_Telegram_BaseURL : string; nf_Email_SMTPPort : Z;
}.

(** [time.ParseDuration] is given; nanoseconds. *)
Definition parseDuration (parse_duration : string -> option Z) (s : string) (fallback : Z) : Z :=
  if String.eqb s "" then fallback else match parse_duration s with Some d => d | None => fallback end.

(** A connection's channel holds at most 64 messages, here the values that
    are encoded. *)
Record wsConn := { wc_ID : string; wc_AgentFlowID : string; wc_MsgCh : list WSMessage; wc_done : bool }.

(** A goroutine that will send: it holds the sender object, which is the one
    registered under the channel's type (senders are registered before the
    manager starts). *)
Record Pending := {
  pd_channel : string; pd_type : string; pd_recipient : string; pd_title : string; pd_body : string;
}.

(** [nt_mqtt] tells whether there is an MQTT client; [nt_routes] are those of
    the API client's adapter. *)
Record NotifierManager := {
  nt_mqtt : bool; nt_senders : gmap string Sender; nt_podID : string; nt_wsClients : gmap string wsConn;
  nt_routes : routes_map; nt_seen : gset string; nt_pending : list Pending;
  nt_scanInterval : Z; nt_cleanupInterval : Z; nt_routeTimeout : Z; nt_cfg : NotifierConfig;
}.

Definition with_senders (m : gmap string Sender) (n : NotifierManager) : NotifierManager :=
  {| nt_mqtt := nt_mqtt n; nt_senders := m; nt_podID := nt_podID n; nt_wsClients := nt_wsClients n;
     nt_routes := nt_routes n; nt_seen := nt_seen n; nt_pending := nt_pending n;
     nt_scanInterval := nt_scanInterval n; nt_cleanupInterval := nt_cleanupInterval n;
     nt_routeTimeout := nt_routeTimeout n; nt_cfg := nt_cfg n |}.
Definition with_pending (l : list Pending) (n : NotifierManager) : NotifierManager :=
  {| nt_mqtt := nt_mqtt n; nt_senders := nt_senders n; nt_podID := nt_podID n; nt_wsClients := nt_wsClients n;
     nt_routes := nt_routes n; nt_seen := nt_seen n; nt_pending := l;
     nt_scanInterval := nt_scanInterval n; nt_cleanupInterval := nt_cleanupInterval n;
     nt_routeTimeout := nt_routeTimeout n; nt_cfg := nt_cfg n |}.
Definition with_seen (seen : gset string) (n : NotifierManager) : NotifierManager :=
  {| nt_mqtt := nt_mqtt n; nt_senders := nt_senders n; nt_podID := nt_podID n; nt_wsClients := nt_wsClients n;
     nt_routes := nt_routes n; nt_seen := seen; nt_pending := nt_pending n;
     nt_scanInterval := nt_scanInterval n; nt_cleanupInterval := nt_cleanupInterval n;
     nt_routeTimeout := nt_routeTimeout n; nt_cfg := nt_cfg n |}.
Definition with_ws (clients : gmap string wsConn) (routes : routes_map) (n : NotifierManager) : NotifierManager :=
  {| nt_mqtt := nt_mqtt n; nt_senders := nt_senders n; nt_podID := nt_podID n; nt_wsClients := clients;
     nt_routes := routes; nt_seen := nt_seen n; nt_pending := nt_pending n;
     nt_scanInterval := nt_scanInterval n; nt_cleanupInterval := nt_cleanupInterval n;
     nt_routeTimeout := nt_routeTimeout n; nt_cfg := nt_cfg n |}.

Definition second : Z := 1000000000.

Definition built_in_senders (cfg : NotifierConfig) : gmap string Sender :=
  <["telegram" := TelegramSender "" "" (nf_Telegram_BaseURL cfg)]>
  (<["dingtalk" := DingTalkSender "" ""]>
  (<["slack" := SlackSender "" ""]>
  (<["email" := EmailSender "" (nf_Email_SMTPPort cfg) "" "" "" false]>
  (<["webhook" := WebhookSender "" []]> ∅)))).

(** [hostname] and the first eight characters of a fresh id name the pod. *)
Definition NewFlowgentNotifierManager (parse_duration : string -> option Z) (mqtt : bool) (hostname id : string)
    (cfg : NotifierConfig) : NotifierManager :=
  {| nt_mqtt := mqtt; nt_senders := built_in_senders cfg; nt_podID := hostname +:+ "-" +:+ stake 8 id;
     nt_wsClients := ∅; nt_routes := ∅; nt_seen := ∅; nt_pending := [];
     nt_scanInterval := parseDuration parse_duration (nf_ScanInterval cfg) (5 * second);
     nt_cleanupInterval := parseDuration parse_duration (nf_CleanupInterval cfg) (30 * second);
     nt_routeTimeout := parseDuration parse_duration (nf_RouteTimeout cfg) (300 * second); nt_cfg := cfg |}.

(** [CreateNotifierService] (helper.go) gives no MQTT client. *)
Definition CreateNotifierService (parse_duration : string -> option Z) (hostname id : string) (cfg : NotifierConfig)
    : NotifierManager := NewFlowgentNotifierManager parse_duration false hostname id cfg.

(** The subscriptions of [Start]. *)
Inductive sub_handler := OnMQTTMessage | OnQueueMessage.
Definition notifier_Start (n : NotifierManager) : list (string * sub_handler) :=
  if nt_mqtt n then [(NotifyPodWSWildcard (nt_podID n), OnMQTTMessage); (NotifyQueueWildcard, OnQueueMessage)] else [].

Definition RegisterSender (name : string) (s : Sender) (n : NotifierManager) : NotifierManager :=
  with_senders (<[name := s]> (nt_senders n)) n.

Definition applyDefaults (cfg : NotifierConfig) (s : Sender) : Sender :=
  match s with
  | TelegramSender t c b =>
      if String.eqb (nf_Telegram_BaseURL cfg) "" then s else TelegramSender t c (nf_Telegram_BaseURL cfg)
  | EmailSender h p u pw f tls =>
      if negb (nf_Email_SMTPPort cfg =? 0) && (p =? 0) then EmailSender h (nf_Email_SMTPPort cfg) u pw f tls else s
  | _ => s
  end.

(** One channel of [notifyChannels]. *)
Definition notify_channel (recipient title body : string) (n : NotifierManager) (ch : NotifyChannelInfo) : NotifierManager :=
  if negb (nc_Enabled ch) then n
  else match nt_senders n !! nc_ChannelType ch with
       | None => n
       | Some s =>
           let (s, ok) := configureSender (applyDefaults (nt_cfg n) s) (nc_Config ch) in
           let n := with_senders (<[nc_ChannelType ch := s]> (nt_senders n)) n in
           if ok
           then with_pending (nt_pending n ++
                  [{| pd_channel := nc_Name ch; pd_type := nc_ChannelType ch; pd_recipient := recipient;
                      pd_title := title; pd_body := body |}]) n
           else n
       end.

(** [channels] is the answer of the API. *)
Definition notifyChannels (channels : res (list NotifyChannelInfo)) (recipient title body : string) (n : NotifierManager)
    : NotifierManager :=
  match channels with
  | Err _ => n
  | Ok l => fold_left (notify_channel recipient title body) l n
  end.

(** A goroutine of [notifyChannels] runs: it reads the sender as it is now. *)
Definition run_send (env : SendEnv) (i : nat) (n : NotifierManager) : (option string * list Outgoing) * NotifierManager :=
  match nt_pending n !! i with
  | None => ((None, []), n)
  | Some p =>
      (match nt_senders n !! pd_type p with
       | Some s => Sender_Send env s (pd_recipient p) (pd_title p) (pd_body p)
       | None => (None, [])
       end, with_pending (delete i (nt_pending n)) n)
  end.

(** ** WebSocket clients *)

Definition zero_time : Z := -62135596800 * second.

(** [connID] and [routeID] are fresh. *)
Definition RegisterWS (connID routeID agentFlowID : string) (n : NotifierManager) : NotifierManager :=
  let conn := {| wc_ID := connID; wc_AgentFlowID := agentFlowID; wc_MsgCh := []; wc_done := false |} in
  let route := {| sr_ID := routeID; sr_AgentFlowID := agentFlowID; sr_WSID := connID; sr_PodID := nt_podID n;
                  sr_CreatedAt := zero_time |} in
  with_ws (<[connID := conn]> (nt_wsClients n)) (SaveRoute route (nt_routes n)) n.

Definition UnregisterWS (wsID : string) (n : NotifierManager) : NotifierManager :=
  with_ws (delete wsID (nt_wsClients n)) (DeleteRoute wsID (nt_routes n)) n.

(** A message that does not fit is dropped; [None] does not decode. *)
Definition onMQTTMessage (payload : option WSMessage) (n : NotifierManager) : NotifierManager :=
  match payload with
  | None => n
  | Some msg =>
      match nt_wsClients n !! ws_TaskID msg with
      | None => n
      | Some conn =>
          if Nat.ltb (length (wc_MsgCh conn)) 64
          then with_ws (<[ws_TaskID msg := {| wc_ID := wc_ID conn; wc_AgentFlowID := wc_AgentFlowID conn;
                            wc_MsgCh := wc_MsgCh conn ++ [msg]; wc_done := wc_done conn |}]> (nt_wsClients n))
                 (nt_routes n) n
          else n
      end
  end.

(** The publications of a push. *)
Definition pushToSubscribers `{RangeOrder} (agentFlowID : string) (msg : WSMessage) (n : NotifierManager)
    : list (string * WSMessage) :=
  map (fun r => (NotifyPodWSTopic (sr_PodID r) (sr_WSID r), msg)) (GetRoutesByFlow agentFlowID (nt_routes n)).

Definition cleanup_tick `{RangeOrder} (now : Z) (n : NotifierManager) : NotifierManager :=
  with_ws (nt_wsClients n) (CleanupOrphanedRoutes (nt_podID n) (nt_routeTimeout n) now (nt_routes n)).2 n.

(** The clients that are closed, and the manager without them. *)
Definition notifier_Shutdown `{RangeOrder} (n : NotifierManager) : list wsConn * NotifierManager :=
  (map (fun kv => {| wc_ID := wc_ID kv.2; wc_AgentFlowID := wc_AgentFlowID kv.2; wc_MsgCh := wc_MsgCh kv.2;
                     wc_done := true |}) (range_of (nt_wsClients n)),
   with_ws ∅ (nt_routes n) n).

(** ** Pending approvals *)

Definition approval_message (a : ApprovalInfo) : WSMessage :=
  {| ws_Type := WSHumanApprovalCreated; ws_AgentFlowID := "";
     ws_RunID := if String.eqb (ap_AgentFlowRunID a) "" then ap_TaskRunID a else ap_AgentFlowRunID a;
     ws_TaskID := ap_TaskRunID a; ws_Payload := [("token", VStr (ap_Token a)); ("status", VStr (ap_Status a))] |}.

(** One approval of a scan; [channels] is what the API lists when the channels
    of this token are looked up.  The results are the publications. *)
Definition scan_approval `{RangeOrder} (channels : string -> res (list NotifyChannelInfo))
    (acc : list (string * WSMessage) * NotifierManager) (a : ApprovalInfo) : list (string * WSMessage) * NotifierManager :=
  let (out, n) := acc in
  if bool_decide (ap_Token a ∈ nt_seen n) then acc
  else
    let n := with_seen ({[ap_Token a]} ∪ nt_seen n) n in
    let msg := approval_message a in
    let out := out ++ (if nt_mqtt n then pushToSubscribers (ws_RunID msg) msg n else []) in
    (out, notifyChannels (channels (ap_Token a)) (ap_Token a) "Human Approval Required"
            ("A human approval is pending for task " +:+ ap_TaskRunID a +:+ ". Token: " +:+ ap_Token a) n).

(** A tick of [scanHumanApprovals]. *)
Definition scan_tick `{RangeOrder} (approvals : res (list ApprovalInfo))
    (channels : string -> res (list NotifyChannelInfo)) (n : NotifierManager) : list (string * WSMessage) * NotifierManager :=
  match approvals with
  | Err _ => ([], n)
  | Ok l => fold_left (scan_approval channels) l ([], n)
  end.

(** ** The queue *)

Inductive fmt_part := FLit (s : string) | FStr.

Fixpoint skip_space (s : string) : string :=
  match s with String c s' => if is_space c then skip_space s' else s | EmptyString => s end.
Fixpoint token (s : string) : string * string :=
  match s with
  | EmptyString => ("", "")
  | String c s' => if is_space c then ("", s) else let (t, r) := token s' in (String c t, r)
  end.

(** [fmt.Sscanf]: literals are matched, [%s] takes everything up to a space
    (those of ASCII; a newline is one); the values read before the first
    mismatch. *)
Fixpoint Sscanf (s : string) (f : list fmt_part) : list string :=
  match f with
  | [] => []
  | FLit l :: f => match CutPrefix s l with Some s => Sscanf s f | None => [] end
  | FStr :: f =>
      let (t, r) := token (skip_space s) in
      if String.eqb t "" then [] else t :: Sscanf r f
  end.

Definition queue_format : list fmt_part := [FLit (TopicPrefix +:+ "/"); FStr; FLit "/flows/"; FStr; FLit "/runs/"].

(** [payload] is its decoding. *)
Definition onQueueMessage (topic : string) (payload : option NotifierMessage)
    (channels : res (list NotifyChannelInfo)) (n : NotifierManager) : NotifierManager :=
  if Nat.ltb (length (Sscanf topic queue_format)) 2 then n
  else match payload with
       | None => n
       | Some msg => notifyChannels channels "" (nm_Title msg) (nm_Body msg) n
       end.

(** The topic and the message, or the error without MQTT. *)
Definition PublishNotification (namespaceID agentflowID title body : string) (now : Z) (n : NotifierManager)
    : res (string * NotifierMessage) :=
  if negb (nt_mqtt n) then Err "notification: mqtt not configured"
  else Ok (NotifyEventTopic namespaceID agentflowID "",
           {| nm_Title := title; nm_Body := body; nm_Namespace := namespaceID; nm_AgentFlowID := agentflowID;
              nm_Timestamp := now |}).

(** ** The events of a manager *)

Inductive notifier_event :=
| EScan (approvals : res (list ApprovalInfo)) (channels : string -> res (list NotifyChannelInfo))
| EQueue (topic : string) (payload : option NotifierMessage) (channels : res (list NotifyChannelInfo))
| EPush (payload : option WSMessage)
| ERegister (connID routeID agentFlowID : string)
| EUnregister (wsID : string)
| ESend (env : SendEnv) (i : nat)
| ECleanup (now : Z).

Definition notifier_step `{RangeOrder} (n : NotifierManager) (e : notifier_event) : NotifierManager :=
  match e with
  | EScan approvals channels => (scan_tick approvals channels n).2
  | EQueue topic payload channels => onQueueMessage topic payload channels n
  | EPush payload => onMQTTMessage payload n
  | ERegister c r f => RegisterWS c r f n
  | EUnregister w => UnregisterWS w n
  | ESend env i => (run_send env i n).2
  | ECleanup now => cleanup_tick now n
  end.

(** * Properties of the notifier

    Who is notified, what an approval that was announced does later, and the
    ways a notification does not reach whom it is for: the queue, the pushes
    to WebSocket clients, senders that channels share, routes. *)

(** ** Whether a configuration decodes

    It depends on the kind of the sender only. *)

Definition kind (s : Sender) : Sender :=
  match s with
  | SlackSender _ _ => SlackSender "" ""
  | TelegramSender _ _ _ => TelegramSender "" "" ""
  | DingTalkSender _ _ => DingTalkSender "" ""
  | EmailSender _ _ _ _ _ _ => EmailSender "" 0 "" "" "" false
  | WebhookSender _ _ => WebhookSender "" []
  end.

Lemma dec_string_ok v old old' : (dec_string v old).2 = (dec_string v old').2.
Proof. by destruct v. Qed.
Lemma dec_bool_ok v old old' : (dec_bool v old).2 = (dec_bool v old').2.
Proof. by destruct v. Qed.
Lemma dec_int_ok v old old' : (dec_int v old).2 = (dec_int v old').2.
Proof. destruct v as [|b|z|f|s|l|m]; try done. cbn. by destruct (Atoi _). Qed.
Lemma dec_headers_ok v old old' : (dec_headers v old).2 = (dec_headers v old').2.
Proof.
  destruct v as [|b|z|f|s|l|m]; try done. cbn [dec_headers]. generalize true at 1 2 as ok.
  revert old old'. induction (sort_keys m) as [|kv l IH]; intros old old' ok; [done|].
  cbn [fold_left]. destruct (dec_string kv.2 "") as [s b]. apply IH.
Qed.

Lemma set_field_kind s s' k v : kind s = kind s' ->
  kind (set_field s k v).1 = kind s /\ (set_field s k v).2 = (set_field s' k v).2.
Proof.
  assert (forall A (p q : A * bool), p.2 = q.2 -> let (_, a) := p in let (_, b) := q in a = b) as Hp
    by (by intros A [? ?] [? ?]).
  destruct s, s'; try done; intros _; cbn [set_field];
    repeat match goal with
    | |- context [if EqualFold k ?n then _ else _] => destruct (EqualFold k n)
    end; try done;
    match goal with
    | |- context [dec_string v ?a] =>
        match goal with |- context [dec_string v ?b] =>
          assert_fails (constr_eq a b); specialize (Hp _ _ _ (dec_string_ok v a b)) end
    | |- context [dec_int v ?a] =>
        match goal with |- context [dec_int v ?b] =>
          assert_fails (constr_eq a b); specialize (Hp _ _ _ (dec_int_ok v a b)) end
    | |- context [dec_bool v ?a] =>
        match goal with |- context [dec_bool v ?b] =>
          assert_fails (constr_eq a b); specialize (Hp _ _ _ (dec_bool_ok v a b)) end
    | |- context [dec_headers v ?a] =>
        match goal with |- context [dec_headers v ?b] =>
          assert_fails (constr_eq a b); specialize (Hp _ _ _ (dec_headers_ok v a b)) end
    end;
    repeat match goal with |- context [let (_, _) := ?p in _] => destruct p end; done.
Qed.

Lemma configureSender_kind s s' config : kind s = kind s' ->
  kind (configureSender s config).1 = kind s /\ (configureSender s config).2 = (configureSender s' config).2.
Proof.
  unfold configureSender. generalize true as ok. revert s s'.
  induction (sort_keys config) as [|kv l IH]; intros s s' ok Hk; [done|].
  cbn [fold_left fst snd]. destruct (set_field_kind s s' kv.1 kv.2 Hk) as [H1 H2].
  destruct (set_field_kind s' s kv.1 kv.2 (eq_sym Hk)) as [H3 _].
  destruct (set_field s kv.1 kv.2) as [t b], (set_field s' kv.1 kv.2) as [t' b']. cbn in *. subst b'.
  rewrite <- H1. apply IH. congruence.
Qed.

Lemma applyDefaults_kind cfg s : kind (applyDefaults cfg s) = kind s.
Proof. destruct s; cbn; try done; by destruct (_ : bool). Qed.

(** ** Who is notified *)

(** A channel that is enabled, of a registered type, whose configuration
    decodes into a sender of that type. *)
Definition accepts (senders : gmap string Sender) (ch : NotifyChannelInfo) : bool :=
  nc_Enabled ch &&
  match senders !! nc_ChannelType ch with Some s => (configureSender (kind s) (nc_Config ch)).2 | None => false end.

Definition pending_of (recipient title body : string) (ch : NotifyChannelInfo) : Pending :=
  {| pd_channel := nc_Name ch; pd_type := nc_ChannelType ch; pd_recipient := recipient; pd_title := title;
     pd_body := body |}.

Definition kinds (m : gmap string Sender) : gmap string Sender := kind <$> m.

Lemma accepts_kinds m m' ch : kinds m = kinds m' -> accepts m ch = accepts m' ch.
Proof.
  intros Hk. unfold accepts. f_equal. assert (kinds m !! nc_ChannelType ch = kinds m' !! nc_ChannelType ch) as E
    by (by rewrite Hk). unfold kinds in E. rewrite !lookup_fmap in E.
  destruct (m !! _), (m' !! _); cbn in E; try done. by injection E as ->.
Qed.

Lemma kind_idem s : kind (kind s) = kind s.
Proof. by destruct s. Qed.

Lemma notify_channel_spec r t b n ch :
  let n' := notify_channel r t b n ch in
  nt_pending n' = nt_pending n ++ (if accepts (nt_senders n) ch then [pending_of r t b ch] else []) /\
  kinds (nt_senders n') = kinds (nt_senders n) /\ nt_seen n' = nt_seen n /\
  nt_wsClients n' = nt_wsClients n /\ nt_routes n' = nt_routes n.
Proof.
  unfold notify_channel, accepts. destruct (nc_Enabled ch); cbn [negb andb]; [|by rewrite app_nil_r].
  destruct (nt_senders n !! nc_ChannelType ch) as [s|] eqn:Es; [|by rewrite app_nil_r].
  assert (kind (applyDefaults (nt_cfg n) s) = kind (kind s)) as Hk by (by rewrite kind_idem, applyDefaults_kind).
  destruct (configureSender_kind _ _ (nc_Config ch) Hk) as [H1 <-]. rewrite kind_idem in Hk. rewrite Hk in H1.
  destruct (configureSender _ (nc_Config ch)) as [s' ok]. cbn in H1.
  assert (kinds (<[nc_ChannelType ch := s']> (nt_senders n)) = kinds (nt_senders n)) as Hs.
  { unfold kinds. rewrite fmap_insert. apply insert_id. rewrite lookup_fmap, Es. cbn. by rewrite H1. }
  destruct ok; cbn; by rewrite ?app_nil_r.
Qed.

(** A notification is handed to exactly the channels that are enabled, of a
    registered type and with a configuration that decodes, once each and in
    the order of the list; the others, and a list that could not be read,
    start nothing; nothing but the senders' configuration changes besides. *)
Theorem channels_notified channels recipient title body n :
  let n' := notifyChannels channels recipient title body n in
  nt_pending n' = nt_pending n ++
    match channels with
    | Ok l => map (pending_of recipient title body) (List.filter (accepts (nt_senders n)) l)
    | Err _ => []
    end /\
  kinds (nt_senders n') = kinds (nt_senders n) /\ nt_seen n' = nt_seen n /\
  nt_wsClients n' = nt_wsClients n /\ nt_routes n' = nt_routes n.
Proof.
  destruct channels as [l|err]; cbn [notifyChannels]; [|by rewrite app_nil_r].
  revert n. induction l as [|ch l IH]; intros n; cbn [fold_left List.filter map]; [by rewrite app_nil_r|].
  destruct (notify_channel_spec recipient title body n ch) as (Hp & Hk & Hs & Hw & Hr).
  destruct (IH (notify_channel recipient title body n ch)) as (Hp' & Hk' & Hs' & Hw' & Hr').
  split_and!; try congruence. rewrite Hp', Hp, <- app_assoc. f_equal.
  rewrite (filter_ext _ (accepts (nt_senders n))) by (intros c; by apply accepts_kinds).
  by destruct (accepts (nt_senders n) ch).
Qed.

(** ** Approvals are announced once *)

Section Once.
Context `{RangeOrder}.

Lemma notify_seen channels r t b n : nt_seen (notifyChannels channels r t b n) = nt_seen n.
Proof.
  destruct channels as [l|err]; cbn [notifyChannels]; [|done]. revert n.
  induction l as [|ch l IH]; intros n; cbn [fold_left]; [done|]. rewrite IH.
  by destruct (notify_channel_spec r t b n ch) as (_ & _ & -> & _).
Qed.

Lemma scan_approval_seen channels acc a :
  nt_seen (scan_approval channels acc a).2 = {[ap_Token a]} ∪ nt_seen acc.2.
Proof.
  destruct acc as [out n]. cbn [scan_approval snd]. case_bool_decide as Hs; [set_solver|].
  cbn [snd]. by rewrite notify_seen.
Qed.

Lemma scan_fold_seen channels l : forall acc,
  nt_seen (fold_left (scan_approval channels) l acc).2 = list_to_set (map ap_Token l) ∪ nt_seen acc.2.
Proof.
  induction l as [|a l IH]; intros acc; cbn [fold_left map list_to_set]; [set_solver|].
  rewrite IH, scan_approval_seen. set_solver.
Qed.

Lemma scan_seen_silent channels l acc :
  (forall a, a ∈ l -> ap_Token a ∈ nt_seen acc.2) -> fold_left (scan_approval channels) l acc = acc.
Proof.
  induction l as [|a l IH]; intros Hl; cbn [fold_left]; [done|].
  assert (scan_approval channels acc a = acc) as ->.
  { destruct acc as [out n]. cbn [scan_approval]. rewrite bool_decide_true by (apply Hl; left). done. }
  apply IH. intros b Hb. apply Hl. by right.
Qed.

Lemma step_seen n e : nt_seen n ⊆ nt_seen (notifier_step n e).
Proof.
  destruct e as [approvals channels|topic payload channels|payload|c r f|w|env i|now]; cbn [notifier_step]; try done.
  - destruct approvals as [l|err]; cbn [scan_tick]; [|done]. rewrite scan_fold_seen. set_solver.
  - unfold onQueueMessage. destruct (Nat.ltb _ _); [done|]. destruct payload; [|done]. by rewrite notify_seen.
  - unfold onMQTTMessage. destruct payload as [m|]; [|done]. destruct (_ !! _); [|done]. by destruct (Nat.ltb _ _).
  - unfold run_send. by destruct (_ !! i).
Qed.

Lemma steps_seen evs : forall n, nt_seen n ⊆ nt_seen (fold_left notifier_step evs n).
Proof.
  induction evs as [|e evs IH]; intros n; cbn [fold_left]; [done|]. etrans; [apply (step_seen n e)|apply IH].
Qed.

(** An approval is announced once: after a scan that listed it, whatever
    happens in between, a later scan that lists it again (and nothing new)
    publishes nothing, starts no send and changes nothing. *)
Theorem approvals_announced_once n l channels evs l' channels' :
  (forall a, a ∈ l' -> exists b, b ∈ l /\ ap_Token b = ap_Token a) ->
  let n1 := (scan_tick (Ok l) channels n).2 in
  let n2 := fold_left notifier_step evs n1 in
  scan_tick (Ok l') channels' n2 = ([], n2).
Proof.
  intros Hl n1 n2. cbn [scan_tick]. apply scan_seen_silent. cbn [snd]. intros a Ha.
  destruct (Hl a Ha) as (b & Hb & <-). apply (steps_seen evs n1). unfold n1. cbn [scan_tick].
  rewrite scan_fold_seen, elem_of_union, elem_of_list_to_set. left. by apply list_elem_of_In, in_map, list_elem_of_In.
Qed.
End Once.

(** ** The queue *)

Lemma token_rest s : match (token s).2 with String c _ => is_space c = true | EmptyString => True end.
Proof.
  induction s as [|c s IH]; cbn; [done|]. destruct (is_space c) eqn:E; [done|]. by destruct (token s).
Qed.

(** [%s] takes the rest of the topic, slashes included: no message of the
    queue is ever processed, whatever its topic. *)
Lemma queue_messages_dropped topic payload channels n : onQueueMessage topic payload channels n = n.
Proof.
  unfold onQueueMessage. cbn [Sscanf queue_format]. destruct (CutPrefix topic _) as [s|]; [|done].
  pose proof (token_rest (skip_space s)) as Hr. destruct (token (skip_space s)) as [t r]. cbn in Hr.
  destruct (String.eqb t ""); [done|]. cbn [length]. destruct r as [|c r]; [done|].
  assert (CutPrefix (String c r) "/flows/" = None) as ->; [|done].
  clear -Hr. by destruct c as [[] [] [] [] [] [] [] []].
Qed.

(** ** WebSocket clients *)

(** A push goes to the topic of the connection, but the message is looked up
    under its task's id: a client gets none, unless it is called like the
    task. *)
Lemma push_needs_task_id conn payload n :
  (forall msg, payload = Some msg -> ws_TaskID msg <> conn) ->
  nt_wsClients (onMQTTMessage payload n) !! conn = nt_wsClients n !! conn.
Proof.
  intros Hp. unfold onMQTTMessage. destruct payload as [msg|]; [|done]. specialize (Hp _ eq_refl).
  destruct (nt_wsClients n !! ws_TaskID msg); [|done]. destruct (Nat.ltb _ _); [|done].
  cbn. by rewrite lookup_insert_ne.
Qed.

(** A buffer never holds more than its capacity. *)
Lemma ws_buffer_bounded payload n :
  (forall k c, nt_wsClients n !! k = Some c -> length (wc_MsgCh c) <= 64)%nat ->
  forall k c, nt_wsClients (onMQTTMessage payload n) !! k = Some c -> (length (wc_MsgCh c) <= 64)%nat.
Proof.
  intros Hb k c. unfold onMQTTMessage. destruct payload as [msg|]; [|apply Hb].
  destruct (nt_wsClients n !! ws_TaskID msg) as [conn|] eqn:E; [|apply Hb].
  destruct (Nat.ltb_spec (length (wc_MsgCh conn)) 64) as [Hlt|]; [|apply Hb].
  cbn [with_ws nt_wsClients]. destruct (decide (k = ws_TaskID msg)) as [->|].
  - rewrite lookup_insert_eq. intros [= <-]. cbn. rewrite length_app. cbn. lia.
  - rewrite lookup_insert_ne by done. apply Hb.
Qed.

(** ** Routes *)

Section Routes.
Context `{RangeOrder}.

(** The clean-up removes exactly the routes of the pod that are too old. *)
Lemma cleanup_spec pod maxAge now (routes : routes_map) k :
  (CleanupOrphanedRoutes pod maxAge now routes).2 !! k =
    match routes !! k with Some r => if orphaned pod maxAge now r then None else Some r | None => None end.
Proof.
  unfold CleanupOrphanedRoutes.
  assert (forall l acc, (fold_left (fun (acc : Z * routes_map) kv =>
      if orphaned pod maxAge now kv.2 then (acc.1 + 1, delete kv.1 acc.2) else acc) l acc).2 !! k =
    if existsb (fun kv => String.eqb kv.1 k && orphaned pod maxAge now kv.2) l then None else acc.2 !! k) as Hf.
  { induction l as [|[k' r] l IH]; intros acc; cbn [fold_left existsb fst snd]; [done|]. rewrite IH.
    destruct (existsb _ l); [by rewrite orb_true_r|]. rewrite orb_false_r.
    destruct (orphaned pod maxAge now r); rewrite ?andb_true_r, ?andb_false_r; [|done]. cbn [snd].
    destruct (String.eqb_spec k' k) as [->|Hk].
    - by rewrite lookup_delete_eq.
    - by rewrite lookup_delete_ne. }
  rewrite Hf. cbn [snd]. destruct (existsb _ _) eqn:E.
  - apply existsb_exists in E as ([k' r] & Hin & [Hk%String.eqb_eq Ho]%andb_true_iff). cbn [fst snd] in *. subst k'.
    apply list_elem_of_In, range_of_elem in Hin. by rewrite Hin, Ho.
  - destruct (routes !! k) as [r|] eqn:Er; [|done]. destruct (orphaned pod maxAge now r) eqn:Eo; [|done].
    assert (existsb (fun kv => String.eqb kv.1 k && orphaned pod maxAge now kv.2) (range_of routes) = true) as Ht; [|congruence].
    apply existsb_exists. exists (k, r). cbn [fst snd]. rewrite String.eqb_refl, Eo. split; [|done].
    by apply list_elem_of_In, range_of_elem.
Qed.

(** A route has no creation time, so the first clean-up removes the route of a
    client that is still there. *)
Lemma cleanup_drops_live conn route flow now n :
  nt_routeTimeout n < now - zero_time ->
  let n' := cleanup_tick now (RegisterWS conn route flow n) in
  nt_routes n' !! route = None /\ is_Some (nt_wsClients n' !! conn).
Proof.
  intros Hnow n'. unfold n', cleanup_tick, RegisterWS. cbn [with_ws nt_routes nt_wsClients nt_podID nt_routeTimeout].
  split; [|rewrite lookup_insert_eq; by eexists].
  rewrite cleanup_spec. unfold SaveRoute. cbn [sr_ID]. rewrite lookup_insert_eq.
  unfold orphaned. cbn [sr_PodID sr_CreatedAt]. rewrite String.eqb_refl. cbn [andb].
  by destruct (Z.ltb_spec (nt_routeTimeout n) (now - zero_time)); [|lia].
Qed.

(** The route of a client that leaves stays: it is deleted under the client's
    id and stored under its own. *)
Lemma unregister_keeps_route conn route flow n :
  conn <> route -> is_Some (nt_routes (UnregisterWS conn (RegisterWS conn route flow n)) !! route).
Proof.
  intros Hne. cbn. unfold DeleteRoute, SaveRoute. rewrite lookup_delete_ne by done. cbn [sr_ID].
  rewrite lookup_insert_eq. by eexists.
Qed.
End Routes.

(** ** Senders that channels share *)

Definition demo_cfg : NotifierConfig :=
  {| nf_ScanInterval := ""; nf_CleanupInterval := ""; nf_RouteTimeout := ""; nf_Telegram_BaseURL := "";
     nf_Email_SMTPPort := 0 |}.
Definition demo_notifier : NotifierManager := NewFlowgentNotifierManager (fun _ => None) true "pod" "0123456789" demo_cfg.
Definition demo_env : SendEnv :=
  {| se_newRequest := fun _ => None; se_do := fun _ _ _ => Ok 200; se_mail := fun _ _ _ _ _ => None;
     se_hmac := fun _ _ => ""; se_millis := 0; se_rfc3339 := "now"; se_ctx := None |}.
Definition demo_chan (name type : string) (config : gomap) : NotifyChannelInfo :=
  {| nc_base := {| b_ID := name; b_Description := ""; b_Namespace := ""; b_Status := ""; b_CreatedAt := 0;
                   b_CreatedBy := ""; b_UpdatedAt := 0; b_UpdatedBy := ""; b_DelFlag := false |};
     nc_Name := name; nc_ChannelType := type; nc_Config := config; nc_Enabled := true; nc_Labels := None |}.
Definition sent_to (o : Outgoing) : string := match o with OHttp u _ _ => u | OMail a _ _ _ _ => a end.

(** Two channels of one type: both goroutines run after the second
    configuration, and both send to the second channel. *)
Lemma channels_mixed :
  let l := [demo_chan "ops" "slack" [("webhook_url", VStr "https://ops")];
            demo_chan "dev" "slack" [("webhook_url", VStr "https://dev")]] in
  let n := notifyChannels (Ok l) "" "t" "b" demo_notifier in
  let (r1, n) := run_send demo_env 0 n in
  let (r2, _) := run_send demo_env 0 n in
  map sent_to (r1.2 ++ r2.2) = ["https://dev"; "https://dev"].
Proof. vm_compute. reflexivity. Qed.

(** The headers of one webhook, its credentials for example, are added to
    those of the next and sent to its URL. *)
Lemma webhook_headers_leak :
  let first := demo_chan "a" "webhook" [("url", VStr "https://a"); ("headers", VMap [("Authorization", VStr "secret-of-a")])] in
  let second := demo_chan "b" "webhook" [("url", VStr "https://b"); ("headers", VMap [("X-Team", VStr "b")])] in
  let n := notifyChannels (Ok [first]) "" "t" "b" demo_notifier in
  let n := (run_send demo_env 0 n).2 in
  let n := notifyChannels (Ok [second]) "" "t" "b" n in
  map (fun o => match o with OHttp u h _ => (u, mget "Authorization" h) | _ => ("", None) end)
    (run_send demo_env 0 n).1.2 = [("https://b", Some "secret-of-a")].
Proof. vm_compute. reflexivity. Qed.

(** The token of an approval is given as the recipient: it takes the place of
    the channel that is configured, and of the address of an e-mail. *)
Lemma token_is_recipient token body :
  (Email_Send demo_env "smtp" 25 "" "" "bot@acme" false token "t" body).2 =
    [OMail "smtp:25" None "bot@acme" [token] (buildEmail "bot@acme" token "t" body)] /\
  Slack_Send demo_env "https://ops" "ops-room" "tok" "t" body = Slack_Send demo_env "https://ops" "tok" "tok" "t" body.
Proof. done. Qed.

(** What a channel whose configuration is wrong did set stays in the sender of
    its type. *)
Lemma wrong_config_stays :
  let bad := demo_chan "bad" "slack" [("channel", VStr "bad-room"); ("webhook_url", VInt 5)] in
  let n := notifyChannels (Ok [bad]) "" "t" "b" demo_notifier in
  nt_pending n = [] /\ nt_senders n !! "slack" = Some (SlackSender "" "bad-room").
Proof. split; vm_compute; reflexivity. Qed.

(** A client subscribes to a flow; the push of an approval looks for clients
    of its run, and finds none. *)
Lemma approval_pushed_to_run `{RangeOrder} a n :
  ap_AgentFlowRunID a = "" ->
  (forall k r, nt_routes n !! k = Some r -> sr_AgentFlowID r <> ap_TaskRunID a) ->
  pushToSubscribers (ws_RunID (approval_message a)) (approval_message a) n = [].
Proof.
  intros Ha Hr. unfold pushToSubscribers, GetRoutesByFlow. cbn [approval_message ws_RunID]. rewrite Ha. cbn.
  assert (List.filter (fun r => String.eqb (sr_AgentFlowID r) (ap_TaskRunID a)) (map snd (range_of (nt_routes n))) = [])
    as ->; [|done].
  assert (forall l, (forall x : SubscriptionRoute, In x l -> sr_AgentFlowID x <> ap_TaskRunID a) ->
    List.filter (fun r => String.eqb (sr_AgentFlowID r) (ap_TaskRunID a)) l = []) as Hf.
  { induction l as [|x l IH]; intros Hl; cbn; [done|].
    rewrite (proj2 (String.eqb_neq _ _) (Hl x (or_introl eq_refl))). apply IH. intros y Hy. apply Hl. by right. }
  apply Hf. intros x ([k y] & <- & Hin)%in_map_iff. apply list_elem_of_In, range_of_elem in Hin. by apply (Hr k).
Qed.

(** The service that is built has no MQTT client: it subscribes to nothing. *)
Lemma service_subscribes_nothing parse_duration hostname id cfg :
  notifier_Start (CreateNotifierService parse_duration hostname id cfg) = [].
Proof. done. Qed.

(** ** The copy of the senders in notifier/pkg/channel

    No code uses that package.  Its senders over HTTP and by mail are the text
    of those above but for the HTTP client they make when they have none, and
    for Telegram, whose URL is fixed; it also has a hub for WebSockets. *)

Inductive Channel :=
| ChanSlack (webhookURL channel : string)
| ChanTelegram (botToken chatID : string)
| ChanDingTalk (webhookURL secret : string)
| ChanEmail (smtpHost : string) (smtpPort : Z) (username password from : string) (useTLS : bool)
| ChanWebhook (url : string) (headers : list (string * string)).

Definition chan_Type (c : Channel) : string :=
  match c with
  | ChanSlack _ _ => "slack"
  | ChanTelegram _ _ => "telegram"
  | ChanDingTalk _ _ => "dingtalk"
  | ChanEmail _ _ _ _ _ _ => "email"
  | ChanWebhook _ _ => "webhook"
  end.

Definition chan_Validate (c : Channel) : option string :=
  let required v msg (k : option string) := if String.eqb v "" then Some msg else k in
  match c with
  | ChanSlack u _ => required u "slack: webhook_url is required" None
  | ChanTelegram t c => required t "telegram: bot_token is required" (required c "telegram: chat_id is required" None)
  | ChanDingTalk u _ => required u "dingtalk: webhook_url is required" None
  | ChanEmail h _ _ _ f _ => required h "email: smtp_host is required" (required f "email: from address is required" None)
  | ChanWebhook u _ => required u "webhook: url is required" None
  end.

Definition chan_Slack_Send : SendEnv -> string -> string -> string -> string -> string -> option string * list Outgoing :=
  Slack_Send.
Definition chan_Telegram_Send (env : SendEnv) (botToken chatID recipient title body : string) : option string * list Outgoing :=
  let chatID := if String.eqb recipient "" then chatID else recipient in
  let text := if String.eqb title "" then body else "*" +:+ title +:+ "*" +:+ newline +:+ newline +:+ body in
  post env "telegram" ("https://api.telegram.org/bot" +:+ botToken +:+ "/sendMessage") content_type
    [("chat_id", VStr chatID); ("text", VStr text); ("parse_mode", VStr "Markdown")].
Definition chan_DingTalk_Send : SendEnv -> string -> string -> string -> string -> string -> option string * list Outgoing :=
  DingTalk_Send.
Definition chan_buildEmail : string -> string -> string -> string -> string := buildEmail.
Definition chan_Email_Send :
    SendEnv -> string -> Z -> string -> string -> string -> bool -> string -> string -> string -> option string * list Outgoing :=
  Email_Send.
Definition chan_Webhook_Send :
    SendEnv -> string -> list (string * string) -> string -> string -> string -> option string * list Outgoing :=
  Webhook_Send.

Definition chan_Send (env : SendEnv) (c : Channel) (recipient title body : string) : option string * list Outgoing :=
  match c with
  | ChanSlack u ch => chan_Slack_Send env u ch recipient title body
  | ChanTelegram t ci => chan_Telegram_Send env t ci recipient title body
  | ChanDingTalk u s => chan_DingTalk_Send env u s recipient title body
  | ChanEmail h p u pw f tls => chan_Email_Send env h p u pw f tls recipient title body
  | ChanWebhook u hs => chan_Webhook_Send env u hs recipient title body
  end.

(** The sender in use that a channel of the copy stands for. *)
Definition of_channel (c : Channel) : Sender :=
  match c with
  | ChanSlack u ch => SlackSender u ch
  | ChanTelegram t ci => TelegramSender t ci ""
  | ChanDingTalk u s => DingTalkSender u s
  | ChanEmail h p u pw f tls => EmailSender h p u pw f tls
  | ChanWebhook u hs => WebhookSender u hs
  end.

Lemma channels_agree env c recipient title body :
  chan_Type c = Sender_Type (of_channel c) /\ chan_Validate c = Sender_Validate (of_channel c) /\
  chan_Send env c recipient title body = Sender_Send env (of_channel c) recipient title body.
Proof. by destruct c. Qed.

(** [WSHub]: a client is its identifier and whether it is done.  The message
    that is encoded is sent to nobody; the goroutines that take out the
    clients that are done run later ([hub_unregister]). *)
Definition hub_Register (id : string) (done : bool) (h : gmap string bool) : gmap string bool := <[id := done]> h.
Definition hub_Unregister (id : string) (h : gmap string bool) : gmap string bool := delete id h.
Definition hub_Send (title body : string) (h : gmap string bool) : option string * list Outgoing * list string :=
  (None, [], map fst (List.filter snd (map_to_list h))).

(** Once those goroutines have run, in any order, the clients that are not
    done are left; none was told anything. *)
Lemma hub_Send_cleans title body h ids : ids ≡ₚ (hub_Send title body h).2 ->
  foldr hub_Unregister h ids = filter (fun kv => kv.2 = false) h.
Proof.
  intros Hids. change (foldr hub_Unregister h ids) with (foldr delete h ids). apply map_eq. intros id.
  assert (Hin : id ∈ ids <-> h !! id = Some true).
  { rewrite Hids. cbn. rewrite list_elem_of_fmap. split.
    - intros ([k b] & -> & Hk). apply list_elem_of_In, filter_In in Hk as [Hk Hb]. cbn in Hb. subst b.
      by apply elem_of_map_to_list, list_elem_of_In.
    - intros Hl. exists (id, true). split; [done|]. apply list_elem_of_In, filter_In. split; [|done].
      by apply list_elem_of_In, elem_of_map_to_list. }
  assert (Hf : foldr delete h ids !! id = if decide (id ∈ ids) then None else h !! id).
  { clear. induction ids as [|k ids IH]; cbn; [done|].
    destruct (decide (k = id)) as [->|Hne]; [by rewrite lookup_delete_eq, decide_True by set_solver|].
    rewrite lookup_delete_ne by done. rewrite IH. destruct (decide (id ∈ ids)).
    - by rewrite decide_True by set_solver.
    - by rewrite decide_False by set_solver. }
  rewrite Hf, map_lookup_filter. destruct (h !! id) as [[]|] eqn:E; cbn.
  - by rewrite decide_True by (by apply Hin).
  - rewrite decide_False by (rewrite Hin; by intros [=]). done.
  - by case_decide.
Qed.
