(* ===== verification/Wallet.v ===== *)
(** * The wallet

    [pkg/wallet/pkg]: the secret stores ([providers/default.go], the encrypted
    table; [providers/csi.go], a mounted file; [providers/vault.go], the KV
    engine of a Vault server), the daemon's handlers and the choice of its
    store ([walletmanager.go]), the wallets of [wallet/wallet.go] and the
    receipts of [receipts/receipts.go].  Byte strings are strings; of the
    standard library's cryptography, the signature function and the
    authenticated encryption are parameters, the layout of Ed25519 keys is
    written out. *)

From S2P Require Export Json Executors X402 Routes Oidc.
From Stdlib Require Import Ascii.

Local Open Scope string_scope.
Local Open Scope Z_scope.

(** ** Hexadecimal text

    [encoding/hex]: [EncodeToString] and [DecodeString], with their round
    trip. *)

Definition hex_byte (c : ascii) : string :=
  hex_digit (nat_of_ascii c / 16) +:+ hex_digit (nat_of_ascii c mod 16).

Fixpoint hex_encode (s : string) : string :=
  match s with EmptyString => "" | String c s => hex_byte c +:+ hex_encode s end.

(** [None] is an error: an odd length, or a character that is no digit. *)
Fixpoint hex_decode (s : string) : option string :=
  match s with
  | EmptyString => Some ""
  | String a (String b s) =>
      match hex_val a, hex_val b, hex_decode s with
      | Some x, Some y, Some r => Some (String (ascii_of_nat (Z.to_nat (x * 16 + y))) r)
      | _, _, _ => None
      end
  | String _ EmptyString => None
  end.

Lemma hex_decode_byte c s :
  hex_decode (hex_byte c +:+ s) = match hex_decode s with Some r => Some (String c r) | None => None end.
Proof. destruct c as [[] [] [] [] [] [] [] []]; vm_compute hex_byte; cbn; by destruct (hex_decode s). Qed.

Lemma hex_round_trip s : hex_decode (hex_encode s) = Some s.
Proof. induction s as [|c s IH]; [done|]. cbn [hex_encode]. by rewrite hex_decode_byte, IH. Qed.

Lemma hex_encode_inj s t : hex_encode s = hex_encode t -> s = t.
Proof. intros E. pose proof (hex_round_trip s) as Hs. rewrite E, hex_round_trip in Hs. congruence. Qed.

Local Open Scope list_scope.

(** ** Ed25519 (crypto/ed25519) *)

(** [ed_sign] is the signature under a key of 64 bytes, the seed followed by
    the public key. *)
Class Ed25519 := {
  ed_sign : string -> string -> string;
  ed_verify : string -> string -> string -> bool;
}.

Definition PrivateKeySize : nat := 64.

(** [Sign] panics on a key of another length. *)
Definition ed25519_Sign `{Ed25519} (key msg : string) : call string :=
  if Nat.eqb (String.length key) PrivateKeySize then Ret (ed_sign key msg)
  else Panic ("ed25519: bad private key length: " +:+ Itoa (Z.of_nat (String.length key))).

Fixpoint zero_bytes (n : nat) : string := match n with O => "" | S n => String (Ascii.ascii_of_nat 0) (zero_bytes n) end.

(** [Public] copies what follows the first 32 bytes into 32 bytes, and panics
    when there are fewer than 32. *)
Definition ed25519_Public (key : string) : call string :=
  if Nat.ltb (String.length key) 32 then Panic "runtime error: slice bounds out of range"
  else let p := stake 32 (sdrop 32 key) in Ret (p +:+ zero_bytes (32 - String.length p)).

Definition address_of (pub : string) : string := "0x" +:+ hex_encode pub.

(** ** Secret stores (secretstore.go) *)

(** Writing takes the randomness it may use. *)
Class SecretStore (S : Type) := {
  GetSecret : string -> S -> res string;
  PutSecret : string -> string -> string -> S -> option string * S;
  DeleteSecret : string -> S -> option string * S;
  ListSecrets : string -> S -> res (list string);
}.

Definition wallet_key (name : string) : string := "wallet:" +:+ name.

(** *** The encrypted table *)

(** AES-256-GCM under the key's hash: [Seal] of nonce and plaintext, [Open]. *)
Class AEAD := {
  NonceSize : nat;
  gcm_Seal : string -> string -> string -> string;
  gcm_Open : string -> string -> string -> res string;
}.

(** Rows are keyed; the master key is that of the provider. *)
Record DefaultStore := { ds_masterKey : string; ds_rows : gmap string string }.

Definition resolveMasterKey (read_file : string -> res string) (masterKeyFile : string) : res string :=
  if String.eqb masterKeyFile "" then
    Err "no master key configured: set wallet.secret_store.master_key_file in flowgent.yaml"
  else match read_file masterKeyFile with
       | Ok data => Ok (TrimSpace data)
       | Err err => Err ("read master key file " +:+ masterKeyFile +:+ ": " +:+ err)
       end.

Section Default.
Context `{AEAD}.
(** A failure of the database at an operation. *)
Variable db_err : string -> option string.

Definition NewDefaultSecretStoreProvider (read_file : string -> res string) (masterKeyFile : string)
    (rows : gmap string string) : res DefaultStore :=
  match resolveMasterKey read_file masterKeyFile with
  | Err err => Err ("resolve master key: " +:+ err)
  | Ok key =>
      match db_err "migrate" with
      | Some err => Err ("migrate secret store: " +:+ err)
      | None => Ok {| ds_masterKey := key; ds_rows := rows |}
      end
  end.

Definition encrypt (key nonce plaintext : string) : string := nonce +:+ gcm_Seal key nonce plaintext.

Definition decrypt (key ciphertext : string) : res string :=
  if Nat.ltb (String.length ciphertext) NonceSize then Err "ciphertext too short"
  else gcm_Open key (stake NonceSize ciphertext) (sdrop NonceSize ciphertext).

Definition default_GetSecret (key : string) (s : DefaultStore) : res string :=
  match db_err "query" with
  | Some err => Err ("query secret: " +:+ err)
  | None =>
      match ds_rows s !! key with
      | None => Err ("secret not found: " +:+ key)
      | Some encrypted => decrypt (ds_masterKey s) encrypted
      end
  end.

Definition default_PutSecret (nonce key value : string) (s : DefaultStore) : option string * DefaultStore :=
  match db_err "upsert" with
  | Some err => (Some err, s)
  | None => (None, {| ds_masterKey := ds_masterKey s;
                      ds_rows := <[key := encrypt (ds_masterKey s) nonce value]> (ds_rows s) |})
  end.

Definition default_DeleteSecret (key : string) (s : DefaultStore) : option string * DefaultStore :=
  match db_err "delete" with
  | Some err => (Some err, s)
  | None => (None, {| ds_masterKey := ds_masterKey s; ds_rows := delete key (ds_rows s) |})
  end.

(** [key LIKE 'prefix%']; the code's prefix has no wildcard, and letters match
    in any case. *)
Definition default_ListSecrets `{RangeOrder} (prefix : string) (s : DefaultStore) : res (list string) :=
  match db_err "list" with
  | Some err => Err err
  | None => Ok (List.filter (fun k => HasPrefix (ToLower k) (ToLower prefix)) (map fst (range_of (ds_rows s))))
  end.

#[export] Instance default_store `{RangeOrder} : SecretStore DefaultStore := {|
  GetSecret := default_GetSecret; PutSecret := default_PutSecret;
  DeleteSecret := default_DeleteSecret; ListSecrets := default_ListSecrets |}.
End Default.

(** *** The mounted file *)

Record CSIStore := { cs_keys : gmap string string }.

(** A line of the file: skipped, an error, or a key. *)
Definition wallet_line (line : string) (keys : gmap string string) : res (gmap string string) :=
  let line := TrimSpace line in
  if String.eqb line "" || HasPrefix line "#" then Ok keys
  else match IndexByte line "=" with
       | None => Ok keys
       | Some i =>
           let k := TrimSpace (stake i line) in
           let v := TrimSpace (sdrop (S i) line) in
           match CutPrefix k "WALLET_KEY_" with
           | None | Some EmptyString => Ok keys
           | Some name =>
               match hex_decode v with
               | None => Err ("invalid hex key for " +:+ k)
               | Some raw => Ok (<[name := raw]> keys)
               end
           end
       end.

Fixpoint load_lines (lines : list string) (keys : gmap string string) : res (gmap string string) :=
  match lines with
  | [] => Ok keys
  | l :: lines => let? keys := wallet_line l keys in load_lines lines keys
  end.

(** [lines] are those of the file, or the error of opening or reading it; the
    reasons in the texts of errors are shortened. *)
Definition loadWalletKeys (lines : res (list string)) : res (gmap string string) :=
  let? lines := lines in load_lines lines ∅.

Definition NewCSISecretStoreProvider (lines : res (list string)) : res CSIStore :=
  match loadWalletKeys lines with
  | Err err => Err ("csi provider: " +:+ err)
  | Ok keys => if bool_decide (keys = ∅) then Err "csi provider: no wallet keys found" else Ok {| cs_keys := keys |}
  end.

Definition csi_GetSecret (key : string) (s : CSIStore) : res string :=
  let name := TrimPrefix key "wallet:" in
  match cs_keys s !! name with Some raw => Ok raw | None => Err ("wallet not found: " +:+ name) end.

Definition csi_unsupported (op : string) : string :=
  "csi provider: " +:+ op +:+ " not supported — keys are managed externally via secret manager (Vault/GCP/AWS)".

#[export] Instance csi_store `{RangeOrder} : SecretStore CSIStore := {|
  GetSecret := csi_GetSecret;
  PutSecret := fun _ _ _ s => (Some (csi_unsupported "PutSecret"), s);
  DeleteSecret := fun _ s => (Some (csi_unsupported "DeleteSecret"), s);
  ListSecrets := fun prefix s =>
    Ok (List.filter (fun k => HasPrefix k prefix) (map (fun kv => wallet_key kv.1) (range_of (cs_keys s)))) |}.

(** *** The Vault server *)

Record VaultStore (V : Type) := {
  vs_address : string; vs_token : string; vs_mountPath : string; vs_secretPath : string; vs_server : V;
}.
Arguments vs_address {V}. Arguments vs_token {V}. Arguments vs_mountPath {V}. Arguments vs_secretPath {V}.
Arguments vs_server {V}.

Fixpoint trim_right_slashes (s : string) : string :=
  match s with
  | EmptyString => ""
  | String c s' => match trim_right_slashes s' with
                   | EmptyString => if Ascii.eqb c "/" then "" else String c ""
                   | t => String c t
                   end
  end.

Definition NewVaultSecretStoreProvider {V} (read_file : string -> res string)
    (address token tokenFile mountPath secretPath : string) (server : V) : res (VaultStore V) :=
  if String.eqb address "" then Err "vault address is required"
  else
    let? token :=
      if String.eqb token "" && negb (String.eqb tokenFile "")
      then match read_file tokenFile with
           | Ok data => Ok (TrimSpace data)
           | Err err => Err ("read vault token file " +:+ tokenFile +:+ ": " +:+ err)
           end
      else Ok token in
    if String.eqb token "" then Err "vault token is required: set wallet.secretStore.vault.token or tokenFile"
    else Ok {| vs_address := trim_right_slashes address; vs_token := token;
               vs_mountPath := if String.eqb mountPath "" then "secret" else mountPath;
               vs_secretPath := if String.eqb secretPath "" then "flowgent" else secretPath;
               vs_server := server |}.

(** A request to the server, with the token of the provider; a written secret
    is the data of its body.  The fields of an answer's JSON are given. *)
Record VaultReq := { vq_Method : string; vq_URL : string; vq_Token : string; vq_Data : option (list (string * string)) }.
Record VaultResp := {
  vr_Status : Z; vr_Body : string; vr_Read : res (list (string * string) * list string); vr_Keys : res (list string);
}.

Section Vault.
Context {V : Type}.
(** The server, and the failures of a request; reading leaves it as it is. *)
Variable vault_do : VaultReq -> V -> res VaultResp * V.


Definition vault_path (kind name : string) (s : VaultStore V) : string :=
  vs_address s +:+ "/v1/" +:+ vs_mountPath s +:+ "/" +:+ kind +:+ "/" +:+ vs_secretPath s +:+ "/wallet" +:+ name.

Definition vault_request (method url : string) (data : option (list (string * string))) (s : VaultStore V)
    : res VaultResp * VaultStore V :=
  let (r, v) := vault_do {| vq_Method := method; vq_URL := url; vq_Token := vs_token s; vq_Data := data |} (vs_server s) in
  (match r with Ok r => Ok r | Err err => Err ("vault: request failed: " +:+ err) end,
   {| vs_address := vs_address s; vs_token := vs_token s; vs_mountPath := vs_mountPath s;
      vs_secretPath := vs_secretPath s; vs_server := v |}).

Definition vault_GetSecret (key : string) (s : VaultStore V) : res string :=
  let name := TrimPrefix key "wallet:" in
  let path := vault_path "data" ("/" +:+ name) s in
  let? resp := fst (vault_request "GET" path None s) in
  if vr_Status resp =? 404 then Err ("wallet not found in vault: " +:+ name +:+ " (path: " +:+ path +:+ ")")
  else if negb (vr_Status resp =? 200) then
    Err ("vault: unexpected status " +:+ Itoa (vr_Status resp) +:+ ": " +:+ vr_Body resp)
  else
    match vr_Read resp with
    | Err err => Err ("vault: parse response: " +:+ err)
    | Ok (data, errors) =>
        match errors with
        | _ :: _ => Err ("vault: " +:+ Join errors "; ")
        | [] =>
            match mget "private_key" data with
            | None => Err ("vault: no 'private_key' field at " +:+ path)
            | Some hexKey =>
                match hex_decode hexKey with
                | Some raw => Ok raw
                | None => Err "vault: invalid hex private_key"
                end
            end
        end
    end.

Definition vault_status (op : string) (resp : VaultResp) : option string :=
  if negb (vr_Status resp =? 200) && negb (vr_Status resp =? 204)
  then Some ("vault: " +:+ op +:+ " failed status " +:+ Itoa (vr_Status resp) +:+ ": " +:+ vr_Body resp) else None.

Definition vault_change (op method key : string) (data : option (list (string * string))) (s : VaultStore V)
    : option string * VaultStore V :=
  let (r, s) := vault_request method (vault_path "data" ("/" +:+ TrimPrefix key "wallet:") s) data s in
  (match r with Ok resp => vault_status op resp | Err err => Some err end, s).

Definition vault_PutSecret (key value : string) (s : VaultStore V) : option string * VaultStore V :=
  vault_change "write" "POST" key (Some [("private_key", hex_encode value)]) s.

Definition vault_DeleteSecret (key : string) (s : VaultStore V) : option string * VaultStore V :=
  vault_change "delete" "DELETE" key None s.

Definition vault_ListSecrets (prefix : string) (s : VaultStore V) : res (list string) :=
  let path := vault_path "metadata" "" s +:+ (if String.eqb prefix "" then "" else "?list=true") in
  let? resp := fst (vault_request "GET" path None s) in
  if vr_Status resp =? 404 then Ok []
  else if negb (vr_Status resp =? 200) then
    Err ("vault: list failed status " +:+ Itoa (vr_Status resp) +:+ ": " +:+ vr_Body resp)
  else match vr_Keys resp with
       | Err err => Err ("vault: parse list response: " +:+ err)
       | Ok keys => Ok (List.filter (fun k => HasPrefix k prefix) (map (fun k => wallet_key (TrimSuffix k "/")) keys))
       end.

#[export] Instance vault_store : SecretStore (VaultStore V) := {|
  GetSecret := vault_GetSecret; PutSecret := fun _ => vault_PutSecret; DeleteSecret := vault_DeleteSecret;
  ListSecrets := vault_ListSecrets |}.
End Vault.

(** ** The daemon (walletmanager.go) *)

(** [wc_wallet] is the section of the configuration, when there is one. *)
Record SecretStoreCfg := { ss_Provider : string; ss_MasterKeyFile : string }.
Record WalletConfig := { wg_wallet : option SecretStoreCfg; wg_credentialBase : string; wg_broker : string }.
Record storeConfig := { sc_provider : string; sc_masterKeyFile : string; sc_csiBasePath : string }.

Definition resolveStoreConfig (cfg : option WalletConfig) : storeConfig :=
  match cfg with
  | Some {| wg_wallet := Some sc; wg_credentialBase := base |} =>
      {| sc_provider := ss_Provider sc; sc_masterKeyFile := ss_MasterKeyFile sc;
         sc_csiBasePath := if String.eqb base "" then "/var/flowgent" else base |}
  | _ => {| sc_provider := ""; sc_masterKeyFile := ""; sc_csiBasePath := "" |}
  end.

Inductive store_choice :=
| UseCSI (base : string)
| UseVault
| UseDefault (dbPath masterKeyFile : string).

(** [createSecretStore], up to the making of the store. *)
Definition choose_store (sc : storeConfig) (home dbPath : string) : store_choice :=
  if String.eqb (sc_provider sc) "csi" then UseCSI (sc_csiBasePath sc)
  else if String.eqb (sc_provider sc) "vault" then UseVault
  else
    let home := if String.eqb home "" then "/tmp" else home in
    UseDefault (if String.eqb dbPath "" then home +:+ "/.flowgent/wallet.db" else dbPath) (sc_masterKeyFile sc).

Definition mqttBroker (cfg : option WalletConfig) : string :=
  match cfg with
  | Some cfg => if String.eqb (wg_broker cfg) "" then "disabled" else wg_broker cfg
  | None => "disabled"
  end.

(** An answer: its status and its JSON. *)
Record wallet_resp := { wr_Status : Z; wr_Body : any }.
Definition writeJSON (status : Z) (data : list (string * string)) : wallet_resp :=
  {| wr_Status := status; wr_Body := VMap (map (fun kv => (kv.1, VStr kv.2)) data) |}.
Definition json_error (status : Z) (err : string) : wallet_resp := writeJSON status [("error", err)].

Record FlowgentWalletManager (S : Type) := { wm_providerName : string; wm_secretStore : S }.
Arguments wm_providerName {S}. Arguments wm_secretStore {S}.

Definition with_secret_store {S} (s : S) (wm : FlowgentWalletManager S) : FlowgentWalletManager S :=
  {| wm_providerName := wm_providerName wm; wm_secretStore := s |}.

(** Going on after a call that may panic. *)
Definition call_then {A B} (c : call A) (k : A -> B) : call B :=
  match c with Ret a => Ret (k a) | Panic msg => Panic msg end.

Section Handlers.
Context {S : Type} `{Ed25519} `{SecretStore S}.

Definition handleHealth : wallet_resp := writeJSON 200 [("status", "ok")].
Definition handleBalance : wallet_resp := writeJSON 200 [("balance", "0")].

(** [body] is the decoded pair of wallet and payload. *)
Definition handleSign (method : string) (body : option (string * string)) (wm : FlowgentWalletManager S)
    : call wallet_resp :=
  if negb (String.eqb method "POST") then Ret (json_error 405 "method not allowed")
  else match body with
       | None => Ret (json_error 400 "invalid request body")
       | Some (wallet, payload) =>
           match GetSecret (wallet_key wallet) (wm_secretStore wm) with
           | Err err => Ret (json_error 500 ("failed to get key: " +:+ err))
           | Ok key => call_then (ed25519_Sign key payload)
                         (fun sig => writeJSON 200 [("signature", hex_encode sig); ("wallet", wallet)])
           end
       end.

Definition handleAddress (method wallet : string) (wm : FlowgentWalletManager S) : call wallet_resp :=
  if negb (String.eqb method "GET") then Ret (json_error 405 "method not allowed")
  else match GetSecret (wallet_key wallet) (wm_secretStore wm) with
       | Err _ => Ret (json_error 404 "wallet not found")
       | Ok key => call_then (ed25519_Public key) (fun pub => writeJSON 200 [("address", address_of pub)])
       end.

(** The keys that can be read; the loop panics with the first that is too
    short. *)
Fixpoint key_infos (keys : list string) (s : S) : call (list any) :=
  match keys with
  | [] => Ret []
  | k :: keys =>
      match GetSecret k s with
      | Err _ => key_infos keys s
      | Ok key =>
          match ed25519_Public key with
          | Panic msg => Panic msg
          | Ret pub =>
              call_then (key_infos keys s) (fun l =>
                VMap [("name", VStr (TrimPrefix k "wallet:")); ("address", VStr (address_of pub))] :: l)
          end
      end
  end.

Definition handleListKeys (wm : FlowgentWalletManager S) : call wallet_resp :=
  match ListSecrets "wallet:" (wm_secretStore wm) with
  | Err err => Ret (json_error 500 err)
  | Ok keys => call_then (key_infos keys (wm_secretStore wm)) (fun l => {| wr_Status := 200; wr_Body := VList l |})
  end.

Definition handleGetKey (name : string) (wm : FlowgentWalletManager S) : call wallet_resp :=
  match GetSecret (wallet_key name) (wm_secretStore wm) with
  | Err _ => Ret (json_error 404 ("wallet not found: " +:+ name))
  | Ok key => call_then (ed25519_Public key) (fun pub => writeJSON 200 [("name", name); ("address", address_of pub)])
  end.

Definition csi_no_creation : string :=
  "key creation not supported with CSI provider — keys are managed externally via Vault/GCP/AWS Secret Manager and injected via CSI driver".

(** The key a body imports, or the one that is generated; [err] is the
    answer otherwise. *)
Definition requested_key (private_key : string) (generated : res string) : res string * wallet_resp :=
  if String.eqb private_key ""
  then (generated, json_error 500 "key generation failed")
  else (match hex_decode private_key with
        | Some kb => if Nat.eqb (String.length kb) PrivateKeySize then Ok kb else Err ""
        | None => Err ""
        end, json_error 400 "invalid private key hex").

(** [body] is the name and the private key; [generated] and [nonce] are the
    randomness of the call. *)
Definition handleCreateKey (generated : res string) (nonce : string) (body : option (string * string))
    (wm : FlowgentWalletManager S) : call wallet_resp * FlowgentWalletManager S :=
  match body with
  | None => (Ret (json_error 400 "invalid body"), wm)
  | Some (name, private_key) =>
      if String.eqb name "" then (Ret (json_error 400 "name is required"), wm)
      else if String.eqb (wm_providerName wm) "csi" then (Ret (json_error 403 csi_no_creation), wm)
      else match requested_key private_key generated with
           | (Err _, resp) => (Ret resp, wm)
           | (Ok key, _) =>
               match PutSecret nonce (wallet_key name) key (wm_secretStore wm) with
               | (Some err, s) => (Ret (json_error 500 err), with_secret_store s wm)
               | (None, s) =>
                   (call_then (ed25519_Public key) (fun pub =>
                      writeJSON 201 ([("name", name); ("address", address_of pub)] ++
                        (if String.eqb private_key "" then [("private_key", hex_encode key)] else []))),
                    with_secret_store s wm)
               end
           end
  end.

Definition handleDeleteKey (name : string) (wm : FlowgentWalletManager S) : wallet_resp * FlowgentWalletManager S :=
  match DeleteSecret (wallet_key name) (wm_secretStore wm) with
  | (Some err, s) => (json_error 500 err, with_secret_store s wm)
  | (None, s) => (writeJSON 200 [("status", "deleted"); ("name", name)], with_secret_store s wm)
  end.
End Handlers.

(** *** Its routes *)

(** The patterns without a method match any. *)
Definition wallet_any_rows : list (string * string) :=
  [("/health", "handleHealth"); ("/api/v1/wallet/sign", "handleSign");
   ("/api/v1/wallet/address", "handleAddress"); ("/api/v1/wallet/balance", "handleBalance")].
Definition wallet_rows : list (string * string) :=
  [("GET /api/v1/wallet/keys", "handleListKeys"); ("GET /api/v1/wallet/keys/{name}", "handleGetKey");
   ("POST /api/v1/wallet/keys", "handleCreateKey"); ("DELETE /api/v1/wallet/keys/{name}", "handleDeleteKey")].

Definition wallet_route (method : string) (segs : list string) : option (string * list (string * string)) :=
  match mux_serve (table wallet_any_rows) "" segs with
  | Some r => Some r
  | None => mux_serve (table wallet_rows) method segs
  end.

(** A request: its path, the query's wallet, its body as either handler
    decodes it, and the randomness of its handling. *)
Record WalletRequest := {
  wq_Method : string; wq_Segs : list string; wq_Wallet : string;
  wq_Sign : option (string * string); wq_Key : option (string * string);
  wq_Generated : res string; wq_Nonce : string;
}.

Section Serve.
Context {S : Type} `{Ed25519} `{SecretStore S}.

(** [Start]'s mux; [None] is its own answer, 404 or 405. *)
Definition serve_wallet (q : WalletRequest) (wm : FlowgentWalletManager S)
    : option (call wallet_resp) * FlowgentWalletManager S :=
  match wallet_route (wq_Method q) (wq_Segs q) with
  | None => (None, wm)
  | Some (h, vs) =>
      let name := header_get vs "name" in
      if String.eqb h "handleHealth" then (Some (Ret handleHealth), wm)
      else if String.eqb h "handleBalance" then (Some (Ret handleBalance), wm)
      else if String.eqb h "handleSign" then (Some (handleSign (wq_Method q) (wq_Sign q) wm), wm)
      else if String.eqb h "handleAddress" then (Some (handleAddress (wq_Method q) (wq_Wallet q) wm), wm)
      else if String.eqb h "handleListKeys" then (Some (handleListKeys wm), wm)
      else if String.eqb h "handleGetKey" then (Some (handleGetKey name wm), wm)
      else if String.eqb h "handleCreateKey" then
        let (r, wm) := handleCreateKey (wq_Generated q) (wq_Nonce q) (wq_Key q) wm in (Some r, wm)
      else let (r, wm) := handleDeleteKey name wm in (Some (Ret r), wm)
  end.
End Serve.

(** ** The command (wallet/pkg/cmd/main.go) *)

Definition runWallet (action : string) (create : res unit) (start : res unit) : res unit :=
  if String.eqb action "start" then
    match create with
    | Err err => Err ("create wallet manager: " +:+ err)
    | Ok _ => start
    end
  else if String.eqb action "stop" then Err "stop: send SIGTERM to the wallet process"
  else if String.eqb action "restart" then Err "restart: not supported — stop the process and start a new one"
  else Err ("unknown wallet action: " +:+ action).

(** ** Wallets in process (wallet/wallet.go) *)

(** A wallet has an address and signs. *)
Record WalletI := { w_Address : string; w_SignAuthorization : string -> res string }.
Record WalletManager := { wl_wallets : gmap string WalletI; wl_default : string }.
Record PaymentAuthorization := { pa_IntentID : string; pa_Wallet : string; pa_Signature : string; pa_Payload : string }.

Definition WalletManager_Get (address : string) (m : WalletManager) : res WalletI :=
  let address := if String.eqb address "" then wl_default m else address in
  match wl_wallets m !! address with
  | Some w => Ok w
  | None => Err (payment_error "WALLET_NOT_FOUND" ("wallet not found: " +:+ address))
  end.

Definition WalletManager_Default (m : WalletManager) : res WalletI := WalletManager_Get (wl_default m) m.

Definition authorization_payload {D} `{Decimal D} (i : PaymentIntent D) : string :=
  pi_ID i +:+ ":" +:+ dec_string (pi_Amount i) +:+ ":" +:+ pi_Asset i +:+ ":" +:+ pi_Recipient i.

Definition SignPaymentAuthorization {D} `{Decimal D} (walletAddr : string) (intent : PaymentIntent D)
    (m : WalletManager) : res PaymentAuthorization :=
  let? w := WalletManager_Get walletAddr m in
  let payload := authorization_payload intent in
  match w_SignAuthorization w payload with
  | Err err => Err (payment_error "SIGN_FAILED" ("failed to sign payment authorization: " +:+ err))
  | Ok sig => Ok {| pa_IntentID := pi_ID intent; pa_Wallet := w_Address w;
                    pa_Signature := hex_encode sig; pa_Payload := payload |}
  end.

(** ** Receipts (receipts/receipts.go) *)

(** A row; the amount is its text. *)
Record ReceiptRow := {
  rc_ID : string; rc_IntentID : string; rc_TxHash : string; rc_Asset : string; rc_Amount : string; rc_Chain : string;
  rc_Facilitator : string; rc_Authorization : string; rc_PaidAt : Z; rc_ExpiresAt : option Z;
}.

(** [INSERT] fails on an id that is there. *)
Definition receipts_Save (db_err : string -> option string) (r : ReceiptRow) (tbl : list ReceiptRow)
    : option string * list ReceiptRow :=
  match db_err "insert" with
  | Some err => (Some err, tbl)
  | None =>
      if existsb (fun x => String.eqb (rc_ID x) (rc_ID r)) tbl
      then (Some "UNIQUE constraint failed: payment_receipts.id", tbl)
      else (None, tbl ++ [r])
  end.

(** The row, and its amount: an amount that does not parse is the zero. *)
Definition receipts_GetByIntent {D} `{Decimal D} (db_err : string -> option string) (intentID : string)
    (tbl : list ReceiptRow) : res (ReceiptRow * D) :=
  match db_err "select" with
  | Some err => Err err
  | None =>
      match List.find (fun r => String.eqb (rc_IntentID r) intentID) tbl with
      | None => Err "sql: no rows in result set"
      | Some r => Ok (r, match dec_of_string (rc_Amount r) with Some d => d | None => dec_zero end)
      end
  end.
