(* ===== verification/WalletFacts.v ===== *)
(** * The wallet: theorems

    What a secret store promises to the daemon, that the encrypted table and
    the mounted file keep it, and what the daemon's answers say of the keys. *)

From S2P Require Export Wallet.
From Stdlib Require Import Ascii.

Local Open Scope string_scope.
Local Open Scope list_scope.
Local Open Scope Z_scope.

(** ** Strings *)

Lemma wallet_key_inj a b : wallet_key a = wallet_key b -> a = b.
Proof. unfold wallet_key. cbn. congruence. Qed.

(** ** What a store promises *)

(** The keys the store holds, by wallet: a key that is read is the one that
    was written last. *)
Class SecretStoreLaws (S : Type) `{SecretStore S} := {
  held : S -> string -> option string;
  nonce_ok : string -> Prop;
  get_held : forall n s v, GetSecret (wallet_key n) s = Ok v -> held s n = Some v;
  put_held : forall nonce n v s s', nonce_ok nonce -> PutSecret nonce (wallet_key n) v s = (None, s') ->
    forall m, held s' m = if decide (m = n) then Some v else held s m;
  put_failed : forall nonce n v s err s', PutSecret nonce (wallet_key n) v s = (Some err, s') -> s' = s;
  delete_held : forall n s s', DeleteSecret (wallet_key n) s = (None, s') ->
    forall m, held s' m = if decide (m = n) then None else held s m;
  delete_failed : forall n s err s', DeleteSecret (wallet_key n) s = (Some err, s') -> s' = s;
}.

(** *** The encrypted table *)

(** What was sealed is what is opened. *)
Class AEADLaws `{AEAD} := {
  open_seal : forall key nonce p, String.length nonce = NonceSize -> gcm_Open key nonce (gcm_Seal key nonce p) = Ok p;
}.

Lemma decrypt_encrypt `{AEADLaws} key nonce p :
  String.length nonce = NonceSize -> decrypt key (encrypt key nonce p) = Ok p.
Proof.
  intros Hn. unfold decrypt, encrypt. rewrite length_append, <- Hn, stake_append, sdrop_append.
  destruct (Nat.ltb_spec (String.length nonce + String.length (gcm_Seal key nonce p)) (String.length nonce)); [lia|].
  by apply open_seal.
Qed.

Definition default_held `{AEAD} (s : DefaultStore) (n : string) : option string :=
  match ds_rows s !! wallet_key n with
  | Some c => match decrypt (ds_masterKey s) c with Ok v => Some v | Err _ => None end
  | None => None
  end.

#[export] Instance default_store_laws `{AEADLaws} `{RangeOrder} db_err :
  @SecretStoreLaws DefaultStore (default_store db_err).
Proof.
  refine (Build_SecretStoreLaws DefaultStore (default_store db_err) default_held
    (fun nonce => String.length nonce = NonceSize) _ _ _ _ _);
    cbn [GetSecret PutSecret DeleteSecret default_store csi_store].
  - intros n s v. unfold default_GetSecret, default_held. destruct (db_err "query"); [done|].
    by destruct (ds_rows s !! wallet_key n); [intros ->|].
  - intros nonce n v s s' Hn. unfold default_PutSecret. destruct (db_err "upsert"); [done|].
    intros [= <-] m. unfold default_held. cbn [ds_rows ds_masterKey]. destruct (decide (m = n)) as [->|Hne].
    + by rewrite lookup_insert_eq, decrypt_encrypt.
    + by rewrite lookup_insert_ne by (intros E; apply wallet_key_inj in E; congruence).
  - intros nonce n v s err s'. unfold default_PutSecret. destruct (db_err "upsert"); by inversion 1.
  - intros n s s'. unfold default_DeleteSecret. destruct (db_err "delete"); [done|].
    intros [= <-] m. unfold default_held. cbn [ds_rows ds_masterKey]. destruct (decide (m = n)) as [->|Hne].
    + by rewrite lookup_delete_eq.
    + by rewrite lookup_delete_ne by (intros E; apply wallet_key_inj in E; congruence).
  - intros n s err s'. unfold default_DeleteSecret. destruct (db_err "delete"); by inversion 1.
Defined.

(** *** The mounted file *)

Lemma TrimPrefix_wallet_key n : TrimPrefix (wallet_key n) "wallet:" = n.
Proof. unfold wallet_key, TrimPrefix. cbn. by destruct n. Qed.

#[export] Instance csi_store_laws `{RangeOrder} : @SecretStoreLaws CSIStore csi_store.
Proof.
  refine (Build_SecretStoreLaws CSIStore csi_store (fun s n => cs_keys s !! n) (fun _ => True) _ _ _ _ _);
    cbn [GetSecret PutSecret DeleteSecret default_store csi_store].
  - intros n s v. unfold csi_GetSecret. rewrite TrimPrefix_wallet_key. destruct (cs_keys s !! n); congruence.
  - done.
  - intros nonce n v s err s'. by inversion 1.
  - done.
  - intros n s err s'. by inversion 1.
Defined.

(** ** The daemon over such a store *)

(** A created key that is generated is a pair of the signature scheme. *)
Class Ed25519Laws `{Ed25519} := {
  ed_pair : string -> Prop;
  ed_pair_size : forall key, ed_pair key -> String.length key = PrivateKeySize;
  ed_verifies : forall key msg, ed_pair key -> ed_verify (sdrop 32 key) msg (ed_sign key msg) = true;
}.

Lemma stake_short s n : (String.length s <= n)%nat -> stake n s = s.
Proof.
  revert n. induction s as [|c s IH]; intros [|n] Hn; cbn in *; [done|done|lia|]. by rewrite IH by lia.
Qed.

Lemma length_sdrop n s : String.length (sdrop n s) = (String.length s - n)%nat.
Proof. revert s. induction n as [|n IH]; intros [|c s]; cbn; [done|done|done|apply IH]. Qed.

(** The public part of a key of the right length. *)
Lemma Public_of_size key : String.length key = PrivateKeySize -> ed25519_Public key = Ret (sdrop 32 key).
Proof.
  intros Hk. unfold ed25519_Public. rewrite Hk. cbn -[stake sdrop].
  rewrite (stake_short (sdrop 32 key) 32) by (rewrite length_sdrop, Hk; unfold PrivateKeySize; lia).
  rewrite length_sdrop, Hk. cbn -[sdrop]. by rewrite append_nil_r.
Qed.

(** A mux answers with a handler of its table. *)
Lemma mux_serve_handler rows method segs h vs :
  mux_serve (table rows) method segs = Some (h, vs) -> h ∈ rows.*2.
Proof.
  unfold mux_serve, mux_route. intros E.
  assert (forall l best, (forall r, best = Some r -> r.2 ∈ rows.*2) -> (forall r, r ∈ l -> r.2 ∈ rows.*2) ->
    forall r, fold_left (fun best r => if pattern_matches r.1 method segs then better best r else best) l best = Some r ->
    r.2 ∈ rows.*2) as Hfold.
  { induction l as [|x l IH]; intros best Hb Hl; [exact Hb|]. apply IH; [|intros r Hr; apply Hl; set_solver].
    intros r Hr. destruct (pattern_matches x.1 method segs); [|by apply Hb].
    unfold better in Hr. destruct best as [b|]; [destruct (more_specific x.1 b.1)|]; injection Hr as <-;
      [apply Hl; set_solver|by apply Hb|apply Hl; set_solver]. }
  destruct (fold_left _ _ None) as [[p h']|] eqn:Ef; [|discriminate]. destruct (match_segs _ _); [|discriminate].
  injection E as <- _. refine (Hfold _ None ltac:(done) _ _ Ef).
  intros r (x & -> & Hx)%list_elem_of_fmap_1. cbn. by apply list_elem_of_fmap_2.
Qed.

Lemma wallet_route_last method segs h vs :
  wallet_route method segs = Some (h, vs) ->
  h <> "handleHealth" -> h <> "handleBalance" -> h <> "handleSign" -> h <> "handleAddress" ->
  h <> "handleListKeys" -> h <> "handleGetKey" -> h <> "handleCreateKey" -> String.eqb h "handleDeleteKey" = true.
Proof.
  unfold wallet_route. destruct (mux_serve (table wallet_any_rows) "" segs) as [[h' vs']|] eqn:E.
  - intros [= -> ->]. apply mux_serve_handler in E. cbn in E. set_solver.
  - intros E'%mux_serve_handler ???????. apply String.eqb_eq. cbn in E'. set_solver.
Qed.

Section Daemon.
Context {S : Type} `{Ed25519} `{SecretStoreLaws S}.

(** The abstract wallet: the keys by name. *)
Definition represents (wm : FlowgentWalletManager S) (keys : gmap string string) : Prop :=
  forall n, held (wm_secretStore wm) n = keys !! n.

(** What an answered request makes of the keys. *)
Definition wallet_effect (q : WalletRequest) (answer : option (call wallet_resp)) (keys : gmap string string)
    : gmap string string :=
  match wallet_route (wq_Method q) (wq_Segs q), answer with
  | Some (h, vs), Some (Ret r) =>
      if String.eqb h "handleCreateKey" && (wr_Status r =? 201) then
        match wq_Key q with
        | Some (name, pk) =>
            match requested_key pk (wq_Generated q) with (Ok key, _) => <[name := key]> keys | _ => keys end
        | None => keys
        end
      else if String.eqb h "handleDeleteKey" && (wr_Status r =? 200) then delete (header_get vs "name") keys
      else keys
  | _, _ => keys
  end.

(** A signature or an address that is answered is that of the key the wallet
    has; a creation answers with the address of the key it stores. *)
Definition signed_by (key : string) (r : wallet_resp) (wallet payload : string) : Prop :=
  String.length key = PrivateKeySize /\
  r = writeJSON 200 [("signature", hex_encode (ed_sign key payload)); ("wallet", wallet)].

Definition justified (q : WalletRequest) (answer : option (call wallet_resp)) (keys : gmap string string) : Prop :=
  match wallet_route (wq_Method q) (wq_Segs q), answer with
  | Some (h, vs), Some (Ret r) =>
      (h = "handleSign" -> wr_Status r = 200 ->
        exists wallet payload key, wq_Sign q = Some (wallet, payload) /\ keys !! wallet = Some key /\
          signed_by key r wallet payload) /\
      (h = "handleAddress" -> wr_Status r = 200 ->
        exists key pub, keys !! wq_Wallet q = Some key /\ ed25519_Public key = Ret pub /\
          r = writeJSON 200 [("address", address_of pub)]) /\
      (h = "handleGetKey" -> wr_Status r = 200 ->
        exists key pub, keys !! header_get vs "name" = Some key /\ ed25519_Public key = Ret pub /\
          r = writeJSON 200 [("name", header_get vs "name"); ("address", address_of pub)]) /\
      (h = "handleCreateKey" -> wr_Status r = 201 ->
        exists name pk key, wq_Key q = Some (name, pk) /\ fst (requested_key pk (wq_Generated q)) = Ok key /\
          exists more, r = writeJSON 201 ([("name", name); ("address", address_of (sdrop 32 key))] ++ more))
  | _, _ => True
  end.

(** A key that is generated is a pair, and the nonce can be used. *)
Definition request_ok `{!Ed25519Laws} (q : WalletRequest) : Prop :=
  nonce_ok (wq_Nonce q) /\ forall key, wq_Generated q = Ok key -> ed_pair key.

Lemma requested_key_size `{!Ed25519Laws} q pk key :
  request_ok q -> fst (requested_key pk (wq_Generated q)) = Ok key -> String.length key = PrivateKeySize.
Proof.
  intros [_ Hg] Hk. unfold requested_key in Hk. destruct (String.eqb pk ""); cbn [fst] in Hk.
  - by apply ed_pair_size, Hg.
  - destruct (hex_decode pk) as [kb|]; [|done].
    destruct (Nat.eqb_spec (String.length kb) PrivateKeySize); [by injection Hk as <-|done].
Qed.

Lemma handleSign_justified method body wm r keys :
  represents wm keys -> handleSign method body wm = Ret r -> wr_Status r = 200 ->
  exists wallet payload key, body = Some (wallet, payload) /\ keys !! wallet = Some key /\ signed_by key r wallet payload.
Proof.
  intros Hrep. unfold handleSign. destruct (String.eqb method "POST"); cbn [negb]; [|by intros [= <-]].
  destruct body as [[wallet payload]|]; [|by intros [= <-]].
  destruct (GetSecret _ _) as [key|err] eqn:Eg; [|by intros [= <-]].
  unfold ed25519_Sign. destruct (Nat.eqb_spec (String.length key) PrivateKeySize) as [Hlen|]; [|done].
  intros [= <-] _. exists wallet, payload, key. split_and!; [done| |done]. rewrite <- Hrep. by apply get_held.
Qed.

Lemma handleAddress_justified method wallet wm r keys :
  represents wm keys -> handleAddress method wallet wm = Ret r -> wr_Status r = 200 ->
  exists key pub, keys !! wallet = Some key /\ ed25519_Public key = Ret pub /\ r = writeJSON 200 [("address", address_of pub)].
Proof.
  intros Hrep. unfold handleAddress. destruct (String.eqb method "GET"); cbn [negb]; [|by intros [= <-]].
  destruct (GetSecret _ _) as [key|err] eqn:Eg; [|by intros [= <-]].
  destruct (ed25519_Public key) as [pub|] eqn:Ep; cbn [call_then]; [|done].
  intros [= <-] _. exists key, pub. split_and!; [|done|done]. rewrite <- Hrep. by apply get_held.
Qed.

Lemma handleGetKey_justified name wm r keys :
  represents wm keys -> handleGetKey name wm = Ret r -> wr_Status r = 200 ->
  exists key pub, keys !! name = Some key /\ ed25519_Public key = Ret pub /\
    r = writeJSON 200 [("name", name); ("address", address_of pub)].
Proof.
  intros Hrep. unfold handleGetKey. destruct (GetSecret _ _) as [key|err] eqn:Eg; [|by intros [= <-]].
  destruct (ed25519_Public key) as [pub|] eqn:Ep; cbn [call_then]; [|done].
  intros [= <-] _. exists key, pub. split_and!; [|done|done]. rewrite <- Hrep. by apply get_held.
Qed.

(** A creation: not 201 and nothing changes, or 201, the key is stored and the
    address is its own. *)
Lemma handleCreateKey_spec `{!Ed25519Laws} q wm answer wm' :
  request_ok q -> handleCreateKey (wq_Generated q) (wq_Nonce q) (wq_Key q) wm = (answer, wm') ->
  exists r, answer = Ret r /\
    ((wr_Status r <> 201 /\ wm_secretStore wm' = wm_secretStore wm) \/
     (wr_Status r = 201 /\ exists name pk key more, wq_Key q = Some (name, pk) /\
        fst (requested_key pk (wq_Generated q)) = Ok key /\
        r = writeJSON 201 ([("name", name); ("address", address_of (sdrop 32 key))] ++ more) /\
        forall m, held (wm_secretStore wm') m = if decide (m = name) then Some key else held (wm_secretStore wm) m)).
Proof.
  intros Hok E. unfold handleCreateKey in E. destruct (wq_Key q) as [[name pk]|]; [|injection E as <- <-; eauto 8].
  destruct (String.eqb name ""); [injection E as <- <-; eexists; split; [done|left; done]|].
  destruct (String.eqb (wm_providerName wm) "csi"); [injection E as <- <-; eexists; split; [done|left; done]|].
  destruct (requested_key pk (wq_Generated q)) as [[key|err] resp] eqn:Er.
  2: { injection E as <- <-. eexists. split; [done|]. left. split; [|done].
       unfold requested_key in Er. by destruct (String.eqb pk ""); injection Er as _ <-. }
  destruct (PutSecret _ _ _ _) as [[err|] s] eqn:Ep; injection E as <- <-.
  - apply put_failed in Ep as ->. eexists. split; [done|]. by left.
  - assert (String.length key = PrivateKeySize) as Hlen by (apply (requested_key_size q pk); [done|by rewrite Er]).
    rewrite (Public_of_size key Hlen). cbn [call_then]. eexists. split; [done|]. right. split; [done|].
    eexists name, pk, key, _. split_and!; [done|by rewrite Er|done|]. cbn [wm_secretStore with_secret_store].
    intros m. destruct Hok as [Hn _]. exact (put_held _ _ _ _ _ Hn Ep m).
Qed.

Lemma handleDeleteKey_spec name wm r wm' :
  handleDeleteKey name wm = (r, wm') ->
  (wr_Status r <> 200 /\ wm_secretStore wm' = wm_secretStore wm) \/
  (wr_Status r = 200 /\
   forall m, held (wm_secretStore wm') m = if decide (m = name) then None else held (wm_secretStore wm) m).
Proof.
  unfold handleDeleteKey. destruct (DeleteSecret _ _) as [[err|] s] eqn:Ed; intros [= <- <-].
  - left. by apply delete_failed in Ed as ->.
  - right. split; [done|]. exact (delete_held _ _ _ Ed).
Qed.

(** One request: the abstract wallet follows, and the answer is justified. *)
Lemma serve_wallet_refines `{!Ed25519Laws} q wm answer wm' keys :
  request_ok q -> represents wm keys -> serve_wallet q wm = (answer, wm') ->
  justified q answer keys /\ represents wm' (wallet_effect q answer keys).
Proof.
  intros Hok Hrep E. unfold serve_wallet in E. unfold justified, wallet_effect.
  destruct (wallet_route (wq_Method q) (wq_Segs q)) as [[h vs]|] eqn:Er; [|by injection E as <- <-].
  repeat match type of E with
  | (if String.eqb h ?lit then _ else _) = _ => destruct (String.eqb_spec h lit) as [->|?]; cbn [String.eqb] in E
  end.
  - injection E as <- <-. by split_and!.
  - injection E as <- <-. by split_and!.
  - injection E as <- <-. cbn. destruct (handleSign _ _ _) as [r|] eqn:Es; [|done].
    split; [|done]. split_and!; try done. intros _ Hr. by apply (handleSign_justified _ _ _ _ _ Hrep Es).
  - injection E as <- <-. cbn. destruct (handleAddress _ _ _) as [r|] eqn:Es; [|done].
    split; [|done]. split_and!; try done. intros _ Hr. by apply (handleAddress_justified _ _ _ _ _ Hrep Es).
  - injection E as <- <-. cbn. destruct (handleListKeys _) as [r|]; [|done]. by split_and!.
  - injection E as <- <-. cbn -[header_get]. destruct (handleGetKey _ _) as [r|] eqn:Es; [|done].
    split; [|done]. split_and!; try done. intros _ Hr. by apply (handleGetKey_justified _ _ _ _ Hrep Es).
  - destruct (handleCreateKey _ _ _ _) as [a wm1] eqn:Ec. injection E as <- <-.
    destruct (handleCreateKey_spec q wm a wm1 Hok Ec) as (r & -> & [[Hr Hs]|(Hr & name & pk & key & more & Hb & Hk & Hresp & Hheld)]).
    + cbn -[Z.eqb header_get sdrop address_of]. apply Z.eqb_neq in Hr as Hr'. rewrite Hr'. split; [by split_and!|].
      intros m. rewrite Hs. apply Hrep.
    + cbn -[Z.eqb header_get requested_key sdrop address_of]. rewrite Hr, Z.eqb_refl, Hb.
      destruct (requested_key pk (wq_Generated q)) as [[key'|] resp] eqn:Ek; [|done]. injection Hk as ->.
      split; [split_and!; try done; intros _ _; exists name, pk, key; split_and!; [done|by rewrite Ek|by exists more]|].
      intros m. rewrite Hheld. destruct (decide (m = name)) as [->|]; [by rewrite lookup_insert_eq|].
      rewrite lookup_insert_ne by done. apply Hrep.
  - destruct (handleDeleteKey _ _) as [r wm1] eqn:Ed. injection E as <- <-.
    assert (h = "handleDeleteKey") as -> by (apply String.eqb_eq; by apply (wallet_route_last _ _ _ _ Er)).
    cbn -[Z.eqb header_get]. split; [by split_and!|].
    destruct (handleDeleteKey_spec _ _ _ _ Ed) as [[Hr Hs]|[Hr Hheld]].
    + apply Z.eqb_neq in Hr as ->. intros m. rewrite Hs. apply Hrep.
    + rewrite Hr, Z.eqb_refl.
      intros m. rewrite Hheld. destruct (decide (m = header_get vs "name")) as [->|]; [by rewrite lookup_delete_eq|].
      rewrite lookup_delete_ne by done. apply Hrep.
Qed.

Fixpoint serve_all (qs : list WalletRequest) (wm : FlowgentWalletManager S) : FlowgentWalletManager S :=
  match qs with [] => wm | q :: qs => serve_all qs (serve_wallet q wm).2 end.

(** The request may change the key of a wallet. *)
Definition wallet_touches (name : string) (q : WalletRequest) : Prop :=
  match wallet_route (wq_Method q) (wq_Segs q) with
  | Some (h, vs) =>
      (h = "handleCreateKey" /\ exists pk, wq_Key q = Some (name, pk)) \/
      (h = "handleDeleteKey" /\ header_get vs "name" = name)
  | None => False
  end.

Lemma untouched_effect name q answer keys :
  ~ wallet_touches name q -> wallet_effect q answer keys !! name = keys !! name.
Proof.
  unfold wallet_touches, wallet_effect. destruct (wallet_route _ _) as [[h vs]|]; [|done].
  destruct answer as [[r|]|]; [|done|done]. intros Ht.
  destruct (String.eqb_spec h "handleCreateKey") as [->|Hc]; cbn [andb].
  - destruct (wr_Status r =? 201); [|done]. destruct (wq_Key q) as [[n pk]|]; [|done].
    destruct (requested_key _ _) as [[key|] ?]; [|done]. apply lookup_insert_ne. intros ->. eauto.
  - destruct (String.eqb_spec h "handleDeleteKey") as [->|]; cbn [andb]; [|done].
    destruct (wr_Status r =? 200); [|done]. apply lookup_delete_ne. intros <-. eauto.
Qed.

Lemma serve_all_untouched `{!Ed25519Laws} name qs wm keys :
  Forall request_ok qs -> Forall (fun q => ~ wallet_touches name q) qs -> represents wm keys ->
  exists keys', represents (serve_all qs wm) keys' /\ keys' !! name = keys !! name.
Proof.
  revert wm keys. induction qs as [|q qs IH]; intros wm keys Hok Ht Hrep; cbn [serve_all]; [by exists keys|].
  apply Forall_cons in Hok as [Hq Hok]. apply Forall_cons in Ht as [Hn Ht].
  destruct (serve_wallet q wm) as [a wm1] eqn:E. destruct (serve_wallet_refines q wm a wm1 keys Hq Hrep E) as [_ Hrep1].
  destruct (IH wm1 _ Hok Ht Hrep1) as (keys' & Hr & Hk). exists keys'. split; [exact Hr|].
  by rewrite Hk, untouched_effect.
Qed.

(** C13: once the daemon answers 201 to the creation of a wallet, and whatever
    it serves afterwards except another creation or a deletion of that wallet,
    a signature it answers for the wallet is that of the created key, whose
    address the creation answered; for a key that was generated, it verifies
    under the public key of that address. *)
Theorem created_key_signs `{!Ed25519Laws} wm keys q0 r0 wm0 name pk vs0 qs q r wm' vs payload :
  represents wm keys -> request_ok q0 -> Forall request_ok (qs ++ [q]) -> Forall (fun q => ~ wallet_touches name q) qs ->
  wallet_route (wq_Method q0) (wq_Segs q0) = Some ("handleCreateKey", vs0) -> wq_Key q0 = Some (name, pk) ->
  serve_wallet q0 wm = (Some (Ret r0), wm0) -> wr_Status r0 = 201 ->
  wallet_route (wq_Method q) (wq_Segs q) = Some ("handleSign", vs) -> wq_Sign q = Some (name, payload) ->
  serve_wallet q (serve_all qs wm0) = (Some (Ret r), wm') -> wr_Status r = 200 ->
  exists key more,
    fst (requested_key pk (wq_Generated q0)) = Ok key /\
    r0 = writeJSON 201 ([("name", name); ("address", address_of (sdrop 32 key))] ++ more) /\
    r = writeJSON 200 [("signature", hex_encode (ed_sign key payload)); ("wallet", name)] /\
    (pk = "" -> ed_verify (sdrop 32 key) payload (ed_sign key payload) = true).
Proof.
  intros Hrep Hok0 Hok Ht Hroute0 Hk0 E0 Hs0 Hroute Hk E Hs. apply Forall_app in Hok as [Hok Hq].
  rewrite Forall_singleton in Hq. destruct (serve_wallet_refines q0 wm _ wm0 keys Hok0 Hrep E0) as [Hj0 Hrep0].
  unfold justified in Hj0. unfold wallet_effect in Hrep0. rewrite Hroute0 in Hj0, Hrep0. rewrite Hs0, Hk0 in Hrep0.
  destruct Hj0 as (_ & _ & _ & Hj0). destruct (Hj0 eq_refl Hs0) as (name' & pk' & key & Hb & Hkey & more & Hr0).
  rewrite Hk0 in Hb. injection Hb as <- <-.
  change ((if true && true then _ else _) : gmap string string) with
    (match requested_key pk (wq_Generated q0) with (Ok key, _) => <[name:=key]> keys | _ => keys end) in Hrep0.
  destruct (requested_key pk (wq_Generated q0)) as [[key'|] resp] eqn:Erk; [|done]. injection Hkey as ->.
  destruct (serve_all_untouched name qs wm0 _ Hok Ht Hrep0) as (keys' & Hrep' & Hname). rewrite lookup_insert_eq in Hname.
  destruct (serve_wallet_refines q _ _ wm' keys' Hq Hrep' E) as [Hj _]. unfold justified in Hj. rewrite Hroute in Hj.
  destruct Hj as [Hj _]. destruct (Hj eq_refl Hs) as (w & p & k & Hb & Hheld & _ & Hr). rewrite Hk in Hb.
  injection Hb as <- <-. rewrite Hname in Hheld. injection Hheld as <-.
  exists key, more. split_and!; [done|done|done|]. intros ->. unfold requested_key in Erk. cbn in Erk.
  injection Erk as Hg _. apply ed_verifies. by apply Hok0.
Qed.
End Daemon.

(** ** A concrete wallet *)

(** A signature is the public key and the message. *)
#[local] Instance toy_ed : Ed25519 :=
  {| ed_sign := fun key msg => sdrop 32 key +:+ msg; ed_verify := fun pub msg sig => String.eqb sig (pub +:+ msg) |}.
#[local] Instance toy_ed_laws : Ed25519Laws.
Proof.
  refine {| ed_pair := fun key => String.length key = PrivateKeySize |}; [done|].
  intros key msg _. apply String.eqb_refl.
Defined.

(** The ciphertext is the key, the nonce and the plaintext. *)
#[local] Instance toy_aead : AEAD := {|
  NonceSize := 2; gcm_Seal := fun key nonce p => key +:+ nonce +:+ p;
  gcm_Open := fun key nonce c => if HasPrefix c (key +:+ nonce) then Ok (TrimPrefix c (key +:+ nonce))
                                 else Err "cipher: message authentication failed" |}.
#[local] Instance toy_aead_laws : AEADLaws.
Proof.
  constructor. intros key nonce p _. cbn. rewrite <- append_assoc, HasPrefix_append.
  unfold TrimPrefix, CutPrefix. by rewrite HasPrefix_append, sdrop_append.
Defined.
#[local] Existing Instance canonical_order.

Definition sample_key : string := zero_bytes 32 +:+ "0123456789abcdef0123456789abcdef".
Definition sample_wallet : FlowgentWalletManager DefaultStore :=
  {| wm_providerName := ""; wm_secretStore := {| ds_masterKey := "m"; ds_rows := ∅ |} |}.
Definition wallet_request (method : string) (segs : list string) (sign key : option (string * string)) : WalletRequest :=
  {| wq_Method := method; wq_Segs := segs; wq_Wallet := ""; wq_Sign := sign; wq_Key := key;
     wq_Generated := Ok sample_key; wq_Nonce := "no" |}.
Definition create_payments := wallet_request "POST" ["api"; "v1"; "wallet"; "keys"] None (Some ("payments", "")).
Definition delete_other := wallet_request "DELETE" ["api"; "v1"; "wallet"; "keys"; "other"] None None.
Definition sign_payments := wallet_request "POST" ["api"; "v1"; "wallet"; "sign"] (Some ("payments", "pay 1")) None.
#[local] Instance sample_store : SecretStore DefaultStore := default_store (fun _ => None).

Lemma created_key_signs_witness :
  exists r0 wm0 r wm',
    serve_wallet create_payments sample_wallet = (Some (Ret r0), wm0) /\
    serve_wallet sign_payments (serve_all [delete_other] wm0) = (Some (Ret r), wm') /\
    exists key more,
      fst (requested_key "" (Ok sample_key)) = Ok key /\
      r0 = writeJSON 201 ([("name", "payments"); ("address", address_of (sdrop 32 key))] ++ more) /\
      r = writeJSON 200 [("signature", hex_encode (ed_sign key "pay 1")); ("wallet", "payments")] /\
      ("" = "" -> ed_verify (sdrop 32 key) "pay 1" (ed_sign key "pay 1") = true).
Proof.
  destruct (serve_wallet create_payments sample_wallet) as [[[r0|]|] wm0] eqn:E0; [|vm_compute in E0; discriminate..].
  destruct (serve_wallet sign_payments (serve_all [delete_other] wm0)) as [[[r|]|] wm'] eqn:E;
    [|vm_compute in E0; injection E0 as _ <-; vm_compute in E; discriminate..].
  exists r0, wm0, r, wm'. split; [done|]. split; [exact E|].
  assert (forall q, q ∈ [create_payments; delete_other; sign_payments] -> request_ok (H1 := default_store_laws (fun _ => None)) q) as Hok.
  { intros q Hq. rewrite !elem_of_cons in Hq. destruct Hq as [->|[->|[->|Hq]]]; [..|by apply not_elem_of_nil in Hq];
      (split; [done|by intros key [= <-]]). }
  apply (created_key_signs (H1 := default_store_laws (fun _ => None)) sample_wallet ∅ create_payments r0 wm0 "payments" "" []
    [delete_other] sign_payments r wm' [] "pay 1").
  - intros n. reflexivity.
  - apply Hok. set_solver.
  - repeat constructor; apply Hok; set_solver.
  - constructor; [|constructor]. unfold wallet_touches. vm_compute. intros [[? _]|[_ ?]]; discriminate.
  - vm_compute. reflexivity.
  - reflexivity.
  - exact E0.
  - vm_compute in E0. injection E0 as <- _. reflexivity.
  - vm_compute. reflexivity.
  - reflexivity.
  - exact E.
  - vm_compute in E0. injection E0 as _ <-. vm_compute in E. injection E as <- _. reflexivity.
Defined.

(** The length of an imported file's key is not checked: signing with it
    panics, in the handler of the MQTT requests too. *)
Lemma short_key_panics :
  exists s, NewCSISecretStoreProvider (Ok ["WALLET_KEY_a=00"]) = Ok s /\
    exists msg, handleSign (H0 := csi_store) "POST" (Some ("a", "pay")) {| wm_providerName := "csi"; wm_secretStore := s |} = Panic msg.
Proof. eexists. split; [vm_compute; reflexivity|]. vm_compute. eauto. Qed.

(** Without a section of the configuration the daemon takes the encrypted
    table with no master key, which it cannot open. *)
Lemma unconfigured_wallet_fails db_err read_file rows home dbPath :
  exists db, choose_store (resolveStoreConfig None) home dbPath = UseDefault db "" /\
    exists err, NewDefaultSecretStoreProvider db_err read_file "" rows = Err err.
Proof. eexists. split; [reflexivity|]. eexists. reflexivity. Qed.

(** Different intents may have the same signed payload: the fields are joined
    by colons, which they may contain. *)
Lemma authorization_payload_ambiguous {D} `{Decimal D} (i : PaymentIntent D) :
  let with_ids id asset recipient :=
    {| pi_ID := id; pi_URL := pi_URL i; pi_Asset := asset; pi_Amount := pi_Amount i; pi_Chain := pi_Chain i;
       pi_Recipient := recipient; pi_Facilitator := pi_Facilitator i; pi_Status := pi_Status i;
       pi_CreatedAt := pi_CreatedAt i |} in
  authorization_payload (with_ids "i" "eip155:1" "bob") = authorization_payload (with_ids "i" "eip155" "1:bob").
Proof. reflexivity. Qed.
