(* ===== verification/Mqtt.v ===== *)
(** * The MQTT messager

    [pkg/messager/pkg/mqtt.go]: the client of the broker with its
    subscriptions, the choice of a messager ([messager.go], [helper.go]) and
    the counters of [instrumented.go].  Sessions are clean: a connection
    starts without subscriptions.  What the broker answers to each call is an
    argument. *)

From S2P Require Export Messager.

Local Open Scope string_scope.
Local Open Scope list_scope.
Local Open Scope Z_scope.

(** ** Outcomes *)

(** How a connection attempt ends: connected, refused, or given up when the
    context is done, while the attempt goes on and may connect later. *)
Inductive dial_outcome :=
| DialConnected
| DialFailed (err : string)
| DialCancelled (err : string) (connects : bool).

(** What the broker answers during a call: to connecting before it, to the
    call itself, to connecting again after its failure, and to the
    subscription of each topic on a new connection. *)
Record attempt := {
  at_dial : dial_outcome;
  at_call : option string;
  at_redial : dial_outcome;
  at_resub : string -> option string;
}.

Section Messager.
Context {H : Type}.

(** [mq_live] holds the subscriptions of the connection, when there is one. *)
Record MQTTMessager := {
  mq_handlers : gmap string (list H);
  mq_next : gmap string nat;
  mq_live : option (gset string);
}.

Definition with_live (live : option (gset string)) (q : MQTTMessager) : MQTTMessager :=
  {| mq_handlers := mq_handlers q; mq_next := mq_next q; mq_live := live |}.

Definition NewMQTTMessager (d : dial_outcome) : res MQTTMessager :=
  match d with
  | DialConnected => Ok {| mq_handlers := ∅; mq_next := ∅; mq_live := Some ∅ |}
  | DialFailed err | DialCancelled err _ => Err ("mqtt connect: " +:+ err)
  end.

(** The subscriptions of a new connection: those the broker accepts. *)
Definition resubscribe (resub : string -> option string) (q : MQTTMessager) : gset string :=
  filter (fun t => resub t = None) (dom (mq_handlers q)).

(** A new client replaces the old one. *)
Definition dialLocked (d : dial_outcome) (resub : string -> option string) (q : MQTTMessager)
    : option string * MQTTMessager :=
  match d with
  | DialConnected => (None, with_live (Some (resubscribe resub q)) q)
  | DialFailed err => (Some ("mqtt connect: " +:+ err), with_live None q)
  | DialCancelled err connects => (Some err, with_live (if connects then Some ∅ else None) q)
  end.

Definition ensureConnectedLocked (d : dial_outcome) (resub : string -> option string) (q : MQTTMessager)
    : option string * MQTTMessager :=
  match mq_live q with Some _ => (None, q) | None => dialLocked d resub q end.

(** One attempt of [Publish]: whether it goes on to the next, with its error,
    and how often the message was handed to the client. *)
Definition publish_attempt (a : attempt) (q : MQTTMessager) : (option string + string) * nat * MQTTMessager :=
  match ensureConnectedLocked (at_dial a) (at_resub a) q with
  | (Some err, q) => (inl (Some err), 0%nat, q)
  | (None, q) =>
      match at_call a with
      | None => (inl None, 1%nat, q)
      | Some lastErr => (inr lastErr, 1%nat, snd (dialLocked (at_redial a) (at_resub a) q))
      end
  end.

Definition mqtt_Publish (a1 a2 : attempt) (q : MQTTMessager) : option string * nat * MQTTMessager :=
  match publish_attempt a1 q with
  | (inl err, n, q) => (err, n, q)
  | (inr _, n1, q) =>
      match publish_attempt a2 q with
      | (inl err, n2, q) => (err, (n1 + n2)%nat, q)
      | (inr lastErr, n2, q) => (Some lastErr, (n1 + n2)%nat, q)
      end
  end.

Definition add_handler (topic : string) (h : H) (q : MQTTMessager) : MQTTMessager :=
  {| mq_handlers := <[topic := default [] (mq_handlers q !! topic) ++ [h]]> (mq_handlers q);
     mq_next := mq_next q; mq_live := mq_live q |}.

Definition subscribeTopic (answer : option string) (topic : string) (q : MQTTMessager) : option string * MQTTMessager :=
  match answer with
  | Some err => (Some ("mqtt subscribe " +:+ topic +:+ ": " +:+ err), q)
  | None => (None, with_live (match mq_live q with Some l => Some ({[topic]} ∪ l) | None => None end) q)
  end.

(** Only the first handler of a topic subscribes. *)
Definition mqtt_Subscribe (a : attempt) (topic : string) (h : H) (q : MQTTMessager) : option string * MQTTMessager :=
  match mq_handlers q !! topic with
  | Some _ => (None, add_handler topic h q)
  | None =>
      match ensureConnectedLocked (at_dial a) (at_resub a) (add_handler topic h q) with
      | (Some err, q) => (Some err, q)
      | (None, q) => subscribeTopic (at_call a) topic q
      end
  end.

Definition dispatchHandlers (topic : string) (q : MQTTMessager) : list H * MQTTMessager :=
  match mq_handlers q !! topic with
  | None | Some [] => ([], q)
  | Some (h :: hs) =>
      if isSharedTopic topic then
        let handlers := h :: hs in
        let idx := (default 0%nat (mq_next q !! topic) mod length handlers)%nat in
        (match handlers !! idx with Some h => [h] | None => [] end,
         {| mq_handlers := mq_handlers q; mq_next := <[topic := S idx]> (mq_next q); mq_live := mq_live q |})
      else (h :: hs, q)
  end.

(** A message on a subscription: each handler gets the topic of the
    subscription with the payload, when the envelope can be read. *)
Definition messageHandler {P} (topic : string) (payload : option P) (q : MQTTMessager)
    : list (H * string * P) * MQTTMessager :=
  let (hs, q) := dispatchHandlers topic q in
  (match payload with Some p => map (fun h => (h, topic, p)) hs | None => [] end, q).

Definition mqtt_Close (q : MQTTMessager) : MQTTMessager := with_live None q.

(** *** Events *)

Inductive mqtt_event :=
| MPublish (a1 a2 : attempt)
| MSubscribe (a : attempt) (topic : string) (h : H)
| MArrive (topic : string)
| MLost
| MClose.

(** The handler of a lost connection only logs. *)
Definition mqtt_step (q : MQTTMessager) (e : mqtt_event) : MQTTMessager :=
  match e with
  | MPublish a1 a2 => snd (mqtt_Publish a1 a2 q)
  | MSubscribe a topic h => snd (mqtt_Subscribe a topic h q)
  | MArrive topic =>
      match mq_live q with
      | Some live => if decide (topic ∈ live) then snd (dispatchHandlers topic q) else q
      | None => q
      end
  | MLost => with_live None q
  | MClose => mqtt_Close q
  end.
End Messager.
Arguments MQTTMessager : clear implicits.
Arguments mqtt_event : clear implicits.

(** ** The choice of a messager *)

Record MessagerCfg := { mc_Type : string; mc_Broker : string }.

Inductive messager_choice (H : Type) :=
| TheMQTT (q : MQTTMessager H)
| TheLocal
| Fatal (msg : string).
Arguments TheMQTT {H}. Arguments TheLocal {H}. Arguments Fatal {H}.

Definition broker_not_configured : string :=
  "FATAL: MQTT broker not configured. Set messager.mqtt.broker in flowgent.yaml or FLOWGENT__MESSAGER__MQTT__BROKER env var.".

Definition NewMessagerManager {H} (cfg : MessagerCfg) (d : dial_outcome) : messager_choice H :=
  let mqtt := String.eqb (mc_Type cfg) "mqtt" in
  let connected : messager_choice H + unit :=
    if mqtt && negb (String.eqb (mc_Broker cfg) "") then
      match NewMQTTMessager d with
      | Ok mq => inl (TheMQTT mq)
      | Err err =>
          if negb (String.eqb (mc_Broker cfg) "")
          then inl (Fatal ("FATAL: MQTT connect failed: " +:+ err +:+ " — broker=" +:+ mc_Broker cfg))
          else inr tt
      end
    else inr tt in
  match connected with
  | inl c => c
  | inr _ =>
      if mqtt && String.eqb (mc_Broker cfg) "" then Fatal broker_not_configured else TheLocal
  end.

(** [cfg] is [nil] when absent, which the second statement dereferences. *)
Definition NewQueueFromConfig {H} (cfg : option MessagerCfg) (d : dial_outcome) : messager_choice H + string :=
  match cfg with
  | None => inr "runtime error: invalid memory address or nil pointer dereference"
  | Some qc =>
      let distributed := String.eqb (mc_Type qc) "mqtt" in
      let rest := if distributed then Fatal broker_not_configured else TheLocal in
      inl (if String.eqb (mc_Type qc) "mqtt" && negb (String.eqb (mc_Broker qc) "") then
             match NewMQTTMessager d with
             | Ok mq => TheMQTT mq
             | Err err =>
                 if distributed
                 then Fatal ("FATAL: MQTT connect failed: " +:+ err +:+ " — broker=" +:+ mc_Broker qc)
                 else rest
             end
           else rest)
  end.

(** ** Counters (instrumented.go) *)

(** An instrumented messager counts the calls that succeed. *)
Record InstrumentedMessager (Q : Type) := {
  im_inner : Q; im_publishTotal : gmap string Z; im_ackTotal : Z; im_nackTotal : Z;
}.
Arguments im_inner {Q}. Arguments im_publishTotal {Q}. Arguments im_ackTotal {Q}. Arguments im_nackTotal {Q}.

Definition inst_Publish {Q} (publish : Q -> option string * Q) (topic : string) (m : InstrumentedMessager Q)
    : option string * InstrumentedMessager Q :=
  let (err, q) := publish (im_inner m) in
  (err, {| im_inner := q;
           im_publishTotal := match err with
                              | None => <[topic := default 0 (im_publishTotal m !! topic) + 1]> (im_publishTotal m)
                              | Some _ => im_publishTotal m
                              end;
           im_ackTotal := im_ackTotal m; im_nackTotal := im_nackTotal m |}).

Definition inst_Ack {Q} (ack : Q -> option string * Q) (m : InstrumentedMessager Q) : option string * InstrumentedMessager Q :=
  let (err, q) := ack (im_inner m) in
  (err, {| im_inner := q; im_publishTotal := im_publishTotal m;
           im_ackTotal := match err with None => im_ackTotal m + 1 | Some _ => im_ackTotal m end;
           im_nackTotal := im_nackTotal m |}).

Definition inst_Nack {Q} (nack : Q -> option string * Q) (m : InstrumentedMessager Q) : option string * InstrumentedMessager Q :=
  let (err, q) := nack (im_inner m) in
  (err, {| im_inner := q; im_publishTotal := im_publishTotal m; im_ackTotal := im_ackTotal m;
           im_nackTotal := match err with None => im_nackTotal m + 1 | Some _ => im_nackTotal m end |}).

(** ** Theorems *)

Section Theorems.
Context {H : Type}.

(** A call without mishap: attempts that are given up leave no connection
    behind, and the broker accepts subscriptions. *)
Definition dial_ok (d : dial_outcome) : Prop :=
  match d with DialCancelled _ connects => connects = false | _ => True end.
Definition attempt_ok (a : attempt) : Prop :=
  dial_ok (at_dial a) /\ dial_ok (at_redial a) /\ forall t, at_resub a t = None.
Definition event_ok (e : mqtt_event H) : Prop :=
  match e with
  | MPublish a1 a2 => attempt_ok a1 /\ attempt_ok a2
  | MSubscribe a _ _ => attempt_ok a /\ at_call a = None
  | MArrive _ | MLost | MClose => True
  end.

(** While connected, every topic with a handler is subscribed, and no other. *)
Definition wired (q : MQTTMessager H) : Prop :=
  match mq_live q with Some live => live = dom (mq_handlers q) | None => True end.

Lemma dial_wired d resub q :
  dial_ok d -> (forall t, resub t = None) -> wired (snd (dialLocked (H := H) d resub q)).
Proof.
  intros Hd Hr. unfold wired, dialLocked. destruct d as [|err|err []]; cbn in *; [|done..].
  unfold resubscribe. apply set_eq. intros t. rewrite elem_of_filter, Hr. tauto.
Qed.

Lemma dial_handlers d resub (q : MQTTMessager H) :
  mq_handlers (snd (dialLocked d resub q)) = mq_handlers q /\
  (fst (dialLocked d resub q) = None -> is_Some (mq_live (snd (dialLocked d resub q)))).
Proof. destruct d; cbn; (split; [done|]); [by eauto|discriminate..]. Qed.

Lemma ensure_wired d resub (q : MQTTMessager H) :
  dial_ok d -> (forall t, resub t = None) -> wired q -> wired (snd (ensureConnectedLocked d resub q)).
Proof. intros. unfold ensureConnectedLocked. destruct (mq_live q); [done|by apply dial_wired]. Qed.

Lemma publish_attempt_wired a (q : MQTTMessager H) : attempt_ok a -> wired q -> wired (snd (publish_attempt a q)).
Proof.
  intros (Hd & Hr & Hs) Hw. unfold publish_attempt. pose proof (ensure_wired (at_dial a) (at_resub a) q Hd Hs Hw) as He.
  destruct (ensureConnectedLocked _ _ q) as [[err|] q']; [done|].
  destruct (at_call a); [by apply dial_wired|done].
Qed.

Lemma mqtt_step_wired e (q : MQTTMessager H) : event_ok e -> wired q -> wired (mqtt_step q e).
Proof.
  destruct e as [a1 a2|a topic h|topic| |]; cbn [event_ok mqtt_step]; [| | |done|done].
  - intros [H1 H2] Hw. unfold mqtt_Publish. pose proof (publish_attempt_wired a1 q H1 Hw) as Hw1.
    destruct (publish_attempt a1 q) as [[[err|err] n1] q1]; [done|].
    pose proof (publish_attempt_wired a2 q1 H2 Hw1) as Hw2. by destruct (publish_attempt a2 q1) as [[[err'|err'] n2] q2].
  - intros [(Hd & _ & Hs) Hc] Hw. unfold mqtt_Subscribe. destruct (mq_handlers q !! topic) as [l|] eqn:El.
    + unfold wired in *. cbn. destruct (mq_live q); [|done]. subst. rewrite dom_insert_L.
      apply elem_of_dom_2 in El. set_solver.
    + set (q1 := add_handler topic h q). unfold ensureConnectedLocked. destruct (mq_live q1) as [live|] eqn:Elive.
      * rewrite Hc. unfold wired in *. cbn in *. rewrite Elive in *. subst live. rewrite dom_insert_L. done.
      * pose proof (dial_wired (at_dial a) (at_resub a) q1 Hd Hs) as Hw1.
        pose proof (dial_handlers (at_dial a) (at_resub a) q1) as [Hh _].
        destruct (dialLocked _ _ q1) as [[err|] q2]; [done|]. cbn [snd] in *. rewrite Hc. unfold wired in *. cbn.
        destruct (mq_live q2); [|done]. rewrite Hw1, Hh. subst q1. cbn. rewrite dom_insert_L. set_solver.
  - intros _ Hw. destruct (mq_live q) as [live|] eqn:El; [|done]. destruct (decide _); [|done].
    unfold dispatchHandlers. destruct (mq_handlers q !! topic) as [[|h hs]|]; [done| |done].
    by destruct (isSharedTopic topic).
Qed.

(** C26: as long as the broker accepts every subscription and no attempt to
    connect that was given up goes through, whatever is published, subscribed,
    received, lost and closed: while the messager is connected, the broker
    has its subscription for exactly the topics that have handlers. *)
Theorem mqtt_subscriptions_wired (es : list (mqtt_event H)) d q :
  NewMQTTMessager d = Ok q -> Forall event_ok es -> wired (fold_left mqtt_step es q).
Proof.
  intros Hn He. assert (wired q) as Hw by (destruct d; [injection Hn as <-; unfold wired; cbn; by rewrite dom_empty_L|done..]).
  clear Hn. revert q Hw. induction es as [|e es IH]; intros q Hw; [done|]. apply Forall_cons in He as [H1 H2].
  apply IH; [done|]. by apply mqtt_step_wired.
Qed.

(** A publication is handed to the client at most twice, and exactly as often
    as attempts reach the broker; one that succeeds was handed over. *)
Lemma mqtt_Publish_bound a1 a2 (q : MQTTMessager H) :
  (snd (fst (mqtt_Publish a1 a2 q)) <= 2)%nat /\
  (fst (fst (mqtt_Publish a1 a2 q)) = None ->
     (1 <= snd (fst (mqtt_Publish a1 a2 q)))%nat /\ is_Some (mq_live (snd (mqtt_Publish a1 a2 q)))).
Proof.
  assert (forall a q, (snd (fst (publish_attempt (H := H) a q)) <= 1)%nat /\
    (fst (fst (publish_attempt a q)) = inl None ->
       snd (fst (publish_attempt a q)) = 1%nat /\ is_Some (mq_live (snd (publish_attempt a q))))) as Hone.
  { intros a p. unfold publish_attempt, ensureConnectedLocked. destruct (mq_live p) as [live|] eqn:El.
    - destruct (at_call a); cbn; rewrite ?El; (split; [lia|]); [done|eauto].
    - pose proof (dial_handlers (at_dial a) (at_resub a) p) as [_ Hd]. destruct (dialLocked _ _ p) as [[err|] p']; cbn in *; [split; [lia|done]|].
      destruct (at_call a); cbn; (split; [lia|]); [done|eauto]. }
  unfold mqtt_Publish. pose proof (Hone a1 q) as [Ha1 Hb1]. destruct (publish_attempt a1 q) as [[[err|err] n1] q1]; cbn in *.
  - split; [lia|]. intros ->. destruct (Hb1 eq_refl) as [-> ?]. eauto with lia.
  - pose proof (Hone a2 q1) as [Ha2 Hb2]. destruct (publish_attempt a2 q1) as [[[err2|err2] n2] q2]; cbn in *; (split; [lia|]).
    + intros ->. destruct (Hb2 eq_refl) as [-> ?]. split; [lia|done].
    + done.
Qed.

(** One delivery is dispatched as the in-memory messager dispatches it to the
    handlers of the subscription. *)
Lemma dispatch_as_local topic (q : MQTTMessager H) :
  let (hs, next) := take_handlers topic (default [] (mq_handlers q !! topic)) (mq_next q) in
  dispatchHandlers topic q = (hs, {| mq_handlers := mq_handlers q; mq_next := next; mq_live := mq_live q |}).
Proof.
  unfold dispatchHandlers. destruct (mq_handlers q !! topic) as [[|h hs]|]; unfold take_handlers; cbn [from_option id]; [by destruct q| |by destruct q].
  destruct (isSharedTopic topic); [|by destruct q].
  reflexivity.
Qed.
End Theorems.

(** ** Concrete runs *)

Definition calm : attempt := {| at_dial := DialConnected; at_call := None; at_redial := DialConnected; at_resub := fun _ => None |}.
Definition refusing : attempt :=
  {| at_dial := DialConnected; at_call := Some "refused"; at_redial := DialConnected; at_resub := fun _ => None |}.
Definition fresh_mqtt : MQTTMessager nat := {| mq_handlers := ∅; mq_next := ∅; mq_live := Some ∅ |}.

Lemma mqtt_subscriptions_wired_witness :
  NewMQTTMessager (H := nat) DialConnected = Ok fresh_mqtt /\
  wired (fold_left mqtt_step [MSubscribe calm "t" 1%nat; MLost; MPublish refusing calm; MArrive "t"] fresh_mqtt).
Proof.
  split; [reflexivity|]. apply (mqtt_subscriptions_wired _ DialConnected); [reflexivity|].
  repeat constructor.
Defined.

(** A first subscription the broker refuses leaves its handler behind, and the
    next subscription of the topic succeeds without subscribing. *)
Lemma failed_subscription_sticks :
  exists err q1 q2, mqtt_Subscribe refusing "t" 1%nat fresh_mqtt = (Some err, q1) /\
    mqtt_Subscribe calm "t" 2%nat q1 = (None, q2) /\ mq_live q2 = Some ∅.
Proof. do 3 eexists. split_and!; reflexivity. Qed.

(** After a lost connection, a messager that only listens stays without one. *)
Lemma lost_stays_lost {H} topics (q : MQTTMessager H) :
  mq_live (fold_left mqtt_step (MLost :: map MArrive topics) q) = None.
Proof.
  cbn [fold_left]. assert (mq_live (mqtt_step q MLost) = None) as E by done. revert E. generalize (mqtt_step q MLost).
  induction topics as [|t topics IH]; intros p E; [done|]. cbn. rewrite E. by apply IH.
Qed.

(** An attempt that is given up and connects after all leaves a connection
    without subscriptions, which later publications take for good. *)
Lemma cancelled_dial_unwires :
  let a := {| at_dial := DialCancelled "context deadline exceeded" true; at_call := None;
              at_redial := DialConnected; at_resub := fun _ => None |} in
  let q := fold_left mqtt_step [MSubscribe calm "t" 1%nat; MLost; MPublish a calm; MPublish calm calm] fresh_mqtt in
  ~ wired q.
Proof. cbn. intros Hw. apply (f_equal (fun s => bool_decide ("t" ∈ s))) in Hw. vm_compute in Hw. discriminate. Qed.
