(* ===== verification/Signing.v ===== *)
(** * Signing over the messager

    The sign client of [pkg/core/pkg/client/signclient/mqtt.go], the wallet
    daemon's [handleSignRequest] ([pkg/wallet/pkg/walletmanager.go]) and the
    messages between them ([pkg/messager/pkg/messager.go]), composed: requests
    and answers cross a network that keeps, repeats and reorders messages,
    while the daemon also serves its HTTP requests. *)

From S2P Require Export Messager Wallet.

Local Open Scope string_scope.
Local Open Scope list_scope.
Local Open Scope Z_scope.

(** ** Messages *)

Record SignRequest := {
  sq_RequestID : string; sq_Wallet : string; sq_Payload : string;
  sq_Namespace : string; sq_FlowID : string; sq_RunID : string;
}.
Record SignResponse := { sp_RequestID : string; sp_Wallet : string; sp_Signature : string; sp_Error : string }.

#[export] Instance SignRequest_eq_dec : EqDecision SignRequest.
Proof. solve_decision. Defined.
#[export] Instance SignResponse_eq_dec : EqDecision SignResponse.
Proof. solve_decision. Defined.

(** ** The client *)

(** [sr_err] is "" when there is no error. *)
Record signResult := { sr_signature : string; sr_err : string }.

(** A call of [Sign]: its arguments, what its channel holds, what it has
    returned. *)
Record SignCall := { sc_wallet : string; sc_payload : string; sc_chan : list signResult; sc_ret : option (res string) }.

(** The client, with the calls made of it by their ids; [si_pending] is the
    ids of its map. *)
Record MqttSignClient := {
  si_ns : string; si_flow : string; si_run : string;
  si_pending : gset string; si_calls : gmap string SignCall;
}.

Definition NewMqttSignClient (namespaceID flowID runID : string) (subscribe : option string) : res MqttSignClient :=
  match subscribe with
  | Some err => Err ("subscribe sign response: " +:+ err)
  | None => Ok {| si_ns := namespaceID; si_flow := flowID; si_run := runID; si_pending := ∅; si_calls := ∅ |}
  end.

Definition si_with (pending : gset string) (calls : gmap string SignCall) (c : MqttSignClient) : MqttSignClient :=
  {| si_ns := si_ns c; si_flow := si_flow c; si_run := si_run c; si_pending := pending; si_calls := calls |}.

Definition returned (r : res string) (sc : SignCall) : SignCall :=
  {| sc_wallet := sc_wallet sc; sc_payload := sc_payload sc; sc_chan := sc_chan sc; sc_ret := Some r |}.

(** The size of a call's channel. *)
Definition chan_size : nat := 1.

(** Handling an answer; [None] is a send that blocks. *)
Definition handleResponse (payload : option SignResponse) (c : MqttSignClient) : option MqttSignClient :=
  match payload with
  | None => Some c
  | Some resp =>
      let id := sp_RequestID resp in
      let pending := si_pending c ∖ {[id]} in
      if decide (id ∈ si_pending c) then
        match si_calls c !! id with
        | Some sc =>
            if Nat.ltb (length (sc_chan sc)) chan_size then
              let result := {| sr_signature := sp_Signature resp; sr_err := sp_Error resp |} in
              Some (si_with pending (<[id := {| sc_wallet := sc_wallet sc; sc_payload := sc_payload sc;
                                                sc_chan := sc_chan sc ++ [result]; sc_ret := sc_ret sc |}]> (si_calls c)) c)
            else None
        | None => Some (si_with pending (si_calls c) c)
        end
      else Some (si_with pending (si_calls c) c)
  end.

(** [Sign] up to its publication: the call waits, and this is its request. *)
Definition sign_request (c : MqttSignClient) (reqID walletAddr payload : string) : SignRequest :=
  {| sq_RequestID := reqID; sq_Wallet := walletAddr; sq_Payload := payload;
     sq_Namespace := si_ns c; sq_FlowID := si_flow c; sq_RunID := si_run c |}.

Definition Sign_begin (reqID walletAddr payload : string) (c : MqttSignClient) : MqttSignClient :=
  si_with ({[reqID]} ∪ si_pending c)
    (<[reqID := {| sc_wallet := walletAddr; sc_payload := payload; sc_chan := []; sc_ret := None |}]> (si_calls c)) c.

(** A call that gives up: its publication failed, its context is done or its
    time is over. *)
Definition Sign_give_up (reqID err : string) (c : MqttSignClient) : MqttSignClient :=
  match si_calls c !! reqID with
  | Some sc => si_with (si_pending c ∖ {[reqID]}) (<[reqID := returned (Err err) sc]> (si_calls c)) c
  | None => c
  end.

(** A call that receives from its channel. *)
Definition Sign_receive (reqID : string) (c : MqttSignClient) : MqttSignClient :=
  match si_calls c !! reqID with
  | Some sc =>
      match sc_chan sc with
      | result :: rest =>
          let r := if String.eqb (sr_err result) "" then Ok (sr_signature result) else Err (sr_err result) in
          si_with (si_pending c)
            (<[reqID := returned r {| sc_wallet := sc_wallet sc; sc_payload := sc_payload sc; sc_chan := rest;
                                      sc_ret := sc_ret sc |}]> (si_calls c)) c
      | [] => c
      end
  | None => c
  end.

(** ** The daemon *)

(** The answers it publishes: a topic and its message; a key of another
    length makes the handler panic. *)
Definition sign_error (req : SignRequest) (errMsg : string) : SignResponse :=
  {| sp_RequestID := sq_RequestID req; sp_Wallet := sq_Wallet req; sp_Signature := ""; sp_Error := errMsg |}.

Definition handleSignRequest `{Ed25519} {S} `{SecretStore S} (payload : option SignRequest) (wm : FlowgentWalletManager S)
    : call (option (string * SignResponse)) :=
  match payload with
  | None => Ret None
  | Some req =>
      let respTopic := SignResponseTopic (sq_Namespace req) (sq_FlowID req) (sq_RunID req) in
      match GetSecret (wallet_key (sq_Wallet req)) (wm_secretStore wm) with
      | Err _ => Ret (Some (respTopic, sign_error req ("wallet not found: " +:+ sq_Wallet req)))
      | Ok key =>
          call_then (ed25519_Sign key (sq_Payload req)) (fun sig =>
            Some (respTopic, {| sp_RequestID := sq_RequestID req; sp_Wallet := sq_Wallet req;
                                sp_Signature := hex_encode sig; sp_Error := "" |}))
      end
  end.

(** ** The system *)

Section System.
Context `{Ed25519} {S : Type} `{SecretStore S}.

(** Clients by name, the daemon, what was published so far, and the states the
    daemon has had, which no step reads.  Ids are fresh. *)
Record SignSystem := {
  sy_clients : gmap string MqttSignClient;
  sy_wm : FlowgentWalletManager S;
  sy_requests : list (string * SignRequest);
  sy_responses : list (string * SignResponse);
  sy_past : list (FlowgentWalletManager S);
}.

Definition set_client (n : string) (c : MqttSignClient) (sy : SignSystem) : SignSystem :=
  {| sy_clients := <[n := c]> (sy_clients sy); sy_wm := sy_wm sy; sy_requests := sy_requests sy;
     sy_responses := sy_responses sy; sy_past := sy_past sy |}.

Definition fresh_id (id : string) (sy : SignSystem) : Prop :=
  forall n c, sy_clients sy !! n = Some c -> si_calls c !! id = None.

(** A call waits: it has not returned. *)
Definition waiting (c : MqttSignClient) (id : string) : Prop :=
  exists sc, si_calls c !! id = Some sc /\ sc_ret sc = None.

(** A publication that fails may have been received; the call then gives up. *)
Inductive sign_step : SignSystem -> SignSystem -> Prop :=
| SNew n ns flow run c sy :
    sy_clients sy !! n = None -> NewMqttSignClient ns flow run None = Ok c -> sign_step sy (set_client n c sy)
| SSign n c id wallet payload sy :
    sy_clients sy !! n = Some c -> fresh_id id sy ->
    sign_step sy
      {| sy_clients := <[n := Sign_begin id wallet payload c]> (sy_clients sy); sy_wm := sy_wm sy;
         sy_requests := (SignRequestTopic (si_ns c) (si_flow c) (si_run c), sign_request c id wallet payload) :: sy_requests sy;
         sy_responses := sy_responses sy; sy_past := sy_past sy |}
| SGiveUp n c id err sy :
    sy_clients sy !! n = Some c -> waiting c id -> sign_step sy (set_client n (Sign_give_up id err c) sy)
| SReceive n c id sy :
    sy_clients sy !! n = Some c -> waiting c id -> sign_step sy (set_client n (Sign_receive id c) sy)
| SRespond n c topic resp c' sy :
    sy_clients sy !! n = Some c -> (topic, resp) ∈ sy_responses sy ->
    topic = SignResponseTopic (si_ns c) (si_flow c) (si_run c) ->
    handleResponse (Some resp) c = Some c' -> sign_step sy (set_client n c' sy)
| SHandle topic req answer sy :
    (topic, req) ∈ sy_requests sy -> topicMatch (stripSharePrefix SharedSignRequest) (splitTopic topic) = true ->
    handleSignRequest (Some req) (sy_wm sy) = Ret (Some answer) ->
    sign_step sy
      {| sy_clients := sy_clients sy; sy_wm := sy_wm sy; sy_requests := sy_requests sy;
         sy_responses := answer :: sy_responses sy; sy_past := sy_past sy |}
| SServe q answer wm' sy :
    serve_wallet q (sy_wm sy) = (answer, wm') ->
    sign_step sy
      {| sy_clients := sy_clients sy; sy_wm := wm'; sy_requests := sy_requests sy;
         sy_responses := sy_responses sy; sy_past := wm' :: sy_past sy |}.

Definition sign_start (wm : FlowgentWalletManager S) : SignSystem :=
  {| sy_clients := ∅; sy_wm := wm; sy_requests := []; sy_responses := []; sy_past := [wm] |}.
End System.

(** ** Which HTTP client payments get (httpclient_factory_x402.go) *)

(** The section of the configuration; a duration is nanoseconds. *)
Record PaymentConfig := {
  pf_Enabled : bool; pf_Policies : PoliciesConfig; pf_Facilitator : string; pf_Timeout : string; pf_MaxRetries : Z;
}.

Inductive http_client (D : Type) :=
| GenericHttpClient (timeout : Z)
| X402PaymentHttpClient (timeout : Z) (maxRetries : Z) (client : @X402Client (memorySpendingStore D))
    (signer : MqttSignClient) (has_approver : bool).
Arguments GenericHttpClient {D}. Arguments X402PaymentHttpClient {D}.

Definition thirty_seconds : Z := 30 * 1000000000.

Definition NewGenericHttpClient {D} (timeout : Z) : http_client D :=
  GenericHttpClient (if timeout <=? 0 then thirty_seconds else timeout).

Definition NewX402PaymentHttpClient {D} (timeout maxRetries : Z) (eng : Engine (memorySpendingStore D))
    (facilitator : string) (signer : MqttSignClient) (has_approver : bool) : http_client D :=
  X402PaymentHttpClient (if timeout <=? 0 then thirty_seconds else timeout) maxRetries
    {| xc_policyEngine := eng; xc_facilitator := facilitator; xc_defaultAddr := "" |} signer has_approver.

(** [parse_duration] is [time.ParseDuration]. *)
Definition resolveTimeout (parse_duration : string -> option Z) (payCfg : PaymentConfig) : Z :=
  if String.eqb (pf_Timeout payCfg) "" then thirty_seconds
  else match parse_duration (pf_Timeout payCfg) with Some d => d | None => thirty_seconds end.

(** [q] is the outcome of subscribing on the messager, when there is one. *)
Definition NewHttpClient {D} (parse_duration : string -> option Z) (cfg : option PaymentConfig)
    (defaultNamespace : string) (q : option (option string)) : http_client D :=
  match cfg with
  | None => NewGenericHttpClient thirty_seconds
  | Some payCfg =>
      if negb (pf_Enabled payCfg) then NewGenericHttpClient thirty_seconds
      else match q with
           | None => NewGenericHttpClient thirty_seconds
           | Some subscribe =>
               match NewMqttSignClient defaultNamespace "" "" subscribe with
               | Err _ => NewGenericHttpClient thirty_seconds
               | Ok sc =>
                   let maxRetries := if pf_MaxRetries payCfg =? 0 then 3 else pf_MaxRetries payCfg in
                   match NewEngine (D := D) (S := memorySpendingStore D) (pf_Policies payCfg) (inr tt) with
                   | inl eng | inr eng =>
                       NewX402PaymentHttpClient (resolveTimeout parse_duration payCfg) maxRetries eng
                         (pf_Facilitator payCfg) sc false
                   end
               end
           end
  end.
