(* ===== verification/SigningFacts.v ===== *)
(** * Signing over the messager: theorems

    A call of [Sign] that returns a signature returns that of its own payload
    under a key its wallet held, in every interleaving of the system. *)

From S2P Require Export Signing WalletFacts.

Local Open Scope string_scope.
Local Open Scope list_scope.
Local Open Scope Z_scope.

Section Facts.
Context {S : Type} `{Ed25519} `{SecretStoreLaws S}.
Abbreviation system := (SignSystem (S := S)).

(** ** The invariant *)

(** A signature of the payload under a key that some past state of the daemon
    holds for the wallet. *)
Definition justified_sig (past : list (FlowgentWalletManager S)) (wallet payload sig : string) : Prop :=
  exists wm key, wm ∈ past /\ held (wm_secretStore wm) wallet = Some key /\
    String.length key = PrivateKeySize /\ sig = hex_encode (ed_sign key payload).

Definition call_ok (past : list (FlowgentWalletManager S)) (sc : SignCall) : Prop :=
  (forall r, r ∈ sc_chan sc -> sr_err r = "" -> justified_sig past (sc_wallet sc) (sc_payload sc) (sr_signature r)) /\
  (forall sig, sc_ret sc = Some (Ok sig) -> justified_sig past (sc_wallet sc) (sc_payload sc) sig).

(** What is pending has an empty channel. *)
Definition client_ok (past : list (FlowgentWalletManager S)) (c : MqttSignClient) : Prop :=
  (forall id, id ∈ si_pending c -> exists sc, si_calls c !! id = Some sc /\ sc_chan sc = []) /\
  (forall id sc, si_calls c !! id = Some sc -> call_ok past sc).

Definition call_args (sc : SignCall) : string * string := (sc_wallet sc, sc_payload sc).

Definition call_of (sy : system) (id : string) (args : string * string) : Prop :=
  exists n c sc, sy_clients sy !! n = Some c /\ si_calls c !! id = Some sc /\ call_args sc = args.

Record sign_inv (sy : system) : Prop := {
  inv_req : forall t r, (t, r) ∈ sy_requests sy -> call_of sy (sq_RequestID r) (sq_Wallet r, sq_Payload r);
  inv_one : forall n1 n2 c1 c2 id, sy_clients sy !! n1 = Some c1 -> sy_clients sy !! n2 = Some c2 ->
    is_Some (si_calls c1 !! id) -> is_Some (si_calls c2 !! id) -> n1 = n2;
  inv_resp : forall t p, (t, p) ∈ sy_responses sy -> sp_Error p = "" ->
    exists w pl, call_of sy (sp_RequestID p) (w, pl) /\ justified_sig (sy_past sy) w pl (sp_Signature p);
  inv_client : forall n c, sy_clients sy !! n = Some c -> client_ok (sy_past sy) c;
  inv_now : sy_wm sy ∈ sy_past sy;
}.

(** ** Clients that change *)

Lemma justified_more past wm w pl sig : justified_sig past w pl sig -> justified_sig (wm :: past) w pl sig.
Proof. intros (wm' & key & ? & ? & ? & ?). exists wm', key. split_and!; [set_solver|done..]. Qed.

Lemma client_more past wm c : client_ok past c -> client_ok (wm :: past) c.
Proof.
  intros [Hp Hc]. split; [done|]. intros id sc Hs. destruct (Hc id sc Hs) as [H1' H2'].
  split; intros; apply justified_more; eauto.
Qed.

(** Calls keep their arguments. *)
Definition same_calls (c c' : MqttSignClient) : Prop :=
  forall id, call_args <$> (si_calls c' !! id) = call_args <$> (si_calls c !! id).

Lemma same_calls_Some c c' id sc :
  same_calls c c' -> si_calls c !! id = Some sc -> exists sc', si_calls c' !! id = Some sc' /\ call_args sc' = call_args sc.
Proof.
  intros Hs E. specialize (Hs id). rewrite E in Hs. destruct (si_calls c' !! id) as [sc'|]; [|done].
  injection Hs as Hw Hp. exists sc'. split; [done|]. unfold call_args. congruence.
Qed.

Lemma same_calls_insert pending c id sc sc' :
  si_calls c !! id = Some sc -> call_args sc' = call_args sc ->
  same_calls c (si_with pending (<[id := sc']> (si_calls c)) c).
Proof.
  intros E Ha id'. cbn. destruct (decide (id' = id)) as [->|]; [|by rewrite lookup_insert_ne].
  rewrite lookup_insert_eq, E. cbn. by rewrite Ha.
Qed.

Lemma call_of_set n c c' (sy : system) id args :
  sy_clients sy !! n = Some c -> same_calls c c' -> call_of sy id args -> call_of (set_client n c' sy) id args.
Proof.
  intros Hn Hs (m & d & sc & Hm & Hd & Ha). destruct (decide (m = n)) as [->|Hne].
  - rewrite Hn in Hm. injection Hm as <-. destruct (same_calls_Some _ _ _ _ Hs Hd) as (sc' & Hsc & Ha').
    exists n, c', sc'. cbn. rewrite lookup_insert_eq. split_and!; [done..|congruence].
  - exists m, d, sc. cbn. rewrite lookup_insert_ne by done. done.
Qed.

Lemma inv_set_client n c c' (sy : system) :
  sign_inv sy -> sy_clients sy !! n = Some c -> same_calls c c' -> client_ok (sy_past sy) c' ->
  sign_inv (set_client n c' sy).
Proof.
  intros Hi Hn Hs Hc. assert (forall m d, <[n := c']> (sy_clients sy) !! m = Some d ->
    exists d0, sy_clients sy !! m = Some d0 /\ same_calls d0 d) as Hback.
  { intros m d E. destruct (decide (m = n)) as [->|Hne].
    - rewrite lookup_insert_eq in E. injection E as <-. by exists c.
    - rewrite lookup_insert_ne in E by done. exists d. split; [done|]. by intros id. }
  constructor; cbn.
  - intros t r Hr. apply (call_of_set n c); [done..|]. by apply (inv_req _ Hi t).
  - intros n1 n2 c1 c2 id E1 E2 I1 I2. destruct (Hback _ _ E1) as (d1 & F1 & S1). destruct (Hback _ _ E2) as (d2 & F2 & S2).
    apply (inv_one _ Hi n1 n2 d1 d2 id F1 F2).
    + specialize (S1 id). destruct I1 as [? I1]. rewrite I1 in S1. by destruct (si_calls d1 !! id).
    + specialize (S2 id). destruct I2 as [? I2]. rewrite I2 in S2. by destruct (si_calls d2 !! id).
  - intros t p Hp He. destruct (inv_resp _ Hi t p Hp He) as (w & pl & Hcall & Hj). exists w, pl. split; [|done].
    by apply (call_of_set n c).
  - intros m d E. destruct (decide (m = n)) as [->|Hne].
    + rewrite lookup_insert_eq in E. by injection E as <-.
    + rewrite lookup_insert_ne in E by done. by apply (inv_client _ Hi m).
  - apply (inv_now _ Hi).
Qed.

(** ** Steps of a client *)

(** One call of a client changes, and leaves what is pending. *)
Lemma client_ok_update past pending c id sc' :
  client_ok past c -> (forall i, i ∈ pending -> i <> id /\ i ∈ si_pending c) -> call_ok past sc' ->
  client_ok past (si_with pending (<[id := sc']> (si_calls c)) c).
Proof.
  intros [Hp Hc] Hsub Hok. split; cbn.
  - intros i Hi. destruct (Hsub i Hi) as [Hne Hi']. rewrite lookup_insert_ne by done. by apply Hp.
  - intros i sc Hsc. destruct (decide (i = id)) as [->|Hne].
    + rewrite lookup_insert_eq in Hsc. by injection Hsc as <-.
    + rewrite lookup_insert_ne in Hsc by done. by apply (Hc i).
Qed.

Lemma give_up_ok past id err c :
  client_ok past c -> same_calls c (Sign_give_up id err c) /\ client_ok past (Sign_give_up id err c).
Proof.
  intros Hc. unfold Sign_give_up. destruct (si_calls c !! id) as [sc|] eqn:E; [|by split].
  split; [by apply (same_calls_insert _ _ _ sc)|]. apply client_ok_update; [done|set_solver|].
  destruct (proj2 Hc id sc E) as [H1' _]. split; [exact H1'|done].
Qed.

Lemma receive_ok past id c :
  client_ok past c -> same_calls c (Sign_receive id c) /\ client_ok past (Sign_receive id c).
Proof.
  intros Hc. unfold Sign_receive. destruct (si_calls c !! id) as [sc|] eqn:E; [|by split].
  destruct (sc_chan sc) as [|result rest] eqn:Ec; [by split|].
  split; [by apply (same_calls_insert _ _ _ sc)|]. apply client_ok_update; [done| |].
  - intros i Hi. split; [|done]. intros ->. destruct (proj1 Hc id Hi) as (sc0 & E0 & Ech). congruence.
  - destruct (proj2 Hc id sc E) as [H1' _]. rewrite Ec in H1'. split; cbn.
    + intros r Hr. apply H1'. by right.
    + intros sig. destruct (String.eqb_spec (sr_err result) "") as [He|]; [|done]. intros [= <-]. apply H1'; [by left|done].
Qed.

Lemma respond_ok past resp c c' :
  client_ok past c ->
  (forall sc, si_calls c !! sp_RequestID resp = Some sc -> sp_Error resp = "" ->
     justified_sig past (sc_wallet sc) (sc_payload sc) (sp_Signature resp)) ->
  handleResponse (Some resp) c = Some c' -> same_calls c c' /\ client_ok past c'.
Proof.
  intros Hc Hj. unfold handleResponse. cbv zeta. assert (client_ok past (si_with (si_pending c ∖ {[sp_RequestID resp]}) (si_calls c) c)) as Hkeep.
  { destruct Hc as [Hp Hs]. split; cbn; [|done]. intros i Hi. apply Hp. set_solver. }
  destruct (decide _) as [Hin|]; [|by intros [= <-]].
  destruct (si_calls c !! sp_RequestID resp) as [sc|] eqn:E; [|by intros [= <-]].
  destruct (Nat.ltb _ _); [|done]. intros [= <-]. split; [by apply (same_calls_insert _ _ _ sc)|].
  apply client_ok_update; [done|set_solver|]. destruct (proj2 Hc _ sc E) as [H1' H2']. split; cbn; [|done].
  intros r [Hr|Hr]%elem_of_app; [by apply H1'|]. apply list_elem_of_singleton in Hr as ->. cbn. by apply Hj.
Qed.

(** Handling an answer never blocks. *)
Lemma handleResponse_sends past payload c : client_ok past c -> is_Some (handleResponse payload c).
Proof.
  intros [Hp _]. destruct payload as [resp|]; cbn; [|done]. destruct (decide _) as [Hin|]; [|done].
  destruct (Hp _ Hin) as (sc & -> & ->). by cbn.
Qed.

(** ** Steps of the system *)

Lemma call_of_begin n c id wallet payload (sy : system) reqs id' args :
  sy_clients sy !! n = Some c -> si_calls c !! id = None -> call_of sy id' args ->
  call_of {| sy_clients := <[n := Sign_begin id wallet payload c]> (sy_clients sy); sy_wm := sy_wm sy;
             sy_requests := reqs; sy_responses := sy_responses sy; sy_past := sy_past sy |} id' args.
Proof.
  intros Hn Hf (m & d & sc & Hm & Hd & Ha). destruct (decide (m = n)) as [->|Hne].
  - rewrite Hn in Hm. injection Hm as <-. exists n, (Sign_begin id wallet payload c), sc. cbn.
    rewrite lookup_insert_eq. split_and!; [done| |done]. rewrite lookup_insert_ne; [done|]. intros ->. congruence.
  - exists m, d, sc. cbn. by rewrite lookup_insert_ne.
Qed.

Lemma inv_sign n c id wallet payload (sy : system) :
  sign_inv sy -> sy_clients sy !! n = Some c -> fresh_id id sy ->
  sign_inv
    {| sy_clients := <[n := Sign_begin id wallet payload c]> (sy_clients sy); sy_wm := sy_wm sy;
       sy_requests := (SignRequestTopic (si_ns c) (si_flow c) (si_run c), sign_request c id wallet payload) :: sy_requests sy;
       sy_responses := sy_responses sy; sy_past := sy_past sy |}.
Proof.
  intros Hi Hn Hf. pose proof (Hf n c Hn) as Hfc. constructor; cbn.
  - intros t r [Hr|Hr]%elem_of_cons.
    + injection Hr as -> ->. exists n, (Sign_begin id wallet payload c). eexists. cbn. rewrite !lookup_insert_eq. eauto.
    + apply call_of_begin; [done..|]. by apply (inv_req _ Hi t).
  - assert (forall m d i, <[n := Sign_begin id wallet payload c]> (sy_clients sy) !! m = Some d -> is_Some (si_calls d !! i) ->
      (i = id /\ m = n) \/ (exists d0, sy_clients sy !! m = Some d0 /\ is_Some (si_calls d0 !! i) /\ i <> id)) as Hback.
    { intros m d i E Hs. destruct (decide (m = n)) as [->|Hne].
      - rewrite lookup_insert_eq in E. injection E as <-. cbn in Hs. destruct (decide (i = id)) as [->|]; [by left|].
        rewrite lookup_insert_ne in Hs by done. right. eauto.
      - rewrite lookup_insert_ne in E by done. right. exists d. split_and!; [done..|]. intros ->.
        rewrite (Hf m d E) in Hs. by destruct Hs. }
    intros n1 n2 c1 c2 i E1 E2 I1 I2.
    destruct (Hback _ _ _ E1 I1) as [[-> ->]|(d1 & F1 & J1 & N1)], (Hback _ _ _ E2 I2) as [[? ->]|(d2 & F2 & J2 & N2)];
      [done..|]. by apply (inv_one _ Hi n1 n2 d1 d2 i).
  - intros t p Hp He. destruct (inv_resp _ Hi t p Hp He) as (w & pl & Hc & Hj). exists w, pl. split; [|done].
    by apply call_of_begin.
  - intros m d E. destruct (decide (m = n)) as [->|Hne].
    + rewrite lookup_insert_eq in E. injection E as <-. destruct (inv_client _ Hi n c Hn) as [Hp Hs]. split; cbn.
      * intros i Hin. destruct (decide (i = id)) as [->|]; [rewrite lookup_insert_eq; eauto|].
        rewrite lookup_insert_ne by done. apply Hp. set_solver.
      * intros i sc Hsc. destruct (decide (i = id)) as [->|].
        -- rewrite lookup_insert_eq in Hsc. injection Hsc as <-. split; cbn; [by intros r ?%not_elem_of_nil|done].
        -- rewrite lookup_insert_ne in Hsc by done. by apply (Hs i).
    + rewrite lookup_insert_ne in E by done. by apply (inv_client _ Hi m).
  - apply (inv_now _ Hi).
Qed.

(** What the daemon answers without an error is a signature of the request's
    payload under a key it holds. *)
Lemma handleSignRequest_justified req wm t p :
  handleSignRequest (Some req) wm = Ret (Some (t, p)) ->
  sp_RequestID p = sq_RequestID req /\
  (sp_Error p = "" -> justified_sig [wm] (sq_Wallet req) (sq_Payload req) (sp_Signature p)).
Proof.
  cbn. destruct (GetSecret _ _) as [key|err] eqn:Eg; [|by intros [= <- <-]].
  unfold ed25519_Sign. destruct (Nat.eqb_spec (String.length key) PrivateKeySize) as [Hl|]; [|done].
  intros [= <- <-]. split; [done|]. intros _. exists wm, key. split_and!; [by left|by apply get_held|done|done].
Qed.

Lemma sign_step_inv (sy sy' : system) : sign_inv sy -> sign_step sy sy' -> sign_inv sy'.
Proof.
  intros Hi Hstep. destruct Hstep as [n ns flow run c sy Hn Hnew|n c id wallet payload sy Hn Hf|n c id err sy Hn _|n c id sy Hn _
    |n c topic resp c' sy Hn Hr _ Hh|topic req [t p] sy Hr _ Hh|q answer wm' sy Hs].
  - injection Hnew as <-. constructor; cbn.
    + intros t r Hr. destruct (inv_req _ Hi t r Hr) as (m & d & sc & Hm & Hd). exists m, d, sc. cbn.
      rewrite lookup_insert_ne; [done|]. intros ->. congruence.
    + intros n1 n2 c1 c2 i E1 E2 I1 I2. destruct (decide (n1 = n)) as [->|].
      { rewrite lookup_insert_eq in E1. injection E1 as <-. cbn in I1. rewrite lookup_empty in I1. by destruct I1. }
      destruct (decide (n2 = n)) as [->|].
      { rewrite lookup_insert_eq in E2. injection E2 as <-. cbn in I2. rewrite lookup_empty in I2. by destruct I2. }
      rewrite lookup_insert_ne in E1, E2 by done. by apply (inv_one _ Hi n1 n2 c1 c2 i).
    + intros t p Hp He. destruct (inv_resp _ Hi t p Hp He) as (w & pl & (m & d & sc & Hm & Hd) & Hj). exists w, pl.
      split; [|done]. exists m, d, sc. cbn. rewrite lookup_insert_ne; [done|]. intros ->. congruence.
    + intros m d E. destruct (decide (m = n)) as [->|].
      * rewrite lookup_insert_eq in E. injection E as <-. split; cbn; [set_solver|]. intros i sc. by rewrite lookup_empty.
      * rewrite lookup_insert_ne in E by done. by apply (inv_client _ Hi m).
    + apply (inv_now _ Hi).
  - by apply inv_sign.
  - destruct (give_up_ok (sy_past sy) id err c (inv_client _ Hi n c Hn)). by apply (inv_set_client n c).
  - destruct (receive_ok (sy_past sy) id c (inv_client _ Hi n c Hn)). by apply (inv_set_client n c).
  - destruct (respond_ok (sy_past sy) resp c c' (inv_client _ Hi n c Hn)) as [Hsame Hok]; [|done|by apply (inv_set_client n c)].
    intros sc E He. destruct (inv_resp _ Hi topic resp Hr He) as (w & pl & (m & d & sc' & Hm & Hd & Ha) & Hj).
    assert (m = n) as -> by (apply (inv_one _ Hi m n d c (sp_RequestID resp)); eauto).
    rewrite Hn in Hm. injection Hm as <-. rewrite E in Hd. injection Hd as <-. by injection Ha as -> ->.
  - apply handleSignRequest_justified in Hh as [Hid Hj]. constructor; cbn; try apply Hi.
    intros t' p' [Hp|Hp]%elem_of_cons He; [|by apply (inv_resp _ Hi t')]. injection Hp as -> ->.
    exists (sq_Wallet req), (sq_Payload req). rewrite Hid. split; [by apply (inv_req _ Hi topic)|].
    destruct (Hj He) as (wm & key & Hin & Hrest). apply list_elem_of_singleton in Hin as ->.
    exists (sy_wm sy), key. split; [apply (inv_now _ Hi)|done].
  - constructor; cbn; [apply Hi|apply Hi| | |by left].
    + intros t p Hp He. destruct (inv_resp _ Hi t p Hp He) as (w & pl & Hc & Hj). exists w, pl. split; [done|].
      by apply justified_more.
    + intros n c Hn. apply client_more. by apply (inv_client _ Hi n).
Qed.

Lemma sign_reach_inv wm (sy : system) : rtc sign_step (sign_start wm) sy -> sign_inv sy.
Proof.
  intros Hr. assert (forall a b : system, rtc sign_step a b -> sign_inv a -> sign_inv b) as Hgen.
  { intros a b Hab. induction Hab; [done|]. eauto using sign_step_inv. }
  apply (Hgen _ _ Hr). constructor; cbn; try (by intros ? ? ?%not_elem_of_nil); try (intros *; by rewrite lookup_empty).
  by left.
Qed.


(** ** The wallet without a name *)

(** No request gives a key to the wallet of the empty name. *)
Lemma serve_wallet_no_empty q (wm : FlowgentWalletManager S) a wm' `{!Ed25519Laws} :
  request_ok q -> held (wm_secretStore wm) "" = None -> serve_wallet q wm = (a, wm') ->
  held (wm_secretStore wm') "" = None.
Proof.
  intros Hok Hn E. unfold serve_wallet in E. destruct (wallet_route _ _) as [[h vs]|]; [|by injection E as _ <-].
  repeat match type of E with
  | (if String.eqb ?x ?y then _ else _) = _ => destruct (String.eqb x y); [by injection E as _ <-|]
  end.
  destruct (String.eqb h "handleCreateKey").
  - unfold handleCreateKey in E. destruct (wq_Key q) as [[name pk]|]; [|by injection E as _ <-].
    destruct (String.eqb_spec name "") as [|Hname]; [by injection E as _ <-|].
    destruct (String.eqb (wm_providerName wm) "csi"); [by injection E as _ <-|].
    destruct (requested_key _ _) as [[key|] resp]; [|by injection E as _ <-].
    destruct (PutSecret _ _ _ _) as [[err|] s] eqn:Ep; injection E as _ <-; cbn [wm_secretStore with_secret_store].
    + by apply put_failed in Ep as ->.
    + rewrite (put_held _ _ _ _ _ (proj1 Hok) Ep). by rewrite decide_False by done.
  - destruct (handleDeleteKey _ _) as [r wm1] eqn:Ed. injection E as _ <-.
    destruct (handleDeleteKey_spec _ _ _ _ Ed) as [[_ ->]|[_ Hd]]; [done|].
    rewrite Hd. by destruct (decide _).
Qed.
End Facts.

(** ** A concrete run *)

#[local] Existing Instance toy_ed.
#[local] Existing Instance toy_ed_laws.
#[local] Existing Instance canonical_order.

Definition csi_wallet : FlowgentWalletManager CSIStore :=
  {| wm_providerName := "csi"; wm_secretStore := {| cs_keys := {["payments" := sample_key]} |} |}.
Definition tm_client : MqttSignClient :=
  {| si_ns := "acme"; si_flow := "f"; si_run := "r"; si_pending := ∅; si_calls := ∅ |}.
Definition tm_asks : MqttSignClient := Sign_begin "1" "payments" "pay 1" tm_client.
Definition signed_answer : SignResponse :=
  {| sp_RequestID := "1"; sp_Wallet := "payments"; sp_Error := "";
     sp_Signature := hex_encode (ed_sign sample_key "pay 1") |}.
Definition tm_answered : MqttSignClient := default tm_asks (handleResponse (Some signed_answer) tm_asks).
Definition tm_done : MqttSignClient := Sign_receive "1" tm_answered.


(** The client the factory makes signs with the wallet of the empty name, and
    has no one to ask for approvals. *)
Lemma factory_client_unnamed {D} parse_duration cfg ns q timeout retries (c : @X402Client (memorySpendingStore D)) signer approver :
  NewHttpClient parse_duration cfg ns q = X402PaymentHttpClient timeout retries c signer approver ->
  xc_defaultAddr c = "" /\ approver = false /\ si_flow signer = "" /\ si_run signer = "".
Proof.
  unfold NewHttpClient, NewGenericHttpClient, NewX402PaymentHttpClient. destruct cfg as [payCfg|]; [|done].
  destruct (negb _); [done|]. destruct q as [[err|]|]; [done| |done]. cbn. intros [= _ _ <- <- <-]. done.
Qed.
