(* ===== verification/Console.v ===== *)
(** * The console: resources

    [pkg/console/pkg/core.go], [wallet.go] and [console.go]: the resources the
    console lists, gets, adds and removes, over the same tables as the API's
    handlers, and the keys of wallets over a secret store.  A call of the
    database that fails is [db_err]'s; each operation is given the time and
    the id it would generate. *)

From S2P Require Export Store ApiRuns Defs Wallet.

Local Open Scope string_scope.
Local Open Scope list_scope.
Local Open Scope Z_scope.

(** ** State *)

(** The tables of [getStores]. *)
Record ConsoleDB := {
  cd_llms : list LlmProviderInfo; cd_channels : list NotifyChannelInfo; cd_mcps : list McpInfo;
  cd_agents : list AgentRow; cd_flows : list FlowVersionInfo; cd_runs : list RunRow;
}.

Definition on_llms (l : list LlmProviderInfo) (d : ConsoleDB) : ConsoleDB :=
  {| cd_llms := l; cd_channels := cd_channels d; cd_mcps := cd_mcps d; cd_agents := cd_agents d;
     cd_flows := cd_flows d; cd_runs := cd_runs d |}.
Definition on_channels (l : list NotifyChannelInfo) (d : ConsoleDB) : ConsoleDB :=
  {| cd_llms := cd_llms d; cd_channels := l; cd_mcps := cd_mcps d; cd_agents := cd_agents d;
     cd_flows := cd_flows d; cd_runs := cd_runs d |}.
Definition on_mcps (l : list McpInfo) (d : ConsoleDB) : ConsoleDB :=
  {| cd_llms := cd_llms d; cd_channels := cd_channels d; cd_mcps := l; cd_agents := cd_agents d;
     cd_flows := cd_flows d; cd_runs := cd_runs d |}.
Definition on_agents (l : list AgentRow) (d : ConsoleDB) : ConsoleDB :=
  {| cd_llms := cd_llms d; cd_channels := cd_channels d; cd_mcps := cd_mcps d; cd_agents := l;
     cd_flows := cd_flows d; cd_runs := cd_runs d |}.
Definition on_flows (l : list FlowVersionInfo) (d : ConsoleDB) : ConsoleDB :=
  {| cd_llms := cd_llms d; cd_channels := cd_channels d; cd_mcps := cd_mcps d; cd_agents := cd_agents d;
     cd_flows := l; cd_runs := cd_runs d |}.
Definition on_runs (l : list RunRow) (d : ConsoleDB) : ConsoleDB :=
  {| cd_llms := cd_llms d; cd_channels := cd_channels d; cd_mcps := cd_mcps d; cd_agents := cd_agents d;
     cd_flows := cd_flows d; cd_runs := l |}.

Definition empty_db : ConsoleDB :=
  {| cd_llms := []; cd_channels := []; cd_mcps := []; cd_agents := []; cd_flows := []; cd_runs := [] |}.

Record FlowgentConsole (S : Type) := { fc_db : ConsoleDB; fc_secretStore : option S; fc_namespace : string }.
Arguments fc_db {S}. Arguments fc_secretStore {S}. Arguments fc_namespace {S}.

Definition with_db {S} (d : ConsoleDB) (fc : FlowgentConsole S) : FlowgentConsole S :=
  {| fc_db := d; fc_secretStore := fc_secretStore fc; fc_namespace := fc_namespace fc |}.
Definition with_secrets {S} (s : S) (fc : FlowgentConsole S) : FlowgentConsole S :=
  {| fc_db := fc_db fc; fc_secretStore := Some s; fc_namespace := fc_namespace fc |}.
Definition SetNamespace {S} (namespace : string) (fc : FlowgentConsole S) : FlowgentConsole S :=
  {| fc_db := fc_db fc; fc_secretStore := fc_secretStore fc; fc_namespace := namespace |}.

(** The wallet's section of the configuration names a master key file; only a
    SQLite database serves as a secret store. *)
Definition initSecretStore {S} (masterKeyFile : option string) (sqlite : bool) (open : string -> res S) : option S :=
  match masterKeyFile with
  | None | Some EmptyString => None
  | Some mkf => if sqlite then match open mkf with Ok ss => Some ss | Err _ => None end else None
  end.

Definition NewFlowgentConsole {S} (d : ConsoleDB) (defaultNamespace : string) (masterKeyFile : option string)
    (sqlite : bool) (open : string -> res S) : FlowgentConsole S :=
  {| fc_db := d; fc_secretStore := initSecretStore masterKeyFile sqlite open; fc_namespace := defaultNamespace |}.

Section Core.
Variable db_err : string -> option string.

(** A query, and a statement that makes new tables. *)
Definition queried {A} (call : string) (a : A) : res A :=
  match db_err call with Some err => Err err | None => Ok a end.
Definition stored {S} (call : string) (d : ConsoleDB) (fc : FlowgentConsole S) : option string * FlowgentConsole S :=
  match db_err call with Some err => (Some err, fc) | None => (None, with_db d fc) end.

(** ** The tables' own operations *)

Definition put_llm (p : LlmProviderInfo) (d : ConsoleDB) := on_llms (store_Save (lp_columns p) (cd_llms d)) d.
Definition put_channel (c : NotifyChannelInfo) (d : ConsoleDB) := on_channels (store_Save c (cd_channels d)) d.
Definition put_mcp (m : McpInfo) (d : ConsoleDB) := on_mcps (save_named mcp_id m (cd_mcps d)) d.
Definition put_agent (a : AgentRow) (d : ConsoleDB) := on_agents (save_named agent_id a (cd_agents d)) d.
Definition put_flow (now : Z) (spec : FlowInfo) (createdBy comment : string) (d : ConsoleDB) :=
  on_flows (SaveSpec now spec createdBy comment (cd_flows d)) d.
Definition put_run (id : string) (now : Z) (run : FlowRunInfo) (d : ConsoleDB) :=
  on_runs (snd (run_Create id now run (cd_runs d))) d.

(** The specification of a flow; a definition that does not decode is an
    error. *)
Definition get_spec (id : string) (tbl : list FlowVersionInfo) : res FlowInfo :=
  match db_err "GetSpec" with
  | Some err => Err err
  | None =>
      match latest_version id tbl with
      | None => Err "sql: no rows in result set"
      | Some v => match fv_Definition v with Some spec => Ok spec | None => Err "unmarshal" end
      end
  end.

Section Operations.
Context {S : Type}.
Abbreviation console := (FlowgentConsole S).

(** ** LLM providers *)

Definition ListLLMs (fc : console) : res (list LlmProviderInfo) :=
  queried "Select" (pg_Items (store_Select first_thousand (cd_llms (fc_db fc)))).
Definition GetLLM (id : string) (fc : console) : res LlmProviderInfo :=
  get_row db_err "llm_providers" id (cd_llms (fc_db fc)).
Definition AddLLM (id : string) (now : Z) (p : LlmProviderInfo) (fc : console) : option string * console :=
  let p := lp_with (base_new id (fc_namespace fc) now (lp_base p)) (lp_Status p) (lp_ApiKey p) p in
  stored "Save" (put_llm p (fc_db fc)) fc.
Definition RemoveLLM (now : Z) (id : string) (fc : console) : option string * console :=
  stored "Delete" (on_llms (store_Delete now id (cd_llms (fc_db fc))) (fc_db fc)) fc.

(** ** Channels *)

Definition ListChannels (fc : console) : res (list NotifyChannelInfo) :=
  queried "Select" (pg_Items (store_Select first_thousand (cd_channels (fc_db fc)))).
Definition GetChannel (id : string) (fc : console) : res NotifyChannelInfo :=
  get_row db_err "nfy_channel" id (cd_channels (fc_db fc)).
Definition AddChannel (id : string) (now : Z) (c : NotifyChannelInfo) (fc : console) : option string * console :=
  stored "Save" (put_channel (nc_with (base_new id (fc_namespace fc) now (nc_base c)) c) (fc_db fc)) fc.
Definition RemoveChannel (now : Z) (id : string) (fc : console) : option string * console :=
  stored "Delete" (on_channels (store_Delete now id (cd_channels (fc_db fc))) (fc_db fc)) fc.

(** ** Agents and MCP servers: no id is made for them *)

Definition ListAgents (fc : console) : res (list AgentRow) :=
  queried "Select" (pg_Items (store_Select first_thousand (cd_agents (fc_db fc)))).
Definition GetAgent (name : string) (fc : console) : res AgentRow :=
  get_row db_err "llm_agent" name (cd_agents (fc_db fc)).
Definition agent_with (b : BaseEntity) (a : AgentRow) : AgentRow :=
  {| ag_base := b; ag_info := ag_info a; ag_Labels := ag_Labels a |}.
Definition AddAgent (now : Z) (a : AgentRow) (fc : console) : option string * console :=
  stored "Save" (put_agent (agent_with (base_new (agent_id a) (fc_namespace fc) now (ag_base a)) a) (fc_db fc)) fc.
Definition RemoveAgent (now : Z) (name : string) (fc : console) : option string * console :=
  stored "Delete" (on_agents (store_Delete now name (cd_agents (fc_db fc))) (fc_db fc)) fc.

Definition ListMCPs (fc : console) : res (list McpInfo) :=
  queried "Select" (pg_Items (store_Select first_thousand (cd_mcps (fc_db fc)))).
Definition GetMCP (name : string) (fc : console) : res McpInfo :=
  get_row db_err "llm_mcp" name (cd_mcps (fc_db fc)).
Definition AddMCP (now : Z) (m : McpInfo) (fc : console) : option string * console :=
  stored "Save" (put_mcp (mcp_base (base_new (mcp_id m) (fc_namespace fc) now (mc_base m)) m) (fc_db fc)) fc.
Definition RemoveMCP (now : Z) (name : string) (fc : console) : option string * console :=
  stored "Delete" (on_mcps (store_Delete now name (cd_mcps (fc_db fc))) (fc_db fc)) fc.

(** ** Flows and skills *)

Definition flow_with (id namespace description kind : string) (f : FlowInfo) : FlowInfo :=
  {| f_ID := id; f_Namespace := namespace; f_Description := description; f_Kind := kind; f_Vars := f_Vars f;
     f_Nodes := f_Nodes f; f_Edges := f_Edges f; f_Triggers := f_Triggers f; f_Priority := f_Priority f;
     f_K8sNamespace := f_K8sNamespace f |}.

Definition ListFlows (fc : console) : res (list FlowVersionInfo) :=
  queried "Select" (pg_Items (store_Select first_thousand (cd_flows (fc_db fc)))).
Definition GetFlow (id : string) (fc : console) : res FlowInfo := get_spec id (cd_flows (fc_db fc)).
Definition AddFlow (id : string) (now : Z) (spec : FlowInfo) (fc : console) : option string * console :=
  let spec := flow_with (given (f_ID spec) id) (fc_namespace fc) (f_Description spec) (given (f_Kind spec) "flow") spec in
  stored "SaveSpec" (put_flow now spec "console" "added via console" (fc_db fc)) fc.
Definition RemoveFlow (now : Z) (id : string) (fc : console) : option string * console :=
  stored "Delete" (on_flows (store_Delete now id (cd_flows (fc_db fc))) (fc_db fc)) fc.

Definition is_skill (spec : res FlowInfo) : bool :=
  match spec with Ok s => String.eqb (f_Kind s) "skill" | Err _ => false end.

Definition ListSkills (fc : console) : res (list FlowVersionInfo) :=
  match ListFlows fc with
  | Err err => Err err
  | Ok items => Ok (List.filter (fun fv => is_skill (get_spec (fv_FlowID fv) (cd_flows (fc_db fc)))) items)
  end.
Definition GetSkill (id : string) (fc : console) : res FlowInfo :=
  match get_spec id (cd_flows (fc_db fc)) with
  | Ok spec => Ok spec
  | Err _ => Err ("skill not found: " +:+ id)
  end.
Definition AddSkill (id : string) (now : Z) (spec : FlowInfo) (fc : console) : option string * console :=
  let spec := flow_with (given (f_ID spec) id) (fc_namespace fc) (f_Description spec) "skill" spec in
  stored "SaveSpec" (put_flow now spec "console" "added via console" (fc_db fc)) fc.
Definition RemoveSkill (now : Z) (id : string) (fc : console) : option string * console := RemoveFlow now id fc.

(** ** Runs *)

Definition ListRuns (fc : console) : res (list RunRow) :=
  queried "Select" (pg_Items (store_Select {| pg_Page := 1; pg_Size := 50 |} (cd_runs (fc_db fc)))).
Definition GetRun (id : string) (fc : console) : res RunRow :=
  get_row db_err "orh_flowrun" id (cd_runs (fc_db fc)).

Definition new_run (namespace flowID : string) : FlowRunInfo :=
  {| r_ID := ""; r_Namespace := namespace; r_AgentFlowID := flowID; r_Version := 0; r_Status := RunPending; r_Vars := [];
     r_Error := ""; r_Trigger := {| ti_Type := ""; ti_Source := ""; ti_Payload := [] |}; r_StartedAt := None;
     r_FinishedAt := None; r_K8sNamespace := ""; r_Priority := "" |}.

(** The id is the store's. *)
Definition CreateRun (id : string) (now : Z) (flowID : string) (fc : console) : res FlowRunInfo * console :=
  let (run, tbl) := run_Create id now (new_run (fc_namespace fc) flowID) (cd_runs (fc_db fc)) in
  match db_err "Create" with
  | Some err => (Err err, fc)
  | None => (Ok run, with_db (on_runs tbl (fc_db fc)) fc)
  end.

Definition StartRun (now : Z) (runID : string) (fc : console) : res FlowRunInfo * console :=
  match GetRun runID fc with
  | Err _ => (Err ("run not found: " +:+ runID), fc)
  | Ok row =>
      let run := rr_run row in
      let run := set_run (r_ID run) RunRunning (r_Vars run) (r_Error run) (Some now) (r_FinishedAt run) run in
      match db_err "Update" with
      | Some err => (Err err, fc)
      | None => (Ok run, with_db (on_runs (run_Update now run (rr_output row) (cd_runs (fc_db fc))) (fc_db fc)) fc)
      end
  end.

Definition StopRun (now : Z) (runID : string) (fc : console) : option string * console :=
  stored "Cancel" (on_runs (run_Cancel now runID (cd_runs (fc_db fc))) (fc_db fc)) fc.

(** ** Wallet keys (wallet.go) *)

Context `{SecretStore S}.

Definition no_secret_store : string := "wallet secret store not available".
Definition HasSecretStore (fc : console) : bool := match fc_secretStore fc with Some _ => true | None => false end.

(** The key to store: imported or generated. *)
Definition wallet_key_given (hexPrivateKey : string) (generated : res string) : res string :=
  if String.eqb hexPrivateKey "" then
    match generated with Ok priv => Ok priv | Err err => Err ("generating key: " +:+ err) end
  else match hex_decode hexPrivateKey with
       | None => Err "invalid hex private key"
       | Some keyBytes =>
           if Nat.eqb (String.length keyBytes) PrivateKeySize then Ok keyBytes
           else Err ("invalid key length: got " +:+ Itoa (Z.of_nat (String.length keyBytes)) +:+ ", want 64")
       end.

Definition CreateWalletKey (generated : res string) (nonce name hexPrivateKey : string) (fc : console)
    : call (res string) * console :=
  match fc_secretStore fc with
  | None => (Ret (Err no_secret_store), fc)
  | Some ss =>
      match wallet_key_given hexPrivateKey generated with
      | Err err => (Ret (Err err), fc)
      | Ok key =>
          match PutSecret nonce (wallet_key name) key ss with
          | (Some err, ss) => (Ret (Err ("storing key: " +:+ err)), with_secrets ss fc)
          | (None, ss) => (call_then (ed25519_Public key) (fun pub => Ok (address_of pub)), with_secrets ss fc)
          end
      end
  end.

Definition GetWalletKey (name : string) (fc : console) : call (res string) :=
  match fc_secretStore fc with
  | None => Ret (Err no_secret_store)
  | Some ss =>
      match GetSecret (wallet_key name) ss with
      | Err err => Ret (Err err)
      | Ok key => call_then (ed25519_Public key) (fun pub => Ok (address_of pub))
      end
  end.

Definition ListWalletKeys (fc : console) : res (list string) :=
  match fc_secretStore fc with
  | None => Err no_secret_store
  | Some ss => let? keys := ListSecrets "wallet:" ss in Ok (map (fun k => TrimPrefix k "wallet:") keys)
  end.

Definition DeleteWalletKey (name : string) (fc : console) : option string * console :=
  match fc_secretStore fc with
  | None => (Some no_secret_store, fc)
  | Some ss => let (err, ss) := DeleteSecret (wallet_key name) ss in (err, with_secrets ss fc)
  end.
End Operations.
End Core.
