(* ===== verification/Import.v ===== *)
(** * The console: import and export

    [pkg/console/pkg/import.go], [export.go], [helpers.go] and [types.go]:
    single resources with their metadata, bulk data, files and directories,
    and the export of all kinds.  Of the decoding of JSON and YAML, a document
    is its generic value, and a specification is what decoding it as each
    entity gives. *)

From S2P Require Export Console Eval.
From Stdlib Require Import Ascii.

Local Open Scope string_scope.
Local Open Scope list_scope.
Local Open Scope Z_scope.

(** ** Environment variables in files *)

(** The regular expression is that of templates; [skip] passes over a match. *)
Fixpoint replace_env (env : string -> option string) (s : string) (skip : nat) : string :=
  match s with
  | EmptyString => ""
  | String c s' =>
      match skip with
      | Datatypes.S k => replace_env env s' k
      | O =>
          match match_ref s with
          | Some key =>
              (match env key with
               | Some EmptyString | None => "${" +:+ key +:+ "}"
               | Some val => val
               end) +:+ replace_env env s' (String.length key + 2)
          | None => String c (replace_env env s' 0)
          end
      end
  end.

Definition replaceEnvVars (env : string -> option string) (s : string) : string := replace_env env s 0.

(** ** Documents *)

Record ResourceMetadata := {
  md_Name : string; md_Namespace : string; md_Labels : labels; md_Status : string; md_Description : string;
}.

(** What decoding a specification as each entity gives. *)
Record Spec := {
  as_agent : res AgentRow; as_mcp : res McpInfo; as_llm : res LlmProviderInfo; as_flow : res FlowInfo;
  as_run : res FlowRunInfo; as_channel : res NotifyChannelInfo;
}.

Definition no_spec : Spec :=
  let e := "unexpected end of JSON input" in
  {| as_agent := Err e; as_mcp := Err e; as_llm := Err e; as_flow := Err e; as_run := Err e; as_channel := Err e |}.

Record ResourceImport := {
  ri_APIVersion : string; ri_Kind : string; ri_Metadata : option ResourceMetadata; ri_Spec : Spec;
}.

Definition toString (v : option any) : string :=
  match v with
  | None | Some VNil => ""
  | Some (VStr s) => s
  | Some v => Sprint v
  end.

Definition toStringMap (v : any) : labels :=
  match v with
  | VMap m => Some (fold_left (fun out kv => match kv.2 with VNil => out | v => mset kv.1 (Sprint v) out end) m [])
  | _ => None
  end.

(** Metadata written beside the kind. *)
Definition flat_metadata (generic : gomap) : option ResourceMetadata :=
  let md := {| md_Name := toString (mget "name" generic); md_Namespace := toString (mget "namespace" generic);
               md_Labels := match mget "labels" generic with Some l => toStringMap l | None => None end;
               md_Status := toString (mget "status" generic);
               md_Description := toString (mget "description" generic) |} in
  let labelled := match md_Labels md with Some (_ :: _) => true | _ => false end in
  if negb (String.eqb (md_Name md) "") || negb (String.eqb (md_Namespace md) "") || negb (String.eqb (md_Status md) "") ||
     negb (String.eqb (md_Description md) "") || labelled
  then Some md else None.

Section Parse.
(** Decoding a value as metadata and as specifications; a value JSON cannot
    hold is an error. *)
Variable as_metadata : any -> option ResourceMetadata.
Variable as_spec : any -> res Spec.

(** [None] is "not a single resource". *)
Definition parse_yaml (generic : option gomap) : option ResourceImport :=
  match generic with
  | None => None
  | Some generic =>
      let kind := match mget "kind" generic with Some (VStr k) => k | _ => "" end in
      if String.eqb kind "" then None
      else
        let metadata := match mget "metadata" generic with
                        | Some meta => as_metadata meta
                        | None => flat_metadata generic
                        end in
        let spec := match mget "spec" generic with
                    | Some spec => as_spec spec
                    | None => match mget "data" generic with Some data => as_spec data | None => Ok no_spec end
                    end in
        match spec with
        | Err _ => None
        | Ok spec =>
            Some {| ri_APIVersion := given (toString (mget "apiVersion" generic)) (toString (mget "consoleVersion" generic));
                    ri_Kind := kind; ri_Metadata := metadata; ri_Spec := spec |}
        end
  end.

(** [decode_yaml] and [decode_json] are the decodings of the file's text. *)
Definition ParseResourceImport (env : string -> option string) (decode_yaml : string -> option gomap)
    (decode_json : string -> option ResourceImport) (raw fm : string) : option ResourceImport :=
  let raw := replaceEnvVars env raw in
  if String.eqb fm "yaml" then parse_yaml (decode_yaml raw)
  else match decode_json raw with
       | Some ri => if String.eqb (ri_Kind ri) "" then None else Some ri
       | None => None
       end.
End Parse.

(** ** Importing a resource *)

Definition applyWrapperMeta (md : option ResourceMetadata) (defaultNamespace : string) (base : BaseEntity) (l : labels)
    : BaseEntity * labels :=
  let in_ns ns b := {| b_ID := b_ID b; b_Description := b_Description b; b_Namespace := ns; b_Status := b_Status b;
                       b_CreatedAt := b_CreatedAt b; b_CreatedBy := b_CreatedBy b; b_UpdatedAt := b_UpdatedAt b;
                       b_UpdatedBy := b_UpdatedBy b; b_DelFlag := b_DelFlag b |} in
  match md with
  | None => (in_ns defaultNamespace base, l)
  | Some md =>
      let base := in_ns (given (md_Namespace md) defaultNamespace) base in
      ({| b_ID := b_ID base; b_Description := given (md_Description md) (b_Description base);
          b_Namespace := b_Namespace base; b_Status := given (md_Status md) (b_Status base);
          b_CreatedAt := b_CreatedAt base; b_CreatedBy := b_CreatedBy base; b_UpdatedAt := b_UpdatedAt base;
          b_UpdatedBy := b_UpdatedBy base; b_DelFlag := b_DelFlag base |},
       match md_Labels md with Some l' => Some l' | None => l end)
  end.

Definition activeRuntimeStatus (status : string) : string := if EqualFold status "active" then "ACTIVE" else status.

Definition metadataName (ri : ResourceImport) : string :=
  match ri_Metadata ri with Some md => md_Name md | None => "" end.

(** The times, and the id when there is none. *)
Definition stamped (id : string) (now : Z) (b : BaseEntity) : BaseEntity := base_new (given (b_ID b) id) (b_Namespace b) now b.

(** An agent, an MCP server, a provider and a channel as they are saved. *)
Definition import_agent (id : string) (now : Z) (ri : ResourceImport) (ns : string) (a : AgentRow) : AgentRow :=
  let info := ag_info a in
  let info := {| a_Name := given (a_Name info) (metadataName ri); a_Model := a_Model info; a_Soul := a_Soul info;
                 a_Instruction := a_Instruction info; a_OutputSchema := a_OutputSchema info;
                 a_Temperature := a_Temperature info; a_MaxTokens := a_MaxTokens info |} in
  let (b, l) := applyWrapperMeta (ri_Metadata ri) ns (stamped id now (ag_base a)) (ag_Labels a) in
  {| ag_base := b; ag_info := info; ag_Labels := l |}.

Definition mcp_with (b : BaseEntity) (name : string) (enabled : bool) (l : labels) (m : McpInfo) : McpInfo :=
  {| mc_base := b; mc_Name := name; mc_Enabled := enabled; mc_Type := mc_Type m; mc_URL := mc_URL m;
     mc_Headers := mc_Headers m; mc_Command := mc_Command m; mc_Args := mc_Args m; mc_Env := mc_Env m; mc_Labels := l |}.

Definition import_mcp (id : string) (now : Z) (ri : ResourceImport) (ns : string) (m : McpInfo) : McpInfo :=
  let enabled := mc_Enabled m || String.eqb (b_Status (mc_base m)) "active" in
  let (b, l) := applyWrapperMeta (ri_Metadata ri) ns (stamped id now (mc_base m)) (mc_Labels m) in
  mcp_with b (given (mc_Name m) (metadataName ri)) (enabled || String.eqb (b_Status b) "active") l m.

Definition llm_labelled (b : BaseEntity) (status : string) (l : labels) (p : LlmProviderInfo) : LlmProviderInfo :=
  {| lp_base := b; lp_Provider := lp_Provider p; lp_Enabled := lp_Enabled p; lp_Status := status;
     lp_Timeout := lp_Timeout p; lp_TimeoutMs := lp_TimeoutMs p; lp_Endpoint := lp_Endpoint p;
     lp_Credentials := lp_Credentials p; lp_Proxy := lp_Proxy p; lp_RateLimit := lp_RateLimit p;
     lp_DefaultModel := lp_DefaultModel p; lp_Models := lp_Models p; lp_ApiKey := lp_ApiKey p; lp_Labels := l |}.

(** The id of the specification is replaced. *)
Definition import_llm (id : string) (now : Z) (ri : ResourceImport) (ns : string) (p : LlmProviderInfo) : LlmProviderInfo :=
  let (b, l) := applyWrapperMeta (ri_Metadata ri) ns (base_new id (b_Namespace (lp_base p)) now (lp_base p)) (lp_Labels p) in
  llm_labelled b (activeRuntimeStatus (given (lp_Status p) (b_Status b))) l p.

Definition import_channel (id : string) (now : Z) (ri : ResourceImport) (ns : string) (c : NotifyChannelInfo) : NotifyChannelInfo :=
  let (b, l) := applyWrapperMeta (ri_Metadata ri) ns (base_new id (b_Namespace (nc_base c)) now (nc_base c)) (nc_Labels c) in
  {| nc_base := b; nc_Name := nc_Name c; nc_ChannelType := nc_ChannelType c; nc_Config := nc_Config c;
     nc_Enabled := nc_Enabled c; nc_Labels := l |}.

(** The base of a flow, of which the model's flows keep the id, the
    description and the namespace. *)
Definition flow_base (f : FlowInfo) : BaseEntity :=
  {| b_ID := f_ID f; b_Description := f_Description f; b_Namespace := f_Namespace f; b_Status := ""; b_CreatedAt := 0;
     b_CreatedBy := ""; b_UpdatedAt := 0; b_UpdatedBy := ""; b_DelFlag := false |}.

Definition import_flow (ri : ResourceImport) (ns kind : string) (f : FlowInfo) : FlowInfo :=
  let b := fst (applyWrapperMeta (ri_Metadata ri) ns (flow_base f) None) in
  flow_with (given (f_ID f) (metadataName ri)) (b_Namespace b) (b_Description b) kind f.

Definition import_run (ri : ResourceImport) (ns : string) (r : FlowRunInfo) : FlowRunInfo :=
  set_namespace (match ri_Metadata ri with Some md => given (md_Namespace md) ns | None => ns end) r.

Section ImportOne.
Context {S : Type}.
Variable db_err : string -> option string.

(** Parse, save, and print what became of it. *)
Definition import_as {A} (label filePath : string) (spec : res A) (name : A -> string)
    (save : A -> option string * FlowgentConsole S) (fc : FlowgentConsole S) : bool * list string * FlowgentConsole S :=
  match spec with
  | Err err => (false, ["Error parsing " +:+ label +:+ " spec in " +:+ filePath +:+ ": " +:+ err], fc)
  | Ok a =>
      match save a with
      | (Some err, fc) => (false, ["Error saving " +:+ label +:+ " " +:+ name a +:+ ": " +:+ err], fc)
      | (None, fc) => (true, ["  OK " +:+ label +:+ ": " +:+ name a], fc)
      end
  end.

Definition res_map {A B} (f : A -> B) (r : res A) : res B := match r with Ok a => Ok (f a) | Err e => Err e end.

Definition ImportResource (id : string) (now : Z) (ri : ResourceImport) (filePath : string) (fc : FlowgentConsole S)
    : bool * list string * FlowgentConsole S :=
  let ns := fc_namespace fc in
  let kind := ToLower (ri_Kind ri) in
  let d := fc_db fc in
  let spec := ri_Spec ri in
  let comment := "imported from " +:+ filePath in
  if String.eqb kind "agent" then
    import_as "Agent" filePath (res_map (import_agent id now ri ns) (as_agent spec)) (fun a => a_Name (ag_info a))
      (fun a => stored db_err "Save" (put_agent a d) fc) fc
  else if String.eqb kind "mcp" then
    import_as "MCP" filePath (res_map (import_mcp id now ri ns) (as_mcp spec)) mc_Name
      (fun m => stored db_err "Save" (put_mcp m d) fc) fc
  else if String.eqb kind "llmprovider" then
    import_as "LLMProvider" filePath (res_map (import_llm id now ri ns) (as_llm spec)) (fun p => b_ID (lp_base p))
      (fun p => stored db_err "Save" (put_llm p d) fc) fc
  else if String.eqb kind "flow" then
    import_as "Flow" filePath (res_map (fun f => import_flow ri ns (given (f_Kind f) "flow") f) (as_flow spec)) f_ID
      (fun f => stored db_err "SaveSpec" (put_flow now f "import" comment d) fc) fc
  else if String.eqb kind "flowrun" then
    import_as "FlowRun" filePath (res_map (import_run ri ns) (as_run spec)) (fun _ => id)
      (fun r => stored db_err "Create" (put_run id now r d) fc) fc
  else if String.eqb kind "skill" then
    import_as "Skill" filePath (res_map (import_flow ri ns "skill") (as_flow spec)) f_ID
      (fun f => stored db_err "SaveSpec" (put_flow now f "import" comment d) fc) fc
  else if String.eqb kind "notifychannel" then
    import_as "NotifyChannel" filePath (res_map (import_channel id now ri ns) (as_channel spec)) nc_Name
      (fun c => stored db_err "Save" (put_channel c d) fc) fc
  else (false, ["Unknown kind " +:+ Quote (ri_Kind ri) +:+ " in " +:+ filePath +:+
                " — expected Agent|MCP|LLMProvider|Flow|FlowRun|NotifyChannel|Skill"], fc).
End ImportOne.

(** ** Bulk data *)

Record WalletExport := { we_Name : string; we_PrivateKey : string }.

Record ExportData := {
  ex_LLMs : list LlmProviderInfo; ex_Channels : list NotifyChannelInfo; ex_MCPs : list McpInfo;
  ex_Skills : list FlowInfo; ex_AgentDefs : list AgentRow; ex_AgentFlows : list FlowInfo;
  ex_FlowRuns : list FlowRunInfo; ex_Wallets : list WalletExport;
}.

(** Saves one after the other, up to the first error: with what was saved and
    how many. *)
Fixpoint save_each {A T} (save : nat -> A -> T -> option string * T) (i : nat) (l : list A) (t : T)
    : option string * nat * T :=
  match l with
  | [] => (None, i, t)
  | a :: l => match save i a t with
              | (Some err, t) => (Some err, i, t)
              | (None, t) => save_each save (Datatypes.S i) l t
              end
  end.

(** The ids, times and nonces of an import: of the i-th item of a kind. *)
Record Supply := { su_id : string -> nat -> string; su_now : string -> nat -> Z; su_nonce : nat -> string }.

(** A saved item: in the console's namespace, with times, with an id. *)
Definition bulk_base (su : Supply) (kind : string) (i : nat) (ns : string) (b : BaseEntity) : BaseEntity :=
  base_new (given (b_ID b) (su_id su kind i)) ns (su_now su kind i) b.

Definition bulk_llm (su : Supply) (ns : string) (i : nat) (p : LlmProviderInfo) : LlmProviderInfo :=
  lp_with (bulk_base su "llm" i ns (lp_base p)) (lp_Status p) (lp_ApiKey p) p.
Definition bulk_channel (su : Supply) (ns : string) (i : nat) (c : NotifyChannelInfo) : NotifyChannelInfo :=
  nc_with (bulk_base su "channel" i ns (nc_base c)) c.
Definition bulk_mcp (su : Supply) (ns : string) (i : nat) (m : McpInfo) : McpInfo :=
  let b := bulk_base su "mcp" i ns (mc_base m) in
  mcp_with b (mc_Name m) (mc_Enabled m || String.eqb (b_Status b) "active") (mc_Labels m) m.
Definition bulk_skill (su : Supply) (ns : string) (i : nat) (f : FlowInfo) : FlowInfo :=
  flow_with (given (f_ID f) (su_id su "skill" i)) ns (f_Description f) "skill" f.
Definition bulk_agent (su : Supply) (ns : string) (i : nat) (a : AgentRow) : AgentRow :=
  agent_with (bulk_base su "agent" i ns (ag_base a)) a.
Definition bulk_flow (su : Supply) (ns : string) (i : nat) (f : FlowInfo) : FlowInfo :=
  flow_with (given (f_ID f) (su_id su "flow" i)) ns (f_Description f) (given (f_Kind f) "flow") f.
Definition bulk_run (ns : string) (r : FlowRunInfo) : FlowRunInfo := set_namespace ns r.

Section Bulk.
Context {S : Type} `{SecretStore S}.
Variable db_err : string -> option string.
Variable su : Supply.

Abbreviation console := (FlowgentConsole S).

Definition save_item (call what : string) (put : ConsoleDB -> ConsoleDB) (fc : console) : option string * console :=
  match stored db_err call (put (fc_db fc)) fc with
  | (Some err, fc) => (Some (what +:+ ": " +:+ err), fc)
  | r => r
  end.

Definition save_llm (i : nat) (p : LlmProviderInfo) (fc : console) :=
  let p := bulk_llm su (fc_namespace fc) i p in save_item "llm" ("llm " +:+ b_ID (lp_base p)) (put_llm p) fc.
Definition save_channel (i : nat) (c : NotifyChannelInfo) (fc : console) :=
  let c := bulk_channel su (fc_namespace fc) i c in
  save_item "channel" ("channel " +:+ b_ID (nc_base c)) (put_channel c) fc.
Definition save_mcp (i : nat) (m : McpInfo) (fc : console) :=
  let m := bulk_mcp su (fc_namespace fc) i m in save_item "mcp" ("mcp " +:+ mc_Name m) (put_mcp m) fc.
Definition save_skill (i : nat) (f : FlowInfo) (fc : console) :=
  let f := bulk_skill su (fc_namespace fc) i f in
  save_item "skill" ("skill " +:+ f_ID f) (put_flow (su_now su "skill" i) f "import" "imported from file") fc.
Definition save_agent (i : nat) (a : AgentRow) (fc : console) :=
  let a := bulk_agent su (fc_namespace fc) i a in
  save_item "agent" ("agent " +:+ a_Name (ag_info a)) (put_agent a) fc.
Definition save_flow (i : nat) (f : FlowInfo) (fc : console) :=
  let f := bulk_flow su (fc_namespace fc) i f in
  save_item "flow" ("flow " +:+ f_ID f) (put_flow (su_now su "flow" i) f "import" "imported from file") fc.
Definition save_run (i : nat) (r : FlowRunInfo) (fc : console) :=
  save_item "run" ("run " +:+ su_id su "run" i)
    (put_run (su_id su "run" i) (su_now su "run" i) (bulk_run (fc_namespace fc) r)) fc.

Definition save_wallet (i : nat) (w : WalletExport) (fc : console) : option string * console :=
  match fc_secretStore fc with
  | None => (None, fc)
  | Some ss =>
      match hex_decode (we_PrivateKey w) with
      | None => (Some ("wallet " +:+ we_Name w +:+ ": invalid hex key"), fc)
      | Some keyBytes =>
          match PutSecret (su_nonce su i) (wallet_key (we_Name w)) keyBytes ss with
          | (Some err, ss) => (Some ("wallet " +:+ we_Name w +:+ ": " +:+ err), with_secrets ss fc)
          | (None, ss) => (None, with_secrets ss fc)
          end
      end
  end.

(** Kinds one after the other; the counts of the kinds that were reached. *)
Definition then_each {A} (save : nat -> A -> console -> option string * console) (l : list A)
    (r : option string * list nat * console) : option string * list nat * console :=
  match r with
  | (Some err, counts, fc) => (Some err, counts ++ [0%nat], fc)
  | (None, counts, fc) => let '(err, n, fc) := save_each save 0 l fc in (err, counts ++ [n], fc)
  end.

(** Wallets are skipped without a secret store. *)
Definition ImportAll (data : ExportData) (fc : console) : option string * list nat * console :=
  let r := (None, [], fc) in
  let r := then_each save_llm (ex_LLMs data) r in
  let r := then_each save_channel (ex_Channels data) r in
  let r := then_each save_mcp (ex_MCPs data) r in
  let r := then_each save_skill (ex_Skills data) r in
  let r := then_each save_agent (ex_AgentDefs data) r in
  let r := then_each save_flow (ex_AgentFlows data) r in
  let r := then_each save_run (ex_FlowRuns data) r in
  then_each save_wallet (if HasSecretStore fc then ex_Wallets data else []) r.

(** ** Export *)

Definition ten_thousand : PageRequest := {| pg_Page := 1; pg_Size := 10000 |}.

(** The rows of a kind; a failed query leaves the kind out. *)
Definition exported {A} (wanted : bool) (query : string) (l : list A) : list A :=
  if wanted then match db_err query with Some _ => [] | None => l end else [].

Definition specs_of (tbl : list FlowVersionInfo) : list FlowInfo :=
  flat_map (fun fv => match get_spec db_err (fv_FlowID fv) tbl with Ok spec => [spec] | Err _ => [] end)
    (pg_Items (store_Select ten_thousand tbl)).

Definition is_skill_spec (spec : FlowInfo) : bool := String.eqb (f_Kind spec) "skill".

Definition ExportKinds (kinds : list string) (fc : console) : ExportData :=
  let all := match kinds with [] => true | _ => false end in
  let include k := all || existsb (fun x => String.eqb (ToLower (TrimSpace x)) k) kinds in
  let d := fc_db fc in
  let specs := exported (include "flow" || include "skill") "flows.Select" (specs_of (cd_flows d)) in
  {| ex_LLMs := exported (include "llm") "llm.Select" (pg_Items (store_Select ten_thousand (cd_llms d)));
     ex_Channels := exported (include "channel") "channels.Select" (pg_Items (store_Select ten_thousand (cd_channels d)));
     ex_MCPs := exported (include "mcp") "mcps.Select" (pg_Items (store_Select ten_thousand (cd_mcps d)));
     ex_Skills := if include "skill" then List.filter is_skill_spec specs else [];
     ex_AgentDefs := exported (include "agent") "agents.Select" (pg_Items (store_Select ten_thousand (cd_agents d)));
     ex_AgentFlows := if include "flow" then List.filter (fun s => negb (is_skill_spec s)) specs else [];
     ex_FlowRuns := exported (include "flowrun") "runs.Select"
                      (map rr_run (pg_Items (store_Select ten_thousand (cd_runs d))));
     ex_Wallets := [] |}.

Definition ExportAll (fc : console) : ExportData := ExportKinds [] fc.
End Bulk.

(** ** Files *)

(** [filepath.Ext] *)
Definition Ext (p : string) : string :=
  match LastIndexByte p "." with
  | Some i => let e := sdrop i p in if Contains e "/" then "" else e
  | None => ""
  end.

(** The argument after the first "--format" that has one. *)
Fixpoint format_flag (args : list string) : option string :=
  match args with
  | a :: ((f :: _) as args) => if String.eqb a "--format" then Some f else format_flag args
  | _ => None
  end.

Definition DetectFormat (filePath : string) (args : list string) : res string :=
  match format_flag args with
  | Some given_ =>
      let f := ToLower given_ in
      let f := if String.eqb f "yml" then "yaml" else f in
      if negb (String.eqb f "json") && negb (String.eqb f "yaml")
      then Err ("unknown format: " +:+ given_ +:+ " (use json or yaml)") else Ok f
  | None =>
      let ext := ToLower (Ext filePath) in
      if String.eqb ext ".json" then Ok "json"
      else if String.eqb ext ".yaml" || String.eqb ext ".yml" then Ok "yaml"
      else Err ("cannot determine format from extension " +:+ Quote ext +:+ ", use --format json|yaml")
  end.

(** A directory: its entries in the order of their names, or unreadable. *)
#[universes(template=no)]
Inductive Tree := File | Dir (entries : option (list (string * Tree))).

(** The paths to import, and those seen. *)
Definition Collected := (list string * gset string)%type.

Definition collect (path : string) (c : Collected) : Collected :=
  if bool_decide (path ∈ c.2) then c else (c.1 ++ [path], {[path]} ∪ c.2).

Definition importable (name : string) : bool :=
  let ext := ToLower (Ext name) in String.eqb ext ".yaml" || String.eqb ext ".yml" || String.eqb ext ".json".

Fixpoint collect_tree (path : string) (t : Tree) (c : Collected) : Collected :=
  match t with
  | File | Dir None => c
  | Dir (Some entries) =>
      fold_left (fun c e =>
        match e with
        | (name, File) => if importable name then collect (PathJoin [path; name]) c else c
        | (name, sub) => collect_tree (PathJoin [path; name]) sub c
        end) entries c
  end.

Definition CollectDirFiles (dirPath : string) (dir : Tree) (c : Collected) : Collected := collect_tree dirPath dir c.

(** The file system: what a pattern matches, and what is at a path. *)
Record ImportFS := { fs_glob : string -> res (list string); fs_stat : string -> option Tree }.

Definition collect_path (fs : ImportFS) (m : string) (c : Collected) : Collected :=
  match fs_stat fs m with
  | None => c
  | Some (Dir _ as t) => CollectDirFiles m t c
  | Some File => collect m c
  end.

Definition collect_pattern (fs : ImportFS) (c : Collected) (pattern : string) : Collected :=
  match fs_glob fs pattern with
  | Err _ | Ok [] => collect_path fs pattern c
  | Ok matches => fold_left (fun c m => collect_path fs m c) matches c
  end.

(** [ImportPaths]: the files, and how many of them import. *)
Definition import_files (fs : ImportFS) (patterns : list string) : list string :=
  fst (fold_left (collect_pattern fs) patterns ([], ∅)).

Section Files.
Context {C : Type}.
(** Importing one file, numbered among the files. *)
Variable import_file : nat -> string -> C -> bool * C.

Fixpoint import_each (i : nat) (files : list string) (c : C) : nat * C :=
  match files with
  | [] => (0%nat, c)
  | f :: files =>
      let (ok, c) := import_file i f c in
      let (n, c) := import_each (Datatypes.S i) files c in
      ((if ok then Datatypes.S n else n), c)
  end.

Definition ImportPaths (fs : ImportFS) (patterns : list string) (c : C) : nat * C := import_each 0 (import_files fs patterns) c.
End Files.

(** [ImportFile]: a single resource, or else bulk data. *)
Definition ImportFile {S} `{SecretStore S} (db_err : string -> option string) (su : Supply)
    (read_file : string -> res string) (parse : string -> string -> option ResourceImport)
    (bulk : string -> string -> res ExportData) (id : string) (now : Z) (filePath : string) (extraArgs : list string)
    (fc : FlowgentConsole S) : bool * FlowgentConsole S :=
  match DetectFormat filePath extraArgs with
  | Err _ => (false, fc)
  | Ok fm =>
      match read_file filePath with
      | Err _ => (false, fc)
      | Ok raw =>
          match parse raw fm with
          | Some ri => let '(ok, _, fc) := ImportResource db_err id now ri filePath fc in (ok, fc)
          | None =>
              match bulk fm raw with
              | Err _ => (false, fc)
              | Ok data =>
                  match ImportAll db_err su data fc with
                  | (Some _, _, fc) => (false, fc)
                  | (None, _, fc) => (true, fc)
                  end
              end
          end
      end
  end.
