(* ===== verification/ConsoleFacts.v ===== *)
(** * The console: theorems

    Exporting a console's resources and importing them elsewhere brings every
    resource over, once. *)

From S2P Require Export Import.
From Stdlib Require Import Ascii.

Local Open Scope string_scope.
Local Open Scope list_scope.
Local Open Scope Z_scope.

(** ** Tables that grow *)

Lemma filter_id {A} (f : A -> bool) l : (forall x, x ∈ l -> f x = true) -> List.filter f l = l.
Proof.
  induction l as [|x l IH]; intros Hf; [done|]. cbn. rewrite (Hf x) by (by left). f_equal. apply IH. intros y Hy.
  apply Hf. by right.
Qed.

Lemma store_Save_fresh {T} `{Row T} (e : T) tbl : row_key e ∉ map row_key tbl -> store_Save e tbl = tbl ++ [e].
Proof.
  intros Hn. unfold store_Save. rewrite filter_id; [done|]. intros x Hx. apply negb_true_iff, String.eqb_neq.
  intros E. apply Hn. rewrite <- E. apply list_elem_of_In, in_map. by apply list_elem_of_In.
Qed.

Lemma save_named_fresh {T} `{Row T} (row_id : T -> string) (e : T) tbl :
  row_key e ∉ map row_key tbl -> row_id e ∉ map row_id tbl -> save_named row_id e tbl = tbl ++ [e].
Proof.
  intros Hk Hi. unfold save_named. rewrite (filter_id _ tbl); [by apply store_Save_fresh|].
  intros x Hx. apply negb_true_iff, String.eqb_neq. intros E. apply Hi. rewrite <- E.
  apply list_elem_of_In, in_map. by apply list_elem_of_In.
Qed.

Lemma SaveSpec_fresh now spec by_ comment tbl :
  f_ID spec ∉ map fv_FlowID tbl -> SaveSpec now spec by_ comment tbl = tbl ++ [spec_row spec now by_ comment].
Proof.
  intros Hn. unfold SaveSpec. replace (existsb (is_spec_row spec) tbl) with false; [done|]. symmetry.
  apply not_true_is_false. intros (v & Hv & E)%existsb_exists. apply andb_true_iff in E as [E%String.eqb_eq _].
  apply Hn. rewrite <- E. apply list_elem_of_In. by apply in_map.
Qed.

(** Items saved into a table at its end, with two keys that stay distinct. *)
Lemma save_each_appends {A R C} (save : nat -> A -> C -> option string * C) (set : list R -> C) (f : nat -> A -> R)
    (k1 k2 : R -> string) l :
  (forall i a tbl, k1 (f i a) ∉ map k1 tbl -> k2 (f i a) ∉ map k2 tbl ->
     save i a (set tbl) = (None, set (tbl ++ [f i a]))) ->
  forall i tbl, NoDup (map k1 (tbl ++ imap (fun j => f (i + j)%nat) l)) -> NoDup (map k2 (tbl ++ imap (fun j => f (i + j)%nat) l)) ->
  save_each save i l (set tbl) = (None, (i + length l)%nat, set (tbl ++ imap (fun j => f (i + j)%nat) l)).
Proof.
  intros Hs. induction l as [|a l IH]; intros i tbl H1 H2; cbn [save_each imap length].
  - by rewrite Nat.add_0_r, app_nil_r.
  - cbn [imap] in H1, H2. unfold compose in *. rewrite Nat.add_0_r in *.
    assert (imap (fun j => f (i + Datatypes.S j)%nat) l = imap (fun j => f (Datatypes.S i + j)%nat) l) as E
      by (apply imap_ext; intros; f_equal; lia).
    rewrite E in *. rewrite Hs.
    + assert (tbl ++ f i a :: imap (fun j => f (Datatypes.S i + j)%nat) l =
              (tbl ++ [f i a]) ++ imap (fun j => f (Datatypes.S i + j)%nat) l) as E2 by (by rewrite <- app_assoc).
      rewrite E2 in *. rewrite IH by done. do 2 f_equal. lia.
    + rewrite map_app in H1. apply NoDup_app in H1 as (_ & Hd & _). intros Hin. apply (Hd _ Hin). cbn. by left.
    + rewrite map_app in H2. apply NoDup_app in H2 as (_ & Hd & _). intros Hin. apply (Hd _ Hin). cbn. by left.
Qed.

(** ** What a list of a table shows *)

Lemma page_all {A} (l : list A) : Z.of_nat (length l) <= 10000 -> page_items l 1 10000 = l.
Proof. intros Hl. unfold page_items. change (drop _ l) with l. apply take_ge. lia. Qed.

(** Every live row of a small table is listed, once. *)
Lemma Select_all {T} `{Row T} (tbl : list T) :
  Z.of_nat (length tbl) <= 10000 ->
  pg_Items (store_Select ten_thousand tbl) ≡ₚ List.filter (fun r => negb (row_deleted r)) tbl.
Proof.
  intros Hl. unfold store_Select, NewPage. cbn [pg_Items norm_page ten_thousand pg_Page pg_Size].
  assert (live_rows tbl ≡ₚ List.filter (fun r => negb (row_deleted r)) tbl) as Hp by apply merge_sort_Permutation.
  change (if 1 <? 1 then 1 else 1) with 1. change (if 10000 <? 1 then 20 else 10000) with 10000.
  rewrite page_all; [done|]. rewrite Hp. pose proof (filter_length_le (fun r => negb (row_deleted r)) tbl). lia.
Qed.

Lemma Select_live {T} `{Row T} (tbl : list T) :
  Z.of_nat (length tbl) <= 10000 -> (forall r, r ∈ tbl -> row_deleted r = false) ->
  pg_Items (store_Select ten_thousand tbl) ≡ₚ tbl.
Proof. intros Hl Hr. rewrite Select_all by done. rewrite filter_id; [done|]. intros r Hin. by rewrite Hr. Qed.

(** The latest version of a flow that has one row. *)
Lemma latest_version_only tbl v :
  NoDup (map fv_FlowID tbl) -> v ∈ tbl -> fv_deleted v = false -> latest_version (fv_FlowID v) tbl = Some v.
Proof.
  intros Hnd Hin Hdel. unfold latest_version. set (step := fun best w => _).
  assert (forall l best, fv_FlowID v ∉ map fv_FlowID l -> fold_left step l best = best) as Hskip.
  { induction l as [|w l IH]; intros best Hn; [done|]. cbn [fold_left]. cbn in Hn. apply not_elem_of_cons in Hn as [Hw Hn].
    rewrite (IH _ Hn). unfold step. destruct (String.eqb_spec (fv_FlowID w) (fv_FlowID v)); [congruence|done]. }
  apply list_elem_of_split in Hin as (l1 & l2 & ->). rewrite map_app in Hnd. cbn in Hnd.
  apply NoDup_app in Hnd as (_ & Hd & Hnd). apply NoDup_cons in Hnd as [Hv _].
  rewrite fold_left_app. cbn [fold_left]. rewrite Hskip by done.
  rewrite Hskip by (intros Hin; apply (Hd _ Hin); by left). unfold step. by rewrite String.eqb_refl, Hdel.
Qed.

(** The specifications of flows with one row each. *)
Lemma specs_of_distinct tbl :
  Z.of_nat (length tbl) <= 10000 -> NoDup (map fv_FlowID tbl) ->
  specs_of (fun _ => None) tbl ≡ₚ
  omap fv_Definition (List.filter (fun r => negb (row_deleted r)) tbl).
Proof.
  intros Hl Hnd. unfold specs_of.
  assert (forall l, (forall v, v ∈ l -> v ∈ tbl /\ fv_deleted v = false) ->
    flat_map (fun fv => match get_spec (fun _ => None) (fv_FlowID fv) tbl with Ok spec => [spec] | Err _ => [] end) l =
    omap fv_Definition l) as Hmap.
  { induction l as [|v l IH]; intros Hv; [done|]. cbn [flat_map]. rewrite IH by (intros w Hw; apply Hv; by right).
    destruct (Hv v) as [Hin Hdel]; [by left|]. unfold get_spec. rewrite (latest_version_only tbl v) by done.
    cbn. by destruct (fv_Definition v). }
  rewrite <- (Select_all tbl Hl). rewrite Hmap; [done|]. intros v Hv. rewrite (Select_all tbl Hl) in Hv.
  apply list_elem_of_In, filter_In in Hv as [Hv Hd]. split; [by apply list_elem_of_In|]. by apply negb_true_iff.
Qed.

(** ** Moving resources to another console *)

Definition no_err (_ : string) : option string := None.

Section Move.
Context {S : Type} `{SecretStore S}.
Variable su : Supply.

(** What becomes of a kind's items in the namespace [ns]. *)
Definition moved_llms (ns : string) := imap (fun i p => lp_columns (bulk_llm su ns i p)).
Definition moved_channels (ns : string) := imap (bulk_channel su ns).
Definition moved_mcps (ns : string) := imap (bulk_mcp su ns).
Definition moved_agents (ns : string) := imap (bulk_agent su ns).
Definition moved_skills (ns : string) := imap (bulk_skill su ns).
Definition moved_flows (ns : string) := imap (bulk_flow su ns).
Definition moved_runs (ns : string) := imap (fun i r => fst (run_Create (su_id su "run" i) 0 (bulk_run ns r) [])).

(** The rows that stand for them. *)
Definition flow_rows (kind : string) := imap (fun i f => spec_row f (su_now su kind i) "import" "imported from file").
Definition run_rows :=
  imap (fun i r => {| rr_run := r; rr_output := None; rr_created := su_now su "run" i; rr_updated := su_now su "run" i;
                      rr_deleted := false |}).

Definition moved_db (ns : string) (data : ExportData) : ConsoleDB :=
  {| cd_llms := moved_llms ns (ex_LLMs data); cd_channels := moved_channels ns (ex_Channels data);
     cd_mcps := moved_mcps ns (ex_MCPs data); cd_agents := moved_agents ns (ex_AgentDefs data);
     cd_flows := flow_rows "skill" (moved_skills ns (ex_Skills data)) ++ flow_rows "flow" (moved_flows ns (ex_AgentFlows data));
     cd_runs := run_rows (moved_runs ns (ex_FlowRuns data)) |}.

(** Rows with distinct keys: the tables [INSERT OR REPLACE] keeps. *)
Definition distinct (d : ConsoleDB) : Prop :=
  NoDup (map row_key (cd_llms d)) /\ NoDup (map row_key (cd_channels d)) /\
  (NoDup (map row_key (cd_mcps d)) /\ NoDup (map mcp_id (cd_mcps d))) /\
  (NoDup (map row_key (cd_agents d)) /\ NoDup (map agent_id (cd_agents d))) /\
  NoDup (map fv_FlowID (cd_flows d)) /\ NoDup (map row_key (cd_runs d)).

Definition counts_of (data : ExportData) : list nat :=
  [length (ex_LLMs data); length (ex_Channels data); length (ex_MCPs data); length (ex_Skills data);
   length (ex_AgentDefs data); length (ex_AgentFlows data); length (ex_FlowRuns data); 0%nat].

Lemma imap_imap {A B C} (f : nat -> B -> C) (g : nat -> A -> B) l :
  imap f (imap g l) = imap (fun i a => f i (g i a)) l.
Proof. revert f g. induction l as [|a l IH]; intros f g; [done|]. cbn. f_equal. apply IH. Qed.

(** A console over a database, in a namespace. *)
Definition con (secrets : option S) (ns : string) (d : ConsoleDB) : FlowgentConsole S :=
  {| fc_db := d; fc_secretStore := secrets; fc_namespace := ns |}.

(** Saving a kind into its empty table. *)
Lemma save_all {A R} (save : nat -> A -> FlowgentConsole S -> option string * FlowgentConsole S)
    (set : list R -> FlowgentConsole S) (f : nat -> A -> R) (k1 k2 : R -> string) tbl l :
  (forall i a t, k1 (f i a) ∉ map k1 t -> k2 (f i a) ∉ map k2 t -> save i a (set t) = (None, set (t ++ [f i a]))) ->
  NoDup (map k1 (tbl ++ imap f l)) -> NoDup (map k2 (tbl ++ imap f l)) ->
  save_each save 0 l (set tbl) = (None, length l, set (tbl ++ imap f l)).
Proof. intros Hs N1 N2. exact (save_each_appends save set f k1 k2 l Hs 0 tbl N1 N2). Qed.

Section Kinds.
Variable secrets : option S.
Variable ns : string.
Variable d : ConsoleDB.

Lemma save_llms l :
  NoDup (map row_key (moved_llms ns l)) ->
  save_each (save_llm no_err su) 0 l (con secrets ns (on_llms [] d)) =
  (None, length l, con secrets ns (on_llms (moved_llms ns l) d)).
Proof.
  intros Hn. apply (save_all (save_llm no_err su) (fun t => con secrets ns (on_llms t d)) _ row_key row_key []); [|done..].
  intros i p t Hk _. unfold save_llm, save_item, stored, put_llm. cbn -[store_Save]. by rewrite store_Save_fresh.
Qed.

Lemma save_channels l :
  NoDup (map row_key (moved_channels ns l)) ->
  save_each (save_channel no_err su) 0 l (con secrets ns (on_channels [] d)) =
  (None, length l, con secrets ns (on_channels (moved_channels ns l) d)).
Proof.
  intros Hn. apply (save_all (save_channel no_err su) (fun t => con secrets ns (on_channels t d)) _ row_key row_key []); [|done..].
  intros i p t Hk _. unfold save_channel, save_item, stored, put_channel. cbn -[store_Save]. by rewrite store_Save_fresh.
Qed.

Lemma save_mcps l :
  NoDup (map row_key (moved_mcps ns l)) -> NoDup (map mcp_id (moved_mcps ns l)) ->
  save_each (save_mcp no_err su) 0 l (con secrets ns (on_mcps [] d)) =
  (None, length l, con secrets ns (on_mcps (moved_mcps ns l) d)).
Proof.
  intros Hn Hi. apply (save_all (save_mcp no_err su) (fun t => con secrets ns (on_mcps t d)) _ row_key mcp_id []); [|done..].
  intros i p t Hk Hi'. unfold save_mcp, save_item, stored, put_mcp. cbn -[save_named]. by rewrite save_named_fresh.
Qed.

Lemma save_agents l :
  NoDup (map row_key (moved_agents ns l)) -> NoDup (map agent_id (moved_agents ns l)) ->
  save_each (save_agent no_err su) 0 l (con secrets ns (on_agents [] d)) =
  (None, length l, con secrets ns (on_agents (moved_agents ns l) d)).
Proof.
  intros Hn Hi. apply (save_all (save_agent no_err su) (fun t => con secrets ns (on_agents t d)) _ row_key agent_id []); [|done..].
  intros i p t Hk Hi'. unfold save_agent, save_item, stored, put_agent. cbn -[save_named]. by rewrite save_named_fresh.
Qed.

Lemma save_skills l :
  NoDup (map fv_FlowID (flow_rows "skill" (moved_skills ns l))) ->
  save_each (save_skill no_err su) 0 l (con secrets ns (on_flows [] d)) =
  (None, length l, con secrets ns (on_flows (flow_rows "skill" (moved_skills ns l)) d)).
Proof.
  unfold flow_rows, moved_skills. rewrite imap_imap. intros Hn.
  apply (save_all (save_skill no_err su) (fun t => con secrets ns (on_flows t d)) _ fv_FlowID fv_FlowID []); [|done..].
  intros i p t Hk _. unfold save_skill, save_item, stored, put_flow. cbn -[SaveSpec]. by rewrite SaveSpec_fresh.
Qed.

Lemma save_flows tbl l :
  NoDup (map fv_FlowID (tbl ++ flow_rows "flow" (moved_flows ns l))) ->
  save_each (save_flow no_err su) 0 l (con secrets ns (on_flows tbl d)) =
  (None, length l, con secrets ns (on_flows (tbl ++ flow_rows "flow" (moved_flows ns l)) d)).
Proof.
  unfold flow_rows, moved_flows. rewrite imap_imap. intros Hn.
  apply (save_all (save_flow no_err su) (fun t => con secrets ns (on_flows t d)) _ fv_FlowID fv_FlowID tbl); [|done..].
  intros i p t Hk _. unfold save_flow, save_item, stored, put_flow. cbn -[SaveSpec]. by rewrite SaveSpec_fresh.
Qed.

Lemma save_runs l :
  NoDup (map row_key (run_rows (moved_runs ns l))) ->
  save_each (save_run no_err su) 0 l (con secrets ns (on_runs [] d)) =
  (None, length l, con secrets ns (on_runs (run_rows (moved_runs ns l)) d)).
Proof.
  unfold run_rows, moved_runs. rewrite imap_imap. intros Hn.
  apply (save_all (save_run no_err su) (fun t => con secrets ns (on_runs t d)) _ row_key row_key []); [|done..].
  intros i p t Hk _. unfold save_run, save_item, stored, put_run, run_Create. cbn -[store_Save]. by rewrite store_Save_fresh.
Qed.
End Kinds.

(** Bulk data without wallets, into an empty console. *)
Lemma ImportAll_moves data ns secrets :
  ex_Wallets data = [] -> distinct (moved_db ns data) ->
  ImportAll no_err su data (con secrets ns empty_db) = (None, counts_of data, con secrets ns (moved_db ns data)).
Proof.
  intros Hw (D1 & D2 & [D3 D3'] & [D4 D4'] & D5 & D6). unfold ImportAll, then_each.
  change empty_db with (on_llms [] empty_db). rewrite save_llms by done.
  set (d1 := on_llms _ empty_db). change d1 with (on_channels [] d1). rewrite save_channels by done.
  set (d2 := on_channels _ d1). change d2 with (on_mcps [] d2). rewrite save_mcps by done.
  set (d3 := on_mcps _ d2). change d3 with (on_flows [] d3). rewrite save_skills.
  2: { cbn in D5. rewrite map_app in D5. by apply NoDup_app in D5 as [? _]. }
  set (d4 := on_flows _ d3). change d4 with (on_agents [] d4). rewrite save_agents by done.
  set (d5 := on_agents _ d4).
  change d5 with (on_flows (flow_rows "skill" (moved_skills ns (ex_Skills data))) d5). rewrite save_flows by done.
  set (d6 := on_flows _ d5). change d6 with (on_runs [] d6). rewrite save_runs by done.
  rewrite Hw. by destruct (HasSecretStore _).
Qed.

(** ** Exporting what was moved *)

Definition moved (ns : string) (data : ExportData) : ExportData :=
  {| ex_LLMs := moved_llms ns (ex_LLMs data); ex_Channels := moved_channels ns (ex_Channels data);
     ex_MCPs := moved_mcps ns (ex_MCPs data); ex_Skills := moved_skills ns (ex_Skills data);
     ex_AgentDefs := moved_agents ns (ex_AgentDefs data); ex_AgentFlows := moved_flows ns (ex_AgentFlows data);
     ex_FlowRuns := moved_runs ns (ex_FlowRuns data); ex_Wallets := [] |}.

(** The same resources, in some order. *)
Definition same_data (a b : ExportData) : Prop :=
  ex_LLMs a ≡ₚ ex_LLMs b /\ ex_Channels a ≡ₚ ex_Channels b /\ ex_MCPs a ≡ₚ ex_MCPs b /\ ex_Skills a ≡ₚ ex_Skills b /\
  ex_AgentDefs a ≡ₚ ex_AgentDefs b /\ ex_AgentFlows a ≡ₚ ex_AgentFlows b /\ ex_FlowRuns a ≡ₚ ex_FlowRuns b /\
  ex_Wallets a = ex_Wallets b.

Definition live {T} `{Row T} (tbl : list T) : list T := List.filter (fun r => negb (row_deleted r)) tbl.

(** What a database has to export. *)
Definition contents_of (d : ConsoleDB) : ExportData :=
  let specs := omap fv_Definition (live (cd_flows d)) in
  {| ex_LLMs := live (cd_llms d); ex_Channels := live (cd_channels d); ex_MCPs := live (cd_mcps d);
     ex_Skills := List.filter is_skill_spec specs; ex_AgentDefs := live (cd_agents d);
     ex_AgentFlows := List.filter (fun s => negb (is_skill_spec s)) specs;
     ex_FlowRuns := map rr_run (live (cd_runs d)); ex_Wallets := [] |}.

Definition small (d : ConsoleDB) : Prop :=
  Z.of_nat (length (cd_llms d)) <= 10000 /\ Z.of_nat (length (cd_channels d)) <= 10000 /\
  Z.of_nat (length (cd_mcps d)) <= 10000 /\ Z.of_nat (length (cd_agents d)) <= 10000 /\
  Z.of_nat (length (cd_flows d)) <= 10000 /\ Z.of_nat (length (cd_runs d)) <= 10000.

Lemma list_filter_Permutation {A} (f : A -> bool) l l' : l ≡ₚ l' -> List.filter f l ≡ₚ List.filter f l'.
Proof.
  induction 1 as [|x l l' Hp IH|x y l|l l' l'' H1 IH1 H2 IH2]; cbn; [done| | |by rewrite IH1].
  - destruct (f x); [by constructor|done].
  - destruct (f x), (f y); [constructor|done..].
Qed.

(** The export of a small database with one row per flow. *)
Lemma ExportAll_contents (fc : FlowgentConsole S) :
  small (fc_db fc) -> NoDup (map fv_FlowID (cd_flows (fc_db fc))) ->
  same_data (ExportAll no_err fc) (contents_of (fc_db fc)).
Proof.
  intros (L1 & L2 & L3 & L4 & L5 & L6) Hf. pose proof (specs_of_distinct _ L5 Hf) as Hs.
  unfold same_data, ExportAll, ExportKinds, exported, contents_of.
  cbn [ex_LLMs ex_Channels ex_MCPs ex_Skills ex_AgentDefs ex_AgentFlows ex_FlowRuns ex_Wallets no_err orb].
  split_and!; try by apply Select_all.
  - by apply list_filter_Permutation.
  - by apply list_filter_Permutation.
  - apply Permutation_map. by apply Select_all.
  - done.
Qed.

(** ** A database that can be moved *)

(** Ids are given and unique, names too where they are keys, providers are
    stored as their columns, and a flow's live row has its specification. *)
Definition movable (d : ConsoleDB) : Prop :=
  distinct d /\ small d /\
  (forall p, p ∈ cd_llms d -> row_key p <> "" /\ lp_columns p = p) /\ (forall c, c ∈ cd_channels d -> row_key c <> "") /\
  (forall m, m ∈ cd_mcps d -> mcp_id m <> "") /\ (forall a, a ∈ cd_agents d -> agent_id a <> "") /\
  (forall v, v ∈ cd_flows d -> fv_deleted v = false ->
     exists spec, fv_Definition v = Some spec /\ f_ID spec = fv_FlowID v /\ f_ID spec <> "").

Lemma map_imap_keep {A B} (k : B -> string) (k' : A -> string) (f : nat -> A -> B) l :
  (forall i a, a ∈ l -> k (f i a) = k' a) -> map k (imap f l) = map k' l.
Proof.
  revert f. induction l as [|a l IH]; intros f Hk; [done|]. cbn. rewrite Hk by (by left). f_equal.
  apply (IH (fun i => f (Datatypes.S i))). intros i b Hb. apply Hk. by right.
Qed.

Lemma given_nonempty_l v old : v <> "" -> given v old = v.
Proof. unfold given. by destruct (String.eqb_spec v ""). Qed.

Lemma elem_of_live {T} `{Row T} (r : T) tbl : r ∈ live tbl <-> r ∈ tbl /\ row_deleted r = false.
Proof.
  unfold live. rewrite !list_elem_of_In, filter_In. by rewrite negb_true_iff.
Qed.

(** The data a permutation of a database's contents, key by key. *)
Lemma NoDup_keys_perm {A} (k : A -> string) (l l' : list A) : l ≡ₚ l' -> NoDup (map k l') -> NoDup (map k l).
Proof. intros Hp Hn. by rewrite (Permutation_map k Hp). Qed.

Lemma imap_Forall {A B} (f : nat -> A -> B) (P : A -> Prop) (Q : B -> Prop) l :
  (forall a, a ∈ l -> P a) -> (forall i a, P a -> Q (f i a)) -> forall b, b ∈ imap f l -> Q b.
Proof.
  intros HP HQ b Hb. apply elem_of_lookup_imap in Hb as (i & a & -> & Hi). apply HQ, HP. by apply list_elem_of_lookup_2 in Hi.
Qed.

Lemma NoDup_imap_inj {A B} (k : B -> string) (h : nat -> string) (f : nat -> A -> B) l :
  (forall i a, k (f i a) = h i) -> (forall i j, h i = h j -> i = j) -> NoDup (map k (imap f l)).
Proof.
  intros Hk Hh. change (map k (imap f l)) with (k <$> imap f l). rewrite fmap_imap. apply NoDup_alt.
  intros i j x. rewrite !list_lookup_imap. destruct (l !! i), (l !! j); [|done..]. cbn. rewrite !Hk.
  intros [= E1] [= E2]. apply Hh. congruence.
Qed.

(** *** What is moved keeps its keys *)

Section Exported.
Variable d : ConsoleDB.
Variable data : ExportData.
Variable ns : string.
Hypothesis Hmov : movable d.
Hypothesis Hdata : same_data data (contents_of d).
Hypothesis Hids : forall i j, su_id su "run" i = su_id su "run" j -> i = j.

Lemma exported_specs v spec :
  v ∈ live (cd_flows d) -> fv_Definition v = Some spec -> f_ID spec = fv_FlowID v /\ f_ID spec <> "".
Proof.
  intros [Hin Hdel]%elem_of_live E. destruct Hmov as (_ & _ & _ & _ & _ & _ & Hf).
  destruct (Hf v Hin Hdel) as (spec' & E' & ? & ?). rewrite E in E'. by injection E' as <-.
Qed.

Lemma specs_ids l :
  (forall v, v ∈ l -> v ∈ live (cd_flows d)) -> map f_ID (omap fv_Definition l) = map fv_FlowID l.
Proof.
  induction l as [|v l IH]; intros Hl; [done|]. assert (v ∈ live (cd_flows d)) as Hv by (apply Hl; by left).
  pose proof Hv as [Hin Hdel]%elem_of_live. destruct Hmov as (_ & _ & _ & _ & _ & _ & Hf).
  destruct (Hf v Hin Hdel) as (spec & E & Hid & _). cbn. rewrite E. cbn. rewrite Hid. f_equal. apply IH.
  intros w Hw. apply Hl. by right.
Qed.

Lemma exported_flow spec : spec ∈ ex_Skills data \/ spec ∈ ex_AgentFlows data -> f_ID spec <> "".
Proof.
  destruct Hdata as (_ & _ & _ & Hsk & _ & Hfl & _). intros Hin.
  assert (spec ∈ omap fv_Definition (live (cd_flows d))) as Hs.
  { destruct Hin as [Hin|Hin]; [rewrite Hsk in Hin|rewrite Hfl in Hin]; cbn in Hin;
      apply list_elem_of_In, filter_In in Hin as [Hin _]; by apply list_elem_of_In. }
  apply list_elem_of_omap in Hs as (v & Hv & E). by apply (exported_specs v spec).
Qed.

Lemma partition_perm {A} (f : A -> bool) l : List.filter f l ++ List.filter (fun x => negb (f x)) l ≡ₚ l.
Proof.
  induction l as [|x l IH]; [done|]. cbn. destruct (f x); cbn; [by rewrite IH|].
  rewrite <- Permutation_middle. by rewrite IH.
Qed.

Lemma moved_flow_ids :
  map fv_FlowID (cd_flows (moved_db ns data)) = map f_ID (ex_Skills data) ++ map f_ID (ex_AgentFlows data).
Proof.
  cbn. rewrite map_app. unfold flow_rows, moved_skills, moved_flows. rewrite !imap_imap.
  f_equal; apply map_imap_keep; intros i f Hf; cbn; apply given_nonempty_l, exported_flow; auto.
Qed.

Lemma moved_distinct : distinct (moved_db ns data).
Proof.
  pose proof Hmov as ((D1 & D2 & [D3 D3'] & [D4 D4'] & D5 & D6) & _ & M1 & M2 & M3 & M4 & M5).
  pose proof Hdata as (P1 & P2 & P3 & P4 & P5 & P6 & P7 & _).
  assert (forall {T} `{Row T} (l tbl : list T) x, l ≡ₚ live tbl -> x ∈ l -> x ∈ tbl) as Hin.
  { intros T HR l tbl x Hp Hx. rewrite Hp in Hx. by apply elem_of_live in Hx as [? _]. }
  unfold distinct. split_and!.
  - cbn [moved_db cd_llms]. unfold moved_llms. rewrite (map_imap_keep row_key row_key).
    + apply (NoDup_keys_perm _ _ _ P1). by apply NoDup_map_filter.
    + intros i p Hp. apply given_nonempty_l, M1. by apply (Hin _ _ _ _ _ P1).
  - cbn [moved_db cd_channels]. unfold moved_channels. rewrite (map_imap_keep row_key row_key).
    + apply (NoDup_keys_perm _ _ _ P2). by apply NoDup_map_filter.
    + intros i p Hp. apply given_nonempty_l, M2. by apply (Hin _ _ _ _ _ P2).
  - cbn [moved_db cd_mcps]. unfold moved_mcps. rewrite (map_imap_keep row_key row_key) by done.
    apply (NoDup_keys_perm _ _ _ P3). by apply NoDup_map_filter.
  - cbn [moved_db cd_mcps]. unfold moved_mcps. rewrite (map_imap_keep mcp_id mcp_id).
    + apply (NoDup_keys_perm _ _ _ P3). by apply NoDup_map_filter.
    + intros i p Hp. apply given_nonempty_l, M3. by apply (Hin _ _ _ _ _ P3).
  - cbn [moved_db cd_agents]. unfold moved_agents. rewrite (map_imap_keep row_key row_key) by done.
    apply (NoDup_keys_perm _ _ _ P5). by apply NoDup_map_filter.
  - cbn [moved_db cd_agents]. unfold moved_agents. rewrite (map_imap_keep agent_id agent_id).
    + apply (NoDup_keys_perm _ _ _ P5). by apply NoDup_map_filter.
    + intros i p Hp. apply given_nonempty_l, M4. by apply (Hin _ _ _ _ _ P5).
  - rewrite moved_flow_ids, <- map_app. eapply NoDup_keys_perm; [rewrite P4, P6; apply partition_perm|].
    rewrite specs_ids by done. by apply NoDup_map_filter.
  - cbn [moved_db cd_runs]. unfold run_rows, moved_runs. rewrite imap_imap.
    by apply (NoDup_imap_inj row_key (su_id su "run")).
Qed.

(** *** The export of what was moved *)

Lemma live_all {T} `{Row T} (l : list T) : (forall r, r ∈ l -> row_deleted r = false) -> live l = l.
Proof. intros Hl. unfold live. apply filter_id. intros r Hr. by rewrite Hl. Qed.

Lemma live_imap {T} `{Row T} (f : nat -> T -> T) (l tbl : list T) :
  l ≡ₚ live tbl -> (forall i a, row_deleted a = false -> row_deleted (f i a) = false) -> live (imap f l) = imap f l.
Proof.
  intros Hp Hf. apply live_all. apply (imap_Forall f (fun r => row_deleted r = false)); [|done].
  intros r Hr. rewrite Hp in Hr. by apply elem_of_live in Hr as [_ ?].
Qed.

Lemma omap_rows kind l : omap fv_Definition (flow_rows kind l) = l.
Proof.
  unfold flow_rows. generalize (su_now su kind). induction l as [|f l IH]; intros h; [done|]. cbn. f_equal.
  apply (IH (fun i => h (Datatypes.S i))).
Qed.

Lemma runs_of_rows l : map rr_run (run_rows l) = l.
Proof.
  unfold run_rows. generalize (su_now su "run"). induction l as [|r l IH]; intros h; [done|]. cbn. f_equal.
  apply (IH (fun i => h (Datatypes.S i))).
Qed.

Lemma filter_none {A} (f : A -> bool) l : (forall x, x ∈ l -> f x = false) -> List.filter f l = [].
Proof.
  induction l as [|x l IH]; intros Hf; [done|]. cbn. rewrite (Hf x) by (by left). apply IH. intros y Hy. apply Hf. by right.
Qed.

Lemma moved_kinds f :
  (f ∈ moved_skills ns (ex_Skills data) -> is_skill_spec f = true) /\
  (f ∈ moved_flows ns (ex_AgentFlows data) -> is_skill_spec f = false).
Proof.
  split.
  - by apply (imap_Forall _ (fun _ => True) (fun g => is_skill_spec g = true)).
  - apply (imap_Forall _ (fun g => is_skill_spec g = false) (fun g => is_skill_spec g = false)).
    + destruct Hdata as (_ & _ & _ & _ & _ & Hfl & _). intros g Hg. rewrite Hfl in Hg.
      apply list_elem_of_In, filter_In in Hg as [_ Hg]. by apply negb_true_iff.
    + intros i g Hg. unfold is_skill_spec in *. cbn. unfold given.
      by destruct (String.eqb_spec (f_Kind g) "").
Qed.

Lemma moved_contents : contents_of (moved_db ns data) = moved ns data.
Proof.
  pose proof Hdata as (P1 & P2 & P3 & P4 & P5 & P6 & P7 & _). unfold contents_of, moved.
  cbn [moved_db cd_llms cd_channels cd_mcps cd_agents cd_flows cd_runs].
  assert (live (flow_rows "skill" (moved_skills ns (ex_Skills data)) ++ flow_rows "flow" (moved_flows ns (ex_AgentFlows data))) =
          flow_rows "skill" (moved_skills ns (ex_Skills data)) ++ flow_rows "flow" (moved_flows ns (ex_AgentFlows data))) as Hf.
  { apply live_all. intros r [Hr|Hr]%elem_of_app; revert r Hr;
      by apply (imap_Forall _ (fun _ => True) (fun r => fv_deleted r = false)). }
  rewrite Hf, omap_app, !omap_rows, !List.filter_app.
  rewrite (filter_id is_skill_spec (moved_skills ns _)) by (intros x; apply moved_kinds).
  rewrite (filter_none is_skill_spec (moved_flows ns _)) by (intros x; apply moved_kinds).
  rewrite (filter_none _ (moved_skills ns _)) by (intros x Hx; apply negb_false_iff; by apply moved_kinds).
  rewrite (filter_id _ (moved_flows ns _)) by (intros x Hx; apply negb_true_iff; by apply moved_kinds).
  rewrite app_nil_r. cbn [app]. f_equal.
  - by apply (live_imap _ _ _ P1).
  - by apply (live_imap _ _ _ P2).
  - by apply (live_imap _ _ _ P3).
  - by apply (live_imap _ _ _ P5).
  - rewrite live_all.
    + apply runs_of_rows.
    + intros r. by apply (imap_Forall _ (fun _ => True) (fun r => rr_deleted r = false)).
Qed.

Lemma moved_small : small (moved_db ns data).
Proof.
  pose proof Hmov as (_ & (L1 & L2 & L3 & L4 & L5 & L6) & _). pose proof Hdata as (P1 & P2 & P3 & P4 & P5 & P6 & P7 & _).
  assert (forall {T} `{Row T} (l tbl : list T), l ≡ₚ live tbl -> (length l <= length tbl)%nat) as Hlen.
  { intros T HR l tbl Hp. rewrite Hp. apply filter_length_le. }
  assert (length (ex_Skills data) + length (ex_AgentFlows data) <= length (cd_flows d))%nat as HF.
  { rewrite P4, P6. cbn [contents_of ex_Skills ex_AgentFlows]. rewrite <- length_app, partition_perm.
    transitivity (length (live (cd_flows d))); [|apply filter_length_le].
    generalize (live (cd_flows d)). induction l as [|v l IH]; [done|]. cbn. destruct (fv_Definition v); cbn; lia. }
  pose proof (Hlen _ _ _ _ P1). pose proof (Hlen _ _ _ _ P2). pose proof (Hlen _ _ _ _ P3). pose proof (Hlen _ _ _ _ P5).
  assert (length (ex_FlowRuns data) <= length (cd_runs d))%nat.
  { rewrite P7. cbn [contents_of ex_FlowRuns]. rewrite length_map. apply filter_length_le. }
  unfold small. cbn [moved_db cd_llms cd_channels cd_mcps cd_agents cd_flows cd_runs].
  unfold moved_llms, moved_channels, moved_mcps, moved_agents, flow_rows, run_rows, moved_skills, moved_flows, moved_runs.
  rewrite !length_app, !length_imap. split_and!; lia.
Qed.
End Exported.

End Move.

(** ** A concrete console *)

Definition blank (id : string) : BaseEntity :=
  {| b_ID := id; b_Description := ""; b_Namespace := "old"; b_Status := "ACTIVE"; b_CreatedAt := 5; b_CreatedBy := "";
     b_UpdatedAt := 5; b_UpdatedBy := ""; b_DelFlag := false |}.
Definition small_agent (id name : string) : AgentRow :=
  {| ag_base := blank id; ag_Labels := None;
     ag_info := {| a_Name := name; a_Model := "m"; a_Soul := ""; a_Instruction := ""; a_OutputSchema := None;
                   a_Temperature := None; a_MaxTokens := 0 |} |}.
Definition small_channel (id : string) : NotifyChannelInfo :=
  {| nc_base := blank id; nc_Name := "ops"; nc_ChannelType := "slack"; nc_Config := []; nc_Enabled := true; nc_Labels := None |}.
Definition small_flow (id kind : string) : FlowInfo :=
  {| f_ID := id; f_Namespace := "old"; f_Description := ""; f_Kind := kind; f_Vars := []; f_Nodes := []; f_Edges := [];
     f_Triggers := []; f_Priority := ""; f_K8sNamespace := "" |}.
Definition small_db : ConsoleDB :=
  {| cd_llms := []; cd_channels := [small_channel "c1"; nc_with (MarkDeleted "" 7 (blank "c2")) (small_channel "c2")];
     cd_mcps := []; cd_agents := [small_agent "1" "coder"; small_agent "2" "critic"];
     cd_flows := [spec_row (small_flow "f" "") 3 "me" ""; spec_row (small_flow "s" "skill") 4 "me" ""];
     cd_runs := [{| rr_run := new_run "old" "f"; rr_output := None; rr_created := 9; rr_updated := 9; rr_deleted := false |}] |}.
Definition counting : Supply :=
  {| su_id := fun kind i => kind +:+ Itoa (Z.of_nat i); su_now := fun _ i => 100 + Z.of_nat i; su_nonce := fun _ => "no" |}.

Lemma small_db_movable : movable small_db.
Proof.
  unfold movable, distinct, small. cbn. split_and!; try lia; try (apply NoDup_nil; constructor).
  all: try (repeat (apply NoDup_cons; split; [set_solver|]); constructor).
  all: try (by intros ? ?%not_elem_of_nil).
  all: try by match goal with Hp : _ ∈ [] |- _ => apply not_elem_of_nil in Hp end.
  - intros c Hc. rewrite !elem_of_cons in Hc. destruct Hc as [->|[->|Hc]]; [done..|by apply not_elem_of_nil in Hc].
  - intros c Hc. rewrite !elem_of_cons in Hc. destruct Hc as [->|[->|Hc]]; [done..|by apply not_elem_of_nil in Hc].
  - intros c Hc _. rewrite !elem_of_cons in Hc. destruct Hc as [->|[->|Hc]]; [..|by apply not_elem_of_nil in Hc];
      eexists; split_and!; done.
Qed.


(** ** What goes wrong *)

(** Agents the console adds have no id: the second takes the place of the
    first. *)
Lemma console_agent_replaced :
  let fc := con None "ns" empty_db : FlowgentConsole CSIStore in
  let fc1 := snd (AddAgent no_err 1 (small_agent "" "a") fc) in
  let fc2 := snd (AddAgent no_err 2 (small_agent "" "b") fc1) in
  map (fun a => a_Name (ag_info a)) (cd_agents (fc_db fc2)) = ["b"].
Proof. reflexivity. Qed.

(** A single provider or channel is imported under a new id each time. *)
Lemma channel_import_repeats :
  let spec := {| as_agent := Err ""; as_mcp := Err ""; as_llm := Err ""; as_flow := Err ""; as_run := Err "";
                 as_channel := Ok (small_channel "c1") |} in
  let ri := {| ri_APIVersion := ""; ri_Kind := "NotifyChannel"; ri_Metadata := None; ri_Spec := spec |} in
  let fc := con None "ns" empty_db : FlowgentConsole CSIStore in
  let fc1 := snd (ImportResource no_err "x" 1 ri "c.yaml" fc) in
  let fc2 := snd (ImportResource no_err "y" 2 ri "c.yaml" fc1) in
  map (fun c => b_ID (nc_base c)) (cd_channels (fc_db fc2)) = ["x"; "y"].
Proof. reflexivity. Qed.

(** Importing an export again adds its runs again. *)
Lemma runs_import_repeats :
  let data := ExportAll no_err ({| fc_db := small_db; fc_secretStore := None; fc_namespace := "old" |} : FlowgentConsole CSIStore) in
  let again := {| su_id := fun kind i => kind +:+ "-again" +:+ Itoa (Z.of_nat i); su_now := su_now counting; su_nonce := su_nonce counting |} in
  let imp su fc := snd (ImportAll (H := csi_store (H := canonical_order)) no_err su data fc) in
  let fc2 := imp again (imp counting (con None "ns" empty_db)) in
  (length (cd_runs (fc_db fc2)), length (cd_agents (fc_db fc2))) = (2, 2)%nat.
Proof. vm_compute. reflexivity. Qed.

(** An MCP server whose status is the one the API gives is not enabled by the
    import. *)
Lemma active_mcp_not_enabled :
  let m := {| mc_base := blank "1"; mc_Name := "fs"; mc_Enabled := false; mc_Type := "stdio"; mc_URL := ""; mc_Headers := None;
              mc_Command := None; mc_Args := None; mc_Env := None; mc_Labels := None |} in
  let ri := {| ri_APIVersion := ""; ri_Kind := "MCP"; ri_Metadata := None; ri_Spec := no_spec |} in
  b_Status (mc_base (import_mcp "x" 1 ri "ns" m)) = "ACTIVE" /\ mc_Enabled (import_mcp "x" 1 ri "ns" m) = false.
Proof. split; reflexivity. Qed.

(** A started run is marked as running, and nothing executes it. *)
Lemma started_run_running d now id (fc : FlowgentConsole CSIStore) run fc' :
  StartRun d now id fc = (Ok run, fc') -> r_Status run = RunRunning.
Proof.
  unfold StartRun. destruct (GetRun d id fc) as [row|]; [|done]. destruct (d "Update"); [done|]. by intros [= <- _].
Qed.

(** ** Files *)

Definition once (c : Collected) : Prop := NoDup c.1 /\ forall p, p ∈ c.1 -> p ∈ c.2.

Lemma collect_once path c : once c -> once (collect path c).
Proof.
  destruct c as [l seen]. intros [Hn Hs]. cbn in *. unfold collect. cbn. case_bool_decide as Hp; [done|]. split; cbn.
  - apply NoDup_app. split_and!; [done| |apply NoDup_singleton]. intros x Hx ->%list_elem_of_singleton. by apply Hp, Hs.
  - intros x Hx. apply elem_of_app in Hx as [Hx|Hx%list_elem_of_singleton]; set_solver.
Qed.

Lemma collect_tree_once : forall t path c, once c -> once (collect_tree path t c).
Proof.
  fix IH 1. intros [|[entries|]] path c Hc; [done| |done]. cbn [collect_tree].
  revert c Hc. induction entries as [|[name t] l IHl]; intros c Hc; [done|]. cbn [fold_left]. apply IHl.
  pose proof (IH t (PathJoin [path; name]) c Hc) as Ht.
  destruct t as [|sub]; [|exact Ht]. destruct (importable name); [by apply collect_once|done].
Qed.

Lemma collect_path_once fs m c : once c -> once (collect_path fs m c).
Proof.
  intros Hc. unfold collect_path. destruct (fs_stat fs m) as [[|e]|]; [by apply collect_once| |done]. by apply collect_tree_once.
Qed.

(** However the patterns overlap, no path is imported twice. *)
Lemma import_files_NoDup fs patterns : NoDup (import_files fs patterns).
Proof.
  unfold import_files. assert (forall c, once c -> once (fold_left (collect_pattern fs) patterns c)) as Hall.
  { induction patterns as [|p ps IH]; intros c Hc; [done|]. cbn. apply IH. unfold collect_pattern.
    destruct (fs_glob fs p) as [[|m ms]|]; [by apply collect_path_once| |by apply collect_path_once].
    assert (forall l c, once c -> once (fold_left (fun c m => collect_path fs m c) l c)) as Hl.
    { induction l as [|x l IHl]; intros d Hd; [done|]. cbn. apply IHl. by apply collect_path_once. }
    by apply Hl. }
  apply (Hall ([], ∅)). split; [constructor|]. by intros ? ?%not_elem_of_nil.
Qed.

(** The environment is read in single resources, not in bulk data: a file
    whose text is not a single resource is imported as it is written.  In a
    text without references nothing is replaced. *)
Lemma replaceEnvVars_nodollar env s : no_char "$" s = true -> replaceEnvVars env s = s.
Proof.
  unfold replaceEnvVars. induction s as [|c s IH]; [done|]. intros H. cbn [no_char] in H. apply andb_true_iff in H as [Hc H].
  cbn [replace_env]. apply negb_true_iff, Ascii.eqb_neq in Hc. rewrite match_ref_nodollar by done. by rewrite IH.
Qed.
