(* ===== verification/Repl.v ===== *)
(** * The console: commands

    [pkg/console/pkg/repl.go]: the commands of the management console, in a
    batch or typed line by line, over the operations of [Console] and
    [Import].  The texts of JSON, YAML and times are given, as is what
    decoding a typed text as each entity gives; what an import prints of
    each file is left out. *)

From S2P Require Export Import ConsoleFacts.
From Stdlib Require Import Ascii.

Local Open Scope string_scope.
Local Open Scope list_scope.
Local Open Scope Z_scope.

(** ** Texts *)

(** [strings.Fields] *)
Fixpoint fields_go (s cur : string) : list string :=
  match s with
  | EmptyString => if String.eqb cur "" then [] else [cur]
  | String c s =>
      if is_space c then (if String.eqb cur "" then fields_go s "" else cur :: fields_go s "")
      else fields_go s (cur +:+ String c "")
  end.
Definition Fields (s : string) : list string := fields_go s "".

(** [strings.Split(s, ",")] *)
Fixpoint split_comma (s : string) : list string :=
  match s with
  | EmptyString => [""]
  | String c s =>
      if Ascii.eqb c "," then "" :: split_comma s
      else match split_comma s with p :: ps => String c p :: ps | [] => [String c ""] end
  end.

Definition splitAndTrim (s : string) : list string :=
  List.filter (fun p => negb (String.eqb p "")) (map TrimSpace (split_comma s)).

Fixpoint repeat_text (n : nat) (s : string) : string := match n with O => "" | S n => s +:+ repeat_text n s end.

(** [%-ns], of texts of one byte per character. *)
Definition pad (n : nat) (s : string) : string := s +:+ repeat_text (n - String.length s) " ".

Definition truncate (s : string) (max : nat) : string :=
  if Nat.leb (String.length s) max then s else stake (max - 3) s +:+ "...".

Definition show_bool (b : bool) : string := if b then "true" else "false".
Definition show_strings (l : option (list string)) : string := "[" +:+ Join (default [] l) " " +:+ "]".
Definition count_line (n : nat) (what : string) : string := "(" +:+ Itoa (Z.of_nat n) +:+ " " +:+ what +:+ ")".

(** ** State *)

(** [rs_input] holds the lines still to be typed; in a batch there is no
    terminal. *)
Record consoleState (S : Type) := {
  rs_fc : FlowgentConsole S; rs_namespace : string; rs_input : option (list string); rs_files : gmap string string;
}.
Arguments rs_fc {S}. Arguments rs_namespace {S}. Arguments rs_input {S}. Arguments rs_files {S}.

(** A command prints and goes on, ends the process, or crashes it. *)
Inductive cmd_outcome (S : Type) :=
| Prints (out : list string) (st : consoleState S)
| Exits
| Crashes (msg : string).
Arguments Prints {S}. Arguments Exits {S}. Arguments Crashes {S}.

Definition with_fc {S} (fc : FlowgentConsole S) (st : consoleState S) : consoleState S :=
  {| rs_fc := fc; rs_namespace := rs_namespace st; rs_input := rs_input st; rs_files := rs_files st |}.
Definition with_lines {S} (input : option (list string)) (st : consoleState S) : consoleState S :=
  {| rs_fc := rs_fc st; rs_namespace := rs_namespace st; rs_input := input; rs_files := rs_files st |}.
Definition in_namespace {S} (ns : string) (st : consoleState S) : consoleState S :=
  {| rs_fc := rs_fc st; rs_namespace := ns; rs_input := rs_input st; rs_files := rs_files st |}.
Definition with_file {S} (path text : string) (st : consoleState S) : consoleState S :=
  {| rs_fc := rs_fc st; rs_namespace := rs_namespace st; rs_input := rs_input st; rs_files := <[path := text]> (rs_files st) |}.

(** Up to a line with only a point, or the end. *)
Fixpoint multiline (lines : list string) : list string * list string :=
  match lines with
  | [] => ([], [])
  | l :: lines => if String.eqb l "." then ([], lines) else let (body, rest) := multiline lines in (l :: body, rest)
  end.

(** What is printed as JSON. *)
Inductive shown :=
| ShFlow (f : FlowInfo) | ShRun (r : RunRow) | ShAgent (a : AgentRow) | ShMcp (m : McpInfo) | ShLlm (p : LlmProviderInfo)
| ShChannel (c : NotifyChannelInfo) | ShWallet (name address : string).

(** What surrounds a command: failures of the database, the id, time, key and
    nonce it would use, and the encodings. *)
Record Around := {
  ar_err : string -> option string; ar_id : string; ar_now : Z; ar_generated : res string; ar_nonce : string;
  ar_time : Z -> string; ar_json : shown -> res string; ar_decode : string -> Spec;
  ar_export : string -> ExportData -> res string; ar_write : string -> string -> option string;
}.

Section Commands.
Context {S : Type} `{Ed25519} `{SecretStore S}.
(** Importing a file, and the file system. *)
Variable import_file : nat -> string -> FlowgentConsole S -> bool * FlowgentConsole S.
Variable fs : ImportFS.
Variable w : Around.

Abbreviation state := (consoleState S).

Definition says (l : string) (st : state) : cmd_outcome S := Prints [l] st.
Definition printJSON (v : shown) (st : state) : cmd_outcome S :=
  match ar_json w v with Ok b => says b st | Err err => says ("Error marshalling: " +:+ err) st end.

Definition no_namespace : string := "Error: no namespace set. Use 'namespace set <id>' first.".
Definition requireNamespace (k : state -> cmd_outcome S) (st : state) : cmd_outcome S :=
  if String.eqb (rs_namespace st) "" then says no_namespace st else k st.

Definition first_arg (usage : string) (args : list string) (k : string -> state -> cmd_outcome S) (st : state) : cmd_outcome S :=
  match args with [] => says ("Usage: " +:+ usage) st | a :: _ => k a st end.

Definition readMultiline (k : string -> state -> cmd_outcome S) (st : state) : cmd_outcome S :=
  match rs_input st with
  | None => Crashes "runtime error: invalid memory address or nil pointer dereference"
  | Some lines => let (body, rest) := multiline lines in k (Join body (String (ascii_of_nat 10) "")) (with_lines (Some rest) st)
  end.

(** ** The shape of the commands of a resource *)

(** A table: a header, a rule, a row per item and their number. *)
Definition list_cmd {A} (items : FlowgentConsole S -> res (list A)) (none header : string) (width : nat) (row : A -> string)
    (what : string) : state -> cmd_outcome S :=
  requireNamespace (fun st =>
    match items (rs_fc st) with
    | Err err => says ("Error: " +:+ err) st
    | Ok [] => says none st
    | Ok items => Prints ([header; repeat_text width "-"] ++ map row items ++ [count_line (length items) what]) st
    end).

Definition get_cmd {A} (usage : string) (get : string -> FlowgentConsole S -> res A) (failed : string -> string -> string)
    (show : A -> shown) (args : list string) : state -> cmd_outcome S :=
  requireNamespace (first_arg usage args (fun id st =>
    match get id (rs_fc st) with
    | Err err => says (failed id err) st
    | Ok a => printJSON (show a) st
    end)).

Definition add_cmd {A} (what : string) (decoded : Spec -> res A)
    (add : A -> FlowgentConsole S -> option string * FlowgentConsole S) (created : A -> string) : state -> cmd_outcome S :=
  requireNamespace (fun st =>
    let st := with_fc (SetNamespace (rs_namespace st) (rs_fc st)) st in
    let prompt := "Enter " +:+ what +:+ " JSON (end with a line containing only '.'):" in
    readMultiline (fun body st =>
      match decoded (ar_decode w body) with
      | Err err => Prints [prompt; "Invalid JSON: " +:+ err] st
      | Ok a =>
          match add a (rs_fc st) with
          | (Some err, fc) => Prints [prompt; "Error: " +:+ err] (with_fc fc st)
          | (None, fc) => Prints [prompt; created a] (with_fc fc st)
          end
      end) st).

Definition remove_cmd (usage : string) (remove : string -> FlowgentConsole S -> option string * FlowgentConsole S)
    (failed : string) (done_ : string -> string) (args : list string) : state -> cmd_outcome S :=
  requireNamespace (first_arg usage args (fun id st =>
    match remove id (rs_fc st) with
    | (Some err, fc) => says (failed +:+ err) (with_fc fc st)
    | (None, fc) => says (done_ id) (with_fc fc st)
    end)).

Definition error_of (_ err : string) : string := "Error: " +:+ err.

(** ** Flows, skills *)

Definition version_row (v : FlowVersionInfo) : string :=
  pad 38 (fv_FlowID v) +:+ " " +:+ pad 8 (Itoa (fv_Version v)) +:+ " " +:+ ar_time w (fv_created v).
Definition version_header : string := pad 38 "ID" +:+ " " +:+ pad 8 "VERSION" +:+ " CREATED".
(** The id the new resource has after the call. *)
Definition new_flow_id (spec : FlowInfo) : string := given (f_ID spec) (ar_id w).

Definition flowList := list_cmd (ListFlows (ar_err w)) "No agentflows found." version_header 80 version_row "flows".
Definition flowGet := get_cmd "flow get <id>" (GetFlow (ar_err w)) (fun id _ => "Flow not found: " +:+ id) ShFlow.
Definition flowAdd := add_cmd "agentflow" as_flow (AddFlow (ar_err w) (ar_id w) (ar_now w))
  (fun spec => "Created flow: " +:+ new_flow_id spec).
Definition flowRemove := remove_cmd "flow remove <id>" (RemoveFlow (ar_err w) (ar_now w)) "Error: " (fun id => "Deleted flow: " +:+ id).

Definition skillList := list_cmd (ListSkills (ar_err w)) "No skills found." version_header 80 version_row "skills".
Definition skillGet := get_cmd "skill get <id>" (GetSkill (ar_err w)) error_of ShFlow.
Definition skillAdd := add_cmd "skill" as_flow (AddSkill (ar_err w) (ar_id w) (ar_now w))
  (fun spec => "Created skill: " +:+ new_flow_id spec).
Definition skillRemove := remove_cmd "skill remove <id>" (RemoveSkill (ar_err w) (ar_now w)) "Error: " (fun id => "Deleted skill: " +:+ id).

(** ** Runs *)

Definition status_text (st : RunStatus) : string :=
  match st with
  | RunPending => "PENDING" | RunRunning => "RUNNING" | RunCompleted => "COMPLETED" | RunFailed => "FAILED"
  | RunPaused => "PAUSED" | RunCancelled => "CANCELLED" | RunOther s => s
  end.
Definition run_row (r : RunRow) : string :=
  pad 38 (r_ID (rr_run r)) +:+ " " +:+ pad 36 (truncate (r_AgentFlowID (rr_run r)) 36) +:+ " " +:+
  pad 12 (status_text (r_Status (rr_run r))) +:+ " " +:+ ar_time w (rr_created r).
Definition runList := list_cmd (ListRuns (ar_err w)) "No runs found."
  (pad 38 "RUN ID" +:+ " " +:+ pad 36 "FLOW" +:+ " " +:+ pad 12 "STATUS" +:+ " CREATED") 110 run_row "runs".
Definition runGet := get_cmd "run get <id>" (GetRun (ar_err w)) (fun id _ => "Run not found: " +:+ id) ShRun.

Definition runCreate (args : list string) : state -> cmd_outcome S :=
  requireNamespace (first_arg "run create <flow-id>" args (fun flowID st =>
    let fc := SetNamespace (rs_namespace st) (rs_fc st) in
    match CreateRun (ar_err w) (ar_id w) (ar_now w) flowID fc with
    | (Err err, fc) => says ("Error creating run: " +:+ err) (with_fc fc st)
    | (Ok run, fc) => Prints ["Created run: " +:+ r_ID run +:+ " (status: PENDING)";
                              "Use 'run start " +:+ r_ID run +:+ "' to trigger execution."] (with_fc fc st)
    end)).
Definition runStart (args : list string) : state -> cmd_outcome S :=
  requireNamespace (first_arg "run start <run-id>" args (fun id st =>
    match StartRun (ar_err w) (ar_now w) id (rs_fc st) with
    | (Err err, fc) => says ("Error starting run: " +:+ err) (with_fc fc st)
    | (Ok run, fc) => says ("Run " +:+ r_ID run +:+ " started.") (with_fc fc st)
    end)).
Definition runStop := remove_cmd "run stop <run-id>" (StopRun (ar_err w) (ar_now w)) "Error stopping run: "
  (fun id => "Run " +:+ id +:+ " cancelled.").

(** ** Agents, MCP servers, providers, channels *)

Definition agentList := list_cmd (ListAgents (ar_err w)) "No agents found."
  (pad 24 "NAME" +:+ " " +:+ pad 24 "MODEL" +:+ " CREATED") 80
  (fun a => pad 24 (a_Name (ag_info a)) +:+ " " +:+ pad 24 (a_Model (ag_info a)) +:+ " " +:+ ar_time w (b_CreatedAt (ag_base a)))
  "agents".
Definition agentGet := get_cmd "agent get <name>" (GetAgent (ar_err w)) error_of ShAgent.
Definition agentAdd := add_cmd "agent" as_agent (AddAgent (ar_err w) (ar_now w)) (fun a => "Created agent: " +:+ a_Name (ag_info a)).
Definition agentRemove := remove_cmd "agent remove <name>" (RemoveAgent (ar_err w) (ar_now w)) "Error: " (fun id => "Deleted agent: " +:+ id).

Definition mcpList := list_cmd (ListMCPs (ar_err w)) "No MCPs found."
  (pad 24 "NAME" +:+ " " +:+ pad 12 "TYPE" +:+ " " +:+ pad 12 "ENABLED" +:+ " COMMAND") 80
  (fun m => pad 24 (mc_Name m) +:+ " " +:+ pad 12 (mc_Type m) +:+ " " +:+ pad 12 (show_bool (mc_Enabled m)) +:+ " " +:+
            show_strings (mc_Command m)) "MCPs".
Definition mcpGet := get_cmd "mcp get <name>" (GetMCP (ar_err w)) error_of ShMcp.
Definition mcpAdd := add_cmd "MCP" as_mcp (AddMCP (ar_err w) (ar_now w)) (fun m => "Created MCP: " +:+ mc_Name m).
Definition mcpRemove := remove_cmd "mcp remove <name>" (RemoveMCP (ar_err w) (ar_now w)) "Error: " (fun id => "Deleted MCP: " +:+ id).

Definition llmList := list_cmd (ListLLMs (ar_err w)) "No LLM providers found."
  (pad 38 "ID" +:+ " " +:+ pad 24 "TYPE" +:+ " " +:+ pad 24 "MODELS" +:+ " ENDPOINT") 110
  (fun p => pad 38 (b_ID (lp_base p)) +:+ " " +:+ pad 24 (truncate (lp_Provider p) 24) +:+ " " +:+
            pad 24 (Itoa (Z.of_nat (length (lp_Models p)))) +:+ " " +:+ truncate (lp_Endpoint p) 40) "providers".
Definition llmGet := get_cmd "llm get <id>" (GetLLM (ar_err w)) error_of ShLlm.
Definition llmAdd := add_cmd "LLM provider" as_llm (AddLLM (ar_err w) (ar_id w) (ar_now w)) (fun _ => "Created LLM provider: " +:+ ar_id w).
Definition llmRemove := remove_cmd "llm remove <id>" (RemoveLLM (ar_err w) (ar_now w)) "Error: " (fun id => "Deleted LLM provider: " +:+ id).

Definition channelList := list_cmd (ListChannels (ar_err w)) "No notification channels found."
  (pad 38 "ID" +:+ " " +:+ pad 24 "NAME" +:+ " " +:+ pad 12 "TYPE" +:+ " ENABLED") 90
  (fun c => pad 38 (b_ID (nc_base c)) +:+ " " +:+ pad 24 (truncate (nc_Name c) 24) +:+ " " +:+ pad 12 (nc_ChannelType c) +:+
            " " +:+ show_bool (nc_Enabled c)) "channels".
Definition channelGet := get_cmd "channel get <id>" (GetChannel (ar_err w)) error_of ShChannel.
Definition channelAdd := add_cmd "channel" as_channel (AddChannel (ar_err w) (ar_id w) (ar_now w)) (fun _ => "Created channel: " +:+ ar_id w).
Definition channelRemove := remove_cmd "channel remove <id>" (RemoveChannel (ar_err w) (ar_now w)) "Error: " (fun id => "Deleted channel: " +:+ id).

(** ** Wallets *)

Definition needs_secrets (msg : string) (k : state -> cmd_outcome S) : state -> cmd_outcome S :=
  requireNamespace (fun st => if HasSecretStore (rs_fc st) then k st else says msg st).
Definition no_secrets : string := "Error: wallet secret store not available.".

(** The rows of the wallets whose key can be read, up to a key that panics. *)
Fixpoint wallet_lines (names : list string) (fc : FlowgentConsole S) : call (list string) :=
  match names with
  | [] => Ret []
  | name :: names =>
      match GetWalletKey name fc with
      | Panic msg => Panic msg
      | Ret (Err _) => wallet_lines names fc
      | Ret (Ok addr) => call_then (wallet_lines names fc) (fun l => (pad 48 name +:+ " " +:+ addr) :: l)
      end
  end.

Definition walletList (st : state) : cmd_outcome S :=
  needs_secrets "Error: wallet secret store not available. Check master key configuration." (fun st =>
    match ListWalletKeys (rs_fc st) with
    | Err err => says ("Error: " +:+ err) st
    | Ok [] => says "No wallets found." st
    | Ok names =>
        match wallet_lines names (rs_fc st) with
        | Panic msg => Crashes msg
        | Ret rows => Prints ([pad 48 "WALLET NAME" +:+ " ADDRESS"; repeat_text 80 "-"] ++ rows ++
                              [count_line (length names) "wallets"]) st
        end
    end) st.

Definition walletGet (args : list string) : state -> cmd_outcome S :=
  needs_secrets no_secrets (first_arg "wallet get <name>" args (fun name st =>
    match GetWalletKey name (rs_fc st) with
    | Panic msg => Crashes msg
    | Ret (Err err) => says ("Error: " +:+ err) st
    | Ret (Ok addr) => printJSON (ShWallet name addr) st
    end)).

Definition walletAdd (args : list string) : state -> cmd_outcome S :=
  needs_secrets no_secrets (first_arg "wallet add <name> [hex-private-key]" args (fun name st =>
    let hexKey := match args with _ :: k :: _ => k | _ => "" end in
    match CreateWalletKey (ar_generated w) (ar_nonce w) name hexKey (rs_fc st) with
    | (Panic msg, _) => Crashes msg
    | (Ret (Err err), fc) => says ("Error: " +:+ err) (with_fc fc st)
    | (Ret (Ok addr), fc) => Prints ["Wallet created: " +:+ name; "Address: " +:+ addr] (with_fc fc st)
    end)).

Definition walletRemove (args : list string) : state -> cmd_outcome S :=
  needs_secrets no_secrets (first_arg "wallet remove <name>" args (fun name st =>
    match DeleteWalletKey name (rs_fc st) with
    | (Some err, fc) => says ("Error: " +:+ err) (with_fc fc st)
    | (None, fc) => says ("Deleted wallet: " +:+ name) (with_fc fc st)
    end)).

(** ** Namespace, export, import *)

Definition cmdNamespace (args : list string) (st : state) : cmd_outcome S :=
  match args with
  | [] => says (if String.eqb (rs_namespace st) "" then "No namespace set. Usage: namespace set <namespace-id>"
                else "Current namespace: " +:+ rs_namespace st) st
  | a :: args =>
      let a := ToLower a in
      if String.eqb a "set" then
        match args with
        | [] => says "Usage: namespace set <namespace-id>" st
        | ns :: _ => says ("Namespace set to: " +:+ ns) (in_namespace ns st)
        end
      else if String.eqb a "unset" then says "Namespace cleared." (in_namespace "" st)
      else says "Usage: namespace [set <id> | unset]" st
  end.

(** The kinds and the output among the arguments of an export. *)
Fixpoint export_args (args kinds : list string) (output : string) : list string * string :=
  match args with
  | [] => (kinds, output)
  | a :: rest =>
      if String.eqb a "--kind" || String.eqb a "-k" then
        match rest with k :: rest => export_args rest (splitAndTrim k) output | [] => (kinds, output) end
      else if HasPrefix a "--kind=" then export_args rest (splitAndTrim (TrimPrefix a "--kind=")) output
      else if HasPrefix a "-k=" then export_args rest (splitAndTrim (TrimPrefix a "-k=")) output
      else if String.eqb a "--output" || String.eqb a "-o" then
        match rest with o :: rest => export_args rest kinds o | [] => (kinds, output) end
      else if HasPrefix a "--output=" then export_args rest kinds (TrimPrefix a "--output=")
      else if HasPrefix a "-o=" then export_args rest kinds (TrimPrefix a "-o=")
      else export_args rest kinds (if String.eqb output "" then a else output)
  end.

Definition export_usage : list string :=
  ["Usage: export [--kind <kinds>] --output <filepath>";
   "  --kind, -k     Comma-separated resource kinds: llm,channel,mcp,skill,agent,flow,flowrun";
   "                 Default: all kinds (wallet is never exported)";
   "  --output, -o   Output file path (.json or .yaml/.yml)";
   "";
   "Examples:";
   "  export --output /tmp/backup.yaml";
   "  export -k mcp,llm,agent -o /tmp/partial.json"].

Definition validKinds : list string := ["llm"; "channel"; "mcp"; "skill"; "agent"; "flow"; "flowrun"].

Definition n_of {A} (l : list A) (what : string) : string := Itoa (Z.of_nat (length l)) +:+ " " +:+ what.

Definition export_to (kinds : list string) (output : string) (st : state) : cmd_outcome S :=
  let data := ExportKinds (ar_err w) kinds (rs_fc st) in
  match DetectFormat output [] with
  | Err err => says ("Error: " +:+ err) st
  | Ok fm =>
      match ar_export w fm data with
      | Err err => says ("Error marshalling: " +:+ err) st
      | Ok out =>
          match ar_write w output out with
          | Some err => says ("Error writing file: " +:+ err) st
          | None =>
              says ("Exported to " +:+ output +:+ " (" +:+
                    Join [n_of (ex_LLMs data) "llms"; n_of (ex_Channels data) "channels"; n_of (ex_MCPs data) "mcps";
                          n_of (ex_Skills data) "skills"; n_of (ex_AgentDefs data) "agents"; n_of (ex_AgentFlows data) "flows";
                          n_of (ex_FlowRuns data) "runs"] ", " +:+ ")") (with_file output out st)
          end
      end
  end.

Definition cmdExport (args : list string) (st : state) : cmd_outcome S :=
  let (kinds, output) := export_args args [] "" in
  if String.eqb output "" then Prints export_usage st
  else match List.find (fun k => negb (existsb (String.eqb k) validKinds)) kinds with
       | Some k => says ("Invalid kind " +:+ Quote k +:+ ". Valid kinds: llm, channel, mcp, skill, agent, flow, flowrun") st
       | None => export_to kinds output st
       end.

Definition import_usage : list string :=
  ["Usage: import <pattern...>    Import files/directories (supports glob patterns)";
   "  import config/*/*.yaml        Import all .yaml files matching glob";
   "  import config/agents/          Import all .yaml/.json from a directory";
   "  import a.yaml b.yaml           Import multiple files/patterns"].

Definition cmdImport (args : list string) : state -> cmd_outcome S :=
  requireNamespace (fun st =>
    match args with
    | [] => Prints import_usage st
    | _ =>
        let fc := SetNamespace (rs_namespace st) (rs_fc st) in
        let (imported, fc) := ImportPaths import_file fs args fc in
        says ("Imported " +:+ Itoa (Z.of_nat imported) +:+ " resources.") (with_fc fc st)
    end).

(** ** Dispatch *)

Definition resourceCmd (name : string) (listFn getFn addFn removeFn : list string -> state -> cmd_outcome S)
    (args : list string) (st : state) : cmd_outcome S :=
  match args with
  | [] => says ("Usage: " +:+ name +:+ " [list | get <id> | add | remove <id>]") st
  | a :: args =>
      let action := ToLower a in
      if String.eqb action "list" then listFn args st
      else if String.eqb action "get" then getFn args st
      else if String.eqb action "add" then addFn args st
      else if String.eqb action "remove" then removeFn args st
      else says ("Unknown " +:+ name +:+ " action: " +:+ a +:+ " (use list, get, add, remove)") st
  end.

Definition cmdRun (args : list string) (st : state) : cmd_outcome S :=
  match args with
  | [] => says "Usage: run [list | get <id> | create <flow-id> | start <run-id> | stop <run-id>]" st
  | a :: args =>
      let action := ToLower a in
      if String.eqb action "list" then runList st
      else if String.eqb action "get" then runGet args st
      else if String.eqb action "create" then runCreate args st
      else if String.eqb action "start" then runStart args st
      else if String.eqb action "stop" then runStop args st
      else says ("Unknown run action: " +:+ a +:+ " (use list, get, create, start, stop)") st
  end.

Variable help_text : string.

Definition dispatch (line : string) (st : state) : cmd_outcome S :=
  match Fields line with
  | [] => Crashes "runtime error: index out of range [0] with length 0"
  | c :: args =>
      let cmd := ToLower c in
      if String.eqb cmd "exit" || String.eqb cmd "quit" then Exits
      else if String.eqb cmd "help" then says help_text st
      else if String.eqb cmd "namespace" then cmdNamespace args st
      else if String.eqb cmd "flow" then resourceCmd "flow" (fun _ => flowList) flowGet (fun _ => flowAdd) flowRemove args st
      else if String.eqb cmd "run" then cmdRun args st
      else if String.eqb cmd "agent" then resourceCmd "agent" (fun _ => agentList) agentGet (fun _ => agentAdd) agentRemove args st
      else if String.eqb cmd "mcp" then resourceCmd "mcp" (fun _ => mcpList) mcpGet (fun _ => mcpAdd) mcpRemove args st
      else if String.eqb cmd "skill" then resourceCmd "skill" (fun _ => skillList) skillGet (fun _ => skillAdd) skillRemove args st
      else if String.eqb cmd "llm" then resourceCmd "llm" (fun _ => llmList) llmGet (fun _ => llmAdd) llmRemove args st
      else if String.eqb cmd "channel" then resourceCmd "channel" (fun _ => channelList) channelGet (fun _ => channelAdd) channelRemove args st
      else if String.eqb cmd "wallet" then resourceCmd "wallet" (fun _ => walletList) walletGet walletAdd walletRemove args st
      else if String.eqb cmd "export" then cmdExport args st
      else if String.eqb cmd "import" then cmdImport args st
      else says ("Unknown command: " +:+ cmd +:+ " (type 'help' for available commands)") st
  end.
End Commands.

(** ** The process *)

Section Process.
Context {S : Type} `{Ed25519} `{SecretStore S}.
Variable import_file : nat -> string -> FlowgentConsole S -> bool * FlowgentConsole S.
Variable fs : ImportFS.
Variable help_text : string.
(** What surrounds the n-th command. *)
Variable around : nat -> Around.

(** The typed lines, one command at a time, until they end; a command may
    take more of them. *)
Fixpoint repl (fuel n : nat) (st : consoleState S) : list string * option (cmd_outcome S) :=
  match fuel with
  | O => ([], None)
  | Datatypes.S fuel =>
      match rs_input st with
      | None | Some [] => ([], Some (Prints [] st))
      | Some (l :: rest) =>
          let st := with_lines (Some rest) st in
          let line := TrimSpace l in
          if String.eqb line "" then repl fuel n st
          else match dispatch import_file fs (around n) help_text line st with
               | Prints out st => let (more, r) := repl fuel (Datatypes.S n) st in (out ++ more, r)
               | r => ([], Some r)
               end
      end
  end.

(** A batch is its arguments, joined. *)
Definition RunREPL (args : list string) (lines : list string) (fc : FlowgentConsole S) (defaultNamespace : string)
    : list string * option (cmd_outcome S) :=
  let st input := {| rs_fc := fc; rs_namespace := defaultNamespace; rs_input := input; rs_files := ∅ |} in
  match args with
  | [] => repl (Datatypes.S (length lines)) 0 (st (Some lines))
  | _ => ([], Some (dispatch import_file fs (around 0%nat) help_text (Join args " ") (st None)))
  end.
End Process.

(** * The console's commands: theorems

    Without a namespace no command changes a resource, a session of typed
    lines always comes to its end, and what crashes the console. *)

Section Facts.
Context {S : Type} `{Ed25519} `{SecretStore S}.
Variable import_file : nat -> string -> FlowgentConsole S -> bool * FlowgentConsole S.
Variable fs : ImportFS.
Variable w : Around.

(** ** What a command leaves *)

(** It does not add lines to the input. *)
Definition consumes (st st' : consoleState S) : Prop :=
  match rs_input st with
  | None => rs_input st' = None
  | Some l => exists l', rs_input st' = Some l' /\ (length l' <= length l)%nat
  end.

Definition leaves (st : consoleState S) (o : cmd_outcome S) : Prop :=
  match o with
  | Prints _ st' => consumes st st' /\ (rs_namespace st = "" -> rs_fc st' = rs_fc st)
  | Exits | Crashes _ => True
  end.

Definition tame (k : consoleState S -> cmd_outcome S) : Prop := forall st, leaves st (k st).

Lemma consumes_same st st' : rs_input st' = rs_input st -> consumes st st'.
Proof. intros E. unfold consumes. rewrite E. destruct (rs_input st); eauto. Qed.

Lemma leaves_same out st st' : rs_input st' = rs_input st -> rs_fc st' = rs_fc st -> leaves st (Prints out st').
Proof. intros Ei Ef. split; [by apply consumes_same|done]. Qed.

Lemma says_tame l : tame (says l).
Proof. intros st. by apply leaves_same. Qed.

Lemma printJSON_tame v : tame (printJSON w v).
Proof. intros st. unfold printJSON. destruct (ar_json w v); by apply says_tame. Qed.

(** Under [requireNamespace] a command may do anything to the resources. *)
Lemma requireNamespace_tame k :
  (forall st out st', k st = Prints out st' -> consumes st st') -> tame (requireNamespace k).
Proof.
  intros Hk st. unfold requireNamespace. destruct (String.eqb_spec (rs_namespace st) "") as [E|E]; [by apply says_tame|].
  destruct (k st) as [out st'| |] eqn:Ek; [|done..]. split; [by apply (Hk st out)|done].
Qed.

(** Commands that do not touch the input. *)
Definition quiet (k : consoleState S -> cmd_outcome S) : Prop :=
  forall st out st', k st = Prints out st' -> rs_input st' = rs_input st.

Lemma quiet_tame k : quiet k -> tame (requireNamespace k).
Proof. intros Hk. apply requireNamespace_tame. intros st out st' E. apply consumes_same. by apply (Hk st out). Qed.

Lemma says_quiet l : quiet (says l).
Proof. by intros st out st' [= _ <-]. Qed.

Lemma printJSON_quiet v : quiet (printJSON w v).
Proof. intros st out st'. unfold printJSON. destruct (ar_json w v); by intros [= _ <-]. Qed.

Lemma first_arg_quiet usage args k : (forall a, quiet (k a)) -> quiet (first_arg usage args k).
Proof. intros Hk. destruct args as [|a args]; [apply says_quiet|apply Hk]. Qed.

Lemma list_cmd_tame {A} items none header width (row : A -> string) what : tame (list_cmd items none header width row what).
Proof.
  apply quiet_tame. intros st out st'. cbv beta zeta. destruct (items (rs_fc st)) as [[|a l]|err]; by intros [= _ <-].
Qed.

Lemma get_cmd_tame {A} usage (get : _ -> _ -> res A) failed show args : tame (get_cmd w usage get failed show args).
Proof.
  apply quiet_tame, first_arg_quiet. intros a st out st'. cbv beta zeta. destruct (get a (rs_fc st)); [apply printJSON_quiet|by intros [= _ <-]].
Qed.

Lemma remove_cmd_tame usage remove failed done_ args : tame (remove_cmd usage remove failed done_ args).
Proof.
  apply quiet_tame, first_arg_quiet. intros a st out st'. cbv beta zeta. destruct (remove a (rs_fc st)) as [[err|] fc]; by intros [= _ <-].
Qed.

Lemma multiline_consumes lines : (length (snd (multiline lines)) <= length lines)%nat.
Proof.
  induction lines as [|l lines IH]; [done|]. cbn. destruct (String.eqb l "."); cbn; [lia|].
  destruct (multiline lines); cbn in *; lia.
Qed.

Lemma add_cmd_tame {A} what (decoded : Spec -> res A) add created : tame (add_cmd w what decoded add created).
Proof.
  apply requireNamespace_tame. intros st out st'. unfold readMultiline, consumes. cbn [rs_input with_fc].
  destruct (rs_input st) as [lines|]; [|done]. pose proof (multiline_consumes lines) as Hm.
  destruct (multiline lines) as [body rest]. destruct (decoded _) as [a|err].
  - destruct (add a _) as [[err|] fc]; intros [= _ <-]; cbn; eauto.
  - intros [= _ <-]; cbn; eauto.
Qed.

Lemma runCreate_tame args : tame (runCreate w args).
Proof.
  apply quiet_tame, first_arg_quiet. intros a st out st'. cbv beta zeta. destruct (CreateRun _ _ _ _ _) as [[run|err] fc]; by intros [= _ <-].
Qed.

Lemma runStart_tame args : tame (runStart w args).
Proof.
  apply quiet_tame, first_arg_quiet. intros a st out st'. cbv beta zeta. destruct (StartRun _ _ _ _) as [[run|err] fc]; by intros [= _ <-].
Qed.

Lemma needs_secrets_tame msg k : quiet k -> tame (needs_secrets msg k).
Proof.
  intros Hk. apply quiet_tame. intros st out st'. cbv beta zeta. destruct (HasSecretStore (rs_fc st)); [apply Hk|by intros [= _ <-]].
Qed.

Lemma walletList_tame : tame walletList.
Proof.
  unfold walletList. intros st. revert st. apply needs_secrets_tame. intros st out st'.
  destruct (ListWalletKeys (rs_fc st)) as [[|n names]|err]; [by intros [= _ <-]| |by intros [= _ <-]].
  destruct (wallet_lines _ _); [by intros [= _ <-]|done].
Qed.

Lemma walletGet_tame args : tame (walletGet w args).
Proof.
  apply needs_secrets_tame, first_arg_quiet. intros a st out st'. cbv beta zeta. destruct (GetWalletKey _ _) as [[addr|err]|]; [|by intros [= _ <-]|done].
  apply printJSON_quiet.
Qed.

Lemma walletAdd_tame args : tame (walletAdd w args).
Proof.
  apply needs_secrets_tame, first_arg_quiet. intros a st out st'. cbv beta zeta.
  destruct (CreateWalletKey _ _ _ _ _) as [[[addr|err]|] fc]; [by intros [= _ <-]..|done].
Qed.

Lemma walletRemove_tame args : tame (walletRemove args).
Proof.
  apply needs_secrets_tame, first_arg_quiet. intros a st out st'. cbv beta zeta. destruct (DeleteWalletKey _ _) as [[err|] fc]; by intros [= _ <-].
Qed.

Lemma cmdNamespace_tame args : tame (cmdNamespace args).
Proof.
  intros st. unfold cmdNamespace. destruct args as [|a [|ns args]]; [by apply says_tame|..];
    destruct (String.eqb (ToLower a) "set"), (String.eqb (ToLower a) "unset"); by apply leaves_same.
Qed.

Lemma cmdExport_tame args : tame (cmdExport w args).
Proof.
  intros st. unfold cmdExport. destruct (export_args args [] "") as [kinds output].
  destruct (String.eqb output ""); [by apply leaves_same|]. destruct (List.find _ kinds); [by apply says_tame|].
  unfold export_to. destruct (DetectFormat _ _); [|by apply says_tame]. destruct (ar_export _ _ _); [|by apply says_tame].
  destruct (ar_write _ _ _); by apply leaves_same.
Qed.

Lemma cmdImport_tame args : tame (cmdImport import_file fs args).
Proof.
  apply quiet_tame. intros st out st'. cbv beta zeta. destruct args; [by intros [= _ <-]|]. destruct (ImportPaths _ _ _ _). by intros [= _ <-].
Qed.

Lemma resourceCmd_tame name l g a r args :
  (forall x, tame (l x)) -> (forall x, tame (g x)) -> (forall x, tame (a x)) -> (forall x, tame (r x)) ->
  tame (resourceCmd name l g a r args).
Proof.
  intros Hl Hg Ha Hr st. unfold resourceCmd. destruct args as [|x args]; [by apply says_tame|].
  destruct (String.eqb _ "list"); [by apply Hl|]. destruct (String.eqb _ "get"); [by apply Hg|].
  destruct (String.eqb _ "add"); [by apply Ha|]. destruct (String.eqb _ "remove"); [by apply Hr|by apply says_tame].
Qed.

Lemma cmdRun_tame args : tame (cmdRun w args).
Proof.
  intros st. unfold cmdRun. destruct args as [|x args]; [by apply says_tame|].
  destruct (String.eqb _ "list"); [by apply list_cmd_tame|]. destruct (String.eqb _ "get"); [by apply get_cmd_tame|].
  destruct (String.eqb _ "create"); [by apply runCreate_tame|]. destruct (String.eqb _ "start"); [by apply runStart_tame|].
  destruct (String.eqb _ "stop"); [by apply remove_cmd_tame|by apply says_tame].
Qed.

Lemma dispatch_tame help line : tame (dispatch import_file fs w help line).
Proof.
  intros st. unfold dispatch. destruct (Fields line) as [|c args]; [done|].
  repeat match goal with |- leaves _ (if ?b then _ else _) => destruct b end;
    try done; try by apply says_tame.
  - by apply cmdNamespace_tame.
  - apply resourceCmd_tame; intros x; [apply list_cmd_tame|apply get_cmd_tame|apply add_cmd_tame|apply remove_cmd_tame].
  - by apply cmdRun_tame.
  - apply resourceCmd_tame; intros x; [apply list_cmd_tame|apply get_cmd_tame|apply add_cmd_tame|apply remove_cmd_tame].
  - apply resourceCmd_tame; intros x; [apply list_cmd_tame|apply get_cmd_tame|apply add_cmd_tame|apply remove_cmd_tame].
  - apply resourceCmd_tame; intros x; [apply list_cmd_tame|apply get_cmd_tame|apply add_cmd_tame|apply remove_cmd_tame].
  - apply resourceCmd_tame; intros x; [apply list_cmd_tame|apply get_cmd_tame|apply add_cmd_tame|apply remove_cmd_tame].
  - apply resourceCmd_tame; intros x; [apply list_cmd_tame|apply get_cmd_tame|apply add_cmd_tame|apply remove_cmd_tame].
  - apply resourceCmd_tame; intros x; [apply walletList_tame|apply walletGet_tame|apply walletAdd_tame|apply walletRemove_tame].
  - by apply cmdExport_tame.
  - by apply cmdImport_tame.
Qed.

(** A command given while no namespace is set changes no resource: not the
    tables, not the wallets' keys, not the console's namespace. *)
Theorem no_namespace_no_change help line st out st' :
  rs_namespace st = "" -> dispatch import_file fs w help line st = Prints out st' -> rs_fc st' = rs_fc st.
Proof. intros Hn E. pose proof (dispatch_tame help line st) as Ht. rewrite E in Ht. by apply Ht. Qed.
End Facts.

(** A session of the console ends, whatever is typed: each command takes
    its line, and those that read more take more of them. *)
Theorem repl_terminates {S} `{Ed25519} `{SecretStore S} import_file fs help around fuel n (st : consoleState S) lines :
  rs_input st = Some lines -> (length lines < fuel)%nat -> exists r, snd (repl import_file fs help around fuel n st) = Some r.
Proof.
  revert n st lines. induction fuel as [|fuel IH]; intros n st lines Hi Hl; [lia|]. cbn [repl]. rewrite Hi.
  destruct lines as [|l rest]; [by eexists|]. cbn [length] in Hl.
  destruct (String.eqb (TrimSpace l) ""); [apply (IH n _ rest); [done|lia]|].
  pose proof (dispatch_tame import_file fs (around n) help (TrimSpace l) (with_lines (Some rest) st)) as Ht.
  destruct (dispatch _ _ _ _ _ _) as [out st'| |msg]; [|by eexists..]. destruct Ht as [(l' & Hi' & Hl') _].
  destruct (IH (Datatypes.S n) st' l' Hi' ltac:(cbn in Hl'; lia)) as [r Hr]. exists r.
  by destruct (repl import_file fs help around fuel (Datatypes.S n) st').
Qed.

(** ** Concrete commands *)

#[local] Existing Instance canonical_order.
#[local] Instance null_signer : Ed25519 := {| ed_sign := fun _ m => m; ed_verify := fun _ _ _ => true |}.

Definition plain_around : Around :=
  {| ar_err := no_err; ar_id := "id"; ar_now := 7; ar_generated := Err "none"; ar_nonce := ""; ar_time := Itoa;
     ar_json := fun _ => Ok "{}";
     ar_decode := fun _ => {| as_agent := Ok (small_agent "" "coder"); as_mcp := Err ""; as_llm := Err ""; as_flow := Err "";
                              as_run := Err ""; as_channel := Err "" |};
     ar_export := fun _ _ => Ok ""; ar_write := fun _ _ => None |}.
Definition no_files : ImportFS := {| fs_glob := fun _ => Ok []; fs_stat := fun _ => None |}.
Definition no_import (_ : nat) (_ : string) (fc : FlowgentConsole CSIStore) : bool * FlowgentConsole CSIStore := (false, fc).
Definition session (ns : string) (input : option (list string)) : consoleState CSIStore :=
  {| rs_fc := con None "" empty_db; rs_namespace := ns; rs_input := input; rs_files := ∅ |}.

Lemma no_namespace_no_change_witness :
  exists out st', dispatch no_import no_files plain_around "help" "agent add" (session "" (Some ["{}"; "."])) = Prints out st' /\
    rs_fc st' = con None "" empty_db.
Proof.
  eexists _, _. split; [reflexivity|].
  eapply (no_namespace_no_change no_import no_files plain_around "help" "agent add" (session "" (Some ["{}"; "."]))); reflexivity.
Defined.

Lemma repl_terminates_witness :
  let lines := ["namespace set acme"; ""; "agent add"; "{}"; "."; "agent list"; "quit"] in
  exists r, snd (repl no_import no_files "help" (fun _ => plain_around) 8 0 (session "" (Some lines))) = Some r.
Proof.
  intros lines. apply (repl_terminates no_import no_files "help" (fun _ => plain_around) 8 0 (session "" (Some lines)) lines).
  - reflexivity.
  - cbn. lia.
Defined.

(** The session prints what the commands find. *)
Example session_output :
  fst (repl no_import no_files "help" (fun _ => plain_around) 8 0
         (session "" (Some ["agent list"; "namespace set acme"; "agent add"; "{}"; "."; "namespace"]))) =
  ["Error: no namespace set. Use 'namespace set <id>' first."; "Namespace set to: acme";
   "Enter agent JSON (end with a line containing only '.'):"; "Created agent: coder"; "Current namespace: acme"].
Proof. vm_compute. reflexivity. Qed.

(** In a batch, adding crashes: there is no terminal to read from. *)
Lemma batch_add_crashes :
  exists msg, RunREPL no_import no_files "help" (fun _ => plain_around) ["agent"; "add"] [] (con None "acme" empty_db) "acme" =
    ([], Some (Crashes msg)).
Proof. eexists. vm_compute. reflexivity. Qed.

(** A batch of blanks crashes. *)
Lemma blank_batch_crashes :
  exists msg, RunREPL no_import no_files "help" (fun _ => plain_around) [""] [] (con None "acme" empty_db) "acme" =
    ([], Some (Crashes msg)).
Proof. eexists. vm_compute. reflexivity. Qed.

(** A kind in capitals is refused by the command, though the export takes it. *)
Lemma export_kind_case :
  dispatch no_import no_files plain_around "help" "export -k LLM -o x.json" (session "" None) =
    says ("Invalid kind " +:+ Quote "LLM" +:+ ". Valid kinds: llm, channel, mcp, skill, agent, flow, flowrun") (session "" None) /\
  ex_Channels (ExportKinds no_err ["Channel"] (con None "" small_db : FlowgentConsole CSIStore)) = [small_channel "c1"].
Proof. split; vm_compute; reflexivity. Qed.
