(* ===== verification/GoTime.v ===== *)
(** * Package time

    What the stores use of Go's package time: instants with the offset of
    their zone, the proleptic Gregorian calendar, [Time.Format] and
    [time.Parse] on the layouts the code names, and
    [pkg/common/pkg/utils/reflect.go]'s [ParseTime].  A layout is the list of
    the chunks the runtime cuts it into. *)

From S2P Require Export GoStr.
From Stdlib Require Import Ascii.

Local Open Scope string_scope.
Local Open Scope Z_scope.

(** An instant, and the seconds east of UTC of the zone it is shown in. *)
Record Time := { t_unix : Z; t_nsec : Z; t_offset : Z }.

#[export] Instance Time_eq_dec : EqDecision Time.
Proof. solve_decision. Defined.

(** The zero [time.Time]: January 1, year 1, 00:00:00 UTC. *)
Definition zero_time : Time := {| t_unix := -62135596800; t_nsec := 0; t_offset := 0 |}.
Definition IsZero (t : Time) : bool := (t_unix t =? t_unix zero_time) && (t_nsec t =? 0).
Definition UTC (t : Time) : Time := {| t_unix := t_unix t; t_nsec := t_nsec t; t_offset := 0 |}.

(** ** The calendar *)

Definition is_leap (y : Z) : bool := (y mod 4 =? 0) && (negb (y mod 100 =? 0) || (y mod 400 =? 0)).

Definition days_in (m y : Z) : Z :=
  if m =? 2 then if is_leap y then 29 else 28
  else if (m =? 4) || (m =? 6) || (m =? 9) || (m =? 11) then 30
  else 31.

(** The date of a day counted from January 1, 1970.  Years start in March
    here, so that a leap day is the last day of its cycles of 4, 100 and 400
    years. *)
Definition civil (days : Z) : Z * Z * Z :=
  let z := days + 719468 in
  let n400 := z / 146097 in let r := z mod 146097 in
  let n100 := Z.min (r / 36524) 3 in let r := r - 36524 * n100 in
  let n4 := r / 1461 in let r := r mod 1461 in
  let n1 := Z.min (r / 365) 3 in let doy := r - 365 * n1 in
  let y := 400 * n400 + 100 * n100 + 4 * n4 + n1 in
  let mp := (5 * doy + 2) / 153 in
  let d := doy - (153 * mp + 2) / 5 + 1 in
  if mp <? 10 then (y, mp + 3, d) else (y + 1, mp - 9, d).

Definition days_of (y m d : Z) : Z :=
  let '(y, mp) := if m <=? 2 then (y - 1, m + 9) else (y, m - 3) in
  365 * y + y / 4 - y / 100 + y / 400 + (153 * mp + 2) / 5 + d - 1 - 719468.

(** The cycles a day lies in. *)
Lemma civil_cycles days :
  exists n400 n100 n4 n1 doy,
    days + 719468 = 146097 * n400 + 36524 * n100 + 1461 * n4 + 365 * n1 + doy /\
    0 <= n100 <= 3 /\ 0 <= n4 <= 24 /\ 0 <= n1 <= 3 /\ 0 <= doy <= 365 /\
    (doy = 365 -> n1 = 3 /\ (n4 = 24 -> n100 = 3)) /\
    civil days =
    let y := 400 * n400 + 100 * n100 + 4 * n4 + n1 in
    let mp := (5 * doy + 2) / 153 in
    let d := doy - (153 * mp + 2) / 5 + 1 in
    if mp <? 10 then (y, mp + 3, d) else (y + 1, mp - 9, d).
Proof.
  set (z := days + 719468). set (r0 := z mod 146097).
  assert (Hz : z = 146097 * (z / 146097) + r0) by (apply Z.div_mod; lia).
  assert (H0 : 0 <= r0 < 146097) by (apply Z.mod_pos_bound; lia).
  set (n100 := Z.min (r0 / 36524) 3). set (r1 := r0 - 36524 * n100).
  assert (H1 : 0 <= r1 <= 36524 /\ 0 <= n100 <= 3 /\ (n100 < 3 -> r1 < 36524)).
  { subst r1 n100. clearbody r0. dlia. }
  assert (Hr1 : r1 = 1461 * (r1 / 1461) + r1 mod 1461) by (apply Z.div_mod; lia).
  set (r2 := r1 mod 1461) in *.
  assert (H2 : 0 <= r2 < 1461) by (apply Z.mod_pos_bound; lia).
  set (n1 := Z.min (r2 / 365) 3). set (doy := r2 - 365 * n1).
  assert (H3 : 0 <= doy <= 365 /\ 0 <= n1 <= 3 /\ (doy = 365 -> n1 = 3)).
  { subst doy n1. clearbody r2. dlia. }
  exists (z / 146097), n100, (r1 / 1461), n1, doy.
  split_and!; try tauto; lia.
Qed.

Lemma civil_month days y m d : civil days = (y, m, d) -> 1 <= m <= 12 /\ 1 <= d <= days_in m y.
Proof.
  destruct (civil_cycles days) as (n400 & n100 & n4 & n1 & doy & _ & H100 & H4 & H1 & Hd & Hl & ->).
  cbn zeta. set (mp := (5 * doy + 2) / 153). assert (Hmp : 0 <= mp <= 11) by (subst mp; dlia).
  assert (Hlo : (153 * mp + 2) / 5 <= doy) by (subst mp; dlia).
  assert (Hhi : doy < (153 * (mp + 1) + 2) / 5 /\ 153 * mp <= 5 * doy + 2) by (subst mp; dlia).
  unfold days_in. destruct (Z.ltb_spec mp 10) as [Hlt|Hge]; intros [= <- <- <-].
  { destruct (Z.eqb_spec (mp + 3) 2); [lia|].
    destruct (_ || _) eqn:E; [|split; dlia].
    rewrite !orb_true_iff, !Z.eqb_eq in E. split; [lia|]. destruct E as [[[E|E]|E]|E]; dlia. }
  assert (mp = 10 \/ mp = 11) as [Em|Em] by lia; rewrite Em in *; clear Hge.
  { change (10 - 9 =? 2) with false. change (_ || _) with false. dlia. }
  change (11 - 9 =? 2) with true. change ((153 * 11 + 2) / 5) with 337 in *. split; [lia|]. split; [lia|].
  unfold is_leap. destruct (decide (doy = 365)) as [->|Hne].
  - specialize (Hl eq_refl) as [-> Hl].
    assert ((400 * n400 + 100 * n100 + 4 * n4 + 3 + 1) mod 4 = 0) as -> by dlia.
    destruct (decide (n4 = 24)) as [E4|Hne].
    + assert ((400 * n400 + 100 * n100 + 4 * n4 + 3 + 1) mod 400 = 0) as -> by (rewrite E4, (Hl E4); dlia).
      rewrite orb_true_r. cbn [Z.eqb andb]. lia.
    + assert ((400 * n400 + 100 * n100 + 4 * n4 + 3 + 1) mod 100 <> 0) as Hm%Z.eqb_neq.
      { replace (_ + 3 + 1) with (4 * (n4 + 1) + (4 * n400 + n100) * 100) by lia.
        rewrite Z.mod_add, Z.mod_small by lia. lia. }
      rewrite Hm. cbn [Z.eqb andb negb orb]. lia.
  - destruct (_ && _); lia.
Qed.

(** The number of a date is the number the date was made from. *)
Lemma days_of_civil days y m d : civil days = (y, m, d) -> days_of y m d = days.
Proof.
  destruct (civil_cycles days) as (n400 & n100 & n4 & n1 & doy & Hz & H100 & H4 & H1 & Hd & _ & ->).
  cbn zeta. set (yy := 400 * n400 + 100 * n100 + 4 * n4 + n1). intros E.
  assert (Hy : 365 * yy + yy / 4 - yy / 100 + yy / 400 + doy = days + 719468).
  { assert (yy / 4 = 100 * n400 + 25 * n100 + n4) as -> by (subst yy; dlia).
    assert (yy / 100 = 4 * n400 + n100) as -> by (subst yy; dlia).
    assert (yy / 400 = n400) as -> by (subst yy; dlia). subst yy. lia. }
  clearbody yy. unfold days_of.
  destruct (Z.ltb_spec ((5 * doy + 2) / 153) 10); injection E as <- <- <-.
  - destruct (Z.leb_spec ((5 * doy + 2) / 153 + 3) 2); [dlia|].
    replace ((5 * doy + 2) / 153 + 3 - 3) with ((5 * doy + 2) / 153) by lia. lia.
  - destruct (Z.leb_spec ((5 * doy + 2) / 153 - 9) 2); [|dlia].
    replace ((5 * doy + 2) / 153 - 9 + 9) with ((5 * doy + 2) / 153) by lia.
    replace (yy + 1 - 1) with yy by lia. lia.
Qed.

(** ** Layouts *)

Inductive chunk :=
| LongYear | ZeroMonth | ZeroDay | Hour | ZeroMinute | ZeroSecond
| FracSecond9          (* .999999999 *)
| NumColonTZ           (* -07:00 *)
| ISO8601ColonTZ       (* Z07:00 *)
| Space
| Lit (c : ascii).

Definition date_part : list chunk := [LongYear; Lit "-"; ZeroMonth; Lit "-"; ZeroDay].
Definition time_part : list chunk := [Hour; Lit ":"; ZeroMinute; Lit ":"; ZeroSecond].

(** ["2006-01-02 15:04:05"] *)
Definition DateTime : list chunk := (date_part ++ [Space] ++ time_part)%list.
(** ["2006-01-02T15:04:05Z"] *)
Definition DateTimeZ : list chunk := (date_part ++ [Lit "T"] ++ time_part ++ [Lit "Z"])%list.
(** ["2006-01-02T15:04:05-07:00"] *)
Definition DateTimeNum : list chunk := (date_part ++ [Lit "T"] ++ time_part ++ [NumColonTZ])%list.
Definition RFC3339 : list chunk := (date_part ++ [Lit "T"] ++ time_part ++ [ISO8601ColonTZ])%list.
Definition RFC3339Nano : list chunk :=
  (date_part ++ [Lit "T"] ++ time_part ++ [FracSecond9; ISO8601ColonTZ])%list.

(** *** Writing *)

Definition digit (z : Z) : ascii := ascii_of_nat (Z.to_nat (48 + z)).

(** The last [w] decimal digits. *)
Fixpoint digits (w : nat) (z : Z) : string :=
  match w with
  | O => ""
  | S w => digits w (z / 10) +:+ String (digit (z mod 10)) ""
  end.

Definition appendInt (z : Z) (w : nat) : string :=
  let m := Z.abs z in
  (if z <? 0 then "-" else "") +:+ (if m <? 10 ^ Z.of_nat w then digits w m else Itoa m).

Definition wall (t : Time) : Z := t_unix t + t_offset t.
Definition date_of (t : Time) : Z * Z * Z := civil (wall t / 86400).
Definition clock_of (t : Time) : Z := wall t mod 86400.

Definition format_offset (off : Z) : string :=
  let zone := Z.quot off 60 in
  (if zone <? 0 then "-" else "+") +:+
  appendInt (Z.abs zone / 60) 2 +:+ ":" +:+ appendInt (Z.abs zone mod 60) 2.

Fixpoint trim_zeros (s : string) : string :=
  match s with
  | EmptyString => ""
  | String c s =>
      let r := trim_zeros s in
      if String.eqb r "" && Ascii.eqb c "0" then "" else String c r
  end.

Definition format_chunk (t : Time) (c : chunk) : string :=
  let '(y, m, d) := date_of t in
  match c with
  | LongYear => appendInt y 4
  | ZeroMonth => appendInt m 2
  | ZeroDay => appendInt d 2
  | Hour => appendInt (clock_of t / 3600) 2
  | ZeroMinute => appendInt (clock_of t mod 3600 / 60) 2
  | ZeroSecond => appendInt (clock_of t mod 60) 2
  | FracSecond9 =>
      let f := trim_zeros (digits 9 (t_nsec t)) in if String.eqb f "" then "" else "." +:+ f
  | NumColonTZ => format_offset (t_offset t)
  | ISO8601ColonTZ => if t_offset t =? 0 then "Z" else format_offset (t_offset t)
  | Space => " "
  | Lit c => String c ""
  end.

Fixpoint Format (layout : list chunk) (t : Time) : string :=
  match layout with
  | [] => ""
  | c :: layout => format_chunk t c +:+ Format layout t
  end.

(** *** Reading *)

(** [getnum]: one digit is enough unless [fixed]. *)
Definition getnum (fixed : bool) (s : string) : option (Z * string) :=
  match s with
  | String a r =>
      match digit_val a with
      | None => None
      | Some x =>
          match r with
          | String b r' =>
              match digit_val b with
              | Some y => Some (x * 10 + y, r')
              | None => if fixed then None else Some (x, r)
              end
          | EmptyString => if fixed then None else Some (x, r)
          end
      end
  | EmptyString => None
  end.

Definition get_year (s : string) : option (Z * string) :=
  match s with
  | String a (String b (String c (String d r))) =>
      match digit_val a, digit_val b, digit_val c, digit_val d with
      | Some a, Some b, Some c, Some d => Some (((a * 10 + b) * 10 + c) * 10 + d, r)
      | _, _, _, _ => None
      end
  | _ => None
  end.

(** The nanoseconds of the digits read; those past the ninth are dropped. *)
Fixpoint nanoseconds (place : Z) (s : string) : Z * string :=
  match s with
  | String c r =>
      match digit_val c with
      | Some x => let (n, rest) := nanoseconds (place / 10) r in (x * place + n, rest)
      | None => (0, s)
      end
  | EmptyString => (0, s)
  end.

(** The fraction that may follow the seconds, in the layout or not. *)
Definition get_frac (s : string) : option (Z * string) :=
  match s with
  | String p (String c _ as r) =>
      match digit_val c with
      | Some _ => if Ascii.eqb p "." || Ascii.eqb p "," then Some (nanoseconds 100000000 r) else None
      | None => None
      end
  | _ => None
  end.

Definition get_offset (s : string) : option (Z * string) :=
  match s with
  | String sign (String a (String b (String colon (String c (String d r))))) =>
      if negb (Ascii.eqb colon ":") then None
      else match getnum true (String a (String b "")), getnum true (String c (String d "")) with
      | Some (hr, _), Some (mm, _) =>
          if (24 <? hr) || (60 <? mm) then None
          else if Ascii.eqb sign "+" then Some ((hr * 60 + mm) * 60, r)
          else if Ascii.eqb sign "-" then Some (- ((hr * 60 + mm) * 60), r)
          else None
      | _, _ => None
      end
  | _ => None
  end.

Record parsed := {
  p_year : Z; p_month : Z; p_day : Z; p_hour : Z; p_min : Z; p_sec : Z; p_nsec : Z;
  p_utc : bool; p_zone : option Z;
}.

Definition p_start : parsed :=
  {| p_year := 0; p_month := 1; p_day := 1; p_hour := 0; p_min := 0; p_sec := 0; p_nsec := 0;
     p_utc := false; p_zone := None |}.

Definition with_date (y m d : Z) (p : parsed) : parsed :=
  {| p_year := y; p_month := m; p_day := d; p_hour := p_hour p; p_min := p_min p; p_sec := p_sec p;
     p_nsec := p_nsec p; p_utc := p_utc p; p_zone := p_zone p |}.
Definition with_clock (h mi s ns : Z) (p : parsed) : parsed :=
  {| p_year := p_year p; p_month := p_month p; p_day := p_day p; p_hour := h; p_min := mi; p_sec := s;
     p_nsec := ns; p_utc := p_utc p; p_zone := p_zone p |}.
Definition with_zone (utc : bool) (zone : option Z) (p : parsed) : parsed :=
  {| p_year := p_year p; p_month := p_month p; p_day := p_day p; p_hour := p_hour p; p_min := p_min p;
     p_sec := p_sec p; p_nsec := p_nsec p; p_utc := utc; p_zone := zone |}.

Definition parse_frac (p : parsed) (s : string) : parsed * string :=
  match get_frac s with
  | Some (ns, r) => (with_clock (p_hour p) (p_min p) (p_sec p) ns p, r)
  | None => (p, s)
  end.

Definition below (bound : Z) (r : option (Z * string)) : option (Z * string) :=
  match r with Some (z, s) => if z <? bound then Some (z, s) else None | None => None end.

Definition parse_zone (p : parsed) (s : string) : option (parsed * string) :=
  match get_offset s with Some (z, r) => Some (with_zone (p_utc p) (Some z) p, r) | None => None end.

Fixpoint cutspace (s : string) : string :=
  match s with
  | String c r => if Ascii.eqb c " " then cutspace r else s
  | EmptyString => s
  end.

(** One chunk; after the seconds a fraction is read unless the layout reads
    it next. *)
Definition parse_chunk (c : chunk) (next : option chunk) (p : parsed) (s : string) : option (parsed * string) :=
  match c with
  | LongYear => match get_year s with Some (y, r) => Some (with_date y (p_month p) (p_day p) p, r) | None => None end
  | ZeroMonth =>
      match below 13 (getnum true s) with
      | Some (m, r) => if m <=? 0 then None else Some (with_date (p_year p) m (p_day p) p, r)
      | None => None
      end
  | ZeroDay => match getnum true s with Some (d, r) => Some (with_date (p_year p) (p_month p) d p, r) | None => None end
  | Hour =>
      match below 24 (getnum false s) with
      | Some (h, r) => Some (with_clock h (p_min p) (p_sec p) (p_nsec p) p, r)
      | None => None
      end
  | ZeroMinute =>
      match below 60 (getnum true s) with
      | Some (m, r) => Some (with_clock (p_hour p) m (p_sec p) (p_nsec p) p, r)
      | None => None
      end
  | ZeroSecond =>
      match below 60 (getnum true s) with
      | Some (x, r) =>
          let p := with_clock (p_hour p) (p_min p) x (p_nsec p) p in
          Some (match next with Some FracSecond9 => (p, r) | _ => parse_frac p r end)
      | None => None
      end
  | FracSecond9 => Some (parse_frac p s)
  | NumColonTZ => parse_zone p s
  | ISO8601ColonTZ => match CutPrefix s "Z" with Some r => Some (with_zone true (p_zone p) p, r) | None => parse_zone p s end
  | Space =>
      match s with
      | EmptyString => Some (p, s)
      | String c _ => if Ascii.eqb c " " then Some (p, cutspace s) else None
      end
  | Lit c => match CutPrefix s (String c "") with Some r => Some (p, r) | None => None end
  end.

Fixpoint parse_chunks (layout : list chunk) (p : parsed) (s : string) : option parsed :=
  match layout with
  | [] => if String.eqb s "" then Some p else None
  | c :: layout =>
      match parse_chunk c (hd_error layout) p s with
      | Some (p, r) => parse_chunks layout p r
      | None => None
      end
  end.

(** [time.Parse]; [None] is an error. *)
Definition Parse (layout : list chunk) (s : string) : option Time :=
  match parse_chunks layout p_start s with
  | None => None
  | Some p =>
      if (p_day p <? 1) || (days_in (p_month p) (p_year p) <? p_day p) then None
      else
        let unix := days_of (p_year p) (p_month p) (p_day p) * 86400 +
                    p_hour p * 3600 + p_min p * 60 + p_sec p in
        match p_utc p, p_zone p with
        | false, Some off => Some {| t_unix := unix - off; t_nsec := p_nsec p; t_offset := off |}
        | _, _ => Some {| t_unix := unix; t_nsec := p_nsec p; t_offset := 0 |}
        end
  end.

(** [ParseTime] of reflect.go: the first layout that fits. *)
Definition time_formats : list (list chunk) := [DateTime; DateTimeZ; DateTimeNum; RFC3339; RFC3339Nano].

Fixpoint first_parse (formats : list (list chunk)) (s : string) : option Time :=
  match formats with
  | [] => None
  | f :: fs => match Parse f s with Some t => Some t | None => first_parse fs s end
  end.

Definition ParseTime (s : string) : res Time :=
  match first_parse time_formats s with
  | Some t => Ok t
  | None => Err ("cannot parse time: " +:+ Quote s)
  end.

Example ParseTime_ex :
  map ParseTime ["2024-02-29 23:59:59"; "2024-02-29T23:59:59.25+02:00"; "2023-02-29 00:00:00"; "1970-01-01T00:00:00Z"] =
  [Ok {| t_unix := 1709251199; t_nsec := 0; t_offset := 0 |};
   Ok {| t_unix := 1709243999; t_nsec := 250000000; t_offset := 7200 |};
   Err ("cannot parse time: " +:+ Quote "2023-02-29 00:00:00"); Ok {| t_unix := 0; t_nsec := 0; t_offset := 0 |}].
Proof. vm_compute. reflexivity. Qed.

Example Format_ex :
  Format DateTime zero_time = "0001-01-01 00:00:00" /\
  Format RFC3339Nano {| t_unix := 1709243999; t_nsec := 250000000; t_offset := 7200 |} = "2024-02-29T23:59:59.25+02:00".
Proof. vm_compute. split; reflexivity. Qed.

(** ** What is written is read back *)

Lemma digit_val_digit z : 0 <= z < 10 -> digit_val (digit z) = Some z.
Proof.
  intros Hz. assert (z = 0 \/ z = 1 \/ z = 2 \/ z = 3 \/ z = 4 \/ z = 5 \/ z = 6 \/ z = 7 \/ z = 8 \/ z = 9) as H by lia.
  by repeat destruct H as [->|H]; [..|subst z].
Qed.

Lemma appendInt_digits z w : 0 <= z < 10 ^ Z.of_nat w -> appendInt z w = digits w z.
Proof.
  intros Hz. unfold appendInt. rewrite Z.abs_eq by lia.
  destruct (Z.ltb_spec z 0); [lia|]. destruct (Z.ltb_spec z (10 ^ Z.of_nat w)); [done|lia].
Qed.

Lemma getnum_appendInt fixed z r : 0 <= z < 100 -> getnum fixed (appendInt z 2 +:+ r) = Some (z, r).
Proof.
  intros Hz. rewrite (appendInt_digits z 2) by (cbn; lia). cbn [digits String.append].
  unfold getnum. rewrite !digit_val_digit by dlia. repeat f_equal. dlia.
Qed.

Lemma get_year_appendInt z r : 0 <= z < 10000 -> get_year (appendInt z 4 +:+ r) = Some (z, r).
Proof.
  intros Hz. rewrite (appendInt_digits z 4) by (cbn; lia). cbn [digits String.append].
  unfold get_year. rewrite !digit_val_digit by dlia. repeat f_equal. dlia.
Qed.

Definition year_of (t : Time) : Z := (date_of t).1.1.

(** The date and clock of an instant, back to the number of its seconds. *)
Lemma wall_of_date t y m d :
  date_of t = (y, m, d) ->
  days_of y m d * 86400 + clock_of t / 3600 * 3600 + clock_of t mod 3600 / 60 * 60 + clock_of t mod 60 = wall t.
Proof. intros E%days_of_civil. rewrite E. unfold clock_of. dlia. Qed.

Lemma CutPrefix_char c r : CutPrefix (String c r) (String c "") = Some r.
Proof. unfold CutPrefix. cbn. by rewrite Ascii.eqb_refl. Qed.

Lemma cutspace_appendInt z r : 0 <= z < 100 -> cutspace (String " " (appendInt z 2 +:+ r)) = appendInt z 2 +:+ r.
Proof.
  intros Hz. rewrite (appendInt_digits z 2) by (cbn; lia). cbn.
  assert (Hd : forall z, 0 <= z < 10 -> Ascii.eqb (digit z) " " = false).
  { clear. intros z Hz.
    assert (z = 0 \/ z = 1 \/ z = 2 \/ z = 3 \/ z = 4 \/ z = 5 \/ z = 6 \/ z = 7 \/ z = 8 \/ z = 9) as H by lia.
    by repeat destruct H as [->|H]; [..|subst z]. }
  by rewrite Hd by dlia.
Qed.

Lemma below_lt b z r : z < b -> below b (Some (z, r)) = Some (z, r).
Proof. intros H. unfold below. by rewrite (proj2 (Z.ltb_lt z b)) by lia. Qed.

Ltac read_chunks :=
  repeat first
    [ progress cbn beta iota | progress change (Ascii.eqb " " " ") with true
    | rewrite get_year_appendInt by lia | rewrite CutPrefix_char | rewrite getnum_appendInt by lia
    | rewrite below_lt by lia | rewrite cutspace_appendInt by lia ].

(** The chunks of a date and of a clock, read from what was written. *)
Lemma parse_date rest p y m d r :
  0 <= y < 10000 -> 1 <= m <= 12 -> 0 <= d < 100 ->
  parse_chunks (date_part ++ rest)%list p (appendInt y 4 +:+ "-" +:+ appendInt m 2 +:+ "-" +:+ appendInt d 2 +:+ r) =
  parse_chunks rest (with_date y m d p) r.
Proof.
  intros Hy Hm Hd. cbn [date_part app parse_chunks parse_chunk hd_error String.append].
  read_chunks. destruct (Z.leb_spec m 0); [lia|]. read_chunks. reflexivity.
Qed.

Lemma parse_clock p h mi s :
  0 <= h < 24 -> 0 <= mi < 60 -> 0 <= s < 60 ->
  parse_chunks (Space :: time_part) p (" " +:+ appendInt h 2 +:+ ":" +:+ appendInt mi 2 +:+ ":" +:+ appendInt s 2 +:+ "") =
  Some (with_clock h mi s (p_nsec p) p).
Proof.
  intros Hh Hm Hs. cbn [time_part app parse_chunks parse_chunk hd_error String.append]. read_chunks. reflexivity.
Qed.

Lemma Parse_Format_DateTime t :
  0 <= year_of t <= 9999 ->
  Parse DateTime (Format DateTime t) = Some {| t_unix := wall t; t_nsec := 0; t_offset := 0 |}.
Proof.
  unfold year_of. destruct (date_of t) as [[y m] d] eqn:E. cbn [fst snd]. intros Hy.
  pose proof (civil_month _ _ _ _ E) as [Hm Hd].
  assert (Hc : 0 <= clock_of t < 86400) by (apply Z.mod_pos_bound; lia).
  assert (Hd31 : d <= 31) by (revert Hd; unfold days_in; repeat case_match; lia).
  assert (Hf : Format DateTime t =
    appendInt y 4 +:+ "-" +:+ appendInt m 2 +:+ "-" +:+ appendInt d 2 +:+ " " +:+ appendInt (clock_of t / 3600) 2 +:+ ":" +:+
    appendInt (clock_of t mod 3600 / 60) 2 +:+ ":" +:+ appendInt (clock_of t mod 60) 2 +:+ "").
  { cbn [Format DateTime date_part time_part app]. unfold format_chunk. by rewrite E. }
  rewrite Hf. unfold Parse, DateTime. rewrite parse_date by lia.
  cbn [app]. rewrite parse_clock by dlia. cbn -[days_in days_of Z.mul Z.add Z.div Z.modulo].
  destruct (Z.ltb_spec d 1); [lia|]. destruct (Z.ltb_spec (days_in m y) d); [lia|]. cbn [orb].
  by rewrite (wall_of_date _ _ _ _ E).
Qed.

(** A time in the stores: its wall clock, to the second. *)
Definition stored_time (t : Time) : Time := {| t_unix := wall t; t_nsec := 0; t_offset := 0 |}.

Lemma ParseTime_Format t : 0 <= year_of t <= 9999 -> ParseTime (Format DateTime t) = Ok (stored_time t).
Proof. intros Hy. unfold ParseTime, time_formats, first_parse. by rewrite Parse_Format_DateTime. Qed.
