(* ===== verification/JsonFacts.v ===== *)
(** * What is encoded as JSON is decoded

    For values without numbers whose maps have sorted keys (the order the
    encoder writes them in), [Unmarshal] is a left inverse of [Marshal]. *)

From S2P Require Export Json.
From Stdlib Require Import Ascii.

Local Open Scope string_scope.

(** ** Strings *)

Definition cons_string (t : string) (r : option (string * string)) : option (string * string) :=
  match r with Some (t', rest) => Some (t +:+ t', rest) | None => None end.

Lemma parse_string_plain c X :
  Ascii.eqb c "034" = false -> Ascii.eqb c "\" = false -> Nat.ltb (nat_of_ascii c) 32 = false ->
  parse_string (String c X) = cons_string (String c "") (parse_string X).
Proof. intros H1 H2 H3. cbn [parse_string]. by rewrite H1, H2, H3. Qed.

Lemma parse_string_simple e t X :
  Ascii.eqb e "u" = false -> simple_escape e = Some t ->
  parse_string (String "\" (String e X)) = cons_string t (parse_string X).
Proof.
  intros H1 H2. cbn [parse_string]. rewrite H1, H2. reflexivity.
Qed.

Lemma parse_string_hex a b d h r X :
  hex4 a b d h = Some r -> is_high r = false -> is_low r = false ->
  parse_string (String "\" (String "u" (String a (String b (String d (String h X)))))) = cons_string (utf8 r) (parse_string X).
Proof.
  intros Hh H1 H2. cbn [parse_string]. rewrite Hh, H1, H2. cbn [orb].
  change (Ascii.eqb "\" "034") with false. change (Ascii.eqb "\" "\") with true. change (Ascii.eqb "u" "u") with true.
  change (Nat.ltb (nat_of_ascii "\") 32) with false. cbn [negb].
  repeat match goal with
         | |- context [match ?Y with EmptyString => _ | String _ _ => _ end] => is_var Y; destruct Y
         end; try reflexivity.
  match goal with |- context [match hex4 ?p ?q ?x ?y with _ => _ end] => destruct (hex4 p q x y); [|reflexivity] end.
  by rewrite andb_false_r.
Qed.

Definition small_chars : list ascii := map ascii_of_nat (seq 0 32) ++ ["<"; ">"; "&"]%char.

Lemma hex_escapes c :
  Nat.ltb (nat_of_ascii c) 32 || Ascii.eqb c "<" || Ascii.eqb c ">" || Ascii.eqb c "&" = true -> c ∈ small_chars.
Proof.
  rewrite !orb_true_iff, Nat.ltb_lt, !Ascii.eqb_eq. unfold small_chars. rewrite elem_of_app.
  intros [[[H|H]|H]|H]; [left|right; subst; set_solver..].
  rewrite <- (ascii_nat_embedding c). apply list_elem_of_fmap_2, elem_of_seq. lia.
Qed.

Definition hex_escape_ok (c : ascii) : bool :=
  let n := nat_of_ascii c in
  match hex_digit (n / 16), hex_digit (n mod 16) with
  | String d "", String h "" =>
      match hex4 "0" "0" d h with
      | Some r => negb (is_high r) && negb (is_low r) && String.eqb (utf8 r) (String c "")
      | None => false
      end
  | _, _ => false
  end.

Lemma hex_escape_ok_small c : c ∈ small_chars -> hex_escape_ok c = true.
Proof.
  intros H. assert (Hall : forallb hex_escape_ok small_chars = true) by (vm_compute; reflexivity).
  rewrite forallb_forall in Hall. apply Hall. by apply list_elem_of_In.
Qed.

Lemma parse_string_byte c X : parse_string (escape_byte c +:+ X) = cons_string (String c "") (parse_string X).
Proof.
  unfold escape_byte.
  destruct (Ascii.eqb_spec c "034") as [->|H1]; [by apply parse_string_simple|].
  destruct (Ascii.eqb_spec c "\") as [->|H2]; [by apply parse_string_simple|].
  repeat match goal with
  | |- context [Nat.eqb (nat_of_ascii c) ?k] =>
      destruct (Nat.eqb_spec (nat_of_ascii c) k) as [E|_];
      [apply (f_equal ascii_of_nat) in E; rewrite ascii_nat_embedding in E; subst c; by apply parse_string_simple|]
  end.
  destruct (_ || _) eqn:E.
  - pose proof (hex_escape_ok_small c (hex_escapes c E)) as Hok. unfold hex_escape_ok in Hok.
    destruct (hex_digit (nat_of_ascii c / 16)) as [|d [|]]; try done.
    destruct (hex_digit (nat_of_ascii c mod 16)) as [|h [|]]; try done.
    destruct (hex4 "0" "0" d h) as [r|] eqn:Er; [|done].
    rewrite !andb_true_iff, !negb_true_iff in Hok. destruct Hok as [[Hh Hl] Hu%String.eqb_eq].
    cbn [String.append]. by rewrite (parse_string_hex _ _ _ _ _ _ Er Hh Hl), Hu.
  - rewrite !orb_false_iff in E. destruct E as [[[E _] _] _]. cbn [String.append].
    apply parse_string_plain; [by apply Ascii.eqb_neq..|done].
Qed.

Lemma parse_string_escape s rest : parse_string (escape s +:+ dquote +:+ rest) = Some (s, rest).
Proof.
  induction s as [|c s IH]; [done|]. cbn [escape]. rewrite append_assoc, parse_string_byte, IH. done.
Qed.

(** ** Values *)

(** The keys of a map as the encoder leaves them: sorted, each once. *)
Fixpoint sorted_keys {A} (m : list (string * A)) : bool :=
  match m with
  | [] => true
  | (k, _) :: m' =>
      match m' with
      | [] => true
      | (k', _) :: _ => String.leb k k' && sorted_keys m'
      end
  end.

(** No numbers; maps in the order of their keys. *)
Fixpoint plain (v : any) : bool :=
  match v with
  | VNil | VBool _ | VStr _ => true
  | VInt _ | VFloat _ => false
  | VList l => forallb plain l
  | VMap m => sorted_keys m && bool_decide (NoDup m.*1) && forallb (fun kv => plain kv.2) m
  end.

Lemma sort_keys_sorted {A} (m : list (string * A)) : sorted_keys m = true -> sort_keys m = m.
Proof.
  induction m as [|[k v] m IH]; [done|]. intros H. unfold sort_keys. cbn [fold_right fst snd].
  change (fold_right _ [] m) with (sort_keys m).
  rewrite IH.
  - destruct m as [|[k' v'] m']; [done|]. cbn [sorted_keys] in H. apply andb_true_iff in H as [H _].
    cbn [insert_key]. by rewrite H.
  - cbn [sorted_keys] in H. destruct m as [|[k' v'] m']; [done|]. by apply andb_true_iff in H as [_ H].
Qed.

Lemma sorted_keys_map {A B} (f : A -> B) m : sorted_keys (map (fun kv => (kv.1, f kv.2)) m) = sorted_keys m.
Proof. induction m as [|[k v] [|[k' v'] m] IH]; [done|done|]. cbn in *. by rewrite IH. Qed.

(** The head of a text: no white space, no closing bracket. *)
Definition starts_value (s : string) : Prop :=
  exists c r, s = String c r /\ json_space c = false /\ Ascii.eqb c "]" = false /\ Ascii.eqb c "}" = false.

Lemma Marshal_starts v rest : plain v = true -> starts_value (Marshal v +:+ rest).
Proof.
  destruct v as [|[]| | |s|l|m]; intros H; try done; cbn [Marshal String.append]; unfold json_string, Quote, dquote;
    cbn [String.append]; by eexists _, _.
Qed.

Lemma skip_ws_id s : starts_value s -> skip_ws s = s.
Proof. intros (c & r & -> & Hc & _). cbn. by rewrite Hc. Qed.

Lemma length_append_str s t : String.length (s +:+ t) = String.length s + String.length t.
Proof. apply length_append. Qed.

(** Every part of a joined text is shorter than it, and so is their number. *)
Lemma Join_bounds (l : list string) sep :
  sep <> "" -> Forall (fun s => String.length s <= String.length (Join l sep)) l /\ length l <= S (String.length (Join l sep)).
Proof.
  intros Hsep. assert (Hs : 1 <= String.length sep) by (destruct sep; [done|cbn; lia]).
  induction l as [|s [|s' l] [IH1 IH2]]; [split; [constructor|cbn; lia]|split; [repeat constructor|cbn; lia]|].
  change (Join (s :: s' :: l) sep) with (s +:+ sep +:+ Join (s' :: l) sep). rewrite !length_append_str. split.
  - constructor; [lia|]. eapply Forall_impl; [exact IH1|]. cbn beta. intros x Hx. lia.
  - cbn [length] in *. lia.
Qed.

(** The two loops of [parse_value], over the reader of their values. *)
Section Loops.
Variable P : string -> option (any * string).

Fixpoint elems (n : nat) (l : list any) (s : string) : option (any * string) :=
  match n with
  | O => None
  | S n =>
      match P s with
      | Some (v, r) =>
          match skip_ws r with
          | EmptyString => None
          | String d r' =>
              if Ascii.eqb d "]" then Some (VList (l ++ [v])%list, r')
              else if Ascii.eqb d "," then elems n (l ++ [v])%list r'
              else None
          end
      | None => None
      end
  end.

Fixpoint members (n : nat) (first : bool) (m : gomap) (s : string) : option (any * string) :=
  match n with
  | O => None
  | S n =>
      match skip_ws s with
      | EmptyString => None
      | String c r =>
          if Ascii.eqb c "}" && first then Some (VMap m, r)
          else if negb (Ascii.eqb c "034") then None
          else match parse_string r with
            | None => None
            | Some (k, r1) =>
                match CutPrefix (skip_ws r1) ":" with
                | None => None
                | Some r2 =>
                    match P r2 with
                    | None => None
                    | Some (v, r3) =>
                        match skip_ws r3 with
                        | EmptyString => None
                        | String d r4 =>
                            if Ascii.eqb d "}" then Some (VMap (mset k v m), r4)
                            else if Ascii.eqb d "," then members n false (mset k v m) r4
                            else None
                        end
                    end
                end
            end
      end
  end.

Definition reads (v : any) : Prop := forall rest, P (Marshal v +:+ rest) = Some (v, rest).

Lemma elems_reads l : forall n acc rest,
  l <> [] -> Forall reads l -> length l <= n ->
  elems n acc (Join (map Marshal l) "," +:+ "]" +:+ rest) = Some (VList (acc ++ l)%list, rest).
Proof.
  induction l as [|v l IH]; intros n acc rest Hne Hall Hn; [done|].
  apply Forall_cons in Hall as [Hv Hall]. destruct n as [|n]; [cbn in Hn; lia|].
  destruct l as [|v' l].
  - cbn [map Join elems]. rewrite Hv. done.
  - change (Join (map Marshal (v :: v' :: l)) ",") with (Marshal v +:+ "," +:+ Join (map Marshal (v' :: l)) ",").
    rewrite !append_assoc. cbn [elems]. rewrite Hv. cbn [String.append skip_ws].
    change (json_space ",") with false. cbn iota. change (Ascii.eqb "," "]") with false. change (Ascii.eqb "," ",") with true.
    cbn iota. change (String "]" rest) with ("]" +:+ rest). rewrite IH; [|done|done|cbn in *; lia].
    by rewrite <- app_assoc.
Qed.

Definition member_text (kv : string * any) : string := json_string kv.1 +:+ ":" +:+ Marshal kv.2.

Lemma mset_fresh {A} k (v : A) m : k ∉ m.*1 -> mset k v m = (m ++ [(k, v)])%list.
Proof.
  induction m as [|[k' v'] m IH]; [done|]. intros H. cbn in *.
  destruct (String.eqb_spec k k') as [->|_]; [set_solver|]. rewrite IH by set_solver. done.
Qed.

Lemma member_step n first acc k v rest :
  reads v -> k ∉ acc.*1 ->
  members (S n) first acc (member_text (k, v) +:+ rest) =
  match skip_ws rest with
  | EmptyString => None
  | String d r4 =>
      if Ascii.eqb d "}" then Some (VMap (acc ++ [(k, v)])%list, r4)
      else if Ascii.eqb d "," then members n false (acc ++ [(k, v)])%list r4
      else None
  end.
Proof.
  intros Hv Hk. unfold member_text, json_string, Quote. cbn [fst snd]. rewrite !append_assoc.
  unfold dquote at 1. cbn [String.append members skip_ws].
  change (json_space (ascii_of_nat 34)) with false. cbn iota. change (Ascii.eqb (ascii_of_nat 34) "}") with false.
  change (Ascii.eqb (ascii_of_nat 34) "034") with true. cbn [andb negb].
  rewrite parse_string_escape. cbn [String.append skip_ws]. change (json_space ":") with false. cbn iota.
  change (CutPrefix (String ":" (Marshal v +:+ rest)) ":") with (Some (Marshal v +:+ rest)). cbn iota.
  rewrite Hv, mset_fresh by done. done.
Qed.

Lemma members_reads m : forall n first acc rest,
  m <> [] -> Forall (fun kv => reads kv.2) m -> NoDup (acc ++ m)%list.*1 -> length m <= n ->
  members n first acc (Join (map member_text m) "," +:+ "}" +:+ rest) = Some (VMap (acc ++ m)%list, rest).
Proof.
  induction m as [|[k v] m IH]; intros n first acc rest Hne Hall Hnd Hn; [done|].
  apply Forall_cons in Hall as [Hv Hall]. destruct n as [|n]; [cbn in Hn; lia|].
  assert (Hk : k ∉ acc.*1).
  { rewrite fmap_app in Hnd. apply NoDup_app in Hnd as (_ & Hd & _). intros Hin. apply (Hd _ Hin). set_solver. }
  destruct m as [|kv m].
  - cbn [map Join]. rewrite member_step by done. done.
  - change (Join (map member_text ((k, v) :: kv :: m)) ",") with
      (member_text (k, v) +:+ "," +:+ Join (map member_text (kv :: m)) ",").
    rewrite !append_assoc, member_step by done. cbn [String.append skip_ws].
    change (json_space ",") with false. cbn iota. change (Ascii.eqb "," "}") with false. change (Ascii.eqb "," ",") with true.
    cbn iota. change (String "}" rest) with ("}" +:+ rest).
    rewrite IH; [|done|done| |cbn in *; lia]; rewrite <- app_assoc; done.
Qed.
End Loops.

Lemma parse_value_list fuel s :
  parse_value (S fuel) (String "[" s) =
  match CutPrefix (skip_ws s) "]" with
  | Some r => Some (VList [], r)
  | None => elems (parse_value fuel) fuel [] s
  end.
Proof. reflexivity. Qed.

Lemma parse_value_map fuel s : parse_value (S fuel) (String "{" s) = members (parse_value fuel) fuel true [] s.
Proof. reflexivity. Qed.

Lemma starts_value_no_bracket s : starts_value s -> CutPrefix s "]" = None.
Proof. intros (c & r & -> & _ & Hc & _). unfold CutPrefix. cbn [HasPrefix]. by rewrite ?Hc, ?(Ascii.eqb_sym "]"), ?Hc. Qed.

(** [Unmarshal] reads what [Marshal] wrote, whatever follows it. *)
Lemma parse_value_Marshal v : plain v = true ->
  forall fuel rest, String.length (Marshal v) < fuel -> parse_value fuel (Marshal v +:+ rest) = Some (v, rest).
Proof.
  induction v as [|b|z|f|s|l IH|m IH] using any_nested_ind; intros Hp fuel rest Hf; try done;
    (destruct fuel as [|fuel]; [lia|]).
  - done.
  - by destruct b.
  - cbn [Marshal]. unfold json_string, Quote. rewrite !append_assoc. unfold dquote at 1. cbn [String.append parse_value skip_ws].
    change (json_space (ascii_of_nat 34)) with false. cbn iota. change (Ascii.eqb (ascii_of_nat 34) "034") with true. cbn iota.
    by rewrite parse_string_escape.
  - cbn [Marshal plain] in *. cbn [String.append] in *. rewrite append_assoc, parse_value_list.
    destruct l as [|v l]; [done|].
    assert (Hst : starts_value (Join (map Marshal (v :: l)) "," +:+ "]" +:+ rest)).
    { cbn [forallb] in Hp. apply andb_true_iff in Hp as [Hp _].
      destruct l as [|v' l]; [by apply Marshal_starts|].
      change (Join (map Marshal (v :: v' :: l)) ",") with (Marshal v +:+ "," +:+ Join (map Marshal (v' :: l)) ",").
      rewrite append_assoc. by apply Marshal_starts. }
    rewrite (skip_ws_id _ Hst), (starts_value_no_bracket _ Hst).
    destruct (Join_bounds (map Marshal (v :: l)) ",") as [Hlen Hcount]; [done|].
    rewrite length_map in Hcount. cbn [String.length] in Hf. rewrite length_append_str in Hf. cbn [String.length] in Hf.
    rewrite elems_reads; [done|done| |lia].
    rewrite forallb_forall in Hp. rewrite List.Forall_forall in IH. rewrite List.Forall_forall in Hlen. apply List.Forall_forall.
    intros x Hx rest'. apply IH; [done|by apply Hp|]. specialize (Hlen (Marshal x) (in_map _ _ _ Hx)). lia.
  - cbn [Marshal plain] in *. rewrite !andb_true_iff, bool_decide_eq_true in Hp. destruct Hp as [[Hs Hnd] Hp].
    rewrite sort_keys_sorted in * by (by rewrite sorted_keys_map). rewrite map_map in *. cbn [fst snd] in *.
    change (map _ m) with (map member_text m) in *. cbn [String.append] in *. rewrite append_assoc, parse_value_map.
    destruct m as [|kv m]; [destruct fuel; [cbn in Hf; lia|done]|].
    destruct (Join_bounds (map member_text (kv :: m)) ",") as [Hlen Hcount]; [done|].
    rewrite length_map in Hcount. cbn [String.length] in Hf. rewrite length_append_str in Hf. cbn [String.length] in Hf.
    rewrite members_reads; [done|done| |done|lia].
    rewrite forallb_forall in Hp. rewrite List.Forall_forall in IH. rewrite List.Forall_forall in Hlen. apply List.Forall_forall.
    intros x Hx rest'. apply IH; [done|by apply Hp|]. specialize (Hlen (member_text x) (in_map _ _ _ Hx)).
    unfold member_text at 1 in Hlen. rewrite !length_append_str in Hlen. lia.
Qed.

Theorem Unmarshal_Marshal v : plain v = true -> Unmarshal (Marshal v) = Some v.
Proof.
  intros Hp. unfold Unmarshal. pose proof (parse_value_Marshal v Hp (S (String.length (Marshal v))) "" ltac:(lia)) as H.
  rewrite append_nil_r in H. by rewrite H.
Qed.

Lemma plain_json_ok v : plain v = true -> json_ok v = true.
Proof.
  induction v as [|b|z|f|s|l IH|m IH] using any_nested_ind; intros Hp; try done; cbn [plain json_ok] in *.
  - rewrite forallb_forall in *. rewrite List.Forall_forall in IH. eauto.
  - rewrite !andb_true_iff in Hp. destruct Hp as [_ Hp]. rewrite forallb_forall in *. rewrite List.Forall_forall in IH. eauto.
Qed.
