(* ===== verification/Reflect.v ===== *)
(** * Structs and rows by reflection

    [pkg/common/pkg/utils/reflect.go]: the columns of a struct type, the
    arguments of a statement that writes a value of it, and the destinations
    of a row that is read into one.  Types are descriptors; the fields of a
    value are addressed by the path of indexes that leads to them, as
    [reflect.Value] does, so that the addresses taken while the struct is
    walked are explicit.  A field of a type that is stored as JSON is
    represented by its JSON image. *)

From S2P Require Export Json GoTime JsonFacts.
From Stdlib Require Import Ascii.

Local Open Scope string_scope.
Local Open Scope list_scope.

(** ** Types and values *)

Record StructField := {
  f_Name : string; f_db : string; f_json : string; f_Exported : bool; f_Anonymous : bool;
}.

#[universes(template=no)]
Inductive gotype :=
| TString | TInt | TFloat | TBool | TUint8 | TInterface
| TTime                     (* time.Time *)
| TRawMessage               (* json.RawMessage *)
| TSlice (elem : gotype)
| TMap
| TPtr (elem : gotype)
| TStruct (fields : list (StructField * gotype)).

(** The value of a field that is no embedded struct. *)
#[universes(template=no)]
Inductive goval :=
| GNil
| GString (s : string) | GInt (z : Z) | GFloat (f : f64) | GBool (b : bool)
| GTime (t : Time)
| GBytes (b : string)       (* []byte, json.RawMessage *)
| GPtr (v : goval)          (* a pointer that is not nil *)
| GJson (v : any).          (* a map, slice, struct or pointer to one *)

Abbreviation path := (list nat).
Abbreviation object := (gmap (list nat) goval).

Definition field (o : object) (p : path) : goval := default GNil (o !! p).

Definition is_struct (t : gotype) : bool :=
  match t with TStruct _ | TTime => true | _ => false end.

(** ** Names *)

(** [strings.Split(tag, ",")[0]] *)
Definition tag_name (tag : string) : string :=
  match IndexByte tag "," with Some i => stake i tag | None => tag end.

Definition is_upper (c : ascii) : bool := ((65 <=? nat_of_ascii c) && (nat_of_ascii c <=? 90))%nat.

Fixpoint snake (first : bool) (s : string) : string :=
  match s with
  | EmptyString => ""
  | String c s => (if negb first && is_upper c then "_" else "") +:+ String c (snake false s)
  end.

Definition ToSnakeCase (s : string) : string := ToLower (snake true s).

Definition ColName (f : StructField) : string :=
  if negb (String.eqb (f_db f) "") then tag_name (f_db f)
  else
    let n := tag_name (f_json f) in
    if negb (String.eqb (f_json f) "") && negb (String.eqb n "") && negb (String.eqb n "-") then n
    else ToSnakeCase (f_Name f).

Definition IsJSONType (ft : gotype) : bool :=
  match ft with
  | TRawMessage => false
  | TMap => true
  | TSlice TUint8 => false
  | TSlice _ => true
  | TStruct _ => true
  | TPtr (TStruct _) => true
  | _ => false
  end.

Definition isTimeField (ft : gotype) : bool :=
  match ft with TTime | TPtr TTime => true | _ => false end.

(** ** Writing: [StructFields] *)

(** What is handed to the driver: the value of the field itself, the bytes of
    its JSON, the text of its time, or nil. *)
Inductive arg :=
| AValue (v : goval) | ABytes (b : string) | AText (s : string) | ANil.

Definition field_arg (ft : gotype) (v : goval) : arg :=
  if IsJSONType ft then
    match v with
    | GJson j => ABytes (if json_ok j then Marshal j else "[]")
    | _ => ABytes "null"
    end
  else
    match ft, v with
    | TTime, GTime t => AText (Format DateTime t)
    | TPtr TTime, GPtr (GTime t) => AText (Format DateTime t)
    | TPtr TTime, _ => ANil
    | _, _ => AValue v
    end.

(** A field the walk takes: its column is named and not seen before. *)
Definition takes (f : StructField) (seen : gset string) : bool :=
  f_Exported f && negb (f_Anonymous f) &&
  negb (String.eqb (ColName f) "") && negb (String.eqb (ColName f) "-") && negb (bool_decide (ColName f ∈ seen)).

Definition embeds (f : StructField) (ft : gotype) : bool :=
  f_Exported f && f_Anonymous f && is_struct ft.

Record collected := { c_cols : list string; c_args : list arg; c_seen : gset string }.

Section Collect.
Variable o : object.

(** The first pass: the fields of the struct itself. *)
Fixpoint collect_own (p : path) (i : nat) (fs : list (StructField * gotype)) (st : collected) : collected :=
  match fs with
  | [] => st
  | (f, ft) :: fs =>
      collect_own p (S i) fs
        (if takes f (c_seen st) then
           {| c_cols := c_cols st ++ [ColName f];
              c_args := c_args st ++ [field_arg ft (field o (p ++ [i]))];
              c_seen := {[ColName f]} ∪ c_seen st |}
         else st)
  end.

(** ... and the second: those of the embedded structs. *)
Fixpoint collectFields (t : gotype) (p : path) (st : collected) {struct t} : collected :=
  match t with
  | TStruct fs =>
      (fix embedded (i : nat) (fs : list (StructField * gotype)) (st : collected) : collected :=
         match fs with
         | [] => st
         | (f, ft) :: fs =>
             embedded (S i) fs (if embeds f ft then collectFields ft (p ++ [i]) st else st)
         end) 0 fs (collect_own p 0 fs st)
  | _ => st
  end.

(** [StructFields] of a struct; a value of another kind has no fields. *)
Definition StructFields (t : gotype) : list string * list arg :=
  let st := collectFields t [] {| c_cols := []; c_args := []; c_seen := ∅ |} in (c_cols st, c_args st).
End Collect.

(** [Columns[T]()]: the names do not depend on the value. *)
Definition Columns (t : gotype) : string := Join (StructFields ∅ t).1 ",".

(** ** Reading: [ScanStruct] *)

Record scanEntry := { se_field : path; se_type : gotype; se_json : bool; se_time : bool }.

Definition entry_of (p : path) (ft : gotype) : scanEntry :=
  {| se_field := p; se_type := ft; se_json := IsJSONType ft; se_time := negb (IsJSONType ft) && isTimeField ft |}.

Record scanned := { s_entries : list scanEntry; s_seen : gset string }.

Fixpoint scan_own (p : path) (i : nat) (fs : list (StructField * gotype)) (st : scanned) : scanned :=
  match fs with
  | [] => st
  | (f, ft) :: fs =>
      scan_own p (S i) fs
        (if takes f (s_seen st) then
           {| s_entries := s_entries st ++ [entry_of (p ++ [i]) ft]; s_seen := {[ColName f]} ∪ s_seen st |}
         else st)
  end.

Fixpoint collectScanFields (t : gotype) (p : path) (st : scanned) {struct t} : scanned :=
  match t with
  | TStruct fs =>
      (fix embedded (i : nat) (fs : list (StructField * gotype)) (st : scanned) : scanned :=
         match fs with
         | [] => st
         | (f, ft) :: fs =>
             embedded (S i) fs (if embeds f ft then collectScanFields ft (p ++ [i]) st else st)
         end) 0 fs (scan_own p 0 fs st)
  | _ => st
  end.

Definition scan_entries (t : gotype) : list scanEntry :=
  s_entries (collectScanFields t [] {| s_entries := []; s_seen := ∅ |}).

(** A value a driver hands over for a column. *)
Inductive sqlval :=
| SNull | SInt (z : Z) | SReal (f : f64) | SBool (b : bool) | SText (s : string) | SBlob (b : string)
| STime (t : Time).

(** [timeFieldScanner]: what [Scan] puts into a field of the type. *)
Definition time_set (ft : gotype) (t : Time) (zeroOrNil : bool) : goval :=
  match ft with
  | TPtr _ => if zeroOrNil then GNil else GPtr (GTime t)
  | _ => GTime t
  end.

Definition scan_time_text (ft : gotype) (s : string) : res goval :=
  if String.eqb s "" then Ok (time_set ft zero_time true)
  else match ParseTime s with Ok t => Ok (time_set ft t false) | Err e => Err e end.

Definition timeFieldScanner_Scan (ft : gotype) (src : sqlval) : res goval :=
  match src with
  | SNull => Ok (time_set ft zero_time true)
  | STime t => Ok (time_set ft t false)
  | SText s | SBlob s => scan_time_text ft s
  | SInt _ => Err "unsupported time scan source int64"
  | SReal _ => Err "unsupported time scan source float64"
  | SBool _ => Err "unsupported time scan source bool"
  end.

(** database/sql's [convertAssign] into a variable of the type: [None] is an
    error. *)
Definition as_string (v : sqlval) : option string :=
  match v with
  | SText s | SBlob s => Some s
  | SInt z => Some (Itoa z)
  | SBool b => Some (if b then "true" else "false")
  | SReal f => Some (FormatFloat f)
  | SNull | STime _ => None
  end.

Definition ParseBool (s : string) : option bool :=
  if existsb (String.eqb s) ["1"; "t"; "T"; "TRUE"; "true"; "True"] then Some true
  else if existsb (String.eqb s) ["0"; "f"; "F"; "FALSE"; "false"; "False"] then Some false
  else None.

Fixpoint convertAssign (ft : gotype) (v : sqlval) : option goval :=
  match ft with
  | TString => option_map GString (as_string v)
  | TInt => match as_string v with Some s => option_map GInt (Atoi s) | None => None end
  | TFloat =>
      match v with
      | SReal f => Some (GFloat f)
      | _ => match as_string v with Some s => option_map GFloat (ParseFloat s) | None => None end
      end
  | TBool =>
      match v with
      | SBool b => Some (GBool b)
      | SInt z => if Z.eqb z 0 then Some (GBool false) else if Z.eqb z 1 then Some (GBool true) else None
      | SText s | SBlob s => option_map GBool (ParseBool s)
      | _ => None
      end
  | TSlice TUint8 =>
      match v with SNull => Some GNil | _ => option_map GBytes (as_string v) end
  | TRawMessage => match v with SBlob b => Some (GBytes b) | _ => None end
  | TPtr t => match v with SNull => Some GNil | _ => option_map GPtr (convertAssign t v) end
  | _ => None
  end.

(** The variable a column is read into, then what [Scan] leaves in it; the
    columns of JSON fields are read into byte slices of their own. *)
Inductive cell := CField (v : goval) | CBytes (b : string).

Definition scan_cell (e : scanEntry) (v : sqlval) : res cell :=
  if se_json e then
    match v with
    | SNull => Ok (CBytes "")
    | _ => match as_string v with Some b => Ok (CBytes b) | None => Err "unsupported Scan" end
    end
  else if se_time e then
    match timeFieldScanner_Scan (se_type e) v with Ok v => Ok (CField v) | Err e => Err e end
  else
    match convertAssign (se_type e) v with Some v => Ok (CField v) | None => Err "unsupported Scan" end.

(** [scanner.Scan(ptrs...)] of one row, and the fields it is read into: the
    first column that cannot be converted is the error. *)
Fixpoint scan_row (es : list scanEntry) (vs : list sqlval) (o : object) (jsons : list (scanEntry * string))
    : res (object * list (scanEntry * string)) :=
  match es, vs with
  | [], [] => Ok (o, jsons)
  | e :: es, v :: vs =>
      match scan_cell e v with
      | Err x => Err x
      | Ok (CField v) => scan_row es vs (<[se_field e := v]> o) jsons
      | Ok (CBytes b) => scan_row es vs o (jsons ++ [(e, b)])
      end
  | _, _ => Err "sql: expected a different number of destination arguments in Scan"
  end.

(** [json.Unmarshal] into a field of the type: the kinds of value it takes
    (their elements are taken to fit). *)
Definition json_fits (ft : gotype) (j : any) : bool :=
  match ft, j with
  | TMap, (VMap _ | VNil) | TSlice _, (VList _ | VNil) | TPtr _, (VMap _ | VNil) | TStruct _, VMap _ => true
  | _, _ => false
  end.

(** The JSON columns: what is empty, does not parse or does not fit leaves
    the field. *)
Definition fill_json (o : object) (eb : scanEntry * string) : object :=
  if String.eqb eb.2 "" then o
  else match Unmarshal eb.2 with
       | Some j => if json_fits (se_type eb.1) j then <[se_field eb.1 := GJson j]> o else o
       | None => o
       end.

Definition ScanStruct (t : gotype) (row : list sqlval) (o : object) : res object :=
  match t with
  | TStruct _ =>
      match scan_row (scan_entries t) row o [] with
      | Err e => Err e
      | Ok (o, jsons) => Ok (fold_left fill_json jsons o)
      end
  | _ => Err "dest must be *struct"
  end.

(** ** Identifiers *)

Definition ident_start (c : ascii) : bool :=
  is_upper c || ((97 <=? nat_of_ascii c) && (nat_of_ascii c <=? 122))%nat || Ascii.eqb c "_".
Definition ident_char (c : ascii) : bool :=
  ident_start c || match digit_val c with Some _ => true | None => false end.

Fixpoint all_chars (f : ascii -> bool) (s : string) : bool :=
  match s with EmptyString => true | String c s => f c && all_chars f s end.

(** [sqlIdentRe] *)
Definition is_ident (s : string) : bool :=
  match s with String c r => ident_start c && all_chars ident_char r | EmptyString => false end.

Fixpoint ValidateIdent (names : list string) : option string :=
  match names with
  | [] => None
  | n :: ns => if is_ident n then ValidateIdent ns else Some ("invalid SQL identifier: " +:+ Quote n)
  end.

(** * What a store writes it reads back

    The columns a statement names and the fields a row is read into are the
    same, in the same order ([columns_match_fields]); a value that was bound
    to a statement and comes back from an engine is the value, its times to
    the second and in UTC ([ScanStruct_StructFields]). *)

(** ** Induction on types *)

Definition has_fields (t : gotype) : bool := match t with TStruct _ => true | _ => false end.

Section GotypeInd.
Variable P : gotype -> Prop.
Hypothesis Hbase : forall t, has_fields t = false -> P t.
Hypothesis Hstruct : forall fs, Forall (fun x => P x.2) fs -> P (TStruct fs).

Fixpoint gotype_nested_ind (t : gotype) : P t :=
  match t with
  | TStruct fs =>
      Hstruct fs ((fix go l : Forall (fun x => P x.2) l :=
                     match l with [] => List.Forall_nil _ | x :: l => List.Forall_cons _ _ _ (gotype_nested_ind x.2) (go l) end) fs)
  | TString => Hbase TString eq_refl | TInt => Hbase TInt eq_refl | TFloat => Hbase TFloat eq_refl
  | TBool => Hbase TBool eq_refl | TUint8 => Hbase TUint8 eq_refl | TInterface => Hbase TInterface eq_refl
  | TTime => Hbase TTime eq_refl | TRawMessage => Hbase TRawMessage eq_refl | TMap => Hbase TMap eq_refl
  | TSlice t => Hbase (TSlice t) eq_refl | TPtr t => Hbase (TPtr t) eq_refl
  end.
End GotypeInd.

(** The field a path leads to. *)
Fixpoint field_at (t : gotype) (p : path) : option (StructField * gotype) :=
  match p, t with
  | [i], TStruct fs => fs !! i
  | i :: p, TStruct fs => match fs !! i with Some (_, ft) => field_at ft p | None => None end
  | _, _ => None
  end.

Lemma field_at_cons fs i f ft p :
  fs !! i = Some (f, ft) -> p <> [] -> field_at (TStruct fs) (i :: p) = field_at ft p.
Proof. intros Hi Hp. destruct p; [done|]. cbn. by rewrite Hi. Qed.

(** ** The two walks take the same fields *)

Section Walks.
Variables (o : object) (root : gotype).

Definition names_entry (c : string) (e : scanEntry) : Prop :=
  exists f, field_at root (se_field e) = Some (f, se_type e) /\ ColName f = c /\
            e = entry_of (se_field e) (se_type e).

Record in_step (st : collected) (sc : scanned) : Prop := {
  is_seen : c_seen st = s_seen sc;
  is_args : c_args st = map (fun e => field_arg (se_type e) (field o (se_field e))) (s_entries sc);
  is_names : Forall2 names_entry (c_cols st) (s_entries sc);
  is_nodup : NoDup (c_cols st);
  is_dom : forall c, c ∈ c_cols st <-> c ∈ c_seen st;
}.

Lemma own_in_step p fs : forall i st sc,
  (forall j x, fs !! j = Some x -> field_at root (p ++ [i + j]) = Some x) ->
  in_step st sc -> in_step (collect_own o p i fs st) (scan_own p i fs sc).
Proof.
  induction fs as [|[f ft] fs IH]; intros i st sc Hat H; [done|]. cbn [collect_own scan_own].
  apply IH.
  { intros j x Hj. replace (S i + j) with (i + S j) by lia. by apply Hat. }
  rewrite <- (is_seen _ _ H). destruct (takes f (c_seen st)) eqn:Et; [|done].
  unfold takes in Et. rewrite !andb_true_iff, !negb_true_iff, bool_decide_eq_false in Et.
  destruct Et as [_ Hnew]. constructor; cbn [c_seen s_seen c_args s_entries c_cols].
  - by rewrite (is_seen _ _ H).
  - rewrite map_app, (is_args _ _ H). done.
  - apply Forall2_app; [apply H|]. constructor; [|done]. exists f. cbn [entry_of se_field se_type].
    split; [|done]. specialize (Hat 0 (f, ft) eq_refl). by rewrite Nat.add_0_r in Hat.
  - apply NoDup_app. split; [apply H|]. split; [|apply NoDup_singleton].
    intros c Hc ->%list_elem_of_singleton. apply Hnew. by apply (is_dom _ _ H).
  - intros c. rewrite elem_of_app, list_elem_of_singleton, elem_of_union, elem_of_singleton, (is_dom _ _ H). tauto.
Qed.

Lemma walks_in_step t : forall p st sc,
  (forall q, q <> [] -> field_at root (p ++ q) = field_at t q) ->
  in_step st sc -> in_step (collectFields o t p st) (collectScanFields t p sc).
Proof.
  induction t as [t Ht|fs IH] using gotype_nested_ind; intros p st sc Hat H.
  { by destruct t. }
  cbn [collectFields collectScanFields].
  match goal with |- in_step (?F 0 fs _) (?G 0 fs _) =>
    assert (Hemb : forall gs i st sc,
      (forall j x, gs !! j = Some x -> fs !! (i + j) = Some x) ->
      Forall (fun x => forall p st sc, (forall q, q <> [] -> field_at root (p ++ q) = field_at x.2 q) ->
                         in_step st sc -> in_step (collectFields o x.2 p st) (collectScanFields x.2 p sc)) gs ->
      in_step st sc -> in_step (F i gs st) (G i gs sc))
  end.
  { clear IH H st sc. induction gs as [|[f ft] gs IHg]; intros i st sc Hi IH H; [done|].
    apply Forall_cons in IH as [IHf IH]. apply (IHg (S i)); [|done|].
    { intros j x Hj. replace (S i + j) with (i + S j) by lia. by apply Hi. }
    destruct (embeds f ft); [|done]. apply IHf; [|done].
    intros q Hq. rewrite <- app_assoc. cbn [app]. rewrite Hat by done.
    apply (field_at_cons _ _ f); [|done]. specialize (Hi 0 (f, ft) eq_refl). by rewrite Nat.add_0_r in Hi. }
  apply Hemb; [done|done|].
  apply own_in_step; [|done]. intros j x Hj. rewrite Hat by done. exact Hj.
Qed.
End Walks.

Lemma struct_in_step o t :
  in_step o t (collectFields o t [] {| c_cols := []; c_args := []; c_seen := ∅ |})
    (collectScanFields t [] {| s_entries := []; s_seen := ∅ |}).
Proof.
  apply walks_in_step; [done|]. constructor; cbn; [done|done|constructor|constructor|set_solver].
Qed.

(** The columns are distinct, so are the fields; the [i]-th argument of a
    statement is the value of the field the [i]-th column of a row is read
    into, the one its name comes from. *)
Lemma columns_match_fields o t :
  NoDup (StructFields o t).1 /\ NoDup (map se_field (scan_entries t)) /\
  Forall2 (names_entry t) (StructFields o t).1 (scan_entries t) /\
  (StructFields o t).2 = map (fun e => field_arg (se_type e) (field o (se_field e))) (scan_entries t).
Proof.
  destruct (struct_in_step o t) as [_ Ha Hn Hnd _]. unfold StructFields, scan_entries. cbn [fst snd].
  split; [done|]. split; [|done].
  clear Ha. induction Hn as [|c e cs es (f & Hf & Hc & He) Hn IH]; [constructor|].
  apply NoDup_cons in Hnd as [Hni Hnd]. cbn [map]. apply NoDup_cons. split; [|by apply IH].
  intros (e' & Ee & He')%list_elem_of_fmap. apply Hni.
  apply list_elem_of_lookup in He' as [i Hi]. eapply Forall2_lookup_r in Hn as (c' & Hc' & f' & Hf' & Hc'' & _); [|done].
  rewrite Ee, Hf' in Hf. injection Hf as <- _. subst c c'. by eapply list_elem_of_lookup_2.
Qed.

(** The names do not depend on the value. *)
Lemma StructFields_names o o' t : (StructFields o t).1 = (StructFields o' t).1.
Proof.
  destruct (columns_match_fields o t) as (_ & _ & H1 & _), (columns_match_fields o' t) as (_ & _ & H2 & _).
  revert H1 H2. generalize (StructFields o t).1 (StructFields o' t).1 (scan_entries t). intros cs cs' es H1. revert cs'.
  induction H1 as [|c e cs es (f & Hf & Hc & _) H1 IH]; intros cs' H2; inversion H2 as [|c' ? cs2 ? (f' & Hf' & Hc' & _) ?]; subst; [done|].
  rewrite Hf in Hf'. injection Hf' as ->. f_equal. by apply IH.
Qed.

(** ** Engines

    What a column holds after an argument was bound to it, as its driver hands
    it over: texts are texts, bytes come back as bytes or as a text, a
    Boolean as one or as 0 and 1; pointers are followed. *)
Class SqlEngine := {
  column_value : arg -> sqlval;
  engine_text : forall s, column_value (AText s) = SText s;
  engine_string : forall s, column_value (AValue (GString s)) = SText s;
  engine_bytes : forall b, column_value (ABytes b) ∈ [SText b; SBlob b];
  engine_raw : forall b, column_value (AValue (GBytes b)) = SBlob b;
  engine_nil : column_value ANil = SNull /\ column_value (AValue GNil) = SNull;
  engine_int : forall z, column_value (AValue (GInt z)) = SInt z;
  engine_real : forall f, column_value (AValue (GFloat f)) = SReal f;
  engine_bool : forall b, column_value (AValue (GBool b)) ∈ [SBool b; SInt (if b then 1 else 0)];
  engine_ptr : forall v, column_value (AValue (GPtr v)) = column_value (AValue v);
}.

(** One that keeps Booleans as integers, as SQLite does. *)
Fixpoint sqlite_value (v : goval) : sqlval :=
  match v with
  | GString s => SText s | GInt z => SInt z | GFloat f => SReal f
  | GBool b => SInt (if b then 1 else 0)
  | GBytes b => SBlob b | GPtr v => sqlite_value v
  | _ => SNull
  end.

#[refine, export] Instance sqlite_engine : SqlEngine := {
  column_value a :=
    match a with AValue v => sqlite_value v | ABytes b => SBlob b | AText s => SText s | ANil => SNull end;
}.
Proof. all: intros; cbn; first [done | by right; left | by split | idtac]; set_solver. Defined.

(** ** Values that come back *)

Definition json_stable (j : any) : Prop := json_ok j = true /\ Unmarshal (Marshal j) = Some j.

(** A value of a field of the type that is kept as it is, or, a time, to the
    second of its wall clock. *)
Inductive storable : gotype -> goval -> Prop :=
| st_json ft j : IsJSONType ft = true -> json_fits ft j = true -> json_stable j -> storable ft (GJson j)
| st_string s : storable TString (GString s)
| st_int z : in_i64 z = true -> storable TInt (GInt z)
| st_float f : storable TFloat (GFloat f)
| st_bool b : storable TBool (GBool b)
| st_bytes b : storable (TSlice TUint8) (GBytes b)
| st_raw b : storable TRawMessage (GBytes b)
| st_time t : (0 <= year_of t <= 9999)%Z -> storable TTime (GTime t)
| st_nil_time : storable (TPtr TTime) GNil
| st_ptr_time t : (0 <= year_of t <= 9999)%Z -> storable (TPtr TTime) (GPtr (GTime t))
| st_nil ft : ft ∈ [TString; TFloat; TBool] -> storable (TPtr ft) GNil
| st_ptr_string s : storable (TPtr TString) (GPtr (GString s))
| st_ptr_float f : storable (TPtr TFloat) (GPtr (GFloat f))
| st_ptr_bool b : storable (TPtr TBool) (GPtr (GBool b)).

Fixpoint comes_back (v : goval) : goval :=
  match v with GTime t => GTime (stored_time t) | GPtr v => GPtr (comes_back v) | v => v end.

Definition entry_cell (e : scanEntry) (v : goval) : cell :=
  if se_json e then match v with GJson j => CBytes (Marshal j) | _ => CBytes "" end else CField (comes_back v).

Lemma plain_stable j : plain j = true -> json_stable j.
Proof. intros H. split; [by apply plain_json_ok|by apply Unmarshal_Marshal]. Qed.

Lemma Marshal_nonempty j : json_stable j -> Marshal j <> "".
Proof. intros [_ H] E. rewrite E in H. discriminate H. Qed.

Section RoundTrip.
Context `{SqlEngine}.

Lemma bool_back b : convertAssign TBool (column_value (AValue (GBool b))) = Some (GBool b).
Proof.
  pose proof (engine_bool b) as Hb. rewrite elem_of_cons, list_elem_of_singleton in Hb.
  destruct Hb as [-> | ->]; [done|by destruct b].
Qed.

Lemma time_back ft t :
  (0 <= year_of t <= 9999)%Z -> scan_time_text ft (Format DateTime t) = Ok (time_set ft (stored_time t) false).
Proof.
  intros Ht. unfold scan_time_text. pose proof (ParseTime_Format t Ht) as E.
  destruct (String.eqb_spec (Format DateTime t) "") as [E'|_]; [rewrite E' in E; discriminate E|by rewrite E].
Qed.

Lemma storable_comes_back p ft v :
  storable ft v -> scan_cell (entry_of p ft) (column_value (field_arg ft v)) = Ok (entry_cell (entry_of p ft) v).
Proof.
  intros Hs. destruct engine_nil as [Hn1 Hn2]. unfold scan_cell, entry_cell.
  destruct Hs as [ft j Hj Hf [Hok Hst]| | | | | | |t Ht| |t Ht|ft Hft| | |b]; cbn [entry_of se_json se_time se_type IsJSONType isTimeField negb andb].
  - rewrite Hj. unfold field_arg. rewrite Hj, Hok.
    pose proof (engine_bytes (Marshal j)) as Hb. rewrite elem_of_cons, list_elem_of_singleton in Hb.
    by destruct Hb as [-> | ->].
  - cbn [field_arg IsJSONType]. by rewrite engine_string.
  - cbn [field_arg IsJSONType]. rewrite engine_int. cbn [convertAssign as_string]. by rewrite Atoi_Itoa.
  - cbn [field_arg IsJSONType]. by rewrite engine_real.
  - cbn [field_arg IsJSONType]. by rewrite bool_back.
  - cbn [field_arg IsJSONType]. by rewrite engine_raw.
  - cbn [field_arg IsJSONType]. by rewrite engine_raw.
  - cbn [field_arg IsJSONType]. rewrite engine_text. cbn [timeFieldScanner_Scan]. by rewrite time_back.
  - cbn [field_arg IsJSONType]. by rewrite Hn1.
  - cbn [field_arg IsJSONType]. rewrite engine_text. cbn [timeFieldScanner_Scan]. by rewrite time_back.
  - rewrite !elem_of_cons, elem_of_nil in Hft. destruct Hft as [->|[->|[->|[]]]]; cbn [field_arg IsJSONType isTimeField]; by rewrite Hn2.
  - cbn [field_arg IsJSONType isTimeField]. by rewrite engine_ptr, engine_string.
  - cbn [field_arg IsJSONType isTimeField]. by rewrite engine_ptr, engine_real.
  - cbn [field_arg IsJSONType isTimeField negb andb].
    assert (Hp : forall x, column_value (AValue (GPtr (GBool b))) = x -> x <> SNull ->
                   convertAssign (TPtr TBool) x = option_map GPtr (convertAssign TBool x)) by (intros [] ??; done).
    rewrite (Hp _ eq_refl), engine_ptr, bool_back; [done|].
    rewrite engine_ptr. intros E. pose proof (bool_back b) as Hb. rewrite E in Hb. discriminate Hb.
Qed.

Lemma storable_json ft v :
  storable ft v -> IsJSONType ft = true -> exists j, v = GJson j /\ json_fits ft j = true /\ json_stable j.
Proof.
  intros Hs Hj. destruct Hs as [ft j _ Hf Hst| | | | | | | | | |ft Hft| | |]; try discriminate Hj; [by exists j|].
  rewrite !elem_of_cons, elem_of_nil in Hft. by destruct Hft as [->|[->|[->|[]]]].
Qed.

Section Row.
Variable val : scanEntry -> goval.

Definition bound_value (e : scanEntry) : sqlval := column_value (field_arg (se_type e) (val e)).
Definition json_text (e : scanEntry) : string := match val e with GJson j => Marshal j | _ => "" end.
Definition json_cells (es : list scanEntry) : list (scanEntry * string) :=
  map (fun e => (e, json_text e)) (List.filter se_json es).

Definition good_entry (e : scanEntry) : Prop :=
  e = entry_of (se_field e) (se_type e) /\ storable (se_type e) (val e).

Lemma scan_row_back es : forall o js,
  Forall good_entry es -> NoDup (map se_field es) ->
  exists o', scan_row es (map bound_value es) o js = Ok (o', js ++ json_cells es) /\
    (forall e, e ∈ es -> se_json e = false -> o' !! se_field e = Some (comes_back (val e))) /\
    (forall p, (forall e, e ∈ es -> se_json e = false -> se_field e <> p) -> o' !! p = o !! p).
Proof.
  induction es as [|e es IH]; intros o js Hall Hnd.
  { exists o. cbn. rewrite app_nil_r. split_and!; [done|intros ? []%not_elem_of_nil|done]. }
  apply Forall_cons in Hall as [[He Hs] Hall]. cbn [map] in Hnd. apply NoDup_cons in Hnd as [Hni Hnd].
  cbn [map scan_row]. unfold bound_value at 1.
  pose proof (storable_comes_back (se_field e) (se_type e) (val e) Hs) as Hc. rewrite <- He in Hc. rewrite Hc.
  unfold json_cells, entry_cell, json_text. cbn [List.filter]. destruct (se_json e) eqn:Ej.
  - assert (Hj : exists b, match val e with GJson j => CBytes (Marshal j) | _ => CBytes "" end = CBytes b /\
                           b = match val e with GJson j => Marshal j | _ => "" end) by (destruct (val e); eauto).
    destruct Hj as (b & -> & Eb). destruct (IH o (js ++ [(e, b)]) Hall Hnd) as (o' & E & Hin & Hout).
    exists o'. rewrite E. split; [|split].
    + cbn [map]. rewrite <- Eb, <- app_assoc. done.
    + intros e' [->|He']%elem_of_cons Hj'; [congruence|by apply Hin].
    + intros p Hp. apply Hout. intros e' He'. apply Hp. by right.
  - destruct (IH (<[se_field e := comes_back (val e)]> o) js Hall Hnd) as (o' & E & Hin & Hout).
    exists o'. rewrite E. split; [done|split].
    + intros e' [->|He']%elem_of_cons Hj'; [|by apply Hin].
      rewrite Hout; [apply lookup_insert_eq|]. intros e' He' _ Ef. apply Hni. rewrite <- Ef. by apply list_elem_of_fmap_2.
    + intros p Hp. rewrite Hout; [|intros e' He'; apply Hp; by right].
      apply lookup_insert_ne. apply Hp; [left|done].
Qed.

Lemma fill_back es : forall o,
  Forall good_entry es -> Forall (fun e => se_json e = true) es -> NoDup (map se_field es) ->
  let o' := fold_left fill_json (map (fun e => (e, json_text e)) es) o in
  (forall e, e ∈ es -> o' !! se_field e = Some (comes_back (val e))) /\
  (forall p, p ∉ map se_field es -> o' !! p = o !! p).
Proof.
  induction es as [|e es IH]; intros o Hall Hjs Hnd; cbn zeta; [split; [intros ? []%not_elem_of_nil|done]|].
  apply Forall_cons in Hall as [[He Hs] Hall]. apply Forall_cons in Hjs as [Hj Hjs].
  cbn [map] in Hnd. apply NoDup_cons in Hnd as [Hni Hnd]. cbn [map fold_left].
  assert (Hstep : fill_json o (e, json_text e) = <[se_field e := comes_back (val e)]> o).
  { rewrite He in Hj. cbn [entry_of se_json] in Hj.
    destruct (storable_json _ _ Hs Hj) as (j & Ev & Hf & Hst). unfold fill_json, json_text. rewrite Ev. cbn [fst snd].
    destruct (String.eqb_spec (Marshal j) "") as [E|_]; [by apply Marshal_nonempty in E|].
    destruct Hst as [_ ->]. by rewrite Hf. }
  rewrite Hstep. destruct (IH (<[se_field e := comes_back (val e)]> o) Hall Hjs Hnd) as [Hin Hout]. split.
  - intros e' [->|He']%elem_of_cons; [|by apply Hin]. rewrite Hout by done. apply lookup_insert_eq.
  - intros p Hp. rewrite Hout by set_solver. apply lookup_insert_ne. set_solver.
Qed.
End Row.

Lemma NoDup_filter_fields (f : scanEntry -> bool) es : NoDup (map se_field es) -> NoDup (map se_field (List.filter f es)).
Proof.
  induction es as [|e es IH]; [done|]. cbn [map List.filter]. intros [Hni Hnd]%NoDup_cons.
  destruct (f e); [|by apply IH]. cbn [map]. apply NoDup_cons. split; [|by apply IH].
  intros (e' & Ee & He')%list_elem_of_fmap. apply Hni. rewrite Ee. apply list_elem_of_fmap_2.
  apply list_elem_of_In in He'. apply filter_In in He' as [He' _]. by apply list_elem_of_In.
Qed.

Lemma entry_unique es e e' :
  NoDup (map se_field es) -> e ∈ es -> e' ∈ es -> se_field e = se_field e' -> e = e'.
Proof.
  intros Hnd [i Hi]%list_elem_of_lookup [j Hj]%list_elem_of_lookup E.
  assert (i = j) as ->; [|congruence].
  eapply NoDup_lookup; [exact Hnd| |]; rewrite list_lookup_fmap; [by rewrite Hi|rewrite Hj; cbn; by rewrite E].
Qed.

Lemma entries_good t o :
  Forall (fun e => storable (se_type e) (field o (se_field e))) (scan_entries t) ->
  Forall (good_entry (fun e => field o (se_field e))) (scan_entries t).
Proof.
  rewrite !List.Forall_forall. intros Hs e He. split; [|by apply Hs].
  destruct (columns_match_fields o t) as (_ & _ & Hn & _).
  apply list_elem_of_In, list_elem_of_lookup in He as [i Hi].
  by eapply Forall2_lookup_r in Hn as (c & _ & f & _ & _ & He); [|done].
Qed.

(** What a struct was when its arguments were bound is what a row of those
    columns is read into; fields that are no columns keep what they were. *)
Lemma ScanStruct_StructFields t o o0 :
  has_fields t = true ->
  Forall (fun e => storable (se_type e) (field o (se_field e))) (scan_entries t) ->
  exists o', ScanStruct t (map column_value (StructFields o t).2) o0 = Ok o' /\
    (forall e, e ∈ scan_entries t -> field o' (se_field e) = comes_back (field o (se_field e))) /\
    (forall p, p ∉ map se_field (scan_entries t) -> o' !! p = o0 !! p).
Proof.
  intros Ht Hs. destruct (columns_match_fields o t) as (_ & Hnd & Hn & Ha). rewrite Ha, map_map.
  set (val := fun e => field o (se_field e)). set (es := scan_entries t) in *.
  pose proof (entries_good t o Hs) as Hgood. fold val es in Hgood.
  destruct (scan_row_back val es o0 [] Hgood Hnd) as (o1 & E & Hin & Hout).
  unfold ScanStruct. destruct t as [| | | | | | | | | | |fs]; try discriminate Ht.
  fold es. change (map (fun x => column_value (field_arg (se_type x) (field o (se_field x)))) es) with (map (bound_value val) es).
  rewrite E. cbn [app].
  set (js := List.filter se_json es).
  assert (Hjs : Forall (fun e => se_json e = true) js).
  { apply List.Forall_forall. intros e He. by apply filter_In in He as [_ He]. }
  assert (Hsub : forall e, e ∈ js <-> e ∈ es /\ se_json e = true) by (intros e; rewrite !list_elem_of_In; apply filter_In).
  pose proof (NoDup_filter_fields se_json es Hnd) as Hndj. fold js in Hndj.
  assert (Hgj : Forall (good_entry val) js).
  { apply List.Forall_forall. intros e He. apply list_elem_of_In, Hsub in He as [He _].
    rewrite List.Forall_forall in Hgood. by apply Hgood, list_elem_of_In. }
  destruct (fill_back val js o1 Hgj Hjs Hndj) as [Hin' Hout']. cbn zeta in Hin', Hout'.
  eexists. split; [reflexivity|]. split.
  - intros e He. unfold field at 1. destruct (se_json e) eqn:Ej.
    + unfold json_cells. fold js. by rewrite Hin' by (by apply Hsub).
    + unfold json_cells. fold js. rewrite Hout'; [by rewrite Hin|].
      intros (e' & Ee & [He' Hj']%Hsub)%list_elem_of_fmap.
      rewrite (entry_unique es e e' Hnd He He' Ee) in Ej. congruence.
  - intros p Hp. unfold json_cells. fold js. rewrite Hout', Hout; [done| |].
    + intros e He _ <-. apply Hp. by apply list_elem_of_fmap_2.
    + intros (e & -> & [He _]%Hsub)%list_elem_of_fmap. apply Hp. by apply list_elem_of_fmap_2.
Qed.
End RoundTrip.
