(* ===== verification/Sql.v ===== *)
(** * The generic stores over rows of columns

    [pkg/store/pkg/sqlite.go] and [postgres.go]: [Get], [Select], [Save] and
    [Delete] of a table, for a struct type and its key column, by the
    reflection of [Reflect]; and the reader of task rows of
    [task/task_sqlite.go], which does without it.  A row maps columns to what
    the engine hands over for them; the engine ([SqlEngine]) and the errors of
    its calls are parameters. *)

From S2P Require Export Reflect Store.
From stdpp Require Import sorting.
From Stdlib Require Import Ascii.

Local Open Scope string_scope.
Local Open Scope list_scope.

Abbreviation row := (gmap string sqlval).

(** A table: its columns with their defaults, and its rows. *)
Record table := { tb_columns : row; tb_rows : list row }.

Definition with_rows (tb : table) (rows : list row) : table :=
  {| tb_columns := tb_columns tb; tb_rows := rows |}.

(** [WHERE c = text] and [WHERE del_flag = 0] (or [= false]). *)
Definition text_is (v : option sqlval) (s : string) : bool :=
  match v with Some (SText t) => String.eqb t s | _ => false end.
Definition is_clear (v : option sqlval) : bool :=
  match v with Some (SInt z) => Z.eqb z 0 | Some (SBool b) => negb b | _ => false end.
Definition live_row (r : row) : bool := is_clear (r !! "del_flag").

(** The text [ORDER BY created_at DESC] compares. *)
Definition created_text (r : row) : string := match r !! "created_at" with Some (SText s) => s | _ => "" end.
Definition newer_row (a b : row) : Prop := String.leb (created_text b) (created_text a) = true.
#[export] Instance newer_row_dec : RelDecision newer_row := fun a b => decide (String.leb _ _ = true).

Section GenericStore.
Context `{SqlEngine}.
Variables (ty : gotype) (Table IDCol : string).
(** The error of a statement that names a column the table has not; of the
    connection. *)
Variables (no_column : string) (conn_err : option string).

Definition columns_known (cols : list string) (tb : table) : bool :=
  forallb (fun c => bool_decide (is_Some (tb_columns tb !! c))) cols.

(** A statement on columns, on a connection that works. *)
Definition run_sql {A} (cols : list string) (tb : table) (k : res A) : res A :=
  match conn_err with
  | Some e => Err e
  | None => if columns_known cols tb then k else Err no_column
  end.

Definition ty_cols : list string := (StructFields ∅ ty).1.

(** The values of the selected columns. *)
Definition select_cols (cols : list string) (r : row) : list sqlval := map (fun c => default SNull (r !! c)) cols.

(** Two rows with the same key; keys are texts. *)
Definition same_key (r r' : row) : bool :=
  match r !! IDCol with Some (SText k) => text_is (r' !! IDCol) k | _ => false end.

Definition by_key (id : string) (r : row) : bool := text_is (r !! IDCol) id && live_row r.

(** *** SQLite *)

Definition sq_Get (id : string) (tb : table) : res object :=
  match ValidateIdent [Table; IDCol] with
  | Some e => Err e
  | None =>
      match run_sql (IDCol :: "del_flag" :: ty_cols) tb
              (match find (by_key id) (tb_rows tb) with
               | Some r => ScanStruct ty (select_cols ty_cols r) ∅
               | None => Err "sql: no rows in result set"
               end) with
      | Ok o => Ok o
      | Err e => Err (Table +:+ ": " +:+ e)
      end
  end.

Fixpoint scan_rows (rs : list row) : res (list object) :=
  match rs with
  | [] => Ok []
  | r :: rs =>
      match ScanStruct ty (select_cols ty_cols r) ∅ with
      | Err e => Err ("scan: " +:+ e)
      | Ok o => match scan_rows rs with Ok os => Ok (o :: os) | Err e => Err e end
      end
  end.

Definition gs_Select (req : PageRequest) (tb : table) : res (Page object) :=
  match ValidateIdent [Table] with
  | Some e => Err e
  | None =>
      let req := norm_page req in
      run_sql ("del_flag" :: "created_at" :: ty_cols) tb
        (let live := List.filter live_row (tb_rows tb) in
         let? items := scan_rows (page_items (merge_sort newer_row live) (pg_Page req) (pg_Size req)) in
         Ok (NewPage items (Z.of_nat (length live)) req))
  end.

(** The columns a statement writes, over the rest of the row. *)
Definition written (cols : list string) (args : list arg) (r : row) : row :=
  list_to_map (zip cols (map column_value args)) ∪ r.

(** [INSERT OR REPLACE]: rows with the key go, the columns that are not named
    take their defaults. *)
Definition sq_Save (o : object) (tb : table) : res table :=
  match ValidateIdent [Table; IDCol] with
  | Some e => Err e
  | None =>
      let (cols, args) := StructFields o ty in
      match cols with
      | [] => Err "no fields"
      | _ =>
          run_sql cols tb
            (let r := written cols args (tb_columns tb) in
             Ok (with_rows tb (List.filter (fun r' => negb (same_key r r')) (tb_rows tb) ++ [r])))
      end
  end.

Definition deleted_row (now : string) (r : row) : row :=
  <["del_flag" := column_value (AValue (GBool true))]> (<["status" := SText "DELETED"]> (<["updated_at" := SText now]> r)).

Definition gs_Delete (id now : string) (tb : table) : res table :=
  match ValidateIdent [Table; IDCol] with
  | Some e => Err e
  | None =>
      run_sql ["del_flag"; "status"; "updated_at"; IDCol] tb
        (Ok (with_rows tb (map (fun r => if text_is (r !! IDCol) id then deleted_row now r else r) (tb_rows tb))))
  end.

(** *** PostgreSQL *)

Definition pg_Get (id : string) (tb : table) : res object :=
  match ValidateIdent [Table; IDCol] with
  | Some e => Err e
  | None =>
      run_sql (IDCol :: "del_flag" :: ty_cols) tb
        (match find (by_key id) (tb_rows tb) with
         | Some r => ScanStruct ty (select_cols ty_cols r) ∅
         | None => Err (Table +:+ " not found: " +:+ IDCol +:+ "=" +:+ id)
         end)
  end.

(** [INSERT ... ON CONFLICT (key) DO UPDATE]: the row with the key keeps the
    columns that are not named. *)
Definition pg_Save (o : object) (tb : table) : res table :=
  match ValidateIdent [Table; IDCol] with
  | Some e => Err e
  | None =>
      let (cols, args) := StructFields o ty in
      match cols with
      | [] => Err "no fields"
      | _ =>
          run_sql cols tb
            (let r := written cols args (tb_columns tb) in
             Ok (with_rows tb
                   (if existsb (same_key r) (tb_rows tb)
                    then map (fun r' => if same_key r r' then written cols args r' else r') (tb_rows tb)
                    else tb_rows tb ++ [r])))
      end
  end.

End GenericStore.

(** ** Task rows ([scanTaskRun]) *)

(** [sql.NullString] and [sql.NullTime]: [None] is not valid. *)
Definition NullString_Scan (v : sqlval) : res (option string) :=
  match v with
  | SNull => Ok None
  | _ => match as_string v with Some s => Ok (Some s) | None => Err "unsupported Scan" end
  end.

(** A time is only read from a time: a text is an error. *)
Definition NullTime_Scan (v : sqlval) : res (option Time) :=
  match v with
  | SNull => Ok None
  | STime t => Ok (Some t)
  | _ => Err "unsupported Scan, storing driver.Value type string into type *time.Time"
  end.

Definition scan_as (ft : gotype) (v : sqlval) : res goval :=
  match convertAssign ft v with Some v => Ok v | None => Err "unsupported Scan" end.

Fixpoint scan_all (fts : list gotype) (vs : list sqlval) : res (list goval) :=
  match fts, vs with
  | [], [] => Ok []
  | ft :: fts, v :: vs =>
      let? x := scan_as ft v in
      let? xs := scan_all fts vs in
      Ok (x :: xs)
  | _, _ => Err "sql: expected a different number of destination arguments in Scan"
  end.

Record TaskScan := {
  ts_head : list goval;        (* id, run, node, status *)
  ts_Input : option any; ts_Output : option any;
  ts_mid : list goval;         (* error, retries, most retries, exec id, parent, sequence *)
  ts_StartedAt : option Time; ts_FinishedAt : option Time;
  ts_names : list goval;       (* description, namespace *)
  ts_CreatedAt : Time; ts_CreatedBy : goval; ts_UpdatedAt : Time; ts_UpdatedBy : goval; ts_DelFlag : goval;
}.

Definition json_or_nil (s : option string) : option any :=
  match s with Some s => match Unmarshal s with Some (VMap m) => Some (VMap m) | _ => None end | None => None end.

Definition time_or_zero (v : goval) : Time :=
  match v with GString s => match ParseTime s with Ok t => t | Err _ => zero_time end | _ => zero_time end.

Definition scanTaskRun (vs : list sqlval) : res TaskScan :=
  match vs with
  | [id; run; node; status; input; output; err; retries; most; exec; parent; seq_; started; finished; descr; ns;
     created; created_by; updated; updated_by; del_flag] =>
      let? head := scan_all [TString; TString; TString; TString] [id; run; node; status] in
      let? input := NullString_Scan input in
      let? output := NullString_Scan output in
      let? mid := scan_all [TString; TInt; TInt; TString; TString; TInt] [err; retries; most; exec; parent; seq_] in
      let? started := NullTime_Scan started in
      let? finished := NullTime_Scan finished in
      let? names := scan_all [TString; TString] [descr; ns] in
      let? created := scan_as TString created in
      let? created_by := scan_as TString created_by in
      let? updated := scan_as TString updated in
      let? updated_by := scan_as TString updated_by in
      let? del_flag := scan_as TBool del_flag in
      Ok {| ts_head := head; ts_Input := json_or_nil input; ts_Output := json_or_nil output; ts_mid := mid;
            ts_StartedAt := started; ts_FinishedAt := finished; ts_names := names;
            ts_CreatedAt := time_or_zero created; ts_CreatedBy := created_by;
            ts_UpdatedAt := time_or_zero updated; ts_UpdatedBy := updated_by; ts_DelFlag := del_flag |}
  | _ => Err "sql: expected a different number of destination arguments in Scan"
  end.

(** The columns of [task_runs], in the order [SELECT *] gives them. *)
Definition task_columns : list string :=
  ["id"; "agentflow_run_id"; "node_id"; "status"; "input"; "output"; "error"; "retry_count"; "max_retries"; "exec_id";
   "parent_task_run_id"; "sequence"; "started_at"; "finished_at"; "description"; "namespace_id"; "created_at";
   "created_by"; "updated_at"; "updated_by"; "del_flag"].

Definition GetByExecID (execID : string) (tb : table) : res TaskScan :=
  match find (fun r => text_is (r !! "exec_id") execID) (tb_rows tb) with
  | Some r => scanTaskRun (select_cols task_columns r)
  | None => Err "sql: no rows in result set"
  end.

(** ** Struct types of the stores (pkg/model/pkg/entities) *)

Definition fld (name json db : string) (ft : gotype) : StructField * gotype :=
  ({| f_Name := name; f_json := json; f_db := db; f_Exported := true; f_Anonymous := false |}, ft).
Definition embedded (name : string) (ft : gotype) : StructField * gotype :=
  ({| f_Name := name; f_json := ""; f_db := ""; f_Exported := true; f_Anonymous := true |}, ft).

Definition BaseEntity_type : gotype :=
  TStruct [fld "ID" "id" "" TString; fld "Description" "description,omitempty" "" TString;
           fld "Namespace" "namespace_id,omitempty" "" TString; fld "Status" "status" "" TString;
           fld "CreatedAt" "created_at" "" TTime; fld "CreatedBy" "created_by,omitempty" "" TString;
           fld "UpdatedAt" "updated_at" "" TTime; fld "UpdatedBy" "updated_by,omitempty" "" TString;
           fld "DelFlag" "del_flag" "" TBool].

Definition KnowledgeEntry_type : gotype :=
  TStruct [embedded "BaseEntity" BaseEntity_type; fld "Title" "title" "title" TString;
           fld "Content" "content" "content" TString; fld "ContentType" "content_type" "content_type" TString;
           fld "Source" "source" "source" TString; fld "SourceRef" "source_ref" "source_ref" TString;
           fld "Tags" "tags" "tags" (TSlice TString); fld "Embedding" "embedding,omitempty" "-" (TSlice TFloat);
           fld "Metadata" "metadata" "metadata" TMap].

(** Its Status shadows the one of the base. *)
Definition TaskRunInfo_type : gotype :=
  TStruct [embedded "BaseEntity" BaseEntity_type; fld "AgentFlowRunID" "agentflow_run_id" "" TString;
           fld "NodeID" "node_id" "" TString; fld "Status" "status" "" TString; fld "Input" "input" "" TMap;
           fld "Output" "output" "" TMap; fld "Error" "error" "" TString; fld "RetryCount" "retry_count" "" TInt;
           fld "MaxRetries" "max_retries" "" TInt; fld "ExecID" "exec_id" "" TString;
           fld "ParentTaskRunID" "parent_task_run_id" "" TString; fld "Sequence" "sequence" "" TInt;
           fld "StartedAt" "started_at" "" (TPtr TTime); fld "FinishedAt" "finished_at" "" (TPtr TTime)].

Example columns_ex :
  Columns KnowledgeEntry_type =
    "title,content,content_type,source,source_ref,tags,metadata,id,description,namespace_id,status,created_at,created_by,updated_at,updated_by,del_flag" /\
  map se_field (List.filter (fun e => se_json e || se_time e) (scan_entries TaskRunInfo_type)) =
    [[4]; [5]; [12]; [13]; [0; 4]; [0; 6]].
Proof. vm_compute. split; reflexivity. Qed.

(** * The generic stores keep what they are given

    For a struct type with a text key and a deletion mark (the interface
    [Entity]), [Get] after [Save] gives the entity that was saved, in both
    engines, and every other key gives what it gave before. *)

(** What the stores need of a struct type: where its key and its deletion mark
    are kept. *)
Class Entity (ty : gotype) (Table IDCol : string) := {
  en_struct : has_fields ty = true;
  en_idents : ValidateIdent [Table; IDCol] = None;
  en_id : path; en_flag : path;
  en_id_in : (IDCol, entry_of en_id TString) ∈ zip (StructFields ∅ ty).1 (scan_entries ty);
  en_flag_in : ("del_flag", entry_of en_flag TBool) ∈ zip (StructFields ∅ ty).1 (scan_entries ty);
}.

#[export] Instance knowledge_entity : Entity KnowledgeEntry_type "knowledge_entries" "id" := {
  en_struct := eq_refl; en_idents := eq_refl; en_id := [0; 0]; en_flag := [0; 8];
  en_id_in := ltac:(vm_compute; do 7 right; left); en_flag_in := ltac:(vm_compute; do 15 right; left);
}.

#[export] Instance task_entity : Entity TaskRunInfo_type "task_runs" "id" := {
  en_struct := eq_refl; en_idents := eq_refl; en_id := [0; 0]; en_flag := [0; 8];
  en_id_in := ltac:(vm_compute; do 13 right; left); en_flag_in := ltac:(vm_compute; do 20 right; left);
}.

Section Store.
Context `{SqlEngine} {ty : gotype} {Table IDCol : string} {Ent : Entity ty Table IDCol}.
Variable no_column : string.
Implicit Types (o : object) (tb : table).

(** The value a column of a written row holds. *)
Definition column_of (o : object) (e : scanEntry) : sqlval := column_value (field_arg (se_type e) (field o (se_field e))).

Lemma cols_eq o : (StructFields o ty).1 = ty_cols ty.
Proof. apply StructFields_names. Qed.

Lemma vals_eq o : map column_value (StructFields o ty).2 = map (column_of o) (scan_entries ty).
Proof. destruct (columns_match_fields o ty) as (_ & _ & _ & ->). by rewrite map_map. Qed.

Lemma cols_NoDup : NoDup (ty_cols ty).
Proof. apply columns_match_fields. Qed.

Lemma cols_entries : length (ty_cols ty) = length (scan_entries ty).
Proof. destruct (columns_match_fields ∅ ty) as (_ & _ & Hn & _). by eapply Forall2_length. Qed.

Lemma zip_map_r {A B C} (f : B -> C) (l : list A) (k : list B) : zip l (map f k) = map (fun x => (x.1, f x.2)) (zip l k).
Proof. revert k. induction l as [|x l IH]; intros [|y k]; cbn; [done..|]. by rewrite IH. Qed.

Lemma written_lookup o r c e :
  (c, e) ∈ zip (ty_cols ty) (scan_entries ty) ->
  written (ty_cols ty) (StructFields o ty).2 r !! c = Some (column_of o e).
Proof.
  intros Hin. unfold written. apply lookup_union_Some_l. apply elem_of_list_to_map_1.
  - rewrite fst_zip; [apply cols_NoDup|]. rewrite vals_eq, length_map, cols_entries. done.
  - rewrite vals_eq, zip_map_r. apply list_elem_of_fmap. by exists (c, e).
Qed.

Lemma select_written o r :
  select_cols (ty_cols ty) (written (ty_cols ty) (StructFields o ty).2 r) = map column_value (StructFields o ty).2.
Proof.
  rewrite vals_eq. apply list_eq. intros i. unfold select_cols. rewrite !list_lookup_fmap.
  destruct (ty_cols ty !! i) as [c|] eqn:Ec.
  - destruct (scan_entries ty !! i) as [e|] eqn:Ee.
    + unfold fmap, option_fmap, option_map. rewrite (written_lookup o r c e); [done|].
      apply list_elem_of_lookup. exists i. rewrite lookup_zip_with, Ec. cbn. by rewrite Ee.
    + apply lookup_lt_Some in Ec. apply lookup_ge_None in Ee. pose proof cols_entries. lia.
  - destruct (scan_entries ty !! i) as [e|] eqn:Ee; [|done].
    apply lookup_ge_None in Ec. apply lookup_lt_Some in Ee. pose proof cols_entries. lia.
Qed.

(** An entity with a key, not deleted, whose fields are kept. *)
Definition saved_as (id : string) (o : object) : Prop :=
  field o (en_id (Entity := Ent)) = GString id /\ field o (en_flag (Entity := Ent)) = GBool false /\
  Forall (fun e => storable (se_type e) (field o (se_field e))) (scan_entries ty).

Lemma written_key id o r : saved_as id o -> written (ty_cols ty) (StructFields o ty).2 r !! IDCol = Some (SText id).
Proof.
  intros (Hid & _ & _). rewrite (written_lookup _ _ _ _ en_id_in). f_equal. unfold column_of. cbn [entry_of se_field se_type].
  rewrite Hid. apply engine_string.
Qed.

Lemma written_live id o r : saved_as id o -> live_row (written (ty_cols ty) (StructFields o ty).2 r) = true.
Proof.
  intros (_ & Hf & _). unfold live_row. rewrite (written_lookup _ _ _ _ en_flag_in). unfold column_of. cbn [entry_of se_field se_type].
  rewrite Hf. cbn [field_arg IsJSONType]. pose proof (engine_bool false) as Hb.
  rewrite elem_of_cons, list_elem_of_singleton in Hb. by destruct Hb as [-> | ->].
Qed.

Lemma written_by_key id id' o r :
  saved_as id o -> by_key IDCol id' (written (ty_cols ty) (StructFields o ty).2 r) = String.eqb id id'.
Proof.
  intros Hs. unfold by_key. rewrite (written_key id), (written_live id), andb_true_r by done. done.
Qed.

(** A row that was written reads as the entity. *)
Lemma scan_written id o r :
  saved_as id o ->
  exists o', ScanStruct ty (select_cols (ty_cols ty) (written (ty_cols ty) (StructFields o ty).2 r)) ∅ = Ok o' /\
    forall e, e ∈ scan_entries ty -> field o' (se_field e) = comes_back (field o (se_field e)).
Proof.
  intros (_ & _ & Hs). rewrite select_written.
  destruct (ScanStruct_StructFields ty o ∅ en_struct Hs) as (o' & E & Hin & _). by exists o'.
Qed.

Lemma some_cols {A} (x y : A) : match ty_cols ty with [] => x | _ => y end = y.
Proof. pose proof en_id_in as Hin. unfold ty_cols. by destruct (StructFields ∅ ty).1; [apply elem_of_nil in Hin|]. Qed.

Lemma known_keys tb : columns_known (ty_cols ty) tb = true -> columns_known (IDCol :: "del_flag" :: ty_cols ty) tb = true.
Proof.
  intros Hk. unfold columns_known in *. cbn [forallb]. rewrite forallb_forall in Hk.
  rewrite !andb_true_iff. split_and!; [| |by apply forallb_forall]; apply Hk, list_elem_of_In.
  - pose proof en_id_in as Hin. by apply elem_of_zip_l in Hin.
  - pose proof en_flag_in as Hin. by apply elem_of_zip_l in Hin.
Qed.

Lemma same_key_written id o r r' :
  saved_as id o -> same_key IDCol (written (ty_cols ty) (StructFields o ty).2 r) r' = text_is (r' !! IDCol) id.
Proof. intros Hs. unfold same_key. by rewrite (written_key id). Qed.

Lemma by_key_text id r : by_key IDCol id r = true -> text_is (r !! IDCol) id = true.
Proof. unfold by_key. by intros [H' _]%andb_true_iff. Qed.

Lemma text_is_unique v id id' : text_is v id = true -> text_is v id' = true -> id = id'.
Proof. destruct v as [[]|]; cbn; try done. intros ->%String.eqb_eq ->%String.eqb_eq. done. Qed.

Lemma find_app_none {A} (f : A -> bool) l k : find f l = None -> find f (l ++ k) = find f k.
Proof. induction l as [|x l IH]; [done|]. cbn. by destruct (f x). Qed.

Lemma find_filter {A} (f g : A -> bool) l : (forall x, f x = true -> g x = true) -> find f (List.filter g l) = find f l.
Proof.
  intros Hfg. induction l as [|x l IH]; [done|]. cbn. destruct (f x) eqn:Ef.
  - rewrite (Hfg x Ef). cbn. by rewrite Ef.
  - destruct (g x); cbn; by rewrite ?Ef.
Qed.

Lemma find_filter_none {A} (f g : A -> bool) l : (forall x, f x = true -> g x = false) -> find f (List.filter g l) = None.
Proof.
  intros Hfg. induction l as [|x l IH]; [done|]. cbn. destruct (g x) eqn:Eg; [|done]. cbn.
  destruct (f x) eqn:Ef; [|done]. apply Hfg in Ef. congruence.
Qed.

Lemma find_app_other {A} (f : A -> bool) l x : f x = false -> find f (l ++ [x]) = find f l.
Proof. intros Hx. induction l as [|y l IH]; cbn; [by rewrite Hx|]. by destruct (f y). Qed.

(** A change of rows that keeps those a test takes. *)
Lemma find_map_other {A} (f : A -> bool) (h : A -> A) l :
  (forall x, x ∈ l -> h x = x \/ (f x = false /\ f (h x) = false)) -> find f (map h l) = find f l.
Proof.
  induction l as [|x l IH]; intros Hh; [done|]. cbn.
  specialize (IH ltac:(intros y Hy; apply Hh; by right)).
  destruct (Hh x ltac:(left)) as [-> |[E E']]; [|by rewrite E, E'].
  by destruct (f x).
Qed.

(** The rows after [Save], in either engine: the first row with the key is one
    that was written; other keys find what they found. *)
Definition keeps_others (id : string) (rows rows' : list row) : Prop :=
  forall id', id' <> id -> find (by_key IDCol id') rows' = find (by_key IDCol id') rows.
Definition finds_written (id : string) (o : object) (rows' : list row) : Prop :=
  exists r, find (by_key IDCol id) rows' = Some (written (ty_cols ty) (StructFields o ty).2 r).

Lemma sq_Save_rows id o tb :
  saved_as id o -> columns_known (ty_cols ty) tb = true ->
  exists rows', sq_Save ty Table IDCol no_column None o tb = Ok (with_rows tb rows') /\
    finds_written id o rows' /\ keeps_others id (tb_rows tb) rows'.
Proof.
  intros Hs Hk. unfold sq_Save. rewrite en_idents. destruct (StructFields o ty) as [cols args] eqn:E.
  assert (cols = ty_cols ty) as -> by (rewrite <- (cols_eq o), E; done).
  assert (args = (StructFields o ty).2) as -> by (by rewrite E).
  rewrite some_cols. unfold run_sql. rewrite Hk. cbn zeta.
  eexists. split; [reflexivity|]. set (r := written _ _ _). split.
  - exists (tb_columns tb). rewrite find_app_none.
    + cbn [find]. unfold r. by rewrite (written_by_key id), String.eqb_refl.
    + apply find_filter_none. intros r' Hr'. unfold r. rewrite (same_key_written id) by done.
      by rewrite (by_key_text _ _ Hr').
  - intros id' Hne. rewrite find_app_other.
    + apply find_filter. intros r' Hr'. unfold r. rewrite (same_key_written id) by done.
      destruct (text_is (r' !! IDCol) id) eqn:Et; [|done]. destruct Hne.
      eapply text_is_unique; [by apply by_key_text|done].
    + unfold r. rewrite (written_by_key id) by done. by apply String.eqb_neq.
Qed.

Lemma pg_Save_rows id o tb :
  saved_as id o -> columns_known (ty_cols ty) tb = true ->
  exists rows', pg_Save ty Table IDCol no_column None o tb = Ok (with_rows tb rows') /\
    finds_written id o rows' /\ keeps_others id (tb_rows tb) rows'.
Proof.
  intros Hs Hk. unfold pg_Save. rewrite en_idents. destruct (StructFields o ty) as [cols args] eqn:E.
  assert (cols = ty_cols ty) as -> by (rewrite <- (cols_eq o), E; done).
  assert (args = (StructFields o ty).2) as -> by (by rewrite E).
  rewrite some_cols. unfold run_sql. rewrite Hk. cbn zeta.
  eexists. split; [reflexivity|]. set (r := written _ _ (tb_columns tb)). 
  assert (Hsame : forall r', same_key IDCol r r' = text_is (r' !! IDCol) id) by (intros; by apply same_key_written).
  destruct (existsb (same_key IDCol r) (tb_rows tb)) eqn:Ex; split.
  - induction (tb_rows tb) as [|r0 rows IH]; [done|]. cbn [existsb map] in *. unfold finds_written. cbn [find].
    destruct (same_key IDCol r r0) eqn:Er.
    + exists r0. by rewrite (written_by_key id), String.eqb_refl.
    + destruct (by_key IDCol id r0) eqn:Eb; [|by apply IH]. apply by_key_text in Eb. rewrite Hsame in Er. congruence.
  - intros id' Hne. apply find_map_other. intros r0 _. destruct (same_key IDCol r r0) eqn:Er; [right|by left].
    split.
    + destruct (by_key IDCol id' r0) eqn:Eb; [|done]. destruct Hne. apply by_key_text in Eb. rewrite Hsame in Er.
      by eapply text_is_unique.
    + rewrite (written_by_key id) by done. by apply String.eqb_neq.
  - exists (tb_columns tb). rewrite find_app_none; [cbn [find]; unfold r; by rewrite (written_by_key id), String.eqb_refl|].
    destruct (find (by_key IDCol id) (tb_rows tb)) as [r0|] eqn:Ef; [|done]. apply find_some in Ef as [Hin Hb].
    exfalso. apply not_true_iff_false in Ex. apply Ex, existsb_exists. exists r0. split; [done|]. rewrite Hsame. by apply by_key_text.
  - intros id' Hne. apply find_app_other. unfold r. rewrite (written_by_key id) by done. by apply String.eqb_neq.
Qed.

End Store.

(** ** A knowledge entry *)

Definition entry_object (id title : string) (created : Time) : object :=
  list_to_map [([0; 0], GString id); ([0; 1], GString ""); ([0; 2], GString "ns"); ([0; 3], GString "ACTIVE");
               ([0; 4], GTime created); ([0; 5], GString ""); ([0; 6], GTime created); ([0; 7], GString "");
               ([0; 8], GBool false); ([1], GString title); ([2], GString "text"); ([3], GString "markdown");
               ([4], GString "runs"); ([5], GString ""); ([6], GJson (VList [VStr "a<b"; VStr "c"])); ([8], GJson VNil)].

Definition knowledge_table : table :=
  {| tb_columns := list_to_map (map (fun c => (c, SNull)) (ty_cols KnowledgeEntry_type)); tb_rows := [] |}.

(** Midnight in January 2024, two hours east of UTC. *)
Definition cairo_midnight : Time := {| t_unix := 1704060000; t_nsec := 5; t_offset := 7200 |}.

Lemma entry_saved : saved_as (Ent := knowledge_entity) "k1" (entry_object "k1" "T" cairo_midnight).
Proof.
  split; [done|]. split; [done|].
  vm_compute scan_entries.
  repeat (apply List.Forall_cons;
    [match goal with |- storable ?t ?v =>
       let t' := eval vm_compute in t in let w := eval vm_compute in v in change (storable t' w) end|]); [..|apply List.Forall_nil].
  all: first [by apply st_json, plain_stable | by constructor | idtac].
  all: apply st_time; vm_compute; split; discriminate.
Qed.


(** The zone of a time is lost: what is read is another instant. *)
Lemma zone_is_lost :
  stored_time cairo_midnight = {| t_unix := t_unix cairo_midnight + 7200; t_nsec := 0; t_offset := 0 |}.
Proof. reflexivity. Qed.

(** Only the fields of zone UTC come back as the instant they were. *)
Lemma stored_time_instant t : t_unix (stored_time t) = t_unix t <-> t_offset t = 0%Z.
Proof. unfold stored_time, wall. cbn. lia. Qed.

(** A task that was saved with a start is in no list of tasks: its row cannot
    be read. *)
Lemma started_task_unreadable (r : row) s :
  r !! "started_at" = Some (SText s) -> is_ok (scanTaskRun (select_cols task_columns r)) = false.
Proof.
  intros Hs. unfold select_cols, task_columns. cbn [map scanTaskRun]. rewrite Hs.
  change (NullTime_Scan (default SNull (Some (SText s)))) with (@Err (option Time) "unsupported Scan, storing driver.Value type string into type *time.Time").
  repeat (match goal with |- context [res_bind ?x _] => destruct x; [|done] end; cbn [res_bind]); done.
Qed.
