(* ===== verification/Migrate.v ===== *)
(** * Migrations

    [pkg/store/pkg/migrate.go]: the scripts of the embedded directories that
    are not recorded are executed in the order of their versions and names,
    each recorded after it; columns of an old name are renamed first.  What a
    script does to the tables, the directories and the failures of calls are
    parameters. *)

From S2P Require Export GoStr Path.
From stdpp Require Import sorting.
From Stdlib Require Import Ascii.

Local Open Scope string_scope.
Local Open Scope list_scope.

Record dirent := { de_Name : string; de_IsDir : bool }.

(** The embedded files; the calls of the database that can fail. *)
Class MigrationEnv := {
  ReadDir : string -> res (list dirent);
  ReadFile : string -> res string;
  (** the tables with their columns *)
  mg_schema : Type;
  tables_of : mg_schema -> list (string * list string);
  exec_script : string -> mg_schema -> mg_schema * option string;
  (** [ALTER TABLE t RENAME COLUMN tenant_id TO namespace_id] *)
  rename_column : string -> mg_schema -> mg_schema;
  ensure_err : option string;
  list_err : option string;
  columns_err : string -> option string;
  check_err : string -> string -> option string;
  record_err : string -> string -> option string;
}.

Section Migrate.
Context `{MigrationEnv}.

(** The database: its schema, the rows of [schema_migrations], and the paths
    of the scripts that were executed, oldest first. *)
Record database := {
  db_schema : mg_schema;
  db_applied : list (string * string);
  db_log : list string;
}.

Definition set_schema (s : mg_schema) (db : database) : database :=
  {| db_schema := s; db_applied := db_applied db; db_log := db_log db |}.

(** [checkApplied], [recordMigration] *)
Definition checkApplied (ver file : string) (db : database) : res bool :=
  match check_err ver file with
  | Some e => Err e
  | None => Ok (bool_decide ((ver, file) ∈ db_applied db))
  end.

Definition recordMigration (ver file : string) (db : database) : database * option string :=
  match record_err ver file with
  | Some e => (db, Some e)
  | None =>
      ({| db_schema := db_schema db; db_applied := db_applied db ++ [(ver, file)]; db_log := db_log db |}, None)
  end.

(** [db.ExecContext] of a script: a script that fails may have done part of
    its work. *)
Definition execute (path content : string) (db : database) : database * option string :=
  let (s, e) := exec_script content (db_schema db) in
  ({| db_schema := s; db_applied := db_applied db; db_log := db_log db ++ [path] |}, e).

(** *** The old names of columns *)

(** [renameLegacyTenantColumns]: SQLite; a table whose columns cannot be read
    is left. *)
Definition rename_one (db : database) (t : string * list string) : database :=
  match columns_err t.1 with
  | Some _ => db
  | None =>
      if existsb (String.eqb "tenant_id") t.2 && negb (existsb (String.eqb "namespace_id") t.2)
      then set_schema (rename_column t.1 (db_schema db)) db
      else db
  end.

Definition renameLegacyTenantColumns (db : database) : database * option string :=
  match list_err with
  | Some e => (db, Some e)
  | None => (fold_left rename_one (tables_of (db_schema db)) db, None)
  end.

(** [renameLegacyTenantColumnsPG]: the tables with the old name; [count_fails]
    when the count cannot be read into the flag, which then stays false. *)
Definition rename_one_pg (count_fails : bool) (db : database) (t : string * list string) : database :=
  let hasNs := negb count_fails && existsb (String.eqb "namespace_id") t.2 in
  if negb hasNs then set_schema (rename_column t.1 (db_schema db)) db else db.

Definition renameLegacyTenantColumnsPG (count_fails : bool) (db : database) : database * option string :=
  match list_err with
  | Some e => (db, Some e)
  | None =>
      (fold_left (rename_one_pg count_fails)
         (List.filter (fun t => existsb (String.eqb "tenant_id") t.2) (tables_of (db_schema db))) db, None)
  end.

(** *** The scripts *)

#[local] Instance leb_dec : RelDecision (fun a b : string => String.leb a b = true) :=
  fun a b => decide (String.leb a b = true).
Definition name_le (a b : dirent) : Prop := String.leb (de_Name a) (de_Name b) = true.
#[local] Instance name_le_dec : RelDecision name_le := fun a b => decide (String.leb _ _ = true).

Definition is_script (f : dirent) : bool := negb (de_IsDir f) && HasSuffix (de_Name f) ".sql".

(** A script: executed and recorded, unless it is recorded; an error ends the
    run. *)
Definition migrate_script (ver name filePath : string) (db : database) : database * option string :=
  match checkApplied ver name db with
  | Err e => (db, Some ("check " +:+ ver +:+ "/" +:+ name +:+ ": " +:+ e))
  | Ok true => (db, None)
  | Ok false =>
      match ReadFile filePath with
      | Err e => (db, Some ("read " +:+ filePath +:+ ": " +:+ e))
      | Ok sqlBytes =>
          match execute filePath sqlBytes db with
          | (db, Some e) => (db, Some ("exec " +:+ filePath +:+ ": " +:+ e))
          | (db, None) =>
              match recordMigration ver name db with
              | (db, Some e) => (db, Some ("record " +:+ filePath +:+ ": " +:+ e))
              | (db, None) => (db, None)
              end
          end
      end
  end.

(** One file of a version. *)
Definition migrate_file (verPath ver : string) (f : dirent) (db : database) : database * option string :=
  if negb (is_script f) then (db, None)
  else migrate_script ver (de_Name f) (PathJoin [verPath; de_Name f]) db.

(** A loop that ends with the first error. *)
Fixpoint each {A} (step : A -> database -> database * option string) (l : list A) (db : database) : database * option string :=
  match l with
  | [] => (db, None)
  | x :: l => match step x db with (db, None) => each step l db | (db, Some e) => (db, Some e) end
  end.

Definition migrate_version (dbType ver : string) (db : database) : database * option string :=
  let verPath := PathJoin [dbType; ver] in
  match ReadDir verPath with
  | Err e => (db, Some ("read version dir " +:+ verPath +:+ ": " +:+ e))
  | Ok files => each (migrate_file verPath ver) (merge_sort name_le files) db
  end.

Definition versions_of (entries : list dirent) : list string :=
  merge_sort (fun a b => String.leb a b = true) (map de_Name (List.filter de_IsDir entries)).

Definition migrate_all (dbType : string) (db : database) : database * option string :=
  match ReadDir dbType with
  | Err e => (db, Some ("read migration dir for " +:+ dbType +:+ ": " +:+ e))
  | Ok entries => each (migrate_version dbType) (versions_of entries) db
  end.

(** [ensureMigrationTable], the renaming, the scripts. *)
Definition migrate_with (rename : database -> database * option string) (dbType : string) (db : database)
    : database * option string :=
  match ensure_err with
  | Some e => (db, Some ("ensure migration table: " +:+ e))
  | None =>
      match rename db with
      | (db, Some e) => (db, Some ("rename legacy tenant columns: " +:+ e))
      | (db, None) => migrate_all dbType db
      end
  end.

Definition RunMigrations (dbType : string) (db : database) : database * option string :=
  migrate_with renameLegacyTenantColumns dbType db.
Definition RunMigrationsPG (count_fails : bool) (dbType : string) (db : database) : database * option string :=
  migrate_with (renameLegacyTenantColumnsPG count_fails) dbType db.

(** ** What a run has to do *)

(** The scripts of a version in order, with the paths they are read from. *)
Definition scripts_of (dbType ver : string) (files : list dirent) : list ((string * string) * string) :=
  map (fun f => ((ver, de_Name f), PathJoin [PathJoin [dbType; ver]; de_Name f]))
    (List.filter is_script (merge_sort name_le files)).

Fixpoint all_scripts (dbType : string) (vers : list string) : list ((string * string) * string) :=
  match vers with
  | [] => []
  | v :: vers =>
      match ReadDir (PathJoin [dbType; v]) with
      | Ok files => scripts_of dbType v files ++ all_scripts dbType vers
      | Err _ => []
      end
  end.

Definition scripts (dbType : string) : list ((string * string) * string) :=
  match ReadDir dbType with Ok entries => all_scripts dbType (versions_of entries) | Err _ => [] end.

(** Those that are not recorded. *)
Definition pending (ss : list ((string * string) * string)) (db : database) : list ((string * string) * string) :=
  List.filter (fun s => negb (bool_decide (s.1 ∈ db_applied db))) ss.

Definition run_script (s : (string * string) * string) (db : database) : database * option string :=
  migrate_script s.1.1 s.1.2 s.2 db.

(** The first version whose directory cannot be read ends the run. *)
Fixpoint unreadable (dbType : string) (vers : list string) : option string :=
  match vers with
  | [] => None
  | v :: vers =>
      match ReadDir (PathJoin [dbType; v]) with
      | Ok _ => unreadable dbType vers
      | Err e => Some ("read version dir " +:+ PathJoin [dbType; v] +:+ ": " +:+ e)
      end
  end.

(** *** The nested loops walk over the scripts *)

Lemma each_app {A} (step : A -> database -> database * option string) l k db :
  each step (l ++ k) db = match each step l db with (db, None) => each step k db | (db, Some e) => (db, Some e) end.
Proof. revert db. induction l as [|x l IH]; intros db; [done|]. cbn. destruct (step x db) as [db' [e|]]; [done|apply IH]. Qed.

Lemma migrate_files_run dbType ver files db :
  each (migrate_file (PathJoin [dbType; ver]) ver) files db =
  each run_script (map (fun f => ((ver, de_Name f), PathJoin [PathJoin [dbType; ver]; de_Name f])) (List.filter is_script files)) db.
Proof.
  revert db. induction files as [|f files IH]; intros db; [done|]. cbn [each List.filter]. unfold migrate_file at 1.
  destruct (is_script f); cbn [negb map each]; [|apply IH]. unfold run_script at 1. cbn [fst snd].
  destruct (migrate_script _ _ _ db) as [db' [e|]]; [done|apply IH].
Qed.

Lemma migrate_versions_run dbType vers db :
  each (migrate_version dbType) vers db =
  match each run_script (all_scripts dbType vers) db with
  | (db, None) => (db, unreadable dbType vers)
  | (db, Some e) => (db, Some e)
  end.
Proof.
  revert db. induction vers as [|v vers IH]; intros db; [done|]. cbn [each all_scripts unreadable]. unfold migrate_version at 1.
  destruct (ReadDir (PathJoin [dbType; v])) as [files|e]; [|done].
  rewrite each_app. unfold scripts_of. rewrite <- migrate_files_run.
  destruct (each _ (merge_sort name_le files) db) as [db' [e|]]; [done|]. by rewrite IH.
Qed.

(** *** A walk executes a part of what is pending *)

(** After a walk: [done] of the pending scripts are executed and recorded, in
    order; [extra] is at most the next one, executed and not recorded. *)
Record walked (ss : list ((string * string) * string)) (db db' : database) (r : option string) (n : nat) (extra : list string) : Prop := {
  wk_log : db_log db' = db_log db ++ map snd (take n (pending ss db)) ++ extra;
  wk_applied : db_applied db' = db_applied db ++ map fst (take n (pending ss db));
  wk_extra : extra = [] \/ extra = map snd (take 1 (drop n (pending ss db)));
  wk_le : n <= length (pending ss db);
  wk_all : r = None -> n = length (pending ss db) /\ extra = [];
}.

(** What one script does to the record and the log. *)
Lemma migrate_script_cases ver name filePath db db' r :
  migrate_script ver name filePath db = (db', r) ->
  db_applied db' = db_applied db /\ db_log db' = db_log db /\ (r = None -> (ver, name) ∈ db_applied db) \/
  (ver, name) ∉ db_applied db /\ db_log db' = db_log db ++ [filePath] /\
  (r = None /\ db_applied db' = db_applied db ++ [(ver, name)] \/ r <> None /\ db_applied db' = db_applied db).
Proof.
  unfold migrate_script, checkApplied, recordMigration, execute.
  destruct (check_err ver name); [intros [= <- <-]; left; done|].
  case_bool_decide; [intros [= <- <-]; left; done|].
  destruct (ReadFile filePath) as [c|e]; [|intros [= <- <-]; left; done].
  destruct (exec_script c (db_schema db)) as [s [e|]]; [intros [= <- <-]; right; split_and!; [done..|by right]|].
  destruct (record_err ver name); intros [= <- <-]; right; split_and!; try done; [by right|by left].
Qed.

Lemma pending_applied ss db k :
  k ∉ map fst ss ->
  List.filter (fun s => negb (bool_decide (s.1 ∈ db_applied db ++ [k]))) ss = pending ss db.
Proof.
  induction ss as [|s ss IH]; intros Hk; [done|]. cbn [map] in Hk. cbn [List.filter pending].
  rewrite IH by set_solver. unfold pending. cbn [List.filter].
  erewrite (bool_decide_ext (s.1 ∈ db_applied db ++ [k])); [reflexivity|]. set_solver.
Qed.

Lemma each_walked ss : forall db db' r,
  NoDup (map fst ss) -> each run_script ss db = (db', r) -> exists n extra, walked ss db db' r n extra.
Proof.
  induction ss as [|[[ver name] filePath] ss IH]; intros db db' r Hnd He.
  { injection He as <- <-. exists 0, []. constructor; cbn; rewrite ?app_nil_r; auto. }
  cbn [map fst] in Hnd. apply NoDup_cons in Hnd as [Hni Hnd]. cbn [each] in He.
  change (run_script (ver, name, filePath) db) with (migrate_script ver name filePath db) in He.
  destruct (migrate_script ver name filePath db) as [db1 r1] eqn:E1.
  apply migrate_script_cases in E1 as [(Ha & Hl & Hr)|(Hnew & Hl & [[-> Ha]|[Hr Ha]])].
  - destruct r1 as [e|].
    + injection He as <- <-. exists 0, []. constructor; cbn; rewrite ?app_nil_r; auto; [lia|done].
    + destruct (IH db1 db' r Hnd He) as (n & extra & [W1 W2 W3 W4 W5]). exists n, extra.
      assert (Hp : pending (((ver, name), filePath) :: ss) db = pending ss db1).
      { unfold pending. cbn [List.filter fst]. rewrite bool_decide_eq_true_2 by auto. cbn [negb]. by rewrite Ha. }
      constructor; rewrite Hp, <- ?Hl, <- ?Ha; auto.
  - destruct (IH db1 db' r Hnd He) as (n & extra & [W1 W2 W3 W4 W5]). exists (S n), extra.
    assert (Hp : pending (((ver, name), filePath) :: ss) db = ((ver, name), filePath) :: pending ss db1).
    { unfold pending at 1. cbn [List.filter fst]. rewrite bool_decide_eq_false_2 by done. cbn [negb]. f_equal.
      unfold pending at 1. rewrite Ha. symmetry. by rewrite pending_applied. }
    constructor; rewrite Hp; cbn [take drop map snd fst length].
    + rewrite W1, Hl, <- !app_assoc. done.
    + rewrite W2, Ha, <- !app_assoc. done.
    + done.
    + lia.
    + intros Hr. destruct (W5 Hr) as [-> ->]. done.
  - destruct r1 as [e|]; [|done]. injection He as <- <-. exists 0, [filePath].
    assert (Hp : pending (((ver, name), filePath) :: ss) db = ((ver, name), filePath) :: pending ss db).
    { unfold pending at 1. cbn [List.filter fst]. by rewrite bool_decide_eq_false_2 by done. }
    constructor; rewrite Hp; cbn [take drop map snd fst length app]; rewrite ?app_nil_r; auto; [lia|done].
Qed.

Lemma pending_plus ss db ks :
  List.filter (fun s => negb (bool_decide (s.1 ∈ db_applied db ++ ks))) ss =
  List.filter (fun s => negb (bool_decide (s.1 ∈ ks))) (pending ss db).
Proof.
  induction ss as [|s ss IH]; [done|]. unfold pending in *. cbn [List.filter].
  destruct (decide (s.1 ∈ db_applied db)) as [Hi|Hi].
  - rewrite (bool_decide_eq_true_2 (s.1 ∈ db_applied db)) by done.
    rewrite (bool_decide_eq_true_2 (s.1 ∈ db_applied db ++ ks)) by set_solver. apply IH.
  - rewrite (bool_decide_eq_false_2 (s.1 ∈ db_applied db)) by done. cbn [negb List.filter].
    erewrite (bool_decide_ext (s.1 ∈ db_applied db ++ ks) (s.1 ∈ ks)) by set_solver.
    destruct (bool_decide (s.1 ∈ ks)); cbn [negb]; by rewrite IH.
Qed.

Lemma filter_taken (l : list ((string * string) * string)) n :
  NoDup (map fst l) -> List.filter (fun s => negb (bool_decide (s.1 ∈ map fst (take n l)))) l = drop n l.
Proof.
  revert n. induction l as [|s l IH]; intros n Hnd; [by rewrite drop_nil|].
  cbn [map] in Hnd. apply NoDup_cons in Hnd as [Hni Hnd]. destruct n as [|n]; cbn [take drop map List.filter].
  - rewrite bool_decide_eq_false_2 by set_solver. cbn [negb]. f_equal. specialize (IH 0 Hnd). by rewrite drop_0 in IH.
  - rewrite bool_decide_eq_true_2 by set_solver. cbn [negb]. rewrite <- (IH n Hnd). apply List.filter_ext_in.
    intros x Hx. f_equal. apply bool_decide_ext. rewrite elem_of_cons. split; [|auto]. intros [E|]; [|done].
    destruct Hni. rewrite <- E. apply list_elem_of_fmap_2. by apply list_elem_of_In.
Qed.

(** What is left after a walk is what a new walk has to do. *)
Lemma pending_after ss db db' r n extra :
  NoDup (map fst ss) -> walked ss db db' r n extra -> pending ss db' = drop n (pending ss db).
Proof.
  intros Hnd [_ Ha _ _ _]. unfold pending at 1. rewrite Ha, pending_plus. apply filter_taken.
  by apply NoDup_map_filter.
Qed.

(** *** Runs *)

Lemma rename_keeps rename db db' r :
  rename = renameLegacyTenantColumns \/ (exists b, rename = renameLegacyTenantColumnsPG b) ->
  rename db = (db', r) -> db_applied db' = db_applied db /\ db_log db' = db_log db.
Proof.
  assert (Hfold : forall step (l : list (string * list string)) db,
    (forall db t, db_applied (step db t) = db_applied db /\ db_log (step db t) = db_log db) ->
    db_applied (fold_left step l db) = db_applied db /\ db_log (fold_left step l db) = db_log db).
  { intros step l. induction l as [|t l IH]; intros d Hs; [done|]. cbn [fold_left].
    destruct (IH (step d t) Hs) as [-> ->]. apply Hs. }
  intros [->|[b ->]]; unfold renameLegacyTenantColumns, renameLegacyTenantColumnsPG; destruct list_err;
    intros [= <- <-]; try done; apply Hfold; intros d t; [unfold rename_one|unfold rename_one_pg]; repeat case_match; done.
Qed.

Definition distinct_names : Prop := forall d es, ReadDir d = Ok es -> NoDup (map de_Name es).

Lemma all_scripts_vers dbType vers s : s ∈ all_scripts dbType vers -> s.1.1 ∈ vers.
Proof.
  induction vers as [|v vers IH]; cbn [all_scripts]; [by intros ?%elem_of_nil|]. destruct (ReadDir _) as [files|]; [|by intros ?%elem_of_nil].
  rewrite elem_of_app. intros [Hs|Hs]; [|right; auto]. unfold scripts_of in Hs.
  apply list_elem_of_fmap in Hs as (f & -> & _). left.
Qed.

Lemma scripts_NoDup dbType : distinct_names -> NoDup (map fst (scripts dbType)).
Proof.
  intros Hd. unfold scripts. destruct (ReadDir dbType) as [entries|] eqn:E; [|constructor].
  assert (Hv : NoDup (versions_of entries)).
  { unfold versions_of. rewrite merge_sort_Permutation. apply NoDup_map_filter. by apply (Hd _ _ E). }
  clear E. induction (versions_of entries) as [|v vers IH]; [constructor|]. apply NoDup_cons in Hv as [Hni Hv].
  cbn [all_scripts]. destruct (ReadDir (PathJoin [dbType; v])) as [files|] eqn:E; [|constructor].
  rewrite map_app. apply NoDup_app. split; [|split; [|by apply IH]].
  - unfold scripts_of. rewrite map_map. cbn [fst].
    rewrite <- (map_map de_Name (pair v)). apply (NoDup_fmap_2 (pair v)), NoDup_map_filter.
    rewrite (merge_sort_Permutation name_le files). by apply (Hd _ _ E).
  - intros k (s & -> & Hs)%list_elem_of_fmap (s' & Es & Hs')%list_elem_of_fmap. apply all_scripts_vers in Hs'.
    unfold scripts_of in Hs. apply list_elem_of_fmap in Hs as (f & -> & _). cbn in Es. apply Hni. by rewrite <- Es in Hs'.
Qed.

Lemma migrate_all_run dbType db db' r :
  distinct_names -> migrate_all dbType db = (db', r) ->
  exists n extra, walked (scripts dbType) db db' r n extra.
Proof.
  intros Hd E. pose proof (scripts_NoDup dbType Hd) as Hnd. unfold migrate_all, scripts in *.
  destruct (ReadDir dbType) as [entries|e].
  - rewrite migrate_versions_run in E. destruct (each run_script _ db) as [db1 r1] eqn:E1.
    apply each_walked in E1 as (n & extra & [W1 W2 W3 W4 W5]); [|done]. exists n, extra.
    destruct r1 as [e|]; injection E as <- <-; constructor; auto.
  - injection E as <- <-. exists 0, []. constructor; cbn; rewrite ?app_nil_r; auto; done.
Qed.

Lemma migrate_with_run rename dbType db db' r :
  distinct_names -> rename = renameLegacyTenantColumns \/ (exists b, rename = renameLegacyTenantColumnsPG b) ->
  migrate_with rename dbType db = (db', r) ->
  exists n extra, walked (scripts dbType) db db' r n extra.
Proof.
  intros Hd Hren E. unfold migrate_with in E.
  assert (H0 : forall e, walked (scripts dbType) db db (Some e) 0 []).
  { intros e. constructor; cbn; rewrite ?app_nil_r; auto; [lia|done]. }
  destruct ensure_err; [injection E as <- <-; by exists 0, []|].
  destruct (rename db) as [db1 r1] eqn:E1. apply rename_keeps in E1 as [Ha Hl]; [|done]. destruct r1 as [e|].
  - injection E as <- <-. exists 0, []. constructor; cbn; rewrite ?app_nil_r; auto; [lia|done].
  - apply migrate_all_run in E as (n & extra & [W1 W2 W3 W4 W5]); [|done]. exists n, extra.
    assert (Hp : pending (scripts dbType) db1 = pending (scripts dbType) db) by (unfold pending; by rewrite Ha).
    rewrite Hp, ?Ha, ?Hl in *. by constructor.
Qed.

(** C24: migrations are applied once and in order. Whatever fails, a run (on
    SQLite or PostgreSQL) executes the first n of the pending scripts, in the
    order of their versions and names, and records exactly these; at most the
    next one was executed without being recorded, and the pending scripts of
    the next run are the rest. A run without error has executed and recorded
    all of them, and the run after it executes none. *)
Theorem migrations_run_once rename dbType db db' r :
  distinct_names -> rename = renameLegacyTenantColumns \/ (exists b, rename = renameLegacyTenantColumnsPG b) ->
  migrate_with rename dbType db = (db', r) ->
  let P := pending (scripts dbType) db in
  (exists n extra,
    db_log db' = db_log db ++ map snd (take n P) ++ extra /\
    db_applied db' = db_applied db ++ map fst (take n P) /\
    (extra = [] \/ extra = map snd (take 1 (drop n P))) /\
    pending (scripts dbType) db' = drop n P) /\
  (r = None ->
    db_log db' = db_log db ++ map snd P /\ db_applied db' = db_applied db ++ map fst P /\
    forall db2 r2, migrate_with rename dbType db' = (db2, r2) ->
      db_log db2 = db_log db' /\ db_applied db2 = db_applied db').
Proof.
  intros Hd Hren E P. pose proof (scripts_NoDup dbType Hd) as Hnd.
  destruct (migrate_with_run _ _ _ _ _ Hd Hren E) as (n & extra & W). pose proof (pending_after _ _ _ _ _ _ Hnd W) as Hp.
  destruct W as [W1 W2 W3 W4 W5]. fold P in W1, W2, W3, W4, W5, Hp. split; [by exists n, extra|].
  intros Hr. destruct (W5 Hr) as [En ->]. subst n. rewrite take_ge, ?app_nil_r in * by lia. split_and!; [done..|].
  intros db2 r2 E2. destruct (migrate_with_run _ _ _ _ _ Hd Hren E2) as (n2 & extra2 & [V1 V2 V3 _ _]).
  rewrite Hp, drop_all, take_nil, drop_nil in *. cbn in V1, V2. rewrite app_nil_r in V2.
  split; [|done]. rewrite V1. by destruct V3 as [->| ->]; rewrite app_nil_r.
Qed.
End Migrate.

(** ** Two versions *)

#[export] Instance two_versions : MigrationEnv := {|
  ReadDir d :=
    if String.eqb d "sqlite" then Ok [{| de_Name := "20260726a"; de_IsDir := true |}; {| de_Name := "20260616a"; de_IsDir := true |};
                                      {| de_Name := "README.md"; de_IsDir := false |}]
    else if String.eqb d "sqlite/20260616a" then Ok [{| de_Name := "02_init.dml.sql"; de_IsDir := false |};
                                                     {| de_Name := "01_init.ddl.sql"; de_IsDir := false |}]
    else Ok [{| de_Name := "01_alter.sql"; de_IsDir := false |}; {| de_Name := "notes.txt"; de_IsDir := false |}];
  ReadFile p := Ok p;
  mg_schema := list (string * list string);
  tables_of s := s;
  exec_script c s := ((s ++ [(c, ["id"; "namespace_id"])])%list, None);
  rename_column t s := map (fun x => if String.eqb x.1 t then (t, "namespace_id" :: List.filter (fun c => negb (String.eqb c "tenant_id")) x.2) else x) s;
  ensure_err := None; list_err := None; columns_err _ := None; check_err _ _ := None; record_err _ _ := None;
|}.

Lemma two_versions_distinct : distinct_names (H := two_versions).
Proof.
  intros d es. cbn. repeat destruct (String.eqb d _); intros [= <-]; apply (bool_decide_unpack _); vm_compute; exact I.
Qed.

Definition old_database : database (H := two_versions) :=
  {| db_schema := [("runs", ["id"; "tenant_id"])]; db_applied := [("20260616a", "01_init.ddl.sql")]; db_log := [] |}.

Lemma migrations_run_once_witness :
  exists db', RunMigrations "sqlite" old_database = (db', None) /\
    db_log db' = ["sqlite/20260616a/02_init.dml.sql"; "sqlite/20260726a/01_alter.sql"] /\
    (RunMigrations "sqlite" db').1.(db_log) = db_log db'.
Proof.
  eexists. split; [reflexivity|].
  destruct (migrations_run_once renameLegacyTenantColumns "sqlite" old_database _ None two_versions_distinct (or_introl eq_refl) eq_refl)
    as [_ Hr].
  destruct (Hr eq_refl) as (Hl & _ & Ha). split; [exact (eq_trans Hl ltac:(vm_compute; reflexivity))|].
  exact (proj1 (Ha _ _ (surjective_pairing _))).
Defined.
