(* ===== verification/Knowledge.v ===== *)
(** * Knowledge and memory

    [pkg/store/pkg/knowledge] (the terms of a query, the search, the tags,
    the upsert), the handlers of [api/pkg/handler/knowledge.go] that list and
    search, and [pkg/store/pkg/memory].  The two text functions of the
    database the queries use are the class [SqlText]. *)

From S2P Require Export Defs JsonFacts.
From stdpp Require Import sorting.
From Stdlib Require Import Ascii.

Local Open Scope string_scope.
Local Open Scope list_scope.
Local Open Scope Z_scope.

(** ** Terms of a query (search.go) *)

(** Letters and digits; every byte of a character beyond ASCII is taken to be
    part of a letter. *)
Definition word_byte (c : ascii) : bool :=
  let n := nat_of_ascii c in
  ((48 <=? n) && (n <=? 57) || (65 <=? n) && (n <=? 90) || (97 <=? n) && (n <=? 122) || (128 <=? n))%nat.

(** [strings.FieldsFunc] *)
Fixpoint fields_go (s word : string) : list string :=
  match s with
  | EmptyString => if String.eqb word "" then [] else [word]
  | String c s =>
      if word_byte c then fields_go s (word +:+ String c "")
      else if String.eqb word "" then fields_go s "" else word :: fields_go s ""
  end.
Definition FieldsFunc (s : string) : list string := fields_go s "".

(** The loop over the parts; it ends at sixteen terms. *)
Fixpoint collect_terms (parts : list string) (terms : list string) : list string :=
  match parts with
  | [] => terms
  | part :: parts =>
      let term := ToLower (TrimSpace part) in
      if (String.length term <? 2)%nat then collect_terms parts terms
      else if bool_decide (term ∈ terms) then collect_terms parts terms
      else
        let terms := terms ++ [term] in
        if (16 <=? length terms)%nat then terms else collect_terms parts terms
  end.

Definition searchTerms (query : string) : list string :=
  let terms := collect_terms (FieldsFunc query) [] in
  match terms with
  | [] => if String.eqb (TrimSpace query) "" then [] else [ToLower (TrimSpace query)]
  | _ => terms
  end.

(** ** Searches *)

(** [x LIKE p] and [INSTR(x, y) > 0]. A pattern without wildcards between two
    percent signs is found in a text whatever the case of its letters. *)
Definition no_wildcard (t : string) : bool := no_char "%" t && no_char "_" t.

Class SqlText := {
  sql_like : string -> string -> bool;
  sql_instr : string -> string -> bool;
  like_contains : forall t s, no_wildcard t = true -> sql_like ("%" +:+ t +:+ "%") s = Contains (ToLower s) (ToLower t);
  instr_contains : forall s t, sql_instr s t = Contains s t;
}.

Record KnowledgeSearchRequest := { ks_Query : string; ks_TopK : Z; ks_Tags : list string }.

(** The JSON of the tags, as the store writes it. *)
Definition tags_text (k : KnowledgeRow) : string :=
  match kn_Tags k with Some tags => Marshal (VList (map VStr tags)) | None => "null" end.

Section Search.
Context `{SqlText}.

Definition term_clause (k : KnowledgeRow) (term : string) : bool :=
  sql_like ("%" +:+ term +:+ "%") (ToLower (kn_Title k)) || sql_like ("%" +:+ term +:+ "%") (ToLower (kn_Content k)).
Definition tag_clause (k : KnowledgeRow) (tag : string) : bool := sql_instr (tags_text k) (Quote tag).

(** [Search]: [db_err] is the error of the query. *)
Definition Knowledge_store_Search (db_err : option string) (req : KnowledgeSearchRequest) (tbl : list KnowledgeRow)
    : res (list KnowledgeRow) :=
  let topK := if ks_TopK req <=? 0 then 20 else ks_TopK req in
  match searchTerms (ks_Query req) with
  | [] => Ok []
  | terms =>
      match db_err with
      | Some e => Err ("knowledge search: " +:+ e)
      | None =>
          Ok (take (Z.to_nat topK)
                (List.filter (fun k => existsb (term_clause k) terms &&
                                       match ks_Tags req with [] => true | tags => existsb (tag_clause k) tags end)
                   (live_rows tbl)))
      end
  end.

(** [SearchByTags] *)
Definition SearchByTags (db_err : option string) (tags : list string) (tbl : list KnowledgeRow) : res (list KnowledgeRow) :=
  match tags with
  | [] => Ok []
  | _ =>
      match db_err with
      | Some e => Err ("knowledge search by tags: " +:+ e)
      | None => Ok (List.filter (fun k => existsb (tag_clause k) tags) (live_rows tbl))
      end
  end.

(** *** Handlers (handler/knowledge.go) *)

Variable db_err : string -> option string.

Definition number_of (s : string) : Z := match Atoi s with Some z => z | None => 0 end.

(** The list of entries with a tag, or a page of all. *)
Definition Knowledge_List (tagsParam page size : string) (tbl : list KnowledgeRow)
    : reply (list KnowledgeRow + Page KnowledgeRow) :=
  let page := if number_of page <? 1 then 1 else number_of page in
  let size := if number_of size <? 1 then 20 else number_of size in
  if negb (String.eqb tagsParam "") then
    match SearchByTags (db_err "SearchByTags") (SplitByte "," tagsParam) tbl with
    | Err e => Fail 500 e
    | Ok results => Reply 200 (inl results)
    end
  else
    match db_err "Select" with
    | Some e => Fail 500 e
    | None => Reply 200 (inr (store_Select {| pg_Page := page; pg_Size := size |} tbl))
    end.

Definition Knowledge_Search (body : option KnowledgeSearchRequest) (tbl : list KnowledgeRow) : reply (list KnowledgeRow) :=
  match body with
  | None => Fail 400 "invalid request body"
  | Some req =>
      if String.eqb (ks_Query req) "" then Fail 400 "query is required"
      else match Knowledge_store_Search (db_err "Search") req tbl with
           | Err e => Fail 500 e
           | Ok results => Reply 200 results
           end
  end.

(** *** Tags *)

(** The elements of the tags of an entry as rows: one NULL for a null. *)
Definition json_each (k : KnowledgeRow) : list (option string) :=
  match kn_Tags k with Some tags => map Some tags | None => [None] end.

Definition le_value (a b : option string) : Prop :=
  match a, b with None, _ => True | Some _, None => False | Some a, Some b => String.leb a b = true end.
#[export] Instance le_value_dec : RelDecision le_value.
Proof. intros [a|] [b|]; cbn; solve_decision. Defined.

(** The rows of the query: distinct, in order; a NULL cannot be read. *)
Fixpoint read_tags (values : list (option string)) : res (list string) :=
  match values with
  | [] => Ok []
  | None :: _ => Err "knowledge list tags scan: converting NULL to string is unsupported"
  | Some tag :: values =>
      let? tags := read_tags values in
      Ok (if String.eqb tag "" then tags else tag :: tags)
  end.

Definition tag_values (tbl : list KnowledgeRow) : list (option string) :=
  merge_sort le_value (remove_dups (concat (map json_each (List.filter (fun k => negb (row_deleted k)) tbl)))).

(** [listTagsFallback]: for a database without the JSON function. *)
Definition listTagsFallback (fail : option string) (tbl : list KnowledgeRow) : res (list string) :=
  match fail with
  | Some e => Err ("knowledge list tags fallback: " +:+ e)
  | None =>
      Ok (remove_dups (concat (map (fun k => match kn_Tags k with Some t => t | None => [] end)
                                 (List.filter (fun k => negb (row_deleted k)) tbl))))
  end.

Definition ListTags (tbl : list KnowledgeRow) : res (list string) :=
  match db_err "ListTags" with
  | Some _ => listTagsFallback (db_err "listTagsFallback") tbl
  | None => read_tags (tag_values tbl)
  end.

Definition Knowledge_ListTags (tbl : list KnowledgeRow) : reply (list string) :=
  match ListTags tbl with Err e => Fail 500 e | Ok tags => Reply 200 tags end.

(** *** The upsert *)

Definition same_source (source : string) (k : KnowledgeRow) : bool := String.eqb (kn_Source k) source && negb (row_deleted k).

(** [UpsertBySourceRef]: the entry gets the id of a live one of its source, or
    the fields of a new one; then it is saved. *)
Definition UpsertBySourceRef (now : Z) (e : KnowledgeRow) (tbl : list KnowledgeRow) : option string * list KnowledgeRow :=
  match db_err "upsert" with
  | Some err => (Some ("upsert lookup: " +:+ err), tbl)
  | None =>
      let b :=
        match find (same_source (kn_Source e)) tbl with
        | Some existing => MarkUpdated "" now (base_id (b_ID (kn_base existing)) now (kn_base e))
        | None => MarkCreated "" now (kn_base e)
        end in
      match db_err "Save" with
      | Some err => (Some err, tbl)
      | None => (None, store_Save (kn_with b (kn_Tags e) e) tbl)
      end
  end.
End Search.

(** ** Memories of nodes (memory_sqlite.go, memory_postgres.go) *)

Record MemRow := {
  mr_ID : string; mr_info : MemoryInfo; mr_Embedding : option (list f64); mr_CreatedAt : Z; mr_UpdatedAt : Z;
  mr_deleted : bool;
}.

Definition same_slot (flow node : string) (r : MemRow) : bool :=
  String.eqb (m_FlowID (mr_info r)) flow && String.eqb (m_NodeID (mr_info r)) node.

Definition with_memory (m : MemoryInfo) (emb : option (list f64)) (now : Z) (r : MemRow) : MemRow :=
  {| mr_ID := mr_ID r;
     mr_info := {| m_FlowID := m_FlowID (mr_info r); m_NodeID := m_NodeID (mr_info r);
                   m_Content := m_Content m; m_Metadata := m_Metadata m |};
     mr_Embedding := emb; mr_CreatedAt := mr_CreatedAt r; mr_UpdatedAt := now; mr_deleted := mr_deleted r |}.

(** [UpsertMemory]: a new row is created at [now] in SQLite, at the memory's
    own time, if it has one, in PostgreSQL. *)
Definition UpsertMemory (sqlite : bool) (id : string) (created : option Z) (now : Z) (m : MemoryInfo) (emb : option (list f64))
    (tbl : list MemRow) : list MemRow :=
  if existsb (same_slot (m_FlowID m) (m_NodeID m)) tbl
  then map (fun r => if same_slot (m_FlowID m) (m_NodeID m) r then with_memory m emb now r else r) tbl
  else tbl ++ [{| mr_ID := id; mr_info := m; mr_Embedding := emb;
                  mr_CreatedAt := if sqlite then now else given_opt created now;
                  mr_UpdatedAt := now; mr_deleted := false |}].

Definition later (a b : MemRow) : Prop := mr_UpdatedAt b <= mr_UpdatedAt a.
#[export] Instance later_dec : RelDecision later := fun a b => Z_le_dec _ _.

(** The memories of a flow, the latest first. *)
Definition flow_memories (flowID : string) (tbl : list MemRow) : list MemRow :=
  merge_sort later (List.filter (fun r => String.eqb (m_FlowID (mr_info r)) flowID) tbl).

(** The times are texts in the table, and read into times. *)
Definition scan_text_time (t : Z) : res Z :=
  match scan_null_time (Some t) with Ok _ => Ok t | Err err => Err err end.
Definition scanNodeMemory (r : MemRow) : res MemRow :=
  let? created := scan_text_time (mr_CreatedAt r) in
  let? updated := scan_text_time (mr_UpdatedAt r) in
  Ok {| mr_ID := ""; mr_info := mr_info r; mr_Embedding := mr_Embedding r; mr_CreatedAt := created; mr_UpdatedAt := updated;
        mr_deleted := false |}.

(** [SearchMemory]: a negative limit is none. *)
Definition SearchMemory (flowID : string) (embedding : option (list f64)) (topK : Z) (tbl : list MemRow) : res (list MemRow) :=
  each scanNodeMemory (if topK <? 0 then flow_memories flowID tbl else take (Z.to_nat topK) (flow_memories flowID tbl)).

Definition ListByFlow (flowID : string) (tbl : list MemRow) : res (list MemRow) := SearchMemory flowID None 100 tbl.

Example searchTerms_ex :
  searchTerms "The cache, a TTL-cache; x" = ["the"; "cache"; "ttl"] /\ searchTerms " % " = ["%"] /\ searchTerms "  " = [].
Proof. vm_compute. split_and!; reflexivity. Qed.

(** * What the searches of knowledge and memory find *)

Local Close Scope Z_scope.

(** ** Terms *)

Fixpoint word (s : string) : bool :=
  match s with EmptyString => true | String c s => word_byte c && word s end.

Lemma word_append s t : word (s +:+ t) = word s && word t.
Proof. induction s as [|c s IH]; [done|]. cbn. by rewrite IH, andb_assoc. Qed.

Lemma fields_words s w : word w = true -> Forall (fun p => word p = true) (fields_go s w).
Proof.
  revert w. induction s as [|c s IH]; intros w Hw; cbn [fields_go].
  - destruct (String.eqb w ""); repeat constructor. done.
  - destruct (word_byte c) eqn:Ec.
    + apply IH. rewrite word_append, Hw. cbn. by rewrite Ec.
    + destruct (String.eqb w ""); [|constructor; [done|]]; by apply IH.
Qed.

(** A property of every lower-case word holds of every term. *)
Lemma collect_terms_all (P : string -> Prop) parts terms :
  Forall (fun p => P (ToLower (TrimSpace p))) parts -> Forall P terms -> Forall P (collect_terms parts terms).
Proof.
  revert terms. induction parts as [|p parts IH]; intros terms Hp Ht; [done|]. apply Forall_cons in Hp as [Hp Hps].
  cbn [collect_terms]. repeat case_match; auto; try apply IH; auto; apply Forall_app; auto.
Qed.

Lemma collect_terms_bounds parts terms :
  NoDup terms -> length terms <= 15 \/ length terms <= 16 /\ parts = [] ->
  NoDup (collect_terms parts terms) /\ length (collect_terms parts terms) <= 16.
Proof.
  revert terms. induction parts as [|p parts IH]; intros terms Hnd Hlen; [split; [done|cbn; lia]|].
  destruct Hlen as [Hlen|[_ Hn]]; [|done]. cbn [collect_terms].
  destruct (Nat.ltb _ 2); [apply IH; auto|]. case_bool_decide as Hin; [apply IH; auto|].
  assert (Hnd' : NoDup (terms ++ [ToLower (TrimSpace p)])).
  { apply NoDup_app. split; [done|]. split; [|apply NoDup_singleton]. intros x Hx ->%list_elem_of_singleton. done. }
  destruct (Nat.leb 16 _) eqn:E; [split; [done|rewrite length_app; cbn; lia]|].
  apply IH; [done|]. left. apply Nat.leb_gt in E. lia.
Qed.

(** Sixteen distinct terms at most. *)
Lemma searchTerms_bounds q : NoDup (searchTerms q) /\ length (searchTerms q) <= 16.
Proof.
  unfold searchTerms. destruct (collect_terms_bounds (FieldsFunc q) []) as [Hnd Hlen]; [constructor|left; cbn; lia|].
  destruct (collect_terms (FieldsFunc q) []); [|done].
  destruct (String.eqb _ _); [split; [constructor|cbn; lia]|split; [apply NoDup_singleton|cbn; lia]].
Qed.

Lemma word_cons c s : word (String c s) = true -> word_byte c = true /\ word s = true.
Proof. cbn. by intros ?%andb_true_iff. Qed.

Lemma word_no_wildcard s : word s = true -> no_wildcard s = true.
Proof.
  unfold no_wildcard. induction s as [|c s IH]; [done|]. intros [Hc Hs]%word_cons. cbn [no_char].
  specialize (IH Hs). apply andb_true_iff in IH as [-> ->]. rewrite !andb_true_r.
  destruct (Ascii.eqb_spec c "%") as [->|]; [discriminate Hc|]. by destruct (Ascii.eqb_spec c "_") as [->|].
Qed.

Lemma word_ToLower s : word s = true -> word (ToLower s) = true.
Proof.
  induction s as [|c s IH]; [done|]. intros [Hc Hs]%word_cons. cbn [ToLower word]. rewrite IH by done. rewrite andb_true_r.
  clear - Hc. destruct c as [[] [] [] [] [] [] [] []]; vm_compute in Hc |- *; done.
Qed.

Lemma word_TrimSpace s : word s = true -> TrimSpace s = s.
Proof.
  assert (Hc : forall c, word_byte c = true -> is_space c = false).
  { intros c. destruct c as [[] [] [] [] [] [] [] []]; vm_compute; done. }
  intros Hw. unfold TrimSpace. assert (Hl : TrimLeft s = s).
  { destruct s as [|c s]; [done|]. apply word_cons in Hw as [Hw _]. cbn. by rewrite Hc. }
  rewrite Hl. clear Hl. induction s as [|c s IH]; [done|]. apply word_cons in Hw as [Hw Hs]. cbn [TrimRight].
  rewrite IH by done. rewrite Hc by done. by destruct s.
Qed.

(** The query has a word of two letters; then every term is free of
    wildcards. *)
Definition has_words (q : string) : bool := match collect_terms (FieldsFunc q) [] with [] => false | _ => true end.

Lemma terms_no_wildcard q : has_words q = true -> Forall (fun t => no_wildcard t = true) (searchTerms q).
Proof.
  intros Hw. unfold searchTerms, has_words in *. destruct (collect_terms (FieldsFunc q) []) as [|t ts] eqn:E; [done|].
  rewrite <- E. apply collect_terms_all; [|constructor].
  eapply Forall_impl; [by apply fields_words|]. cbn beta. intros p Hp. rewrite (word_TrimSpace p Hp).
  by apply word_no_wildcard, word_ToLower.
Qed.

(** ** Tags in their JSON *)

(** A tag that is written as it is. *)
Definition clean_tag (t : string) : bool := String.eqb (escape t) t && no_char (ascii_of_nat 34) t.

Lemma Contains_cons c s sub : sub <> "" -> Contains (String c s) sub = HasPrefix (String c s) sub || Contains s sub.
Proof. intros Hs. unfold Contains. cbn [Index]. destruct (HasPrefix (String c s) sub); [done|]. by destruct (Index s sub). Qed.

Lemma Contains_skip u X t : no_char (ascii_of_nat 34) u = true -> Contains (u +:+ X) (Quote t) = Contains X (Quote t).
Proof.
  induction u as [|c u IH]; intros Hu; [done|]. cbn [no_char] in Hu. apply andb_true_iff in Hu as [Hc Hu].
  cbn [String.append]. rewrite Contains_cons by done. rewrite IH by done.
  replace (HasPrefix (String c (u +:+ X)) (Quote t)) with false; [done|].
  unfold Quote, dquote. cbn [String.append HasPrefix]. rewrite Ascii.eqb_sym. apply negb_true_iff in Hc. by rewrite Hc.
Qed.

Lemma HasPrefix_quoted t u X :
  no_char (ascii_of_nat 34) t = true -> no_char (ascii_of_nat 34) u = true ->
  HasPrefix (u +:+ dquote +:+ X) (t +:+ dquote) = String.eqb t u.
Proof.
  revert u. induction t as [|c t IH]; intros u Ht Hu.
  - destruct u as [|c u]; [done|]. cbn [no_char] in Hu. apply andb_true_iff in Hu as [Hc _]. apply negb_true_iff in Hc.
    unfold dquote. cbn [String.append HasPrefix]. rewrite Ascii.eqb_sym, Hc. done.
  - cbn [no_char] in Ht. apply andb_true_iff in Ht as [Hc Ht]. apply negb_true_iff in Hc. destruct u as [|c' u].
    + unfold dquote. cbn [String.append HasPrefix]. by rewrite Hc.
    + cbn [no_char] in Hu. apply andb_true_iff in Hu as [_ Hu]. cbn [String.append HasPrefix String.eqb].
      rewrite IH by done. by destruct (Ascii.eqb c c').
Qed.

Definition tag_items (tags : list string) : string := GoStr.Join (map Quote tags) ",".

(** The text between two quoted items, or after the last. *)
Lemma tag_items_contains t tags :
  no_char (ascii_of_nat 34) t = true -> t <> "," -> Forall (fun u => no_char (ascii_of_nat 34) u = true) tags ->
  Contains (tag_items tags +:+ "]") (Quote t) = bool_decide (t ∈ tags).
Proof.
  intros Ht Hcomma Hall. assert (Hq : Quote t <> "") by done.
  assert (Hhead : forall u X, no_char (ascii_of_nat 34) u = true ->
    Contains (Quote u +:+ X) (Quote t) = String.eqb t u || Contains (dquote +:+ X) (Quote t)).
  { intros u X Hu. unfold Quote at 1. rewrite !append_assoc. unfold dquote at 1. cbn [String.append].
    rewrite Contains_cons by done. rewrite Contains_skip by done. f_equal.
    unfold Quote. unfold dquote at 2. cbn [String.append HasPrefix]. rewrite Ascii.eqb_refl. cbn [andb].
    by apply HasPrefix_quoted. }
  induction tags as [|u tags IH]; [rewrite bool_decide_eq_false_2 by (by intros ?%elem_of_nil); done|].
  apply Forall_cons in Hall as [Hu Hall]. destruct tags as [|u' tags].
  - cbn [tag_items map GoStr.Join]. unfold tag_items. cbn [map GoStr.Join]. rewrite Hhead by done.
    replace (Contains (dquote +:+ "]") (Quote t)) with false.
    + rewrite orb_false_r. destruct (String.eqb_spec t u) as [->|Hne].
      * by rewrite bool_decide_eq_true_2 by left.
      * rewrite bool_decide_eq_false_2; [done|]. by intros ->%list_elem_of_singleton.
    + symmetry. unfold dquote. cbn [String.append]. rewrite !Contains_cons by done. unfold Quote, dquote.
      cbn [String.append HasPrefix]. destruct t as [|c t]; [done|]. cbn [no_char] in Ht. cbn [String.append HasPrefix].
      destruct t; cbn; rewrite ?andb_false_r; by destruct (Ascii.eqb c "]").
  - change (tag_items (u :: u' :: tags)) with (Quote u +:+ "," +:+ tag_items (u' :: tags)). rewrite !append_assoc.
    rewrite Hhead by done. unfold dquote at 1. cbn [String.append].
    rewrite !Contains_cons by done. rewrite IH by done.
    replace (HasPrefix (String (ascii_of_nat 34) (String "," (tag_items (u' :: tags) +:+ "]"))) (Quote t)) with false.
    + replace (HasPrefix (String "," (tag_items (u' :: tags) +:+ "]")) (Quote t)) with false by done.
      cbn [orb]. destruct (String.eqb_spec t u) as [->|Hne]; cbn [orb].
      * by rewrite bool_decide_eq_true_2 by left.
      * apply bool_decide_ext. rewrite (elem_of_cons (u' :: tags)). tauto.
    + symmetry. destruct (HasPrefix _ _) eqn:E; [|done]. exfalso. apply Hcomma. revert E.
      unfold Quote at 1, dquote. cbn [String.append HasPrefix]. rewrite Ascii.eqb_refl. cbn [andb].
      assert (Ei : exists Y, tag_items (u' :: tags) = String (ascii_of_nat 34) Y).
      { destruct tags; unfold tag_items; cbn [map GoStr.Join]; unfold Quote, dquote; cbn [String.append]; by eexists. }
      destruct Ei as [Y ->]. change (String "," (String (ascii_of_nat 34) Y +:+ "]")) with ("," +:+ dquote +:+ (Y +:+ "]")).
      change (String (ascii_of_nat 34) "") with dquote. rewrite HasPrefix_quoted by done. by intros ->%String.eqb_eq.
Qed.

Definition clean_tags (k : KnowledgeRow) : bool := match kn_Tags k with Some tags => forallb clean_tag tags | None => true end.
Definition tags_of (k : KnowledgeRow) : list string := match kn_Tags k with Some tags => tags | None => [] end.

Section Search.
Context `{SqlText}.

(** The query on the text of the tags is membership, for clean tags. *)
Lemma tag_clause_spec k t :
  clean_tag t = true -> t <> "," -> clean_tags k = true -> tag_clause k t = bool_decide (t ∈ tags_of k).
Proof.
  unfold clean_tag at 1. intros [_ Ht]%andb_true_iff Hc Hk. unfold tag_clause, tags_text. rewrite instr_contains.
  unfold clean_tags, tags_of in *. destruct (kn_Tags k) as [tags|].
  2: { rewrite bool_decide_eq_false_2 by (by intros ?%elem_of_nil). by vm_compute. }
  cbn [Marshal]. rewrite map_map. cbn [String.append]. rewrite Contains_cons by done.
  replace (HasPrefix _ (Quote t)) with false by done. cbn [orb].
  rewrite forallb_forall in Hk.
  replace (map (fun x => Marshal (VStr x)) tags) with (map Quote tags).
  2: { apply map_ext_in. intros u Hu. cbn [Marshal]. unfold json_string.
       specialize (Hk u Hu). unfold clean_tag in Hk. apply andb_true_iff in Hk as [->%String.eqb_eq _]. done. }
  apply tag_items_contains; [done|done|]. apply List.Forall_forall. intros u Hu. specialize (Hk u Hu).
  unfold clean_tag in Hk. by apply andb_true_iff in Hk as [_ Hk].
Qed.

(** What a search is for: an entry one of whose texts has one of the terms,
    and that has one of the tags, if any are asked for. *)
Definition matches (req : KnowledgeSearchRequest) (k : KnowledgeRow) : bool :=
  existsb (fun t => Contains (ToLower (kn_Title k)) (ToLower t) || Contains (ToLower (kn_Content k)) (ToLower t))
    (searchTerms (ks_Query req)) &&
  match ks_Tags req with [] => true | tags => existsb (fun t => bool_decide (t ∈ tags_of k)) tags end.

Lemma existsb_ext_in {A} (f g : A -> bool) l : (forall x, In x l -> f x = g x) -> existsb f l = existsb g l.
Proof. induction l as [|x l IH]; intros Hl; [done|]. cbn. rewrite (Hl x) by (by left). rewrite IH; [done|]. intros; apply Hl. by right. Qed.

Lemma term_clause_spec k t :
  no_wildcard t = true ->
  term_clause k t = Contains (ToLower (kn_Title k)) (ToLower t) || Contains (ToLower (kn_Content k)) (ToLower t).
Proof. intros Ht. unfold term_clause. by rewrite !like_contains, !ToLower_idemp. Qed.

End Search.

(** ** Two entries *)

(** A [LIKE] that knows no wildcard but the two percent signs around a term. *)
#[refine, export] Instance plain_text : SqlText := {
  sql_like p s := match p with String _ r => Contains (ToLower s) (ToLower (stake (String.length r - 1) r)) | EmptyString => false end;
  sql_instr := Contains;
}.
Proof.
  - intros t s _. cbn [String.append]. rewrite length_append. cbn [String.length].
    replace (String.length t + 1 - 1) with (String.length t) by lia. by rewrite stake_append.
  - done.
Defined.

Definition entry (id ns title : string) (created : Z) (tags : option (list string)) : KnowledgeRow :=
  {| kn_base := {| b_ID := id; b_Description := ""; b_Namespace := ns; b_Status := "ACTIVE"; b_CreatedAt := created;
                   b_CreatedBy := ""; b_UpdatedAt := created; b_UpdatedBy := ""; b_DelFlag := false |};
     kn_Title := title; kn_Content := ""; kn_ContentType := "text"; kn_Source := "s"; kn_SourceRef := "";
     kn_Tags := tags; kn_Metadata := None |}.

Definition small_base : list KnowledgeRow :=
  [entry "1" "a" "Cache TTL" 10 (Some ["ops"; "cache"]); entry "2" "b" "The cache" 20 (Some ["cache"]); entry "3" "a" "Other" 30 (Some [])].

Definition cache_query : KnowledgeSearchRequest := {| ks_Query := "CACHE?"; ks_TopK := 1; ks_Tags := ["cache"] |}.


(** Entries of every namespace are found, and listed. *)
Lemma search_ignores_namespace :
  Knowledge_store_Search None {| ks_Query := "cache"; ks_TopK := 0; ks_Tags := [] |} small_base =
  Ok [entry "2" "b" "The cache" 20 (Some ["cache"]); entry "1" "a" "Cache TTL" 10 (Some ["ops"; "cache"])].
Proof. vm_compute. reflexivity. Qed.

(** A comma is a tag of every entry with two tags; a tag with a character that
    JSON escapes is a tag of none. *)
Lemma comma_tag_found :
  tag_clause (entry "1" "a" "t" 1 (Some ["x"; "y"])) "," = true /\ tag_clause (entry "1" "a" "t" 1 (Some ["a&b"])) "a&b" = false.
Proof. vm_compute. split; reflexivity. Qed.

(** One entry without tags, upserted, and the tags of no entry can be listed. *)
Lemma null_tags_break_list :
  is_ok (ListTags (fun _ => None) (UpsertBySourceRef (fun _ => None) 5 (entry "9" "a" "t" 1 None) small_base).2) = false.
Proof. vm_compute. reflexivity. Qed.

(** ** The upsert *)

(** The live entries of a source. *)
Definition of_source (source : string) (tbl : list KnowledgeRow) : list KnowledgeRow := List.filter (same_source source) tbl.

Lemma filter_filter {A} (f g : A -> bool) l : List.filter f (List.filter g l) = List.filter (fun x => g x && f x) l.
Proof. induction l as [|x l IH]; [done|]. cbn. destruct (g x); cbn; [|done]. by rewrite IH. Qed.

(** After an upsert the source has one live entry, the one that was given, if
    it had at most one before; it has the id of the old one. *)
Lemma upsert_one_per_source now e tbl :
  length (of_source (kn_Source e) tbl) <= 1 ->
  b_DelFlag (kn_base e) = false ->
  exists e', (UpsertBySourceRef (fun _ => None) now e tbl).1 = None /\
    of_source (kn_Source e) (UpsertBySourceRef (fun _ => None) now e tbl).2 = [e'] /\
    kn_Content e' = kn_Content e /\ b_UpdatedAt (kn_base e') = now /\
    b_ID (kn_base e') = match find (same_source (kn_Source e)) tbl with Some x => b_ID (kn_base x) | None => b_ID (kn_base e) end.
Proof.
  intros Hone Hlive. unfold UpsertBySourceRef. cbn [fst snd].
  set (b := match find (same_source (kn_Source e)) tbl with Some _ => _ | None => _ end).
  exists (kn_with b (kn_Tags e) e). split; [done|].
  assert (Hb : b_DelFlag b = false /\ b_UpdatedAt b = now /\
    b_ID b = match find (same_source (kn_Source e)) tbl with Some x => b_ID (kn_base x) | None => b_ID (kn_base e) end).
  { subst b. destruct (find _ tbl); done. }
  destruct Hb as (Hd & Hu & Hi). split_and!; [|done..|exact Hi].
  unfold of_source, store_Save. rewrite List.filter_app, filter_filter. cbn [List.filter].
  unfold same_source at 2. cbn [kn_Source kn_with row_deleted knowledge_Row kn_base]. rewrite String.eqb_refl, Hd. cbn [negb andb].
  replace (List.filter _ tbl) with (@nil KnowledgeRow); [done|].
  symmetry. unfold of_source in Hone. cbn [row_key knowledge_Row kn_with kn_base]. rewrite Hi. clear -Hone.
  induction tbl as [|x tbl IH]; [done|]. cbn [List.filter find] in *.
  destruct (same_source (kn_Source e) x) eqn:Ex.
  - rewrite String.eqb_refl. cbn [negb andb]. cbn [length] in Hone.
    assert (Hnone : List.filter (same_source (kn_Source e)) tbl = []) by (destruct (List.filter _ tbl); [done|cbn in Hone; lia]).
    rewrite <- (filter_filter (same_source (kn_Source e)) (fun r => negb (String.eqb (b_ID (kn_base r)) (b_ID (kn_base x))))).
    apply nil_length_inv. pose proof (f_equal (@length _) Hnone) as Hl. cbn in Hl.
    assert (Hle : length (List.filter (same_source (kn_Source e)) (List.filter (fun r => negb (String.eqb (b_ID (kn_base r)) (b_ID (kn_base x)))) tbl))
                  <= length (List.filter (same_source (kn_Source e)) tbl)).
    { clear. induction tbl as [|y tbl IH]; [done|]. cbn [List.filter]. destruct (negb _); cbn [List.filter];
        destruct (same_source _ y); cbn; lia. }
    lia.
  - rewrite andb_false_r. by apply IH.
Qed.

(** The time of its creation is the given one: the old one is lost. *)
Lemma upsert_loses_creation :
  map (fun k => b_CreatedAt (kn_base k))
    (UpsertBySourceRef (fun _ => None) 50 (entry "" "a" "again" 0 (Some [])) [entry "1" "a" "t" 10 (Some [])]).2 = [0%Z].
Proof. vm_compute. reflexivity. Qed.

(** ** Memories *)

(** Every node of a flow has one memory. *)
Definition one_per_slot (tbl : list MemRow) : Prop :=
  NoDup (map (fun r => (m_FlowID (mr_info r), m_NodeID (mr_info r))) tbl).

Lemma UpsertMemory_slots sqlite id created now m emb tbl : one_per_slot tbl -> one_per_slot (UpsertMemory sqlite id created now m emb tbl).
Proof.
  unfold one_per_slot, UpsertMemory. intros Hnd. destruct (existsb _ tbl) eqn:Ex.
  - rewrite map_map. erewrite map_ext; [exact Hnd|]. intros r. by destruct (same_slot _ _ r).
  - rewrite map_app. apply NoDup_app. split; [done|]. split; [|apply NoDup_singleton].
    intros s (r & -> & Hr)%list_elem_of_fmap Hs%list_elem_of_singleton. cbn in Hs. injection Hs as Hf Hn.
    apply not_true_iff_false in Ex. apply Ex, existsb_exists. exists r. split; [by apply list_elem_of_In|].
    unfold same_slot. by rewrite Hf, Hn, !String.eqb_refl.
Qed.

Lemma find_slot_map f n (h : MemRow -> MemRow) tbl :
  (forall r, same_slot f n r = true -> same_slot f n (h r) = true) ->
  find (same_slot f n) (map (fun r => if same_slot f n r then h r else r) tbl) =
  match find (same_slot f n) tbl with Some r => Some (h r) | None => None end.
Proof.
  intros Hh. induction tbl as [|r tbl IH]; [done|]. cbn. destruct (same_slot f n r) eqn:E; cbn; [by rewrite Hh|by rewrite E].
Qed.

(** What is remembered is what was last written; the id and the time of
    creation stay those of the first. *)
Lemma UpsertMemory_find sqlite id created now m emb tbl :
  exists r, find (same_slot (m_FlowID m) (m_NodeID m)) (UpsertMemory sqlite id created now m emb tbl) = Some r /\
    mr_info r = m /\ mr_Embedding r = emb /\ mr_UpdatedAt r = now /\
    forall r0, find (same_slot (m_FlowID m) (m_NodeID m)) tbl = Some r0 -> mr_ID r = mr_ID r0 /\ mr_CreatedAt r = mr_CreatedAt r0.
Proof.
  unfold UpsertMemory. destruct (existsb _ tbl) eqn:Ex.
  - rewrite find_slot_map by (intros r Hr; exact Hr).
    destruct (find _ tbl) as [r0|] eqn:Ef.
    + apply find_some in Ef as [_ Hs]. unfold same_slot in Hs. rewrite andb_true_iff, !String.eqb_eq in Hs. destruct Hs as [Hf Hn].
      eexists. split; [reflexivity|]. split_and!; try done; [|by intros r1 [= <-]].
      destruct m. cbn in *. by rewrite Hf, Hn.
    + exfalso. apply existsb_exists in Ex as (r & Hr & Hs). eapply find_none in Ef; [|exact Hr]. congruence.
  - assert (Hn : find (same_slot (m_FlowID m) (m_NodeID m)) tbl = None).
    { destruct (find _ tbl) as [r|] eqn:Ef; [|done]. apply find_some in Ef as [Hr Hs]. exfalso.
      apply not_true_iff_false in Ex. apply Ex, existsb_exists. by exists r. }
    eexists. split.
    + clear Ex. induction tbl as [|r tbl IH]; cbn in *.
      * unfold same_slot. cbn. rewrite !String.eqb_refl. reflexivity.
      * destruct (same_slot _ _ r); [done|by apply IH].
    + split_and!; try done. by rewrite Hn.
Qed.

Lemma elem_of_memories r flow tbl : r ∈ flow_memories flow tbl <-> r ∈ tbl /\ m_FlowID (mr_info r) = flow.
Proof. unfold flow_memories. rewrite merge_sort_Permutation, !list_elem_of_In, filter_In. by rewrite String.eqb_eq. Qed.

(** What is remembered in SQLite is not read again: a flow's memories are
    listed when there are none. *)
Lemma memory_never_read flow emb (k : Z) tbl : k <> 0%Z ->
  is_ok (SearchMemory flow emb k tbl) = true <-> forall r, r ∈ tbl -> m_FlowID (mr_info r) <> flow.
Proof.
  intros Hk. unfold SearchMemory. split.
  - intros Hok r Hr Hf. assert (Hm : r ∈ flow_memories flow tbl) by (by apply elem_of_memories).
    destruct (flow_memories flow tbl) as [|x rows]; [by apply elem_of_nil in Hm|].
    destruct (k <? 0)%Z eqn:E; [done|]. apply Z.ltb_ge in E.
    destruct (Z.to_nat k) as [|n] eqn:En; [lia|]. done.
  - intros Hnone. assert (E : flow_memories flow tbl = []).
    { destruct (flow_memories flow tbl) as [|x rows] eqn:E; [done|]. exfalso.
      assert (Hx : x ∈ flow_memories flow tbl) by (rewrite E; by left).
      apply elem_of_memories in Hx as [Hx Hf]. by apply (Hnone x). }
    rewrite E. by destruct (k <? 0)%Z, (Z.to_nat k).
Qed.
