(* ===== verification/Locks.v ===== *)
(** * Locks and caches on servers

    [pkg/core/pkg/lock/redis.go] and [pg.go]: locks whose leases are kept by a
    Redis server or in a table of PostgreSQL, each process remembering the
    values of its own locks; [lock.go]'s choice of a lock; and
    [pkg/cache/pkg/redis.go] with the choice of a cache.  A Redis server is
    the class [RedisServer]; both locks are clients of the interface
    [LeaseServer], which each server's commands discharge.  Times are
    nanoseconds. *)

From S2P Require Export JobManager.

Local Open Scope string_scope.
Local Open Scope list_scope.
Local Open Scope Z_scope.

(** ** Redis *)

(** The commands the code sends, over the keys a server shows at a time, each
    with its value and, if it has one, the time of its end. *)
Definition entry_live (now : Z) (o : option (string * option Z)) : option (string * option Z) :=
  match o with
  | Some (v, Some e) => if now <? e then Some (v, Some e) else None
  | _ => o
  end.

Class RedisServer (S : Type) := {
  rs_at : Z -> S -> string -> option (string * option Z);
  rs_set : Z -> string -> string -> option Z -> S -> S;
  rs_del : Z -> string -> S -> S;
  rs_flush : S -> S;
  (** keys leave at their end, and only then *)
  rs_at_later : forall now now' s k, now <= now' -> rs_at now' s k = entry_live now' (rs_at now s k);
  rs_set_at : forall now k v e s k', match e with Some e => now < e | None => True end ->
    rs_at now (rs_set now k v e s) k' = if String.eqb k k' then Some (v, e) else rs_at now s k';
  rs_del_at : forall now k s k', rs_at now (rs_del now k s) k' = if String.eqb k k' then None else rs_at now s k';
  rs_flush_at : forall now s k, rs_at now (rs_flush s) k = None;
}.

Section Redis.
Context {S : Type} `{RedisServer S}.

(** [GET], [SET ... NX PX], [PEXPIRE], [DEL]: what they answer and do. *)
Definition redis_get (now : Z) (k : string) (s : S) : option string := fst <$> rs_at now s k.

Definition expiry (now ttl : Z) : option Z := if ttl <=? 0 then None else Some (now + ttl).

Definition redis_setnx (now : Z) (k v : string) (ttl : Z) (s : S) : bool * S :=
  match rs_at now s k with
  | Some _ => (false, s)
  | None => (true, rs_set now k v (expiry now ttl) s)
  end.

Definition redis_del (now : Z) (k : string) (s : S) : Z * S :=
  match rs_at now s k with Some _ => (1, rs_del now k s) | None => (0, s) end.

(** A time that is not positive deletes the key. *)
Definition redis_pexpire (now : Z) (k : string) (ms : Z) (s : S) : Z * S :=
  match rs_at now s k with
  | Some (v, _) => (1, if ms <=? 0 then rs_del now k s else rs_set now k v (Some (now + ms * 1000000)) s)
  | None => (0, s)
  end.

(** The two scripts of [redis.go]. *)
Definition release_script (now : Z) (k v : string) (s : S) : Z * S :=
  if bool_decide (redis_get now k s = Some v) then redis_del now k s else (0, s).
Definition extend_script (now : Z) (k v : string) (ms : Z) (s : S) : Z * S :=
  if bool_decide (redis_get now k s = Some v) then redis_pexpire now k ms s else (0, s).

(** *** The cache *)

(** [Get]: a missing key is no error and no value. *)
Definition RedisCache_Get (err : option string) (now : Z) (k : string) (s : S) : res (option string) :=
  match err with Some e => Err e | None => Ok (redis_get now k s) end.
Definition RedisCache_Set (err : option string) (now : Z) (k v : string) (ttl : Z) (s : S) : option string * S :=
  match err with Some e => (Some e, s) | None => (None, rs_set now k v (expiry now ttl) s) end.
Definition RedisCache_Delete (err : option string) (now : Z) (k : string) (s : S) : option string * S :=
  match err with Some e => (Some e, s) | None => (None, (redis_del now k s).2) end.
Definition RedisCache_Exists (err : option string) (now : Z) (k : string) (s : S) : res bool :=
  match err with Some e => Err e | None => Ok (match rs_at now s k with Some _ => true | None => false end) end.
Definition RedisCache_Clear (err : option string) (s : S) : option string * S :=
  match err with Some e => (Some e, s) | None => (None, rs_flush s) end.
End Redis.

(** *** Which client a cache gets *)

Record RedisCacheConfig := { rc_Nodes : list string; rc_Username : string; rc_Password : string; rc_UseSSL : bool }.

Inductive RedisMode := Sentinel (addrs : list string) | Cluster (addrs : list string) | Standalone (addr : string).

Definition node_addr (n : string) : string := TrimSuffix (TrimPrefix (TrimPrefix n "redis://") "sentinel://") "/".

Definition parseRedisAddrs (cfg : RedisCacheConfig) : list string :=
  List.filter (fun n => negb (String.eqb n "")) (map node_addr (rc_Nodes cfg)).

Definition msToDuration (ms : Z) : Z := if ms <=? 0 then 0 else i64 (ms * 1000000).

(** The first node is looked at as it is given: without nodes the process
    panics. *)
Definition redis_mode (cfg : RedisCacheConfig) : call RedisMode :=
  let addrs := parseRedisAddrs cfg in
  let addrs := match addrs with [] => ["127.0.0.1:6379"] | _ => addrs end in
  match rc_Nodes cfg with
  | [] => Panic "index out of range [0] with length 0"
  | first :: _ =>
      if HasPrefix first "sentinel://" then Ret (Sentinel addrs)
      else match addrs with
           | [a] => Ret (Standalone a)
           | _ => Ret (if (1 <? length addrs)%nat then Cluster addrs else Standalone "")
           end
  end.

Record RedisCache := { ca_mode : RedisMode; ca_cluster : bool; ca_nodes : Z }.

(** [NewRedisCache]; [ping] is the error of the connection. *)
Definition NewRedisCache (ping : RedisMode -> option string) (cfg : RedisCacheConfig) : call (res RedisCache) :=
  match redis_mode cfg with
  | Panic m => Panic m
  | Ret mode =>
      match ping mode with
      | Some e => Ret (Err e)
      | None =>
          let n := match mode with Sentinel l | Cluster l => length l | Standalone _ => 1%nat end in
          Ret (Ok {| ca_mode := mode;
                     ca_cluster := match mode with Sentinel _ | Cluster _ => true | Standalone _ => false end;
                     ca_nodes := Z.of_nat n |})
      end
  end.

(** [NewCacheManager]: [inl] a Redis cache, [inr] the one in memory. *)
Definition NewCacheManager (provider : string) (ping : RedisMode -> option string) (cfg : RedisCacheConfig)
    : call (res (RedisCache + unit)) :=
  if String.eqb provider "Redis" then
    match NewRedisCache ping cfg with
    | Panic m => Panic m
    | Ret (Err e) => Ret (Err ("cache: redis: " +:+ e))
    | Ret (Ok c) => Ret (Ok (inl c))
    end
  else Ret (Ok (inr tt)).

(** ** Leases *)

(** What the locks need of a server: the key's lease that is in force at a
    time, its value and its end; a lease is only given for a key that has none
    in force; the commands on a value leave the leases of other values alone. *)
Class LeaseServer (S : Type) := {
  ls_at : Z -> S -> string -> option (string * option Z);
  cmd_acquire : Z -> string -> string -> Z -> S -> Z * S;
  cmd_release : Z -> string -> string -> S -> Z * S;
  cmd_extend : Z -> string -> string -> Z -> S -> Z * S;
}.

(** [ttl] is the one time the locks are taken for. *)
Class LeaseLaws (S : Type) `{LeaseServer S} (ttl : Z) := {
  ls_at_later : forall now now' s k, now <= now' -> ls_at now' s k = entry_live now' (ls_at now s k);
  acquire_spec : forall now k v s n s', cmd_acquire now k v ttl s = (n, s') ->
    (forall k', k' <> k -> ls_at now s' k' = ls_at now s k') /\
    if 0 <? n then ls_at now s k = None /\ ls_at now s' k = Some (v, Some (now + ttl))
    else ls_at now s' k = ls_at now s k;
  release_spec : forall now k v s n s', cmd_release now k v s = (n, s') ->
    (forall k', k' <> k -> ls_at now s' k' = ls_at now s k') /\
    (ls_at now s' k = ls_at now s k \/ ls_at now s' k = None /\ forall v' e, ls_at now s k = Some (v', e) -> v' = v);
  extend_spec : forall now k v s n s', cmd_extend now k v ttl s = (n, s') ->
    0 <= n /\ (forall k', k' <> k -> ls_at now s' k' = ls_at now s k') /\
    if 0 <? n then ls_at now s' k = Some (v, Some (now + ttl)) /\ forall v' e, ls_at now s k = Some (v', e) -> v' = v
    else ls_at now s' k = ls_at now s k;
}.

(** A command is answered, or fails, done or not. *)
Inductive sent := Answered | Lost (done : bool) (err : string).

Section LockClient.
Context {S : Type} `{LeaseServer S}.

(** What the process remembers: its values by key. *)
Abbreviation values := (gmap string string).

Definition with_outcome {A} (o : sent) (s s' : S) (fail : string -> A) (k : A) : A * S :=
  match o with
  | Answered => (k, s')
  | Lost done e => (fail e, if done then s' else s)
  end.

(** [TryLock]; [value] is fresh. *)
Definition lease_TryLock (o : sent) (value key : string) (ttl now : Z) (m : values) (s : S) : res bool * values * S :=
  let (n, s') := cmd_acquire now key value ttl s in
  with_outcome o s s' (fun e => (Err ("acquire lock " +:+ key +:+ ": " +:+ e), m))
    (if 0 <? n then (Ok true, <[key := value]> m) else (Ok false, m)).

Definition lease_Release (o : sent) (key : string) (now : Z) (m : values) (s : S) : option string * values * S :=
  match m !! key with
  | None => (None, m, s)
  | Some value =>
      let (n, s') := cmd_release now key value s in
      with_outcome o s s' (fun e => (Some ("release lock " +:+ key +:+ ": " +:+ e), m))
        (None, if 0 <? n then delete key m else m)
  end.

Definition lease_Extend (o : sent) (key : string) (ttl now : Z) (m : values) (s : S) : option string * S :=
  match m !! key with
  | None => (Some ("lock " +:+ key +:+ " not held"), s)
  | Some value =>
      let (n, s') := cmd_extend now key value ttl s in
      with_outcome o s s' (fun e => Some ("extend lock " +:+ key +:+ ": " +:+ e))
        (if n =? 0 then Some ("lock " +:+ key +:+ " lost") else None)
  end.
End LockClient.

(** *** The Redis lock *)

Definition lockKey (key : string) : string := "dlock:" +:+ key.

#[export] Instance redis_leases {S} `{RedisServer S} : LeaseServer S := {|
  ls_at now s k := rs_at now s (lockKey k);
  cmd_acquire now k v ttl s := let (ok, s') := redis_setnx now (lockKey k) v ttl s in (if ok then 1 else 0, s');
  cmd_release now k v s := release_script now (lockKey k) v s;
  cmd_extend now k v ttl s := extend_script now (lockKey k) v (Z.quot ttl 1000000) s;
|}.

(** *** The PostgreSQL lock *)

(** A row of [dlocks]; the server's clock is that of its clients. *)
Record dlock := { dl_value : string; dl_expires : Z }.

(** [INSERT ... ON CONFLICT DO UPDATE ... WHERE expires_at < NOW()] *)
Definition pg_acquire (now : Z) (k v : string) (ttl : Z) (s : gmap string dlock) : Z * gmap string dlock :=
  match s !! k with
  | Some r => if dl_expires r <? now then (1, <[k := {| dl_value := v; dl_expires := now + ttl |}]> s) else (0, s)
  | None => (1, <[k := {| dl_value := v; dl_expires := now + ttl |}]> s)
  end.

(** [DELETE ... WHERE lock_key = $1 AND lock_value = $2] *)
Definition pg_release (now : Z) (k v : string) (s : gmap string dlock) : Z * gmap string dlock :=
  match s !! k with
  | Some r => if String.eqb (dl_value r) v then (1, delete k s) else (0, s)
  | None => (0, s)
  end.

(** [UPDATE dlocks SET expires_at ... WHERE lock_key = ... AND lock_value = ...] *)
Definition pg_extend (now : Z) (k v : string) (ttl : Z) (s : gmap string dlock) : Z * gmap string dlock :=
  match s !! k with
  | Some r => if String.eqb (dl_value r) v then (1, <[k := {| dl_value := v; dl_expires := now + ttl |}]> s) else (0, s)
  | None => (0, s)
  end.

(** [CleanupExpired] *)
Definition CleanupExpired (now : Z) (s : gmap string dlock) : gmap string dlock :=
  filter (fun kr => now <= dl_expires kr.2) s.

#[export] Instance pg_leases : LeaseServer (gmap string dlock) := {|
  ls_at now s k := entry_live now ((fun r => (dl_value r, Some (dl_expires r))) <$> s !! k);
  cmd_acquire := pg_acquire; cmd_release := pg_release; cmd_extend := pg_extend;
|}.

Definition PostgresLock_TryLock := lease_TryLock (S := gmap string dlock).
Definition PostgresLock_Release := lease_Release (S := gmap string dlock).
Definition PostgresLock_Extend := lease_Extend (S := gmap string dlock).

(** *** Which lock ([lock.New]) *)

Inductive LockKind := MemoryKind | PostgresKind | RedisKind.

(** [pg] and [redis] are the errors of connecting. *)
Definition NewLock (ty : string) (has_client : bool) (pg redis : option string) : res LockKind :=
  if String.eqb ty "memory" || String.eqb ty "" then Ok MemoryKind
  else if String.eqb ty "postgres" then match pg with Some e => Err e | None => Ok PostgresKind end
  else if String.eqb ty "redis" then
    if negb has_client then Err "redis client required for redis lock"
    else match redis with Some e => Err e | None => Ok RedisKind end
  else Err ("unsupported lock type: " +:+ ty).

(** * Leases exclude each other

    Processes that share a server of leases ([LeaseLaws]) and try, extend and
    release locks in any order, at any time, with replies that may be lost:
    no key is held by two of them.  Redis and PostgreSQL are such servers. *)

Lemma entry_live_later now now' o : now <= now' -> entry_live now' (entry_live now o) = entry_live now' o.
Proof.
  intros Ht. destruct o as [[v [e|]]|]; [|done..]. cbn. destruct (Z.ltb_spec now e); cbn; [done|].
  by destruct (Z.ltb_spec now' e); [lia|].
Qed.

(** ** The servers *)

#[local] Arguments lockKey : simpl never.

Section RedisLaws.
Context {S : Type} `{RedisServer S} (ttl : Z) (Hpos : 0 < ttl) (Hms : Z.rem ttl 1000000 = 0).

Lemma lockKey_eqb k k' : k' <> k -> String.eqb (lockKey k) (lockKey k') = false.
Proof. intros Hk. apply String.eqb_neq. intros E%append_inj_l. by apply Hk. Qed.

Lemma expiry_pos now : expiry now ttl = Some (now + ttl).
Proof. unfold expiry. by destruct (Z.leb_spec ttl 0); [lia|]. Qed.

Lemma ttl_ms : 0 < Z.quot ttl 1000000 /\ Z.quot ttl 1000000 * 1000000 = ttl.
Proof. pose proof (Z.quot_rem' ttl 1000000). lia. Qed.

Lemma redis_acquire_spec now k v (s : S) n (s' : S) : cmd_acquire now k v ttl s = (n, s') ->
  (forall k', k' <> k -> ls_at now s' k' = ls_at now s k') /\
  if 0 <? n then ls_at now s k = None /\ ls_at now s' k = Some (v, Some (now + ttl))
  else ls_at now s' k = ls_at now s k.
Proof.
  cbn. unfold redis_setnx. destruct (rs_at now s (lockKey k)) eqn:E; cbn; intros [= <- <-]; [done|].
  rewrite expiry_pos. split.
  - intros k' Hk. rewrite rs_set_at by lia. by rewrite lockKey_eqb.
  - cbn. rewrite rs_set_at by lia. by rewrite String.eqb_refl.
Qed.

Lemma redis_release_spec now k v (s : S) n (s' : S) : cmd_release now k v s = (n, s') ->
  (forall k', k' <> k -> ls_at now s' k' = ls_at now s k') /\
  (ls_at now s' k = ls_at now s k \/ ls_at now s' k = None /\ forall v' e, ls_at now s k = Some (v', e) -> v' = v).
Proof.
  cbn. unfold release_script, redis_del, redis_get. destruct (rs_at now s (lockKey k)) as [[v0 e0]|] eqn:E; cbn.
  2: { case_bool_decide; [done|]. intros [= <- <-]. split; [done|by left]. }
  case_bool_decide as Hv; intros [= <- <-]; [|split; [done|by left]]. injection Hv as ->. split.
  - intros k' Hk. rewrite rs_del_at. by rewrite lockKey_eqb.
  - right. rewrite rs_del_at, String.eqb_refl. split; [done|]. by intros v' e [= -> ->].
Qed.

Lemma redis_extend_spec now k v (s : S) n (s' : S) : cmd_extend now k v ttl s = (n, s') ->
  0 <= n /\ (forall k', k' <> k -> ls_at now s' k' = ls_at now s k') /\
  if 0 <? n then ls_at now s' k = Some (v, Some (now + ttl)) /\ forall v' e, ls_at now s k = Some (v', e) -> v' = v
  else ls_at now s' k = ls_at now s k.
Proof.
  cbn. unfold extend_script, redis_pexpire, redis_get. destruct (rs_at now s (lockKey k)) as [[v0 e0]|] eqn:E; cbn.
  2: { case_bool_decide; [done|]. intros [= <- <-]. done. }
  case_bool_decide as Hv; intros [= <- <-]; [|done]. injection Hv as ->.
  destruct ttl_ms as [Hq Hm]. destruct (Z.leb_spec (Z.quot ttl 1000000) 0); [lia|]. rewrite Hm. split; [lia|]. split.
  - intros k' Hk. rewrite rs_set_at by lia. by rewrite lockKey_eqb.
  - cbn. rewrite rs_set_at by lia. rewrite String.eqb_refl. split; [done|]. by intros v' e [= -> ->].
Qed.

Definition redis_laws : LeaseLaws S ttl := {|
  ls_at_later now now' s k := rs_at_later now now' s (lockKey k);
  acquire_spec := redis_acquire_spec; release_spec := redis_release_spec; extend_spec := redis_extend_spec;
|}.
End RedisLaws.

Section PgLaws.
Context (ttl : Z) (Hpos : 0 < ttl).
Implicit Types s : gmap string dlock.

Lemma pg_insert_other now k k' r s : k' <> k -> ls_at now (<[k := r]> s) k' = ls_at now s k'.
Proof. intros Hk. cbn. by rewrite lookup_insert_ne. Qed.

Lemma pg_insert_same now k v s :
  ls_at now (<[k := {| dl_value := v; dl_expires := now + ttl |}]> s) k = Some (v, Some (now + ttl)).
Proof. cbn. rewrite lookup_insert_eq. cbn. by destruct (Z.ltb_spec now (now + ttl)); [|lia]. Qed.

Lemma pg_acquire_spec now k v (s : gmap string dlock) n (s' : gmap string dlock) : cmd_acquire now k v ttl s = (n, s') ->
  (forall k', k' <> k -> ls_at now s' k' = ls_at now s k') /\
  if 0 <? n then ls_at now s k = None /\ ls_at now s' k = Some (v, Some (now + ttl))
  else ls_at now s' k = ls_at now s k.
Proof.
  change (cmd_acquire now k v ttl s) with (pg_acquire now k v ttl s). unfold pg_acquire.
  destruct (s !! k) as [r|] eqn:E; [destruct (Z.ltb_spec (dl_expires r) now)|]; intros [= <- <-];
    (split; [intros k' Hk; first [done | by apply pg_insert_other]|]); change (0 <? 1) with true; cbn iota; [|done|].
  - split; [|apply pg_insert_same]. cbn. rewrite E. cbn. by destruct (Z.ltb_spec now (dl_expires r)); [lia|].
  - split; [|apply pg_insert_same]. cbn. by rewrite E.
Qed.

Lemma pg_release_spec now k v (s : gmap string dlock) n (s' : gmap string dlock) : cmd_release now k v s = (n, s') ->
  (forall k', k' <> k -> ls_at now s' k' = ls_at now s k') /\
  (ls_at now s' k = ls_at now s k \/ ls_at now s' k = None /\ forall v' e, ls_at now s k = Some (v', e) -> v' = v).
Proof.
  change (cmd_release now k v s) with (pg_release now k v s). unfold pg_release.
  destruct (s !! k) as [r|] eqn:E; [destruct (String.eqb_spec (dl_value r) v) as [<-|]|]; intros [= <- <-];
    try (split; [done|by left]).
  split; [intros k' Hk; cbn; by rewrite lookup_delete_ne|]. right. cbn. rewrite lookup_delete_eq. split; [done|]. intros v' e.
  rewrite E. cbn. by destruct (now <? dl_expires r); [intros [= <- <-]|].
Qed.

Lemma pg_extend_spec now k v (s : gmap string dlock) n (s' : gmap string dlock) : cmd_extend now k v ttl s = (n, s') ->
  0 <= n /\ (forall k', k' <> k -> ls_at now s' k' = ls_at now s k') /\
  if 0 <? n then ls_at now s' k = Some (v, Some (now + ttl)) /\ forall v' e, ls_at now s k = Some (v', e) -> v' = v
  else ls_at now s' k = ls_at now s k.
Proof.
  change (cmd_extend now k v ttl s) with (pg_extend now k v ttl s). unfold pg_extend.
  destruct (s !! k) as [r|] eqn:E; [destruct (String.eqb_spec (dl_value r) v) as [<-|]|]; intros [= <- <-];
    (split; [lia|]); (split; [intros k' Hk; first [done | by apply pg_insert_other]|]); [|done..].
  change (0 <? 1) with true. cbn iota. split; [apply pg_insert_same|].
  intros v' e. cbn. rewrite E. cbn. by destruct (now <? dl_expires r); [intros [= <- <-]|].
Qed.

Definition pg_laws : LeaseLaws (gmap string dlock) ttl := {|
  ls_at_later now now' s k Ht := eq_sym (entry_live_later now now' _ Ht);
  acquire_spec := pg_acquire_spec; release_spec := pg_release_spec; extend_spec := pg_extend_spec;
|}.

(** The clean-up removes no lease in force. *)
Lemma CleanupExpired_keeps now s k : ls_at now (CleanupExpired now s) k = ls_at now s k.
Proof.
  cbn. unfold CleanupExpired. rewrite map_lookup_filter. destruct (s !! k) as [r|]; [|done]. cbn.
  case_guard; cbn; [done|]. by destruct (Z.ltb_spec now (dl_expires r)); [lia|].
Qed.
End PgLaws.

(** ** Processes *)

Section Processes.
Context {S : Type} {TTL : Z} `{LeaseLaws S TTL} (Hpos : 0 < TTL).

(** The server, what each process remembers, the leases the processes believe
    to have, and the values used so far. *)
Record world := {
  w_server : S; w_values : nat -> gmap string string; w_leases : gmap (nat * string) Z; w_used : gset string;
}.

Definition set_values (p : nat) (m : gmap string string) (f : nat -> gmap string string) : nat -> gmap string string :=
  fun q => if Nat.eqb q p then m else f q.

(** What a process does at a time: it tries a lock with a fresh value, extends
    one, releases one, early or late. *)
Inductive lock_step (t : Z) (w : world) : world -> Prop :=
| step_try p k v o r m s :
    v ∉ w_used w -> lease_TryLock o v k TTL t (w_values w p) (w_server w) = (r, m, s) ->
    lock_step t w {| w_server := s; w_values := set_values p m (w_values w);
                     w_leases := match r with Ok true => <[(p, k) := t + TTL]> (w_leases w) | _ => w_leases w end;
                     w_used := {[v]} ∪ w_used w |}
| step_extend p k o r s :
    lease_Extend o k TTL t (w_values w p) (w_server w) = (r, s) ->
    lock_step t w {| w_server := s; w_values := w_values w;
                     w_leases := match r with None => <[(p, k) := t + TTL]> (w_leases w) | _ => w_leases w end;
                     w_used := w_used w |}
| step_release p k o r m s :
    lease_Release o k t (w_values w p) (w_server w) = (r, m, s) ->
    lock_step t w {| w_server := s; w_values := set_values p m (w_values w);
                     w_leases := delete (p, k) (w_leases w); w_used := w_used w |}.

Inductive runs_to : Z -> world -> Prop :=
| runs_init t s : runs_to t {| w_server := s; w_values := fun _ => ∅; w_leases := ∅; w_used := ∅ |}
| runs_wait t t' w : runs_to t w -> t <= t' -> runs_to t' w
| runs_step t w w' : runs_to t w -> lock_step t w w' -> runs_to t w'.

Definition has_lease (t : Z) (w : world) (p : nat) (k : string) : Prop :=
  exists e, w_leases w !! (p, k) = Some e /\ t < e.

(** A process with a lease is the one the server names, at least as long; the
    values of the processes are all different. *)
Record lease_inv (t : Z) (w : world) : Prop := {
  li_server : forall p k e, w_leases w !! (p, k) = Some e -> t < e ->
    exists v e', w_values w p !! k = Some v /\ ls_at t (w_server w) k = Some (v, Some e') /\ e <= e';
  li_bound : forall p k e, w_leases w !! (p, k) = Some e -> e <= t + TTL;
  li_distinct : forall p q k k' v, w_values w p !! k = Some v -> w_values w q !! k' = Some v -> p = q /\ k = k';
  li_used : forall p k v, w_values w p !! k = Some v -> v ∈ w_used w;
}.

(** A step on the server that leaves the leases of other processes alone. *)
Lemma lease_inv_wait t t' w : lease_inv t w -> t <= t' -> lease_inv t' w.
Proof.
  intros [H1 H2 H3 H4] Ht. constructor; [|intros p k e He; specialize (H2 p k e He); lia|done|done].
  intros p k e He Hlt. destruct (H1 p k e He ltac:(lia)) as (v & e' & Hv & Hat & Hle). exists v, e'. split; [done|].
  split; [|done]. rewrite (ls_at_later t t') by done. rewrite Hat. cbn. by destruct (Z.ltb_spec t' e'); [|lia].
Qed.

Lemma set_values_lookup p m f q k v :
  set_values p m f q !! k = Some v -> (q = p /\ m !! k = Some v) \/ (q <> p /\ f q !! k = Some v).
Proof. unfold set_values. destruct (Nat.eqb_spec q p); auto. Qed.

Lemma set_values_other p m f q : q <> p -> set_values p m f q = f q.
Proof. intros Hq. unfold set_values. by apply Nat.eqb_neq in Hq as ->. Qed.
Lemma set_values_same p m f : set_values p m f p = m.
Proof. unfold set_values. by rewrite Nat.eqb_refl. Qed.

(** The server alone changes, and keeps every lease in force. *)
Lemma lease_inv_server t w s :
  lease_inv t w ->
  (forall k, ls_at t s k = ls_at t (w_server w) k \/ (forall p, ~ has_lease t w p k)) ->
  lease_inv t {| w_server := s; w_values := w_values w; w_leases := w_leases w; w_used := w_used w |}.
Proof.
  intros [H1 H2 H3 H4] Hs. constructor; cbn; [|done..]. intros p k e He Hlt.
  destruct (Hs k) as [->|Hn]; [by apply H1|]. destruct (Hn p). by exists e.
Qed.

Lemma has_lease_at t w p k : lease_inv t w -> has_lease t w p k -> ls_at t (w_server w) k <> None.
Proof. intros [H1 _ _ _] (e & He & Hlt). destruct (H1 p k e He Hlt) as (v & e' & _ & -> & _). done. Qed.

Lemma try_inv t w p k v o r m s :
  lease_inv t w -> v ∉ w_used w -> lease_TryLock o v k TTL t (w_values w p) (w_server w) = (r, m, s) ->
  lease_inv t {| w_server := s; w_values := set_values p m (w_values w);
                 w_leases := match r with Ok true => <[(p, k) := t + TTL]> (w_leases w) | _ => w_leases w end;
                 w_used := {[v]} ∪ w_used w |}.
Proof.
  intros Hi Hv. unfold lease_TryLock. destruct (cmd_acquire t k v TTL (w_server w)) as [n s'] eqn:Ec.
  pose proof (acquire_spec _ _ _ _ _ _ Ec) as [Hother Hk].
  assert (Hsrv : forall k', ls_at t s' k' = ls_at t (w_server w) k' \/ (forall q, ~ has_lease t w q k')).
  { intros k'. destruct (decide (k' = k)) as [->|Hne]; [|left; by apply Hother].
    destruct (0 <? n); [right|by left]. intros q Hq. exact (has_lease_at _ _ _ _ Hi Hq (proj1 Hk)). }
  (* no new value: the server alone may have changed *)
  assert (Hsame : forall s0, s0 = s' \/ s0 = w_server w -> lease_inv t
    {| w_server := s0; w_values := set_values p (w_values w p) (w_values w); w_leases := w_leases w; w_used := {[v]} ∪ w_used w |}).
  { intros s0 Hs0. assert (Hi' : lease_inv t {| w_server := s0; w_values := w_values w; w_leases := w_leases w; w_used := w_used w |}).
    { apply lease_inv_server; [done|]. intros k'. destruct Hs0 as [->| ->]; [apply Hsrv|by left]. }
    assert (Eq : forall q, set_values p (w_values w p) (w_values w) q = w_values w q).
    { intros q. unfold set_values. by destruct (Nat.eqb_spec q p) as [->|]. }
    destruct Hi' as [H1 H2 H3 H4]. cbn in *. constructor; cbn.
    - intros q k' e. rewrite Eq. apply H1.
    - exact H2.
    - intros q q' k1 k2 x. rewrite !Eq. apply H3.
    - intros q k' x. rewrite Eq. intros Hx%H4. set_solver. }
  unfold with_outcome. destruct o as [|done_ e].
  2: { intros [= <- <- <-]. apply Hsame. destruct done_; auto. }
  destruct (0 <? n) eqn:En; intros [= <- <- <-]; [|apply Hsame; auto].
  destruct Hk as [Hnone Hnew]. destruct Hi as [H1 H2 H3 H4]. constructor; cbn.
  - intros q k' e He Hlt. destruct (decide ((p, k) = (q, k'))) as [[= <- <-]|Hne].
    + rewrite lookup_insert_eq in He. injection He as <-. rewrite set_values_same, lookup_insert_eq.
      exists v, (t + TTL). split; [done|]. split; [done|lia].
    + rewrite lookup_insert_ne in He by done. destruct (H1 q k' e He Hlt) as (x & e' & Hx & Hat & Hle).
      assert (k' <> k) by (intros ->; congruence). exists x, e'. rewrite Hother by done. split; [|done].
      destruct (decide (q = p)) as [->|]; [by rewrite set_values_same, lookup_insert_ne by congruence|by rewrite set_values_other].
  - intros q k' e He. destruct (decide ((p, k) = (q, k'))) as [[= <- <-]|Hne].
    + rewrite lookup_insert_eq in He. injection He as <-. lia.
    + rewrite lookup_insert_ne in He by done. by apply (H2 q k').
  - assert (Hl : forall q k' x, set_values p (<[k := v]> (w_values w p)) (w_values w) q !! k' = Some x ->
                   (q = p /\ k' = k /\ x = v) \/ (w_values w q !! k' = Some x)).
    { intros q k' x [[-> Hx]|[_ Hx]]%set_values_lookup; [|by right].
      apply lookup_insert_Some in Hx as [[<- <-]|[_ Hx]]; [by left|by right]. }
    intros q q' k1 k2 x [(-> & -> & ->)|Hx]%Hl [(-> & -> & Ev)|Hx']%Hl; [done| | |by eapply H3].
    + apply H4 in Hx'. done.
    + subst x. apply H4 in Hx. done.
  - intros q k' x [[-> Hx]|[_ Hx]]%set_values_lookup; [|apply H4 in Hx; set_solver].
    apply lookup_insert_Some in Hx as [[<- <-]|[_ Hx]]; [set_solver|apply H4 in Hx; set_solver].
Qed.

(** The holder of a value that the server shows is the process of the value. *)
Lemma lease_value t w p q k v x e :
  lease_inv t w -> w_values w p !! k = Some v -> w_leases w !! (q, k) = Some e -> t < e ->
  (forall v' e', ls_at t (w_server w) k = Some (v', e') -> v' = v) ->
  ls_at t (w_server w) k = Some x -> q = p.
Proof.
  intros Hi Hv He Hlt Hown Hx. destruct Hi as [H1 _ H3 _]. destruct (H1 q k e He Hlt) as (v' & e' & Hv' & Hat & _).
  pose proof (Hown v' (Some e') Hat) as ->. by destruct (H3 _ _ _ _ _ Hv' Hv).
Qed.

Lemma extend_inv t w p k o r s :
  lease_inv t w -> lease_Extend o k TTL t (w_values w p) (w_server w) = (r, s) ->
  lease_inv t {| w_server := s; w_values := w_values w;
                 w_leases := match r with None => <[(p, k) := t + TTL]> (w_leases w) | _ => w_leases w end;
                 w_used := w_used w |}.
Proof.
  intros Hi. unfold lease_Extend. destruct (w_values w p !! k) as [v|] eqn:Ev; [|intros [= <- <-]; apply lease_inv_server; auto].
  destruct (cmd_extend t k v TTL (w_server w)) as [n s'] eqn:Ec.
  pose proof (extend_spec _ _ _ _ _ _ Ec) as (Hn & Hother & Hk).
  (* the server has the lease of p, to its new end: every lease in force is still shown *)
  assert (Hsrv : forall q k' e, w_leases w !! (q, k') = Some e -> t < e ->
    exists x e', w_values w q !! k' = Some x /\ ls_at t s' k' = Some (x, Some e') /\ e <= e').
  { intros q k' e He Hlt. destruct (li_server _ _ Hi q k' e He Hlt) as (x & e' & Hx & Hat & Hle).
    destruct (decide (k' = k)) as [->|Hne]; [|exists x, e'; by rewrite Hother].
    destruct (0 <? n); [|exists x, e'; by rewrite Hk]. destruct Hk as [Hnew Hown].
    pose proof (Hown x (Some e') Hat) as ->. exists v, (t + TTL). split; [done|]. split; [done|].
    by apply (li_bound _ _ Hi q k). }
  assert (Hsame : lease_inv t {| w_server := s'; w_values := w_values w; w_leases := w_leases w; w_used := w_used w |}).
  { destruct Hi as [H1 H2 H3 H4]. by constructor. }
  unfold with_outcome. destruct o as [|done_ e]; [|intros [= <- <-]; destruct done_; [done|apply lease_inv_server; auto]].
  destruct (n =? 0) eqn:En; intros [= <- <-]; [done|]. apply Z.eqb_neq in En.
  assert (0 <? n = true) as Hpn by (apply Z.ltb_lt; lia). rewrite Hpn in Hk. destruct Hk as [Hnew _].
  destruct Hi as [H1 H2 H3 H4]. constructor; cbn; [| |done|done].
  - intros q k' e He Hlt. destruct (decide ((p, k) = (q, k'))) as [[= <- <-]|Hne].
    + rewrite lookup_insert_eq in He. injection He as <-. exists v, (t + TTL). split; [done|]. split; [done|lia].
    + rewrite lookup_insert_ne in He by done. by apply Hsrv.
  - intros q k' e He. destruct (decide ((p, k) = (q, k'))) as [[= <- <-]|Hne].
    + rewrite lookup_insert_eq in He. injection He as <-. lia.
    + rewrite lookup_insert_ne in He by done. by apply (H2 q k').
Qed.

Lemma release_inv t w p k o r m s :
  lease_inv t w -> lease_Release o k t (w_values w p) (w_server w) = (r, m, s) ->
  lease_inv t {| w_server := s; w_values := set_values p m (w_values w);
                 w_leases := delete (p, k) (w_leases w); w_used := w_used w |}.
Proof.
  intros Hi.
  (* what is remembered shrinks, at k alone; the leases but that of p are still shown *)
  assert (Hgen : forall m s0,
    (forall k' x, m !! k' = Some x -> w_values w p !! k' = Some x) ->
    (forall k', k' <> k -> m !! k' = w_values w p !! k') ->
    (forall q k' e, (q, k') <> (p, k) -> w_leases w !! (q, k') = Some e -> t < e ->
       ls_at t s0 k' = ls_at t (w_server w) k') ->
    lease_inv t {| w_server := s0; w_values := set_values p m (w_values w);
                   w_leases := delete (p, k) (w_leases w); w_used := w_used w |}).
  { intros m0 s0 Hsub Hkeep Hsrv. destruct Hi as [H1 H2 H3 H4].
    assert (Hl : forall q k' x, set_values p m0 (w_values w) q !! k' = Some x -> w_values w q !! k' = Some x).
    { intros q k' x [[-> Hx]|[_ Hx]]%set_values_lookup; auto. }
    constructor; cbn.
    - intros q k' e [Hne He]%lookup_delete_Some Hlt. destruct (H1 q k' e He Hlt) as (x & e' & Hx & Hat & Hle).
      exists x, e'. rewrite (Hsrv q k' e) by (done || congruence). split; [|done].
      destruct (decide (q = p)) as [->|]; [rewrite set_values_same, Hkeep by congruence; done|by rewrite set_values_other].
    - intros q k' e [_ He]%lookup_delete_Some. by apply (H2 q k').
    - intros q q' k1 k2 x Hx%Hl Hx'%Hl. by eapply H3.
    - intros q k' x Hx%Hl. by eapply H4. }
  unfold lease_Release. destruct (w_values w p !! k) as [v|] eqn:Ev; [|intros [= <- <- <-]; by apply Hgen].
  destruct (cmd_release t k v (w_server w)) as [n s'] eqn:Ec.
  pose proof (release_spec _ _ _ _ _ _ Ec) as [Hother Hk].
  assert (Hsrv : forall q k' e, (q, k') <> (p, k) -> w_leases w !! (q, k') = Some e -> t < e ->
            ls_at t s' k' = ls_at t (w_server w) k').
  { intros q k' e Hne He Hlt. destruct (decide (k' = k)) as [->|Hnk]; [|by apply Hother].
    destruct Hk as [Hk|[_ Hown]]; [done|]. exfalso. apply Hne.
    destruct (li_server _ _ Hi q k e He Hlt) as (x & e' & _ & Hat & _).
    by rewrite (lease_value t w p q k v _ e Hi Ev He Hlt Hown Hat). }
  unfold with_outcome. destruct o as [|done_ e].
  - intros [= <- <- <-]. apply Hgen; [| |done].
    + intros k' x. destruct (0 <? n); [|done]. by intros [_ Hx]%lookup_delete_Some.
    + intros k' Hk'. destruct (0 <? n); [|done]. by rewrite lookup_delete_ne.
  - intros [= <- <- <-]. destruct done_; apply Hgen; done.
Qed.

Lemma runs_inv t w : runs_to t w -> lease_inv t w.
Proof.
  induction 1 as [t s|t t' w _ IH Ht|t w w' _ IH Hs].
  - constructor; cbn; intros; by rewrite lookup_empty in *.
  - by eapply lease_inv_wait.
  - destruct Hs; [by eapply try_inv|by eapply extend_inv|by eapply release_inv].
Qed.

(** C9: locks on a server exclude each other. However processes that share the
    server try, extend and release locks, early or late, and whatever replies
    are lost: at no time do two processes hold leases of the same key, and a
    process that holds one is the one the server names, at least until the end
    the process believes in. *)
Theorem server_leases_exclusive t w p q k :
  runs_to t w -> has_lease t w p k ->
  (has_lease t w q k -> p = q) /\
  exists v e e', w_leases w !! (p, k) = Some e /\ w_values w p !! k = Some v /\
    ls_at t (w_server w) k = Some (v, Some e') /\ e <= e'.
Proof.
  intros Hr (e & He & Hlt). pose proof (runs_inv t w Hr) as Hi.
  destruct (li_server _ _ Hi p k e He Hlt) as (v & e' & Hv & Hat & Hle). split; [|by exists v, e, e'].
  intros (e2 & He2 & Hlt2). destruct (li_server _ _ Hi q k e2 He2 Hlt2) as (v2 & e2' & Hv2 & Hat2 & _).
  rewrite Hat in Hat2. injection Hat2 as <- <-. by destruct (li_distinct _ _ Hi _ _ _ _ _ Hv Hv2).
Qed.
End Processes.

(** ** A server *)

#[refine, export] Instance redis_map : RedisServer (gmap string (string * option Z)) := {
  rs_at now s k := entry_live now (s !! k);
  rs_set _ k v e s := <[k := (v, e)]> s;
  rs_del _ k s := delete k s;
  rs_flush _ := ∅;
}.
Proof.
  - intros now now' s k Ht. by rewrite entry_live_later.
  - intros now k v e s k' He. destruct (String.eqb_spec k k') as [<-|Hne]; [|by rewrite lookup_insert_ne].
    rewrite lookup_insert_eq. destruct e as [e|]; [|done]. cbn. by destruct (Z.ltb_spec now e); [|lia].
  - intros now k s k'. destruct (String.eqb_spec k k') as [<-|Hne]; [by rewrite lookup_delete_eq|by rewrite lookup_delete_ne].
  - intros now s k. by rewrite lookup_empty.
Defined.

#[export] Instance run_lock_redis : LeaseLaws (gmap string (string * option Z)) runLockTTL :=
  redis_laws runLockTTL eq_refl eq_refl.
#[export] Instance run_lock_pg : LeaseLaws (gmap string dlock) runLockTTL := pg_laws runLockTTL eq_refl.

(** The worlds of a run, computed. *)
Definition try_world (t : Z) (p : nat) (k v : string) (w : world (S := gmap string (string * option Z))) :=
  let x := lease_TryLock Answered v k runLockTTL t (w_values w p) (w_server w) in
  {| w_server := x.2; w_values := set_values p x.1.2 (w_values w);
     w_leases := match x.1.1 with Ok true => <[(p, k) := t + runLockTTL]> (w_leases w) | _ => w_leases w end;
     w_used := {[v]} ∪ w_used w |}.

Definition release_world (t : Z) (p : nat) (k : string) (w : world (S := gmap string (string * option Z))) :=
  let x := lease_Release Answered k t (w_values w p) (w_server w) in
  {| w_server := x.2; w_values := set_values p x.1.2 (w_values w);
     w_leases := delete (p, k) (w_leases w); w_used := w_used w |}.

Lemma runs_try t p k v w : runs_to (TTL := runLockTTL) t w -> v ∉ w_used w -> runs_to (TTL := runLockTTL) t (try_world t p k v w).
Proof.
  intros Hr Hv. eapply runs_step; [exact Hr|]. unfold try_world.
  destruct (lease_TryLock _ _ _ _ _ _ _) as [[r m] s] eqn:E. cbn [fst snd]. by eapply step_try.
Qed.

Lemma runs_release t p k w : runs_to (TTL := runLockTTL) t w -> runs_to (TTL := runLockTTL) t (release_world t p k w).
Proof.
  intros Hr. eapply runs_step; [exact Hr|]. unfold release_world.
  destruct (lease_Release _ _ _ _ _) as [[r m] s] eqn:E. cbn [fst snd]. by eapply step_release.
Qed.

(** Process 1 takes the lock; after its time process 2 takes it, and a late
    release of process 1 changes nothing. *)
Definition late_world : world (S := gmap string (string * option Z)) :=
  release_world 130000000000 1 "run" (try_world 130000000000 2 "run" "b"
    (try_world 0 1 "run" "a" {| w_server := ∅; w_values := fun _ => ∅; w_leases := ∅; w_used := ∅ |})).

Lemma late_world_runs : runs_to (TTL := runLockTTL) 130000000000 late_world.
Proof.
  apply runs_release, runs_try; [|cbn; set_solver]. apply (runs_wait 0); [|lia].
  apply runs_try; [apply runs_init|cbn; set_solver].
Qed.

Lemma server_leases_exclusive_witness :
  has_lease 130000000000 late_world 2 "run" /\
  exists v e e', w_leases late_world !! (2%nat, "run") = Some e /\ w_values late_world 2%nat !! "run" = Some v /\
    ls_at 130000000000 (w_server late_world) "run" = Some (v, Some e') /\ e <= e'.
Proof.
  assert (Hl : has_lease 130000000000 late_world 2 "run") by (eexists; split; [reflexivity|vm_compute; reflexivity]).
  split; [exact Hl|].
  exact (proj2 (server_leases_exclusive (TTL := runLockTTL) eq_refl 130000000000 late_world 2%nat 2%nat "run" late_world_runs Hl)).
Defined.

(** ** The cache on Redis *)

(** A cache without nodes does not get the default address: the process
    panics. *)
Lemma no_nodes_panics ping u p ssl :
  NewCacheManager "Redis" ping {| rc_Nodes := []; rc_Username := u; rc_Password := p; rc_UseSSL := ssl |} =
  Panic "index out of range [0] with length 0".
Proof. reflexivity. Qed.

(** What was set is found until its end, and then it is not. *)
Lemma RedisCache_Get_Set {S} `{RedisServer S} now now' k v ttl (s : S) :
  0 < ttl -> now <= now' ->
  RedisCache_Get None now' k (RedisCache_Set None now k v ttl s).2 = Ok (if now' <? now + ttl then Some v else None).
Proof.
  intros Ht Hn. unfold RedisCache_Get, RedisCache_Set, redis_get, expiry. cbn [snd].
  destruct (Z.leb_spec ttl 0); [lia|]. rewrite (rs_at_later now now'), rs_set_at, String.eqb_refl by lia.
  cbn. by destruct (now' <? now + ttl).
Qed.
