(* ===== verification/GoDuration.v ===== *)
(** * Durations

    [time.ParseDuration], and [utils.UnitDuration]
    (pkg/common/pkg/utils/unitduration.go), which the configuration and the
    definitions of flows are read with.  A duration is an [int64] of
    nanoseconds; only the success of reading is modelled, not the text of an
    error. *)

From S2P Require Export GoFloat.
From Stdlib Require Import Ascii.

Local Open Scope string_scope.
Local Open Scope Z_scope.

(** ** [time.ParseDuration] *)

(** The digits at the start: [None] once they exceed [2^63]. *)
Fixpoint leadingInt (s : string) (x : Z) : option (Z * string) :=
  match s with
  | String c r =>
      match digit_val c with
      | Some d => if 2 ^ 63 / 10 <? x then None
                  else let y := x * 10 + d in if 2 ^ 63 <? y then None else leadingInt r y
      | None => Some (x, s)
      end
  | EmptyString => Some (x, s)
  end.

(** The digits after the point, and their scale; too many are dropped. *)
Fixpoint leadingFraction (s : string) (x : Z) (scale : f64) (overflow : bool) : Z * f64 * string :=
  match s with
  | String c r =>
      match digit_val c with
      | Some d =>
          if overflow then leadingFraction r x scale true
          else if (2 ^ 63 - 1) / 10 <? x then leadingFraction r x scale true
          else let y := x * 10 + d in
               if 2 ^ 63 <? y then leadingFraction r x scale true
               else leadingFraction r y (f64_mul scale (f64_of_Z 10)) false
      | None => (x, scale, s)
      end
  | EmptyString => (x, scale, s)
  end.

Definition is_digit (c : ascii) : bool := match digit_val c with Some _ => true | None => false end.

(** The unit, up to the next digit or point. *)
Fixpoint unit_name (s : string) : string * string :=
  match s with
  | String c r =>
      if Ascii.eqb c "." || is_digit c then ("", s)
      else let (u, t) := unit_name r in (String c u, t)
  | EmptyString => ("", "")
  end.

(** [µs] is written with the micro sign or with the Greek letter. *)
Definition micro_sign : string := String (ascii_of_nat 194) (String (ascii_of_nat 181) "s").
Definition greek_mu : string := String (ascii_of_nat 206) (String (ascii_of_nat 188) "s").

Definition unitMap (u : string) : option Z :=
  if String.eqb u "ns" then Some 1
  else if String.eqb u "us" || String.eqb u micro_sign || String.eqb u greek_mu then Some 1000
  else if String.eqb u "ms" then Some 1000000
  else if String.eqb u "s" then Some 1000000000
  else if String.eqb u "m" then Some 60000000000
  else if String.eqb u "h" then Some 3600000000000
  else None.

(** [uint64(f)] of a float that is not negative. *)
Definition f64_to_u64 (f : f64) : Z := match f64_trunc f with Some z => z | None => 0 end.

(** One number with its unit, in nanoseconds, and the rest. *)
Definition duration_part (s : string) : option (Z * string) :=
  match s with
  | EmptyString => None
  | String c _ =>
      if negb (Ascii.eqb c "." || is_digit c) then None
      else
        match leadingInt s 0 with
        | None => None
        | Some (v, s1) =>
            let pre := negb (Nat.eqb (String.length s) (String.length s1)) in
            let '(f, scale, s2, post) :=
              match s1 with
              | String c1 s1' =>
                  if Ascii.eqb c1 "."
                  then let '(f, scale, s2) := leadingFraction s1' 0 (f64_of_Z 1) false in
                       (f, scale, s2, negb (Nat.eqb (String.length s1') (String.length s2)))
                  else (0, f64_of_Z 1, s1, false)
              | EmptyString => (0, f64_of_Z 1, s1, false)
              end in
            if negb pre && negb post then None
            else
              let (u, s3) := unit_name s2 in
              if String.eqb u "" then None
              else match unitMap u with
                   | None => None
                   | Some unit_ =>
                       if 2 ^ 63 / unit_ <? v then None
                       else
                         let v := v * unit_ in
                         if 0 <? f
                         then let v := u64 (v + f64_to_u64 (f64_mul (f64_of_Z f) (f64_div (f64_of_Z unit_) scale))) in
                              if 2 ^ 63 <? v then None else Some (v, s3)
                         else Some (v, s3)
                   end
        end
  end.

(** The sum of the parts; every part takes a character at least. *)
Fixpoint duration_parts (fuel : nat) (s : string) (d : Z) : option Z :=
  if String.eqb s "" then Some d
  else match fuel with
       | O => None
       | S fuel =>
           match duration_part s with
           | None => None
           | Some (v, s) => let d := u64 (d + v) in if 2 ^ 63 <? d then None else duration_parts fuel s d
           end
       end.

Definition signed (s : string) : bool * string :=
  match s with
  | String c r => if Ascii.eqb c "-" then (true, r) else if Ascii.eqb c "+" then (false, r) else (false, s)
  | EmptyString => (false, s)
  end.

Definition ParseDuration (s : string) : option Z :=
  let (neg, s) := signed s in
  if String.eqb s "0" then Some 0
  else if String.eqb s "" then None
  else match duration_parts (String.length s) s 0 with
       | None => None
       | Some d => if neg : bool then Some (i64 (- i64 d)) else if 2 ^ 63 - 1 <? d then None else Some d
       end.

Example duration_examples :
  map ParseDuration ["1h30m"; "1.5s"; "-250ms"; ".5m"; "0"; "10"; "1.s"; "3d"; "9223372036854775807ns"; "9223372036854775808ns"; "1.0000001s"]%list =
  [Some 5400000000000; Some 1500000000; Some (-250000000); Some 30000000000; Some 0; None; Some 1000000000; None;
   Some 9223372036854775807; None; Some 1000000100]%list.
Proof. vm_compute. reflexivity. Qed.

(** ** Durations in definitions: [UnitDuration.unmarshal]

    [None] is an error, which leaves the duration as it was. *)
Definition dequote (s : string) : string :=
  let n := String.length s in
  if (2 <=? n)%nat && HasPrefix s dquote && HasSuffix s dquote then stake (n - 2) (sdrop 1 s) else s.

Definition UnitDuration_unmarshal (b : string) : option Z :=
  let s := dequote b in
  if String.eqb s "" || String.eqb s "null" then Some 0 else ParseDuration s.

Definition ToDuration (d : Z) : Z := d.
Definition IsPositive (d : Z) : bool := 0 <? d.

(** ** Enough fuel *)

Lemma leadingInt_length s x v r : leadingInt s x = Some (v, r) -> (String.length r <= String.length s)%nat.
Proof.
  revert x. induction s as [|c s IH]; intros x; cbn [leadingInt]; [by intros [= _ <-]|].
  destruct (digit_val c); [|by intros [= _ <-]]. destruct (_ <? x); [done|]. destruct (_ <? _); [done|].
  intros H%IH. cbn. lia.
Qed.

Lemma leadingFraction_length s x sc o : (String.length (leadingFraction s x sc o).2 <= String.length s)%nat.
Proof.
  revert x sc o. induction s as [|c s IH]; intros x sc o; cbn [leadingFraction]; [done|].
  destruct (digit_val c); [|done]. destruct o; [|destruct (_ <? x); [|destruct (_ <? _)]];
    (etransitivity; [apply IH|cbn; lia]).
Qed.

Lemma unit_name_append s : (unit_name s).1 +:+ (unit_name s).2 = s.
Proof.
  induction s as [|c s IH]; cbn [unit_name]; [done|]. destruct (_ || _); [done|].
  destruct (unit_name s) as [u t]. cbn in *. by rewrite IH.
Qed.

(** Every part is shorter: the fuel of [ParseDuration] is enough. *)
Lemma duration_part_shorter s v r : duration_part s = Some (v, r) -> (String.length r < String.length s)%nat.
Proof.
  unfold duration_part. destruct s as [|c s0] eqn:Es; [done|]. rewrite <- Es. destruct (negb _); [done|].
  destruct (leadingInt s 0) as [[v0 s1]|] eqn:E1; [|done]. apply leadingInt_length in E1.
  assert (Hx : forall f (scale : f64) s2 (post : bool), (String.length s2 <= String.length s1)%nat ->
    (if negb (negb (Nat.eqb (String.length s) (String.length s1))) && negb post then None
     else let (u, s3) := unit_name s2 in
       if String.eqb u "" then None
       else match unitMap u with
            | None => None
            | Some unit_ =>
                if 2 ^ 63 / unit_ <? v0 then None
                else if 0 <? f
                  then if 2 ^ 63 <? u64 (v0 * unit_ + f64_to_u64 (f64_mul (f64_of_Z f) (f64_div (f64_of_Z unit_) scale)))
                       then None
                       else Some (u64 (v0 * unit_ + f64_to_u64 (f64_mul (f64_of_Z f) (f64_div (f64_of_Z unit_) scale))), s3)
                  else Some (v0 * unit_, s3)
            end) = Some (v, r) -> (String.length r < String.length s)%nat).
  { intros f scale s2 post Hle. destruct (_ && _); [done|]. pose proof (unit_name_append s2) as Hu.
    destruct (unit_name s2) as [u s3]. cbn in Hu. destruct (String.eqb_spec u ""); [done|].
    destruct (unitMap u); [|done]. destruct (_ <? v0); [done|].
    assert (Hlt : (String.length s3 < String.length s2)%nat).
    { rewrite <- Hu, length_append. destruct u; [done|cbn; lia]. }
    destruct (0 <? f); [destruct (_ <? _); [done|]|]; intros [= _ <-]; lia. }
  destruct s1 as [|c1 s1']; [by apply Hx|]. destruct (Ascii.eqb c1 "."); [|by apply Hx].
  pose proof (leadingFraction_length s1' 0 (f64_of_Z 1) false) as Hf.
  destruct (leadingFraction s1' 0 (f64_of_Z 1) false) as [[f scale] s2]. apply Hx. cbn in *. lia.
Qed.

(** More fuel than characters changes nothing. *)
Lemma duration_parts_fuel n m s d : (String.length s <= n)%nat -> (String.length s <= m)%nat ->
  duration_parts n s d = duration_parts m s d.
Proof.
  revert m s d. induction n as [|n IH]; intros m s d Hn Hm.
  - destruct s; [|cbn in Hn; lia]. by destruct m.
  - destruct m; [destruct s; [done|cbn in Hm; lia]|]. cbn [duration_parts]. destruct (String.eqb s ""); [done|].
    destruct (duration_part s) as [[v r]|] eqn:E; [|done]. apply duration_part_shorter in E.
    destruct (_ <? _); [done|]. apply IH; lia.
Qed.

(** ** A number of milliseconds *)

Lemma digits_val_ge s x z : 0 <= x -> digits_val s x = Some z -> x <= z.
Proof.
  revert x. induction s as [|c s IH]; intros x Hx; cbn [digits_val]; [intros [= ->]; lia|].
  destruct (digit_val c) as [d|] eqn:E; [|done]. intros H.
  assert (0 <= d). { unfold digit_val in E. destruct ((_ <=? _)%nat && (_ <=? _)%nat) eqn:Ec; [injection E as <-; lia|done]. }
  apply IH in H; lia.
Qed.

Lemma leadingInt_append s x z c t : 0 <= x -> z <= 2 ^ 63 -> digit_val c = None ->
  digits_val s x = Some z -> leadingInt (s +:+ String c t) x = Some (z, String c t).
Proof.
  intros Hx Hz Hc. revert x Hx. induction s as [|c0 s IH]; intros x Hx; cbn [digits_val].
  - intros [= ->]. change ("" +:+ String c t) with (String c t). cbn [leadingInt]. by rewrite Hc.
  - destruct (digit_val c0) as [d|] eqn:E; [|done]. intros H.
    assert (0 <= d). { unfold digit_val in E. destruct ((_ <=? _)%nat && (_ <=? _)%nat) eqn:Ec; [injection E as <-; lia|done]. }
    assert (Hge : x * 10 + d <= z) by (eapply digits_val_ge; [|exact H]; lia).
    change (String c0 s +:+ String c t) with (String c0 (s +:+ String c t)). cbn [leadingInt]. rewrite E.
    destruct (Z.ltb_spec (2 ^ 63 / 10) x); [Z.to_euclidean_division_equations; lia|].
    destruct (Z.ltb_spec (2 ^ 63) (x * 10 + d)); [lia|]. apply IH; [lia|done].
Qed.

Definition max_ms : Z := 9223372036854.

(** ["%dms"] is read back as that many milliseconds, or is refused when they
    are no [int64] of nanoseconds. *)
Lemma ParseDuration_ms z : 0 < z -> in_i64 z = true ->
  ParseDuration (Itoa z +:+ "ms") = if z <=? max_ms then Some (z * 1000000) else None.
Proof.
  intros Hpos Hz. destruct z as [|p|p]; [lia| |lia]. unfold Itoa, pretty, pretty_Z.
  destruct (pretty_N_digits (N.pos p)) as (c & r & E & H1 & H2 & Hd). change (pretty p) with (pretty (N.pos p)).
  assert (Hc : is_digit c = true).
  { unfold is_digit. rewrite E in Hd. cbn [digits_val] in Hd. by destruct (digit_val c). }
  assert (Hli : leadingInt (pretty (N.pos p) +:+ "ms") 0 = Some (Z.pos p, "ms")).
  { apply leadingInt_append; [lia| |done|exact Hd]. apply andb_true_iff in Hz as [_ Hz]. apply Z.ltb_lt in Hz. lia. }
  assert (Hne : (String.length (pretty (N.pos p) +:+ "ms") =? String.length "ms")%nat = false).
  { rewrite E, length_append. apply Nat.eqb_neq. cbn. lia. }
  assert (Hpart : duration_part (pretty (N.pos p) +:+ "ms") = if Z.pos p <=? max_ms then Some (Z.pos p * 1000000, "") else None).
  { unfold duration_part. rewrite Hli, Hne. rewrite E at 1. change (String c r +:+ "ms") with (String c (r +:+ "ms")).
    cbv beta iota. rewrite Hc, orb_true_r. cbn [negb andb Ascii.eqb Bool.eqb]. change (Ascii.eqb "m" ".") with false. cbv beta iota zeta.
    change (unit_name "ms") with ("ms", ""). cbv beta iota. change (String.eqb "ms" "") with false.
    change (unitMap "ms") with (Some 1000000). cbv beta iota. change (2 ^ 63 / 1000000) with max_ms. cbn [Z.ltb Z.compare].
    destruct (Z.ltb_spec max_ms (Z.pos p)), (Z.leb_spec (Z.pos p) max_ms); (lia || done). }
  unfold ParseDuration, signed. rewrite E in *. change (String c r +:+ "ms") with (String c (r +:+ "ms")) in *. cbv beta iota zeta. rewrite H1, H2.
  destruct (String.eqb_spec (String c (r +:+ "ms")) "0") as [[= _ E2]|_]; [by destruct r|].
  cbn [String.length duration_parts]. change (String.eqb (String c (r +:+ "ms")) "") with false. cbv beta iota.
  rewrite Hpart. destruct (Z.leb_spec (Z.pos p) max_ms) as [Hle|Hlt]; [|done]. unfold max_ms in Hle.
  unfold u64, wrap_u. rewrite Z.mod_small by lia. destruct (Z.ltb_spec (2 ^ 63) (0 + Z.pos p * 1000000)); [lia|].
  rewrite duration_parts_fuel with (m := 0%nat) by (cbn; lia). cbn [duration_parts]. change (String.eqb "" "") with true. cbv beta iota.
  destruct (Z.ltb_spec (2 ^ 63 - 1) (0 + Z.pos p * 1000000)); [lia|]. f_equal; lia.
Qed.
