(* ===== verification/Llm.v ===== *)
(** * LLM providers

    [pkg/core/pkg/llm]: the providers a task manager loads from the API
    server, and which of them a request is sent to.  The vendors' clients and
    the rate limiter are the class [LlmServices]. *)

From S2P Require Export GoDuration Client.
From Stdlib Require Import Ascii.

Local Open Scope string_scope.
Local Open Scope list_scope.
Local Open Scope Z_scope.

(** ** Providers (openai.go, anthropic.go, gemini.go) *)

Inductive Vendor := OpenAI | Anthropic | Gemini.

(** What a provider is made with: the options of its client and the limiter
    (a rate per second and a burst).  No timeout reaches Gemini. *)
Record Provider := {
  pv_vendor : Vendor; pv_apiKey : string; pv_endpoint : string; pv_timeout : option Z;
  pv_limit : f64; pv_burst : Z;
}.

Record ChatRequest := {
  cq_Model : string; cq_System : string; cq_User : string; cq_Temperature : f64; cq_MaxTokens : Z;
}.

(** The answer is the texts of the choices (of the content blocks). *)
Class LlmServices (W : Type) := {
  limiter_wait : Provider -> W -> option string * W;
  chat : Provider -> ChatRequest -> W -> res (list string) * W;
}.

Definition defaultTimeout : Z := 120000000000.

Definition provider_timeout (p : LlmProviderInfo) : Z :=
  match ParseDuration (lp_Timeout p) with Some d => if 0 <? d then d else defaultTimeout | None => defaultTimeout end.
Definition provider_rpm (p : LlmProviderInfo) : Z := if lp_RateLimit p <=? 0 then 60 else lp_RateLimit p.
Definition rpm_limit (rpm : Z) : f64 := f64_div (f64_of_Z rpm) (f64_of_Z 60).

Definition newOpenAIProvider (p : LlmProviderInfo) : Provider := {|
  pv_vendor := OpenAI; pv_apiKey := lp_ApiKey p; pv_endpoint := lp_Endpoint p; pv_timeout := Some (provider_timeout p);
  pv_limit := rpm_limit (provider_rpm p); pv_burst := provider_rpm p |}.
Definition newAnthropicProvider (p : LlmProviderInfo) : Provider := {|
  pv_vendor := Anthropic; pv_apiKey := lp_ApiKey p; pv_endpoint := lp_Endpoint p; pv_timeout := Some (provider_timeout p);
  pv_limit := rpm_limit (provider_rpm p); pv_burst := provider_rpm p |}.
Definition newGeminiProvider (p : LlmProviderInfo) : Provider := {|
  pv_vendor := Gemini; pv_apiKey := lp_ApiKey p; pv_endpoint := lp_Endpoint p; pv_timeout := None;
  pv_limit := rpm_limit (provider_rpm p); pv_burst := provider_rpm p |}.

Definition newProvider (p : LlmProviderInfo) : Provider :=
  if EqualFold (lp_Provider p) "anthropic" then newAnthropicProvider p
  else if EqualFold (lp_Provider p) "gemini" then newGeminiProvider p
  else newOpenAIProvider p.

Section Generate.
Context {W : Type} `{LlmServices W}.

Definition chat_request (systemPrompt userPrompt modelName : string) (temperature : f64) (maxTokens : Z) : ChatRequest :=
  {| cq_Model := modelName; cq_System := systemPrompt; cq_User := userPrompt; cq_Temperature := temperature;
     cq_MaxTokens := if maxTokens <=? 0 then 8192 else maxTokens |}.

Definition OpenAI_Generate (p : Provider) (sys user model : string) (temp : f64) (tok : Z) (w : W) : res string * W :=
  match limiter_wait p w with
  | (Some err, w) => (Err err, w)
  | (None, w) =>
      match chat p (chat_request sys user model temp tok) w with
      | (Err err, w) => (Err ("openai: " +:+ err), w)
      | (Ok [], w) => (Err "openai: no choices in response", w)
      | (Ok (c :: _), w) => (Ok c, w)
      end
  end.

Definition Anthropic_Generate (p : Provider) (sys user model : string) (temp : f64) (tok : Z) (w : W) : res string * W :=
  match limiter_wait p w with
  | (Some err, w) => (Err err, w)
  | (None, w) =>
      match chat p (chat_request sys user model temp tok) w with
      | (Err err, w) => (Err ("anthropic: " +:+ err), w)
      | (Ok [], w) => (Err "anthropic: empty response", w)
      | (Ok (c :: _), w) => (Ok c, w)
      end
  end.

Definition Gemini_Generate (p : Provider) (w : W) : res string * W :=
  match limiter_wait p w with
  | (Some err, w) => (Err err, w)
  | (None, w) => (Err "gemini: not yet implemented", w)
  end.

(** [ILlmProvider.Generate] *)
Definition provider_Generate (p : Provider) (sys user model : string) (temp : f64) (tok : Z) (w : W) : res string * W :=
  match pv_vendor p with
  | OpenAI => OpenAI_Generate p sys user model temp tok w
  | Anthropic => Anthropic_Generate p sys user model temp tok w
  | Gemini => Gemini_Generate p w
  end.
End Generate.

(** ** The manager (llm.go) *)

Abbreviation providers_map := (gmap string Provider).

(** What [registerDB] makes of a record before the provider is made. *)
Definition db_credentials (p : LlmProviderInfo) : LlmProviderInfo :=
  let key := if String.eqb (lp_ApiKey p) ""
             then match mget "apikey" (lp_Credentials p) with Some (VStr vs) => vs | _ => lp_ApiKey p end
             else lp_ApiKey p in
  let timeout := if (0 <? lp_TimeoutMs p) && String.eqb (lp_Timeout p) ""
                 then Itoa (lp_TimeoutMs p) +:+ "ms" else lp_Timeout p in
  {| lp_base := lp_base p; lp_Provider := lp_Provider p; lp_Enabled := lp_Enabled p; lp_Status := lp_Status p;
     lp_Timeout := timeout; lp_TimeoutMs := lp_TimeoutMs p; lp_Endpoint := lp_Endpoint p;
     lp_Credentials := lp_Credentials p; lp_Proxy := lp_Proxy p; lp_RateLimit := lp_RateLimit p;
     lp_DefaultModel := lp_DefaultModel p; lp_Models := lp_Models p; lp_ApiKey := key; lp_Labels := lp_Labels p |}.

Definition lp_ID (p : LlmProviderInfo) : string := b_ID (lp_base p).

Definition registerDB (p : LlmProviderInfo) (providers : providers_map) : providers_map :=
  let pc := newProvider (db_credentials p) in
  let providers := <[lp_ID p := pc]> providers in
  if negb (String.eqb (lp_Provider p) "") && negb (String.eqb (lp_Provider p) (lp_ID p))
  then <[lp_Provider p := pc]> providers else providers.

Definition usable (p : LlmProviderInfo) : bool := String.eqb (lp_Status p) "ACTIVE" && negb (String.eqb (lp_ID p) "").

(** The records that are loaded, in their order. *)
Definition load_providers (l : list LlmProviderInfo) : providers_map :=
  fold_left (fun providers p => if usable p then registerDB p providers else providers) l ∅.

(** [loader] is the outcome of [ListProviders], when there is a loader. *)
Definition NewLlmProviderManager (loader : option (res (list LlmProviderInfo))) : providers_map :=
  match loader with Some (Ok dbProviders) => load_providers dbProviders | _ => ∅ end.

(** The first provider, in the order of the range, whose name begins the
    text; its model is what follows a slash. *)
Definition begins (providerModel id : string) : bool :=
  (String.length id <? String.length providerModel)%nat && String.eqb (stake (String.length id) providerModel) id.

Definition model_after (providerModel id : string) : string :=
  if (String.length id + 1 <? String.length providerModel)%nat
     && match String.get (String.length id) providerModel with Some c => Ascii.eqb c "/" | None => false end
  then sdrop (String.length id + 1) providerModel else providerModel.

Definition resolveProvider `{RangeOrder} (providerModel : string) (providers : providers_map) : string * string :=
  match List.find (fun kv => begins providerModel kv.1) (range_of providers) with
  | Some (id, _) => (id, model_after providerModel id)
  | None => ("default", providerModel)
  end.

Definition Manager_Generate `{RangeOrder} {W} `{LlmServices W} (providers : providers_map)
    (sys user providerModel : string) (temp : f64) (tok : Z) (w : W) : res string * W :=
  let (providerID, modelName) := resolveProvider providerModel providers in
  match providers !! providerID with
  | None => (Err ("llm provider not found: " +:+ providerID), w)
  | Some pc => provider_Generate pc sys user modelName temp tok w
  end.

(** ** Which record a name stands for *)

(** A record is reached under its identifier and under its provider's name;
    the last one loaded has the name. *)
Definition claims (k : string) (p : LlmProviderInfo) : bool :=
  usable p && (String.eqb (lp_ID p) k || negb (String.eqb (lp_Provider p) "") && String.eqb (lp_Provider p) k).
Definition last_claim (l : list LlmProviderInfo) (k : string) : option LlmProviderInfo := List.find (claims k) (rev l).

Lemma registerDB_lookup p providers k : usable p = true ->
  registerDB p providers !! k = if claims k p then Some (newProvider (db_credentials p)) else providers !! k.
Proof.
  intros Hu. unfold registerDB, claims. rewrite Hu. cbn [andb].
  destruct (String.eqb_spec (lp_Provider p) ""), (String.eqb_spec (lp_Provider p) (lp_ID p)),
    (String.eqb_spec (lp_ID p) k), (String.eqb_spec (lp_Provider p) k); cbn [negb andb orb]; subst;
    rewrite ?lookup_insert_eq; rewrite ?lookup_insert_ne by congruence; rewrite ?lookup_insert_eq; try done; congruence.
Qed.

Lemma load_providers_lookup l k : load_providers l !! k = (fun p => newProvider (db_credentials p)) <$> last_claim l k.
Proof.
  unfold last_claim. rewrite <- (rev_involutive l) at 1. unfold load_providers. rewrite <- fold_left_rev_right, rev_involutive.
  induction (rev l) as [|p r IH]; cbn [fold_right List.find]; [by rewrite lookup_empty|].
  destruct (usable p) eqn:Hu; [rewrite registerDB_lookup by done; by destruct (claims k p)|].
  unfold claims at 1. by rewrite Hu.
Qed.

Lemma claims_name k p : claims k p = true -> lp_ID p = k \/ lp_Provider p = k /\ lp_Provider p <> "".
Proof.
  unfold claims. intros [_ H]%andb_true_iff. apply orb_true_iff in H as [H%String.eqb_eq|H]; [by left|right].
  apply andb_true_iff in H as [H1 H2%String.eqb_eq]. split; [done|]. by destruct (String.eqb_spec (lp_Provider p) "").
Qed.

Lemma begins_append id t : t <> "" -> begins (id +:+ t) id = true.
Proof.
  intros Ht. unfold begins. rewrite stake_append, String.eqb_refl, length_append.
  assert (0 < String.length t)%nat by (destruct t; [done|cbn; lia]). rewrite andb_true_r. apply Nat.ltb_lt. lia.
Qed.

Lemma get_append id t : String.get (String.length id) (id +:+ t) = String.get 0 t.
Proof. induction id as [|c id IH]; [done|exact IH]. Qed.

Lemma model_after_slash id m : m <> "" -> model_after (id +:+ "/" +:+ m) id = m.
Proof.
  intros Hm. assert (0 < String.length m)%nat by (destruct m; [done|cbn; lia]).
  assert (El : (String.length id + 1)%nat = String.length (id +:+ "/")) by (by rewrite length_append).
  unfold model_after. rewrite get_append. change (String.get 0 ("/" +:+ m)) with (Some "/"%char). cbv iota.
  change (Ascii.eqb "/" "/") with true. rewrite El, <- append_assoc, (length_append (id +:+ "/")), andb_true_r, sdrop_append.
  by destruct (Nat.ltb_spec (String.length (id +:+ "/")) (String.length (id +:+ "/") + String.length m)); [|lia].
Qed.

Lemma resolve_only `{RangeOrder} id t providers :
  t <> "" -> providers !! id <> None ->
  (forall k, providers !! k <> None -> begins (id +:+ t) k = true -> k = id) ->
  resolveProvider (id +:+ t) providers = (id, model_after (id +:+ t) id).
Proof.
  intros Ht Hid Honly. unfold resolveProvider. destruct (List.find _ _) as [[k p]|] eqn:E.
  - apply find_some in E as [Hin Hb]. apply list_elem_of_In, range_of_elem in Hin. cbn in Hb.
    by rewrite (Honly k) by (rewrite ?Hin; done).
  - destruct (providers !! id) as [p|] eqn:Ep; [|done].
    apply range_of_elem, list_elem_of_In in Ep. pose proof (find_none _ _ E _ Ep) as Hn. cbn in Hn.
    by rewrite begins_append in Hn.
Qed.


(** ** Concrete inputs, and what does not hold *)

Section Examples.
Definition llm_record (id vendor key : string) (ms : Z) : LlmProviderInfo :=
  {| lp_base := {| b_ID := id; b_Description := ""; b_Namespace := "a"; b_Status := "ACTIVE"; b_CreatedAt := 0;
                   b_CreatedBy := ""; b_UpdatedAt := 0; b_UpdatedBy := ""; b_DelFlag := false |};
     lp_Provider := vendor; lp_Enabled := true; lp_Status := "ACTIVE"; lp_Timeout := ""; lp_TimeoutMs := ms;
     lp_Endpoint := ""; lp_Credentials := []; lp_Proxy := ""; lp_RateLimit := 0; lp_DefaultModel := ""; lp_Models := [];
     lp_ApiKey := key; lp_Labels := None |}.

(** Services that answer with the key and the model that were used. *)
#[local] Instance echo_services : LlmServices unit := {
  limiter_wait := fun _ w => (None, w);
  chat := fun p q w => (Ok [pv_apiKey p +:+ ":" +:+ cq_Model q], w);
}.
Definition two_records : list LlmProviderInfo := [llm_record "p1" "openai" "k1" 5000; llm_record "claude" "anthropic" "k2" 0].

End Examples.

(** A record as the table keeps it: its time limit is read from the number of
    milliseconds, or is the default when that is no duration; the rate that
    was asked for is not a column, so it is 60 requests a minute for all. *)
Lemma stored_provider_limits p : in_i64 (lp_TimeoutMs p) = true ->
  let q := db_credentials (lp_columns p) in
  provider_timeout q = (if (0 <? lp_TimeoutMs p) && (lp_TimeoutMs p <=? max_ms) then lp_TimeoutMs p * 1000000 else defaultTimeout) /\
  provider_rpm q = 60.
Proof.
  intros Hz. cbv zeta. split; [|done]. unfold provider_timeout, db_credentials, lp_columns. cbn [lp_Timeout lp_TimeoutMs].
  destruct (Z.ltb_spec 0 (lp_TimeoutMs p)) as [Hp|_]; cbn [andb String.eqb]; [|done]. rewrite ParseDuration_ms by done.
  destruct (Z.leb_spec (lp_TimeoutMs p) max_ms); [|done]. by destruct (Z.ltb_spec 0 (lp_TimeoutMs p * 1000000)); [|lia].
Qed.

(** A name that begins another takes its requests in some orders of the
    range: the provider, and the model it is asked for, change from one run
    to the next. *)
Definition reverse_order : RangeOrder.
Proof. refine {| range_of := fun A m => rev (map_to_list m) |}. intros. symmetry. by rewrite <- Permutation_rev. Defined.

Lemma name_prefix_ambiguous :
  let providers := load_providers [llm_record "openai" "" "k1" 0; llm_record "openai-eu" "" "k2" 0] in
  let a := @resolveProvider canonical_order "openai-eu/gpt" providers in
  let b := @resolveProvider reverse_order "openai-eu/gpt" providers in
  a <> b /\ (a = ("openai", "openai-eu/gpt") \/ b = ("openai", "openai-eu/gpt")).
Proof. vm_compute. split; [discriminate|]. first [left; reflexivity | right; reflexivity]. Qed.

(** A provider asked for by its bare name is not found: the text has to go on. *)
Lemma bare_name_not_resolved `{RangeOrder} :
  resolveProvider "openai" (load_providers [llm_record "openai" "" "k" 0]) = ("default", "openai").
Proof.
  unfold resolveProvider. destruct (List.find _ _) as [[k p]|] eqn:E; [|done].
  apply find_some in E as [Hin Hb]. apply list_elem_of_In, range_of_elem in Hin. cbn [fst] in Hb.
  rewrite load_providers_lookup in Hin. unfold last_claim in Hin. cbn [rev app List.find] in Hin.
  destruct (claims k _) eqn:Ec; [|done]. apply claims_name in Ec as [<-|[<- He]]; [done|by destruct He].
Qed.
