(* ===== verification/Mcp.v ===== *)
(** * MCP servers

    [pkg/core/pkg/mcp/mcp.go], the clients of a task manager's tools, and
    what of [NewTaskManager] (taskmanager.go) loads the servers and the LLM
    providers.  The client library is the class [McpServices]. *)

From S2P Require Export Llm.
From Stdlib Require Import Ascii.

Local Open Scope string_scope.
Local Open Scope list_scope.

(** ** [os.ExpandEnv] *)

Section ExpandEnv.
Variable getenv : string -> string.

Definition isShellSpecialVar (c : ascii) : bool :=
  match c with
  | "*" | "#" | "$" | "@" | "!" | "?" | "-" => true
  | _ => is_digit c
  end%char.

Definition isAlphaNum (c : ascii) : bool :=
  let n := nat_of_ascii c in
  Ascii.eqb c "_" || is_digit c || ((97 <=? n) && (n <=? 122))%nat || ((65 <=? n) && (n <=? 90))%nat.

Fixpoint alnum_length (s : string) : nat :=
  match s with String c s => if isAlphaNum c then S (alnum_length s) else 0%nat | EmptyString => 0%nat end.

(** The name after a dollar, and how many characters it takes; the text is
    not empty. *)
Definition getShellName (s : string) : string * nat :=
  match s with
  | EmptyString => ("", 0%nat)
  | String c r =>
      if Ascii.eqb c "{"
      then match r with
           | String c1 (String c2 _) =>
               if isShellSpecialVar c1 && Ascii.eqb c2 "}" then (String c1 "", 3%nat)
               else match IndexByte r "}" with
                    | Some O => ("", 2%nat)
                    | Some i => (stake i r, (i + 2)%nat)
                    | None => ("", 1%nat)
                    end
           | _ => match IndexByte r "}" with Some O => ("", 2%nat) | Some i => (stake i r, (i + 2)%nat) | None => ("", 1%nat) end
           end
      else if isShellSpecialVar c then (String c "", 1%nat)
      else let n := alnum_length s in (stake n s, n)
  end.

(** [skip] characters are part of the last name. *)
Fixpoint expand_go (s : string) (skip : nat) : string :=
  match s with
  | EmptyString => ""
  | String c r =>
      match skip with
      | S skip => expand_go r skip
      | O =>
          if Ascii.eqb c "$" && negb (String.eqb r "")
          then let (name, w) := getShellName r in
               (if String.eqb name "" then (if (0 <? w)%nat then "" else "$") else getenv name) +:+ expand_go r w
          else String c (expand_go r 0)
      end
  end.
Definition ExpandEnv (s : string) : string := expand_go s 0.

Lemma ExpandEnv_plain s : no_char "$" s = true -> ExpandEnv s = s.
Proof.
  unfold ExpandEnv. induction s as [|c s IH]; cbn; [done|]. destruct (Ascii.eqb c "$"); [done|]. intros H. by rewrite IH.
Qed.

Lemma expand_go_skip s t : expand_go (s +:+ t) (String.length s) = expand_go t 0.
Proof. induction s as [|c s IH]; [done|exact IH]. Qed.

(** [${NAME}] in a text is replaced; the rest is expanded as if alone. *)
Lemma ExpandEnv_braces name t :
  name <> "" -> no_char "}" name = true -> ExpandEnv ("${" +:+ name +:+ "}" +:+ t) = getenv name +:+ ExpandEnv t.
Proof.
  intros Hne Hn. set (r := name +:+ "}" +:+ t).
  assert (Hname : getShellName (String "{" r) = (name, String.length (String "{" (name +:+ "}")))).
  { assert (Hi : IndexByte r "}" = Some (String.length name)).
    { unfold r. change ("}" +:+ t) with (String "}" t). rewrite IndexByte_append by done. f_equal. }
    assert (Hst : stake (String.length name) r = name) by apply stake_append.
    assert (Hlen : (String.length name + 2)%nat = String.length (String "{" (name +:+ "}"))).
    { cbn. rewrite length_append. cbn. lia. }
    assert (Hgen : match IndexByte r "}" with Some O => ("", 2%nat) | Some i => (stake i r, (i + 2)%nat) | None => ("", 1%nat) end =
                   (name, String.length (String "{" (name +:+ "}")))).
    { rewrite Hi, <- Hlen. destruct name as [|c name]; [done|]. cbn [String.length] in *. by rewrite Hst. }
    unfold getShellName. change (Ascii.eqb "{" "{") with true. cbv iota.
    destruct r as [|c1 [|c2 r2]] eqn:Er; [done|done|]. destruct (isShellSpecialVar c1 && Ascii.eqb c2 "}") eqn:Es; [|done].
    apply andb_true_iff in Es as [_ Es%Ascii.eqb_eq]. subst c2. destruct name as [|n1 [|n2 name]]; [done| |].
    - by injection Er as ->.
    - exfalso. unfold r in Er. injection Er as -> -> _. cbn in Hn. by rewrite andb_false_r in Hn. }
  unfold ExpandEnv. change ("${" +:+ r) with (String "$" (String "{" r)).
  cbn [expand_go]. change (Ascii.eqb "$" "$") with true. change (String.eqb (String "{" r) "") with false. cbn [negb andb].
  rewrite Hname. destruct (String.eqb_spec name ""); [done|]. f_equal.
  assert (Er : String "{" r = String "{" (name +:+ "}") +:+ t) by (unfold r; cbn; by rewrite append_assoc).
  change (expand_go (String "{" r) (String.length (String "{" (name +:+ "}"))) = ExpandEnv t).
  rewrite Er. apply expand_go_skip.
Qed.
End ExpandEnv.

Example ExpandEnv_examples :
  map (ExpandEnv (fun k => if String.eqb k "A" then "x" else "")) ["$A-${A}b"; "$"; "a$"; "${"; "${}"; "$.A"; "$1A"; "${A"] =
  ["x-xb"; "$"; "a$"; ""; ""; "$.A"; "A"; "A"].
Proof. reflexivity. Qed.

(** ** The manager *)

(** What a tool answers with. *)
Inductive Content := TextContent (text : string) | OtherContent.

Class McpServices (W C : Type) := {
  mcp_dial : string -> option (gmap string string) -> W -> res C * W;
  mcp_initialize : C -> W -> option string * W;
  mcp_tool : C -> string -> gomap -> W -> res (list Content) * W;
}.

Record httpDef := { hd_url : string; hd_headers : gmap string string }.
Record McpManager (C : Type) := { mm_clients : gmap string C; mm_defs : gmap string httpDef }.
Arguments mm_clients {C}. Arguments mm_defs {C}.

Definition NewMcpManager (C : Type) : McpManager C := {| mm_clients := ∅; mm_defs := ∅ |}.

Definition Mcp_Register {C} (name url : string) (headers : gmap string string) (m : McpManager C) : McpManager C :=
  {| mm_clients := mm_clients m; mm_defs := <[name := {| hd_url := url; hd_headers := headers |}]> (mm_defs m) |}.

Section Calls.
Context {W C : Type} `{McpServices W C}.

Definition connect (name : string) (def : httpDef) (w : W) : res C * W :=
  match mcp_dial (hd_url def) (if decide (hd_headers def = ∅) then None else Some (hd_headers def)) w with
  | (Err err, w) => (Err ("connect MCP " +:+ name +:+ " at " +:+ hd_url def +:+ ": " +:+ err), w)
  | (Ok c, w) =>
      match mcp_initialize c w with
      | (Some err, w) => (Err ("init MCP " +:+ name +:+ " at " +:+ hd_url def +:+ ": " +:+ err), w)
      | (None, w) => (Ok c, w)
      end
  end.

Definition GetClient (name : string) (m : McpManager C) (w : W) : res C * McpManager C * W :=
  match mm_clients m !! name with
  | Some c => (Ok c, m, w)
  | None =>
      match mm_defs m !! name with
      | None => (Err ("MCP not found: " +:+ name), m, w)
      | Some def =>
          match connect name def w with
          | (Err err, w) => (Err err, m, w)
          | (Ok c, w) => (Ok c, {| mm_clients := <[name := c]> (mm_clients m); mm_defs := mm_defs m |}, w)
          end
      end
  end.

(** Every text goes to the same key. *)
Definition tool_output (toolName : string) (contents : list Content) : gomap :=
  mset "tool" (VStr toolName)
    (fold_left (fun out c => match c with TextContent t => mset "text" (VStr t) out | OtherContent => out end) contents []).

Definition tool_on (c : C) (toolName : string) (args : gomap) (w : W) : res gomap * W :=
  match mcp_tool c toolName args w with
  | (Err err, w) => (Err ("call tool " +:+ toolName +:+ ": " +:+ err), w)
  | (Ok contents, w) => (Ok (tool_output toolName contents), w)
  end.

Definition Mcp_CallTool (clientName toolName : string) (args : gomap) (m : McpManager C) (w : W)
    : res gomap * McpManager C * W :=
  match GetClient clientName m w with
  | (Err err, m, w) => (Err err, m, w)
  | (Ok c, m, w) => let (r, w) := tool_on c toolName args w in (r, m, w)
  end.

(** Calls one after the other. *)
Fixpoint tool_calls (l : list (string * string * gomap)) (m : McpManager C) (w : W) : McpManager C * W :=
  match l with
  | [] => (m, w)
  | (server, tool, args) :: l => let '(_, m, w) := Mcp_CallTool server tool args m w in tool_calls l m w
  end.

Lemma GetClient_defs name m w : mm_defs (GetClient name m w).1.2 = mm_defs m.
Proof.
  unfold GetClient. destruct (mm_clients m !! name); [done|]. destruct (mm_defs m !! name); [|done].
  by destruct (connect name _ w) as [[c|e] w'].
Qed.

Lemma GetClient_keeps name m w k c : mm_clients m !! k = Some c -> mm_clients (GetClient name m w).1.2 !! k = Some c.
Proof.
  intros Hk. unfold GetClient. destruct (mm_clients m !! name) eqn:En; [done|]. destruct (mm_defs m !! name); [|done].
  destruct (connect name _ w) as [[c'|e] w']; [|done]. cbn. by rewrite lookup_insert_ne by congruence.
Qed.

Lemma GetClient_new name m w c m' w' : GetClient name m w = (Ok c, m', w') -> mm_clients m' !! name = Some c.
Proof.
  unfold GetClient. destruct (mm_clients m !! name) as [c0|] eqn:En; [by intros [= <- <- _]|].
  destruct (mm_defs m !! name); [|done]. destruct (connect name _ w) as [[c'|e] w'']; [|done].
  intros [= <- <- _]. apply lookup_insert_eq.
Qed.

Lemma Mcp_CallTool_state server tool args m w : (Mcp_CallTool server tool args m w).1.2 = (GetClient server m w).1.2.
Proof. unfold Mcp_CallTool. destruct (GetClient server m w) as [[[c|e] m'] w']; [|done]. by destruct (tool_on c tool args w'). Qed.

Lemma tool_calls_keep l m w k c : mm_clients m !! k = Some c -> mm_clients (tool_calls l m w).1 !! k = Some c.
Proof.
  revert m w. induction l as [|[[s t] a] l IH]; intros m w Hk; cbn [tool_calls]; [done|].
  destruct (Mcp_CallTool s t a m w) as [[r m'] w'] eqn:E. apply IH.
  pose proof (Mcp_CallTool_state s t a m w) as Hs. rewrite E in Hs. cbn in Hs. rewrite Hs. by apply GetClient_keeps.
Qed.

(** A server that answered once is not connected to again: a later call,
    after any others, is made on the client of the first one. *)
Lemma connected_once server tool args m w r m' w' l :
  Mcp_CallTool server tool args m w = (Ok r, m', w') ->
  exists c, forall tool' args' w2, let m2 := (tool_calls l m' w').1 in
    Mcp_CallTool server tool' args' m2 w2 = (let (r2, w3) := tool_on c tool' args' w2 in (r2, m2, w3)).
Proof.
  intros E. pose proof (Mcp_CallTool_state server tool args m w) as Hs. rewrite E in Hs. cbn in Hs.
  unfold Mcp_CallTool in E. destruct (GetClient server m w) as [[[c|e] m1] w1] eqn:Eg; [|done]. cbn in Hs. subst m'.
  exists c. intros tool' args' w2. cbv zeta. unfold Mcp_CallTool, GetClient at 1.
  by rewrite (tool_calls_keep l m1 w' server c (GetClient_new _ _ _ _ _ _ Eg)).
Qed.
End Calls.

(** Only the last text of an answer is returned. *)
Lemma last_text_wins tool l t : mget "text" (tool_output tool (l ++ [TextContent t])) = Some (VStr t).
Proof. unfold tool_output. rewrite mget_mset_ne by done. rewrite fold_left_app. cbn. apply mget_mset_eq. Qed.

(** ** Loading (taskmanager.go) *)

Section Load.
Context {C : Type} (getenv : string -> string).

Definition expanded_headers (h : option (list (string * string))) : gmap string string :=
  fold_left (fun acc kv => <[kv.1 := ExpandEnv getenv kv.2]> acc) (default [] h) ∅.

Definition load_mcp (m : McpManager C) (i : McpInfo) : McpManager C :=
  if negb (mc_Enabled i) || String.eqb (mc_Name i) "" then m
  else Mcp_Register (mc_Name i) (ExpandEnv getenv (mc_URL i)) (expanded_headers (mc_Headers i)) m.

Definition load_mcps (r : res (list McpInfo)) : McpManager C :=
  match r with Ok l => fold_left load_mcp l (NewMcpManager C) | Err _ => NewMcpManager C end.

(** What a task manager resolves its tools and models with: the second list
    of the providers only goes to the log. *)
Definition tm_resolvers {W} (send : W -> CallReq -> res CallResp * W) `{Decode (list LlmProviderInfo), Decode (list McpInfo)}
    (namespace : string) (w : W) : providers_map * McpManager C * W :=
  let (providers, w) := call_run send (LlmProvider_ListProviders namespace) w in
  let llm := NewLlmProviderManager (Some providers) in
  let (mcps, w) := call_run send (McpProvider_ListMCPs namespace) w in
  let mcp := load_mcps mcps in
  let (_, w) := call_run send (LlmProvider_ListProviders namespace) w in
  (llm, mcp, w).

(** The last enabled server of a name is the one the tools use; none is
    connected yet. *)
Lemma load_mcps_lookup l name : name <> "" ->
  mm_clients (load_mcps (Ok l)) = ∅ /\
  mm_defs (load_mcps (Ok l)) !! name =
    (fun i => {| hd_url := ExpandEnv getenv (mc_URL i); hd_headers := expanded_headers (mc_Headers i) |}) <$>
      List.find (fun i => mc_Enabled i && String.eqb (mc_Name i) name) (rev l).
Proof.
  intros Hn. cbn [load_mcps]. rewrite <- (rev_involutive l) at 1 2. rewrite <- fold_left_rev_right, rev_involutive.
  induction (rev l) as [|i r [IH1 IH2]]; cbn [fold_right List.find]; [split; [done|apply lookup_empty]|].
  unfold load_mcp at 1 3. destruct (mc_Enabled i); cbn [negb orb andb]; [|done].
  destruct (String.eqb_spec (mc_Name i) "") as [E|_].
  - rewrite E. destruct (String.eqb_spec "" name); [by subst|done].
  - split; [done|]. cbn [Mcp_Register mm_defs]. destruct (String.eqb_spec (mc_Name i) name) as [->|Hne].
    + by rewrite lookup_insert_eq.
    + by rewrite lookup_insert_ne.
Qed.
End Load.
