(* ===== verification/A2A.v ===== *)
(** * The A2A server

    [pkg/a2a/pkg/a2a.go]: the agent that lets other agents administer flows
    and runs, over the client of the API server.  The A2A library (its events
    and its queue), the texts of encoded entities and the decoding of answers
    are given. *)

From S2P Require Export GoDuration Client.
From Stdlib Require Import Ascii.

Local Open Scope string_scope.
Local Open Scope list_scope.
Local Open Scope Z_scope.

(** ** Requests *)

(** The parts of a message (pointers to them, in the code). *)
Inductive Part := DataPart (data : gomap) | TextPart (text : string) | OtherPart.

Record adminRequest := {
  ar_Action : string; ar_AgentFlowID : string; ar_RunID : string; ar_Spec : option FlowInfo;
  ar_Vars : gomap; ar_Namespace : string;
}.
Definition empty_request : adminRequest :=
  {| ar_Action := ""; ar_AgentFlowID := ""; ar_RunID := ""; ar_Spec := None; ar_Vars := []; ar_Namespace := "" |}.

Definition str_field (k : string) (data : gomap) (old : string) : string :=
  match mget k data with Some (VStr v) => v | _ => old end.

(** [json.Marshal] of a value it refuses is no text at all. *)
Definition marshal_bytes (v : any) : string := if json_ok v then Marshal v else "".

Definition parse_data `{Decode FlowInfo} (data : gomap) (req : adminRequest) : adminRequest := {|
  ar_Action := str_field "action" data (ar_Action req);
  ar_AgentFlowID := str_field "agentflow_id" data (ar_AgentFlowID req);
  ar_RunID := str_field "run_id" data (ar_RunID req);
  ar_Spec := match mget "spec" data with
             | Some raw => match decode (marshal_bytes raw) with Ok spec => Some spec | Err _ => ar_Spec req end
             | None => ar_Spec req
             end;
  ar_Vars := match mget "vars" data with Some (VMap v) => v | _ => ar_Vars req end;
  ar_Namespace := str_field "namespace" data (ar_Namespace req) |}.

Definition with_action (a : string) (req : adminRequest) : adminRequest :=
  {| ar_Action := a; ar_AgentFlowID := ar_AgentFlowID req; ar_RunID := ar_RunID req; ar_Spec := ar_Spec req;
     ar_Vars := ar_Vars req; ar_Namespace := ar_Namespace req |}.
Definition with_namespace (ns : string) (req : adminRequest) : adminRequest :=
  {| ar_Action := ar_Action req; ar_AgentFlowID := ar_AgentFlowID req; ar_RunID := ar_RunID req; ar_Spec := ar_Spec req;
     ar_Vars := ar_Vars req; ar_Namespace := ns |}.

Definition parse_part `{Decode FlowInfo} (req : adminRequest) (p : Part) : adminRequest :=
  match p with
  | DataPart data => parse_data data req
  | TextPart text => if negb (String.eqb text "") then with_action text req else req
  | OtherPart => req
  end.

(** [None] is a [nil] message. *)
Definition parseAdminRequest `{Decode FlowInfo} (msg : option (list Part)) : adminRequest :=
  match msg with None => empty_request | Some parts => fold_left parse_part parts empty_request end.

(** ** Dispatch *)

(** The texts of entities: [json.Marshal]. *)
Class Encode (A : Type) := encode : A -> string.

Section Dispatch.
Context `{Decode FlowInfo, Decode FlowRunInfo, Decode (list FlowVersionInfo), Decode (Page FlowRunInfo)}.
Context `{Encode FlowInfo, Encode FlowRunInfo, Encode (list FlowVersionInfo), Encode (Page FlowRunInfo)}.

(** A call and what is made of its result, or an answer without a call. *)
Inductive action :=
| Calls {A : Type} (c : ApiCall A) (text : A -> string)
| Refuses (msg : string).

Definition not_found : string := "{" +:+ Quote "error" +:+ ":" +:+ Quote "not found" +:+ "}".
Definition optional {A} `{Encode A} (o : option A) : string := match o with None => not_found | Some a => encode a end.

(** [{"status":"..","<key>":"%s"}] *)
Definition status_text (status key v : string) : string :=
  "{" +:+ Quote "status" +:+ ":" +:+ Quote status +:+ "," +:+ Quote key +:+ ":" +:+ Quote v +:+ "}".

Definition admin_trigger : TriggerInfo := {| ti_Type := "a2a"; ti_Source := "admin"; ti_Payload := [] |}.

Definition action_of (req : adminRequest) : action :=
  let ns := ar_Namespace req in
  let id := ar_AgentFlowID req in
  if String.eqb (ar_Action req) "list_flows" then Calls (ListFlows ns) encode
  else if String.eqb (ar_Action req) "get_flow" then Calls (GetFlow ns id) optional
  else if String.eqb (ar_Action req) "create_flow" then
    match ar_Spec req with
    | None => Refuses "spec is required for create_flow"
    | Some spec => Calls (CreateFlow ns spec) (fun _ => status_text "created" "agentflow_id" (f_ID spec))
    end
  else if String.eqb (ar_Action req) "update_flow" then
    match ar_Spec req with
    | None => Refuses "spec is required for update_flow"
    | Some spec => Calls (UpdateFlow ns id spec) (fun _ => status_text "updated" "agentflow_id" id)
    end
  else if String.eqb (ar_Action req) "delete_flow" then
    Calls (DeleteFlow ns id) (fun _ => status_text "deleted" "agentflow_id" id)
  else if String.eqb (ar_Action req) "start_run" then
    Calls (TriggerRun ns id (ar_Vars req) admin_trigger) (fun _ => status_text "triggered" "agentflow_id" id)
  else if String.eqb (ar_Action req) "cancel_run" then
    Calls (CancelRun ns (ar_RunID req)) (fun _ => status_text "cancelled" "run_id" (ar_RunID req))
  else if String.eqb (ar_Action req) "get_run" then Calls (GetRun ns (ar_RunID req)) optional
  else if String.eqb (ar_Action req) "list_runs" then Calls (ListRuns ns "" "" id 1 50) encode
  else Refuses ("unknown admin action: " +:+ Quote (ar_Action req) +:+ " (available: list_flows, get_flow, create_flow, " +:+
                "update_flow, delete_flow, start_run, cancel_run, get_run, list_runs)").

Section Transport.
Context {W : Type} (send : W -> CallReq -> res CallResp * W).

Definition dispatch (req : adminRequest) (w : W) : res string * W :=
  match action_of req with
  | Refuses msg => (Err msg, w)
  | Calls c text => let (r, w) := call_run send c w in (let? a := r in Ok (text a), w)
  end.

(** ** Events *)

Inductive TaskState := Submitted | Working | Completed | Failed_ | Canceled.

(** Status events carry a message of one text, or none. *)
Inductive Event :=
| StatusUpdate (state : TaskState) (msg : option string) (final : bool)
| Artifact (text : string).

(** [queue.Write], which may fail: the errors of all writes but the last are
    dropped. *)
Context {Q : Type} (write : Event -> Q -> option string * Q).

Definition write_ (e : Event) (q : Q) : Q := (write e q).2.

Definition last_events (r : res string) : list Event * Event :=
  match r with
  | Err err => ([], StatusUpdate Failed_ (Some err) true)
  | Ok text => ([Artifact text], StatusUpdate Completed None true)
  end.

(** [stored]: the task is known already. *)
Definition A2A_Execute (msg : option (list Part)) (stored : bool) (w : W) (q : Q) : option string * W * Q :=
  let req := parseAdminRequest msg in
  let req := if String.eqb (ar_Namespace req) "" then with_namespace "default" req else req in
  let q := if negb stored then write_ (StatusUpdate Submitted None false) q else q in
  let q := write_ (StatusUpdate Working None false) q in
  match dispatch req w with
  | (Err err, w) =>
      let (e, q) := write (StatusUpdate Failed_ (Some err) true) q in (e, w, q)
  | (Ok result, w) =>
      let q := write_ (Artifact result) q in
      let (e, q) := write (StatusUpdate Completed None true) q in (e, w, q)
  end.

Definition A2A_Cancel (q : Q) : option string * Q := write (StatusUpdate Canceled None true) q.

(** A request, its answer: what is written, in order. *)
Definition request_of (msg : option (list Part)) : adminRequest :=
  let req := parseAdminRequest msg in
  if String.eqb (ar_Namespace req) "" then with_namespace "default" req else req.

Definition events_of (stored : bool) (r : res string) : list Event :=
  (if stored then [] else [StatusUpdate Submitted None false]) ++ [StatusUpdate Working None false] ++
  (last_events r).1 ++ [(last_events r).2].

Lemma A2A_Execute_spec msg stored w q :
  A2A_Execute msg stored w q =
  let (r, w) := dispatch (request_of msg) w in
  let q := fold_left (fun q e => write_ e q) (removelast (events_of stored r)) q in
  let (e, q) := write (last_events r).2 q in (e, w, q).
Proof.
  unfold A2A_Execute, request_of. destruct (dispatch _ w) as [[text|err] w']; destruct stored; reflexivity.
Qed.
End Transport.

Definition is_final (e : Event) : bool := match e with StatusUpdate _ _ f => f | Artifact _ => false end.

(** One event is final: the last. *)
Lemma one_final_event stored r : List.filter is_final (events_of stored r) = [(last_events r).2].
Proof. by destruct stored, r. Qed.

(** ** The skills of the card *)

Definition skills : list (string * string) := [
  ("list_flows", "List AgentFlows"); ("get_flow", "Get AgentFlow"); ("create_flow", "Create AgentFlow");
  ("update_flow", "Update AgentFlow"); ("delete_flow", "Delete AgentFlow"); ("start_run", "Start FlowRun");
  ("cancel_run", "Cancel FlowRun"); ("get_run", "Get FlowRun"); ("list_runs", "List FlowRuns")].

(** [NewFlowgentA2AServer]: the card and the server's limits.  A limit that is
    no duration, or is zero, is the default; the API server does the same. *)
Record A2ASettings := {
  as_ServiceName : string; as_Host : string; as_Port : Z; as_ReadTimeout : string; as_WriteTimeout : string;
  as_ShutdownTimeout : string;
}.
Record AgentCard := { ac_Name : string; ac_URL : string; ac_Skills : list (string * string); ac_Streaming : bool }.

Definition server_limit (s : string) (fallback : Z) : Z :=
  let d := default 0 (ParseDuration s) in if d =? 0 then fallback else d.
Definition readTO (cfg : A2ASettings) : Z := server_limit (as_ReadTimeout cfg) 30000000000.
Definition writeTO (cfg : A2ASettings) : Z := server_limit (as_WriteTimeout cfg) 60000000000.
(** [Shutdown]; [None] is a server without a configuration. *)
Definition shutdownTO (cfg : option A2ASettings) : Z :=
  match cfg with
  | Some cfg => match ParseDuration (as_ShutdownTimeout cfg) with Some d => if 0 <? d then d else 15000000000 | None => 15000000000 end
  | None => 15000000000
  end.

Definition a2a_addr (cfg : A2ASettings) : string := as_Host cfg +:+ ":" +:+ Itoa (as_Port cfg).
Definition a2a_card (cfg : A2ASettings) : AgentCard :=
  {| ac_Name := as_ServiceName cfg +:+ "-admin"; ac_URL := "http://" +:+ a2a_addr cfg; ac_Skills := skills; ac_Streaming := false |}.

(** An action reaches the API server just when the card has it as a skill
    (and a flow to write comes with one). *)
Definition needs_spec (a : string) : bool := String.eqb a "create_flow" || String.eqb a "update_flow".

Definition refused (a : action) : bool := match a with Calls _ _ => false | Refuses _ => true end.

Lemma skills_are_actions req :
  refused (action_of req) = negb (bool_decide (ar_Action req ∈ map fst skills)) ||
                            needs_spec (ar_Action req) && match ar_Spec req with None => true | _ => false end.
Proof.
  unfold action_of, needs_spec. set (a := ar_Action req).
  assert (Hb : bool_decide (a ∈ map fst skills) =
    String.eqb a "list_flows" || String.eqb a "get_flow" || String.eqb a "create_flow" || String.eqb a "update_flow" ||
    String.eqb a "delete_flow" || String.eqb a "start_run" || String.eqb a "cancel_run" || String.eqb a "get_run" ||
    String.eqb a "list_runs").
  { apply eq_true_iff_eq. rewrite bool_decide_eq_true, !orb_true_iff, !String.eqb_eq. unfold skills. cbn [map fst].
    rewrite !elem_of_cons, elem_of_nil. tauto. }
  rewrite Hb. clearbody a. clear Hb.
  repeat match goal with |- context [String.eqb a ?s] => destruct (String.eqb_spec a s) as [->|?]; [by destruct (ar_Spec req)|] end.
  reflexivity.
Qed.

(** ** The log of requests *)

Definition call_of (a : action) : option CallReq := match a with Calls c _ => Some (call_req c) | Refuses _ => None end.

(** A transport that logs what is asked. *)
Definition logging {W} (send : W -> CallReq -> res CallResp * W) (w : W * list CallReq) (q : CallReq)
    : res CallResp * (W * list CallReq) :=
  let (r, w') := send w.1 q in (r, (w', w.2 ++ [q])).

Lemma dispatch_logged {W} (send : W -> CallReq -> res CallResp * W) req w log :
  dispatch (logging send) req (w, log) =
  ((dispatch send req w).1, ((dispatch send req w).2, log ++ match call_of (action_of req) with Some q => [q] | None => [] end)).
Proof.
  unfold dispatch. destruct (action_of req) as [A c text|m]; cbn [call_of]; [|by rewrite app_nil_r].
  unfold call_run, logging. cbn [fst snd]. by destruct (send w (call_req c)) as [r w'].
Qed.

(** A queue that takes everything. *)
Definition append_event (e : Event) (q : list Event) : option string * list Event := (None, q ++ [e]).

Lemma write_all l q : fold_left (fun q e => write_ append_event e q) l q = q ++ l.
Proof. revert q. induction l as [|e l IH]; intros q; cbn [fold_left]; [by rewrite app_nil_r|]. rewrite IH. cbn. by rewrite <- app_assoc. Qed.

Lemma events_of_last stored r : events_of stored r = removelast (events_of stored r) ++ [(last_events r).2].
Proof. by destruct stored, r. Qed.

End Dispatch.

(** An identifier with a quote makes the answer no JSON. *)
Lemma quoted_id_breaks_answer :
  Unmarshal (status_text "deleted" "agentflow_id" ("a" +:+ dquote)) = None /\
  Unmarshal (status_text "deleted" "agentflow_id" "a") =
    Some (VMap [("status", VStr "deleted"); ("agentflow_id", VStr "a")]).
Proof. split; vm_compute; reflexivity. Qed.

(** ** The store of tasks *)

Section TaskStore.
Context {T : Type} (task_ID : T -> string).

Record A2ATaskStore := { ts_tasks : gmap string T; ts_versions : gmap string Z }.
Definition newA2ATaskStore : A2ATaskStore := {| ts_tasks := ∅; ts_versions := ∅ |}.

(** The previous task and its version are not looked at. *)
Definition Task_Save (task : T) (s : A2ATaskStore) : Z * A2ATaskStore :=
  let v := i64 (default 0 (ts_versions s !! task_ID task) + 1) in
  (v, {| ts_tasks := <[task_ID task := task]> (ts_tasks s); ts_versions := <[task_ID task := v]> (ts_versions s) |}).

Definition Task_Get (taskID : string) (s : A2ATaskStore) : option (T * Z) :=
  match ts_tasks s !! taskID with None => None | Some t => Some (t, default 0 (ts_versions s !! taskID)) end.

Definition Task_List `{RangeOrder} (s : A2ATaskStore) : list T := map snd (range_of (ts_tasks s)).

Definition saves (l : list T) (s : A2ATaskStore) : A2ATaskStore := fold_left (fun s t => (Task_Save t s).2) l s.
Definition saved_as (id : string) (l : list T) : list T := List.filter (fun t => String.eqb (task_ID t) id) l.

(** After any saves, a task is the one saved last under its identifier, and
    its version counts the saves. *)
Lemma saves_spec l id : Z.of_nat (length l) < 2 ^ 63 ->
  Task_Get id (saves l newA2ATaskStore) =
  match last (saved_as id l) with None => None | Some t => Some (t, Z.of_nat (length (saved_as id l))) end.
Proof.
  intros Hlen.
  assert (Hg : ts_tasks (saves l newA2ATaskStore) !! id = last (saved_as id l) /\
               default 0 (ts_versions (saves l newA2ATaskStore) !! id) = Z.of_nat (length (saved_as id l))).
  { induction l as [|t l IH] using rev_ind; [done|]. rewrite length_app in Hlen. cbn in Hlen.
    specialize (IH ltac:(lia)) as [IH1 IH2]. unfold saves, saved_as in *. rewrite fold_left_app, List.filter_app.
    set (s0 := fold_left _ l newA2ATaskStore) in *. clearbody s0.
    cbn [fold_left Task_Save snd ts_tasks ts_versions List.filter].
    assert (Hle : (length (List.filter (fun t => String.eqb (task_ID t) id) l) <= length l)%nat).
    { clear. induction l as [|t l IH]; cbn; [done|]. destruct (String.eqb _ _); cbn; lia. }
    destruct (String.eqb_spec (task_ID t) id) as [E|Hne].
    - rewrite E, !lookup_insert_eq, last_snoc, IH2, length_app. split; [done|]. cbn [default from_option length].
      set (n := length (List.filter _ l)) in *. assert (Hn : (n <= length l)%nat) by exact Hle. clearbody n.
      unfold i64, wrap_s. rewrite Z.mod_small by lia.
      rewrite (proj2 (Z.ltb_lt _ _)) by lia. unfold Datatypes.id. lia.
    - rewrite !lookup_insert_ne by done. by rewrite app_nil_r. }
  destruct Hg as [H1 H2]. unfold Task_Get. rewrite H1, H2. done.
Qed.

(** The list has every task once. *)
Lemma Task_List_elem `{RangeOrder} s t : t ∈ Task_List s <-> exists id, ts_tasks s !! id = Some t.
Proof.
  unfold Task_List. rewrite list_elem_of_In, in_map_iff. split.
  - intros ([id t'] & <- & Hin%list_elem_of_In%range_of_elem). by exists id.
  - intros [id Hid]. exists (id, t). split; [done|]. by apply list_elem_of_In, range_of_elem.
Qed.
End TaskStore.
