(* ===== verification/AllInOne.v ===== *)
(** * All in one process

    [pkg/cmd/pkg/allinone.go]: the API server, the scheduler of cron
    triggers, the poller with its job manager and a small A2A endpoint in one
    process, over the same tables.  Clients talk to the process's own API
    server, whose handlers are those of [ApiRuns] and [Flows]; ids are given
    by the caller, JSON bodies arrive decoded. *)

From S2P Require Export GoDuration JobManager RuntimeFacts.

Local Open Scope string_scope.
Local Open Scope list_scope.
Local Open Scope Z_scope.

(** ** Settings *)

Record AIOSettings := {
  ai_ServiceName : string; ai_DefaultNamespace : string; ai_NamespacePrefix : string;
  ai_MaxConcurrentFlows : Z; ai_MaxNodeRetries : Z; ai_FlowExecutionTimeout : string;
  ai_ServerHost : string; ai_ServerPort : Z; ai_ReadTimeout : string; ai_WriteTimeout : string; ai_ShutdownTimeout : string;
  ai_MessagerType : string; ai_Broker : string; ai_ClientID : string;
  ai_A2AEnabled : bool; ai_A2AHost : string; ai_A2APort : Z;
  ai_MgmtEnabled : bool; ai_PProfEnabled : bool; ai_MgmtHost : string; ai_MgmtPort : Z;
}.

(** [parseDuration]: the default for what is no duration, and for zero. *)
Definition aio_parseDuration (s : string) (defaultDur : Z) : Z :=
  match ParseDuration s with Some d => if d =? 0 then defaultDur else d | None => defaultDur end.

Definition aio_namespace (cfg : AIOSettings) : string :=
  if String.eqb (ai_DefaultNamespace cfg) "" then "default" else ai_DefaultNamespace cfg.

Definition host_port (host : string) (port : Z) : string := host +:+ ":" +:+ Itoa port.

(** The HTTP servers: address and limits. *)
Record HttpServer := { hs_Addr : string; hs_ReadTimeout : Z; hs_WriteTimeout : Z }.

Definition http_server (cfg : AIOSettings) (host : string) (port : Z) : HttpServer :=
  {| hs_Addr := host_port host port; hs_ReadTimeout := aio_parseDuration (ai_ReadTimeout cfg) 30000000000;
     hs_WriteTimeout := aio_parseDuration (ai_WriteTimeout cfg) 60000000000 |}.
Definition rest_server (cfg : AIOSettings) : HttpServer := http_server cfg (ai_ServerHost cfg) (ai_ServerPort cfg).
Definition a2a_server (cfg : AIOSettings) : option HttpServer :=
  if negb (ai_A2AEnabled cfg) then None else Some (http_server cfg (ai_A2AHost cfg) (ai_A2APort cfg)).
(** The address of the profiler. *)
Definition startPprof (cfg : AIOSettings) : option string :=
  if negb (ai_MgmtEnabled cfg) || negb (ai_PProfEnabled cfg) then None
  else Some (host_port (ai_MgmtHost cfg) (ai_MgmtPort cfg)).

Definition shutdown_limit (cfg : AIOSettings) : Z := aio_parseDuration (ai_ShutdownTimeout cfg) 15000000000.

(** [uniqueRawMQTTClientID]; [host] is the outcome of [os.Hostname]. *)
Definition uniqueRawMQTTClientID (host : res string) (base : string) : string :=
  let base := if String.eqb base "" then "flowgent-allinone" else base in
  match host with
  | Ok h => if String.eqb h "" then base else base +:+ "-" +:+ h
  | Err _ => base
  end.

(** [newRawMQTTPublisher] where it is called: whether events are published.
    [connected]: the broker answers in time. *)
Definition has_publisher (connected : bool) (cfg : AIOSettings) : bool :=
  String.eqb (ai_MessagerType cfg) "mqtt" && negb (String.eqb (ai_Broker cfg) "") && connected.

(** ** Loading flows *)

(** [config.LoadAgentFlows] knows no flows; those of the database are added. *)
Definition LoadAgentFlows : list FlowInfo * gmap string FlowInfo := ([], ∅).

Definition loadFlows (defs : option (list FlowVersionInfo)) : list FlowInfo * gmap string FlowInfo :=
  let '(agentFlows, subFlows) := LoadAgentFlows in
  match defs with
  | Some tbl => let '(dbFlows, dbSubFlows) := LoadFromDB tbl in (agentFlows ++ dbFlows, dbSubFlows ∪ subFlows)
  | None => (agentFlows, subFlows)
  end.

Definition flattenSubflows `{RangeOrder} (m : gmap string FlowInfo) : list FlowInfo := map snd (range_of m).

(** ** The process *)

(** The API's state, the scheduler, and the flows the poller was given. *)
Record AllInOne := {
  ao_api : FlowAPI; ao_cron : ScheduleTrigger; ao_flows : gmap string FlowInfo; ao_jm : JobManagerConfig;
  ao_namespace : string;
}.

Definition with_api (h : FlowAPI) (p : AllInOne) : AllInOne :=
  {| ao_api := h; ao_cron := ao_cron p; ao_flows := ao_flows p; ao_jm := ao_jm p; ao_namespace := ao_namespace p |}.

Section Process.
Context `{RangeOrder} (cron_ok : string -> bool).

(** [startOrchestrator]'s settings of the job manager. *)
Definition orchestrator_config (cfg : AIOSettings) : JobManagerConfig :=
  {| jc_FlowExecutionTimeout := aio_parseDuration (ai_FlowExecutionTimeout cfg) 1800000000000;
     jc_MaxNodeRetries := ai_MaxNodeRetries cfg; jc_MaxConcurrentFlows := ai_MaxConcurrentFlows cfg |}.

(** [startAllInOne] up to the point where it waits: [defs] and [runs] are the
    tables. *)
Definition startAllInOne (connected : bool) (cfg : AIOSettings) (defs : list FlowVersionInfo) (runs : list RunRow) : AllInOne :=
  let (agentFlows, subFlows) := loadFlows (Some defs) in
  let allFlows := agentFlows ++ flattenSubflows subFlows in
  let h := NewFlowDefHandler agentFlows subFlows (ai_NamespacePrefix cfg) (ai_DefaultNamespace cfg)
             (has_publisher connected cfg) defs runs in
  {| ao_api := h; ao_cron := cron_Start (RegisterAgentFlows cron_ok allFlows NewScheduleTrigger);
     ao_flows := fa_agentFlows h; ao_jm := orchestrator_config cfg; ao_namespace := aio_namespace cfg |}.

Definition new_run (id flowID : string) (vars : gomap) (trigger : TriggerInfo) : FlowRunInfo :=
  {| r_ID := id; r_Namespace := ""; r_AgentFlowID := flowID; r_Version := 1; r_Status := RunPending; r_Vars := vars;
     r_Error := ""; r_Trigger := trigger; r_StartedAt := None; r_FinishedAt := None; r_K8sNamespace := ""; r_Priority := "" |}.

(** A run posted to the process's own server, which gives it an id; errors of
    the database are [db_err]'s. *)
Definition post_run (db_err : string -> option string) (id : string) (now : Z) (run : FlowRunInfo) (p : AllInOne)
    : reply FlowRunInfo * AllInOne :=
  let '(r, runs, _) := Runs_Create db_err (fa_mqtt (ao_api p)) (ao_namespace p) id now (Some run) (fa_runs (ao_api p)) in
  (r, with_api (with_runs runs (ao_api p)) p).

(** A firing of the scheduler's job for a flow; its outcome is not looked
    at. *)
Definition cron_fires (db_err : string -> option string) (id : string) (now : Z) (flowID : string) (p : AllInOne) : AllInOne :=
  (post_run db_err id now (new_run "" flowID [] {| ti_Type := "schedule"; ti_Source := "cron"; ti_Payload := [] |}) p).2.

(** [POST /a2a/tasks]: the task that is answered, with the id made here. *)
Definition a2a_tasks (db_err : string -> option string) (own id : string) (now : Z) (body : option (string * gomap)) (p : AllInOne)
    : reply string * AllInOne :=
  match body with
  | None => (Fail 400 "invalid body", p)
  | Some (flowID, vars) =>
      match post_run db_err id now (new_run own flowID vars {| ti_Type := "api"; ti_Source := "a2a"; ti_Payload := [] |}) p with
      | (Fail code msg, p) => (Fail 500 msg, p)
      | (Reply _ _, p) => (Reply 200 own, p)
      end
  end.

(** A poll: the pending runs of the first page of fifty, with the flows the
    process started with; it has no lock. *)
Definition poll (db_err : string -> option string) (now : Z) (p : AllInOne) : res (call (list Dispatch)) :=
  let? runs := ListRuns db_err (fa_runs (ao_api p)) "PENDING" "" "" 1 50 in
  Ok (poll_page (L := MemoryLock) (fun k => ao_flows p !! k)
        (fun k => match GetFlow db_err (ao_api p) k with Ok o => o | Err _ => None end) "" now runs None).1.
End Process.

(** ** Polling without a lock *)

Section Poll.
Context (flows getFlow : string -> option FlowInfo).

Lemma poll_page_dispatches now runs run spec :
  Forall (fun r => (8 <= String.length (r_ID r))%nat) runs -> run ∈ runs -> r_Status run = RunPending ->
  flows (r_AgentFlowID run) = Some spec ->
  exists ds, (poll_page (L := MemoryLock) flows getFlow "" now runs None) = (Ret ds, None) /\ Dispatched run spec ∈ ds.
Proof.
  intros Hids Hin Hst Hf.
  assert (Hone : forall r, (8 <= String.length (r_ID r))%nat ->
            exists d, poll_run (L := MemoryLock) flows getFlow "" now r None = (Ret d, None)).
  { intros r Hr. unfold poll_run. destruct (negb _); [by eexists|]. cbn [String.eqb negb andb].
    destruct (match flows _ with Some s => Some s | None => _ end); [|by eexists].
    destruct (Nat.ltb_spec (String.length (r_ID r)) 8); [lia|]. by eexists. }
  assert (Hall : forall l, Forall (fun r => (8 <= String.length (r_ID r))%nat) l ->
            exists ds, poll_page (L := MemoryLock) flows getFlow "" now l None = (Ret ds, None)).
  { induction 1 as [|r l Hr _ [ds IH]]; [by exists []|]. cbn [poll_page]. destruct (Hone r Hr) as [d ->]. rewrite IH. by eexists. }
  induction Hids as [|r l Hr Hl IH]; [by apply not_elem_of_nil in Hin|]. cbn [poll_page].
  apply elem_of_cons in Hin as [<-|Hin].
  - unfold poll_run. rewrite bool_decide_true by done. cbn [negb String.eqb andb]. rewrite Hf.
    destruct (Nat.ltb_spec (String.length (r_ID run)) 8); [lia|]. cbn [claimRun_opt].
    destruct (Hall l Hl) as [ds ->]. eexists. split; [done|]. by left.
  - destruct (Hone r Hr) as [d ->]. destruct (IH Hin) as (ds & -> & Hd). eexists. split; [done|]. by right.
Qed.
End Poll.

(** ** What is scheduled *)

Lemma register_flow_entries cron_ok (f : FlowInfo) ts s k e :
  (k, e) ∈ st_entries (fold_left (register_trigger cron_ok (f_ID f)) ts s) ->
  (k, e) ∈ st_entries s \/ k = f_ID f /\ exists t, t ∈ ts /\ td_Type t = "schedule" /\ td_Cron t = e.
Proof.
  revert s. induction ts as [|t ts IH]; intros s; cbn [fold_left]; [by left|]. intros [Hs|(-> & t' & Hin & Ht)]%IH.
  - unfold register_trigger in Hs. destruct (String.eqb_spec (td_Type t) "schedule") as [Et|]; cbn [andb] in Hs; [|by left].
    destruct (negb (String.eqb (td_Cron t) "")); [|by left]. cbn [st_entries] in Hs.
    destruct (cron_ok (td_Cron t)); [|by left]. apply elem_of_app in Hs as [Hs|Hs]; [by left|].
    apply list_elem_of_singleton in Hs as [= -> ->]. right. split; [done|]. exists t. split; [by left|done].
  - right. split; [done|]. exists t'. split; [by right|done].
Qed.

Lemma register_entries cron_ok flows s k e :
  (k, e) ∈ st_entries (RegisterAgentFlows cron_ok flows s) ->
  (k, e) ∈ st_entries s \/
  exists f t, f ∈ flows /\ k = f_ID f /\ t ∈ f_Triggers f /\ td_Type t = "schedule" /\ td_Cron t = e.
Proof.
  unfold RegisterAgentFlows. revert s. induction flows as [|f flows IH]; intros s; cbn [fold_left]; [by left|].
  intros [Hs|(f' & t & Hf & H)]%IH.
  - apply register_flow_entries in Hs as [Hs|(-> & t & Ht & H)]; [by left|]. right. exists f, t. split; [by left|done].
  - right. exists f', t. split; [by right|done].
Qed.

Lemma flow_map_list flows subs f : f ∈ flows -> is_Some (flow_map flows subs !! f_ID f).
Proof.
  intros Hf. unfold flow_map. apply lookup_union_is_Some. right.
  assert (Hmono : forall l (m : gmap string FlowInfo) k, is_Some (m !! k) -> is_Some (fold_left (fun m f => <[f_ID f := f]> m) l m !! k)).
  { induction l as [|g l IH]; intros m k Hk; cbn [fold_left]; [done|]. apply IH, lookup_insert_is_Some'. by right. }
  revert Hf. generalize (∅ : gmap string FlowInfo). induction flows as [|g flows IH]; intros m Hf; [by apply not_elem_of_nil in Hf|].
  cbn [fold_left]. apply elem_of_cons in Hf as [<-|Hf]; [|by apply IH]. apply Hmono. rewrite lookup_insert_eq. by eexists.
Qed.

Lemma flow_map_sub flows subs k f : subs !! k = Some f -> is_Some (flow_map flows subs !! k).
Proof. intros Hk. unfold flow_map. apply lookup_union_is_Some. left. by eexists. Qed.

Section Scheduled.
Context `{RangeOrder} (cron_ok : string -> bool) (connected : bool) (cfg : AIOSettings).
Context (defs : list FlowVersionInfo) (runs : list RunRow) (Hdefs : table_ok defs).

Let p := startAllInOne cron_ok connected cfg defs runs.

Lemma start_flows : ao_flows p = flow_map (LoadFromDB defs).1 (LoadFromDB defs).2.
Proof.
  unfold p, startAllInOne, loadFlows, LoadAgentFlows. destruct (LoadFromDB defs) as [flows subs]. cbn.
  by rewrite right_id_L by apply _.
Qed.

(** A job of the scheduler is for a stored flow, which the poller has. *)
Lemma scheduled_flow_known flowID expr : (flowID, expr) ∈ st_entries (ao_cron p) ->
  exists spec, ao_flows p !! flowID = Some spec /\ GetSpec flowID defs = Some spec.
Proof.
  intros He. pose proof (flow_map_coherent defs Hdefs) as Hc. rewrite <- start_flows in Hc.
  assert (is_Some (ao_flows p !! flowID)) as [spec Hs].
  { rewrite start_flows. unfold p, startAllInOne, loadFlows, LoadAgentFlows in He.
    pose proof (proj2 (LoadFromDB_rows defs)) as Hk.
    destruct (LoadFromDB defs) as [flows subs]. cbn -[RegisterAgentFlows] in *. rewrite (right_id_L ∅ (∪) subs) in He.
    apply register_entries in He as [He|(f & t & Hf & -> & _)]; [by apply not_elem_of_nil in He|].
    apply elem_of_app in Hf as [Hf|Hf]; [by apply flow_map_list|].
    unfold flattenSubflows in Hf. apply list_elem_of_In, in_map_iff in Hf as ([k f'] & <- & Hin%list_elem_of_In%range_of_elem).
    destruct (Hk k f' Hin) as [-> _]. by eapply flow_map_sub. }
  exists spec. split; [done|]. by apply Hc in Hs as [_ ?].
Qed.
End Scheduled.

(** ** From the schedule to the job master *)

Lemma post_run_stored id now run p :
  let run' := set_run id (r_Status run) (r_Vars run) (r_Error run) (r_StartedAt run) (r_FinishedAt run)
                (if String.eqb (r_Namespace run) "" then set_namespace (ao_namespace p) run else run) in
  post_run no_error id now run p =
  (Reply 201 run', with_api (with_runs (store_Save {| rr_run := run'; rr_output := None; rr_created := now; rr_updated := now;
                                                      rr_deleted := false |} (fa_runs (ao_api p))) (ao_api p)) p).
Proof. cbv zeta. unfold post_run, Runs_Create. by destruct (String.eqb (r_Namespace run) ""). Qed.

Lemma poll_dispatches now p run spec :
  (length (live_rows (fa_runs (ao_api p))) <= 50)%nat ->
  Forall (fun r => (8 <= String.length (r_ID (rr_run r)))%nat) (live_rows (fa_runs (ao_api p))) ->
  run ∈ live_rows (fa_runs (ao_api p)) -> r_Status (rr_run run) = RunPending ->
  ao_flows p !! r_AgentFlowID (rr_run run) = Some spec ->
  exists ds, poll no_error now p = Ok (Ret ds) /\ Dispatched (rr_run run) spec ∈ ds.
Proof.
  intros Hlen Hids Hin Hst Hsp. unfold poll. rewrite ListRuns_eq by (done || lia). cbn [res_bind].
  set (l := filterRuns (live_rows (fa_runs (ao_api p))) "PENDING" "" "").
  assert (Hl : run ∈ l).
  { unfold l. apply filterRuns_elem. split_and!; [done|right; by rewrite Hst|by left|by left]. }
  destruct (poll_page_dispatches (fun k => ao_flows p !! k)
              (fun k => match GetFlow no_error (ao_api p) k with Ok o => o | Err _ => None end) now (map rr_run l) (rr_run run) spec)
    as (ds & -> & Hd); [| |done|done|by exists ds].
  - apply Forall_forall. intros r Hr. apply list_elem_of_In, in_map_iff in Hr as (row & <- & Hr%list_elem_of_In).
    unfold l in Hr. apply filterRuns_elem in Hr as [Hr _]. rewrite Forall_forall in Hids. by apply Hids.
  - apply list_elem_of_In, in_map_iff. exists run. split; [done|]. by apply list_elem_of_In.
Qed.

(** C5: a schedule is served in one process. Whenever a job of the scheduler
    fires and the database works, the next poll hands a pending run of its
    flow, marked as scheduled, to a job master, with the flow as it was stored
    when the process started; the pending runs must fit the page a poll asks
    for, and ids have the eight characters that are logged. *)
Theorem scheduled_run_dispatched `{RangeOrder} cron_ok connected cfg defs runs flowID expr id now now' :
  table_ok defs ->
  let p := startAllInOne cron_ok connected cfg defs runs in
  (flowID, expr) ∈ st_entries (ao_cron p) ->
  let p' := cron_fires no_error id now flowID p in
  (8 <= String.length id)%nat ->
  Forall (fun r => (8 <= String.length (r_ID (rr_run r)))%nat) (live_rows runs) ->
  (length (live_rows (fa_runs (ao_api p'))) <= 50)%nat ->
  exists spec run ds, GetSpec flowID defs = Some spec /\
    r_ID run = id /\ r_AgentFlowID run = flowID /\ r_Namespace run = aio_namespace cfg /\ ti_Type (r_Trigger run) = "schedule" /\
    poll no_error now' p' = Ok (Ret ds) /\ Dispatched run spec ∈ ds.
Proof.
  intros Hdefs p He p' Hid Hids Hlen. destruct (scheduled_flow_known cron_ok connected cfg defs runs Hdefs flowID expr He) as (spec & Hm & Hg).
  assert (Hns : ao_namespace p = aio_namespace cfg) by (unfold p, startAllInOne; by destruct (loadFlows (Some defs))).
  assert (Hruns : fa_runs (ao_api p) = runs) by (unfold p, startAllInOne; by destruct (loadFlows (Some defs))).
  set (run0 := new_run "" flowID [] {| ti_Type := "schedule"; ti_Source := "cron"; ti_Payload := [] |}).
  pose proof (post_run_stored id now run0 p) as Ep. cbv zeta in Ep.
  set (run := set_run _ _ _ _ _ _ _) in Ep. set (row := {| rr_run := run |}) in Ep.
  assert (Eq : p' = with_api (with_runs (store_Save row (fa_runs (ao_api p))) (ao_api p)) p).
  { unfold p', cron_fires. fold run0. by rewrite Ep. }
  clearbody p'. subst p'. cbn [ao_api with_api fa_runs with_runs] in Hlen.
  destruct (poll_dispatches now' (with_api (with_runs (store_Save row (fa_runs (ao_api p))) (ao_api p)) p) row spec) as (ds & Hd & Hin).
  - exact Hlen.
  - cbn [ao_api with_api fa_runs with_runs]. rewrite Hruns. apply Forall_forall. intros r [Hr Hdel]%live_rows_elem.
    unfold store_Save in Hr. apply elem_of_app in Hr as [Hr|Hr].
    + apply list_elem_of_In, filter_In in Hr as [Hr _]. rewrite Forall_forall in Hids. apply Hids, live_rows_elem. split; [|done].
      by apply list_elem_of_In.
    + apply list_elem_of_singleton in Hr as ->. exact Hid.
  - apply live_rows_elem. split; [|done]. cbn. apply elem_of_app. right. by apply list_elem_of_singleton.
  - done.
  - exact Hm.
  - exists spec, run, ds. unfold run, run0. cbn. by rewrite <- Hns.
Qed.

(** ** What does not hold *)

(** A flow that is changed after the start is run as it was: the poller looks
    at its own copy of the flows first. *)
Lemma changed_flow_runs_as_it_was db_err user now u p id old h' :
  ao_flows p !! id = Some old -> (Flows_Update db_err id user now (Some u) (ao_api p)).1.1.2 = h' ->
  forall now' run, r_Status run = RunPending -> r_AgentFlowID run = id -> (8 <= String.length (r_ID run))%nat ->
  let p' := with_api h' p in
  poll_run (L := MemoryLock) (fun k => ao_flows p' !! k)
    (fun k => match GetFlow db_err (ao_api p') k with Ok o => o | Err _ => None end) "" now' run None =
  (Ret (Dispatched run old), None).
Proof.
  intros Hold _ now' run Hst <- Hid p'. unfold poll_run. rewrite bool_decide_true by done. cbn [negb andb String.eqb].
  change (ao_flows p') with (ao_flows p). rewrite Hold. by destruct (Nat.ltb_spec (String.length (r_ID run)) 8); [lia|].
Qed.

(** The task that is answered to an agent has an id no run has: the server
    gives the run one of its own. *)
Lemma a2a_task_unknown own id now flowID vars p :
  own <> id -> Forall (fun r => r_ID (rr_run r) <> own) (fa_runs (ao_api p)) ->
  exists p', a2a_tasks no_error own id now (Some (flowID, vars)) p = (Reply 200 own, p') /\
    Forall (fun r => r_ID (rr_run r) <> own) (fa_runs (ao_api p')).
Proof.
  intros Hne Hall. eexists. split; [reflexivity|]. cbn. unfold store_Save. apply Forall_app. split; [|by repeat constructor].
  rewrite Forall_forall in *. intros r Hr%list_elem_of_In. apply filter_In in Hr as [Hr%list_elem_of_In _]. by apply Hall.
Qed.

(** ** A concrete process *)

Definition nightly : FlowInfo :=
  demo_spec "nightly" "" [{| td_Type := "schedule"; td_Cron := "0 2 * * *"; td_Provider := ""; td_Events := [] |}].
Definition small_settings : AIOSettings := {|
  ai_ServiceName := "flowgent"; ai_DefaultNamespace := ""; ai_NamespacePrefix := ""; ai_MaxConcurrentFlows := 4;
  ai_MaxNodeRetries := 3; ai_FlowExecutionTimeout := "10m"; ai_ServerHost := "0.0.0.0"; ai_ServerPort := 9999;
  ai_ReadTimeout := ""; ai_WriteTimeout := "0s"; ai_ShutdownTimeout := "5s"; ai_MessagerType := "memory"; ai_Broker := "";
  ai_ClientID := ""; ai_A2AEnabled := true; ai_A2AHost := "0.0.0.0"; ai_A2APort := 9992; ai_MgmtEnabled := false;
  ai_PProfEnabled := true; ai_MgmtHost := ""; ai_MgmtPort := 9991 |}.
Definition nightly_defs : list FlowVersionInfo := SaveSpec 1 nightly "ann" "" [].

Lemma nightly_defs_ok : table_ok nightly_defs.
Proof. apply table_ok_SaveSpec. split; [|constructor]. split_and!; constructor. Qed.

Definition nightly_process : AllInOne := @startAllInOne canonical_order (fun _ => true) false small_settings nightly_defs [].

Lemma scheduled_run_dispatched_witness :
  exists run ds, r_ID run = "run-00001" /\
    poll no_error 8 (cron_fires no_error "run-00001" 7 "nightly" nightly_process) = Ok (Ret ds) /\ Dispatched run nightly ∈ ds.
Proof.
  destruct (@scheduled_run_dispatched canonical_order (fun _ => true) false small_settings nightly_defs [] "nightly" "0 2 * * *"
              "run-00001" 7 8 nightly_defs_ok) as (spec & run & ds & Hs & Hid & _ & _ & _ & Hp & Hd).
  - apply (proj1 (bool_decide_eq_true _)). vm_compute. reflexivity.
  - vm_compute. lia.
  - constructor.
  - vm_compute. lia.
  - exists run, ds. split; [exact Hid|]. split; [exact Hp|].
    assert (E : GetSpec "nightly" nightly_defs = Some nightly) by (vm_compute; reflexivity).
    rewrite E in Hs. injection Hs as Hs. subst spec. exact Hd.
Defined.
