(* ===== verification/Process.v ===== *)
(** * Processes

    [pkg/cmd/pkg]: starting, stopping and restarting the components by the
    process identifiers they leave in files ([pkg/common/pkg/utils/helper.go]),
    the command line's use of them (main.go), and the settings the workers
    take from the configuration (taskmanager.go, sandbox.go).  What a
    component does while it runs is an argument. *)

From S2P Require Export GoStr.
From Stdlib Require Import Ascii.

Local Open Scope string_scope.
Local Open Scope list_scope.
Local Open Scope Z_scope.

(** ** Files of process identifiers *)

(** The files, and the processes that were sent SIGTERM, last first. *)
Record os := { os_files : gmap string string; os_signalled : list Z }.

(** Whether a file can be written; the errors of reading one, of finding and
    of signalling a process, by which there is a process with the number. *)
Class OsEnv := {
  can_write : string -> bool;
  write_err : string -> string;
  read_err : string -> string;
  atoi_err : string -> string;
  find_err : Z -> option string;
  signal_err : Z -> os -> option string;
}.

Section Pid.
Context `{OsEnv}.

Definition write_file (f content : string) (s : os) : os :=
  if can_write f then {| os_files := <[f := content]> (os_files s); os_signalled := os_signalled s |} else s.
Definition remove_file (f : string) (s : os) : os :=
  {| os_files := delete f (os_files s); os_signalled := os_signalled s |}.
Definition signal (pid : Z) (s : os) : os := {| os_files := os_files s; os_signalled := pid :: os_signalled s |}.

(** [WritePID]: the error of writing is not looked at. *)
Definition WritePID (pidFile : string) (pid : Z) (s : os) : os := write_file pidFile (Itoa pid) s.

Definition StopByPID (pidFile : string) (s : os) : option string * os :=
  if String.eqb pidFile "" then (None, s)
  else match os_files s !! pidFile with
       | None => (Some ("read PID file " +:+ pidFile +:+ ": " +:+ read_err pidFile +:+ " (is the service running?)"), s)
       | Some data =>
           match Atoi (TrimSpace data) with
           | None => (Some ("invalid PID file " +:+ pidFile +:+ ": " +:+ atoi_err (TrimSpace data)), s)
           | Some pid =>
               match find_err pid with
               | Some e => (Some ("process " +:+ Itoa pid +:+ " not found: " +:+ e), s)
               | None =>
                   match signal_err pid s with
                   | Some e => (Some ("send SIGTERM to " +:+ Itoa pid +:+ ": " +:+ e), s)
                   | None => (None, remove_file pidFile (signal pid s))
                   end
               end
           end
       end.

(** What [strconv.Atoi] returns beside its error: zero for what is no number,
    the nearest value for what is out of range. *)
Definition Atoi_value (s : string) : Z :=
  let unsigned body out :=
    match body with EmptyString => 0 | _ => match digits_val body 0 with Some _ => out | None => 0 end end in
  match Atoi s with
  | Some z => z
  | None =>
      match s with
      | String c s' =>
          if Ascii.eqb c "-" then unsigned s' (- 2 ^ 63)
          else if Ascii.eqb c "+" then unsigned s' (2 ^ 63 - 1) else unsigned s (2 ^ 63 - 1)
      | EmptyString => 0
      end
  end.

(** [StopSandbox] (sandbox.go): the error of reading the number is dropped,
    and nobody is told when the signal fails. *)
Definition StopSandbox (pidFile : string) (s : os) : option string * os :=
  if String.eqb pidFile "" then (None, s)
  else match os_files s !! pidFile with
       | None => (Some ("read PID file " +:+ pidFile +:+ ": " +:+ read_err pidFile), s)
       | Some data =>
           let pid := Atoi_value data in
           let s := if 0 <? pid
                    then match find_err pid, signal_err pid s with None, None => signal pid s | _, _ => s end
                    else s in
           (None, remove_file pidFile s)
       end.

(** ** Components *)

Inductive Component := AllInOne_ | APIServer | A2A_ | Controller_ | JobManager_ | TaskManager_ | Sandbox_ | Notifier_.

(** The components that remove their file when they end. *)
Definition removes_file (c : Component) : bool :=
  match c with JobManager_ | TaskManager_ | Sandbox_ => false | _ => true end.

(** What runs: its error, and what it leaves. *)
Abbreviation service := (os -> option string * os).

(** The process with its file, in the middle of [StartX]. *)
Definition with_file (c : Component) (pidFile : string) (pid : Z) (s : os) : os :=
  if String.eqb pidFile "" then s else WritePID pidFile pid s.

Definition run_service (c : Component) (pidFile : string) (pid : Z) (run : service) (s : os) : option string * os :=
  let (e, s) := run (with_file c pidFile pid s) in
  (e, if negb (String.eqb pidFile "") && removes_file c then remove_file pidFile s else s).

(** [StartX].  The notifier does not start when its file cannot be written. *)
Definition Start (c : Component) (pidFile : string) (pid : Z) (run : service) (s : os) : option string * os :=
  match c with
  | Notifier_ =>
      if negb (String.eqb pidFile "") && negb (can_write pidFile) then (Some (write_err pidFile), s)
      else run_service c pidFile pid run s
  | _ => run_service c pidFile pid run s
  end.

Definition Stop (c : Component) (pidFile : string) (s : os) : option string * os :=
  match c with Sandbox_ => StopSandbox pidFile s | _ => StopByPID pidFile s end.

(** [RestartX]: what stopping says is not looked at. *)
Definition Restart (c : Component) (pidFile : string) (pid : Z) (run : service) (s : os) : option string * os :=
  let s := (Stop c pidFile s).2 in
  match c with
  | Notifier_ => run_service c pidFile pid run s
  | _ => Start c pidFile pid run s
  end.

(** ** The command line (main.go) *)

Inductive Verb := VStart | VStop | VRestart.

(** [pid_flag] is the value of [--pid-file], a flag of [notifier start] alone;
    the variables of the others are never set. *)
Definition pid_file (c : Component) (v : Verb) (pid_flag : string) : string :=
  match c, v with Notifier_, VStart => pid_flag | _, _ => "" end.

Definition run_command (c : Component) (v : Verb) (pid_flag : string) (pid : Z) (run : service) (s : os) : option string * os :=
  let f := pid_file c v pid_flag in
  match v with
  | VStart => Start c f pid run s
  | VStop => Stop c f s
  | VRestart => Restart c f pid run s
  end.

(** [main]: what is written to the standard error, and the exit code. *)
Definition usage_hint (err : string) : bool :=
  Contains err "unknown command" || Contains err "required flag" || Contains err "unknown flag".

Definition main_outcome (e : option string) : list string * Z :=
  match e with
  | None => ([], 0)
  | Some err => (("Error: " +:+ err) :: (if usage_hint err then ["Run 'flowgent --help' for usage."] else []), 1)
  end.

(** ** Stopping what was started *)

Fixpoint spaceless (s : string) : bool :=
  match s with EmptyString => true | String c s => negb (is_space c) && spaceless s end.

Lemma spaceless_TrimSpace s : spaceless s = true -> TrimSpace s = s.
Proof.
  intros Hs. apply trimmed_TrimSpace. unfold trimmed. apply andb_true_iff. rewrite !String.eqb_eq. split.
  - destruct s as [|c s]; [done|]. cbn in *. by destruct (is_space c).
  - induction s as [|c s IH]; [done|]. cbn in *. destruct (is_space c); [done|]. cbn in Hs. rewrite (IH Hs). by destruct s.
Qed.

Lemma spaceless_pretty_go n s : spaceless s = true -> spaceless (pretty_N_go n s) = true.
Proof.
  revert s. induction (N.lt_wf_0 n) as [n _ IH]; intros s Hs.
  assert (n = 0 \/ 0 < n)%N as [->|Hn] by lia; [by rewrite pretty_N_go_0|]. rewrite pretty_N_go_step by done.
  apply IH; [by apply N.div_lt|]. cbn. rewrite Hs, andb_true_r.
  pose proof (N.mod_lt n 10 ltac:(lia)) as Hm. generalize dependent (n `mod` 10)%N. intros d Hm.
  assert (d = 0 \/ d = 1 \/ d = 2 \/ d = 3 \/ d = 4 \/ d = 5 \/ d = 6 \/ d = 7 \/ d = 8 \/ d = 9)%N as E by lia.
  by repeat destruct E as [->|E]; [..|subst d].
Qed.

Lemma Atoi_TrimSpace_Itoa pid : 0 < pid -> in_i64 pid = true -> Atoi (TrimSpace (Itoa pid)) = Some pid.
Proof.
  intros Hp Hi. rewrite spaceless_TrimSpace; [by apply Atoi_Itoa|]. destruct pid as [|p|p]; [lia| |lia].
  unfold Itoa, pretty, pretty_Z. change (spaceless (pretty (N.pos p)) = true). unfold pretty, pretty_N.
  case_decide; [done|]. by apply spaceless_pretty_go.
Qed.

(** While a component runs with its file, stopping it by that file sends the
    signal to it, to nothing else, and the file is gone. *)
Lemma stops_what_started c f pid s :
  f <> "" -> can_write f = true -> 0 < pid -> in_i64 pid = true -> find_err pid = None ->
  signal_err pid (with_file c f pid s) = None ->
  Stop c f (with_file c f pid s) = (None, {| os_files := delete f (os_files s); os_signalled := pid :: os_signalled s |}).
Proof.
  intros Hf Hw Hp Hi Hfind Hsig. unfold with_file in *. destruct (String.eqb_spec f ""); [done|].
  unfold Stop, StopByPID, StopSandbox, WritePID, write_file in *. rewrite Hw in *. destruct (String.eqb_spec f ""); [done|].
  unfold Atoi_value in *. cbn [os_files]. rewrite lookup_insert_eq, (Atoi_TrimSpace_Itoa pid Hp Hi), (Atoi_Itoa pid Hi), Hfind, Hsig.
  destruct (Z.ltb_spec 0 pid); [|lia]. unfold remove_file, signal. cbn [os_files os_signalled].
  rewrite delete_insert_eq. by destruct c.
Qed.

(** From the command line nothing is ever stopped: [stop] succeeds and changes
    nothing, and [restart] starts a second process beside the first. *)
Lemma command_stops_nothing c pid_flag pid run s : run_command c VStop pid_flag pid run s = (None, s).
Proof. by destruct c. Qed.
Lemma command_restart_starts c pid_flag pid run s :
  run_command c VRestart pid_flag pid run s = run s.
Proof. destruct c; cbn; unfold run_service, with_file; cbn; by destruct (run s). Qed.

(** A job manager, task manager or sandbox leaves its file behind, so that a
    later stop signals whatever process has the number then. *)
Lemma stale_file_signals c f pid run s e s' :
  removes_file c = false -> f <> "" -> can_write f = true -> run (with_file c f pid s) = (e, s') ->
  os_files s' = os_files (with_file c f pid s) ->
  os_files (Start c f pid run s).2 !! f = Some (Itoa pid).
Proof.
  intros Hc Hf Hw Hr Hs'.
  assert (E : Start c f pid run s = (e, s')).
  { destruct c; try done; unfold Start, run_service; rewrite Hr; cbn [removes_file]; by rewrite andb_false_r. }
  rewrite E. cbn [snd]. rewrite Hs'. unfold with_file, WritePID, write_file. destruct (String.eqb_spec f ""); [done|].
  rewrite Hw. apply lookup_insert_eq.
Qed.
End Pid.

(** ** The settings of workers *)

Record WorkerSettings := {
  ws_AgentFlowID : string; ws_DefaultNamespace : string; ws_TMID : string; ws_TMSlots : Z; ws_Workspace : string;
  ws_SandboxSlots : Z; ws_SandboxDeployed : bool;
}.

(** [utils.Hostname] of what the system answers. *)
Definition Hostname (h : string) : string := if String.eqb h "" then "unknown" else h.

Definition ws_namespace (cfg : WorkerSettings) : string :=
  if String.eqb (ws_DefaultNamespace cfg) "" then "default" else ws_DefaultNamespace cfg.

(** The identity and slots of a task manager ([startTaskManager]). *)
Definition tm_identity (host : string) (cfg : WorkerSettings) : string * Z :=
  let defaultTMID :=
    if negb (String.eqb (ws_AgentFlowID cfg) "")
    then "application-" +:+ ws_DefaultNamespace cfg +:+ "-" +:+ ws_AgentFlowID cfg +:+ "-tm-" +:+ Hostname host
    else "application-tm-" +:+ Hostname host in
  (if String.eqb (ws_TMID cfg) "" then defaultTMID else ws_TMID cfg,
   if ws_TMSlots cfg =? 0 then 4 else ws_TMSlots cfg).

(** The runner of [startSandboxService]; [temp] is the system's directory. *)
Record RunnerSettings := {
  rn_podName : string; rn_workspace : string; rn_namespace : string; rn_flowID : string; rn_slots : Z; rn_distributed : bool;
}.

Definition sandbox_runner (podName host temp : string) (cfg : WorkerSettings) : RunnerSettings := {|
  rn_podName := if String.eqb podName "" then "sandbox-" +:+ host else podName;
  rn_workspace := if String.eqb (ws_Workspace cfg) "" then temp else ws_Workspace cfg;
  rn_namespace := ws_namespace cfg; rn_flowID := ws_AgentFlowID cfg; rn_slots := ws_SandboxSlots cfg;
  rn_distributed := ws_SandboxDeployed cfg |}.

Definition sandbox_config_path (env : string) : string := if String.eqb env "" then "etc/flowgent.yaml" else env.
