(* ===== verification/Postgres.v ===== *)
(** * The PostgreSQL stores

    [pkg/store/pkg/postgres.go] and the stores of runs, tasks, approvals,
    flows, knowledge and memory over it.  They run other statements than those
    of SQLite ([Store], [ApiRuns], [Knowledge]); that both leave the same rows
    and answer the same, but for what is listed at the end, is shown for tables
    with a unique key. *)

From S2P Require Export ApiRunsFacts Knowledge.
From stdpp Require Import sorting.
From Stdlib Require Import Ascii.

Local Open Scope string_scope.
Local Open Scope list_scope.
Local Open Scope Z_scope.

(** ** Statements *)

Definition no_constraint : string := "there is no unique or exclusion constraint matching the ON CONFLICT specification".
Definition negative_offset : string := "OFFSET must not be negative".

Section Generic.
Context {T : Type} `{Row T}.

Definition has_key (id : string) (r : T) : bool := String.eqb (row_key r) id.

(** [Save]: [INSERT ... ON CONFLICT (key) DO UPDATE] of every column; a row that
    is there keeps its place.  [unique]: the table has a constraint for the
    key. *)
Definition pgt_Save (unique : bool) (e : T) (tbl : list T) : res (list T) :=
  if negb unique then Err no_constraint
  else Ok (if existsb (has_key (row_key e)) tbl then store_update (row_key e) (fun _ => e) tbl else tbl ++ [e]).

Definition pgt_Get (table col id : string) (tbl : list T) : res T :=
  match store_Get id tbl with
  | Some r => Ok r
  | None => Err (table +:+ " not found: " +:+ col +:+ "=" +:+ id)
  end.

Definition pgt_Select (req : PageRequest) (tbl : list T) : res (Page T) :=
  let req' := norm_page req in
  if i64 ((pg_Page req' - 1) * pg_Size req') <? 0 then Err negative_offset else Ok (store_Select req tbl).

Definition pgt_Delete (now : Z) (id : string) (tbl : list T) : list T :=
  map (fun r => if has_key id r then row_mark_deleted now r else r) tbl.
End Generic.

(** ** Runs (flowrun_postgres.go) *)

Definition pg_run_Create (id : string) (now : Z) (e : FlowRunInfo) (tbl : list RunRow) : res (FlowRunInfo * list RunRow) :=
  let run := set_run id (r_Status e) (r_Vars e) (r_Error e) (r_StartedAt e) (r_FinishedAt e) e in
  let? tbl := pgt_Save true {| rr_run := run; rr_output := None; rr_created := now; rr_updated := now; rr_deleted := false |} tbl in
  Ok (run, tbl).

Definition pg_run_Update (now : Z) (e : FlowRunInfo) (output : option gomap) (tbl : list RunRow) : list RunRow :=
  map (fun row =>
    if has_key (r_ID e) row
    then {| rr_run := {| r_ID := r_ID (rr_run row); r_Namespace := r_Namespace (rr_run row);
                         r_AgentFlowID := r_AgentFlowID (rr_run row); r_Version := r_Version (rr_run row);
                         r_Status := r_Status e; r_Vars := r_Vars e; r_Error := r_Error e;
                         r_Trigger := r_Trigger (rr_run row); r_StartedAt := r_StartedAt e;
                         r_FinishedAt := r_FinishedAt e; r_K8sNamespace := r_K8sNamespace (rr_run row);
                         r_Priority := r_Priority (rr_run row) |};
            rr_output := output; rr_created := rr_created row; rr_updated := now; rr_deleted := rr_deleted row |}
    else row) tbl.

Definition pg_run_Cancel (now : Z) (id : string) (tbl : list RunRow) : list RunRow :=
  map (fun row => if has_key id row then with_run (run_status RunCancelled (rr_run row)) now row else row) tbl.

(** ** Approvals (approval_postgres.go) *)

Definition pg_CreateApproval (id token : string) (now : Z) (e : ApprovalInfo) (tbl : list ApprovalRow)
    : res (ApprovalInfo * list ApprovalRow) :=
  let e := set_approval id (if String.eqb (ap_Token e) "" then token else ap_Token e) (ap_Status e) (ap_Approved e)
             (ap_Comment e) (ap_ResolvedAt e) e in
  let? tbl := pgt_Save true {| ar_info := e; ar_created := now; ar_updated := now; ar_deleted := false |} tbl in
  Ok (e, tbl).

Definition pg_UpdateApproval (now : Z) (e : ApprovalInfo) (tbl : list ApprovalRow) : list ApprovalRow :=
  map (fun row =>
    if has_key (ap_Token e) row
    then {| ar_info := set_approval (ap_ID (ar_info row)) (ap_Token (ar_info row)) (ap_Status e) (ap_Approved e) (ap_Comment e)
                         (ap_ResolvedAt e) (ar_info row);
            ar_created := ar_created row; ar_updated := now; ar_deleted := ar_deleted row |}
    else row) tbl.

Definition pg_ListPending (tbl : list ApprovalRow) : list ApprovalInfo := map ar_info (pending_rows tbl).

(** ** Tasks (task_postgres.go) *)

Definition no_such_run : string := "insert or update on table task_runs violates foreign key constraint".

(** A task refers to a run of [runs], deleted or not. *)
Definition pg_task_Save (runs : list RunRow) (e : TaskRow) (tbl : list TaskRow) : res (list TaskRow) :=
  if existsb (has_key (t_AgentFlowRunID (tr_task e))) runs then pgt_Save true e tbl else Err no_such_run.

Definition pg_CreateTaskRun (runs : list RunRow) (id : string) (now : Z) (e : TaskRow) (tbl : list TaskRow)
    : res (TaskRow * list TaskRow) :=
  let e := with_task (set_task id (t_AgentFlowRunID (tr_task e)) (tr_task e)) now e in
  let? tbl := pg_task_Save runs e tbl in
  Ok (e, tbl).

(** [UpdateTaskRun]: the retries allowed and the execution are written too,
    which are never NULL. *)
Definition pg_UpdateTaskRun (runs : list RunRow) (now : Z) (e : TaskRow) (tbl : list TaskRow) : res (list TaskRow) :=
  let t := tr_task e in
  if existsb (has_key (t_ID t)) tbl
  then Ok (store_update (t_ID t) (fun row =>
    let old := tr_task row in
    {| tr_task := {| t_ID := t_ID old; t_AgentFlowRunID := t_AgentFlowRunID old; t_NodeID := t_NodeID old;
                     t_Status := t_Status t; t_Input := t_Input t; t_Output := t_Output t; t_Error := t_Error t;
                     t_MaxRetries := t_MaxRetries t; t_ExecID := t_ExecID t;
                     t_FinishedAt := coalesce (t_FinishedAt t) (t_FinishedAt old) |};
       tr_retry := tr_retry e; tr_sequence := tr_sequence row; tr_started := coalesce (tr_started e) (tr_started row);
       tr_created := tr_created row; tr_updated := now; tr_deleted := tr_deleted row |}) tbl)
  else if existsb (has_key (t_AgentFlowRunID t)) runs
  then Ok (tbl ++ [{| tr_task := t; tr_retry := tr_retry e; tr_sequence := 0; tr_started := tr_started e;
                      tr_created := now; tr_updated := now; tr_deleted := false |}])
  else Err no_such_run.

Definition pg_GetByExecID (execID : string) (tbl : list TaskRow) : res TaskRow :=
  match find (fun r => String.eqb (t_ExecID (tr_task r)) execID) tbl with
  | Some r => Ok r
  | None => Err "no rows in result set"
  end.

Definition pg_ListByFlowRun (run : string) (tbl : list TaskRow) : list TaskRow :=
  run_tasks run tbl.

(** ** Flows (flow_postgres.go) *)

(** The versions of a flow share its id: its key is not unique. *)
Definition pg_flow_Save : FlowVersionInfo -> list FlowVersionInfo -> res (list FlowVersionInfo) := pgt_Save false.

Definition pg_flow_Get (id : string) (tbl : list FlowVersionInfo) : res FlowVersionInfo :=
  match latest_version id tbl with Some v => Ok v | None => Err "not found" end.

Definition pg_flow_GetVersion (id : string) (ver : Z) (tbl : list FlowVersionInfo) : res FlowVersionInfo :=
  match find (has_version id ver) tbl with
  | Some v => Ok v
  | None => Err "not found"
  end.

Definition pg_flow_Select : PageRequest -> list FlowVersionInfo -> res (Page FlowVersionInfo) := pgt_Select.

Definition pg_flow_GetSpec (id : string) (tbl : list FlowVersionInfo) : res FlowInfo :=
  let? ver := pg_flow_Get id tbl in
  match fv_Definition ver with Some spec => Ok spec | None => Err "json: cannot unmarshal" end.

Definition pg_flow_SaveSpec (now : Z) (spec : FlowInfo) (createdBy comment : string) (tbl : list FlowVersionInfo)
    : list FlowVersionInfo :=
  if existsb (is_spec_row spec) tbl
  then map (fun v =>
         if is_spec_row spec v
         then {| fv_FlowID := fv_FlowID v; fv_Version := fv_Version v; fv_Definition := Some spec; fv_Namespace := f_Namespace spec;
                 fv_Comment := comment; fv_CreatedBy := fv_CreatedBy v; fv_created := fv_created v; fv_deleted := false |}
         else v) tbl
  else tbl ++ [spec_row spec now createdBy comment].

(** ** Knowledge (knowledge_postgres.go) *)

(** [ILIKE] with a pattern whose inner text has no wildcard and no escape;
    the order of texts is the database's. *)
Definition plain_pattern (t : string) : bool := no_wildcard t && no_char "\" t.

Class PgText := {
  pg_ilike : string -> string -> bool;
  pg_order : list string -> list string;
  ilike_contains : forall t s, plain_pattern t = true -> pg_ilike ("%" +:+ t +:+ "%") s = Contains (ToLower s) (ToLower t);
  pg_order_perm : forall l, pg_order l ≡ₚ l;
}.

Section Knowledge.
Context `{PgText}.

Definition pg_term_clause (k : KnowledgeRow) (term : string) : bool :=
  pg_ilike ("%" +:+ term +:+ "%") (kn_Title k) || pg_ilike ("%" +:+ term +:+ "%") (kn_Content k).
(** [tags ?| ARRAY[...]] *)
Definition pg_tags_any (k : KnowledgeRow) (tags : list string) : bool := existsb (fun t => bool_decide (t ∈ tags_of k)) tags.

Definition pg_Knowledge_Search (db_err : option string) (req : KnowledgeSearchRequest) (tbl : list KnowledgeRow)
    : res (list KnowledgeRow) :=
  let topK := if ks_TopK req <=? 0 then 20 else ks_TopK req in
  match searchTerms (ks_Query req) with
  | [] => Ok []
  | terms =>
      match db_err with
      | Some e => Err ("knowledge search: " +:+ e)
      | None =>
          Ok (take (Z.to_nat topK)
                (List.filter (fun k => existsb (pg_term_clause k) terms &&
                                       match ks_Tags req with [] => true | tags => pg_tags_any k tags end)
                   (live_rows tbl)))
      end
  end.

Definition pg_SearchByTags (db_err : option string) (tags : list string) (tbl : list KnowledgeRow) : res (list KnowledgeRow) :=
  match tags with
  | [] => Ok []
  | _ =>
      match db_err with
      | Some e => Err ("knowledge search by tags: " +:+ e)
      | None => Ok (List.filter (fun k => pg_tags_any k tags) (live_rows tbl))
      end
  end.

(** [jsonb_array_elements_text]: the tags that were [nil] are a JSON null,
    which has no elements to give. *)
Definition pg_ListTags (db_err : option string) (tbl : list KnowledgeRow) : res (list string) :=
  let live := List.filter (fun k => negb (row_deleted k)) tbl in
  match db_err with
  | Some e => Err ("knowledge list tags: " +:+ e)
  | None =>
      if existsb (fun k => match kn_Tags k with None => true | Some _ => false end) live
      then Err "knowledge list tags: cannot extract elements from a scalar"
      else Ok (List.filter (fun t => negb (String.eqb t "")) (pg_order (remove_dups (concat (map tags_of live)))))
  end.

Definition base_with_id (id : string) (b : BaseEntity) : BaseEntity :=
  {| b_ID := id; b_Description := b_Description b; b_Namespace := b_Namespace b; b_Status := b_Status b;
     b_CreatedAt := b_CreatedAt b; b_CreatedBy := b_CreatedBy b; b_UpdatedAt := b_UpdatedAt b;
     b_UpdatedBy := b_UpdatedBy b; b_DelFlag := b_DelFlag b |}.

(** [UpsertBySourceRef]; [db_err] gives the errors of its statements. *)
Definition pg_UpsertBySourceRef (db_err : string -> option string) (now : Z) (e : KnowledgeRow) (tbl : list KnowledgeRow)
    : option string * list KnowledgeRow :=
  match db_err "upsert" with
  | Some err => (Some ("upsert lookup: " +:+ err), tbl)
  | None =>
      let b :=
        match find (same_source (kn_Source e)) tbl with
        | Some existing =>
            let b := base_with_id (b_ID (kn_base existing)) (kn_base e) in
            match db_err "audit" with None => MarkUpdated "" now b | Some _ => b end
        | None => MarkCreated "" now (kn_base e)
        end in
      match (match db_err "Save" with Some err => Err err | None => pgt_Save true (kn_with b (kn_Tags e) e) tbl end) with
      | Err err => (Some err, tbl)
      | Ok tbl => (None, tbl)
      end
  end.
End Knowledge.

(** ** Memory (memory_postgres.go) *)

(** Rows are read by name into [MemoryInfo]: what the driver says to fields
    that no column is for, and to none. *)
Class PgRows := {
  by_name : list string -> list string -> option string;
  by_name_missing : forall fields cols, ~ (fields ⊆ cols) -> is_Some (by_name fields cols);
}.

Definition memory_fields : list string :=
  ["id"; "description"; "namespace"; "status"; "created_at"; "created_by"; "updated_at"; "updated_by"; "del_flag";
   "flow_id"; "node_id"; "content"; "embedding"; "metadata"].
Definition memory_columns : list string :=
  ["flow_id"; "node_id"; "content"; "embedding"; "metadata"; "created_at"; "updated_at"].

Definition pg_SearchMemory `{PgRows} (flowID : string) (embedding : option (list f64)) (topK : Z) (tbl : list MemRow)
    : res (list MemRow) :=
  if topK <? 0 then Err "LIMIT must not be negative"
  else match take (Z.to_nat topK) (flow_memories flowID tbl) with
       | [] => Ok []
       | rows => match by_name memory_fields memory_columns with Some e => Err e | None => Ok rows end
       end.

Definition pg_ListByFlow `{PgRows} (flowID : string) (tbl : list MemRow) : res (list MemRow) := pg_SearchMemory flowID None 100 tbl.

(** * The two backends agree

    Tables are compared as sets of rows: the order of the rows of equal times
    is the database's.  On tables with a unique key every operation of the
    PostgreSQL stores leaves what that of the SQLite stores leaves; the
    differences are at the end. *)

(** ** Tables as sets of rows *)

Lemma filter_perm {A} (f : A -> bool) l l' : l ≡ₚ l' -> List.filter f l ≡ₚ List.filter f l'.
Proof.
  induction 1 as [|x l l' _ IH|x y l|l l' l'' _ IH1 _ IH2]; cbn; [done| | |by etrans].
  - destruct (f x); [by constructor|done].
  - destruct (f x), (f y); [apply perm_swap|done..].
Qed.

#[export] Instance newer_trans {T} `{Row T} : Transitive (newer (T := T)).
Proof. intros x y z. unfold newer. lia. Qed.

Section Generic.
Context {T : Type} `{Row T}.
Implicit Types (s p tbl : list T) (e r : T).

Definition keyed tbl : Prop := NoDup (map row_key tbl).

#[export] Instance keyed_proper : Proper ((≡ₚ) ==> iff) keyed.
Proof. intros s p Hsp. unfold keyed. by rewrite Hsp. Qed.

Lemma keyed_cons r tbl : keyed (r :: tbl) <-> row_key r ∉ map row_key tbl /\ keyed tbl.
Proof. apply NoDup_cons. Qed.

Lemma without_key id tbl : id ∉ map row_key tbl -> existsb (has_key id) tbl = false.
Proof.
  intros Hid. apply not_true_iff_false. intros (r & Hr & Hk%String.eqb_eq)%existsb_exists. apply Hid.
  apply list_elem_of_In, in_map_iff. by exists r.
Qed.

Lemma filter_without_key id tbl :
  id ∉ map row_key tbl -> List.filter (fun r => negb (String.eqb (row_key r) id)) tbl = tbl.
Proof.
  induction tbl as [|r tbl IH]; [done|]. cbn. intros Hn. destruct (String.eqb_spec (row_key r) id) as [<-|_].
  - exfalso. apply Hn. by left.
  - cbn. f_equal. apply IH. intros Hi. apply Hn. by right.
Qed.

Lemma update_without_key id f tbl : id ∉ map row_key tbl -> store_update id f tbl = tbl.
Proof.
  unfold store_update. induction tbl as [|r tbl IH]; [done|]. cbn. intros Hn.
  destruct (String.eqb_spec (row_key r) id) as [<-|_]; [exfalso; apply Hn; by left|].
  f_equal. apply IH. intros Hi. apply Hn. by right.
Qed.

(** *** What the operations do to the set of rows *)

#[export] Instance store_Save_proper e : Proper ((≡ₚ) ==> (≡ₚ)) (store_Save e).
Proof. intros s p Hsp. unfold store_Save. by rewrite (filter_perm _ _ _ Hsp). Qed.
#[export] Instance store_update_proper id f : Proper ((≡ₚ) ==> (≡ₚ)) (store_update id f).
Proof. intros s p Hsp. unfold store_update. by rewrite Hsp. Qed.

(** The two statements of [Save]. *)
Lemma upsert_replace e tbl : keyed tbl -> exists tbl', pgt_Save true e tbl = Ok tbl' /\ store_Save e tbl ≡ₚ tbl'.
Proof.
  intros Hk. eexists. split; [reflexivity|]. unfold store_Save.
  induction tbl as [|r tbl IH]; [done|]. apply keyed_cons in Hk as [Hn Hk]. specialize (IH Hk).
  cbn [List.filter existsb]. unfold has_key at 1. destruct (String.eqb_spec (row_key r) (row_key e)) as [E|E]; cbn [negb orb].
  - unfold store_update. cbn [map]. rewrite E, String.eqb_refl. rewrite E in Hn. fold (store_update (row_key e) (fun _ => e) tbl).
    rewrite filter_without_key, update_without_key by done. symmetry. apply Permutation_cons_append.
  - assert (Hm : (if existsb (has_key (row_key e)) tbl then store_update (row_key e) (fun _ => e) (r :: tbl) else (r :: tbl) ++ [e]) =
                 r :: (if existsb (has_key (row_key e)) tbl then store_update (row_key e) (fun _ => e) tbl else tbl ++ [e])).
    { destruct (existsb _ tbl); [|done]. unfold store_update. cbn [map]. by destruct (String.eqb_spec (row_key r) (row_key e)). }
    rewrite Hm. cbn. by constructor.
Qed.

Lemma keyed_Save e tbl : keyed tbl -> keyed (store_Save e tbl).
Proof.
  unfold keyed, store_Save. intros Hk. rewrite map_app. apply NoDup_app. split_and!.
  - induction tbl as [|r tbl IH]; [constructor|]. apply keyed_cons in Hk as [Hn Hk]. cbn. destruct (negb _); cbn; [|by apply IH].
    constructor; [|by apply IH]. intros (x & Ex & Hx%list_elem_of_In)%list_elem_of_fmap. apply Hn.
    apply filter_In in Hx as [Hx _]. apply list_elem_of_In, in_map_iff. by exists x.
  - intros k (x & -> & Hx%list_elem_of_In)%list_elem_of_fmap Ek%list_elem_of_singleton.
    apply filter_In in Hx as [_ Hx]. cbn in Hx. by rewrite Ek, String.eqb_refl in Hx.
  - apply NoDup_singleton.
Qed.

Lemma keyed_update id f tbl : (forall r, row_key r = id -> row_key (f r) = id) -> keyed tbl -> keyed (store_update id f tbl).
Proof.
  intros Hf Hk. unfold keyed, store_update. rewrite map_map. erewrite map_ext; [exact Hk|]. intros r.
  destruct (String.eqb_spec (row_key r) id) as [E|]; [|done]. by rewrite E, Hf.
Qed.

(** *** What is read of the set of rows *)

Lemma store_Get_iff id tbl r : keyed tbl -> store_Get id tbl = Some r <-> r ∈ tbl /\ row_key r = id /\ row_deleted r = false.
Proof.
  intros Hk. split; [intros (? & ? & ?)%store_Get_key; done|]. intros (Hr & Hid & Hd). unfold store_Get.
  induction tbl as [|x tbl IH]; [by apply elem_of_nil in Hr|]. apply keyed_cons in Hk as [Hn Hk]. cbn [find].
  apply elem_of_cons in Hr as [<-|Hr]; [by rewrite Hid, String.eqb_refl, Hd|].
  destruct (String.eqb_spec (row_key x) id) as [E|E]; cbn [andb]; [|by apply IH].
  exfalso. apply Hn. rewrite E, <- Hid. apply list_elem_of_In, in_map_iff. exists r. by rewrite <- list_elem_of_In.
Qed.

Lemma store_Get_perm id s p : keyed s -> s ≡ₚ p -> store_Get id s = store_Get id p.
Proof.
  intros Hk Hsp. apply option_eq. intros r. rewrite !store_Get_iff by (by rewrite <- ?Hsp). by rewrite Hsp.
Qed.

(** No two rows that are listed were created at the same time. *)
Definition distinct_times tbl : Prop :=
  forall a b, a ∈ live_rows tbl -> b ∈ live_rows tbl -> row_created a = row_created b -> a = b.

Lemma live_rows_perm_eq s p : distinct_times s -> s ≡ₚ p -> live_rows s = live_rows p.
Proof.
  intros Hd Hsp.
  assert (Hp : live_rows s ≡ₚ live_rows p) by (rewrite !live_rows_perm; by apply filter_perm).
  apply (Sorted_unique_strong newer); [|apply live_rows_sorted..|exact Hp].
  intros a b Ha Hb Hab Hba. apply Hd; [done|by rewrite Hp|]. unfold newer in *. lia.
Qed.

Lemma store_Select_perm req s p : distinct_times s -> s ≡ₚ p -> store_Select req s = store_Select req p.
Proof. intros Hd Hsp. unfold store_Select. by rewrite (live_rows_perm_eq s p). Qed.

(** A page whose offset fits. *)
Definition page_fits (req : PageRequest) : Prop := 0 <= i64 ((pg_Page (norm_page req) - 1) * pg_Size (norm_page req)).
Lemma pgt_Select_ok req tbl : page_fits req -> pgt_Select req tbl = Ok (store_Select req tbl).
Proof. unfold page_fits, pgt_Select. intros Hp. by destruct (Z.ltb_spec (i64 ((pg_Page (norm_page req) - 1) * pg_Size (norm_page req))) 0); [lia|]. Qed.
End Generic.

(** ** Runs *)

Inductive run_cmd :=
| RunCreate (id : string) (now : Z) (e : FlowRunInfo)
| RunSave (row : RunRow)
| RunUpdate (now : Z) (e : FlowRunInfo) (output : option gomap)
| RunCancel (now : Z) (id : string)
| RunDelete (now : Z) (id : string).

Definition sq_run (tbl : list RunRow) (c : run_cmd) : list RunRow :=
  match c with
  | RunCreate id now e => (run_Create id now e tbl).2
  | RunSave row => store_Save row tbl
  | RunUpdate now e output => run_Update now e output tbl
  | RunCancel now id => run_Cancel now id tbl
  | RunDelete now id => store_Delete now id tbl
  end.

Definition pg_run (c : run_cmd) (tbl : list RunRow) : res (list RunRow) :=
  match c with
  | RunCreate id now e => let? r := pg_run_Create id now e tbl in Ok r.2
  | RunSave row => pgt_Save true row tbl
  | RunUpdate now e output => Ok (pg_run_Update now e output tbl)
  | RunCancel now id => Ok (pg_run_Cancel now id tbl)
  | RunDelete now id => Ok (pgt_Delete now id tbl)
  end.

Fixpoint pg_runs (cmds : list run_cmd) (tbl : list RunRow) : res (list RunRow) :=
  match cmds with
  | [] => Ok tbl
  | c :: cmds => let? tbl := pg_run c tbl in pg_runs cmds tbl
  end.

Lemma pg_run_Update_eq now e out tbl : pg_run_Update now e out tbl = run_Update now e out tbl.
Proof.
  unfold pg_run_Update, run_Update, store_update, has_key. apply map_ext. intros row.
  destruct (String.eqb_spec (row_key row) (r_ID e)) as [E|]; [|done]. cbn in E. unfold set_run. by rewrite E.
Qed.

Lemma run_update_key id f tbl : (forall row, r_ID (rr_run (f row)) = r_ID (rr_run row)) -> keyed tbl -> keyed (store_update id f tbl).
Proof. intros Hf. apply keyed_update. intros r Hr. cbn in *. by rewrite Hf. Qed.

(** One command. *)
Lemma run_step c s p : keyed s -> s ≡ₚ p -> exists p', pg_run c p = Ok p' /\ sq_run s c ≡ₚ p' /\ keyed (sq_run s c).
Proof.
  intros Hk Hsp. assert (Hkp : keyed p) by (by rewrite <- Hsp).
  destruct c as [id now e|row|now e out|now id|now id]; cbn [pg_run sq_run].
  - unfold pg_run_Create, run_Create. cbn [snd]. set (row := {| rr_run := set_run _ _ _ _ _ _ _ |}).
    destruct (upsert_replace row p Hkp) as (p' & -> & Hp'). exists p'. split; [done|].
    split; [by rewrite Hsp|by apply keyed_Save].
  - destruct (upsert_replace row p Hkp) as (p' & -> & Hp'). exists p'. split; [done|].
    split; [by rewrite Hsp|by apply keyed_Save].
  - eexists. split; [reflexivity|]. rewrite pg_run_Update_eq. unfold run_Update.
    split; [by rewrite Hsp|]. by apply keyed_update.
  - eexists. split; [reflexivity|]. change (pg_run_Cancel now id p) with (run_Cancel now id p). unfold run_Cancel.
    split; [by rewrite Hsp|]. by apply run_update_key.
  - eexists. split; [reflexivity|]. change (pgt_Delete now id p) with (store_Delete now id p). unfold store_Delete.
    split; [by rewrite Hsp|]. by apply run_update_key.
Qed.


(** ** Approvals *)

Lemma pg_CreateApproval_agrees id token now e tbl :
  keyed tbl -> exists tbl', pg_CreateApproval id token now e tbl = Ok ((store_CreateApproval false id token now e tbl).1, tbl') /\
    (store_CreateApproval false id token now e tbl).2 ≡ₚ tbl'.
Proof.
  intros Hk. unfold pg_CreateApproval, store_CreateApproval, approval_token. cbn zeta.
  set (e' := set_approval _ _ _ _ _ _ e). destruct (upsert_replace {| ar_info := e'; ar_created := now; ar_updated := now; ar_deleted := false |} tbl Hk)
    as (tbl' & -> & Hp). by exists tbl'.
Qed.

Lemma pg_UpdateApproval_eq now e tbl : pg_UpdateApproval now e tbl = store_UpdateApproval now e tbl.
Proof.
  unfold pg_UpdateApproval, store_UpdateApproval, store_update, has_key. apply map_ext. intros row.
  destruct (String.eqb_spec (row_key row) (ap_Token e)) as [E|]; [|done]. cbn in E. by rewrite E.
Qed.

(** SQLite lists the pending approvals as PostgreSQL does, if it lists them at
    all. *)
Lemma pg_ListPending_eq tbl : is_ok (ListPending tbl) = true -> ListPending tbl = Ok (pg_ListPending tbl).
Proof.
  intros Hok. rewrite ListPending_ok_iff in Hok. apply each_map. intros r [Hr Hs]%elem_of_pending.
  destruct (Hok r Hr Hs) as [E1 E2]. unfold scanApproval. by rewrite E1, E2.
Qed.

(** ** Tasks *)

(** Where the retries allowed and the execution of a task do not change, and
    its run is there, its updates are the same. *)
Lemma pg_UpdateTaskRun_agrees runs now e tbl :
  let t := tr_task e in
  existsb (has_key (t_AgentFlowRunID t)) runs = true ->
  Forall (fun row => t_ID (tr_task row) = t_ID t ->
            t_MaxRetries (tr_task row) = t_MaxRetries t /\ t_ExecID (tr_task row) = t_ExecID t) tbl ->
  (existsb (has_key (t_ID t)) tbl = false -> t_MaxRetries t = 0 /\ t_ExecID t = "") ->
  pg_UpdateTaskRun runs now e tbl = Ok (store_UpdateTaskRun now e tbl).
Proof.
  intros t Hrun Hall Hnew. unfold pg_UpdateTaskRun, store_UpdateTaskRun. fold t. cbv zeta.
  change (existsb (fun r => String.eqb (t_ID (tr_task r)) (t_ID t)) tbl) with (existsb (has_key (t_ID t)) tbl).
  destruct (existsb (has_key (t_ID t)) tbl) eqn:Ex.
  - f_equal. unfold store_update. apply map_ext_in. intros row Hin. rewrite Forall_forall in Hall.
    destruct (String.eqb_spec (row_key row) (t_ID t)) as [E|]; [|done].
    destruct (Hall row) as [-> ->]; [by apply list_elem_of_In|exact E|done].
  - rewrite Hrun. destruct (Hnew eq_refl) as [Hm Hx]. do 3 f_equal. by destruct t; cbn in *; subst.
Qed.

Definition demo_task (id exec : string) : TaskRow := {|
  tr_task := {| t_ID := id; t_AgentFlowRunID := "r"; t_NodeID := "n"; t_Status := Running; t_Input := None; t_Output := None;
                t_Error := ""; t_MaxRetries := 3; t_ExecID := exec; t_FinishedAt := None |};
  tr_retry := 0; tr_sequence := 0; tr_started := None; tr_created := 0; tr_updated := 0; tr_deleted := false |}.
Definition demo_run : FlowRunInfo :=
  {| r_ID := ""; r_Namespace := ""; r_AgentFlowID := "f"; r_Version := 1; r_Status := RunRunning; r_Vars := []; r_Error := "";
     r_Trigger := {| ti_Type := ""; ti_Source := ""; ti_Payload := [] |}; r_StartedAt := None; r_FinishedAt := None;
     r_K8sNamespace := ""; r_Priority := "" |}.
Definition demo_runs : list RunRow := (run_Create "r" 1 demo_run []).2.

(** An execution that is given to a task later is found in PostgreSQL, and
    lost in SQLite. *)
Lemma sqlite_drops_execution :
  let later := demo_task "t" "exec-1" in
  match pg_UpdateTaskRun demo_runs 2 later [demo_task "t" ""] with
  | Ok tbl => is_ok (pg_GetByExecID "exec-1" tbl) = true
  | Err _ => False
  end /\ is_ok (pg_GetByExecID "exec-1" (store_UpdateTaskRun 2 later [demo_task "t" ""])) = false.
Proof. vm_compute. done. Qed.

(** A task of a run that is not there is refused by PostgreSQL, and kept by
    SQLite. *)
Lemma orphan_task_refused id now e tbl :
  pg_CreateTaskRun [] id now e tbl = Err no_such_run /\
  store_Get id (store_CreateTaskRun id now e tbl).2 =
    (if tr_deleted e then None else Some (with_task (set_task id (t_AgentFlowRunID (tr_task e)) (tr_task e)) now e)).
Proof. split; [done|]. unfold store_CreateTaskRun. cbn [snd]. rewrite store_Get_Save. cbn. by rewrite String.eqb_refl. Qed.

(** ** Flows *)

(** No version can be saved as such; a specification can. *)
Lemma pg_flow_Save_fails v tbl : pg_flow_Save v tbl = Err no_constraint.
Proof. reflexivity. Qed.

Lemma pg_flow_SaveSpec_eq now spec by_ c tbl : pg_flow_SaveSpec now spec by_ c tbl = SaveSpec now spec by_ c tbl.
Proof.
  unfold pg_flow_SaveSpec, SaveSpec. destruct (existsb _ tbl); [|done]. apply map_ext. intros v.
  destruct (is_spec_row spec v) eqn:E; [|done]. unfold is_spec_row in E.
  apply andb_true_iff in E as [E1%String.eqb_eq E2%Z.eqb_eq]. unfold spec_row. by rewrite E1, E2.
Qed.

Lemma pg_flow_Get_iff id tbl v : pg_flow_Get id tbl = Ok v <-> flow_Get id tbl = Ok v.
Proof. unfold pg_flow_Get, flow_Get. by destruct (latest_version id tbl). Qed.
Lemma pg_flow_GetVersion_iff id ver tbl v : pg_flow_GetVersion id ver tbl = Ok v <-> flow_GetVersion id ver tbl = Ok v.
Proof. unfold pg_flow_GetVersion, flow_GetVersion. by destruct (find _ tbl). Qed.

Lemma pg_flow_Select_ok req tbl : page_fits req -> pg_flow_Select req tbl = Ok (flow_Select req tbl).
Proof. apply pgt_Select_ok. Qed.

Lemma pg_flow_GetSpec_iff id tbl spec : pg_flow_GetSpec id tbl = Ok spec <-> GetSpec id tbl = Some spec.
Proof.
  unfold pg_flow_GetSpec, pg_flow_Get, GetSpec. destruct (latest_version id tbl) as [v|]; cbn; [|done].
  destruct (fv_Definition v); split; congruence.
Qed.

(** ** Knowledge *)

Lemma word_no_escape s : word s = true -> no_char "\" s = true.
Proof.
  induction s as [|c s IH]; [done|]. intros [Hc Hs]%word_cons. cbn [no_char]. rewrite IH by done.
  destruct (Ascii.eqb_spec c "\") as [->|]; [discriminate Hc|done].
Qed.

Lemma terms_plain q : has_words q = true -> Forall (fun t => plain_pattern t = true) (searchTerms q).
Proof.
  intros Hw. unfold searchTerms, has_words in *. destruct (collect_terms (FieldsFunc q) []) as [|t ts] eqn:E; [done|].
  rewrite <- E. apply collect_terms_all; [|constructor].
  eapply Forall_impl; [by apply fields_words|]. cbn beta. intros p Hp. rewrite (word_TrimSpace p Hp). unfold plain_pattern.
  rewrite word_no_wildcard by (by apply word_ToLower). by apply word_no_escape, word_ToLower.
Qed.

Section Knowledge.
Context `{PgText} `{SqlText}.

(** The terms mean the same to [ILIKE] and to [LIKE] of lower-case text. *)
Lemma pg_term_clause_eq k t : plain_pattern t = true -> pg_term_clause k t = term_clause k t.
Proof.
  intros Ht. unfold pg_term_clause. rewrite !ilike_contains by done. symmetry. apply term_clause_spec.
  unfold plain_pattern in Ht. by apply andb_true_iff in Ht as [? _].
Qed.

(** On the terms and tags of [knowledge_search_spec] both find the same. *)
Lemma pg_search_agrees req tbl :
  has_words (ks_Query req) = true ->
  Forall (fun t => clean_tag t = true /\ t <> ",") (ks_Tags req) ->
  Forall (fun k => clean_tags k = true) tbl ->
  pg_Knowledge_Search None req tbl = Knowledge_store_Search None req tbl.
Proof.
  intros Hw Htags Htbl. pose proof (terms_plain _ Hw) as Hterms. unfold pg_Knowledge_Search, Knowledge_store_Search.
  destruct (searchTerms (ks_Query req)) as [|t0 ts]; [done|]. do 2 f_equal. apply List.filter_ext_in. intros k Hk.
  rewrite Forall_forall in Htbl. rewrite Forall_forall in Hterms. rewrite Forall_forall in Htags.
  assert (Hck : clean_tags k = true) by (apply Htbl; apply list_elem_of_In, live_rows_elem in Hk; tauto).
  f_equal.
  - apply existsb_ext_in. intros t Ht. by apply pg_term_clause_eq, Hterms, list_elem_of_In.
  - destruct (ks_Tags req) as [|t1 tags]; [done|]. apply existsb_ext_in. intros t Ht. symmetry.
    destruct (Htags t) as [Hct Hc]; [by apply list_elem_of_In|]. by apply tag_clause_spec.
Qed.

(** The upsert by source leaves the same entries. *)
Lemma pg_upsert_agrees now e tbl :
  keyed tbl -> exists tbl', pg_UpsertBySourceRef (fun _ => None) now e tbl = (None, tbl') /\
    (UpsertBySourceRef (fun _ => None) now e tbl).2 ≡ₚ tbl'.
Proof.
  intros Hk. unfold pg_UpsertBySourceRef, UpsertBySourceRef.
  destruct (find (same_source (kn_Source e)) tbl) as [x|]; cbn zeta beta iota.
  - set (k := kn_with _ _ e). destruct (upsert_replace k tbl Hk) as (tbl' & -> & Hp). exists tbl'. split; [done|].
    cbn [snd]. exact Hp.
  - set (k := kn_with _ _ e). destruct (upsert_replace k tbl Hk) as (tbl' & -> & Hp). by exists tbl'.
Qed.
End Knowledge.

(** ** Memory *)

(** What is remembered in PostgreSQL is never read again: the statement does
    not ask for all the fields the rows are read into. *)
Lemma pg_memory_never_read `{PgRows} flowID emb topK tbl r :
  r ∈ tbl -> m_FlowID (mr_info r) = flowID -> 0 < topK -> is_ok (pg_SearchMemory flowID emb topK tbl) = false.
Proof.
  intros Hr Hf Hk. unfold pg_SearchMemory. destruct (Z.ltb_spec topK 0); [lia|].
  assert (Hm : r ∈ flow_memories flowID tbl) by (by apply elem_of_memories).
  destruct (flow_memories flowID tbl) as [|x rows]; [by apply elem_of_nil in Hm|].
  destruct (Z.to_nat topK) as [|n] eqn:En; [lia|]. cbn [take].
  destruct (by_name_missing memory_fields memory_columns) as [err ->]; [|done].
  intros Hs. specialize (Hs "id" ltac:(by left)). apply (bool_decide_eq_true_2 _) in Hs. vm_compute in Hs. done.
Qed.

(** ** A concrete sequence *)

Definition demo_run_cmds : list run_cmd := [RunCreate "a" 2 demo_run; RunCreate "b" 3 demo_run; RunCancel 4 "a"; RunDelete 5 "r"].

