(* ===== verification/ApiServer.v ===== *)
(** * The databases, the API server's process, and telemetry

    [pkg/store/pkg/store.go]: the choice and the opening of the database;
    [pkg/api/pkg/apiserver.go]: what [NewFlowgentApiServer] makes of the tables
    and the settings, and the order of its end; [pkg/common/pkg/tracing/otel.go]:
    the provider of traces; [pkg/common/pkg/utils/logger.go].  Listening, the
    broker's connection and the exporter are environment: what they answer is
    an argument. *)

From S2P Require Export AllInOne.
From Stdlib Require Import Floats.SpecFloat.

Local Open Scope string_scope.
Local Open Scope list_scope.
Local Open Scope Z_scope.

(** ** The databases (store.go, [NewPostgresPool], [NewSQLiteConn]) *)

Inductive Store_ :=
| PgStore (dsn : string) (pool : Z * Z) (search_path : string)
| SqStore (path : string) (connections : Z).

(** What the drivers answer. *)
Class Drivers := {
  pg_parse : string -> option string;
  pg_connect : string -> option string;
  pg_ping : string -> option string;
  pg_migrate : string -> option string;
  sq_mkdir : string -> option string;
  sq_open : string -> option string;
  sq_migrate : string -> option string;
}.

Section Databases.
Context `{Drivers}.

Definition NewPostgresPool (dsn schema : string) : call Store_ :=
  match pg_parse dsn with
  | Some e => Panic ("pg: " +:+ e)
  | None =>
      let schema := if String.eqb schema "" then "public" else schema in
      match pg_connect dsn with
      | Some e => Panic ("pg connect: " +:+ e)
      | None =>
          match pg_ping dsn with
          | Some e => Panic ("pg ping: " +:+ e)
          | None => Ret (PgStore dsn (20, 2) schema)
          end
      end
  end.

Definition NewSQLiteConn (dir : string) : call Store_ :=
  match sq_mkdir dir with
  | Some e => Panic ("sqlite dir: " +:+ e)
  | None =>
      let dbPath := PathJoin [dir; "flowgent.db"] in
      match sq_open dbPath with
      | Some e => Panic ("sqlite open: " +:+ e)
      | None => match sq_migrate dbPath with Some e => Panic ("sqlite migrate: " +:+ e) | None => Ret (SqStore dbPath 1) end
      end
  end.

Definition store_dsn (pg : PostgresConfig) : string :=
  if negb (String.eqb (pg_Dsn pg) "") then pg_Dsn pg
  else
    let ssl := if pg_UseSSL pg then "require" else "disable" in
    "host=" +:+ pg_Host pg +:+ " port=" +:+ Itoa (pg_Port pg) +:+ " user=" +:+ pg_Username pg +:+ " password=" +:+
    pg_Password pg +:+ " dbname=" +:+ pg_Database pg +:+ " sslmode=" +:+ ssl.

(** Failing migrations of PostgreSQL are only logged; the flag says whether
    they passed. *)
Definition NewStoreManager (storage : string) (pg : PostgresConfig) (sqliteDir : string) : call (Store_ * bool) :=
  if String.eqb storage "POSTGRE"
  then match NewPostgresPool (store_dsn pg) "public" with
       | Ret st => Ret (st, match pg_migrate (store_dsn pg) with Some _ => false | None => true end)
       | Panic e => Panic e
       end
  else match NewSQLiteConn (if String.eqb sqliteDir "" then "~/.flowgent/sqlite" else sqliteDir) with
       | Ret st => Ret (st, true)
       | Panic e => Panic e
       end.

(** The job managers' lock connects to the database of the store when host
    and port are given, or the whole address. *)
Lemma lock_and_store_one_database pg :
  pg_Dsn pg <> "" \/ (pg_Host pg <> "" /\ pg_Port pg <> 0) -> postgresDSNFromConfig pg = store_dsn pg.
Proof.
  unfold postgresDSNFromConfig, store_dsn. destruct (String.eqb_spec (pg_Dsn pg) ""); [|done].
  intros [?|[Hh Hp]]; [done|]. cbn [negb]. destruct (String.eqb_spec (pg_Host pg) ""); [done|]. by destruct (Z.eqb_spec (pg_Port pg) 0).
Qed.

(** Without a port the lock takes the standard one, the store none. *)
Lemma store_without_port pg : pg_Dsn pg = "" -> pg_Port pg = 0 -> pg_Host pg = "db" -> pg_Username pg = "u" -> pg_Password pg = "p" ->
  pg_Database pg = "d" -> pg_UseSSL pg = false ->
  store_dsn pg = "host=db port=0 user=u password=p dbname=d sslmode=disable" /\
  postgresDSNFromConfig pg = "host=db port=5432 user=u password=p dbname=d sslmode=disable".
Proof. destruct pg; cbn. intros -> -> -> -> -> -> ->. by vm_compute. Qed.
End Databases.

(** ** Traces (otel.go) *)

Record OTELConfig := { ot_Enabled : bool; ot_Endpoint : string; ot_Protocol : string; ot_Timeout : Z; ot_SampleRate : f64 }.

Record Provider := { tp_endpoint : string; tp_attributes : list (string * string); tp_sampleRate : f64 }.

(** What the library answers: the exporter, the resource, and the flush of a
    first span within five seconds. *)
Record otel_answers := { oa_exporter : res unit; oa_resource : res unit; oa_flush : res unit }.

Definition otel_NewProvider (a : otel_answers) (svcName svcVersion : string) (otelCfg : option OTELConfig)
    (labels : list (string * string)) : res Provider :=
  let endpoint :=
    match otelCfg with
    | Some c => if String.eqb (ot_Endpoint c) "" then "localhost:4317" else ot_Endpoint c
    | None => "localhost:4317"
    end in
  let? _ := oa_exporter a in
  let attrs := [("service.name", svcName); ("service.version", svcVersion)] ++ labels in
  let? _ := oa_resource a in
  let sampleRate :=
    match otelCfg with
    | Some c => if f64_ltb (f64_of_Z 0) (ot_SampleRate c) then ot_SampleRate c else f64_of_Z 1
    | None => f64_of_Z 1
    end in
  let? _ := oa_flush a in
  Ok {| tp_endpoint := endpoint; tp_attributes := attrs; tp_sampleRate := sampleRate |}.

(** [Shutdown], with the answer of the tracer's; the meter's is not asked. *)
Definition otel_Shutdown (tracer_shutdown : option (option string)) : option string :=
  match tracer_shutdown with Some e => e | None => None end.

(** ** Logging (logger.go) *)

Inductive Level := LevelDebug | LevelInfo | LevelWarn | LevelError.
#[export] Instance Level_eq_dec : EqDecision Level.
Proof. solve_decision. Defined.

Record Logger := { lg_json : bool; lg_level : Level }.

Definition log_level (level : string) : Level :=
  if String.eqb level "DEBUG" then LevelDebug
  else if String.eqb level "INFO" then LevelInfo
  else if String.eqb level "WARN" then LevelWarn
  else if String.eqb level "ERROR" then LevelError
  else LevelInfo.

Definition NewLogger (mode level : string) : Logger := {| lg_json := String.eqb mode "JSON"; lg_level := log_level level |}.

(** The arguments by pairs; one that is left over is dropped. *)
Fixpoint toAttrs {A} (args : list A) : list (A * A) :=
  match args with
  | k :: v :: args => (k, v) :: toAttrs args
  | _ => []
  end.

(** [TruncateJSON], of the text of the value; a negative length panics when
    it is applied. *)
Definition TruncateJSON (b : string) (maxLen : Z) : call string :=
  if maxLen <? Z.of_nat (String.length b)
  then if maxLen <? 0 then Panic "slice bounds out of range" else Ret (stake (Z.to_nat maxLen) b +:+ "...(truncated)")
  else Ret b.

(** ** The server *)

(** The settings the server reads beside those of [AIOSettings]. *)
Record ApiSettings := { as_common : AIOSettings; as_PProfBind : string; as_OTEL : OTELConfig; as_MaxBodyBytes : Z }.

Record FlowgentApiServer := {
  sv_api : FlowAPI; sv_rest : HttpServer; sv_maxHeader : Z; sv_pprof : option string; sv_otel : option Provider;
  sv_backends : list string;
}.

(** [time.ParseDuration] with its error dropped, and the default for zero. *)
Definition server_timeout (s : string) (default : Z) : Z :=
  let d := match ParseDuration s with Some d => d | None => 0 end in
  if d =? 0 then default else d.

(** The broker is asked only when one is set; the client's id is the process's
    own. *)
Definition newMQTTPublisher (connected : bool) (broker : string) : bool := negb (String.eqb broker "") && connected.

(** [api.uniqueRawMQTTClientID] *)
Definition apiserver_client_id (host : res string) (base : string) : string :=
  let base := if String.eqb base "" then "flowgent-apiserver" else base in
  match host with
  | Ok h => if String.eqb h "" then base else base +:+ "-" +:+ h
  | Err _ => base
  end.

(** A publication, after at most five seconds; the broker's answer, if any. *)
Definition raw_Publish (answer : option (option string)) : option string :=
  match answer with
  | None => Some "mqtt publish timeout"
  | Some e => e
  end.

Definition start_otel (a : otel_answers) (cfg : OTELConfig) : option Provider :=
  if ot_Enabled cfg && negb (String.eqb (ot_Endpoint cfg) "")
  then match otel_NewProvider a "flowgent-apiserver" "1.0" (Some cfg) [] with Ok p => Some p | Err _ => None end
  else None.

Definition pprof_bind (cfg : ApiSettings) : option string :=
  let c := as_common cfg in
  if ai_MgmtEnabled c && ai_PProfEnabled c
  then Some (if String.eqb (as_PProfBind cfg) "" then host_port (ai_MgmtHost c) (ai_MgmtPort c) else as_PProfBind cfg)
  else None.

(** [auth] is the outcome of [auth.NewService]; [defs], unless it cannot be
    read, and [runs] are the tables. *)
Definition NewFlowgentApiServer (connected : bool) (a : otel_answers) (auth : res unit) (cfg : ApiSettings)
    (db_ok : bool) (defs : list FlowVersionInfo) (runs : list RunRow) : res FlowgentApiServer :=
  let c := as_common cfg in
  let (agentFlows, subFlows) := if db_ok then LoadFromDB defs else ([], ∅) in
  let otel := start_otel a (as_OTEL cfg) in
  let mqtt := if String.eqb (ai_MessagerType c) "mqtt" && negb (String.eqb (ai_Broker c) "")
              then newMQTTPublisher connected (ai_Broker c) else false in
  let h := NewFlowDefHandler agentFlows subFlows (ai_NamespacePrefix c) (ai_DefaultNamespace c) mqtt defs runs in
  match auth with
  | Err e => Err ("auth service: " +:+ e)
  | Ok _ =>
      Ok {| sv_api := h;
            sv_rest := {| hs_Addr := host_port (ai_ServerHost c) (ai_ServerPort c);
                          hs_ReadTimeout := server_timeout (ai_ReadTimeout c) 30000000000;
                          hs_WriteTimeout := server_timeout (ai_WriteTimeout c) 60000000000 |};
            sv_maxHeader := as_MaxBodyBytes cfg; sv_pprof := pprof_bind cfg; sv_otel := otel;
            sv_backends := ["oidc"; "ldap"] |}
  end.

(** *** The end *)

Inductive stop_step := StopRest | ClosePprof | CloseStore | StopOtel.

(** A limit that is not positive does not count. *)
Definition api_shutdown_limit (c : AIOSettings) : Z :=
  match ParseDuration (ai_ShutdownTimeout c) with Some d => if 0 <? d then d else 15000000000 | None => 15000000000 end.

(** [Shutdown]: what is stopped, in order; errors are only logged. *)
Definition api_Shutdown (s : FlowgentApiServer) : list stop_step :=
  [StopRest] ++ match sv_pprof s with Some _ => [ClosePprof] | None => [] end ++ [CloseStore] ++ match sv_otel s with Some _ => [StopOtel] | None => [] end.

(** What the server waits for; failing to serve ends the process at once. *)
Inductive server_event := CtxDone | Signalled | RestFailed (err : string) | PprofFailed.

Fixpoint api_Start (s : FlowgentApiServer) (evs : list server_event) : option (list stop_step * option string) :=
  match evs with
  | [] => None
  | CtxDone :: _ | Signalled :: _ => Some (api_Shutdown s, None)
  | RestFailed err :: _ => Some ([], Some ("REST server: " +:+ err))
  | PprofFailed :: evs => api_Start s evs
  end.

(** ** What it is *)

(** The two parsers of durations are one. *)
Lemma server_timeout_eq s d : server_timeout s d = aio_parseDuration s d.
Proof. unfold server_timeout, aio_parseDuration. by destruct (ParseDuration s). Qed.

(** The API server and the process of all components serve the same API from
    the same tables and settings, at the same address. *)
Lemma one_api `{RangeOrder} cron_ok connected a cfg defs runs s :
  NewFlowgentApiServer connected a (Ok tt) cfg true defs runs = Ok s ->
  sv_api s = ao_api (startAllInOne cron_ok connected (as_common cfg) defs runs) /\ sv_rest s = rest_server (as_common cfg).
Proof.
  unfold NewFlowgentApiServer, startAllInOne, loadFlows, LoadAgentFlows. destruct (LoadFromDB defs) as [fs subs].
  intros [= <-]. cbn [sv_api sv_rest ao_api]. split.
  - unfold has_publisher, newMQTTPublisher. rewrite (right_id_L ∅ (∪) subs). cbn [app]. f_equal.
    destruct (String.eqb (ai_MessagerType _) "mqtt"), (String.eqb (ai_Broker _) ""); done.
  - unfold rest_server, http_server. by rewrite !server_timeout_eq.
Qed.

(** Once the API's server stops, so does everything that was started, the
    store after the servers and the traces last, unless the REST server could
    not serve: then nothing is closed. *)
Lemma api_ends s evs steps e : api_Start s evs = Some (steps, e) ->
  e = None /\ steps = api_Shutdown s \/ steps = [] /\ is_Some e.
Proof.
  induction evs as [|ev evs IH]; [done|]. destruct ev; cbn.
  - intros [= <- <-]. by left.
  - intros [= <- <-]. by left.
  - intros [= <- <-]. right. split; [done|]. by eexists.
  - exact IH.
Qed.

Lemma api_shutdown_positive c : 0 < api_shutdown_limit c.
Proof. unfold api_shutdown_limit. destruct (ParseDuration _) as [d|]; [|lia]. destruct (Z.ltb_spec 0 d); lia. Qed.

(** A provider there is samples with a positive rate, and has the flow's
    service among its attributes. *)
Lemma otel_positive a name version cfg labels p :
  otel_NewProvider a name version cfg labels = Ok p ->
  f64_ltb (f64_of_Z 0) (tp_sampleRate p) = true /\ ("service.name", name) ∈ tp_attributes p /\ tp_endpoint p <> "".
Proof.
  unfold otel_NewProvider. destruct (oa_exporter a); [|done]. cbn [res_bind]. destruct (oa_resource a); [|done]. cbn [res_bind].
  destruct (oa_flush a); [|done]. cbn [res_bind]. intros [= <-]. cbn [tp_sampleRate tp_attributes tp_endpoint]. split_and!.
  - destruct cfg as [c|]; [|by vm_compute]. destruct (f64_ltb _ (ot_SampleRate c)) eqn:E; [exact E|by vm_compute].
  - by left.
  - destruct cfg as [c|]; [|done]. by destruct (String.eqb_spec (ot_Endpoint c) "").
Qed.

Lemma TruncateJSON_bounded b maxLen s :
  TruncateJSON b maxLen = Ret s -> Z.of_nat (String.length s) <= maxLen + 14 \/ s = b /\ Z.of_nat (String.length b) <= maxLen.
Proof.
  unfold TruncateJSON. destruct (Z.ltb_spec maxLen (Z.of_nat (String.length b))) as [Hl|Hl]; [|intros [= <-]; by right].
  destruct (Z.ltb_spec maxLen 0); [done|]. intros [= <-]. left. rewrite length_append. cbn [String.length].
  enough (String.length (stake (Z.to_nat maxLen) b) <= Z.to_nat maxLen)%nat by lia. clear.
  generalize (Z.to_nat maxLen). induction b as [|c b IH]; intros [|n]; cbn; try lia. specialize (IH n). lia.
Qed.

Lemma toAttrs_length {A} (args : list A) : length (toAttrs args) = Nat.div2 (length args).
Proof.
  remember (length args) as n eqn:En. revert args En. induction n as [n IH] using lt_wf_ind. intros args En.
  destruct args as [|a [|b args]]; subst n; [done|done|]. cbn. f_equal. apply (IH (length args)); [cbn; lia|done].
Qed.
