(* ===== verification/Slots.v ===== *)
(** * The slots of a sandbox manager

    [FlowgentSandboxManager.Start] of [pkg/sandbox/pkg/sandboxmanager.go]:
    workers, one per slot, that take triggers from a channel with one place per
    slot; the subscription puts them there, and waits while it is full.  What
    a worker does with a trigger is [handleTrigger] of [Sandbox].  The
    interleaving of deliveries, workers and the end of the context is a step
    relation; [select] takes any case that is ready. *)

From S2P Require Export Sandbox.
From AAC_tactics Require Import AAC.
From AAC_tactics Require Instances.
Import Instances.Lists.

#[export] Instance perm_lift A : AAC_lift (@Permutation A) (@Permutation A).
Proof. constructor; typeclasses eauto. Qed.

(** Lists of the same elements, by the parts they are made of. *)
Ltac by_parts :=
  rewrite ?map_app; cbn [map snd];
  repeat match goal with
         | |- context [?j :: ?l] => lazymatch l with [] => fail | _ => change (j :: l) with ([j] ++ l) end
         end;
  aac_reflexivity.

Local Open Scope string_scope.
Local Open Scope list_scope.

Section Slots.
(** A trigger: its topic and payload. *)
Context {Job : Type}.
Variable slots : Z.

(** [slotCount]: one at least. *)
Definition slotCount : nat := if (slots <=? 0)%Z then 1 else Z.to_nat slots.

(** [sl_waiting]: the calls of the handler that wait for a place; [sl_jobs] the
    channel; [sl_busy] the workers that handle a trigger; [sl_gone] the workers
    that ended; [sl_ctx]: the context of [Start] is done; [sl_stopped]: [Start]
    has returned, so that the workers' own context is done. *)
Record SlotState := {
  sl_waiting : list Job; sl_jobs : list Job; sl_busy : list (nat * Job); sl_gone : list nat;
  sl_done : list Job; sl_dropped : list Job; sl_ctx : bool; sl_stopped : bool;
}.

Definition started : SlotState :=
  {| sl_waiting := []; sl_jobs := []; sl_busy := []; sl_gone := []; sl_done := []; sl_dropped := [];
     sl_ctx := false; sl_stopped := false |}.

Inductive slot_step : SlotState -> SlotState -> Prop :=
| StepDeliver w q b g d x c t j :
    slot_step {| sl_waiting := w; sl_jobs := q; sl_busy := b; sl_gone := g; sl_done := d; sl_dropped := x; sl_ctx := c; sl_stopped := t |}
              {| sl_waiting := w ++ [j]; sl_jobs := q; sl_busy := b; sl_gone := g; sl_done := d; sl_dropped := x; sl_ctx := c; sl_stopped := t |}
| StepEnqueue w w' q b g d x c t j :
    length q < slotCount ->
    slot_step {| sl_waiting := w ++ j :: w'; sl_jobs := q; sl_busy := b; sl_gone := g; sl_done := d; sl_dropped := x; sl_ctx := c; sl_stopped := t |}
              {| sl_waiting := w ++ w'; sl_jobs := q ++ [j]; sl_busy := b; sl_gone := g; sl_done := d; sl_dropped := x; sl_ctx := c; sl_stopped := t |}
| StepGiveUp w w' q b g d x t j :
    slot_step {| sl_waiting := w ++ j :: w'; sl_jobs := q; sl_busy := b; sl_gone := g; sl_done := d; sl_dropped := x; sl_ctx := true; sl_stopped := t |}
              {| sl_waiting := w ++ w'; sl_jobs := q; sl_busy := b; sl_gone := g; sl_done := d; sl_dropped := x ++ [j]; sl_ctx := true; sl_stopped := t |}
| StepTake w q b g d x c t i j :
    i < slotCount -> i ∉ map fst b -> i ∉ g ->
    slot_step {| sl_waiting := w; sl_jobs := j :: q; sl_busy := b; sl_gone := g; sl_done := d; sl_dropped := x; sl_ctx := c; sl_stopped := t |}
              {| sl_waiting := w; sl_jobs := q; sl_busy := b ++ [(i, j)]; sl_gone := g; sl_done := d; sl_dropped := x; sl_ctx := c; sl_stopped := t |}
| StepHandled w q b b' g d x c t i j :
    slot_step {| sl_waiting := w; sl_jobs := q; sl_busy := b ++ (i, j) :: b'; sl_gone := g; sl_done := d; sl_dropped := x; sl_ctx := c; sl_stopped := t |}
              {| sl_waiting := w; sl_jobs := q; sl_busy := b ++ b'; sl_gone := g; sl_done := d ++ [j]; sl_dropped := x; sl_ctx := c; sl_stopped := t |}
| StepExit w q b g d x c t i :
    c || t = true -> i < slotCount -> i ∉ map fst b -> i ∉ g ->
    slot_step {| sl_waiting := w; sl_jobs := q; sl_busy := b; sl_gone := g; sl_done := d; sl_dropped := x; sl_ctx := c; sl_stopped := t |}
              {| sl_waiting := w; sl_jobs := q; sl_busy := b; sl_gone := i :: g; sl_done := d; sl_dropped := x; sl_ctx := c; sl_stopped := t |}
| StepCancel w q b g d x c t :
    slot_step {| sl_waiting := w; sl_jobs := q; sl_busy := b; sl_gone := g; sl_done := d; sl_dropped := x; sl_ctx := c; sl_stopped := t |}
              {| sl_waiting := w; sl_jobs := q; sl_busy := b; sl_gone := g; sl_done := d; sl_dropped := x; sl_ctx := true; sl_stopped := t |}
| StepStop w q b g d x c t :
    slot_step {| sl_waiting := w; sl_jobs := q; sl_busy := b; sl_gone := g; sl_done := d; sl_dropped := x; sl_ctx := c; sl_stopped := t |}
              {| sl_waiting := w; sl_jobs := q; sl_busy := b; sl_gone := g; sl_done := d; sl_dropped := x; sl_ctx := c; sl_stopped := true |}.

(** The steps that are not the world's: no delivery, no end. *)
Definition own_step (s s' : SlotState) : Prop :=
  slot_step s s' /\ sl_ctx s' = sl_ctx s /\ sl_stopped s' = sl_stopped s /\ sl_gone s' = sl_gone s /\
  length (sl_waiting s') <= length (sl_waiting s).

(** Every trigger that was delivered, wherever it is. *)
Definition delivered (s : SlotState) : list Job :=
  sl_waiting s ++ sl_jobs s ++ map snd (sl_busy s) ++ sl_done s ++ sl_dropped s.

(** ** What is kept *)

Record slots_ok (s : SlotState) : Prop := {
  ok_channel : length (sl_jobs s) <= slotCount;
  ok_workers : NoDup (map fst (sl_busy s));
  ok_ids : Forall (fun i => i < slotCount) (map fst (sl_busy s));
  ok_dropped : sl_ctx s = false -> sl_dropped s = [];
  ok_gone : sl_ctx s = false -> sl_stopped s = false -> sl_gone s = [];
}.

Lemma slotCount_pos : 0 < slotCount.
Proof. unfold slotCount. destruct (Z.leb_spec slots 0); lia. Qed.

Lemma slots_ok_started : slots_ok started.
Proof. constructor; cbn; [lia|constructor|constructor|done|done]. Qed.

Lemma slots_ok_step s s' : slots_ok s -> slot_step s s' -> slots_ok s'.
Proof.
  intros [Hc Hn Hi Hd Hg] Hs. destruct Hs; constructor; cbn [sl_waiting sl_jobs sl_busy sl_gone sl_dropped sl_ctx sl_stopped length] in *;
    try done; try lia; rewrite ?length_app; cbn [length]; try lia.
  - rewrite map_app. apply NoDup_app. split_and!; [done| |apply NoDup_singleton].
    intros k Hk ->%list_elem_of_singleton. done.
  - rewrite map_app. apply Forall_app. split; [done|]. by repeat constructor.
  - rewrite map_app in *. cbn in Hn. eapply sublist_NoDup; [exact Hn|]. apply sublist_app; [done|]. by apply sublist_cons.
  - rewrite map_app in *. cbn in Hi. apply Forall_app in Hi as [Hi1 Hi2]. apply Forall_app. split; [done|]. by inversion Hi2.
  - intros -> ->. cbn in *. congruence.
Qed.

(** Nothing is lost or doubled: steps only move triggers. *)
Lemma delivered_step s s' : slot_step s s' -> delivered s' ≡ₚ delivered s \/ exists j, delivered s' ≡ₚ delivered s ++ [j].
Proof.
  intros Hs. destruct Hs; unfold delivered; cbn [sl_waiting sl_jobs sl_busy sl_done sl_dropped]; try (left; reflexivity).
  1: right; exists j. 2-5: left. all: by_parts.
Qed.

(** ** Every trigger is handled *)

Definition running (s : SlotState) : Prop := sl_ctx s = false /\ sl_stopped s = false.

(** What is left to do. *)
Definition work (s : SlotState) : nat := 3 * length (sl_waiting s) + 2 * length (sl_jobs s) + length (sl_busy s).

Lemma busy_bound s : slots_ok s -> length (sl_busy s) <= slotCount.
Proof.
  intros Hok. rewrite <- (length_map fst). etrans; [|apply Nat.eq_le_incl, (length_seq slotCount 0)].
  apply submseteq_length, NoDup_submseteq; [apply Hok|]. intros i Hi. apply elem_of_seq.
  pose proof (ok_ids _ Hok) as Hids. rewrite Forall_forall in Hids. specialize (Hids i Hi). lia.
Qed.

(** A worker is free as long as not all are busy. *)
Lemma free_worker (l : list nat) : NoDup l -> length l < slotCount -> exists i, i < slotCount /\ i ∉ l.
Proof.
  intros Hnd Hlen. destruct (decide (Forall (fun i => i ∈ l) (seq 0 slotCount))) as [Ha|Hn].
  - exfalso. rewrite Forall_forall in Ha.
    pose proof (submseteq_length _ _ (NoDup_submseteq _ l (NoDup_seq 0 slotCount) Ha)) as Hl. rewrite length_seq in Hl. lia.
  - apply not_Forall_Exists in Hn; [|intros ?; apply _]. apply Exists_exists in Hn as (i & Hi%elem_of_seq & Hni).
    exists i. split; [lia|done].
Qed.

Lemma own_step_work s s' : running s -> own_step s s' ->
  work s' < work s /\ running s' /\ delivered s' ≡ₚ delivered s.
Proof.
  intros [Hc Ht] (Hs & Hc' & Ht' & Hg & Hw). split_and!.
  - destruct Hs; unfold work; cbn [sl_waiting sl_jobs sl_busy sl_ctx sl_stopped sl_gone] in *;
      rewrite ?length_app in *; cbn [length] in *; try lia; try congruence.
    apply (f_equal length) in Hg. cbn in Hg. lia.
  - split; congruence.
  - destruct (delivered_step s s' Hs) as [Hd|[j _]]; [done|].
    destruct Hs; cbn [sl_waiting sl_ctx sl_stopped] in *; try congruence; try reflexivity.
    + rewrite length_app in Hw. cbn in Hw. lia.
    + unfold delivered; cbn [sl_waiting sl_jobs sl_busy sl_done sl_dropped]. by_parts.
    + unfold delivered; cbn [sl_waiting sl_jobs sl_busy sl_done sl_dropped]. by_parts.
    + unfold delivered; cbn [sl_waiting sl_jobs sl_busy sl_done sl_dropped]. by_parts.
Qed.

(** While it runs, a manager with a trigger that is not handled can go on. *)
Lemma progress s : slots_ok s -> running s -> sl_done s ≡ₚ delivered s \/ exists s', own_step s s'.
Proof.
  intros Hok [Hc Ht]. pose proof (ok_dropped _ Hok Hc) as Hx. pose proof (ok_gone _ Hok Hc Ht) as Hg.
  destruct s as [w q b g d x c t]. cbn in *. subst c t x g.
  destruct b as [|[i j] b].
  - destruct q as [|j q].
    + destruct w as [|j w]; [left; unfold delivered; cbn; by rewrite app_nil_r|]. right.
      eexists. split; [apply (StepEnqueue [] w)|cbn; split_and!; try done; lia]. cbn. apply slotCount_pos.
    + right. eexists. split; [apply (StepTake w q [] [] d [] false false 0 j); [apply slotCount_pos|apply not_elem_of_nil|apply not_elem_of_nil]|done].
  - right. eexists. split; [apply (StepHandled w q [] b)|done].
Qed.

Lemma reachable_ok s : rtc slot_step started s -> slots_ok s.
Proof.
  revert s. apply (rtc_ind_r (R := slot_step)); [apply slots_ok_started|].
  intros x y _ Hxy Hx. by eapply slots_ok_step.
Qed.

Lemma own_steps n s s' : slots_ok s -> running s -> nsteps own_step n s s' ->
  n + work s' <= work s /\ slots_ok s' /\ running s' /\ delivered s' ≡ₚ delivered s.
Proof.
  intros Hok Hr Hn. induction Hn as [s|n s s1 s' Hs Hn IH]; [split_and!; [lia|done|done|done]|].
  destruct (own_step_work s s1 Hr Hs) as (Hw & Hr1 & Hd1).
  destruct IH as (Hw' & Hok' & Hr' & Hd'); [by eapply slots_ok_step; [|apply Hs]|done|].
  split_and!; [lia|done|done|by etrans].
Qed.

(** C23: a sandbox manager serves its triggers with its slots. However
    deliveries, workers and the end interleave, at most one trigger per slot is
    handled at a time and at most as many wait in the channel, and nothing is
    dropped before the context is done. While the manager runs, what it does by
    itself ends, after at most three steps for each trigger, and it stops only
    where every trigger that was delivered has been handled exactly once. *)
Theorem slots_serve_all s :
  rtc slot_step started s ->
  length (sl_busy s) <= slotCount /\ length (sl_jobs s) <= slotCount /\
  (sl_ctx s = false -> sl_dropped s = []) /\
  (running s -> forall n s', nsteps own_step n s s' ->
     n <= 3 * length (delivered s) /\ delivered s' ≡ₚ delivered s /\
     ((~ exists s'', own_step s' s'') -> sl_done s' ≡ₚ delivered s)).
Proof.
  intros Hreach. pose proof (reachable_ok s Hreach) as Hok. split_and!; [by apply busy_bound|apply Hok|apply Hok|].
  intros Hr n s' Hn. destruct (own_steps n s s' Hok Hr Hn) as (Hw & Hok' & Hr' & Hd). split_and!; [|exact Hd|].
  - unfold work, delivered in *. rewrite !length_app, length_map. lia.
  - intros Hstuck. destruct (progress s' Hok' Hr') as [Hp|Hp]; [by rewrite Hp|by destruct Hstuck].
Qed.

(** Once [Start] has returned and its workers ended, with a context that goes
    on, what is delivered is never handled: it fills the channel, and then the
    calls of the handler wait for ever. *)
Definition abandoned (s : SlotState) : Prop :=
  sl_ctx s = false /\ sl_busy s = [] /\ forall i, i < slotCount -> i ∈ sl_gone s.

Lemma abandoned_handles_nothing s s' : abandoned s -> slot_step s s' ->
  sl_ctx s' = false -> abandoned s' /\ sl_done s' = sl_done s /\ sl_dropped s' = sl_dropped s.
Proof.
  intros (Hc & Hb & Hg) Hs Hc'. destruct Hs; cbn [sl_ctx sl_busy sl_gone sl_done sl_dropped] in *; subst; try done.
  - exfalso. eauto.
  - by destruct b.
  - exfalso. eauto.
Qed.
End Slots.

(** ** Two slots, three triggers *)

Definition two_done : @SlotState string :=
  {| sl_waiting := []; sl_jobs := ["c"]; sl_busy := [(0, "a"); (1, "b")]; sl_gone := []; sl_done := []; sl_dropped := [];
     sl_ctx := false; sl_stopped := false |}.

Lemma two_reachable : rtc (slot_step 2) started two_done.
Proof.
  unfold started, two_done.
  eapply rtc_l; [apply (StepDeliver 2 [] [] [] [] [] [] false false "a")|].
  eapply rtc_l; [apply (StepEnqueue 2 [] [] [] [] [] [] [] false false "a"); cbn; lia|]. cbn [app].
  eapply rtc_l; [apply (StepDeliver 2 [] ["a"] [] [] [] [] false false "b")|].
  eapply rtc_l; [apply (StepEnqueue 2 [] [] ["a"] [] [] [] [] false false "b"); cbn; lia|]. cbn [app].
  eapply rtc_l; [apply (StepTake 2 [] ["b"] [] [] [] [] false false 0 "a"); [cbn; lia|apply not_elem_of_nil|apply not_elem_of_nil]|]. cbn [app].
  eapply rtc_l; [apply (StepTake 2 [] [] [(0, "a")] [] [] [] false false 1 "b"); [cbn; lia|cbn; intros E%list_elem_of_singleton; done|apply not_elem_of_nil]|].
  cbn [app]. eapply rtc_l; [apply (StepDeliver 2 [] [] [(0, "a"); (1, "b")] [] [] [] false false "c")|].
  eapply rtc_l; [apply (StepEnqueue 2 [] [] [] [(0, "a"); (1, "b")] [] [] [] false false "c"); cbn; lia|]. cbn [app]. apply rtc_refl.
Qed.

Lemma slots_serve_all_witness : length (sl_busy two_done) <= 2 /\
  forall n s', nsteps (own_step 2) n two_done s' -> n <= 9.
Proof.
  destruct (slots_serve_all 2 two_done two_reachable) as (Hb & _ & _ & Hr). split; [exact Hb|].
  intros n s' Hn. exact (proj1 (Hr (conj eq_refl eq_refl) n s' Hn)).
Defined.
