(* ===== verification/NodeYaml.v ===== *)
(** * Flows written in YAML

    [pkg/model/pkg/entities/dag.go] and [flow.go]: nodes in the flat form and
    with their fields under [spec], and the forms a flow may be wrapped in.
    The YAML library decodes a mapping into a struct; what it gives, and the
    keys of the mapping, are arguments. *)

From S2P Require Export JobMaster.

Local Open Scope string_scope.
Local Open Scope list_scope.
Local Open Scope Z_scope.

(** ** Nodes *)

Record nodeSpecNewFormat := {
  ns_Tool : string; ns_Agent : string; ns_Skill : string; ns_Source : string; ns_Expression : string;
  ns_Args : option gomap; ns_Strategy : option gomap; ns_Retry : option NodeRetryPolicy; ns_Concurrency : Z;
  ns_Approval : option HumanApprovalConfig; ns_SupervisorConfig : option SupervisorConfig; ns_AgentFlowID : string;
  ns_Runtime : string; ns_Script : string; ns_Timeout : string; ns_Resources : option SandboxResources;
  ns_NetworkPolicy : option NetworkPolicy; ns_Workspace : string; ns_OutputSchema : option gomap;
}.

Record nodeNewFormat := {
  nf_ID : string; nf_Kind : NodeType; nf_Instruction : string; nf_Solution : string; nf_Spec : nodeSpecNewFormat;
}.

(** The fields that are set; the child node stays that of [n]. *)
Definition unmarshalNewFormat (nf : res nodeNewFormat) (n : Node) : res Node :=
  let? nf := nf in
  let s := nf_Spec nf in
  Ok {| n_ID := nf_ID nf; n_Kind := nf_Kind nf; n_Type := nf_Kind nf; n_Solution := nf_Solution nf;
        n_Agent := ns_Agent s; n_Skill := ns_Skill s; n_Tool := ns_Tool s; n_Source := ns_Source s;
        n_Expression := ns_Expression s; n_Instruction := nf_Instruction nf; n_Strategy := ns_Strategy s;
        n_Input := ns_Args s; n_Retry := ns_Retry s; n_Node := n_Node n; n_Concurrency := ns_Concurrency s;
        n_Approval := ns_Approval s; n_SupervisorConfig := ns_SupervisorConfig s; n_AgentFlowID := ns_AgentFlowID s;
        n_OutputSchema := ns_OutputSchema s; n_Runtime := ns_Runtime s; n_Script := ns_Script s;
        n_Timeout := ns_Timeout s; n_Resources := ns_Resources s; n_NetworkPolicy := ns_NetworkPolicy s;
        n_Workspace := ns_Workspace s; n_Args := ns_Args s |}.

Definition with_kind (k : NodeType) (n : Node) : Node :=
  {| n_ID := n_ID n; n_Kind := k; n_Type := n_Type n; n_Solution := n_Solution n; n_Agent := n_Agent n;
     n_Skill := n_Skill n; n_Tool := n_Tool n; n_Source := n_Source n; n_Expression := n_Expression n;
     n_Instruction := n_Instruction n; n_Strategy := n_Strategy n; n_Input := n_Input n; n_Retry := n_Retry n;
     n_Node := n_Node n; n_Concurrency := n_Concurrency n; n_Approval := n_Approval n;
     n_SupervisorConfig := n_SupervisorConfig n; n_AgentFlowID := n_AgentFlowID n; n_OutputSchema := n_OutputSchema n;
     n_Runtime := n_Runtime n; n_Script := n_Script n; n_Timeout := n_Timeout n; n_Resources := n_Resources n;
     n_NetworkPolicy := n_NetworkPolicy n; n_Workspace := n_Workspace n; n_Args := n_Args n |}.

Definition unmarshalOldFormat (p : res Node) : res Node :=
  let? n := p in
  Ok (if decide (n_Kind n = OtherNode "") then with_kind (n_Type n) n else n).

(** [keys]: the keys of the mapping, [None] for what is none. *)
Definition Node_UnmarshalYAML (keys : option (list string)) (as_new : res nodeNewFormat) (as_old : res Node) (n : Node) : res Node :=
  match keys with
  | Some keys => if existsb (String.eqb "spec") keys then unmarshalNewFormat as_new n else unmarshalOldFormat as_old
  | None => unmarshalOldFormat as_old
  end.

(** ** Flows *)

Definition yaml_flow_with (id kind : string) (f : FlowInfo) : FlowInfo :=
  {| f_ID := id; f_Namespace := f_Namespace f; f_Description := f_Description f; f_Kind := kind; f_Vars := f_Vars f;
     f_Nodes := f_Nodes f; f_Edges := f_Edges f; f_Triggers := f_Triggers f; f_Priority := f_Priority f;
     f_K8sNamespace := f_K8sNamespace f |}.

(** The decodings of the wrapped forms: name, kind and flow under [spec]; the
    flow under [agentflow] and [flow]; and of the whole. *)
Record flow_document := {
  fd_raw : res (list string);
  fd_spec : res (string * string * FlowInfo);
  fd_agentflow : res FlowInfo; fd_flow : res FlowInfo; fd_flat : res FlowInfo;
}.

Definition FlowDefinition_UnmarshalYAML (d : flow_document) : res FlowInfo :=
  let? raw := fd_raw d in
  if existsb (String.eqb "spec") raw then
    let? nested := fd_spec d in
    let '(name, kind, spec) := nested in
    Ok (yaml_flow_with (if String.eqb (f_ID spec) "" then name else f_ID spec) kind spec)
  else if existsb (String.eqb "agentflow") raw then fd_agentflow d
  else if existsb (String.eqb "flow") raw then fd_flow d
  else fd_flat d.

(** ** One node in two forms *)

Definition blank_node : Node :=
  {| n_ID := ""; n_Kind := OtherNode ""; n_Type := OtherNode ""; n_Solution := ""; n_Agent := ""; n_Skill := ""; n_Tool := "";
     n_Source := ""; n_Expression := ""; n_Instruction := ""; n_Strategy := None; n_Input := None; n_Retry := None;
     n_Node := None; n_Concurrency := 0; n_Approval := None; n_SupervisorConfig := None; n_AgentFlowID := "";
     n_OutputSchema := None; n_Runtime := ""; n_Script := ""; n_Timeout := ""; n_Resources := None; n_NetworkPolicy := None;
     n_Workspace := ""; n_Args := None |}.

(** A flat node written with its fields under [spec]. *)
Definition nested (n : Node) : nodeNewFormat :=
  {| nf_ID := n_ID n; nf_Kind := n_Kind n; nf_Instruction := n_Instruction n; nf_Solution := n_Solution n;
     nf_Spec := {| ns_Tool := n_Tool n; ns_Agent := n_Agent n; ns_Skill := n_Skill n; ns_Source := n_Source n;
                   ns_Expression := n_Expression n; ns_Args := n_Args n; ns_Strategy := n_Strategy n; ns_Retry := n_Retry n;
                   ns_Concurrency := n_Concurrency n; ns_Approval := n_Approval n; ns_SupervisorConfig := n_SupervisorConfig n;
                   ns_AgentFlowID := n_AgentFlowID n; ns_Runtime := n_Runtime n; ns_Script := n_Script n;
                   ns_Timeout := n_Timeout n; ns_Resources := n_Resources n; ns_NetworkPolicy := n_NetworkPolicy n;
                   ns_Workspace := n_Workspace n; ns_OutputSchema := n_OutputSchema n |} |}.

(** Both forms of a node give the same plan, if it has a kind, its arguments
    are its input, and it has no child. *)
Lemma forms_agree n keys keys' spec runID now :
  n_Kind n <> OtherNode "" -> n_Type n = n_Kind n -> n_Input n = n_Args n -> n_Node n = None ->
  "spec" ∈ keys -> "spec" ∉ keys' ->
  exists m, Node_UnmarshalYAML (Some keys) (Ok (nested n)) (Ok n) blank_node = Ok m /\
            Node_UnmarshalYAML (Some keys') (Ok (nested n)) (Ok n) blank_node = Ok n /\
            new_plan spec runID now m = new_plan spec runID now n.
Proof.
  intros Hk Ht Hi Hn Hs Hs'. exists n. unfold Node_UnmarshalYAML.
  assert (E : existsb (String.eqb "spec") keys = true) by (apply existsb_exists; exists "spec"; by rewrite <- list_elem_of_In).
  assert (E' : existsb (String.eqb "spec") keys' = false).
  { apply not_true_iff_false. intros (x & Hx & <-%String.eqb_eq)%existsb_exists. by apply Hs', list_elem_of_In. }
  rewrite E, E'. unfold unmarshalNewFormat, unmarshalOldFormat. cbn [res_bind]. rewrite decide_False by done.
  split_and!; [|done|done]. f_equal. destruct n. cbn in *. by subst.
Qed.

(** In YAML a node has a kind when it has a type. *)
Lemma yaml_kind n n' : unmarshalOldFormat (Ok n) = Ok n' -> n_Kind n' = OtherNode "" -> n_Type n' = OtherNode "".
Proof.
  unfold unmarshalOldFormat. cbn [res_bind]. destruct (decide (n_Kind n = OtherNode "")) as [E|E]; intros [= <-]; [done|].
  intros E'. by rewrite E' in E.
Qed.

(** A node that came as JSON, as those of the API and of wrapped resources do,
    and that has a type but no kind, is planned as one that does nothing,
    while its specification says what it should do. *)
Lemma typed_json_node_is_noop spec runID now n :
  n_Kind n = OtherNode "" ->
  p_TaskType (new_plan spec runID now n) = TaskNoop /\ s_Kind (p_NodeSpec (new_plan spec runID now n)) = n_Type n.
Proof. intros E. destruct n. cbn in *. by rewrite E. Qed.

(** With its fields under [spec] a node loses its child. *)
Lemma nested_loses_child n : is_Some (n_Node n) -> n_Kind n <> OtherNode "" ->
  exists m, unmarshalNewFormat (Ok (nested n)) blank_node = Ok m /\ n_Node m = None.
Proof. intros _ _. by eexists. Qed.

(** A wrapped flow without a kind loses the one of its [spec]. *)
Lemma wrapped_kind_wins d name f :
  fd_raw d = Ok ["name"; "spec"] -> fd_spec d = Ok (name, "", f) ->
  exists f', FlowDefinition_UnmarshalYAML d = Ok f' /\ f_Kind f' = "".
Proof. intros E1 E2. unfold FlowDefinition_UnmarshalYAML. rewrite E1, E2. cbn. by eexists. Qed.
