(* ===== verification/Remote.v ===== *)
(** * Connections to the directory and to the facilitator

    [pkg/api/pkg/auth/ldap/ldap_client.go] (dialling, and the adapter between
    the LDAP library and [Ldap]) and the requests of
    [pkg/core/pkg/client/facilitator/facilitator.go] beside the settlement,
    which is in [X402].  The network is an environment. *)

From S2P Require Export Ldap X402.

Local Open Scope string_scope.
Local Open Scope list_scope.
Local Open Scope Z_scope.

(** ** LDAP *)

(** How a connection was made; [dl_tls] is whether certificates go
    unchecked, over TLS 1.2 at least. *)
Record Dialed := { dl_addr : string; dl_tls : option bool; dl_timeout : Z }.

(** The library's [Dial] and [DialTLS]. *)
Class LdapNet := { net_dial : option bool -> string -> option string }.

Definition ldap_host (scheme host : string) : string :=
  if Contains host ":" then host
  else host +:+ (if String.eqb scheme "ldaps" then ":636" else ":389").

Section Dial.
Context `{LdapNet}.

Definition ldap_dial (addr : string) (timeout : Z) : res Dialed :=
  match net_dial None addr with
  | Some e => Err ("ldap: dial " +:+ addr +:+ ": " +:+ e)
  | None => Ok {| dl_addr := addr; dl_tls := None; dl_timeout := timeout |}
  end.

Definition ldap_dialTLS (addr : string) (insecure : bool) (timeout : Z) : res Dialed :=
  match net_dial (Some insecure) addr with
  | Some e => Err ("ldap: dial TLS " +:+ addr +:+ ": " +:+ e)
  | None => Ok {| dl_addr := addr; dl_tls := Some insecure; dl_timeout := timeout |}
  end.

(** [parsed]: scheme and host of the URL. *)
Definition DialURL (rawURL : string) (parsed : res (string * string)) (timeout : Z) (insecureSkipVerify : bool) : res Dialed :=
  match parsed with
  | Err e => Err ("ldap: invalid url " +:+ Quote rawURL +:+ ": " +:+ e)
  | Ok (scheme, host) =>
      let host := ldap_host scheme host in
      if String.eqb scheme "ldaps" then ldap_dialTLS host insecureSkipVerify timeout else ldap_dial host timeout
  end.

(** Only [ldaps] is encrypted: any other scheme, none included, sends the
    passwords in clear; with it certificates are checked unless the settings
    say otherwise. *)
Lemma dialed_security rawURL scheme host timeout insecure c :
  DialURL rawURL (Ok (scheme, host)) timeout insecure = Ok c ->
  (dl_tls c = if String.eqb scheme "ldaps" then Some insecure else None) /\ dl_timeout c = timeout /\ Contains (dl_addr c) ":" = true.
Proof.
  assert (Hhost : Contains (ldap_host scheme host) ":" = true).
  { unfold ldap_host. destruct (Contains host ":") eqn:E; [exact E|].
    destruct (String.eqb scheme "ldaps"); [exact (Contains_append host ":" "636")|exact (Contains_append host ":" "389")]. }
  unfold DialURL, ldap_dialTLS, ldap_dial. destruct (String.eqb scheme "ldaps").
  - destruct (net_dial _ _); intros [= <-]. done.
  - destruct (net_dial _ _); intros [= <-]. done.
Qed.
End Dial.

(** The entries of the library's answer; of two attributes of one name the
    last counts. *)
Record LibEntry := { le_DN : string; le_Attributes : list (string * list string) }.

Definition adapt_entry (e : LibEntry) : string * gmap string (list string) :=
  (le_DN e, fold_left (fun m a => <[a.1 := a.2]> m) (le_Attributes e) ∅).

(** [goLdapConn.Search], with the search of the library by its scope. *)
Definition goLdapConn_Search (search : Z -> res (list LibEntry)) (scope : Z) : res (list (string * gmap string (list string))) :=
  let scope := if scope =? 0 then 2 else scope in
  let? entries := search scope in
  Ok (map adapt_entry entries).

(** The base object alone, whose scope is zero, cannot be searched. *)
Lemma base_object_never_searched search scope : exists scope', scope' <> 0 /\
  goLdapConn_Search search scope = (let? entries := search scope' in Ok (map adapt_entry entries)).
Proof. exists (if scope =? 0 then 2 else scope). split; [|done]. destruct (Z.eqb_spec scope 0); lia. Qed.

(** ** The facilitator *)

(** A request of the client: method, address and body; the answer's status
    and body. *)
Class FacilitatorNet := {
  fn_newRequest : string -> option string;
  fn_do : string -> string -> option string -> res (Z * string);
}.

Section Facilitator.
Context `{FacilitatorNet}.
Variable endpoint : string.

Definition facilitator_Health : option string :=
  if String.eqb endpoint "" then Some not_configured
  else match fn_newRequest (endpoint +:+ "/health") with
       | Some e => Some ("facilitator health request: " +:+ e)
       | None =>
           match fn_do "GET" (endpoint +:+ "/health") None with
           | Err e => Some ("facilitator health: " +:+ e)
           | Ok (status, _) =>
               if negb (status =? 200) then Some (payment_error "FACILITATOR_UNHEALTHY" ("health returned status " +:+ Itoa status))
               else None
           end
       end.

(** [decode]: of the body of the answer. *)
Definition facilitator_Supported {A} (decode : string -> res A) : res A :=
  if String.eqb endpoint "" then Err not_configured
  else match fn_newRequest (endpoint +:+ "/supported") with
       | Some e => Err ("facilitator supported request: " +:+ e)
       | None =>
           match fn_do "GET" (endpoint +:+ "/supported") None with
           | Err e => Err ("facilitator supported: " +:+ e)
           | Ok (_, body) =>
               match decode body with Err e => Err ("decode supported response: " +:+ e) | Ok r => Ok r end
           end
       end.

Definition facilitator_Verify {A} (marshalled : res string) (decode : string -> res A) : res A :=
  if String.eqb endpoint "" then Err not_configured
  else match marshalled with
       | Err e => Err ("marshal verify request: " +:+ e)
       | Ok body =>
           match fn_newRequest (endpoint +:+ "/verify") with
           | Some e => Err ("create verify request: " +:+ e)
           | None =>
               match fn_do "POST" (endpoint +:+ "/verify") (Some body) with
               | Err e => Err ("verify request failed: " +:+ e)
               | Ok (_, answer) =>
                   match decode answer with Err e => Err ("decode verify response: " +:+ e) | Ok r => Ok r end
               end
           end
       end.

(** An answer that says that something failed is taken like one that does
    not, as long as it decodes. *)
Lemma verify_ignores_status {A} marshalled (decode : string -> res A) body status answer r :
  endpoint <> "" -> marshalled = Ok body -> fn_newRequest (endpoint +:+ "/verify") = None ->
  fn_do "POST" (endpoint +:+ "/verify") (Some body) = Ok (status, answer) -> decode answer = Ok r ->
  facilitator_Verify marshalled decode = Ok r.
Proof.
  intros He -> Hn Hd Hr. unfold facilitator_Verify. destruct (String.eqb_spec endpoint ""); [done|].
  by rewrite Hn, Hd, Hr.
Qed.
End Facilitator.
