(* ===== verification/ToolServers.v ===== *)
(** * The tool servers of the test generator

    [usecase/autotest-generator/config/mcps]: the MCP servers
    [sonarqube/main.go] and [github/main.go], whose tools the agents of that
    use case call.  The MCP library's accessors of arguments ([McpArgs]), the
    answers of SonarQube ([SonarHost]) and of GitHub ([GithubHost]) are
    parameters; both decode the JSON they receive.  A report that the server
    writes is kept as the JSON value, whose text is [json.MarshalIndent]'s. *)

From S2P Require Export Executors.
From Stdlib Require Import Ascii.

Local Open Scope string_scope.
Local Open Scope list_scope.
Local Open Scope Z_scope.

(** [mcp.ParseString], [ParseFloat64] (0 when missing; compared with 0 and
    truncated by the caller, so given as both) and [ParseArgument]. *)
Class McpArgs := {
  ParseString : gomap -> string -> string;
  ParseFloat64_zero : gomap -> string -> bool;
  ParseFloat64_int : gomap -> string -> Z;
  ParseArgument : gomap -> string -> option any;
}.

(** What the code relies on: a text is given as it is, a missing argument is
    the default. *)
Class McpArgsLaws `{McpArgs} := {
  ParseString_text m k s : mget k m = Some (VStr s) -> ParseString m k = s;
  ParseString_missing m k : mget k m = None -> ParseString m k = "";
  ParseArgument_get m k : ParseArgument m k = mget k m;
}.

(** What a tool answers with: the text of a JSON value, or a text. *)
Inductive ToolText := JsonText (v : any) | PlainText (s : string).
Definition tool_answer : Type := call (res ToolText).

(** Arguments that must not be empty are looked at in order. *)
Fixpoint missing `{McpArgs} (request : gomap) (names : list string) : option string :=
  match names with
  | [] => None
  | k :: names =>
      if String.eqb (ParseString request k) "" then Some (k +:+ " is required") else missing request names
  end.

Lemma missing_None `{McpArgs} request names :
  missing request names = None <-> Forall (fun k => ParseString request k <> "") names.
Proof.
  induction names as [|k names IH]; cbn; [by split|]. rewrite Forall_cons, <- IH.
  destruct (String.eqb_spec (ParseString request k) ""); split; [done|by intros []|by split|by intros []].
Qed.

Lemma missing_Some `{McpArgs} request names err :
  missing request names = Some err <->
  exists pre k post, names = pre ++ k :: post /\ Forall (fun k => ParseString request k <> "") pre /\
    ParseString request k = "" /\ err = k +:+ " is required".
Proof.
  induction names as [|k names IH]; cbn.
  - split; [done|]. by intros ([] & ? & ? & ? & _).
  - destruct (String.eqb_spec (ParseString request k) "") as [E|E].
    + split; [intros [= <-]; by exists [], k, names|].
      intros ([|k' pre] & k'' & post & [= -> ->] & Hpre & Hk & ->); [done|]. by apply Forall_cons in Hpre as [? _].
    + rewrite IH. split.
      * intros (pre & k' & post & -> & Hpre & Hk & ->). exists (k :: pre), k', post. by rewrite Forall_cons.
      * intros ([|k' pre] & k'' & post & [= -> ->] & Hpre & Hk & ->); [done|].
        apply Forall_cons in Hpre as [_ Hpre]. by exists pre, k'', post.
Qed.

(** ** SonarQube: data *)

Record IssueComment := {
  ic_Key : string; ic_Login : string; ic_Markdown : bool; ic_Text : string; ic_CreatedAt : string; ic_Updatable : bool;
}.
Record IssueLocation := {
  il_Message : string; il_Component : string; il_Line : Z; il_Gap : Z; il_QuickFix : bool;
}.
Record IssueFlow := { if_Locations : list IssueLocation }.
Record SonarQubeIssue := {
  si_Key : string; si_Rule : string; si_Severity : string; si_Type : string; si_Component : string;
  si_Project : string; si_Line : Z; si_Message : string; si_Status : string; si_Author : string;
  si_CreatedAt : string; si_Effort : string; si_Debt : string; si_Comments : list IssueComment; si_Hash : string;
  si_Gap : Z; si_QuickFix : bool; si_Flow : list IssueFlow;
}.
Record ScanJob := {
  sj_JobID : string; sj_Type : string; sj_Status : string; sj_ReportID : string; sj_CommitSHA : string; sj_Repo : string;
}.
Record Vulnerability := {
  vu_ID : string; vu_Type : string; vu_Severity : string; vu_File : string; vu_Line : Z; vu_CVE : string;
  vu_CWE : string; vu_Summary : string;
}.

(** *** Their JSON *)

Definition omit {T} (b : T -> bool) (enc : T -> any) (x : T) : option any := if b x then None else Some (enc x).
Definition str_field {T} (k : string) (get : T -> string) (put : string -> T -> T) : json_field T :=
  {| jf_name := k; jf_get := fun x => Some (VStr (get x));
     jf_set := fun v x => let (s, ok) := dec_string v (get x) in (put s x, ok) |}.
Definition int_field {T} (k : string) (get : T -> Z) (put : Z -> T -> T) (omitempty : bool) : json_field T :=
  {| jf_name := k; jf_get := omit (fun x => omitempty && (get x =? 0)) (fun x => VInt (get x));
     jf_set := fun v x => let (s, ok) := dec_int v (get x) in (put s x, ok) |}.
Definition bool_field {T} (k : string) (get : T -> bool) (put : bool -> T -> T) (omitempty : bool) : json_field T :=
  {| jf_name := k; jf_get := omit (fun x => omitempty && negb (get x)) (fun x => VBool (get x));
     jf_set := fun v x => let (s, ok) := dec_bool v (get x) in (put s x, ok) |}.
(** An empty list is left out. *)
Definition list_field {T U} (k : string) (get : T -> list U) (put : list U -> T -> T) (enc : U -> any) (z : U)
    (dec : any -> U -> U * bool) (omitempty : bool) : json_field T :=
  {| jf_name := k;
     jf_get := omit (fun x => omitempty && match get x with [] => true | _ => false end) (fun x => VList (map enc (get x)));
     jf_set := fun v x => let (l, ok) := dec_list z dec v (get x) in (put l x, ok) |}.

Definition IssueComment_fields : list (json_field IssueComment) :=
  let put f x := f (ic_Key x) (ic_Login x) (ic_Markdown x) (ic_Text x) (ic_CreatedAt x) (ic_Updatable x) in
  [ str_field "key" ic_Key (fun s => put (fun _ b c d e f => Build_IssueComment s b c d e f));
    {| jf_name := "login"; jf_get := omit (fun x => String.eqb (ic_Login x) "") (fun x => VStr (ic_Login x));
       jf_set := jf_set (str_field "login" ic_Login (fun s => put (fun a _ c d e f => Build_IssueComment a s c d e f))) |};
    bool_field "markdown" ic_Markdown (fun s => put (fun a b _ d e f => Build_IssueComment a b s d e f)) false;
    str_field "text" ic_Text (fun s => put (fun a b c _ e f => Build_IssueComment a b c s e f));
    str_field "createdAt" ic_CreatedAt (fun s => put (fun a b c d _ f => Build_IssueComment a b c d s f));
    bool_field "updatable" ic_Updatable (fun s => put (fun a b c d e _ => Build_IssueComment a b c d e s)) false ].
Definition IssueComment_zero : IssueComment := Build_IssueComment "" "" false "" "" false.

Definition IssueLocation_fields : list (json_field IssueLocation) :=
  let put f x := f (il_Message x) (il_Component x) (il_Line x) (il_Gap x) (il_QuickFix x) in
  [ str_field "message" il_Message (fun s => put (fun _ b c d e => Build_IssueLocation s b c d e));
    str_field "component" il_Component (fun s => put (fun a _ c d e => Build_IssueLocation a s c d e));
    int_field "line" il_Line (fun s => put (fun a b _ d e => Build_IssueLocation a b s d e)) false;
    int_field "gap" il_Gap (fun s => put (fun a b c _ e => Build_IssueLocation a b c s e)) false;
    bool_field "quickFixAvailable" il_QuickFix (fun s => put (fun a b c d _ => Build_IssueLocation a b c d s)) true ].
Definition IssueLocation_zero : IssueLocation := Build_IssueLocation "" "" 0 0 false.

Definition IssueFlow_fields : list (json_field IssueFlow) :=
  [ list_field "locations" if_Locations (fun l _ => {| if_Locations := l |}) (struct_enc IssueLocation_fields)
      IssueLocation_zero (struct_dec IssueLocation_fields) false ].
Definition IssueFlow_zero : IssueFlow := {| if_Locations := [] |}.

Definition SonarQubeIssue_fields : list (json_field SonarQubeIssue) :=
  let mk := Build_SonarQubeIssue in
  let put f x := f (si_Key x) (si_Rule x) (si_Severity x) (si_Type x) (si_Component x) (si_Project x)
    (si_Line x) (si_Message x) (si_Status x) (si_Author x) (si_CreatedAt x) (si_Effort x)
    (si_Debt x) (si_Comments x) (si_Hash x) (si_Gap x) (si_QuickFix x) (si_Flow x) in
  [ str_field "key" si_Key (fun s => put (fun _ b c d e f g h i j k l m n o p q r => mk s b c d e f g h i j k l m n o p q r));
    str_field "rule" si_Rule (fun s => put (fun a _ c d e f g h i j k l m n o p q r => mk a s c d e f g h i j k l m n o p q r));
    str_field "severity" si_Severity (fun s => put (fun a b _ d e f g h i j k l m n o p q r => mk a b s d e f g h i j k l m n o p q r));
    str_field "type" si_Type (fun s => put (fun a b c _ e f g h i j k l m n o p q r => mk a b c s e f g h i j k l m n o p q r));
    str_field "component" si_Component (fun s => put (fun a b c d _ f g h i j k l m n o p q r => mk a b c d s f g h i j k l m n o p q r));
    str_field "project" si_Project (fun s => put (fun a b c d e _ g h i j k l m n o p q r => mk a b c d e s g h i j k l m n o p q r));
    int_field "line" si_Line (fun s => put (fun a b c d e f _ h i j k l m n o p q r => mk a b c d e f s h i j k l m n o p q r)) false;
    str_field "message" si_Message (fun s => put (fun a b c d e f g _ i j k l m n o p q r => mk a b c d e f g s i j k l m n o p q r));
    str_field "status" si_Status (fun s => put (fun a b c d e f g h _ j k l m n o p q r => mk a b c d e f g h s j k l m n o p q r));
    str_field "author" si_Author (fun s => put (fun a b c d e f g h i _ k l m n o p q r => mk a b c d e f g h i s k l m n o p q r));
    str_field "createdAt" si_CreatedAt (fun s => put (fun a b c d e f g h i j _ l m n o p q r => mk a b c d e f g h i j s l m n o p q r));
    str_field "effort" si_Effort (fun s => put (fun a b c d e f g h i j k _ m n o p q r => mk a b c d e f g h i j k s m n o p q r));
    str_field "debt" si_Debt (fun s => put (fun a b c d e f g h i j k l _ n o p q r => mk a b c d e f g h i j k l s n o p q r));
    list_field "comments" si_Comments (fun s => put (fun a b c d e f g h i j k l m _ o p q r => mk a b c d e f g h i j k l m s o p q r))
      (struct_enc IssueComment_fields) IssueComment_zero (struct_dec IssueComment_fields) true;
    str_field "hash" si_Hash (fun s => put (fun a b c d e f g h i j k l m n _ p q r => mk a b c d e f g h i j k l m n s p q r));
    int_field "gap" si_Gap (fun s => put (fun a b c d e f g h i j k l m n o _ q r => mk a b c d e f g h i j k l m n o s q r)) true;
    bool_field "quickFixAvailable" si_QuickFix (fun s => put (fun a b c d e f g h i j k l m n o p _ r => mk a b c d e f g h i j k l m n o p s r)) true;
    list_field "flows" si_Flow (fun s => put (fun a b c d e f g h i j k l m n o p q _ => mk a b c d e f g h i j k l m n o p q s))
      (struct_enc IssueFlow_fields) IssueFlow_zero (struct_dec IssueFlow_fields) true ].
Definition SonarQubeIssue_zero : SonarQubeIssue :=
  Build_SonarQubeIssue "" "" "" "" "" "" 0 "" "" "" "" "" "" [] "" 0 false [].

Definition enc_issue : SonarQubeIssue -> any := struct_enc SonarQubeIssue_fields.
Definition dec_issue : any -> SonarQubeIssue -> SonarQubeIssue * bool := struct_dec SonarQubeIssue_fields.

Ltac distinct_names := apply (bool_decide_unpack _); vm_compute; exact I.

Section PutField.
Context {T : Type} (x y : T).

Lemma fold_put f l b r : put_field x (y, true) f = b -> fold_left (put_field x) l b = r ->
  fold_left (put_field x) (f :: l) (y, true) = r.
Proof. by intros <- <-. Qed.

Lemma put_str_field k get put : put_field x (y, true) (str_field k get put) = (put (get x) y, true).
Proof. done. Qed.
(** A field that may be left out is read back when it still has its zero
    value. *)
Lemma put_int_field k get put o : get y = 0 -> put 0 y = y ->
  put_field x (y, true) (int_field k get put o) = (put (get x) y, true).
Proof.
  intros Hz Hput. unfold put_field, int_field, omit. cbn.
  destruct o; [|done]. cbn. by destruct (Z.eqb_spec (get x) 0) as [->|]; rewrite ?Hput.
Qed.
Lemma put_bool_field k get put o : get y = false -> put false y = y ->
  put_field x (y, true) (bool_field k get put o) = (put (get x) y, true).
Proof. intros Hz Hput. unfold put_field, bool_field, omit. cbn. destruct o, (get x); cbn; by rewrite ?Hput. Qed.
Lemma put_list_field {U} k get put (enc : U -> any) z dec o : (forall u, dec (enc u) z = (u, true)) ->
  get y = [] -> put [] y = y ->
  put_field x (y, true) (list_field k get put enc z dec o) = (put (get x) y, true).
Proof.
  intros Hd Hz Hput. unfold put_field, list_field, omit. cbn -[dec_list].
  destruct (get x) as [|u l], o; cbn -[dec_list map]; rewrite ?Hput, ?(dec_list_enc _ _ _ _ _ Hd), ?Hput; done.
Qed.
End PutField.

Ltac read_field :=
  eapply fold_put;
  [ first [ apply put_str_field | apply put_int_field; reflexivity | apply put_bool_field; reflexivity
          | apply put_list_field; [auto with codecs|reflexivity|reflexivity] ] | lazy beta iota ].

(** What is written for an issue is read as the issue. *)
Lemma dec_comment_enc x : struct_dec IssueComment_fields (struct_enc IssueComment_fields x) IssueComment_zero = (x, true).
Proof.
  rewrite struct_dec_enc by distinct_names. destruct x as [k l m t c u].
  cbn. unfold put_field, omit. cbn. by destruct (String.eqb_spec l "") as [->|].
Qed.
Lemma dec_location_enc x : struct_dec IssueLocation_fields (struct_enc IssueLocation_fields x) IssueLocation_zero = (x, true).
Proof. rewrite struct_dec_enc by distinct_names. by destruct x as [m c l g []]. Qed.
Create HintDb codecs.
#[export] Hint Resolve dec_comment_enc dec_location_enc : codecs.

Lemma dec_flow_enc x : struct_dec IssueFlow_fields (struct_enc IssueFlow_fields x) IssueFlow_zero = (x, true).
Proof. rewrite struct_dec_enc by distinct_names. unfold IssueFlow_fields. read_field. by destruct x. Qed.
#[export] Hint Resolve dec_flow_enc : codecs.

Lemma dec_issue_enc x : dec_issue (enc_issue x) SonarQubeIssue_zero = (x, true).
Proof.
  unfold dec_issue, enc_issue. rewrite struct_dec_enc by distinct_names. destruct x.
  unfold SonarQubeIssue_fields, SonarQubeIssue_zero.
  do 18 (read_field; cbn [si_Key si_Rule si_Severity si_Type si_Component si_Project si_Line si_Message si_Status si_Author
    si_CreatedAt si_Effort si_Debt si_Comments si_Hash si_Gap si_QuickFix si_Flow]).
  reflexivity.
Qed.

(** ** SonarQube: the server *)

(** A file holds a JSON value this program wrote, or some text. *)
Inductive report := RJson (v : any) | RText (s : string).

(** The answers of the two endpoints with their status and the decoded fields
    (a list that is absent is [None]), and the files.  [sq_json_err] is the
    text of a decoding error. *)
Class SonarHost (W : Type) := {
  sq_gate : gmap string string -> W -> res (Z * string) * W;
  sq_issues : gmap string string -> W -> res (Z * (option (list SonarQubeIssue) * Z)) * W;
  sq_write : string -> report -> W -> option string * W;
  sq_read : string -> W -> res report * W;
  sq_json_err : report -> string;
}.

Record SonarConfig := { sc_URL : string; sc_User : string; sc_Pass : string }.
Definition sonar_config (getenv : string -> string) : SonarConfig :=
  let u := getenv "SONARQUBE_URL" in
  let token := getenv "SONARQUBE_TOKEN" in
  {| sc_URL := if String.eqb u "" then "http://localhost:9000" else u;
     sc_User := if String.eqb token "" then getenv "SONARQUBE_USER" else token;
     sc_Pass := getenv "SONARQUBE_PASSWORD" |}.

Section Sonar.
Context {W : Type} `{SonarHost W}.

Definition slice := option (list SonarQubeIssue).
Definition items (s : slice) : list SonarQubeIssue := default [] s.
Definition slice_len (s : slice) : Z := Z.of_nat (length (items s)).
(** [append] keeps a nil list nil when there is nothing to append. *)
Definition append_slice (a b : slice) : slice :=
  match items b with [] => a | l => Some (items a ++ l) end.
Definition slice_any (s : slice) : any :=
  match s with Some l => VList (map enc_issue l) | None => VNil end.

Definition issue_params (projectKey branch : string) : gmap string string :=
  let params := {["componentKeys" := projectKey; "ps" := "500"; "statuses" := "OPEN"; "additionalFields" := "rules"]} in
  if String.eqb branch "" then params else <["branch" := branch]> params.

(** The page that is asked for when [n] issues are there. *)
Definition next_page (n : Z) : Z := Z.quot n 500 + 2.

(** The loop over the further pages; [None]: the fuel is used up. *)
Fixpoint fetch_pages (fuel : nat) (params : gmap string string) (issues : slice) (total : Z) (w : W)
    : option (res slice * W) :=
  if slice_len issues <? total then
    match fuel with
    | O => None
    | S fuel =>
        let params := <["p" := Itoa (next_page (slice_len issues))]> params in
        match sq_issues params w with
        | (Err err, w) => Some (Err ("request next page: " +:+ err), w)
        | (Ok (status, (next, _)), w) =>
            if negb (status =? 200) then Some (Ok issues, w)
            else fetch_pages fuel params (append_slice issues next) total w
        end
    end
  else Some (Ok issues, w).

(** The commit is not used. *)
Definition fetchSonarQubeIssues (fuel : nat) (projectKey branch commitSHA : string) (w : W) : option (res slice * W) :=
  let params := issue_params projectKey branch in
  match sq_issues params w with
  | (Err err, w) => Some (Err ("request: " +:+ err), w)
  | (Ok (status, (issues, total)), w) =>
      if negb (status =? 200) then Some (Err ("API returned status " +:+ Itoa status), w)
      else fetch_pages fuel params issues total w
  end.

Definition fetchProjectAnalysis (fuel : nat) (projectKey : string) : W -> option (res slice * W) :=
  fetchSonarQubeIssues fuel projectKey "" "".

Definition fetchQualityGateStatus (projectKey : string) (w : W) : res ScanJob * W :=
  match sq_gate {["projectKey" := projectKey]} w with
  | (Err err, w) => (Err ("request: " +:+ err), w)
  | (Ok (code, status), w) =>
      if negb (code =? 200) then (Err ("API returned status " +:+ Itoa code), w)
      else
        let status := if String.eqb status "" then "success" else ToLower status in
        (Ok {| sj_JobID := projectKey; sj_Type := "sonarqube"; sj_Status := status; sj_ReportID := "";
               sj_CommitSHA := ""; sj_Repo := "" |}, w)
  end.

(** *** Reports *)

(** Both branches of the code return the empty text. *)
Definition extractCVEFromRule (rule : string) : string :=
  match Index (ToLower rule) "cwe:" with Some _ => "" | None => "" end.
Definition extractCWEFromRule (rule : string) : string :=
  if HasPrefix (ToLower rule) "cwe:" then ToUpper rule else "".

Definition to_vulnerability (issue : SonarQubeIssue) : Vulnerability :=
  {| vu_ID := si_Key issue; vu_Type := si_Type issue; vu_Severity := si_Severity issue; vu_File := si_Component issue;
     vu_Line := si_Line issue; vu_CVE := extractCVEFromRule (si_Rule issue); vu_CWE := extractCWEFromRule (si_Rule issue);
     vu_Summary := si_Message issue |}.
Definition convertIssuesToVulnerabilities (issues : list SonarQubeIssue) : list Vulnerability := map to_vulnerability issues.

Definition html_row (i : SonarQubeIssue) : string :=
  "<tr><td>" +:+ si_Severity i +:+ "</td><td>" +:+ si_Type i +:+ "</td><td>" +:+ si_Component i +:+ "</td><td>" +:+
  Itoa (si_Line i) +:+ "</td><td>" +:+ si_Message i +:+ "</td></tr>".
Definition html_text (issues : list SonarQubeIssue) : string :=
  let html := "<!DOCTYPE html><html><head><meta charset=" +:+ Quote "UTF-8" +:+
              "><title>SonarQube Report</title></head><body>" +:+
              "<h1>SonarQube Analysis Report</h1><p>Total Issues: " +:+ Itoa (Z.of_nat (length issues)) +:+ "</p>" +:+
              "<table border=" +:+ Quote "1" +:+
              "><tr><th>Severity</th><th>Type</th><th>File</th><th>Line</th><th>Message</th></tr>" in
  fold_left (fun html i => html +:+ html_row i) issues html +:+ "</table></body></html>".
Definition generateHTML (issues : list SonarQubeIssue) (htmlPath : string) : W -> option string * W :=
  sq_write htmlPath (RText (html_text issues)).

Definition job_any (j : ScanJob) : any :=
  VMap [("job_id", VStr (sj_JobID j)); ("type", VStr (sj_Type j)); ("status", VStr (sj_Status j));
        ("report_id", VStr (sj_ReportID j)); ("commit_sha", VStr (sj_CommitSHA j)); ("repo", VStr (sj_Repo j))].
Definition vuln_any (v : Vulnerability) : any :=
  VMap [("id", VStr (vu_ID v)); ("type", VStr (vu_Type v)); ("severity", VStr (vu_Severity v)); ("file", VStr (vu_File v));
        ("line", VInt (vu_Line v)); ("cve", VStr (vu_CVE v)); ("cwe", VStr (vu_CWE v)); ("summary", VStr (vu_Summary v))].

(** [json.Unmarshal] into a list of issues. *)
Definition read_issues (r : report) : option slice :=
  let decode v := match v with
                  | VNil => Some None
                  | VList _ => let (l, ok) := dec_list SonarQubeIssue_zero dec_issue v [] in if ok then Some (Some l) else None
                  | _ => None
                  end in
  match r with
  | RJson v => decode v
  | RText s => match Unmarshal s with Some v => decode v | None => None end
  end.

(** *** Tools *)

Context `{McpArgs}.

Definition refused {A} (msg : string) (a : A) : tool_answer * A := (Ret (Err msg), a).
Definition answered {A} (t : ToolText) (a : A) : tool_answer * A := (Ret (Ok t), a).

Definition getJobsByCommitHandler (fuel : nat) (request : gomap) (w : W) : option (tool_answer * W) :=
  match missing request ["repo"; "commit_sha"] with
  | Some err => Some (refused err w)
  | None =>
      let repo := ParseString request "repo" in
      let commitSHA := ParseString request "commit_sha" in
      let projectKey := ReplaceAll repo "/" ":" in
      match fetchSonarQubeIssues fuel projectKey "" commitSHA w with
      | None => None
      | Some (Err err, w) => Some (refused ("fetch sonarqube issues: " +:+ err) w)
      | Some (Ok issues, w) =>
          let failed := existsb (fun i => String.eqb (si_Severity i) "BLOCKER") (items issues) in
          Some (answered (JsonText (VList [job_any
            {| sj_JobID := projectKey; sj_Type := "sonarqube"; sj_Status := if failed then "failed" else "success";
               sj_ReportID := projectKey; sj_CommitSHA := commitSHA; sj_Repo := repo |}])) w)
      end
  end.

Definition getJobStatusHandler (request : gomap) (w : W) : tool_answer * W :=
  match missing request ["job_id"] with
  | Some err => refused err w
  | None =>
      match fetchQualityGateStatus (ParseString request "job_id") w with
      | (Err err, w) => refused ("fetch status: " +:+ err) w
      | (Ok job, w) => answered (JsonText (job_any job)) w
      end
  end.

(** [cache] is [analysisCache], which nothing reads. *)
Definition downloadReportHandler (fuel : nat) (request : gomap) (cache : gmap string slice) (w : W)
    : option (tool_answer * (gmap string slice * W)) :=
  match missing request ["report_id"; "output_path"] with
  | Some err => Some (refused err (cache, w))
  | None =>
      let reportID := ParseString request "report_id" in
      let outputPath := ParseString request "output_path" in
      match fetchProjectAnalysis fuel reportID w with
      | None => None
      | Some (Err err, w) => Some (refused ("fetch analysis: " +:+ err) (cache, w))
      | Some (Ok rep, w) =>
          match sq_write outputPath (RJson (slice_any rep)) w with
          | (Some err, w) => Some (refused ("write report: " +:+ err) (cache, w))
          | (None, w) =>
              Some (answered (JsonText (VMap [("format", VStr "json"); ("path", VStr outputPath)]))
                             (<[reportID := rep]> cache, w))
          end
      end
  end.

(** A failure to write the HTML file is only logged. *)
Definition parseSonarqubeHandler (request : gomap) (w : W) : tool_answer * W :=
  match missing request ["report_path"] with
  | Some err => refused err w
  | None =>
      let reportPath := ParseString request "report_path" in
      match sq_read reportPath w with
      | (Err err, w) => refused ("read report: " +:+ err) w
      | (Ok data, w) =>
          match read_issues data with
          | None => refused ("parse report: " +:+ sq_json_err data) w
          | Some issues =>
              let htmlPath := TrimSuffix reportPath ".json" +:+ ".html" in
              let '(_, w) := generateHTML (items issues) htmlPath w in
              let vulns := match convertIssuesToVulnerabilities (items issues) with
                           | [] => VNil | l => VList (map vuln_any l) end in
              answered (JsonText (VMap [("html_path", VStr htmlPath); ("vulnerabilities", vulns)])) w
          end
      end
  end.

Definition severity_in (severities : string) (i : SonarQubeIssue) : bool :=
  existsb (fun s => String.eqb (si_Severity i) (TrimSpace s)) (SplitByte "," severities).

Definition getIssuesHandler (fuel : nat) (request : gomap) (w : W) : option (tool_answer * W) :=
  match missing request ["project_key"] with
  | Some err => Some (refused err w)
  | None =>
      let severities := ParseString request "severities" in
      match fetchSonarQubeIssues fuel (ParseString request "project_key") (ParseString request "branch") "" w with
      | None => None
      | Some (Err err, w) => Some (refused ("fetch issues: " +:+ err) w)
      | Some (Ok issues, w) =>
          let issues := if String.eqb severities "" then issues
                        else Some (List.filter (severity_in severities) (items issues)) in
          Some (answered (JsonText (slice_any issues)) w)
      end
  end.
(** The tools of the server, as [main] registers them: name, required
    arguments, handler. *)
Definition sonar_tool : Type := string * list string * (gomap -> gmap string slice * W -> option (tool_answer * (gmap string slice * W))).
Definition keeping_cache (r : option (tool_answer * W)) (c : gmap string slice) : option (tool_answer * (gmap string slice * W)) :=
  match r with Some (a, w) => Some (a, (c, w)) | None => None end.
Definition sonar_tools (fuel : nat) : list sonar_tool :=
  [ ("scan/get_jobs_by_commit", ["repo"; "commit_sha"],
     fun q '(c, w) => keeping_cache (getJobsByCommitHandler fuel q w) c);
    ("scan/get_status", ["job_id"], fun q '(c, w) => keeping_cache (Some (getJobStatusHandler q w)) c);
    ("report/download", ["report_id"; "output_path"], fun q '(c, w) => downloadReportHandler fuel q c w);
    ("parse/sonarqube_to_html", ["report_path"], fun q '(c, w) => keeping_cache (Some (parseSonarqubeHandler q w)) c);
    ("scan/get_issues", ["project_key"], fun q '(c, w) => keeping_cache (getIssuesHandler fuel q w) c) ].

(** A tool that lacks a required argument answers which, and does nothing. *)
Lemma sonar_required fuel name required handler request st err :
  (name, required, handler) ∈ sonar_tools fuel -> missing request required = Some err ->
  handler request st = Some (Ret (Err err), st).
Proof.
  unfold sonar_tools. intros Ht Hm. destruct st as [c w].
  repeat (apply elem_of_cons in Ht as [[= -> -> ->]|Ht];
    [unfold getJobsByCommitHandler, getJobStatusHandler, downloadReportHandler, parseSonarqubeHandler, getIssuesHandler;
     by rewrite Hm|]).
  by apply not_elem_of_nil in Ht.
Qed.
End Sonar.

(** *** Paging

    SonarQube numbers its pages from 1 and answers every page with the total. *)
Definition page_of (params : gmap string string) : nat :=
  match params !! "p" with Some s => match Atoi s with Some z => Z.to_nat z | None => 1 end | None => 1 end.
Definition page (all : list SonarQubeIssue) (p : nat) : list SonarQubeIssue := take 500 (drop ((p - 1) * 500) all).

Class Paged {W} `{SonarHost W} (all : list SonarQubeIssue) :=
  paged_issues params w : (sq_issues params w).1 = Ok (200, (Some (page all (page_of params)), Z.of_nat (length all))).

Section Paging.
Context {W : Type} `{SonarHost W} (all : list SonarQubeIssue) `{!Paged all}.

Lemma next_page_div n : 0 <= n -> next_page n = n / 500 + 2.
Proof. intros Hn. unfold next_page. by rewrite Z.quot_div_nonneg by lia. Qed.

Lemma page_next params n : 0 <= n < 2 ^ 60 ->
  page_of (<["p" := Itoa (next_page n)]> params) = Z.to_nat (next_page n).
Proof.
  intros Hn. unfold page_of. rewrite lookup_insert_eq, Atoi_Itoa; [done|].
  rewrite next_page_div by lia. unfold in_i64. apply andb_true_iff. dlia.
Qed.

(** From 500 issues on, no page is asked for before the third: the issues of
    the second page are never found. *)
Lemma late_page n : 500 <= n -> page all (Z.to_nat (next_page n)) ⊆ drop 1000 all.
Proof.
  intros Hn. rewrite next_page_div by lia. intros i Hi. unfold page in Hi.
  apply elem_of_take in Hi as (k & Hk & _). rewrite lookup_drop in Hk.
  apply (list_elem_of_lookup_2 _ (k + ((Z.to_nat (n / 500 + 2) - 1) * 500 - 1000))).
  rewrite lookup_drop, <- Hk. f_equal. dlia.
Qed.

Lemma items_append a b : items (append_slice a (Some b)) = items a ++ b.
Proof. unfold append_slice. destruct b; [by rewrite app_nil_r|done]. Qed.

(** What the answer can hold once there are 500 issues. *)
Definition without_page2 (l : list SonarQubeIssue) : Prop := 500 <= Z.of_nat (length l) /\ l ⊆ take 500 all ++ drop 1000 all.

Lemma fetch_first key branch sha w : exists params w1, forall fuel,
  fetchSonarQubeIssues fuel key branch sha w =
  fetch_pages fuel params (Some (take 500 all)) (Z.of_nat (length all)) w1.
Proof.
  unfold fetchSonarQubeIssues. set (params := issue_params key branch).
  assert (Hp1 : page_of params = 1%nat).
  { unfold params, issue_params, page_of. by destruct (String.eqb branch ""). }
  pose proof (paged_issues params w) as Hp. destruct (sq_issues params w) as [a w1]. cbn in Hp. subst a.
  exists params, w1. intros fuel. rewrite Hp1. unfold page. change ((1 - 1) * 500)%nat with 0%nat. by rewrite drop_0.
Qed.

Lemma fetch_next params issues w : slice_len issues < Z.of_nat (length all) < 2 ^ 60 -> exists params' w', forall fuel,
  fetch_pages (S fuel) params issues (Z.of_nat (length all)) w =
  fetch_pages fuel params' (append_slice issues (Some (page all (Z.to_nat (next_page (slice_len issues))))))
    (Z.of_nat (length all)) w'.
Proof.
  intros Hn. set (params' := <["p" := Itoa (next_page (slice_len issues))]> params).
  pose proof (paged_issues params' w) as Hp. destruct (sq_issues params' w) as [a w'] eqn:E. cbn in Hp. subst a.
  exists params', w'. intros fuel. cbn [fetch_pages]. destruct (Z.ltb_spec (slice_len issues) (Z.of_nat (length all))); [|lia].
  fold params'. rewrite E. cbn [Z.eqb negb]. rewrite Pos.eqb_refl. unfold params' at 2.
  by rewrite page_next by (unfold slice_len in *; lia).
Qed.

Lemma fetch_pages_done fuel params issues total w : total <= slice_len issues ->
  fetch_pages fuel params issues total w = Some (Ok issues, w).
Proof. intros Hle. destruct fuel; cbn [fetch_pages]; by destruct (Z.ltb_spec (slice_len issues) total); [lia|]. Qed.

Lemma fetch_pages_skips fuel params issues w r w' : Z.of_nat (length all) < 2 ^ 60 ->
  without_page2 (items issues) -> fetch_pages fuel params issues (Z.of_nat (length all)) w = Some (r, w') ->
  exists l, r = Ok l /\ without_page2 (items l).
Proof.
  intros Hall. revert params issues w. induction fuel as [|fuel IH]; intros params issues w Hq;
    destruct (Z.le_gt_cases (Z.of_nat (length all)) (slice_len issues)) as [Hle|Hgt].
  1, 3: rewrite fetch_pages_done by done; intros [= <- <-]; by exists issues.
  - cbn [fetch_pages]. by destruct (Z.ltb_spec (slice_len issues) (Z.of_nat (length all))); [|lia].
  - destruct (fetch_next params issues w) as (params' & w1 & E); [lia|]. rewrite E. apply IH.
    destruct Hq as [Hlen Hsub]. unfold without_page2. rewrite items_append, length_app. split; [lia|].
    apply list_subseteq_app_iff_l. split; [done|]. etransitivity; [by apply late_page|]. set_solver.
Qed.

(** One page is all there is: it is returned after one request. *)
Lemma fetch_one_page fuel key branch sha w : Z.of_nat (length all) <= 500 ->
  exists w', fetchSonarQubeIssues fuel key branch sha w = Some (Ok (Some all), w').
Proof.
  intros Hall. destruct (fetch_first key branch sha w) as (params & w1 & E). exists w1.
  rewrite E, take_ge by lia. by apply fetch_pages_done.
Qed.

Lemma fetch_many_pages fuel key branch sha w r w' : 500 < Z.of_nat (length all) < 2 ^ 60 ->
  fetchSonarQubeIssues fuel key branch sha w = Some (r, w') -> exists l, r = Ok l /\ without_page2 (items l).
Proof.
  intros Hall. destruct (fetch_first key branch sha w) as (params & w1 & E). rewrite E.
  apply fetch_pages_skips; [lia|]. unfold without_page2. cbn. rewrite length_take. split; [lia|set_solver].
Qed.

(** SonarQube, whose pages are numbered from 1, hands over all issues of a
    project exactly when one page holds them: with more than 500 issues the
    loop asks for the third page next, and no answer holds those of the
    second. *)
Theorem fetch_complete_iff key branch sha w : NoDup all -> Z.of_nat (length all) < 2 ^ 60 ->
  ((exists fuel l w', fetchSonarQubeIssues fuel key branch sha w = Some (Ok l, w') /\ all ⊆ items l) <->
   Z.of_nat (length all) <= 500).
Proof.
  intros Hnd Hmax. split.
  - intros (fuel & l & w' & Hf & Hsub). destruct (Z.le_gt_cases (Z.of_nat (length all)) 500) as [|Hgt]; [done|exfalso].
    apply fetch_many_pages in Hf as (l' & [= <-] & _ & Hl); [|lia].
    destruct (lookup_lt_is_Some_2 all 500) as [i Hi]; [lia|].
    specialize (Hl i (Hsub i (list_elem_of_lookup_2 _ _ _ Hi))). apply elem_of_app in Hl as [Hl|Hl].
    + apply elem_of_take in Hl as (k & Hk & Hlt). pose proof (NoDup_lookup _ _ _ _ Hnd Hk Hi). lia.
    + apply list_elem_of_lookup in Hl as [k Hk]. rewrite lookup_drop in Hk. pose proof (NoDup_lookup _ _ _ _ Hnd Hk Hi). lia.
  - intros Hle. destruct (fetch_one_page 0 key branch sha w Hle) as [w' E]. by exists 0%nat, (Some all), w'.
Qed.

(** Two pages of issues: the third page is empty, and is asked for forever. *)
Lemma fetch_two_pages_never fuel key branch sha w : 500 < Z.of_nat (length all) <= 1000 ->
  fetchSonarQubeIssues fuel key branch sha w = None.
Proof.
  intros Hall. destruct (fetch_first key branch sha w) as (params & w1 & E). rewrite E. clear E.
  assert (Hlen : slice_len (Some (take 500 all)) = 500) by (unfold slice_len; cbn; rewrite length_take; lia).
  revert Hlen. generalize (Some (take 500 all)). intros issues Hlen. revert params w1.
  induction fuel as [|fuel IH]; intros params w1.
  - cbn [fetch_pages]. rewrite Hlen. by destruct (Z.ltb_spec 500 (Z.of_nat (length all))); [|lia].
  - destruct (fetch_next params issues w1) as (params' & w2 & E); [lia|]. rewrite E, Hlen.
    unfold page. rewrite drop_ge by (change (Z.to_nat (next_page 500)) with 3%nat; lia). rewrite take_nil. apply IH.
Qed.
End Paging.

(** *** Reports *)

(** What is written to a file is what is read from it. *)
Class SonarFiles {W} `{SonarHost W} :=
  written_is_read path r w w' : sq_write path r w = (None, w') -> (sq_read path w').1 = Ok r.

Lemma read_issues_written s : read_issues (RJson (slice_any s)) = Some s.
Proof. destruct s as [l|]; [|done]. cbn -[dec_list]. by rewrite (dec_list_enc _ _ _ _ _ dec_issue_enc). Qed.

Section Reports.
Context {W : Type} `{SonarHost W} `{!SonarFiles} `{McpArgs}.

(** A report that was downloaded is read back as the very issues: parsing
    the file answers with the page beside it and one vulnerability for each
    issue of the project. *)
Theorem downloaded_report_parses fuel req req' cache w t cache' w' path :
  downloadReportHandler fuel req cache w = Some (Ret (Ok t), (cache', w')) ->
  ParseString req "output_path" = path -> ParseString req' "report_path" = path ->
  exists issues, cache' = <[ParseString req "report_id" := issues]> cache /\
    (parseSonarqubeHandler req' w').1 =
      Ret (Ok (JsonText (VMap [("html_path", VStr (TrimSuffix path ".json" +:+ ".html"));
        ("vulnerabilities", match items issues with [] => VNil
                            | l => VList (map (fun i => vuln_any (to_vulnerability i)) l) end)]))).
Proof.
  intros Hd Hout Hin. unfold downloadReportHandler in Hd.
  destruct (missing req _) eqn:Em; [done|]. destruct (fetchProjectAnalysis _ _ _) as [[[issues|err] w1]|]; try done.
  rewrite Hout in Hd. destruct (sq_write path _ w1) as [[err|] w2] eqn:Ew; [done|]. injection Hd as <- <- <-.
  exists issues. split; [done|]. unfold parseSonarqubeHandler. cbn [missing]. rewrite Hin.
  apply missing_None in Em. rewrite !Forall_cons in Em. destruct Em as (_ & Hne & _). rewrite Hout in Hne.
  destruct (String.eqb_spec path ""); [done|]. apply written_is_read in Ew. destruct (sq_read path w2) as [a w3]. cbn in Ew. subst a.
  rewrite read_issues_written. destruct (generateHTML _ _ w3) as [o w4]. cbn. unfold convertIssuesToVulnerabilities.
  destruct (items issues) as [|i l]; [done|]. cbn. by rewrite map_map.
Qed.

(** The job of a commit fails exactly when an issue blocks; which commit is
    asked for makes no difference. *)
Lemma jobs_ignore_commit fuel key branch sha sha' w :
  fetchSonarQubeIssues fuel key branch sha w = fetchSonarQubeIssues fuel key branch sha' w.
Proof. done. Qed.

Lemma severities_filter fuel req w issues w' :
  ParseString req "project_key" <> "" -> ParseString req "severities" <> "" ->
  fetchSonarQubeIssues fuel (ParseString req "project_key") (ParseString req "branch") "" w = Some (Ok issues, w') ->
  exists l, getIssuesHandler fuel req w = Some (Ret (Ok (JsonText (VList (map enc_issue l)))), w') /\
    forall i, i ∈ l <-> i ∈ items issues /\ exists s, s ∈ SplitByte "," (ParseString req "severities") /\ si_Severity i = TrimSpace s.
Proof.
  intros Hk Hs Hf. exists (List.filter (severity_in (ParseString req "severities")) (items issues)). split.
  - unfold getIssuesHandler. cbn [missing]. destruct (String.eqb_spec (ParseString req "project_key") ""); [done|].
    rewrite Hf. by destruct (String.eqb_spec (ParseString req "severities") "").
  - intros i. rewrite !list_elem_of_In, filter_In. unfold severity_in. rewrite existsb_exists.
    setoid_rewrite list_elem_of_In. setoid_rewrite String.eqb_eq. done.
Qed.
End Reports.

Lemma extractCVE_empty rule : extractCVEFromRule rule = "".
Proof. unfold extractCVEFromRule. by destruct (Index _ _). Qed.

(** ** GitHub *)

(** [go-github]: the name of a reference and its object's hash ([None]: no
    object; the hash may be missing), the hash of a file's content on a branch
    ([None]: the answer is no file), the hash of the commit of an update. *)
Record GithubRef := { gr_Object : option (option string) }.
Definition GetSHA (r : GithubRef) : string := match gr_Object r with Some (Some s) => s | _ => "" end.
Record FileOptions := { fo_Message : string; fo_Content : string; fo_Branch : string; fo_SHA : option string }.
Record NewPullRequest := { pq_Title : string; pq_Body : string; pq_Head : string; pq_Base : string }.

Class GithubHost (W : Type) := {
  gh_GetRef : string -> string -> string -> W -> res GithubRef * W;
  gh_CreateRef : string -> string -> string -> option string -> W -> option string * W;
  gh_GetContents : string -> string -> string -> string -> W -> res (option string) * W;
  gh_UpdateFile : string -> string -> string -> FileOptions -> W -> res (option string) * W;
  gh_CreatePR : string -> string -> NewPullRequest -> W -> res Z * W;
  gh_MergePR : string -> string -> Z -> string -> string -> W -> option string * W;
}.

Record FileChange := { fc_Path : string; fc_Content : string; fc_Message : string }.

(** The first slash that is not the first character. *)
Fixpoint repo_split (first : bool) (pre s : string) : option (string * string) :=
  match s with
  | EmptyString => None
  | String c s' =>
      if Ascii.eqb c "/" && negb first then Some (pre, s') else repo_split false (pre +:+ String c "") s'
  end.
Definition parseRepo (repo : string) : res (string * string) :=
  match repo_split true "" repo with Some p => Ok p | None => Err ("invalid repo format: " +:+ repo) end.

(** The texts of the answers are put together without escaping. *)
Definition json_str (s : string) : string := dquote +:+ s +:+ dquote.
Definition commit_json (sha : string) : string := "{" +:+ json_str "commit_sha" +:+ ":" +:+ json_str sha +:+ "}".
Definition branch_json (branch sha : string) : string :=
  "{" +:+ json_str "branch" +:+ ":" +:+ json_str branch +:+ "," +:+ json_str "sha" +:+ ":" +:+ json_str sha +:+ "}".

Section Github.
Context {W : Type} `{GithubHost W} `{McpArgs}.

Definition getLatestCommitHandler (request : gomap) (w : W) : tool_answer * W :=
  match missing request ["repo"; "branch"] with
  | Some err => refused err w
  | None =>
      match parseRepo (ParseString request "repo") with
      | Err err => refused err w
      | Ok (owner, name) =>
          match gh_GetRef owner name ("refs/heads/" +:+ ParseString request "branch") w with
          | (Err err, w) => refused ("get ref: " +:+ err) w
          | (Ok ref, w) => answered (PlainText (commit_json (GetSHA ref))) w
          end
      end
  end.

(** [ref.Object.SHA] of a reference without an object panics. *)
Definition createBranchHandler (request : gomap) (w : W) : tool_answer * W :=
  match missing request ["repo"; "branch"; "base_branch"] with
  | Some err => refused err w
  | None =>
      match parseRepo (ParseString request "repo") with
      | Err err => refused err w
      | Ok (owner, name) =>
          let branch := ParseString request "branch" in
          match gh_GetRef owner name ("refs/heads/" +:+ ParseString request "base_branch") w with
          | (Err err, w) => refused ("get base ref: " +:+ err) w
          | (Ok ref, w) =>
              match gr_Object ref with
              | None => (Panic "nil pointer dereference", w)
              | Some sha =>
                  match gh_CreateRef owner name ("refs/heads/" +:+ branch) sha w with
                  | (Some err, w) => refused ("create ref: " +:+ err) w
                  | (None, w) => answered (PlainText (branch_json branch (GetSHA ref))) w
                  end
              end
          end
      end
  end.

(** [cMap[k].(string)] *)
Definition text_of (m : gomap) (k : string) : option string :=
  match mget k m with Some (VStr s) => Some s | _ => None end.
Definition bad_conversion : string := "interface conversion".

Fixpoint read_changes (l : list any) : call (res (list FileChange)) :=
  match l with
  | [] => Ret (Ok [])
  | VMap m :: l =>
      match text_of m "path", text_of m "content", text_of m "message" with
      | Some p, Some c, Some msg =>
          match read_changes l with
          | Ret (Ok cs) => Ret (Ok ({| fc_Path := p; fc_Content := c; fc_Message := msg |} :: cs))
          | r => r
          end
      | _, _, _ => Panic bad_conversion
      end
  | _ :: _ => Ret (Err "invalid change format")
  end.

(** One commit per change; an error leaves those made before it. *)
Fixpoint push_changes (owner name branch : string) (last : string) (cs : list FileChange) (w : W) : res string * W :=
  match cs with
  | [] => (Ok last, w)
  | c :: cs =>
      let '(got, w) := gh_GetContents owner name (fc_Path c) branch w in
      let sha := match got with Ok (Some s) => s | _ => "" end in
      let opts := {| fo_Message := fc_Message c; fo_Content := fc_Content c; fo_Branch := branch;
                     fo_SHA := if String.eqb sha "" then None else Some sha |} in
      match gh_UpdateFile owner name (fc_Path c) opts w with
      | (Err err, w) => (Err ("update " +:+ fc_Path c +:+ ": " +:+ err), w)
      | (Ok resp, w) => push_changes owner name branch (default last resp) cs w
      end
  end.

Definition commitAndPushHandler (request : gomap) (w : W) : tool_answer * W :=
  match missing request ["repo"; "branch"] with
  | Some err => refused err w
  | None =>
      match parseRepo (ParseString request "repo") with
      | Err err => refused err w
      | Ok (owner, name) =>
          match ParseArgument request "changes" with
          | None | Some VNil => refused "changes is required" w
          | Some (VList l) =>
              match read_changes l with
              | Panic m => (Panic m, w)
              | Ret (Err err) => refused err w
              | Ret (Ok cs) =>
                  match push_changes owner name (ParseString request "branch") "" cs w with
                  | (Err err, w) => refused err w
                  | (Ok sha, w) => answered (PlainText (commit_json sha)) w
                  end
              end
          | Some _ => (Panic bad_conversion, w)
          end
      end
  end.

Definition createPullRequestHandler (request : gomap) (w : W) : tool_answer * W :=
  match missing request ["repo"; "title"; "head"; "base"] with
  | Some err => refused err w
  | None =>
      match parseRepo (ParseString request "repo") with
      | Err err => refused err w
      | Ok (owner, name) =>
          match gh_CreatePR owner name
                  {| pq_Title := ParseString request "title"; pq_Body := ParseString request "body";
                     pq_Head := ParseString request "head"; pq_Base := ParseString request "base" |} w with
          | (Err err, w) => refused ("create PR: " +:+ err) w
          | (Ok n, w) => answered (PlainText ("{" +:+ json_str "pr_number" +:+ ":" +:+ Itoa n +:+ "}")) w
          end
      end
  end.

(** The target branch, a required argument of the tool, is not read. *)
Definition mergePullRequestHandler (request : gomap) (w : W) : tool_answer * W :=
  match missing request ["repo"] with
  | Some err => refused err w
  | None =>
      if ParseFloat64_zero request "pr_number" then refused "pr_number is required" w
      else
        match parseRepo (ParseString request "repo") with
        | Err err => refused err w
        | Ok (owner, name) =>
            match gh_MergePR owner name (ParseFloat64_int request "pr_number") "Auto-merged by Security Bot" "squash" w with
            | (Some err, w) => refused ("merge PR: " +:+ err) w
            | (None, w) => answered (PlainText ("{" +:+ json_str "success" +:+ ":true}")) w
            end
        end
  end.
Definition github_tools : list (string * list string * (gomap -> W -> tool_answer * W)) :=
  [ ("git/get_latest_commit", ["repo"; "branch"], getLatestCommitHandler);
    ("git/create_branch", ["repo"; "branch"; "base_branch"], createBranchHandler);
    ("git/commit_and_push", ["repo"; "branch"; "changes"], commitAndPushHandler);
    ("git/create_pull_request", ["repo"; "title"; "head"; "base"], createPullRequestHandler);
    ("git/merge_pull_request", ["repo"; "pr_number"; "target_branch"], mergePullRequestHandler) ].
End Github.

(** [main] ends without a token; a base URL makes the client an enterprise's. *)
Definition github_config (getenv : string -> string) : option (string * option string) :=
  let url := getenv "GITHUB_BASE_URL" in
  if String.eqb (getenv "GITHUB_TOKEN") "" then None
  else Some (getenv "GITHUB_TOKEN", if String.eqb url "" then None else Some url).

(** *** Repositories *)

Lemma repo_split_spec s : forall first pre o n,
  repo_split first pre s = Some (o, n) -> pre +:+ s = o +:+ "/" +:+ n.
Proof.
  induction s as [|c s IH]; intros first pre o n; cbn [repo_split]; [done|].
  destruct (Ascii.eqb_spec c "/") as [->|Hc]; [destruct first|]; cbn [negb andb]; try (intros E%IH; by rewrite append_assoc in E).
  by intros [= <- <-].
Qed.

Lemma repo_split_plain o n : forall pre, no_char "/" o = true -> repo_split false pre (o +:+ "/" +:+ n) = Some (pre +:+ o, n).
Proof.
  induction o as [|c o IH]; intros pre Hn; cbn in *; [by rewrite append_nil_r|].
  destruct (Ascii.eqb c "/"); [done|]. cbn [andb]. rewrite IH by done. by rewrite append_assoc.
Qed.

(** [owner/name] is taken apart, whatever follows the first slash. *)
Lemma parseRepo_join c o n : no_char "/" o = true -> parseRepo (String c o +:+ "/" +:+ n) = Ok (String c o, n).
Proof.
  intros Hn. unfold parseRepo. cbn [repo_split String.append]. rewrite andb_false_r.
  change (String "/" n) with ("/" +:+ n). by rewrite repo_split_plain.
Qed.
Lemma parseRepo_spec repo o n : parseRepo repo = Ok (o, n) -> repo = o +:+ "/" +:+ n.
Proof. unfold parseRepo. destruct (repo_split true "" repo) as [[? ?]|] eqn:E; [|done]. intros [= -> ->]. by apply repo_split_spec in E. Qed.
Example parseRepo_examples :
  map parseRepo ["flowgent-labs/flowgent"; "a/b/c"; "/a/b"; "a"; "/a"] =
  [Ok ("flowgent-labs", "flowgent"); Ok ("a", "b/c"); Ok ("/a", "b"); Err "invalid repo format: a"; Err "invalid repo format: /a"].
Proof. reflexivity. Qed.

(** The files of a branch: an update that succeeds writes one, one that fails
    none, and reading changes nothing. *)
Class GithubFiles {W} `{GithubHost W} := {
  gf_files : W -> string * string * string -> gmap string string;
  gf_get owner name path branch w r : gf_files (gh_GetContents owner name path branch w).2 r = gf_files w r;
  gf_update owner name path opts w resp w' r : gh_UpdateFile owner name path opts w = (Ok resp, w') ->
    gf_files w' r = if decide (r = (owner, name, fo_Branch opts)) then <[path := fo_Content opts]> (gf_files w r) else gf_files w r;
  gf_failed owner name path opts w err w' r : gh_UpdateFile owner name path opts w = (Err err, w') -> gf_files w' r = gf_files w r;
}.

Definition apply_changes (cs : list FileChange) (files : gmap string string) : gmap string string :=
  fold_left (fun m c => <[fc_Path c := fc_Content c]> m) cs files.

Section Commits.
Context {W : Type} `{GithubFiles W} `{McpArgs}.

(** The first [n] changes are on the branch, and nothing else has changed. *)
Definition pushed (r : string * string * string) (cs : list FileChange) (w w' : W) : Prop :=
  gf_files w' r = apply_changes cs (gf_files w r) /\ forall r', r' <> r -> gf_files w' r' = gf_files w r'.

Lemma pushed_nil r w : pushed r [] w w.
Proof. done. Qed.

Lemma push_changes_spec owner name branch cs : forall last w a w',
  push_changes owner name branch last cs w = (a, w') ->
  exists n, pushed (owner, name, branch) (take n cs) w w' /\ (is_ok a = true <-> (length cs <= n)%nat).
Proof.
  induction cs as [|c cs IH]; intros last w a w'; cbn [push_changes].
  - intros [= <- <-]. by exists 0%nat.
  - pose proof (gf_get owner name (fc_Path c) branch w) as Hg. destruct (gh_GetContents _ _ _ _ w) as [got w1]. cbn [snd] in Hg.
    set (opts := {| fo_Message := _ |}). destruct (gh_UpdateFile owner name (fc_Path c) opts w1) as [[resp|err] w2] eqn:Eu.
    + intros Hp. apply IH in Hp as (n & [Hr Ho] & Hok). pose proof (fun r => gf_update _ _ _ _ _ _ _ r Eu) as Hu. cbn [opts fo_Branch fo_Content] in Hu.
      exists (S n). split; [split|rewrite Hok; cbn; lia].
      * rewrite Hr, Hu, decide_True by done. cbn [take]. unfold apply_changes. cbn [fold_left]. by rewrite Hg.
      * intros r' Hne. by rewrite (Ho r' Hne), Hu, decide_False, Hg.
    + intros [= <- <-]. exists 0%nat. split; [|split; [done|cbn; lia]]. pose proof (fun r => gf_failed _ _ _ _ _ _ _ r Eu) as Hf.
      split; [|intros r' _]; by rewrite Hf, Hg.
Qed.

(** [git/commit_and_push] puts a prefix of the changes it was given on the
    branch, in order, and touches no other branch; it answers with a commit
    exactly when the prefix is all of them. *)
Theorem commit_pushes_prefix request w a w' owner name l cs :
  commitAndPushHandler request w = (a, w') -> missing request ["repo"; "branch"] = None ->
  parseRepo (ParseString request "repo") = Ok (owner, name) -> ParseArgument request "changes" = Some (VList l) ->
  read_changes l = Ret (Ok cs) ->
  exists n, pushed (owner, name, ParseString request "branch") (take n cs) w w' /\
    ((exists t, a = Ret (Ok t)) <-> (length cs <= n)%nat).
Proof.
  intros Hc Hm Hr Hl Hcs. unfold commitAndPushHandler in Hc. rewrite Hm, Hr, Hl, Hcs in Hc.
  destruct (push_changes _ _ _ _ _ _) as [r w1] eqn:Ep. apply push_changes_spec in Ep as (n & Hp & Hok).
  exists n. destruct r as [sha|err]; injection Hc as <- <-; split; try done; rewrite <- Hok; (split; [|by eauto]);
    [done|by intros [t [=]]].
Qed.

(** Otherwise nothing is asked of GitHub; a change without a path, a content
    or a message that are texts crashes the server. *)
Lemma commit_not_started request w l : ParseArgument request "changes" = Some (VList l) ->
  (forall cs, read_changes l <> Ret (Ok cs)) -> (commitAndPushHandler request w).2 = w.
Proof.
  intros Hl Hcs. unfold commitAndPushHandler. destruct (missing _ _); [done|]. destruct (parseRepo _) as [[]|]; [|done].
  rewrite Hl. destruct (read_changes l) as [[cs|]|]; [by destruct (Hcs cs)|done|done].
Qed.
End Commits.

Example change_without_message_panics :
  read_changes [VMap [("path", VStr "a.go"); ("content", VStr "x")]] = Panic bad_conversion.
Proof. reflexivity. Qed.

(** A new branch starts at the commit of its base. *)
Lemma branch_from_base `{GithubHost} `{McpArgs} request w t w' :
  createBranchHandler request w = (Ret (Ok t), w') ->
  exists owner name ref sha w1, parseRepo (ParseString request "repo") = Ok (owner, name) /\
    gh_GetRef owner name ("refs/heads/" +:+ ParseString request "base_branch") w = (Ok ref, w1) /\ gr_Object ref = Some sha /\
    gh_CreateRef owner name ("refs/heads/" +:+ ParseString request "branch") sha w1 = (None, w').
Proof.
  unfold createBranchHandler. destruct (missing _ _); [done|]. destruct (parseRepo _) as [[owner name]|]; [|done].
  destruct (gh_GetRef _ _ _ w) as [[ref|] w1] eqn:Eg; [|done]. destruct (gr_Object ref) as [sha|] eqn:Es; [|done].
  destruct (gh_CreateRef _ _ _ _ w1) as [[err|] w2] eqn:Ec; [done|]. intros [= <- <-]. by exists owner, name, ref, sha, w1.
Qed.

(** A branch whose name holds a quote makes the answer no JSON; the target
    branch of a merge is not looked at. *)
Example branch_json_not_json : Unmarshal (branch_json (json_str "x") "abc") = None.
Proof. vm_compute. reflexivity. Qed.
Lemma merge_ignores_target `{GithubHost} `{McpArgs} request request' w :
  (forall k, k <> "target_branch" -> ParseString request k = ParseString request' k) ->
  (forall k, ParseFloat64_zero request k = ParseFloat64_zero request' k) ->
  (forall k, ParseFloat64_int request k = ParseFloat64_int request' k) ->
  mergePullRequestHandler request w = mergePullRequestHandler request' w.
Proof.
  intros Hs Hz Hi. unfold mergePullRequestHandler. cbn [missing]. by rewrite Hz, Hi, (Hs "repo") by done.
Qed.

(** ** Concrete inputs *)

Definition demo_args : McpArgs := {|
  ParseString m k := match mget k m with Some (VStr s) => s | _ => "" end;
  ParseFloat64_zero m k := match mget k m with Some (VInt z) => z =? 0 | _ => true end;
  ParseFloat64_int m k := match mget k m with Some (VInt z) => z | _ => 0 end;
  ParseArgument m k := mget k m;
|}.
Lemma demo_args_laws : @McpArgsLaws demo_args.
Proof. split; cbn; [by intros m k s ->|by intros m k ->|done]. Qed.

Definition demo_issue (key severity : string) : SonarQubeIssue :=
  Build_SonarQubeIssue key "cwe:79" severity "BUG" "a.go" "p" 7 "oops" "OPEN" "" "" "" ""
    [Build_IssueComment "c" "" true "t" "" false] "" 0 false [{| if_Locations := [Build_IssueLocation "m" "a.go" 3 0 true] |}].
Definition demo_issues : list SonarQubeIssue := [demo_issue "k1" "BLOCKER"; demo_issue "k2" "MINOR"].

Definition demo_sonar (all : list SonarQubeIssue) : SonarHost (gmap string report) := {|
  sq_gate params w := (Ok (200, "ERROR"), w);
  sq_issues params w := (Ok (200, (Some (page all (page_of params)), Z.of_nat (length all))), w);
  sq_write path r w := (None, <[path := r]> w);
  sq_read path w := (match w !! path with Some r => Ok r | None => Err "no such file" end, w);
  sq_json_err r := "bad JSON";
|}.
Lemma demo_paged all : @Paged _ (demo_sonar all) all.
Proof. by intros params w. Qed.
Lemma demo_files all : @SonarFiles _ (demo_sonar all).
Proof. intros path r w w' [= <-]. cbn. by rewrite lookup_insert_eq. Qed.

Lemma fetch_complete_iff_witness :
  (exists fuel l w', @fetchSonarQubeIssues _ (demo_sonar demo_issues) fuel "p" "" "" ∅ = Some (Ok l, w') /\ demo_issues ⊆ items l) <->
  Z.of_nat (length demo_issues) <= 500.
Proof.
  apply (@fetch_complete_iff _ (demo_sonar demo_issues) demo_issues (demo_paged _) "p" "" "" ∅).
  - repeat (apply NoDup_cons; split; [set_solver|]). apply NoDup_nil. done.
  - cbn. lia.
Defined.

Lemma downloaded_report_parses_witness :
  exists issues, <["p" := Some demo_issues]> ∅ = <["p" := issues]> (∅ : gmap string slice) /\
    (@parseSonarqubeHandler _ (demo_sonar demo_issues) demo_args [("report_path", VStr "r.json")]
       (<["r.json" := RJson (slice_any (Some demo_issues))]> ∅)).1 =
    Ret (Ok (JsonText (VMap [("html_path", VStr "r.html");
      ("vulnerabilities", match items issues with [] => VNil
                          | l => VList (map (fun i => vuln_any (to_vulnerability i)) l) end)]))).
Proof.
  apply (@downloaded_report_parses _ (demo_sonar demo_issues) (demo_files _) demo_args 0
    [("report_id", VStr "p"); ("output_path", VStr "r.json")] [("report_path", VStr "r.json")] ∅ ∅
    (JsonText (VMap [("format", VStr "json"); ("path", VStr "r.json")])) _ _ "r.json"); reflexivity.
Defined.

(** A repository with one branch of each name, kept as files. *)
Definition demo_github : GithubHost (gmap (string * string * string) (gmap string string)) := {|
  gh_GetRef o n r w := (Ok {| gr_Object := Some (Some "abc") |}, w);
  gh_CreateRef o n r sha w := (None, w);
  gh_GetContents o n p b w := (Ok (match default ∅ (w !! (o, n, b)) !! p with Some c => Some c | None => None end), w);
  gh_UpdateFile o n p opts w :=
    if String.eqb p "" then (Err "no path", w)
    else (Ok (Some "def"), <[(o, n, fo_Branch opts) := <[p := fo_Content opts]> (default ∅ (w !! (o, n, fo_Branch opts)))]> w);
  gh_CreatePR o n pr w := (Ok 1, w);
  gh_MergePR o n k m method w := (None, w);
|}.
Program Definition demo_github_files : @GithubFiles _ demo_github :=
  {| gf_files w r := default ∅ (w !! r) |}.
Next Obligation. done. Qed.
Next Obligation.
  intros o n p opts w resp w' r. cbn. destruct (String.eqb p ""); [done|]. intros [= <- <-]. case_decide as Hr.
  - subst r. by rewrite lookup_insert_eq.
  - by rewrite lookup_insert_ne.
Qed.
Next Obligation. intros o n p opts w err w' r. cbn. destruct (String.eqb p ""); [|done]. by intros [= <- <-]. Qed.

Definition demo_change (p c : string) : any := VMap [("path", VStr p); ("content", VStr c); ("message", VStr "m")].
Definition demo_push : gomap :=
  [("repo", VStr "o/r"); ("branch", VStr "b"); ("changes", VList [demo_change "a" "1"; demo_change "b" "2"])].

Lemma commit_pushes_prefix_witness :
  exists n, @pushed _ demo_github demo_github_files ("o", "r", "b")
      (take n [{| fc_Path := "a"; fc_Content := "1"; fc_Message := "m" |}; {| fc_Path := "b"; fc_Content := "2"; fc_Message := "m" |}])
      ∅ (@commitAndPushHandler _ demo_github demo_args demo_push ∅).2 /\
    ((exists t, (@commitAndPushHandler _ demo_github demo_args demo_push ∅).1 = Ret (Ok t)) <-> (2 <= n)%nat).
Proof.
  apply (@commit_pushes_prefix _ demo_github demo_github_files demo_args demo_push ∅ _ _ "o" "r"
    [demo_change "a" "1"; demo_change "b" "2"]); reflexivity.
Defined.
