(* ===== verification/MapRunner.v ===== *)
(** * The inline fan-out of a map node

    [MapRunner.runMap] of [pkg/core/pkg/engine/executor/map.go]: a goroutine
    per item of the source, a semaphore that bounds how many run at once, a
    slot per result and one variable for the first error, which is read and
    written without a lock.  The interleaving of the goroutines is a step
    relation; a call of the router is one step. *)

From S2P Require Export Executors Slots.
From stdpp Require Import relations.
From AAC_tactics Require Import AAC.
From AAC_tactics Require Instances.
Import Instances.Lists.

Local Open Scope string_scope.
Local Open Scope list_scope.

Section MapRunner.
Context {W : Type} (router : Router W) (plan : ExecutionPlan) (scope : scope_t).
Variable now : Z.

Definition concurrency : nat :=
  let c := s_Concurrency (p_NodeSpec plan) in if (c <=? 0)%Z then 5 else Z.to_nat c.

Definition inner_input (idx : nat) (it : any) : gomap := [("item", it); ("index", VInt (Z.of_nat idx))].
Definition inner_scope (idx : nat) (it : any) : scope_t := mset "item" (inner_input idx it) scope.

(** [None]: the node has no child, a nil specification the agent's executor
    reads.  The state of the plan is not set; no executor reads it. *)
Definition inner_plan (idx : nat) (it : any) : option ExecutionPlan :=
  match s_ChildNode (p_NodeSpec plan) with
  | None => None
  | Some child => Some
      {| p_PlanID := p_PlanID plan +:+ "-" +:+ Itoa (Z.of_nat idx); p_AgentFlowRunID := p_AgentFlowRunID plan;
         p_AgentFlowDefinitionID := ""; p_Namespace := ""; p_TaskID := ""; p_TaskType := TaskAgent;
         p_NodeID := p_NodeID plan +:+ "[" +:+ Itoa (Z.of_nat idx) +:+ "]"; p_State := TaskPending; p_RetryCount := 0;
         p_MaxRetries := 0; p_Input := Some (inner_input idx it); p_Result := None; p_NodeSpec := child;
         p_CreatedAt := now; p_FinishedAt := None |}
  end.

Definition run_item (idx : nat) (it : any) (w : W) : call (res TaskResult) * W :=
  match inner_plan idx it with
  | None => (Panic "nil pointer dereference", w)
  | Some p => RouterExecute router p (inner_scope idx it) w
  end.

(** What is stored in the slot of an item: a nil map is [VNil]. *)
Definition output_any (r : TaskResult) : any := match tr_Output r with Some m => VMap m | None => VNil end.

(** Goroutines by their index: those before the semaphore, those that hold it
    and have not called the router, those that found no first error and will
    write their own, those that ended. *)
Record MapState := {
  mp_waiting : list nat; mp_running : list nat; mp_writing : list (nat * string); mp_ended : list nat;
  mp_results : list any; mp_firstErr : option string; mp_world : W;
}.

Definition map_start (items : list any) (w : W) : MapState :=
  {| mp_waiting := seq 0 (length items); mp_running := []; mp_writing := []; mp_ended := [];
     mp_results := replicate (length items) VNil; mp_firstErr := None; mp_world := w |}.

Section Items.
Variable items : list any.

Inductive map_step : MapState -> MapState -> Prop :=
| MapAcquire a b run wr e rs fe w i :
    length run + length wr < concurrency ->
    map_step {| mp_waiting := a ++ i :: b; mp_running := run; mp_writing := wr; mp_ended := e; mp_results := rs; mp_firstErr := fe; mp_world := w |}
             {| mp_waiting := a ++ b; mp_running := run ++ [i]; mp_writing := wr; mp_ended := e; mp_results := rs; mp_firstErr := fe; mp_world := w |}
| MapResult a b wt wr e rs fe w w' i it r :
    items !! i = Some it -> run_item i it w = (Ret (Ok r), w') ->
    map_step {| mp_waiting := wt; mp_running := a ++ i :: b; mp_writing := wr; mp_ended := e; mp_results := rs; mp_firstErr := fe; mp_world := w |}
             {| mp_waiting := wt; mp_running := a ++ b; mp_writing := wr; mp_ended := e ++ [i]; mp_results := <[i := output_any r]> rs; mp_firstErr := fe; mp_world := w' |}
| MapFirst a b wt wr e rs w w' i it err :
    items !! i = Some it -> run_item i it w = (Ret (Err err), w') ->
    map_step {| mp_waiting := wt; mp_running := a ++ i :: b; mp_writing := wr; mp_ended := e; mp_results := rs; mp_firstErr := None; mp_world := w |}
             {| mp_waiting := wt; mp_running := a ++ b; mp_writing := wr ++ [(i, err)]; mp_ended := e; mp_results := rs; mp_firstErr := None; mp_world := w' |}
| MapLater a b wt wr e rs fe w w' i it err :
    items !! i = Some it -> run_item i it w = (Ret (Err err), w') ->
    map_step {| mp_waiting := wt; mp_running := a ++ i :: b; mp_writing := wr; mp_ended := e; mp_results := rs; mp_firstErr := Some fe; mp_world := w |}
             {| mp_waiting := wt; mp_running := a ++ b; mp_writing := wr; mp_ended := e ++ [i]; mp_results := rs; mp_firstErr := Some fe; mp_world := w' |}
| MapWrite a b wt run e rs fe w i err :
    map_step {| mp_waiting := wt; mp_running := run; mp_writing := a ++ (i, err) :: b; mp_ended := e; mp_results := rs; mp_firstErr := fe; mp_world := w |}
             {| mp_waiting := wt; mp_running := run; mp_writing := a ++ b; mp_ended := e ++ [i]; mp_results := rs; mp_firstErr := Some err; mp_world := w |}.

(** [wg.Wait] returns. *)
Definition map_finished (s : MapState) : Prop := mp_waiting s = [] /\ mp_running s = [] /\ mp_writing s = [].

(** What the function returns then, and the result it leaves in the plan. *)
Definition map_answer (s : MapState) : option string * TaskResult :=
  (mp_firstErr s, {| tr_Output := Some [("results", VList (mp_results s))]; tr_Error := "" |}).
End Items.

(** The source must be a list. *)
Definition map_items : res (list any) :=
  match mget "source" (default [] (p_Input plan)) with
  | Some (VList items) => Ok items
  | _ => Err "map source is not an array"
  end.
End MapRunner.

(** ** Every interleaving gives the same results *)

Section Facts.
Context {W : Type} (router : Router W) (plan : ExecutionPlan) (scope : scope_t).
Variable (now : Z) (items : list any).

(** What an item gives does not depend on what the others did before. *)
Variable outcome : nat -> res TaskResult.
Hypothesis item_outcome : forall i it w, items !! i = Some it -> (run_item router plan scope now i it w).1 = Ret (outcome i).

Let step := map_step router plan scope now items.

Definition slot_of (i : nat) : any := match outcome i with Ok r => output_any r | Err _ => VNil end.

Record map_inv (s : MapState (W := W)) : Prop := {
  mi_parts : mp_waiting s ++ mp_running s ++ map fst (mp_writing s) ++ mp_ended s ≡ₚ seq 0 (length items);
  mi_bound : length (mp_running s) + length (mp_writing s) <= concurrency plan;
  mi_length : length (mp_results s) = length items;
  mi_pending i : i ∈ mp_waiting s ++ mp_running s -> mp_results s !! i = Some VNil;
  mi_done i : i ∈ map fst (mp_writing s) ++ mp_ended s -> mp_results s !! i = Some (slot_of i);
  mi_writing i err : (i, err) ∈ mp_writing s -> outcome i = Err err;
  mi_err err : mp_firstErr s = Some err -> exists i, i < length items /\ outcome i = Err err;
  mi_ok : mp_firstErr s = None -> forall i, i ∈ mp_ended s -> is_ok (outcome i) = true;
}.

Lemma map_inv_start w : map_inv (map_start items w).
Proof.
  constructor; cbn; try done; try lia.
  - by rewrite !app_nil_r.
  - by rewrite length_replicate.
  - intros i. rewrite app_nil_r, elem_of_seq. intros Hi. apply lookup_replicate_2. lia.
  - by intros i ?%not_elem_of_nil.
  - by intros i err ?%not_elem_of_nil.
  - by intros _ i ?%not_elem_of_nil.
Qed.

Lemma outcome_of i it w r w' : items !! i = Some it -> run_item router plan scope now i it w = (Ret r, w') -> outcome i = r.
Proof. intros Hi E. pose proof (item_outcome i it w Hi) as Ho. rewrite E in Ho. by injection Ho. Qed.

(** Where the goroutines are after a step. *)
Lemma map_step_parts s s' : step s s' ->
  mp_waiting s' ++ mp_running s' ++ map fst (mp_writing s') ++ mp_ended s' ≡ₚ
  mp_waiting s ++ mp_running s ++ map fst (mp_writing s) ++ mp_ended s.
Proof. destruct 1; cbn [mp_waiting mp_running mp_writing mp_ended]; rewrite ?map_app; cbn [map fst]; by_parts. Qed.

Lemma map_inv_NoDup s : map_inv s -> NoDup (mp_waiting s ++ mp_running s ++ map fst (mp_writing s) ++ mp_ended s).
Proof. intros Hi. rewrite (mi_parts _ Hi). apply NoDup_seq. Qed.

Lemma map_inv_lt s i : map_inv s -> i ∈ mp_waiting s ++ mp_running s ++ map fst (mp_writing s) ++ mp_ended s -> i < length items.
Proof. intros Hi. rewrite (mi_parts _ Hi), elem_of_seq. lia. Qed.

Lemma map_inv_step s s' : map_inv s -> step s s' -> map_inv s'.
Proof.
  intros Hinv Hs. pose proof (map_step_parts _ _ Hs) as Hparts. rewrite (mi_parts _ Hinv) in Hparts.
  pose proof (map_inv_NoDup _ Hinv) as Hnd. pose proof (fun i => map_inv_lt _ i Hinv) as Hlt.
  destruct Hinv as [_ Hb Hl Hp Hd Hw He Ho].
  destruct Hs as [a b run wr e rs fe w i Hroom|a b wt wr e rs fe w w' i it r Hit Hrun|a b wt wr e rs w w' i it err Hit Hrun
    |a b wt wr e rs fe w w' i it err Hit Hrun|a b wt run e rs fe w i err];
    cbn [mp_waiting mp_running mp_writing mp_ended mp_results mp_firstErr] in *;
    try (apply (outcome_of _ _ _ _ _ Hit) in Hrun); try (assert (Hi : i < length items) by (apply Hlt; set_solver)).
  - constructor; cbn; [done|rewrite length_app; cbn; lia|done| |done|done|done|done].
    intros j Hj. apply Hp. set_solver.
  - assert (Hni : i ∉ wt ++ (a ++ b) ++ map fst wr ++ e).
    { assert (Hperm : wt ++ (a ++ i :: b) ++ map fst wr ++ e ≡ₚ i :: wt ++ (a ++ b) ++ map fst wr ++ e) by by_parts.
      rewrite Hperm in Hnd. by apply NoDup_cons in Hnd as [? _]. }
    constructor; cbn; [done|rewrite length_app in *; cbn in *; lia|by rewrite length_insert| | |done|done|].
    + intros j Hj. rewrite list_lookup_insert_ne by set_solver. apply Hp. set_solver.
    + intros j Hj. destruct (decide (i = j)) as [<-|Hne].
      * rewrite list_lookup_insert_eq by lia. unfold slot_of. by rewrite Hrun.
      * rewrite list_lookup_insert_ne by done. apply Hd. set_solver.
    + intros Hn j Hj. apply elem_of_app in Hj as [Hj| ->%list_elem_of_singleton]; [by apply Ho|by rewrite Hrun].
  - constructor; cbn; [done|rewrite !length_app in *; cbn in *; lia|done| | | |done|done].
    + intros j Hj. apply Hp. set_solver.
    + intros j Hj. destruct (decide (i = j)) as [<-|Hne]; [|apply Hd; rewrite map_app in Hj; set_solver].
      unfold slot_of. rewrite Hrun. apply Hp. set_solver.
    + intros j er Hj. apply elem_of_app in Hj as [Hj|Hj]; [by apply Hw|]. apply list_elem_of_singleton in Hj. by injection Hj as -> ->.
  - constructor; cbn; [done|rewrite !length_app in *; cbn in *; lia|done| | |done|done|done].
    + intros j Hj. apply Hp. set_solver.
    + intros j Hj. destruct (decide (i = j)) as [<-|Hne]; [|apply Hd; set_solver].
      unfold slot_of. rewrite Hrun. apply Hp. set_solver.
  - constructor; cbn; [done|rewrite !length_app in *; cbn in *; lia|done|done| | | |done].
    + intros j Hj. apply Hd. rewrite map_app in *. cbn. set_solver.
    + intros j er Hj. apply Hw. set_solver.
    + intros er [= <-]. exists i. split; [apply Hlt; rewrite map_app; cbn; set_solver|]. apply Hw. set_solver.
Qed.

(** What is left to do. *)
Definition map_work (s : MapState (W := W)) : nat := 3 * length (mp_waiting s) + 2 * length (mp_running s) + length (mp_writing s).

Lemma map_work_step s s' : step s s' -> map_work s' < map_work s.
Proof. destruct 1; unfold map_work; cbn [mp_waiting mp_running mp_writing]; rewrite !length_app; cbn [length]; lia. Qed.

Lemma concurrency_pos : 0 < concurrency plan.
Proof. unfold concurrency. destruct (Z.leb_spec (s_Concurrency (p_NodeSpec plan)) 0); lia. Qed.

Lemma map_progress s : map_inv s -> map_finished s \/ exists s', step s s'.
Proof.
  intros Hi. pose proof (fun i => map_inv_lt _ i Hi) as Hlt. destruct s as [wt run wr e rs fe w]. cbn in Hlt.
  destruct wr as [|[i err] wr]; [|right; eexists; apply (MapWrite _ _ _ _ _ [] wr)].
  destruct run as [|i run].
  - destruct wt as [|i wt]; [by left|]. right. eexists. apply (MapAcquire _ _ _ _ _ [] wt). cbn. apply concurrency_pos.
  - right. destruct (lookup_lt_is_Some_2 items i) as [it Hit]; [apply Hlt; set_solver|].
    pose proof (item_outcome i it w Hit) as Ho. destruct (run_item router plan scope now i it w) as [c w'] eqn:E. cbn in Ho. subst c.
    destruct (outcome i) as [r|err]; [eexists; by eapply (MapResult _ _ _ _ _ [] run)|].
    destruct fe as [fe|]; eexists; [by eapply (MapLater _ _ _ _ _ [] run)|by eapply (MapFirst _ _ _ _ _ [] run)].
Qed.

Lemma map_reaches_end s : map_inv s -> exists s', rtc step s s' /\ map_finished s'.
Proof.
  induction (Wf_nat.well_founded_ltof _ map_work s) as [s _ IH]. intros Hi. destruct (map_progress s Hi) as [Hf|[s' Hs]]; [by exists s|].
  destruct (IH s') as (s'' & Hr & Hf); [by apply map_work_step|by eapply map_inv_step|]. exists s''. split; [by eapply rtc_l|done].
Qed.

Lemma map_inv_reachable w s : rtc step (map_start items w) s -> map_inv s.
Proof.
  intros Hr. pose proof (map_inv_start w) as Hi. induction Hr as [|s1 s2 s3 Hs _ IH]; [done|]. apply IH. by eapply map_inv_step.
Qed.

(** The results do not depend on the interleaving; the error is one of those
    of the items, not always the first. *)
Lemma map_finished_results s : map_inv s -> map_finished s ->
  mp_results s = map slot_of (seq 0 (length items)) /\
  (mp_firstErr s = None <-> forall i, i < length items -> is_ok (outcome i) = true) /\
  (forall err, mp_firstErr s = Some err -> exists i, i < length items /\ outcome i = Err err).
Proof.
  intros Hi (Hw & Hr & Hwr). assert (He : forall i, i < length items -> i ∈ mp_ended s).
  { intros i Hlt. assert (Hin : i ∈ seq 0 (length items)) by (apply elem_of_seq; lia).
    rewrite <- (mi_parts _ Hi), Hw, Hr, Hwr in Hin. done. }
  split; [|split; [|apply (mi_err _ Hi)]].
  - apply list_eq. intros i. rewrite list_lookup_fmap. destruct (decide (i < length items)) as [Hlt|Hge].
    + rewrite lookup_seq_lt by done. apply (mi_done _ Hi). apply elem_of_app. right. by apply He.
    + rewrite !lookup_ge_None_2 by (rewrite ?(mi_length _ Hi), ?length_seq; lia). done.
  - split; [intros Hn i Hlt; by apply (mi_ok _ Hi Hn), He|]. intros Hall. destruct (mp_firstErr s) as [err|] eqn:E; [|done].
    destruct (mi_err _ Hi err E) as (i & Hlt & Ho). specialize (Hall i Hlt). by rewrite Ho in Hall.
Qed.

End Facts.

(** ** A run of two items, one at a time *)

Definition demo_spec : NodeSpec :=
  NodeSpecFromNode (mkNode "m" MapNode MapNode "" "" "" "" "" "" "" None None None
    (Some (mkNode "c" AgentNode AgentNode "" "" "" "" "" "" "" None None None None 0 None None "" None "" "" "" None None "" None))
    1 None None "" None "" "" "" None None "" None).
Definition demo_map : ExecutionPlan :=
  {| p_PlanID := "plan"; p_AgentFlowRunID := "run"; p_AgentFlowDefinitionID := ""; p_Namespace := "ns"; p_TaskID := "t";
     p_TaskType := TaskMap; p_NodeID := "m"; p_State := TaskPending; p_RetryCount := 0; p_MaxRetries := 0;
     p_Input := Some [("source", VList [VInt 7; VInt 8])]; p_Result := None; p_NodeSpec := demo_spec; p_CreatedAt := 0;
     p_FinishedAt := None |}.
Definition echo_router : Router nat := [(TaskAgent, fun p sc w => (Ret (Ok {| tr_Output := p_Input p; tr_Error := "" |}), S w))].
Definition echo (i : nat) : res TaskResult :=
  match [VInt 7; VInt 8] !! i with Some it => Ok {| tr_Output := Some (inner_input i it); tr_Error := "" |} | None => Err "" end.
Definition demo_end : MapState (W := nat) :=
  {| mp_waiting := []; mp_running := []; mp_writing := []; mp_ended := [1; 0];
     mp_results := [VMap (inner_input 0 (VInt 7)); VMap (inner_input 1 (VInt 8))]; mp_firstErr := None; mp_world := 2 |}.


(** The error that is returned need not be the first: a goroutine that found
    none writes its own over another's. *)
Lemma first_error_overwritten (router : Router nat) plan scope now items wt run e rs w i j ei ej :
  rtc (map_step router plan scope now items)
    {| mp_waiting := wt; mp_running := run; mp_writing := [(i, ei); (j, ej)]; mp_ended := e; mp_results := rs; mp_firstErr := None; mp_world := w |}
    {| mp_waiting := wt; mp_running := run; mp_writing := []; mp_ended := (e ++ [i]) ++ [j]; mp_results := rs; mp_firstErr := Some ej; mp_world := w |}.
Proof.
  eapply rtc_l; [apply (MapWrite _ _ _ _ _ [] [(j, ej)])|]. eapply rtc_l; [apply (MapWrite _ _ _ _ _ [] [])|]. done.
Qed.
