(* ===== verification/Startup.v ===== *)
(** * How services start, and what they report of themselves

    Which resource manager a process gets ([resourcemanager.go]), the start of
    the controller and the job manager ([cmd/pkg/controller.go],
    [cmd/pkg/jobmanager.go]), of a task manager with its heartbeats
    ([taskmanager.go], [heartbeat.go]) and of the wallet daemon
    ([wallet/pkg/walletmanager.go], [wallet/pkg/cmd/main.go]), and the end of
    the all-in-one process ([cmd/pkg/allinone.go]); the counters of
    task managers, job managers and executors ([taskmanager.go],
    [jobmaster.go], [executor/metrics.go]); and what other parts leave to
    libraries or have no callers for: the HTTP client that does not pay
    ([httpclient.go]), [Filter.Install] ([seccomp.go]) and the span identifiers
    of the sandbox manager ([sandboxmanager.go]). *)

From S2P Require Export Runtime Process AllInOne Wallet Signing TaskManagerFacts Seccomp Locks.
From Stdlib Require Import Ascii.

Local Open Scope string_scope.
Local Open Scope list_scope.
Local Open Scope Z_scope.

(** ** Resource managers *)

Section ResourceManagers.
Context {K S : Type}.

Inductive AnyRM := KubernetesRM (rm : K) (queue : bool) | StandaloneRM (rm : S).
Definition ProviderKubernetes : string := "kubernetes".

(** [kube] and [standalone] are what the constructors give. *)
Definition NewResourceManager (provider : string) (messager : bool) (kube : res K) (standalone : res S) : res AnyRM :=
  let local := match standalone with Ok rm => Ok (StandaloneRM rm) | Err err => Err err end in
  if String.eqb provider ProviderKubernetes
  then match kube with Err _ => local | Ok rm => Ok (KubernetesRM rm messager) end
  else local.

Definition AnyRM_Provider (rm : AnyRM) : string :=
  match rm with KubernetesRM _ _ => ProviderKubernetes | StandaloneRM _ => "standalone" end.

(** [Validate] of the manager is given. *)
Definition ValidateComponents (rm : option AnyRM) (validate : AnyRM -> option string) : list string :=
  match rm with
  | None => ["resource manager is nil"]
  | Some rm => match validate rm with Some err => [err] | None => [] end
  end.

(** A resource manager is there whenever the local one can be made, and it is
    the cluster's exactly when that was asked for and could be reached. *)
Lemma NewResourceManager_falls_back provider messager kube rm :
  exists r, NewResourceManager provider messager kube (Ok rm) = Ok r /\
    (AnyRM_Provider r = ProviderKubernetes <-> provider = ProviderKubernetes /\ is_ok kube = true).
Proof.
  unfold NewResourceManager. destruct (String.eqb_spec provider ProviderKubernetes) as [->|Hne]; [destruct kube as [k|err]|].
  - exists (KubernetesRM k messager). by split.
  - exists (StandaloneRM rm). split; [done|]. split; [done|by intros [_ [=]]].
  - exists (StandaloneRM rm). split; [done|]. split; [done|by intros [? _]].
Qed.
End ResourceManagers.
Arguments AnyRM : clear implicits.

(** ** The controller *)

Record ControllerSetup := {
  ct_Mode : string; ct_Level : string; ct_Namespace : string; ct_PoolSize : Z;
  ct_Discovery : bool (* of the cluster *) * option StaticDiscoveryClient;
}.

(** The settings of the process; [cluster] tells whether the cluster's API can
    be used.  The scheduler is the local one in any case. *)
Definition controller_setup (mode level default_ns podName : string) (now podTotal podIndex maxFlows : Z) (cluster : bool)
    : ControllerSetup :=
  {| ct_Mode := mode; ct_Level := level; ct_Namespace := if String.eqb default_ns "" then "default" else default_ns;
     ct_PoolSize := maxFlows;
     ct_Discovery := if cluster then (true, None) else (false, Some (NewStaticDiscoveryClient podName now podTotal podIndex)) |}.

Definition startController (load : res unit) (rm : res unit) (run : option string) : option string :=
  match load with
  | Err err => Some ("load config: " +:+ err)
  | Ok _ =>
      match rm with
      | Err err => Some ("create resource manager: " +:+ err)
      | Ok _ => match run with Some err => Some ("controller run: " +:+ err) | None => None end
      end
  end.

(** Without a cluster every replica discovers itself: with one replica it owns
    each flow. *)
Lemma lone_controller_owns mode level ns podName now maxFlows c flowID :
  podName = "" ->
  (controller_setup mode level ns podName now 1 0 maxFlows false).(ct_Discovery) = (false, Some c) ->
  ownsFlow (sd_self c) (sd_peers c) flowID = true.
Proof. intros -> [= <-]. reflexivity. Qed.

(** ** The job manager *)

Section JobManagerProcess.
Context {K S : Type}.

(** [NewJobManager] *)
Definition NewJobManager (rm : AnyRM K S) (validate : AnyRM K S -> option string) (cfg : Runtime.JobManagerConfig)
    : res (AnyRM K S * Runtime.JobManagerConfig) :=
  match ValidateComponents (Some rm) validate with
  | err :: _ => Err err
  | [] => Ok (rm, cfg)
  end.

(** The manager of a job manager's process; the local one can always be
    made. *)
Definition process_rm (in_cluster : bool) (kube : res K) (standalone : S) : AnyRM K S :=
  let local := StandaloneRM standalone in
  if in_cluster
  then match NewResourceManager ProviderKubernetes true kube (Ok standalone) with Ok rm => rm | Err _ => local end
  else local.

(** The lock of the runs; [pg] is the error of connecting. *)
Definition run_lock (s : JMSettings) (pg : option string) : res LockKind :=
  let? c := newRunLock (js_LockProvider s) (postgresDSNFromConfig (js_Postgres s)) in
  NewLock (lk_Type c) false pg None.

Record JobManagerProcess := {
  jp_rm : AnyRM K S; jp_cfg : Runtime.JobManagerConfig; jp_lock : LockKind; jp_flows : gmap string FlowInfo;
}.

(** [startJobManager] up to the start of the poller: [versions] is what the
    API server lists, [None] when it cannot. *)
Definition startJobManager (load : res JMSettings) (parse_duration : string -> option Z) (in_cluster : bool) (kube : res K)
    (standalone : S) (validate : AnyRM K S -> option string) (pg : option string) (versions : option (list FlowVersionInfo))
    : res JobManagerProcess :=
  match load with
  | Err err => Err ("load config: " +:+ err)
  | Ok s =>
      match NewJobManager (process_rm in_cluster kube standalone) validate (newJobManagerConfig parse_duration s) with
      | Err err => Err ("create jobmanager: " +:+ err)
      | Ok (rm, cfg) =>
          match run_lock s pg with
          | Err err => Err ("create jobmanager run lock: " +:+ err)
          | Ok kind =>
              let own := js_AgentFlowID s in
              Ok {| jp_rm := rm; jp_cfg := cfg; jp_lock := kind;
                    jp_flows := if String.eqb own "" then ∅
                                else match versions with
                                     | Some vs => match load_own_flow own vs with Some f => {[own := f]} | None => ∅ end
                                     | None => ∅
                                     end |}
          end
      end
  end.

(** The settings name redis among the locks; with it no job manager starts. *)
Lemma redis_lock_never_starts s pg : ToLower (js_LockProvider s) = "redis" ->
  run_lock s pg = Err "redis client required for redis lock".
Proof. intros E. unfold run_lock, newRunLock. by rewrite E. Qed.

(** A job manager that starts has a lock of memory, whatever the number of its
    replicas, or of a PostgreSQL server it could connect to. *)
Lemma started_lock s pg kind : run_lock s pg = Ok kind ->
  kind = MemoryKind /\ (ToLower (js_LockProvider s) = "" \/ ToLower (js_LockProvider s) = "memory") \/
  kind = PostgresKind /\ pg = None /\ postgresDSNFromConfig (js_Postgres s) <> "".
Proof.
  unfold run_lock, newRunLock. generalize (ToLower (js_LockProvider s)) (postgresDSNFromConfig (js_Postgres s)). intros p dsn.
  destruct (String.eqb_spec p "") as [->|]; cbn [orb]; [intros [= <-]; by left; split; [|left]|].
  destruct (String.eqb_spec p "memory") as [->|]; cbn [orb]; [intros [= <-]; by left; split; [|right]|].
  destruct (String.eqb p "postgres" || String.eqb p "postgresql" || String.eqb p "postgre") eqn:Ep.
  - destruct (String.eqb_spec dsn ""); [done|]. cbn. destruct pg; [done|]. intros [= <-]. by right.
  - cbn [res_bind lk_Type]. unfold NewLock. destruct (String.eqb_spec p "memory"); [done|]. destruct (String.eqb_spec p ""); [done|].
    cbn [orb]. apply orb_false_iff in Ep as [[-> _]%orb_false_iff _]. by destruct (String.eqb p "redis").
Qed.

(** It starts exactly when the settings are read, its resource manager is
    valid and there is a lock. *)
Lemma startJobManager_ok_iff load pd in_cluster kube standalone validate pg versions :
  is_ok (startJobManager load pd in_cluster kube standalone validate pg versions) = true <->
  exists s, load = Ok s /\ validate (process_rm in_cluster kube standalone) = None /\ is_ok (run_lock s pg) = true.
Proof.
  unfold startJobManager, NewJobManager, ValidateComponents. destruct load as [s|err]; [|split; [done|by intros (s & [=] & _)]].
  destruct (validate _) as [err|] eqn:Ev; cbn; [split; [done|by intros (s' & [= <-] & [=] & _)]|].
  destruct (run_lock s pg) as [kind|err] eqn:El; cbn; split; try done.
  - intros _. exists s. by rewrite El.
  - intros (s' & [= <-] & _ & Hok). by rewrite El in Hok.
Qed.
End JobManagerProcess.

(** ** The all-in-one process: its publisher and its end *)

(** The options of the client that publishes to the broker, in nanoseconds. *)
Record MQTTOptions := {
  mo_Broker : string; mo_ClientID : string; mo_Username : option string; mo_Password : option string;
  mo_CleanSession : bool; mo_KeepAlive : Z; mo_PingTimeout : Z; mo_ConnectTimeout : Z; mo_AutoReconnect : bool;
  mo_MaxReconnectInterval : Z;
}.
Definition set_text (s : string) : option string := if String.eqb s "" then None else Some s.
Definition raw_options (broker clientID username password : string) : MQTTOptions :=
  {| mo_Broker := broker; mo_ClientID := clientID; mo_Username := set_text username; mo_Password := set_text password;
     mo_CleanSession := true; mo_KeepAlive := 30000000000; mo_PingTimeout := 10000000000; mo_ConnectTimeout := 10000000000;
     mo_AutoReconnect := true; mo_MaxReconnectInterval := 30000000000 |}.

(** What a token of the client says within a time: nothing, or that it is
    done, with an error or without. *)
Inductive Token := Pending | Done (err : option string).

Definition newRawMQTTPublisher (connect : MQTTOptions -> Token) (broker clientID username password : string) : option MQTTOptions :=
  if String.eqb broker "" then None
  else
    let opts := raw_options broker clientID username password in
    match connect opts with
    | Pending => None
    | Done (Some _) => None
    | Done None => Some opts
    end.

(** [rawMQTTPublisher.Publish] *)
Definition aio_Publish (t : Token) : option string :=
  match t with Pending => Some "mqtt publish timeout" | Done err => err end.

(** Events are published exactly when the settings name a broker and it
    answered when the process started: later it is not tried again. *)
Lemma has_publisher_iff connect cfg host username password :
  let opts := raw_options (ai_Broker cfg) (uniqueRawMQTTClientID host (ai_ClientID cfg)) username password in
  has_publisher (match connect opts with Done None => true | _ => false end) cfg = true <->
  ai_MessagerType cfg = "mqtt" /\
  newRawMQTTPublisher connect (ai_Broker cfg) (uniqueRawMQTTClientID host (ai_ClientID cfg)) username password = Some opts.
Proof.
  cbn zeta. unfold has_publisher, newRawMQTTPublisher.
  destruct (String.eqb_spec (ai_MessagerType cfg) "mqtt"), (String.eqb (ai_Broker cfg) ""); cbn [andb negb];
    try destruct (connect (raw_options _ _ _ _)) as [|[err|]]; split; try done; by intros [].
Qed.

(** [waitForShutdown]: what is ended, in order, the HTTP servers within a
    limit; the notifier is always there. *)
Inductive ShutdownStep := EndREST (limit : Z) | EndA2A (limit : Z) | ClosePprof | EndNotifier.
Definition waitForShutdown (cfg : AIOSettings) : list ShutdownStep :=
  EndREST (shutdown_limit cfg) ::
  (if ai_A2AEnabled cfg then [EndA2A (shutdown_limit cfg)] else []) ++
  (if bool_decide (is_Some (startPprof cfg)) then [ClosePprof] else []) ++ [EndNotifier].

(** Whatever was started is ended. *)
Lemma all_ended cfg :
  (EndA2A (shutdown_limit cfg) ∈ waitForShutdown cfg <-> ai_A2AEnabled cfg = true) /\
  (ClosePprof ∈ waitForShutdown cfg <-> ai_MgmtEnabled cfg = true /\ ai_PProfEnabled cfg = true) /\
  last (waitForShutdown cfg) = Some EndNotifier.
Proof.
  unfold waitForShutdown, a2a_server, startPprof.
  destruct (ai_A2AEnabled cfg), (ai_MgmtEnabled cfg), (ai_PProfEnabled cfg); cbn; split_and!; try done; set_solver.
Qed.

(** *** The A2A component *)

(** It waits for a signal when it is disabled; [serve] is the server's end. *)
Definition startA2AService (load : res bool) (serve : option string) : option string :=
  match load with
  | Err err => Some ("load config: " +:+ err)
  | Ok enabled => if enabled then serve else None
  end.

(** The card of the server in the all-in-one process. *)
Definition aio_card (cfg : AIOSettings) : list (string * string) :=
  [("name", ai_ServiceName cfg); ("description", "Flowgent orchestration engine");
   ("url", "http://" +:+ host_port (ai_A2AHost cfg) (ai_A2APort cfg)); ("version", "dev")].

(** ** The client that does not pay ([httpclient.go]) *)

Section GenericClient.
Context {D S : Type} `{Decimal D} `{!SpendingStore D S}.

(** [send] is the library's client, [new_request] what it says of a URL. *)
Definition with_headers (headers : list (string * string)) (req : X402.Request) : X402.Request :=
  fold_left (fun r kv => set_header kv.1 kv.2 r) headers req.
Definition Generic_Get (new_request : string -> option string) (send : X402.Request -> res X402.Response) (url host : string)
    (headers : list (string * string)) : res X402.Response :=
  match new_request url with
  | Some err => Err err
  | None => send (with_headers headers {| rq_Method := "GET"; rq_URL := url; rq_Host := host; rq_Body := ""; rq_Header := [] |})
  end.
Definition Generic_Post (new_request : string -> option string) (send : X402.Request -> res X402.Response) (url host body : string)
    (headers : list (string * string)) : res X402.Response :=
  match new_request url with
  | Some err => Err err
  | None => send (with_headers headers {| rq_Method := "POST"; rq_URL := url; rq_Host := host; rq_Body := body;
                                          rq_Header := [("Content-Type", "application/json")] |})
  end.

(** Where nothing is to be paid, the paying client answers as this one, and
    spends nothing. *)
Lemma Do_free env id now req (c : X402Client S) resp :
  x_send env [] req = Ok resp -> IsX402Response resp = false ->
  (Do (D := D) env id now req (start c)).1 = Ok resp /\ xs_client (Do (D := D) env id now req (start c)).2 = c.
Proof.
  intros Hs Hf. unfold Do, xfail, xcall, xbind, start. cbn. rewrite Hs. cbn. by rewrite Hf.
Qed.

Lemma X402_is_generic env id now url host body headers (c : X402Client S) resp :
  IsX402Response resp = false ->
  (Generic_Get (x_newRequest env) (x_send env []) url host headers = Ok resp ->
   (X402Get (D := D) env id now url host headers (start c)).1 = Ok resp) /\
  (Generic_Post (x_newRequest env) (x_send env []) url host body headers = Ok resp ->
   (X402Post (D := D) env id now url host body headers (start c)).1 = Ok resp).
Proof.
  intros Hf. unfold Generic_Get, Generic_Post, X402Get, X402Post.
  destruct (x_newRequest env url); [done|]. split; intros Hs; by apply Do_free.
Qed.
End GenericClient.

(** ** Task managers *)

(** A task manager that was made: its slots and its embedded sandbox manager;
    whether it was stopped. *)
Record TaskManagerHandle := { th_ID : string; th_slots : list string; th_embedded : option string; th_stopped : bool }.

(** [NewTaskManager]; [deployed]: sandboxes are deployments of their own;
    [messager]: there is one for them. *)
Definition with_id (id : string) (cfg : TaskManagerConfig) : TaskManagerConfig :=
  {| tc_ID := id; tc_SlotCount := tc_SlotCount cfg; tc_Namespace := tc_Namespace cfg;
     tc_SandboxPolicy := tc_SandboxPolicy cfg; tc_SandboxWorkspace := tc_SandboxWorkspace cfg |}.
Definition NewTaskManager (now : Z) (deployed messager : bool) (cfg : TaskManagerConfig) : TaskManagerHandle :=
  let id := if String.eqb (tc_ID cfg) "" then "tm-" +:+ Itoa now else tc_ID cfg in
  {| th_ID := id; th_slots := slot_ids (with_id id cfg);
     th_embedded := if negb deployed && messager then Some (id +:+ "-sb") else None; th_stopped := false |}.

(** [Stop], and whether it closes the channel: closing it twice would panic. *)
Definition tm_Stop (tm : TaskManagerHandle) : TaskManagerHandle * bool :=
  ({| th_ID := th_ID tm; th_slots := th_slots tm; th_embedded := th_embedded tm; th_stopped := true |}, negb (th_stopped tm)).

Lemma tm_Stop_twice tm : th_stopped tm = false -> (tm_Stop tm).2 = true /\ (tm_Stop (tm_Stop tm).1).2 = false.
Proof. intros E. unfold tm_Stop. cbn. by rewrite E. Qed.

(** A task manager always has a slot, and each its own name. *)
Lemma tm_slots now deployed messager cfg :
  let tm := NewTaskManager now deployed messager cfg in
  th_ID tm <> "" /\ Z.of_nat (length (th_slots tm)) = slot_count cfg /\ 0 < slot_count cfg /\ NoDup (th_slots tm).
Proof.
  cbn zeta. unfold NewTaskManager. cbn [th_ID th_slots].
  assert (Hc : 0 < slot_count cfg) by (unfold slot_count; destruct (Z.leb_spec (tc_SlotCount cfg) 0); lia).
  split; [destruct (String.eqb_spec (tc_ID cfg) ""); [by intros [=]|done]|].
  unfold slot_ids. change (slot_count (with_id ?i cfg)) with (slot_count cfg).
  split; [rewrite length_map, length_seq; lia|]. split; [done|].
  apply NoDup_fmap_2; [|apply NoDup_seq]. intros i j E. apply append_inj_l in E. apply append_inj_l in E.
  apply Itoa_inj in E. lia.
Qed.

(** *** Heartbeats *)

Definition defaultHeartbeatInterval : Z := 5 * second.
Definition heartbeat_interval (interval : Z) : Z := if interval <=? 0 then defaultHeartbeatInterval else interval.

(** What a tick publishes: the topic, and the identifier and the time of the
    payload (its load and its capacity are those of an empty record). *)
Definition heartbeat (tmID : string) (now : Z) : string * (string * Z) := (HeartbeatTopic tmID, (tmID, now)).

(** The monitor's handler; [None] is a payload that is no heartbeat. *)
Definition on_heartbeat (payload : option (string * Z)) (hm : HeartbeatMonitor) : HeartbeatMonitor :=
  match payload with None => hm | Some (tmID, timestamp) => recordBeat tmID timestamp hm end.
Definition sweep_interval (hm : HeartbeatMonitor) : Z := Z.quot (hm_leaseTimeout hm) 2.

Lemma heartbeat_routed tmID now :
  level tmID = true -> topicMatch HeartbeatWildcard (splitTopic (heartbeat tmID now).1) = true.
Proof.
  intros Hl. unfold topicMatch, heartbeat, HeartbeatTopic, TopicPrefix. cbn [fst].
  change (splitTopic ("flowgent/v1" +:+ "/heartbeat/" +:+ tmID))
    with (split_slash ("flowgent" +:+ "/" +:+ "v1" +:+ "/" +:+ "heartbeat" +:+ "/" +:+ tmID)).
  rewrite !split_slash_append, split_slash_level by done. reflexivity.
Qed.

(** With the defaults a task manager is held alive as long as one of its last
    three heartbeats arrived; after three that are lost it is not. *)
Lemma lost_heartbeats `{RangeOrder} id evs ts now :
  (forall t, Sweep t ∈ evs -> t <= now) -> last_beat id evs = Some ts ->
  exists s, hm_activeTMs (hb_run (evs ++ [Sweep now]) (NewHeartbeatMonitor 0)) !! id = Some s /\
    (ts_IsAlive s = true <-> now <= ts + 3 * heartbeat_interval 0).
Proof.
  intros Hle Hl. pose proof (heartbeat_liveness 0 evs now Hle id) as Hh. cbn zeta in Hh. rewrite Hl in Hh.
  destruct Hh as (s & Hs & _ & Ha & _). exists s. split; [exact Hs|]. rewrite Ha.
  destruct (hb_inv_run 0 (evs ++ [Sweep now])) as (Hlease & _). rewrite Hlease.
  change (hm_leaseTimeout (NewHeartbeatMonitor 0)) with (15 * second). change (heartbeat_interval 0) with (5 * second). lia.
Qed.

(** ** The wallet daemon *)

Inductive WalletStep :=
| WSubscribe (clientID topic : string)
| WServe (addr : string)
| WShutdown (limit : Z)
| WCloseMessager
| WCloseDB.

(** [loadConfig]: without a path there are no settings. *)
Definition wallet_loadConfig (path : string) (load : res WalletConfig) : res (option WalletConfig) :=
  if String.eqb path "" then Ok None
  else match load with Ok c => Ok (Some c) | Err err => Err ("load config: " +:+ err) end.

Definition NewFlowgentWalletManager {St} (path : string) (load : res WalletConfig) (create : storeConfig -> res St)
    : res (option WalletConfig * FlowgentWalletManager St) :=
  match wallet_loadConfig path load with
  | Err err => Err err
  | Ok cfg =>
      let sc := resolveStoreConfig cfg in
      match create sc with
      | Err err => Err ("create secret store: " +:+ err)
      | Ok st => Ok (cfg, {| wm_providerName := sc_provider sc; wm_secretStore := st |})
      end
  end.

(** [Start], to the signal that ends it: what it answers, and its steps in
    order, the deferred ones at the end. *)
Definition wallet_Start (cfg : option WalletConfig) (db : bool) (listenAddr : string) (subscribe shutdown : option string)
    : option string * list WalletStep :=
  let close := if db then [WCloseDB] else [] in
  let serve := [WServe listenAddr; WShutdown 5000000000] in
  if String.eqb (mqttBroker cfg) "" then (shutdown, serve ++ close)
  else
    let sub := WSubscribe ("wallet-" +:+ listenAddr) SharedSignRequest in
    match subscribe with
    | Some err => (Some ("wallet MQTT sign subscription failed: " +:+ err), sub :: close)
    | None => (shutdown, sub :: serve ++ [WCloseMessager] ++ close)
    end.

(** The daemon serves signatures over HTTP before or without MQTT only when no
    broker is set: with a broker it subscribes first, and a failure ends it. *)
Lemma wallet_Start_subscribes cfg db addr subscribe shutdown :
  WServe addr ∈ (wallet_Start cfg db addr subscribe shutdown).2 <-> mqttBroker cfg = "" \/ subscribe = None.
Proof.
  unfold wallet_Start. destruct (String.eqb_spec (mqttBroker cfg) "") as [E|E].
  - split; [by left|]. intros _. cbn. set_solver.
  - destruct subscribe as [err|]; cbn; split; try set_solver.
    + destruct db; cbn; intros Hin; repeat (apply elem_of_cons in Hin as [?|Hin]; [done|]); by apply not_elem_of_nil in Hin.
Qed.
Lemma wallet_Start_closes_db cfg addr subscribe shutdown :
  last (wallet_Start cfg true addr subscribe shutdown).2 = Some WCloseDB.
Proof. unfold wallet_Start. destruct (String.eqb _ _); [done|]. by destruct subscribe. Qed.

(** *** [generate-key] *)

Definition bytes_of (s : string) : list Z := map (fun c => Z.of_N (N_of_ascii c)) (String.list_ascii_of_string s).
Definition encodeKey (key enc : string) : string :=
  if String.eqb enc "base64" then b64_encode (bytes_of key) else hex_encode key.

(** What is printed: a JSON object, or two lines. *)
Definition runWalletGenKey (generated : res (string * string)) (format encoding : string) : res string :=
  match generated with
  | Err err => Err ("key generation failed: " +:+ err)
  | Ok (pub, priv) =>
      let pubStr := encodeKey pub encoding in
      let privStr := encodeKey priv encoding in
      Ok (if String.eqb format "json"
          then MarshalIndent "" (VMap [("public_key", VStr pubStr); ("private_key", VStr privStr)]) +:+ newline
          else "Public key:  " +:+ pubStr +:+ newline +:+ "Private key: " +:+ privStr +:+ newline)
  end.

(** A private key that is printed in hexadecimal is one the daemon imports. *)
Lemma generated_key_imports priv generated : String.length priv = PrivateKeySize -> priv <> "" ->
  (requested_key (encodeKey priv "hex") generated).1 = Ok priv.
Proof.
  intros Hlen Hne. change (encodeKey priv "hex") with (hex_encode priv). unfold requested_key.
  destruct (String.eqb_spec (hex_encode priv) "") as [E|_].
  { exfalso. apply Hne. apply hex_encode_inj. by rewrite E. }
  by rewrite hex_round_trip, Hlen, Nat.eqb_refl.
Qed.

(** ** Counters *)

(** An addition to an instrument, with its attributes. *)
Record Measure := { ms_name : string; ms_attrs : list (string * string); ms_value : Z }.
Fixpoint total (name : string) (l : list Measure) : Z :=
  match l with
  | [] => 0
  | m :: l => if String.eqb (ms_name m) name then ms_value m + total name l else total name l
  end.

Lemma total_app name l l' : total name (l ++ l') = total name l + total name l'.
Proof. induction l as [|m l IH]; [done|]. cbn [app total]. destruct (String.eqb _ _); lia. Qed.

(** *** Task managers *)

Definition slots_busy : string := "flowgent.tm.slots.busy".
Definition taskTypeAttr (t : TaskType) : string * string := ("task_type", TaskType_string t).

(** Around a plan of a slot worker; durations are milliseconds. *)
Definition worker_begins : list Measure := [{| ms_name := slots_busy; ms_attrs := []; ms_value := 1 |}].
Definition worker_ends (t : TaskType) (millis : Z) : list Measure :=
  [{| ms_name := "flowgent.tm.tasks.duration"; ms_attrs := []; ms_value := millis |};
   {| ms_name := slots_busy; ms_attrs := []; ms_value := -1 |};
   {| ms_name := "flowgent.tm.tasks.executed"; ms_attrs := [taskTypeAttr t]; ms_value := 1 |}].

(** Workers of a task manager: a payload that is no plan leaves no trace. *)
Inductive WorkerEvent := PlanBegins | PlanEnds (t : TaskType) (millis : Z) | NoPlan.
Definition measures (e : WorkerEvent) : list Measure :=
  match e with PlanBegins => worker_begins | PlanEnds t ms => worker_ends t ms | NoPlan => [] end.
Definition count (p : WorkerEvent -> bool) (l : list WorkerEvent) : Z := Z.of_nat (length (List.filter p l)).
Definition plan_begins (e : WorkerEvent) : bool := match e with PlanBegins => true | _ => false end.
Definition plan_ends (e : WorkerEvent) : bool := match e with PlanEnds _ _ => true | _ => false end.

(** The gauge of busy slots is the number of plans that are being executed,
    the counter of tasks that of the plans that were. *)
Lemma busy_gauge l :
  total slots_busy (concat (map measures l)) = count plan_begins l - count plan_ends l /\
  total "flowgent.tm.tasks.executed" (concat (map measures l)) = count plan_ends l.
Proof.
  unfold count. induction l as [|e l [IH1 IH2]]; [done|]. cbn [map concat]. rewrite !total_app, IH1, IH2.
  destruct e; cbn -[Z.of_nat]; rewrite ?Nat2Z.inj_succ; split; lia.
Qed.

(** *** Job managers (which nothing calls) *)

Definition flow_attr (flow : string) : string * string := ("agentflow_id", flow).
Definition run_measures (flow status : string) (active : Z) : list Measure :=
  [{| ms_name := "flowgent.jm.runs.total"; ms_attrs := [flow_attr flow; ("status", status)]; ms_value := 1 |};
   {| ms_name := "flowgent.jm.runs.active"; ms_attrs := []; ms_value := active |}].
Definition RecordRunStarted (flow : string) : list Measure := run_measures flow "RUNNING" 1.
Definition RecordRunCompleted (flow status : string) : list Measure := run_measures flow status (-1).
Definition RecordPlanDispatched (flow : string) : list Measure :=
  [{| ms_name := "flowgent.jm.plans.dispatched"; ms_attrs := [flow_attr flow]; ms_value := 1 |}].
Definition RecordPlanCompleted (flow status : string) : list Measure :=
  [{| ms_name := "flowgent.jm.plans.completed"; ms_attrs := [flow_attr flow; ("status", status)]; ms_value := 1 |}].
Definition RecordFailover (tmID : string) : list Measure :=
  [{| ms_name := "flowgent.jm.failover.events"; ms_attrs := [("tm_id", tmID)]; ms_value := 1 |}].
Definition RecordDAGBuild (flow : string) (millis : Z) : list Measure :=
  [{| ms_name := "flowgent.jm.dag.build.duration"; ms_attrs := [flow_attr flow]; ms_value := millis |}].

(** A run that has ended counts twice in the total. *)
Lemma ended_run_counts_twice flow status :
  total "flowgent.jm.runs.total" (RecordRunStarted flow ++ RecordRunCompleted flow status) = 2 /\
  total "flowgent.jm.runs.active" (RecordRunStarted flow ++ RecordRunCompleted flow status) = 0.
Proof. done. Qed.

(** *** Executors (which nothing calls) *)

Definition RecordTask (taskType status : string) (millis : Z) : list Measure :=
  [{| ms_name := "flowgent.exec.tasks.total"; ms_attrs := [("task_type", taskType); ("status", status)]; ms_value := 1 |};
   {| ms_name := "flowgent.exec.tasks.duration"; ms_attrs := [("task_type", taskType)]; ms_value := millis |}].
Definition RecordLLMCall (taskType model : string) (millis tokensIn tokensOut : Z) : list Measure :=
  let attrs := [("task_type", taskType); ("model", model)] in
  let tokens n dir := if 0 <? n then [{| ms_name := "flowgent.exec.llm.tokens"; ms_attrs := attrs ++ [("direction", dir)]; ms_value := n |}]
                      else [] in
  [{| ms_name := "flowgent.exec.llm.calls"; ms_attrs := attrs; ms_value := 1 |};
   {| ms_name := "flowgent.exec.llm.latency"; ms_attrs := attrs; ms_value := millis |}] ++
  tokens tokensIn "input" ++ tokens tokensOut "output".

(** The counter of tokens never goes down. *)
Lemma tokens_counted taskType model millis tin tout :
  total "flowgent.exec.llm.tokens" (RecordLLMCall taskType model millis tin tout) = Z.max 0 tin + Z.max 0 tout.
Proof. unfold RecordLLMCall. destruct (Z.ltb_spec 0 tin), (Z.ltb_spec 0 tout); cbn; lia. Qed.

(** ** Installing a filter in the own process ([Filter.Install]) *)

Definition seccompFilterTSync : Z := 1.
Definition seccompFilterNotif : Z := 8.

(** [prctl] and [seccomp] are the answers of the kernel, the second to the
    flags and the program; the result is the notifier's descriptor, or -1. *)
Definition Install (f : option Seccomp.Filter) (prctl : option string) (seccomp : Z -> list SockFilter -> res Z) : res Z :=
  match f with
  | None => Ok (-1)
  | Some f =>
      match fl_fprog f with
      | [] => Ok (-1)
      | prog =>
          match prctl with
          | Some err => Err ("seccomp no_new_privs: " +:+ err)
          | None =>
              let flags := if NeedsNotifier f then seccompFilterNotif else seccompFilterTSync in
              match seccomp flags prog with
              | Err err => Err ("seccomp: " +:+ err)
              | Ok fd => if NeedsNotifier f then Ok fd else Ok (-1)
              end
          end
      end
  end.

(** A descriptor comes of a list of addresses and of nothing else. *)
Lemma Install_descriptor f prctl seccomp fd : Install f prctl seccomp = Ok fd -> fd <> -1 ->
  exists f', f = Some f' /\ NeedsNotifier f' = true /\ seccomp seccompFilterNotif (fl_fprog f') = Ok fd.
Proof.
  unfold Install. destruct f as [f|]; [|by intros [= <-]]. destruct (fl_fprog f) as [|i prog] eqn:Ep; [by intros [= <-]|].
  destruct prctl; [done|]. destruct (NeedsNotifier f) eqn:En.
  - intros Hs _. exists f. rewrite Ep. split_and!; [done|done|]. destruct (seccomp seccompFilterNotif (i :: prog)); congruence.
  - destruct (seccomp seccompFilterTSync (i :: prog)); [|done]. by intros [= <-].
Qed.

(** ** Span identifiers *)

(** [randRead] fills eight bytes from the clock, the lowest first. *)
Definition clock_byte (t : Z) (i : nat) : Z := wrap_u 8 (Z.shiftr t (Z.of_nat i * 8)).
Definition randRead (t : Z) : list Z := map (clock_byte t) (seq 0 8).

Definition hex_digits : string := "0123456789abcdef".
Definition hex_char (v : Z) : string :=
  match String.get (Z.to_nat v) hex_digits with Some c => String c "" | None => "" end.
Fixpoint hexEncodeToString (b : list Z) : string :=
  match b with
  | [] => ""
  | v :: b => hex_char (Z.shiftr v 4) +:+ hex_char (Z.land v 15) +:+ hexEncodeToString b
  end.
Definition sb_newSpanID (now : Z) : string := hexEncodeToString (randRead now).

Definition cpuToDocker (cpu : string) : string :=
  if String.eqb cpu "" then "1.0" else TrimSuffix cpu "m" +:+ "m".

Lemma clock_byte_eq t i : clock_byte t i = (t / 256 ^ Z.of_nat i) mod 256.
Proof.
  unfold clock_byte, wrap_u. rewrite Z.shiftr_div_pow2 by lia. rewrite Z.mul_comm, Z.pow_mul_r by lia. done.
Qed.

(** The bytes say the clock. *)
Lemma bytes_determine (n : nat) : forall a b,
  (forall i, (i < n)%nat -> clock_byte a i = clock_byte b i) -> a mod 256 ^ Z.of_nat n = b mod 256 ^ Z.of_nat n.
Proof.
  induction n as [|n IH]; intros a b Hi; [by rewrite !Z.mod_1_r|].
  rewrite Nat2Z.inj_succ, Z.pow_succ_r by lia. rewrite !Z.rem_mul_r by lia.
  pose proof (Hi 0%nat ltac:(lia)) as H0. rewrite !clock_byte_eq in H0. cbn in H0. rewrite !Z.div_1_r in H0. rewrite H0. f_equal. f_equal.
  apply IH. intros i Hlt. specialize (Hi (S i) ltac:(lia)). rewrite !clock_byte_eq in *.
  rewrite !Nat2Z.inj_succ, !Z.pow_succ_r in Hi by lia. by rewrite !Z.div_div by lia.
Qed.

(** The helper is the library's encoding of the bytes. *)
Definition byte_string (b : list Z) : string := fold_right (fun v s => String (ascii_of_N (Z.to_N v)) s) "" b.
Definition hex_pair_ok (v : Z) : bool :=
  String.eqb (hex_char (Z.shiftr v 4) +:+ hex_char (Z.land v 15)) (hex_byte (ascii_of_N (Z.to_N v))).

Lemma hex_pair v : 0 <= v < 256 -> hex_char (Z.shiftr v 4) +:+ hex_char (Z.land v 15) = hex_byte (ascii_of_N (Z.to_N v)).
Proof.
  intros Hv. assert (Hall : forallb hex_pair_ok (map Z.of_nat (seq 0 256)) = true) by (vm_compute; reflexivity).
  rewrite forallb_forall in Hall. apply String.eqb_eq, (Hall v). apply in_map_iff. exists (Z.to_nat v).
  split; [lia|]. apply in_seq. lia.
Qed.

Lemma hexEncode_is_hex b : Forall (fun v => 0 <= v < 256) b -> hexEncodeToString b = hex_encode (byte_string b).
Proof.
  induction 1 as [|v b Hv _ IH]; [done|]. cbn [hexEncodeToString byte_string fold_right hex_encode].
  rewrite <- append_assoc, hex_pair by done. f_equal. exact IH.
Qed.

Lemma byte_string_inj b b' : Forall (fun v => 0 <= v < 256) b -> Forall (fun v => 0 <= v < 256) b' ->
  byte_string b = byte_string b' -> b = b'.
Proof.
  intros Hb. revert b'. induction Hb as [|v b Hv _ IH]; intros [|v' b'] Hb' E; try done.
  apply Forall_cons in Hb' as [Hv' Hb']. cbn in E. injection E as Ev Eb. f_equal; [|by apply IH].
  apply (f_equal N_of_ascii) in Ev. rewrite !N_ascii_embedding in Ev by lia. lia.
Qed.

Lemma randRead_bytes t : Forall (fun v => 0 <= v < 256) (randRead t).
Proof. apply Forall_forall. intros v (i & -> & _)%list_elem_of_fmap. unfold clock_byte, wrap_u. apply Z.mod_pos_bound. lia. Qed.

(** Spans that begin at different nanoseconds have different identifiers. *)
Lemma span_ids_distinct t t' : 0 <= t < 2 ^ 63 -> 0 <= t' < 2 ^ 63 -> sb_newSpanID t = sb_newSpanID t' -> t = t'.
Proof.
  intros Ht Ht' E. unfold sb_newSpanID in E. rewrite !hexEncode_is_hex in E by apply randRead_bytes.
  apply hex_encode_inj, byte_string_inj in E; [|apply randRead_bytes..].
  assert (Hm : t mod 256 ^ Z.of_nat 8 = t' mod 256 ^ Z.of_nat 8).
  { apply bytes_determine. intros i Hi.
    assert (El : randRead t !! i = randRead t' !! i) by (by rewrite E). unfold randRead in El.
    rewrite !list_lookup_fmap, lookup_seq_lt in El by lia. cbn in El. congruence. }
  rewrite !Z.mod_small in Hm by (cbn; lia). done.
Qed.
Example span_id : sb_newSpanID 1700000000123456789 = "15cd853dfe9c9717".
Proof. vm_compute. reflexivity. Qed.
